(* ===== verification/_CoqProject ===== *)
-Q . S2P
Prelude.v
Request.v
Double.v
Dram.v
DramTiming.v
BankProtocol.v
Device.v
Standard.v
SpecDDR3.v
SpecDDR4.v
SpecGDDR5.v
SpecHBM.v
SpecHMC.v
SpecLPDDR3.v
SpecLPDDR4.v
SpecWideIO.v
SpecWideIO2.v
SpecALDRAM.v
SpecTLDRAM.v
SpecDSARP.v
DeviceTheorems.v
StandardTheorems.v
Scheduler.v
SchedulerTheorems.v
BankMap.v
Serving.v
Controller.v
CtrlQueries.v
ControllerInv.v
ControllerTick.v
ControllerReads.v
ControllerTheorems.v
WideController.v
AldramController.v
TldramController.v
DsarpRefresh.v
DsarpInv.v
DsarpTheorems.v
Memory.v
MemoryMap.v
MemoryInv.v
MemoryTheorems.v
Packet.v
HmcController.v
Link.v
HmcMemory.v
VaultInv.v
NetInv.v
HmcMap.v
HmcMemInv.v
HmcTheorems.v
ZsimMem.v
ZsimRepl.v
ZsimArray.v
ZsimZArray.v
ZsimCoherence.v
ZsimInv.v
ZsimDown.v
ZsimGrant.v
ZsimAccess.v
Window.v
Cache.v
CacheInv.v
Trace.v
TraceTheorems.v
ZsimMemCtrl.v
ZsimTrace.v
ZsimTheorems.v
ZsimFilter.v
Processor.v
ProcessorInv.v
MemoryIface.v
ProcessorInit.v
CacheTheorems.v
CoreTheorems.v
ProcessorTheorems.v
Config.v
ConfigTheorems.v
Simulation.v
SimulationTheorems.v
