(* ===== verification/Prelude.v ===== *)
(** * Ramulator-PIM: a verification library

    Ramulator ([ramulator/src]) is a cycle-level simulator: traces of
    instructions run on cores with caches; their misses become requests to a
    memory of channels, each with a controller that schedules commands to a tree
    of DRAM nodes whose rules come from a table-driven standard (DDR3, DDR4,
    ...).  Its traces come from zsim ([zsim-ramulator/src]), a simulator of cores
    and a hierarchy of coherent caches whose memory controllers write a line for
    every access that reaches them.  This library models Ramulator and zsim's
    memory hierarchy and proves what makes them correct.

    ** Conventions

    A failed [assert], an index out of range, a null pointer, an exception or a
    read of something never written is [None]; every function that can meet one
    returns an option.  A C++ [int] or [long] is a [Z]; conversions that wrap are
    written out where the code narrows ([as_int], [as_unsigned], [to_int], ...).
    Sums that the code keeps in [long] clocks and counters are unbounded.
    Callbacks are returned as the list of requests they run on, in order.
    [std::map] is [gmap], [std::vector] a list with [zlookup]; pointers into
    shared structures (caches, list nodes) are indices into an explicit store.
    The per-core statistics are vectors whose [operator[]] asserts its range
    ([VectorStat], [bump] of [Controller.v]), so a request whose [coreid] is not
    a core of the memory aborts where it is counted; the theorems on [send] and
    [tick] say when.  A member that is read but never initialised and that does
    not end the run is an argument: [cub] of the logic layers ([uninit] of
    [start_hmc]), [threadIdx] of [MemoryTraces].

    ** Parts

    - Devices.  [Request.v]: [Request.h].  [Dram.v]: [DRAM<T>] of [DRAM.h], the
      tree of nodes with [decode], [check], [get_next], [update] and the counters
      of requests being served.  [DramTiming.v], [BankProtocol.v], [Device.v],
      [BankMap.v], [Serving.v]: the invariants of a device under commands (timing
      histories, bank states, open rows, counters).
    - Standards.  [Standard.v] has what their files share, and [SpecDDR3.v],
      [SpecDDR4.v], [SpecGDDR5.v], [SpecHBM.v], [SpecHMC.v], [SpecLPDDR3.v],
      [SpecLPDDR4.v], [SpecWideIO.v], [SpecWideIO2.v] and the research variants
      [SpecALDRAM.v], [SpecTLDRAM.v], [SpecDSARP.v] one standard each: its
      enumerations, tables and functions of [<std>.h] and [<std>.cpp], and the
      instances of the classes through which devices use it ([TimingOK],
      [LambdaFrame], [BankProtocol]).
    - Controller.  [Scheduler.v]: [Scheduler.h] (scheduler, row policy, row
      table).  [Controller.v]: [Controller.h] and [Refresh.h], the whole cycle.
      [CtrlQueries.v] states what a controller needs of a standard ([CtrlLaws])
      and proves it of nine standards; [ControllerInv.v],
      [ControllerTick.v] and [ControllerReads.v] are the invariant, its
      preservation and the conservation of reads.
    - Specialised controllers ([Controller.cpp], [Refresh.cpp]).
      [WideController.v]: the cycle of WideIO2, in bursts.  [AldramController.v]:
      the change of temperature.  [TldramController.v]: the cycle of TL-DRAM,
      which turns reads into migrations.  [DsarpRefresh.v]: [Refresh<DSARP>];
      [DsarpInv.v]: what its operations do to the credits, and that they return.
    - Memory.  [Memory.v]: [Memory.h] and [MemoryFactory.h] (address mapping,
      [send], [tick], page allocation).  [MemoryMap.v] and
      [MemoryInv.v]: page tables, logarithms and bit slices, reachable memories
      for any standard with [MemLaws].
    - HMC.  [Double.v]: the binary64 operations the link timing needs.
      [Packet.v], [HmcController.v], [Link.v], [HmcMemory.v]: [Packet.h],
      [HMC_Controller.h], [LogicLayer.h] with [LogicLayer.cpp], [HMC_Memory.h]
      (and [start_run<HMC>] of [Main.cpp]).  A request is an item on a link, in a
      vault or in a response: [VaultInv.v] (one vault, over the invariant of the
      base controller), [NetInv.v] (links and crossbar), [HmcMap.v]
      (configurations and addresses), [HmcMemInv.v] (reachable memories).
    - Processor.  [Window.v], [Cache.v], [Trace.v], [Processor.v]: the classes of
      [Processor.h], [Processor.cpp], [Cache.h] and [Cache.cpp].  [CacheInv.v]
      states what a cache promises (a non-blocking LRU cache, [a_send] and
      [a_callback]) and proves it.  The processor sees the memory as the class
      [MemoryBase] (the virtual base class of [Memory.h]) with the laws
      [MemoryLaws] of [ProcessorInv.v]; [MemoryIface.v] discharges them for
      [Memory<T>].  [ProcessorInit.v]: what the constructor builds.
    - zsim.  [ZsimMem.v]: [memory_hierarchy.h] and the state of a cache ([Cache]
      of [cache.h], [MESIBottomCC] and [MESITopCC] of
      [coherence_ctrls.h], what [FilterCache] of [filter_cache.h] adds).  [ZsimRepl.v]: replacement policies of
      [repl_policies.h], with the interface [ReplPolicy] and its laws.
      [ZsimArray.v]: [SetAssocArray] of [cache_arrays.cpp], with the interface
      [CacheArray] and its laws, which hold for any replacement policy;
      [ZsimZArray.v]: [ZArray], which keeps the same laws.
      [ZsimCoherence.v]: [coherence_ctrls.cpp] and [cache.cpp], the access,
      eviction and invalidation of lines in a system of caches that call each
      other, over any [CacheArray] and any [MemController].  The caches are a
      store indexed by number; a [StatePtr] names the place a controller writes
      a state to.  Its last part is the cores' side, [FilterCache]: loads and
      stores, which go to the hierarchy when the filter misses.  [ZsimMemCtrl.v]: [SimpleMemory] and [MemoryTraces] of
      [mem_ctrls.h] and [mem_ctrls.cpp].  [ZsimInv.v] states how caches are
      linked and ties a system to functions of the address ([rep]: the state,
      the sharers and the array of every cache); [ZsimDown.v] has what holds
      between a cache and its children ([link_ok]) and what invalidations do;
      [ZsimGrant.v] the invariant of the tree ([coh]) and what a parent grants;
      [ZsimAccess.v] the whole access of one cache.  [ZsimFilter.v] follows what
      any operation may do to a first-level cache ([kpost]) for the filters.
      The model runs one request at a time: the locks, which let requests of
      different cores overlap in the code, and the recorders of contention
      events are left out; cycles and counters are unbounded.  The hypothesis
      [net_ok] says how a configuration may link caches: levels decrease from
      parent to child, and a child is at the index [children] has for it.
    - Programs.  [Config.v]: [Config.h], [Config.cpp].  [Simulation.v]: the loops
      [run_dramtrace] and [run_cputrace] of [Main.cpp].

    ** Theorems

    - [DeviceTheorems.v]: [check] decides the timing constraints of the standard
      over the whole history of commands; [get_next] is the earliest legal time;
      [decode] leads to the request in the prescribed commands; row-buffer status.
    - [StandardTheorems.v]: tables of the standards (sizes, activation windows,
      which constructors fail).
    - [SchedulerTheorems.v], [ControllerTheorems.v]: which request the policies
      choose; the commands a controller issues are legal; when a cycle aborts;
      the row table mirrors the device; reads are conserved; refreshes are on
      time; two policies that abort.
    - [WideController.v]: bursts and column commands correspond.
      [TldramController.v]: a migration is ready when its read was, and skips the
      write recovery.  [AldramController.v]: a refresh takes no time.
      [DsarpTheorems.v]: the credits of the banks, when the refresh scheduler
      returns, which bank it refreshes while writes drain.
    - [MemoryTheorems.v]: the address mapping and its inverse; legality of all
      channels; when [send] and [tick] abort; the page allocator.  The mapping is
      a bijection for counts that are powers of two and merges addresses for
      others.
    - [HmcTheorems.v]: requests and tags of the HMC network are conserved; when a
      cycle aborts; when [send] refuses or aborts, and that a request whose stack
      is not the unset [cub] of the first layer is never served; the address
      mapping and its inverse.
    - [CacheTheorems.v], [CoreTheorems.v], [ProcessorTheorems.v]: cache and window
      refine their specifications; the in-order core stalls; no load is lost in
      any reachable state of a processor, down to the DRAM of the memory behind
      it; a configuration that aborts.
    - [ZsimTheorems.v]: from empty caches, every access of a core is granted;
      single writer or multiple readers; the directory of every cache is exact
      and inclusion holds.  [ZsimFilter.v]: the same for loads and stores that a
      filter answers, for one process and first-level caches as [init.cpp] builds
      them.  [ZsimZArray.v]: the zcache array is a finite map whatever lines it
      moves.  [ZsimTrace.v]: what Ramulator's reader makes of the
      lines [MemoryTraces] writes, and on which the two agree; the lines account
      for the instructions reported.
    - [TraceTheorems.v], [ConfigTheorems.v]: round trips of the file formats, and
      what their readers make of any text.
    - [SimulationTheorems.v]: reads in flight of a memory trace; clock domains.

    ** Fuel

    Every loop that is not structural has a bound that a theorem shows to be
    enough: the levels of a device ([new_channel], [update_state]), 32 halvings of
    an [int] ([calc_log2]), the number of pages ([find_free]), 4 preparing
    commands ([prepare]), 4 cache levels ([cache_fuel]), [ipc + 1] rounds of a
    core's loops, the characters of a file ([read_trace],
    whose [OutOfFuel] is not [Raised]; [parse]) or line ([tokens]), the smaller argument of [gcd], the logarithm of a token count
    ([leftmostbit]), the number of candidates ([expand]), twice the number of cache levels ([access] and
    [invalidate] of zsim).  The simulation loops run for as
    many iterations as asked; nothing bounds a simulation.

    ** Not modelled

    - The trace distributions of [Processor] that ask an HMC memory for vaults; the
      standard SALP, whose tables walk from a node to its parent and siblings.
    - [Main]'s command line and dispatch, the gem5 wrapper and
      [SpeedyController.h] (used by no standard of [Main.cpp]).
    - Floating point: frequencies and the ratios printed at the end (the timing of
      HMC links is modelled, on [SpecFloat]); the names and printing of statistics ([StatType], [Statistics]).
    - Of zsim: the cores, the scheduler of threads, the statistics, the
      instrumentation through Pin and the interposed system calls; of its memory
      hierarchy [IdealLRUArray], the policies other than LRU, the
      controllers with contention ([MD1Memory], the DDR and DRAMSim models),
      prefetchers and weave phase.
    - [common/DRAMPower]: a separate library the controller calls through
      [LibDRAMPower] when [with_drampower] is set; the calls only measure energy. *)

From stdpp Require Export base functions numbers gmap list strings.

Global Open Scope Z_scope.

(** Failure of an [assert], an out-of-range access of a vector or a read of
    something the program never wrote is the value [None]; everything else is
    [Some]. *)

(** Comparisons and bit operations stay folded under [simpl]. *)
#[global] Arguments Z.eqb : simpl never.
#[global] Arguments Z.leb : simpl never.
#[global] Arguments Z.ltb : simpl never.
#[global] Arguments Z.max : simpl never.
#[global] Arguments Z.min : simpl never.
#[global] Arguments Z.shiftr : simpl never.
#[global] Arguments Z.shiftl : simpl never.
#[global] Arguments Z.land : simpl never.
#[global] Arguments Z.lor : simpl never.

(** ** Scope and notations *)

Declare Scope ram_scope.
Delimit Scope ram_scope with ram.
Open Scope ram_scope.

(** [assert(b); k] *)
Notation "'assert!' b ; k" := (if (b : bool) then k else None)
  (at level 20, b at level 100, k at level 200, right associativity,
   format "'assert!'  b ;  '/' k") : ram_scope.

(** ** Vectors indexed by a C++ [int] *)

(** [v[i]]: a negative or too large index is outside the vector. *)
Definition zlookup {A} (v : list A) (i : Z) : option A :=
  if i <? 0 then None else v !! Z.to_nat i.

(** [f(children[i])] and [children[i] = f(children[i])].  The function is a
    parameter of the inner fixpoint, so that both can be used in a recursion
    over a tree whose nodes hold a list of children. *)
Definition at_nth {A B} (f : A → option B) : list A → nat → option B :=
  fix go l i :=
    match l, i with
    | [], _ => None
    | x :: _, O => f x
    | _ :: l, S i => go l i
    end.

Definition upd_nth {A} (f : A → option A) : list A → nat → option (list A) :=
  fix go l i :=
    match l, i with
    | [], _ => None
    | x :: l, O => y ← f x; Some (y :: l)
    | x :: l, S i => l' ← go l i; Some (x :: l')
    end.

Definition at_child {A B} (f : A → option B) (l : list A) (i : Z) : option B :=
  if i <? 0 then None else at_nth f l (Z.to_nat i).
Definition upd_child {A} (f : A → option A) (l : list A) (i : Z) : option (list A) :=
  if i <? 0 then None else upd_nth f l (Z.to_nat i).

Lemma at_nth_lookup {A B} (f : A → option B) l i : at_nth f l i = l !! i ≫= f.
Proof. revert i; induction l as [|x l IH]; intros [|i]; simpl; auto. Qed.

Lemma at_child_lookup {A B} (f : A → option B) l i : at_child f l i = zlookup l i ≫= f.
Proof. unfold at_child, zlookup. case_match; [done|]. apply at_nth_lookup. Qed.

Lemma upd_nth_lookup {A} (f : A → option A) l i :
  upd_nth f l i = x ← l !! i; y ← f x; Some (<[i:=y]> l).
Proof.
  revert i; induction l as [|x l IH]; intros [|i]; simpl; try done.
  rewrite IH. destruct (l !! i) as [y|]; simpl; [|done]. by destruct (f y).
Qed.

Lemma upd_child_lookup {A} (f : A → option A) l i :
  upd_child f l i = x ← zlookup l i; y ← f x; Some (<[Z.to_nat i:=y]> l).
Proof. unfold upd_child, zlookup. case_match; [done|]. apply upd_nth_lookup. Qed.

Lemma upd_child_Some {A} (f : A → option A) l i l' :
  upd_child f l i = Some l' →
  ∃ x y, 0 ≤ i ∧ l !! Z.to_nat i = Some x ∧ f x = Some y ∧ l' = <[Z.to_nat i:=y]> l.
Proof.
  rewrite upd_child_lookup. unfold zlookup. intros H. repeat case_match; [done|].
  destruct (l !! Z.to_nat i) as [x|] eqn:?; simplify_eq/=.
  destruct (f x) as [y|] eqn:?; simplify_eq/=. exists x, y. split_and!; auto; lia.
Qed.

Lemma zlookup_nat {A} (l : list A) p : 0 ≤ p → zlookup l p = l !! Z.to_nat p.
Proof. intros. unfold zlookup. by rewrite (proj2 (Z.ltb_ge _ _)) by lia. Qed.

(** A loop over a vector that succeeds at every index. *)
Lemma mapM_indexed {A B} (f : A → option B) (P : nat → B → Prop) l :
  (∀ j x, l !! j = Some x → ∃ y, f x = Some y ∧ P j y) →
  ∃ l', mapM f l = Some l' ∧ length l' = length l ∧ ∀ j y, l' !! j = Some y → P j y.
Proof.
  revert P; induction l as [|x l IH]; intros P Hl.
  { exists []. split_and!; [done..|]. by intros [|]. }
  destruct (Hl 0%nat x eq_refl) as (y&Hy&HP).
  destruct (IH (λ j, P (S j))) as (l'&Hl'&Hlen&HPl); [intros j z Hz; by apply (Hl (S j))|].
  exists (y :: l'). simpl. rewrite Hy; simpl. rewrite Hl'; simpl.
  split_and!; [done|lia|]. intros [|j] z Hz; simplify_eq/=; auto.
Qed.

(** Two lists with the same image have related elements at every index. *)
Lemma map_eq_lookup {A B} (f : A → B) l l' j x' :
  map f l' = map f l → l' !! j = Some x' → ∃ x, l !! j = Some x ∧ f x' = f x.
Proof.
  intros E Hj. apply (f_equal (lookup j)) in E. rewrite !list_lookup_fmap, Hj in E.
  destruct (l !! j) as [x|]; simplify_eq/=. eauto.
Qed.

Lemma lookup_map {A B} (f : A → B) l i : map f l !! i = f <$> l !! i.
Proof. apply list_lookup_fmap. Qed.

(** Deleting one position of a list. *)
Lemma sublist_delete {A} k (l : list A) : delete k l `sublist_of` l.
Proof. revert k; induction l as [|x l IH]; intros [|k]; simpl; try constructor; auto. Qed.

Lemma map_delete {A B} (f : A → B) k l : map f (delete k l) = delete k (map f l).
Proof. revert k; induction l as [|x l IH]; intros [|k]; simpl; f_equal; auto. Qed.

Lemma map_insert {A B} (f : A → B) k x l : map f (<[k:=x]> l) = <[k:=f x]> (map f l).
Proof. exact (list_fmap_insert f l k x). Qed.

Lemma delete_app_lt {A} k (l l' : list A) : (k < length l)%nat → delete k (l ++ l') = delete k l ++ l'.
Proof. revert k; induction l as [|x l IH]; intros [|k] Hk; simpl in *; [lia|lia|done|]. f_equal. apply IH. lia. Qed.

Lemma NoDup_delete_notin {A} (l : list A) k x : NoDup l → l !! k = Some x → x ∉ delete k l.
Proof.
  revert k; induction l as [|y l IH]; intros k Hnd Hk; [by destruct k|].
  apply NoDup_cons in Hnd as [Hy Hnd]. destruct k as [|k]; simplify_eq/=; [done|].
  apply not_elem_of_cons. split; [|by apply IH]. intros ->. apply Hy. by eapply list_elem_of_lookup_2.
Qed.

Lemma elem_of_delete_ne {A} (l : list A) j k x : l !! k = Some x → k ≠ j → x ∈ delete j l.
Proof.
  revert j k; induction l as [|y l IH]; intros j k Hk Hne; [done|].
  destruct j as [|j], k as [|k]; simplify_eq/=; [by eapply list_elem_of_lookup_2|by left|].
  right. eapply IH; [done|congruence].
Qed.

Lemma map_eq_length {A B} (f : A → B) l l' : map f l' = map f l → length l' = length l.
Proof. intros E. apply (f_equal length) in E. by rewrite !length_map in E. Qed.

(** A computation that returns, as a value. *)
Lemma Some_default {A} (a : A) (x : option A) :
  match x with Some _ => true | None => false end = true → x = Some (default a x).
Proof. by destruct x. Qed.

(** A loop whose body may abort. *)
Definition foldM {A B} (f : A → B → option A) : A → list B → option A :=
  fix go a l := match l with [] => Some a | b :: l => a' ← f a b; go a' l end.

Lemma foldM_app {A B} (f : A → B → option A) a l k :
  foldM f a (l ++ k) = a' ← foldM f a l; foldM f a' k.
Proof. revert a; induction l as [|b l IH]; intros a; simpl; [done|]. destruct (f a b); simpl; auto. Qed.

Lemma foldM_map {A B B'} (f : A → B → option A) (g : B' → B) a l :
  foldM f a (map g l) = foldM (λ a b, f a (g b)) a l.
Proof. revert a; induction l as [|b l IH]; intros a; simpl; [done|]. destruct (f a (g b)); simpl; auto. Qed.

(** A loop that succeeds: [P] relates the number of iterations made to the state. *)
Lemma foldM_inv {A B} (f : A → B → option A) (P : A → Prop) a l a' :
  (∀ x b x', f x b = Some x' → P x → P x') → foldM f a l = Some a' → P a → P a'.
Proof.
  intros Hf. revert a. induction l as [|b l IH]; intros a H Ha; simpl in H; [by simplify_eq|].
  destruct (f a b) as [x|] eqn:E; simpl in H; [|done]. by eapply IH; [|eapply Hf].
Qed.

Lemma foldM_ok {A B} (f : A → B → option A) (P : nat → A → Prop) a l :
  P 0%nat a →
  (∀ i b x, l !! i = Some b → P i x → ∃ x', f x b = Some x' ∧ P (S i) x') →
  ∃ a', foldM f a l = Some a' ∧ P (length l) a'.
Proof.
  revert P a; induction l as [|b l IH]; intros P a Ha Hf; simpl; [by exists a|].
  destruct (Hf 0%nat b a eq_refl Ha) as (x&Hx&HP). rewrite Hx; simpl.
  apply (IH (λ i, P (S i))); [done|]. intros i c y Hi Hy. by apply (Hf (S i)).
Qed.

(** ** The development's tactics *)

(** Case analysis on everything a definition tests. *)
Ltac case_all :=
  repeat (case_match || case_decide || case_bool_decide); simplify_eq/=.

(** Peel the binds of a computation that is known to return. *)
Ltac run_opt :=
  repeat match goal with
    | H : (_ ≫= _) = Some _ |- _ =>
        apply bind_Some in H; destruct H as (?&?&H)
    | H : (if ?b then _ else None) = Some _ |- _ =>
        destruct b eqn:?; [|discriminate H]
    | H : Some _ = Some _ |- _ => injection H as H; subst
    | H : (_ && _) = true |- _ => apply andb_prop in H; destruct H
    end.

Create HintDb ram.
#[export] Hint Resolve Z.le_max_l Z.le_max_r : ram.
