(* ===== verification/Request.v ===== *)
(** * Requests ([ramulator/src/Request.h])

    The request record and its type tag.  The callback is a host function
    object: it is not a field here, and a definition that runs it returns the
    request it was run on. *)

From S2P Require Import Prelude.

(** [Request::Type] *)
Inductive ReqType :=
  READ | WRITE | REFRESH | POWERDOWN | SELFREFRESH | EXTENSION | INSTRUCTION | ReqMAX.

#[export] Instance ReqType_eq_dec : EqDecision ReqType.
Proof. solve_decision. Defined.

(** [class Request] *)
Record Request := mkRequest {
  is_first_command : bool;
  addr : Z;
  addr_vec : list Z;
  reqid : Z;
  coreid : Z;
  initial_addr : Z;
  instruction_request : bool;
  type : ReqType;
  arrive : Z;
  depart : Z;
  arrive_hmc : Z;
  depart_hmc : Z;
  burst_count : Z;
  transaction_bytes : Z
}.

#[export] Instance Request_eq_dec : EqDecision Request.
Proof. solve_decision. Defined.

(** [Request(addr, type, callback, coreid)]: [initial_addr == addr] in the
    constructor's body is a comparison whose value is dropped, so
    [initial_addr] keeps the value 0 of its initialiser.  The fields the
    constructor leaves unset ([depart], [arrive_hmc], [depart_hmc]) are written
    before they are read; 0 stands for them. *)
Definition Request_addr (a : Z) (t : ReqType) (core : Z) : Request :=
  {| is_first_command := true; addr := a; addr_vec := []; reqid := -1;
     coreid := core; initial_addr := 0; instruction_request := false; type := t;
     arrive := -1; depart := 0; arrive_hmc := 0; depart_hmc := 0;
     burst_count := 0; transaction_bytes := 0 |}.

(** [Request(addr_vec, type, callback, coreid)]; [addr] is unset, and is not
    read for the requests built this way (refreshes). *)
Definition Request_addr_vec (v : list Z) (t : ReqType) (core : Z) : Request :=
  {| is_first_command := true; addr := 0; addr_vec := v; reqid := -1;
     coreid := core; initial_addr := 0; instruction_request := false; type := t;
     arrive := -1; depart := 0; arrive_hmc := 0; depart_hmc := 0;
     burst_count := 0; transaction_bytes := 0 |}.

(** Field updates. *)
Definition set_is_first_command (x : bool) (r : Request) : Request :=
  mkRequest x (addr r) (addr_vec r) (reqid r) (coreid r) (initial_addr r)
    (instruction_request r) (type r) (arrive r) (depart r) (arrive_hmc r)
    (depart_hmc r) (burst_count r) (transaction_bytes r).
Definition set_addr (x : Z) (r : Request) : Request :=
  mkRequest (is_first_command r) x (addr_vec r) (reqid r) (coreid r) (initial_addr
    r) (instruction_request r) (type r) (arrive r) (depart r) (arrive_hmc r)
    (depart_hmc r) (burst_count r) (transaction_bytes r).
Definition set_addr_vec (x : list Z) (r : Request) : Request :=
  mkRequest (is_first_command r) (addr r) x (reqid r) (coreid r) (initial_addr r)
    (instruction_request r) (type r) (arrive r) (depart r) (arrive_hmc r)
    (depart_hmc r) (burst_count r) (transaction_bytes r).
Definition set_reqid (x : Z) (r : Request) : Request :=
  mkRequest (is_first_command r) (addr r) (addr_vec r) x (coreid r) (initial_addr r)
    (instruction_request r) (type r) (arrive r) (depart r) (arrive_hmc r)
    (depart_hmc r) (burst_count r) (transaction_bytes r).
Definition set_initial_addr (x : Z) (r : Request) : Request :=
  mkRequest (is_first_command r) (addr r) (addr_vec r) (reqid r) (coreid r) x
    (instruction_request r) (type r) (arrive r) (depart r) (arrive_hmc r)
    (depart_hmc r) (burst_count r) (transaction_bytes r).
Definition set_type (x : ReqType) (r : Request) : Request :=
  mkRequest (is_first_command r) (addr r) (addr_vec r) (reqid r) (coreid r)
    (initial_addr r) (instruction_request r) x (arrive r) (depart r) (arrive_hmc r)
    (depart_hmc r) (burst_count r) (transaction_bytes r).
Definition set_arrive (x : Z) (r : Request) : Request :=
  mkRequest (is_first_command r) (addr r) (addr_vec r) (reqid r) (coreid r)
    (initial_addr r) (instruction_request r) (type r) x (depart r) (arrive_hmc r)
    (depart_hmc r) (burst_count r) (transaction_bytes r).
Definition set_depart (x : Z) (r : Request) : Request :=
  mkRequest (is_first_command r) (addr r) (addr_vec r) (reqid r) (coreid r)
    (initial_addr r) (instruction_request r) (type r) (arrive r) x (arrive_hmc r)
    (depart_hmc r) (burst_count r) (transaction_bytes r).
Definition set_arrive_hmc (x : Z) (r : Request) : Request :=
  mkRequest (is_first_command r) (addr r) (addr_vec r) (reqid r) (coreid r)
    (initial_addr r) (instruction_request r) (type r) (arrive r) (depart r) x
    (depart_hmc r) (burst_count r) (transaction_bytes r).
Definition set_depart_hmc (x : Z) (r : Request) : Request :=
  mkRequest (is_first_command r) (addr r) (addr_vec r) (reqid r) (coreid r)
    (initial_addr r) (instruction_request r) (type r) (arrive r) (depart r)
    (arrive_hmc r) x (burst_count r) (transaction_bytes r).
Definition set_burst_count (x : Z) (r : Request) : Request :=
  mkRequest (is_first_command r) (addr r) (addr_vec r) (reqid r) (coreid r)
    (initial_addr r) (instruction_request r) (type r) (arrive r) (depart r)
    (arrive_hmc r) (depart_hmc r) x (transaction_bytes r).
Definition set_transaction_bytes (x : Z) (r : Request) : Request :=
  mkRequest (is_first_command r) (addr r) (addr_vec r) (reqid r) (coreid r)
    (initial_addr r) (instruction_request r) (type r) (arrive r) (depart r)
    (arrive_hmc r) (depart_hmc r) (burst_count r) x.
Definition set_instruction_request (x : bool) (r : Request) : Request :=
  mkRequest (is_first_command r) (addr r) (addr_vec r) (reqid r) (coreid r)
    (initial_addr r) x (type r) (arrive r) (depart r) (arrive_hmc r) (depart_hmc r)
    (burst_count r) (transaction_bytes r).
