(* ===== verification/Double.v ===== *)
(** * Double precision numbers

    The few [double] computations that decide when a packet leaves a link:
    IEEE binary64 operations on the Standard Library's [spec_float], rounding to
    nearest even, and [ceil] converted to an integer. *)

From Stdlib Require Import SpecFloat.
From S2P Require Import Prelude.

Definition double : Type := spec_float.

(** [double(z)] for an integer, [x * y] and [x / y]. *)
Definition d_int (z : Z) : double := binary_normalize 53 1024 z 0 false.
Definition d_mul (x y : double) : double := SFmul 53 1024 x y.
Definition d_div (x y : double) : double := SFdiv 53 1024 x y.

(** [long(ceil(x))]; undefined for infinities and NaNs. *)
Definition d_ceil (x : double) : option Z :=
  match x with
  | S754_zero _ => Some 0
  | S754_finite s m e =>
    let v := if s then Z.neg m else Z.pos m in
    Some (if 0 <=? e then v * 2 ^ e else - ((- v) / 2 ^ (- e)))
  | _ => None
  end.

(** Literals: a decimal fraction is the quotient of two integers, correctly
    rounded. *)
Definition d_frac (n d : Z) : double := d_div (d_int n) (d_int d).

Example d_ceil_1 : d_ceil (d_mul (d_int 5) (d_frac 1 3)) = Some 2.
Proof. vm_compute. reflexivity. Qed.
Example d_ceil_2 : d_ceil (d_frac (-7) 2) = Some (-3).
Proof. vm_compute. reflexivity. Qed.
