(* ===== verification/Dram.v ===== *)
(** * The DRAM device tree ([ramulator/src/DRAM.h])

    [DRAM<T>] is a tree (channel, rank, bank, ...) whose nodes keep a state, the
    open rows, the earliest clock at which each command may be issued ([next])
    and the recent issue times of each command ([prev]).  The template
    parameter [T] (DDR3, HMC, ...) is the record [Spec]: the tables the
    standards fill in.  Arrays indexed by an enumeration are functions on it,
    [vector<int>] addresses are [list Z], and [None] is a failed [assert] or an
    out-of-range access. *)

From S2P Require Import Prelude Request.

(** ** Data *)

(** [T::TimingEntry] *)
Record TimingEntry {C : Type} := mkTiming {
  t_cmd : C;
  t_dist : Z;
  t_val : Z;
  t_sibling : bool
}.
Arguments TimingEntry : clear implicits.
Arguments mkTiming {C}.

(** Statistics members of [DRAM<T>]: counters ([ScalarStat]) and the trackers
    of the serving and refreshing intervals. *)
Record dram_stats := mkStats {
  active_cycles : Z;
  refresh_cycles : Z;
  busy_cycles : Z;
  active_refresh_overlap_cycles : Z;
  serving_requests : Z;
  cur_serving_requests : Z;
  begin_of_serving : Z;
  end_of_serving : Z;
  begin_of_cur_reqcnt : Z;
  begin_of_refreshing : Z;
  end_of_refreshing : Z;
  refresh_intervals : list (Z * Z)
}.

Definition stats0 : dram_stats := mkStats 0 0 0 0 0 0 (-1) (-1) (-1) (-1) (-1) [].

(** The members of one node. *)
Record dram_info {L C S : Type} := mkInfo {
  level : L;
  nid : Z;
  state : S;
  row_state : gmap Z S;
  cur_clk : Z;
  next : C → Z;
  prev : C → list Z;
  stats : dram_stats
}.
Arguments dram_info : clear implicits.
Arguments mkInfo {L C S}.

(** [DRAM<T>]: a node and [children]. *)
#[warnings="-register-all"]
Inductive DRAM {L C S : Type} := Dram (n : dram_info L C S) (children : list DRAM).
Arguments DRAM : clear implicits.
Arguments Dram {L C S}.

Definition info {L C S} (d : DRAM L C S) : dram_info L C S := let '(Dram n _) := d in n.
Definition children {L C S} (d : DRAM L C S) : list (DRAM L C S) := let '(Dram _ cs) := d in cs.

(** Member updates. *)
Definition set_nid {L C S} (x : Z) (n : dram_info L C S) : dram_info L C S :=
  mkInfo (level n) x (state n) (row_state n) (cur_clk n) (next n) (prev n) (stats
    n).
Definition set_state {L C S} (x : S) (n : dram_info L C S) : dram_info L C S :=
  mkInfo (level n) (nid n) x (row_state n) (cur_clk n) (next n) (prev n) (stats n).
Definition set_row_state {L C S} (x : gmap Z S) (n : dram_info L C S) : dram_info L C S :=
  mkInfo (level n) (nid n) (state n) x (cur_clk n) (next n) (prev n) (stats n).
Definition set_cur_clk {L C S} (x : Z) (n : dram_info L C S) : dram_info L C S :=
  mkInfo (level n) (nid n) (state n) (row_state n) x (next n) (prev n) (stats n).
Definition set_next {L C S} (x : C → Z) (n : dram_info L C S) : dram_info L C S :=
  mkInfo (level n) (nid n) (state n) (row_state n) (cur_clk n) x (prev n) (stats n).
Definition set_prev {L C S} (x : C → list Z) (n : dram_info L C S) : dram_info L C S :=
  mkInfo (level n) (nid n) (state n) (row_state n) (cur_clk n) (next n) x (stats n).
Definition set_stats {L C S} (x : dram_stats) (n : dram_info L C S) : dram_info L C S :=
  mkInfo (level n) (nid n) (state n) (row_state n) (cur_clk n) (next n) (prev n) x.

Definition set_active_cycles (x : Z) (st : dram_stats) : dram_stats :=
  mkStats x (refresh_cycles st) (busy_cycles st) (active_refresh_overlap_cycles st)
    (serving_requests st) (cur_serving_requests st) (begin_of_serving st)
    (end_of_serving st) (begin_of_cur_reqcnt st) (begin_of_refreshing st)
    (end_of_refreshing st) (refresh_intervals st).
Definition set_refresh_cycles (x : Z) (st : dram_stats) : dram_stats :=
  mkStats (active_cycles st) x (busy_cycles st) (active_refresh_overlap_cycles st)
    (serving_requests st) (cur_serving_requests st) (begin_of_serving st)
    (end_of_serving st) (begin_of_cur_reqcnt st) (begin_of_refreshing st)
    (end_of_refreshing st) (refresh_intervals st).
Definition set_busy_cycles (x : Z) (st : dram_stats) : dram_stats :=
  mkStats (active_cycles st) (refresh_cycles st) x (active_refresh_overlap_cycles
    st) (serving_requests st) (cur_serving_requests st) (begin_of_serving st)
    (end_of_serving st) (begin_of_cur_reqcnt st) (begin_of_refreshing st)
    (end_of_refreshing st) (refresh_intervals st).
Definition set_active_refresh_overlap_cycles (x : Z) (st : dram_stats) : dram_stats :=
  mkStats (active_cycles st) (refresh_cycles st) (busy_cycles st) x
    (serving_requests st) (cur_serving_requests st) (begin_of_serving st)
    (end_of_serving st) (begin_of_cur_reqcnt st) (begin_of_refreshing st)
    (end_of_refreshing st) (refresh_intervals st).
Definition set_serving_requests (x : Z) (st : dram_stats) : dram_stats :=
  mkStats (active_cycles st) (refresh_cycles st) (busy_cycles st)
    (active_refresh_overlap_cycles st) x (cur_serving_requests st) (begin_of_serving
    st) (end_of_serving st) (begin_of_cur_reqcnt st) (begin_of_refreshing st)
    (end_of_refreshing st) (refresh_intervals st).
Definition set_cur_serving_requests (x : Z) (st : dram_stats) : dram_stats :=
  mkStats (active_cycles st) (refresh_cycles st) (busy_cycles st)
    (active_refresh_overlap_cycles st) (serving_requests st) x (begin_of_serving st)
    (end_of_serving st) (begin_of_cur_reqcnt st) (begin_of_refreshing st)
    (end_of_refreshing st) (refresh_intervals st).
Definition set_begin_of_serving (x : Z) (st : dram_stats) : dram_stats :=
  mkStats (active_cycles st) (refresh_cycles st) (busy_cycles st)
    (active_refresh_overlap_cycles st) (serving_requests st) (cur_serving_requests
    st) x (end_of_serving st) (begin_of_cur_reqcnt st) (begin_of_refreshing st)
    (end_of_refreshing st) (refresh_intervals st).
Definition set_end_of_serving (x : Z) (st : dram_stats) : dram_stats :=
  mkStats (active_cycles st) (refresh_cycles st) (busy_cycles st)
    (active_refresh_overlap_cycles st) (serving_requests st) (cur_serving_requests
    st) (begin_of_serving st) x (begin_of_cur_reqcnt st) (begin_of_refreshing st)
    (end_of_refreshing st) (refresh_intervals st).
Definition set_begin_of_cur_reqcnt (x : Z) (st : dram_stats) : dram_stats :=
  mkStats (active_cycles st) (refresh_cycles st) (busy_cycles st)
    (active_refresh_overlap_cycles st) (serving_requests st) (cur_serving_requests
    st) (begin_of_serving st) (end_of_serving st) x (begin_of_refreshing st)
    (end_of_refreshing st) (refresh_intervals st).
Definition set_begin_of_refreshing (x : Z) (st : dram_stats) : dram_stats :=
  mkStats (active_cycles st) (refresh_cycles st) (busy_cycles st)
    (active_refresh_overlap_cycles st) (serving_requests st) (cur_serving_requests
    st) (begin_of_serving st) (end_of_serving st) (begin_of_cur_reqcnt st) x
    (end_of_refreshing st) (refresh_intervals st).
Definition set_end_of_refreshing (x : Z) (st : dram_stats) : dram_stats :=
  mkStats (active_cycles st) (refresh_cycles st) (busy_cycles st)
    (active_refresh_overlap_cycles st) (serving_requests st) (cur_serving_requests
    st) (begin_of_serving st) (end_of_serving st) (begin_of_cur_reqcnt st)
    (begin_of_refreshing st) x (refresh_intervals st).
Definition set_refresh_intervals (x : list (Z * Z)) (st : dram_stats) : dram_stats :=
  mkStats (active_cycles st) (refresh_cycles st) (busy_cycles st)
    (active_refresh_overlap_cycles st) (serving_requests st) (cur_serving_requests
    st) (begin_of_serving st) (end_of_serving st) (begin_of_cur_reqcnt st)
    (begin_of_refreshing st) (end_of_refreshing st) x.

(** [node->state = s; node->row_state = r] on the node of a tree. *)
Definition on_info {L C S} (f : dram_info L C S → dram_info L C S) (d : DRAM L C S) : DRAM L C S :=
  let '(Dram n cs) := d in Dram (f n) cs.

(** ** The interface of a DRAM standard: the members of [T] that [DRAM<T>],
    the scheduler, the refresh logic and the controllers read. *)
Record Spec {L C S : Type} := mkSpec {
  level_int : L → nat;                 (* int(level) *)
  level_cast : nat → option L;         (* T::Level(i) *)
  level_MAX : nat;                     (* int(T::Level::MAX) *)
  lvl_Bank : L;                        (* T::Level::Bank *)
  lvl_Row : L;                         (* T::Level::Row *)
  cmd_MAX : C;                         (* T::Command::MAX *)
  cmd_PRE : C;                         (* T::Command::PRE *)
  scope : C → L;
  start : L → S;
  is_opening : C → bool;
  is_accessing : C → bool;
  is_closing : C → bool;
  is_refreshing : C → bool;
  translate : ReqType → C;
  prereq : L → C → option (DRAM L C S → C → Z → option C);
  rowhit : L → C → option (DRAM L C S → C → Z → option bool);
  rowopen : L → C → option (DRAM L C S → C → Z → option bool);
  lambda : L → C → option (DRAM L C S → Z → option (DRAM L C S));
  timing : L → C → list (TimingEntry C);
  count : list Z;                      (* org_entry.count *)
  nREFI : Z;                           (* speed_entry.nREFI *)
  read_latency : Z;
  prefetch_size : Z;
  channel_width : Z
}.
Arguments Spec : clear implicits.
Arguments mkSpec {L C S}.

(** ** Operations *)
Section Ops.
Context {L C S : Type} `{!EqDecision L, !EqDecision C, !EqDecision S}.
Variable spec : Spec L C S.

(** [int(level)] of a node. *)
Definition lvl (d : DRAM L C S) : nat := level_int spec (level (info d)).

(** [DRAM(T* spec, Level level)].  The history of a command is as long as the
    largest [dist] of its timing entries. *)
Definition prev_len (ts : list (TimingEntry C)) : Z :=
  foldl (λ d t, Z.max d (t_dist t)) 0 ts.

Definition new_info (l : L) (i : Z) : dram_info L C S :=
  {| level := l; nid := i; state := start spec l; row_state := ∅; cur_clk := 0;
     next := λ _, -1;
     prev := λ c, replicate (Z.to_nat (prev_len (timing spec l c))) (-1);
     stats := stats0 |}.

(** The recursion of the constructor runs down the levels and stops at
    [Level::Row]; the fuel is a bound on the number of levels. *)
Fixpoint new_dram (fuel : nat) (l : L) (i : Z) : option (DRAM L C S) :=
  match fuel with
  | O => None
  | Datatypes.S fuel =>
    let child_level := (level_int spec l + 1)%nat in
    if decide (child_level = level_int spec (lvl_Row spec)) then Some (Dram (new_info l i) [])
    else
      child_max ← count spec !! child_level;
      if child_max =? 0 then Some (Dram (new_info l i) [])
      else
        cl ← level_cast spec child_level;
        cs ← mapM (λ j : nat, new_dram fuel cl (Z.of_nat j)) (seq 0 (Z.to_nat child_max));
        Some (Dram (new_info l i) cs)
  end.

Definition new_channel (l : L) (i : Z) : option (DRAM L C S) := new_dram (level_MAX spec) l i.

(** [insert(child)] *)
Definition insert_child (child d : DRAM L C S) : DRAM L C S :=
  let '(Dram n cs) := d in Dram n (cs ++ [on_info (set_nid (Z.of_nat (length cs))) child]).

(** [decode(cmd, addr)] *)
Fixpoint decode (cmd : C) (addr : list Z) (d : DRAM L C S) : option C :=
  match d with
  | Dram n cs =>
    child_id ← addr !! (level_int spec (level n) + 1)%nat;
    prereq_cmd ← match prereq spec (level n) cmd with
                 | Some f => f d cmd child_id
                 | None => Some (cmd_MAX spec)
                 end;
    if bool_decide (prereq_cmd ≠ cmd_MAX spec) then Some prereq_cmd
    else if (child_id <? 0) || bool_decide (cs = []) then Some cmd
    else at_child (decode cmd addr) cs child_id
  end.

(** [check(cmd, addr, clk)] *)
Fixpoint check (cmd : C) (addr : list Z) (clk : Z) (d : DRAM L C S) : option bool :=
  match d with
  | Dram n cs =>
    if negb (next n cmd =? -1) && (clk <? next n cmd) then Some false
    else
      child_id ← addr !! (level_int spec (level n) + 1)%nat;
      if (child_id <? 0) || bool_decide (level n = scope spec cmd) || bool_decide (cs = [])
      then Some true
      else at_child (check cmd addr clk) cs child_id
  end.

(** [check_row_hit(cmd, addr)] and [check_row_open(cmd, addr)] *)
Fixpoint check_row_hit (cmd : C) (addr : list Z) (d : DRAM L C S) : option bool :=
  match d with
  | Dram n cs =>
    child_id ← addr !! (level_int spec (level n) + 1)%nat;
    match rowhit spec (level n) cmd with
    | Some f => f d cmd child_id
    | None =>
      if (child_id <? 0) || bool_decide (cs = []) then Some false
      else at_child (check_row_hit cmd addr) cs child_id
    end
  end.

Fixpoint check_row_open (cmd : C) (addr : list Z) (d : DRAM L C S) : option bool :=
  match d with
  | Dram n cs =>
    child_id ← addr !! (level_int spec (level n) + 1)%nat;
    match rowopen spec (level n) cmd with
    | Some f => f d cmd child_id
    | None =>
      if (child_id <? 0) || bool_decide (cs = []) then Some false
      else at_child (check_row_open cmd addr) cs child_id
    end
  end.

(** [get_next(cmd, addr)]: the loop's variables are the level [l], the node
    and [next_clk]. *)
Fixpoint get_next_loop (cmd : C) (addr : list Z) (d : DRAM L C S) (l : nat) (next_clk : Z) : option Z :=
  match d with
  | Dram n cs =>
    if bool_decide (l < level_int spec (scope spec cmd))%nat && bool_decide (cs ≠ []) then
      child_id ← addr !! (l + 1)%nat;
      if 0 <=? child_id then
        at_child (λ c, get_next_loop cmd addr c (l + 1) (Z.max next_clk (next (info c) cmd))) cs child_id
      else Some next_clk
    else Some next_clk
  end.

Definition get_next (cmd : C) (addr : list Z) (d : DRAM L C S) : option Z :=
  get_next_loop cmd addr d (lvl d) (Z.max (cur_clk (info d)) (next (info d) cmd)).

(** [update_state(cmd, addr)]: the state transition of a level may change the
    node and its children, then the child on the path is updated.  The fuel
    bounds the number of levels. *)
Fixpoint update_state_loop (fuel : nat) (cmd : C) (addr : list Z) (d : DRAM L C S) : option (DRAM L C S) :=
  match fuel with
  | O => None
  | Datatypes.S fuel =>
    child_id ← addr !! (lvl d + 1)%nat;
    d1 ← match lambda spec (level (info d)) cmd with
         | Some f => f d child_id
         | None => Some d
         end;
    let '(Dram n cs) := d1 in
    if bool_decide (level n = scope spec cmd) || bool_decide (cs = []) then Some d1
    else
      cs' ← upd_child (update_state_loop fuel cmd addr) cs child_id;
      Some (Dram n cs')
  end.

Definition update_state (cmd : C) (addr : list Z) (d : DRAM L C S) : option (DRAM L C S) :=
  update_state_loop (level_MAX spec) cmd addr d.

(** The two loops of [update_timing] over [timing[int(cmd)]]. *)
Definition raise_next (n : dram_info L C S) (t : TimingEntry C) (future : Z) : dram_info L C S :=
  set_next (<[t_cmd t := Z.max (next n (t_cmd t)) future]> (next n)) n.

Definition sibling_entry (clk : Z) (n : dram_info L C S) (t : TimingEntry C) : option (dram_info L C S) :=
  if negb (t_sibling t) then Some n
  else assert! t_dist t =? 1; Some (raise_next n t (clk + t_val t)).

(** Refresh statistics, inside the loop over the entries of a target node. *)
Definition record_refresh (clk nxt : Z) (st : dram_stats) : dram_stats :=
  let eor := Z.max (end_of_refreshing st) nxt in
  let st := set_begin_of_refreshing clk st in
  let st := set_end_of_refreshing eor st in
  let st := set_refresh_cycles (refresh_cycles st + (eor - clk)) st in
  if 0 <? cur_serving_requests st
  then set_refresh_intervals (refresh_intervals st ++ [(clk, eor)]) st
  else st.

Definition target_entry (cmd : C) (clk : Z) (n : dram_info L C S) (t : TimingEntry C) : option (dram_info L C S) :=
  if t_sibling t then Some n
  else
    past ← zlookup (prev n cmd) (t_dist t - 1);
    if past <? 0 then Some n
    else
      let n := raise_next n t (past + t_val t) in
      if is_refreshing spec cmd && is_opening spec (t_cmd t) then
        assert! past =? clk;
        Some (set_stats (record_refresh clk (next n (t_cmd t)) (stats n)) n)
      else Some n.

(** [prev[int(cmd)].pop_back(); prev[int(cmd)].push_front(clk);] *)
Definition push_history (cmd : C) (clk : Z) (n : dram_info L C S) : dram_info L C S :=
  match prev n cmd with
  | [] => n
  | h => set_prev (<[cmd := clk :: removelast h]> (prev n)) n
  end.

(** [update_timing(cmd, addr, clk)] *)
Fixpoint update_timing (cmd : C) (addr : list Z) (clk : Z) (d : DRAM L C S) : option (DRAM L C S) :=
  match d with
  | Dram n cs =>
    a ← addr !! level_int spec (level n);
    if bool_decide (nid n ≠ a) then
      n' ← foldM (sibling_entry clk) n (timing spec (level n) cmd);
      Some (Dram n' cs)
    else
      n' ← foldM (target_entry cmd clk) (push_history cmd clk n) (timing spec (level n) cmd);
      cs' ← mapM (update_timing cmd addr clk) cs;
      Some (Dram n' cs')
  end.

(** [update(cmd, addr, clk)] *)
Definition update (cmd : C) (addr : list Z) (clk : Z) (d : DRAM L C S) : option (DRAM L C S) :=
  d ← update_state cmd addr (on_info (set_cur_clk clk) d);
  update_timing cmd addr clk d.

(** [update_serving_requests(addr, delta, clk)]: the statistics of one node,
    then the child on the path, down to the level below [Bank]. *)
Definition serve_stats (delta clk : Z) (st : dram_stats) : option dram_stats :=
  let st :=
    if negb (begin_of_cur_reqcnt st =? -1) && (0 <? cur_serving_requests st) then
      let dt := clk - begin_of_cur_reqcnt st in
      set_active_cycles (active_cycles st + dt)
        (set_serving_requests (serving_requests st + dt * cur_serving_requests st) st)
    else st in
  let st := set_begin_of_cur_reqcnt clk st in
  let st := set_cur_serving_requests (cur_serving_requests st + delta) st in
  assert! 0 <=? cur_serving_requests st;
  if (delta =? 1) && (cur_serving_requests st =? 1) then
    let st := set_begin_of_serving clk st in
    if begin_of_serving st <? end_of_refreshing st then
      Some (set_active_refresh_overlap_cycles
              (active_refresh_overlap_cycles st + (end_of_refreshing st - begin_of_serving st)) st)
    else Some st
  else if cur_serving_requests st =? 0 then
    assert! negb (begin_of_serving st =? -1);
    assert! delta =? -1;
    let st := set_active_cycles (active_cycles st + (clk - begin_of_cur_reqcnt st)) st in
    let st := set_end_of_serving clk st in
    let st := foldl (λ st ref,
        set_active_refresh_overlap_cycles
          (active_refresh_overlap_cycles st + (Z.min (end_of_serving st) (snd ref) - fst ref)) st)
      st (refresh_intervals st) in
    Some (set_refresh_intervals [] st)
  else Some st.

Fixpoint update_serving_requests (addr : list Z) (delta clk : Z) (d : DRAM L C S) : option (DRAM L C S) :=
  match d with
  | Dram n cs =>
    a ← addr !! level_int spec (level n);
    assert! nid n =? a;
    assert! (delta =? 1) || (delta =? -1);
    st ← serve_stats delta clk (stats n);
    let n := set_stats st n in
    child_id ← addr !! (level_int spec (level n) + 1)%nat;
    if (child_id <? 0) || bool_decide (cs = []) ||
       bool_decide (level_int spec (lvl_Bank spec) < level_int spec (level n))%nat
    then Some (Dram n cs)
    else
      cs' ← upd_child (update_serving_requests addr delta clk) cs child_id;
      Some (Dram n cs')
  end.

(** [finish(dram_cycles)], the integer part: [busy_cycles] of every node. *)
Fixpoint finish (d : DRAM L C S) : DRAM L C S :=
  match d with
  | Dram n cs =>
    let st := stats n in
    Dram (set_stats (set_busy_cycles
           (active_cycles st + refresh_cycles st - active_refresh_overlap_cycles st) st) n)
         (map finish cs)
  end.

End Ops.
