(* ===== verification/DramTiming.v ===== *)
(** * Timing of the device tree

    [DRAM<T>::update_timing] keeps one number per command ([next]) and a short
    history ([prev]) in every node.  This file gives the meaning of those
    numbers: an abstract specification of timing legality over the whole list
    of commands issued so far, and the theorem that [check] decides it on
    every tree reached from the constructor by [update]s. *)

From S2P Require Import Prelude Request Dram.

(** ** What a standard promises about its tables *)

Class TimingOK {L C S} (spec : Spec L C S) : Prop := {
  row_lt : (0 < level_int spec (lvl_Row spec) < level_MAX spec)%nat;
  count_len : length (count spec) = level_MAX spec;
  count_nonneg : Forall (λ c, 0 ≤ c) (count spec);
  cast_int k : (k < level_MAX spec)%nat → ∃ l, level_cast spec k = Some l;
  int_cast k l : level_cast spec k = Some l → level_int spec l = k;
  level_int_inj l l' : level_int spec l = level_int spec l' → l = l';
  dist_pos l c t : t ∈ timing spec l c → 1 ≤ t_dist t;
  sibling_dist l c t : t ∈ timing spec l c → t_sibling t = true → t_dist t = 1;
  refresh_dist l c t :
    t ∈ timing spec l c → t_sibling t = false →
    is_refreshing spec c = true → is_opening spec (t_cmd t) = true → t_dist t = 1
}.

Section Timing.
Context {L C S : Type} `{!EqDecision L, !EqDecision C, !EqDecision S}.
Variable spec : Spec L C S.

(** ** Shape of a tree *)

(** The number of children of a node at level index [k]. *)
Definition child_count (k : nat) : nat :=
  if decide (k + 1 = level_int spec (lvl_Row spec))%nat then 0
  else Z.to_nat (default 0 (count spec !! (k + 1)%nat)).

(** A node at level index [k] whose subtrees have the organisation's counts. *)
Inductive shaped : nat → DRAM L C S → Prop :=
| Shaped k n cs :
    level_int spec (level n) = k →
    (k + 1 < level_MAX spec)%nat →
    length cs = child_count k →
    (∀ j c, cs !! j = Some c → nid (info c) = Z.of_nat j) →
    (∀ j c, cs !! j = Some c → shaped (k + 1) c) →
    shaped k (Dram n cs).

(** An address vector of the right length whose coordinates below the root are
    negative (unspecified) or in range. *)
Definition addr_ok (a : list Z) : Prop :=
  length a = level_MAX spec ∧
  ∀ k x, a !! k = Some x → (0 < k)%nat → x < default 0 (count spec !! k).

(** ** The abstract specification *)

(** A command sent to the device: the command, its address and its clock;
    histories are lists of events, the most recent first. *)
Definition event : Type := C * list Z * Z.

(** Issue times of [c] at the node with coordinates [p ++ [i]], and at its
    siblings, the most recent first. *)
Definition issues (h : list event) (p : list Z) (i : Z) (c : C) : list Z :=
  omap (λ e : event, let '(c', a, t) := e in
    if decide (c' = c ∧ take (length p) a = p ∧ a !! length p = Some i) then Some t else None) h.

Definition sibling_issues (h : list event) (p : list Z) (i : Z) (c : C) : list Z :=
  omap (λ e : event, let '(c', a, t) := e in
    if decide (c' = c ∧ take (length p) a = p ∧ a !! length p ≠ Some i) then Some t else None) h.

(** The timing parameters of the node (level [l], coordinates [p ++ [i]]) that
    constrain [c] are met at clock [x]: an issue of [cmd] that is at least the
    [dist]-th most recent is [val] cycles old; an issue at a sibling too. *)
Definition met (l : L) (h : list event) (p : list Z) (i : Z) (c : C) (x : Z) : Prop :=
  (∀ cmd t, t ∈ timing spec l cmd → t_cmd t = c → t_sibling t = false →
     ∀ k τ, issues h p i cmd !! k = Some τ → t_dist t - 1 ≤ Z.of_nat k → τ + t_val t ≤ x) ∧
  (∀ cmd t, t ∈ timing spec l cmd → t_cmd t = c → t_sibling t = true →
     ∀ τ, τ ∈ sibling_issues h p i cmd → τ + t_val t ≤ x).

(** The nodes a command concerns: from the root down to its scope, to the last
    specified coordinate, or to the leaves. *)
Inductive visited (cmd : C) (a : list Z) : nat → L → Prop :=
| visited_root l : level_cast spec 0 = Some l → visited cmd a 0 l
| visited_child k l x l' :
    visited cmd a k l → l ≠ scope spec cmd →
    a !! (k + 1)%nat = Some x → 0 ≤ x → child_count k ≠ 0%nat →
    level_cast spec (k + 1) = Some l' →
    visited cmd a (k + 1) l'.

(** Timing legality of issuing [cmd] at [a] at clock [x] after [h]. *)
Definition legal (h : list event) (cmd : C) (a : list Z) (x : Z) : Prop :=
  ∀ k l i, visited cmd a k l → a !! k = Some i → met l h (take k a) i cmd x.

(** The device after a history. *)
Fixpoint run_updates (h : list event) (d : DRAM L C S) : option (DRAM L C S) :=
  match h with
  | [] => Some d
  | (cmd, a, clk) :: h => d' ← run_updates h d; update spec cmd a clk d'
  end.

Definition event_ok (e : event) : Prop :=
  let '(_, a, clk) := e in length a = level_MAX spec ∧ 0 ≤ clk.

(** ** The invariant of a node *)

Definition history_len (n : dram_info L C S) (c : C) : nat :=
  Z.to_nat (prev_len (timing spec (level n) c)).

Record node_inv (h : list event) (p : list Z) (i : Z) (n : dram_info L C S) : Prop := {
  ni_level : level_int spec (level n) = length p;
  ni_depth : (length p + 1 < level_MAX spec)%nat;
  ni_id : nid n = i;
  ni_prev c : prev n c = take (history_len n c) (issues h p i c ++ replicate (history_len n c) (-1));
  ni_next c x : next n c ≤ x ↔ -1 ≤ x ∧ met (level n) h p i c x
}.

Inductive tree_inv (h : list event) : list Z → Z → DRAM L C S → Prop :=
| TreeInv p i n cs :
    node_inv h p i n →
    length cs = child_count (length p) →
    (∀ j c, cs !! j = Some c → tree_inv h (p ++ [i]) (Z.of_nat j) c) →
    tree_inv h p i (Dram n cs).


(** ** Lemmas on the history *)

Lemma prev_len_nonneg_from (ts : list (TimingEntry C)) m :
  m ≤ foldl (λ d t, Z.max d (t_dist t)) m ts.
Proof. revert m; induction ts as [|t ts IH]; intros m; simpl; [lia|]. specialize (IH (Z.max m (t_dist t))). lia. Qed.

Lemma prev_len_nonneg (ts : list (TimingEntry C)) : 0 ≤ prev_len ts.
Proof. apply prev_len_nonneg_from. Qed.

Lemma prev_len_ge (ts : list (TimingEntry C)) t : t ∈ ts → t_dist t ≤ prev_len ts.
Proof.
  unfold prev_len. generalize 0 as m. induction ts as [|t' ts IH]; intros m; [set_solver|].
  intros [->|Ht]%elem_of_cons; simpl; [|by apply IH].
  pose proof (prev_len_nonneg_from ts (Z.max m (t_dist t'))). lia.
Qed.

Lemma removelast_take {A} (l : list A) n :
  (Datatypes.S n ≤ length l)%nat → removelast (take (Datatypes.S n) l) = take n l.
Proof. intros H. by apply removelast_firstn. Qed.

Lemma issues_target h p i c (a : list Z) t c' :
  take (length p) a = p → a !! length p = Some i →
  issues ((c', a, t) :: h) p i c = if decide (c' = c) then t :: issues h p i c else issues h p i c.
Proof. intros Hp Hi. unfold issues. simpl. repeat case_decide; naive_solver. Qed.

Lemma issues_other h p i c (a : list Z) t c' :
  ¬ (take (length p) a = p ∧ a !! length p = Some i) →
  issues ((c', a, t) :: h) p i c = issues h p i c.
Proof. intros Hp. unfold issues. simpl. case_decide; naive_solver. Qed.

Lemma sibling_issues_target h p i c (a : list Z) t c' :
  a !! length p = Some i →
  sibling_issues ((c', a, t) :: h) p i c = sibling_issues h p i c.
Proof. intros Hp. unfold sibling_issues. simpl. case_decide; naive_solver. Qed.

Lemma sibling_issues_sibling h p i c (a : list Z) t c' :
  take (length p) a = p → a !! length p ≠ Some i →
  sibling_issues ((c', a, t) :: h) p i c =
    if decide (c' = c) then t :: sibling_issues h p i c else sibling_issues h p i c.
Proof. intros Hp Hi. unfold sibling_issues. simpl. repeat case_decide; naive_solver. Qed.

Lemma sibling_issues_other h p i c (a : list Z) t c' :
  take (length p) a ≠ p →
  sibling_issues ((c', a, t) :: h) p i c = sibling_issues h p i c.
Proof. intros Hp. unfold sibling_issues. simpl. case_decide; naive_solver. Qed.

Lemma issues_nonneg h p i c : Forall event_ok h → Forall (λ t, 0 ≤ t) (issues h p i c).
Proof.
  induction 1 as [|[[c' a] t] h [_ He] _ IH]; [constructor|].
  unfold issues in *. simpl. case_decide; [by constructor|done].
Qed.

Lemma issues_lookup_nonneg h p i c k τ :
  Forall event_ok h → issues h p i c !! k = Some τ → 0 ≤ τ.
Proof. intros Hh Hk. exact (Forall_lookup_1 _ _ _ _ (issues_nonneg h p i c Hh) Hk). Qed.

(** ** One node *)

(** What the timing update of a node leaves alone. *)
Definition same_node (n n' : dram_info L C S) : Prop :=
  level n' = level n ∧ nid n' = nid n ∧ state n' = state n ∧
  row_state n' = row_state n ∧ cur_clk n' = cur_clk n.

Lemma raise_next_le (n : dram_info L C S) (t : TimingEntry C) f c x :
  next (raise_next n t f) c ≤ x ↔ next n c ≤ x ∧ (t_cmd t = c → f ≤ x).
Proof.
  unfold raise_next; simpl. unfold insert, fn_insert.
  case_decide; [subst; rewrite Z.max_lub_iff|]; naive_solver.
Qed.

Lemma foldM_cons {A B} (f : A → B → option A) a b l : foldM f a (b :: l) = a' ← f a b; foldM f a' l.
Proof. done. Qed.

Lemma sibling_fold clk (ts : list (TimingEntry C)) n :
  (∀ t, t ∈ ts → t_sibling t = true → t_dist t = 1) →
  ∃ n', foldM (sibling_entry clk) n ts = Some n' ∧ same_node n n' ∧ prev n' = prev n ∧
    ∀ c x, next n' c ≤ x ↔ next n c ≤ x ∧
      ∀ t, t ∈ ts → t_cmd t = c → t_sibling t = true → clk + t_val t ≤ x.
Proof.
  revert n; induction ts as [|t ts IH]; intros n Hts.
  { exists n. unfold same_node. split_and!; auto. set_solver. }
  rewrite foldM_cons.
  assert (sibling_entry clk n t =
    Some (if t_sibling t then raise_next n t (clk + t_val t) else n)) as ->.
  { unfold sibling_entry. destruct (t_sibling t) eqn:Hsib; simpl; [|done].
    by rewrite (proj2 (Z.eqb_eq _ _)) by (apply Hts; set_solver). }
  simpl. destruct (IH (if t_sibling t then raise_next n t (clk + t_val t) else n))
    as (n'&Hf&Hs&Hp&Hn); [set_solver|].
  exists n'. destruct (t_sibling t) eqn:Hsib; (split_and!; auto); intros c x; rewrite Hn.
  - rewrite raise_next_le. set_solver.
  - split; [|set_solver]. intros [? Hts']; split; [done|].
    intros t' [->|?]%elem_of_cons; [congruence|auto].
Qed.

Lemma target_fold cmd clk (ts : list (TimingEntry C)) n :
  (∀ t, t ∈ ts → t_sibling t = false →
    ∃ past, zlookup (prev n cmd) (t_dist t - 1) = Some past ∧
      (0 ≤ past → is_refreshing spec cmd = true → is_opening spec (t_cmd t) = true → past = clk)) →
  ∃ n', foldM (target_entry spec cmd clk) n ts = Some n' ∧ same_node n n' ∧ prev n' = prev n ∧
    ∀ c x, next n' c ≤ x ↔ next n c ≤ x ∧
      ∀ t past, t ∈ ts → t_cmd t = c → t_sibling t = false →
        zlookup (prev n cmd) (t_dist t - 1) = Some past → 0 ≤ past → past + t_val t ≤ x.
Proof.
  revert n; induction ts as [|t ts IH]; intros n Hts.
  { exists n. unfold same_node. split_and!; auto. set_solver. }
  rewrite foldM_cons.
  assert (∃ n1, target_entry spec cmd clk n t = Some n1 ∧ same_node n n1 ∧ prev n1 = prev n ∧
    ∀ c x, next n1 c ≤ x ↔ next n c ≤ x ∧
      ∀ past, t_cmd t = c → t_sibling t = false →
        zlookup (prev n cmd) (t_dist t - 1) = Some past → 0 ≤ past → past + t_val t ≤ x)
    as (n1&->&Hs1&Hp1&Hn1).
  { unfold target_entry, same_node. destruct (t_sibling t) eqn:Hsib.
    { exists n. split_and!; auto. intros; split; [|tauto]. intros; split; [done|]. congruence. }
    destruct (Hts t) as (past&Hz&Hr); [set_solver|done|]. rewrite Hz; simpl.
    destruct (past <? 0) eqn:Hpast.
    { exists n. split_and!; auto. intros; split; [|tauto]. intros; split; [done|]. intros; simplify_eq; lia. }
    assert (∀ c x, next (raise_next n t (past + t_val t)) c ≤ x ↔ next n c ≤ x ∧
      ∀ past0, t_cmd t = c → false = false →
        Some past = Some past0 → 0 ≤ past0 → past0 + t_val t ≤ x) as Hrn.
    { intros c x. rewrite raise_next_le. split; intros [? H]; split; auto.
      - intros; simplify_eq; auto.
      - intros; apply H; auto; lia. }
    destruct (is_refreshing spec cmd && is_opening spec (t_cmd t)) eqn:Hro.
    - apply andb_prop in Hro as [? ?].
      rewrite (proj2 (Z.eqb_eq _ _)) by (apply Hr; auto; lia). eexists; split_and!; [done|..]; auto.
    - eexists; split_and!; [done|..]; auto. }
  destruct (IH n1) as (n'&Hf&Hs&Hp&Hn).
  { rewrite Hp1. intros; apply Hts; set_solver. }
  exists n'. rewrite Hp1 in *. split_and!; auto.
  { unfold same_node in *; intuition congruence. }
  intros c x. rewrite Hn, Hn1. clear. split.
  - intros [[? Ht] Hts]; split; [done|]. intros t' past [->|?]%elem_of_cons; eauto.
  - intros [? Hts]; split_and!; [done|..]; intros; eapply Hts; eauto; set_solver.
Qed.

Lemma take_history N (l : list Z) k :
  (k < N)%nat →
  take N (l ++ replicate N (-1)) !! k = Some (default (-1) (l !! k)).
Proof.
  intros Hk. rewrite lookup_take_lt by done. destruct (l !! k) as [y|] eqn:Hl; simpl.
  - rewrite lookup_app_l; eauto using lookup_lt_Some.
  - apply lookup_ge_None in Hl. rewrite lookup_app_r by done. apply lookup_replicate_2. lia.
Qed.

Lemma push_history_prev h p i (n : dram_info L C S) (a : list Z) clk cmd :
  node_inv h p i n → take (length p) a = p → a !! length p = Some i →
  ∀ c, prev (push_history cmd clk n) c =
    take (history_len n c) (issues ((cmd, a, clk) :: h) p i c ++ replicate (history_len n c) (-1)).
Proof.
  intros Hn Ha Hi c. rewrite issues_target by done.
  pose proof (ni_prev _ _ _ _ Hn) as Hp. unfold push_history.
  destruct (history_len n cmd) as [|N] eqn:HN.
  - rewrite Hp, HN. simpl. case_decide; [subst c; by rewrite HN, Hp, HN|apply Hp].
  - assert (prev n cmd ≠ []) as Hne.
    { rewrite Hp, HN. intros E. apply (f_equal length) in E.
      rewrite length_take, length_app, length_replicate in E. cbn [length] in E. lia. }
    destruct (prev n cmd) as [|y h'] eqn:Hh; [done|]. unfold set_prev; cbn [prev]. unfold insert, fn_insert.
    case_decide; [subst c|by apply Hp]. rewrite <- Hh, Hp, HN.
    rewrite removelast_take by (rewrite length_app, length_replicate; lia). done.
Qed.

Context `{!TimingOK spec}.

Lemma met_target l h p i c x (a : list Z) clk cmd :
  take (length p) a = p → a !! length p = Some i →
  met l ((cmd, a, clk) :: h) p i c x ↔
  met l h p i c x ∧
  ∀ t past, t ∈ timing spec l cmd → t_cmd t = c → t_sibling t = false →
    (clk :: issues h p i cmd) !! Z.to_nat (t_dist t - 1) = Some past → past + t_val t ≤ x.
Proof.
  intros Ha Hi. unfold met. setoid_rewrite sibling_issues_target; [|done].
  setoid_rewrite issues_target; [|done..]. split.
  - intros [Ht Hs]. split_and!; auto.
    + intros cmd' t Hin Hc Hsib k τ Hk Hd. destruct (decide (cmd = cmd')) as [<-|].
      * apply (Ht cmd t Hin Hc Hsib (k + 1)%nat); [|lia].
        rewrite decide_True by done. by rewrite Nat.add_1_r.
      * apply (Ht cmd' t Hin Hc Hsib k); [|done]. by rewrite decide_False.
    + intros t past Hin Hc Hsib Hk. pose proof (dist_pos l cmd t Hin).
      apply (Ht cmd t Hin Hc Hsib (Z.to_nat (t_dist t - 1))); [|lia].
      by rewrite decide_True.
  - intros [[Ht Hs] Hnew]. split; [|done].
    intros cmd' t Hin Hc Hsib k τ Hk Hd. case_decide; [subst cmd'|by eapply Ht].
    destruct (decide (Z.of_nat k = t_dist t - 1)) as [E|].
    + apply Hnew; auto. rewrite <- E. by rewrite Nat2Z.id.
    + pose proof (dist_pos l cmd t Hin). destruct k as [|k]; [lia|].
      apply (Ht cmd t Hin Hc Hsib k); [done|lia].
Qed.

Lemma met_sibling l h p i c x (a : list Z) clk cmd :
  take (length p) a = p → a !! length p ≠ Some i →
  met l ((cmd, a, clk) :: h) p i c x ↔
  met l h p i c x ∧
  ∀ t, t ∈ timing spec l cmd → t_cmd t = c → t_sibling t = true → clk + t_val t ≤ x.
Proof.
  intros Ha Hi. unfold met. setoid_rewrite sibling_issues_sibling; [|done..].
  setoid_rewrite issues_other; [|naive_solver]. split.
  - intros [Ht Hs]. split_and!; auto.
    + intros cmd' t Hin Hc Hsib τ Hτ. apply (Hs cmd' t Hin Hc Hsib). case_decide; set_solver.
    + intros t Hin Hc Hsib. apply (Hs cmd t Hin Hc Hsib). rewrite decide_True by done. set_solver.
  - intros [[Ht Hs] Hnew]. split; [done|].
    intros cmd' t Hin Hc Hsib τ Hτ. case_decide; [subst cmd'|by eapply Hs].
    apply elem_of_cons in Hτ as [->|?]; [by apply Hnew|by eapply Hs].
Qed.

Lemma met_other l h p i c x (a : list Z) clk cmd :
  take (length p) a ≠ p → met l ((cmd, a, clk) :: h) p i c x ↔ met l h p i c x.
Proof.
  intros Ha. unfold met. setoid_rewrite sibling_issues_other; [|done].
  setoid_rewrite issues_other; [|naive_solver]. done.
Qed.

(** An event elsewhere does not change what a node knows. *)
Lemma node_inv_other h p i n (a : list Z) clk cmd :
  take (length p) a ≠ p → node_inv h p i n → node_inv ((cmd, a, clk) :: h) p i n.
Proof.
  intros Ha [Hl Hd Hi Hp Hn]. split; auto.
  - intros c. rewrite issues_other by naive_solver. apply Hp.
  - intros c x. rewrite met_other by done. apply Hn.
Qed.

Lemma tree_inv_other h q i d (a : list Z) clk cmd :
  take (length q) a ≠ q → tree_inv h q i d → tree_inv ((cmd, a, clk) :: h) q i d.
Proof.
  intros Ha Hd. revert Ha. induction Hd as [p i n cs Hn Hlen _ IH]; intros Ha.
  constructor; [by apply node_inv_other|done|].
  intros j c Hj. apply IH; [done|]. intros E. apply Ha.
  apply (f_equal (take (length p))) in E. rewrite take_take, length_app, take_app_length in E.
  rewrite Nat.min_l in E by (simpl; lia). done.
Qed.

Lemma sibling_node h p i n (a : list Z) clk cmd :
  node_inv h p i n → take (length p) a = p → a !! length p ≠ Some i →
  ∃ n', foldM (sibling_entry clk) n (timing spec (level n) cmd) = Some n' ∧
    same_node n n' ∧ node_inv ((cmd, a, clk) :: h) p i n'.
Proof.
  intros [Hl Hd Hi Hp Hn] Ha Hx.
  destruct (sibling_fold clk (timing spec (level n) cmd) n) as (n'&Hf&Hs&Hpr&Hnx).
  { intros t ??. by eapply sibling_dist. }
  exists n'. split_and!; [done..|]. destruct Hs as (El&Ei&_).
  split; [congruence|done|congruence|..].
  - intros c. rewrite issues_other by naive_solver. unfold history_len.
    rewrite Hpr, El. apply Hp.
  - intros c x. rewrite Hnx, Hn, El, met_sibling by done. tauto.
Qed.

Lemma target_node h p i n (a : list Z) clk cmd :
  Forall event_ok h → 0 ≤ clk →
  node_inv h p i n → take (length p) a = p → a !! length p = Some i →
  ∃ n', foldM (target_entry spec cmd clk) (push_history cmd clk n) (timing spec (level n) cmd) = Some n' ∧
    same_node n n' ∧ node_inv ((cmd, a, clk) :: h) p i n'.
Proof.
  intros Hh Hclk Hninv Ha Hx.
  pose proof (push_history_prev h p i n a clk cmd Hninv Ha Hx) as Hpp.
  set (n1 := push_history cmd clk n) in *.
  assert (same_node n n1 ∧ next n1 = next n) as [Hs1 Hx1].
  { unfold n1, push_history, same_node. case_match; auto 10. }
  assert (∀ t, t ∈ timing spec (level n) cmd →
    zlookup (prev n1 cmd) (t_dist t - 1) =
      Some (default (-1) ((clk :: issues h p i cmd) !! Z.to_nat (t_dist t - 1)))) as Hlook.
  { intros t Hin. pose proof (dist_pos _ _ _ Hin). pose proof (prev_len_ge _ _ Hin).
    unfold zlookup. destruct (t_dist t - 1 <? 0) eqn:?; [lia|]. rewrite Hpp.
    rewrite issues_target, decide_True by done. apply take_history. unfold history_len. lia. }
  assert (Forall (λ τ, 0 ≤ τ) (clk :: issues h p i cmd)) as Hpos.
  { constructor; [done|]. by apply issues_nonneg. }
  destruct (target_fold cmd clk (timing spec (level n) cmd) n1) as (n'&Hf&Hs&Hpr&Hnx).
  { intros t Hin Hsib. eexists; split; [by apply Hlook|]. intros Hge Hr Ho.
    by rewrite (refresh_dist _ _ _ Hin Hsib Hr Ho). }
  exists n'. assert (same_node n n') as Hsn by (unfold same_node in *; intuition congruence).
  split_and!; [done..|]. pose proof Hsn as (El&Ei&_). destruct Hninv as [Hl Hd Hi Hp Hn].
  split; [congruence|done|congruence|..].
  - intros c. rewrite Hpr, Hpp. unfold history_len. by rewrite El.
  - intros c x. rewrite Hnx, Hx1, Hn, El, met_target by done.
    split; [intros [[??] Ht]|intros (?&?&Ht)]; (split_and!; [done..|]); intros t past Hin Hc Hsib Hk.
    + apply (Ht t past); auto; [rewrite Hlook by done; by rewrite Hk|].
      by eapply (Forall_lookup_1 _ _ _ _ Hpos Hk).
    + intros Hge. rewrite Hlook in Hk by done.
      destruct ((clk :: issues h p i cmd) !! Z.to_nat (t_dist t - 1)) as [z|] eqn:E;
        simplify_eq/=; [eauto|lia].
Qed.

(** [update_timing] keeps the invariant, and never fails. *)
Lemma update_timing_inv h p i d (a : list Z) clk cmd :
  Forall event_ok h → event_ok (cmd, a, clk) →
  tree_inv h p i d → take (length p) a = p →
  ∃ d', update_timing spec cmd a clk d = Some d' ∧ tree_inv ((cmd, a, clk) :: h) p i d'.
Proof.
  intros Hh [Hlen Hclk]. induction 1 as [p i n cs Hn Hcs Hch IH]; intros Ha. simpl.
  destruct (lookup_lt_is_Some_2 a (length p)) as [x Hx].
  { rewrite Hlen. pose proof (ni_depth _ _ _ _ Hn). lia. }
  rewrite (ni_level _ _ _ _ Hn), Hx. simpl. rewrite (ni_id _ _ _ _ Hn).
  destruct (decide (i = x)) as [->|Hne].
  - rewrite bool_decide_false by naive_solver.
    destruct (target_node h p x n a clk cmd) as (n'&->&Hs&Hn'); [done..|]. simpl.
    assert (take (length (p ++ [x])) a = p ++ [x]) as Ha'.
    { rewrite length_app. simpl. rewrite Nat.add_1_r. rewrite (take_S_r _ _ x) by done. by rewrite Ha. }
    assert (∃ cs', mapM (update_timing spec cmd a clk) cs = Some cs' ∧ length cs' = length cs ∧
      ∀ j c, cs' !! j = Some c → tree_inv ((cmd, a, clk) :: h) (p ++ [x]) (Z.of_nat j) c) as (cs'&->&Hl&Hcs').
    { apply mapM_indexed. intros j c Hj. by apply IH. }
    simpl. eexists; split; [done|]. constructor; [done|by rewrite Hl|done].
  - rewrite bool_decide_true by naive_solver.
    destruct (sibling_node h p i n a clk cmd) as (n'&->&Hs&Hn'); [naive_solver..|]. simpl.
    eexists; split; [done|]. constructor; [done..|].
    intros j c Hj. apply tree_inv_other; [|by apply Hch].
    intros E. assert ((p ++ [i]) !! length p = Some i) as Hi by (by rewrite list_lookup_middle).
    rewrite <- E, lookup_take_lt in Hi by (rewrite length_app; simpl; lia). congruence.
Qed.

(** ** Whole histories *)

(** A tree without the parts the timing does not depend on. *)
Fixpoint skel (d : DRAM L C S) : DRAM L C S :=
  match d with
  | Dram n cs =>
    Dram (set_state (start spec (level n)) (set_row_state ∅ (set_cur_clk 0 n))) (map skel cs)
  end.

Lemma tree_inv_skel h p i d d' : skel d' = skel d → tree_inv h p i d → tree_inv h p i d'.
Proof.
  intros E Hd. revert d' E. induction Hd as [p i n cs Hn Hlen _ IH]; intros [n' cs'] E.
  simpl in E. unfold set_state, set_row_state, set_cur_clk in E. simpl in E.
  injection E as El Ei _ Ex Ep _ Ecs. destruct Hn as [Hl Hd Hi Hp Hnx]. constructor.
  - split; rewrite ?El, ?Ei, ?Ex, ?Ep; auto. intros c. unfold history_len. rewrite El. apply Hp.
  - apply (f_equal length) in Ecs. rewrite !length_map in Ecs. congruence.
  - intros j c' Hj. apply (f_equal (lookup j)) in Ecs. rewrite !list_lookup_fmap, Hj in Ecs.
    destruct (cs !! j) as [c|] eqn:Hc; simplify_eq/=. by eapply IH.
Qed.

Lemma child_count_lt k j x (a : list Z) :
  addr_ok a → a !! (k + 1)%nat = Some x → 0 ≤ x → j = child_count k → j ≠ 0%nat → (Z.to_nat x < j)%nat.
Proof.
  intros [_ Hr] Hx Hpos -> Hne. apply Hr in Hx; [|lia]. unfold child_count in *.
  case_decide; [done|]. lia.
Qed.

Lemma visited_prefix cmd a k l m :
  visited cmd a k l → (m < k)%nat →
  ∃ lm x, visited cmd a m lm ∧ lm ≠ scope spec cmd ∧ a !! (m + 1)%nat = Some x ∧ 0 ≤ x ∧
    child_count m ≠ 0%nat.
Proof.
  induction 1 as [l Hl|k l x l' Hv IH Hne Hx Hpos Hc Hl']; intros Hm; [lia|].
  destruct (decide (m = k)) as [->|]; [eauto 10|]. apply IH. lia.
Qed.

Lemma visited_cast cmd a k l : visited cmd a k l → level_cast spec k = Some l.
Proof. by destruct 1. Qed.

Lemma next_leb (n x : Z) : 0 ≤ x → (negb (n =? -1) && (x <? n)) = false ↔ n ≤ x.
Proof. intros. destruct (n =? -1) eqn:?, (x <? n) eqn:?; simpl; split; intros; try done; lia. Qed.

Lemma check_inv h p i d (a : list Z) cmd x :
  tree_inv h p i d → addr_ok a → 0 ≤ x →
  take (length p) a = p → a !! length p = Some i →
  visited cmd a (length p) (level (info d)) →
  ∃ b, check spec cmd a x d = Some b ∧
    (b = true ↔ ∀ k l j, (length p ≤ k)%nat → visited cmd a k l → a !! k = Some j →
                  met l h (take k a) j cmd x).
Proof.
  intros Hd Ha Hx. induction Hd as [p i n cs Hn Hlen Hch IH]; intros Hp Hi Hv. cbn [check info] in *.
  pose proof (ni_next _ _ _ _ Hn cmd x) as Hnext. pose proof (ni_depth _ _ _ _ Hn) as Hdep.
  assert (∀ l j, visited cmd a (length p) l → a !! length p = Some j →
    (met l h (take (length p) a) j cmd x ↔ next n cmd ≤ x)) as Hhere.
  { intros l j Hvl Hj. rewrite Hp, Hnext. apply visited_cast in Hv, Hvl.
    rewrite Hv in Hvl. simplify_eq. split; [intros; split; [lia|done]|tauto]. }
  destruct (negb (next n cmd =? -1) && (x <? next n cmd)) eqn:Hlt.
  { exists false. split; [done|]. split; [done|]. intros Hall. exfalso.
    assert (next n cmd ≤ x) as Hle by (eapply Hhere; eauto).
    apply next_leb in Hle; [congruence|done]. }
  apply next_leb in Hlt; [|done]. rewrite (ni_level _ _ _ _ Hn).
  destruct (lookup_lt_is_Some_2 a (length p + 1)) as [y Hy]; [destruct Ha as [-> _]; lia|].
  rewrite Hy. simpl.
  destruct ((y <? 0) || bool_decide (level n = scope spec cmd) || bool_decide (cs = [])) eqn:Hstop.
  - exists true. split; [done|]. split; [|done]. intros _ k l j Hk Hvk Hj.
    destruct (decide (k = length p)) as [->|]; [by apply Hhere|]. exfalso.
    destruct (visited_prefix _ _ _ _ (length p) Hvk) as (lm&y'&Hvm&Hsc&Hy'&Hpos&Hc); [lia|].
    apply visited_cast in Hv, Hvm. simplify_eq.
    rewrite !orb_true_iff, !bool_decide_eq_true in Hstop. destruct Hstop as [[?| ]|]; [lia|done|].
    subst cs. simpl in Hlen. congruence.
  - rewrite !orb_false_iff, !bool_decide_eq_false in Hstop. destruct Hstop as [[Hpos Hsc] Hne].
    assert (child_count (length p) ≠ 0%nat) as Hcc.
    { rewrite <- Hlen. by destruct cs. }
    rewrite at_child_lookup. unfold zlookup. rewrite Hpos.
    destruct (lookup_lt_is_Some_2 cs (Z.to_nat y)) as [c Hc].
    { eapply child_count_lt; eauto; [lia|]. by destruct cs. }
    rewrite Hc. simpl. specialize (Hch _ _ Hc). rewrite Z2Nat.id in Hch by lia.
    assert (level_cast spec (length p + 1) = Some (level (info c))) as Hcast.
    { destruct (cast_int (spec:=spec) (length p + 1)) as [l' Hl']; [lia|].
      rewrite Hl'. f_equal. apply level_int_inj. rewrite (int_cast _ _ Hl').
      inversion Hch as [?? nc ? Hnc]; subst. cbn [info]. rewrite (ni_level _ _ _ _ Hnc). rewrite length_app. done. }
    destruct (IH _ _ Hc) as (b&Hb&Hiff).
    { rewrite length_app. simpl. rewrite Nat.add_1_r. rewrite (take_S_r _ _ i) by done. by rewrite Hp. }
    { rewrite length_app. simpl. by rewrite Z2Nat.id by lia. }
    { rewrite length_app. simpl. eapply visited_child; eauto. lia. }
    exists b. split; [done|]. rewrite Hiff. rewrite length_app. simpl. split.
    + intros H k l j Hk Hvk Hj. destruct (decide (k = length p)) as [->|]; [by apply Hhere|].
      apply H; [lia|done..].
    + intros H k l j Hk. apply H. lia.
Qed.

(** ** The constructor *)

Lemma new_info_inv l i p :
  level_int spec l = length p → (length p + 1 < level_MAX spec)%nat → node_inv [] p i (new_info spec l i).
Proof.
  intros Hl Hd. split; auto.
  - intros c. unfold history_len; simpl. by rewrite take_replicate, Nat.min_id.
  - intros c x. simpl. split; [|tauto]. intros. split; [done|].
    split; [intros ????? k τ Hk; by destruct k|intros ????? τ Hτ; by apply not_elem_of_nil in Hτ].
Qed.

Lemma new_dram_inv fuel l i d p :
  new_dram spec fuel l i = Some d → level_int spec l = length p → tree_inv [] p i d.
Proof.
  revert l i d p; induction fuel as [|fuel IH]; intros l i d p Hd Hl; [done|]. cbn [new_dram] in Hd.
  pose proof (row_lt (spec:=spec)) as Hrow. rewrite Hl in Hd. case_decide as Hr.
  { simplify_eq. constructor; [apply new_info_inv; [done|lia]| |by intros [|]].
    unfold child_count. by rewrite decide_True. }
  apply bind_Some in Hd as (m&Hm&Hd). pose proof (lookup_lt_Some _ _ _ Hm) as Hlt.
  rewrite count_len in Hlt. assert (child_count (length p) = Z.to_nat m) as Hcc.
  { unfold child_count. by rewrite decide_False, Hm. }
  destruct (m =? 0) eqn:Hm0.
  { simplify_eq. constructor; [by apply new_info_inv| |by intros [|]]. rewrite Hcc. simpl. lia. }
  apply bind_Some in Hd as (cl&Hcl&Hd). apply bind_Some in Hd as (cs&Hcs&Hd). simplify_eq.
  apply mapM_Some_1 in Hcs. pose proof (Forall2_length _ _ _ Hcs) as Hlen. rewrite length_seq in Hlen.
  constructor; [by apply new_info_inv|by rewrite Hcc|].
  intros j c Hj. destruct (Forall2_lookup_r _ _ _ _ _ Hcs Hj) as (j'&Hj'&Hnew).
  apply lookup_seq in Hj' as [-> _]. eapply IH; [exact Hnew|].
  rewrite length_app. by apply int_cast.
Qed.

Lemma new_dram_total fuel l i :
  (level_int spec l < level_int spec (lvl_Row spec) ≤ level_int spec l + fuel)%nat →
  is_Some (new_dram spec fuel l i).
Proof.
  revert l i; induction fuel as [|fuel IH]; intros l i Hl; [lia|]. cbn [new_dram].
  case_decide as Hr; [done|]. pose proof (row_lt (spec:=spec)).
  destruct (lookup_lt_is_Some_2 (count spec) (level_int spec l + 1)) as [m Hm]; [rewrite count_len; lia|].
  rewrite Hm; simpl. destruct (m =? 0); [done|].
  destruct (cast_int (spec:=spec) (level_int spec l + 1)) as [cl Hcl]; [lia|]. rewrite Hcl; simpl.
  pose proof (int_cast _ _ Hcl).
  destruct (mapM_indexed (λ j : nat, new_dram spec fuel cl (Z.of_nat j)) (λ _ _, True)
    (seq 0 (Z.to_nat m))) as (cs&->&_); [|done].
  intros j x _. destruct (IH cl (Z.of_nat x)) as [d Hd]; [lia|]. eauto.
Qed.

(** The constructor terminates with a tree whose timing is unconstrained. *)
Lemma new_channel_inv l i :
  level_cast spec 0 = Some l → ∃ d, new_channel spec l i = Some d ∧ tree_inv [] [] i d.
Proof.
  intros Hl. apply int_cast in Hl. pose proof (row_lt (spec:=spec)).
  destruct (new_dram_total (level_MAX spec) l i) as [d Hd]; [lia|].
  exists d. split; [done|]. by eapply new_dram_inv.
Qed.

(** ** [update] *)

Lemma map_skel_insert cs j (c c' : DRAM L C S) :
  cs !! j = Some c → skel c' = skel c → map skel (<[j:=c']> cs) = map skel cs.
Proof.
  intros Hc E. apply list_eq. intros k. rewrite !list_lookup_fmap.
  destruct (decide (j = k)) as [<-|]; [|by rewrite list_lookup_insert_ne].
  rewrite list_lookup_insert_eq by eauto using lookup_lt_Some. rewrite Hc. simpl. by rewrite E.
Qed.

End Timing.

(** A state transition touches only the state and the open rows. *)
Class LambdaFrame {L C S} (spec : Spec L C S) : Prop :=
  lambda_skel l c f d i d' :
    lambda spec l c = Some f → f d i = Some d' → skel spec d' = skel spec d.

Section Updates.
Context {L C S : Type} `{!EqDecision L, !EqDecision C, !EqDecision S}.
Variable spec : Spec L C S.
Context `{!TimingOK spec, !LambdaFrame spec}.

Lemma update_state_skel fuel cmd a d d' :
  update_state_loop spec fuel cmd a d = Some d' → skel spec d' = skel spec d.
Proof.
  revert d d'; induction fuel as [|fuel IH]; intros d d' Hd; [done|]. cbn [update_state_loop] in Hd.
  apply bind_Some in Hd as (x&Hx&Hd). apply bind_Some in Hd as ([n cs]&Hl&Hd).
  assert (skel spec (Dram n cs) = skel spec d) as <-.
  { destruct (lambda spec (level (info d)) cmd) eqn:E; [eapply lambda_skel; eauto|congruence]. }
  destruct (bool_decide _ || _); [congruence|]. apply bind_Some in Hd as (cs'&Hcs&Hd). simplify_eq.
  apply upd_child_Some in Hcs as (c&c'&_&Hc&Hc'&->). simpl. f_equal.
  eapply map_skel_insert; eauto.
Qed.

Lemma run_updates_cons cmd (a : list Z) clk h d0 d d' :
  run_updates spec ((cmd, a, clk) :: h) d0 = Some d' → run_updates spec h d0 = Some d →
  update spec cmd a clk d = Some d'.
Proof. simpl. intros H Hh. by rewrite Hh in H. Qed.

Lemma run_updates_one cmd (a : list Z) clk d d' :
  update spec cmd a clk d = Some d' → run_updates spec [(cmd, a, clk)] d = Some d'.
Proof. done. Qed.

Lemma run_updates_inv h l i d0 d :
  level_cast spec 0 = Some l → new_channel spec l i = Some d0 → Forall (event_ok spec) h →
  run_updates spec h d0 = Some d → tree_inv spec h [] i d.
Proof.
  intros Hl Hd0. revert d. induction h as [|[[cmd a] clk] h IH]; intros d Hh Hrun.
  { simplify_eq/=. apply (new_dram_inv spec _ _ _ _ [] Hd0). by apply int_cast in Hl. }
  inversion Hh as [|?? He Hh']; subst. simpl in Hrun. apply bind_Some in Hrun as (d1&Hr&Hu).
  unfold update in Hu. apply bind_Some in Hu as (d2&Hs&Ht).
  assert (tree_inv spec h [] i d2) as Hinv.
  { eapply tree_inv_skel; [|by apply IH]. rewrite (update_state_skel _ _ _ _ _ Hs). by destruct d1. }
  destruct (update_timing_inv spec h [] i d2 a clk cmd) as (d'&Hd'&?); [done..|]. simplify_eq. done.
Qed.

Lemma legal_root h cmd (a : list Z) x :
  (∀ k l j, (0 ≤ k)%nat → visited spec cmd a k l → a !! k = Some j → met spec l h (take k a) j cmd x) ↔
  legal spec h cmd a x.
Proof. unfold legal. split; intros H k; intros; apply H; auto; lia. Qed.

Lemma check_legal h l i d0 d cmd (a : list Z) x :
  level_cast spec 0 = Some l → new_channel spec l i = Some d0 →
  Forall (event_ok spec) h → run_updates spec h d0 = Some d →
  addr_ok spec a → a !! 0%nat = Some i → 0 ≤ x →
  ∃ b, check spec cmd a x d = Some b ∧ (b = true ↔ legal spec h cmd a x).
Proof.
  intros Hl Hd0 Hh Hrun Ha Hi Hx. pose proof (run_updates_inv _ _ _ _ _ Hl Hd0 Hh Hrun) as Hinv.
  destruct (check_inv spec h [] i d a cmd x Hinv) as (b&Hb&Hiff); [done..| |].
  - inversion Hinv as [?? n cs Hn]; subst. apply visited_root. rewrite Hl. f_equal.
    apply level_int_inj. rewrite (int_cast _ _ Hl). simpl. symmetry. apply (ni_level _ _ _ _ _ Hn).
  - exists b. split; [done|]. rewrite Hiff. by rewrite legal_root.
Qed.

(** ** [get_next] *)

Lemma tree_inv_shaped h p i d : tree_inv spec h p i d → shaped spec (length p) d.
Proof.
  induction 1 as [p i n cs Hn Hlen Hch IH].
  constructor; [apply Hn|by destruct Hn|done|..].
  - intros j c Hj. destruct (Hch _ _ Hj) as [??? ? Hc]. apply Hc.
  - intros j c Hj. specialize (IH _ _ Hj). by rewrite length_app in IH.
Qed.

Lemma get_next_loop_check cmd (a : list Z) k d acc :
  shaped spec k d → addr_ok spec a → (k ≤ level_int spec (scope spec cmd))%nat →
  next (info d) cmd ≤ acc →
  ∃ t, get_next_loop spec cmd a d k acc = Some t ∧ acc ≤ t ∧
    ∀ x, 0 ≤ x → acc ≤ x → check spec cmd a x d = Some (t <=? x).
Proof.
  intros Hd Ha. revert acc. induction Hd as [k n cs Hk Hmax Hlen Hid Hch IH]; intros acc Hsc Hacc.
  cbn [get_next_loop check info] in *. rewrite Hk.
  destruct (lookup_lt_is_Some_2 a (k + 1)) as [y Hy]; [destruct Ha as [-> _]; lia|].
  rewrite Hy; simpl.
  assert (∀ x, 0 ≤ x → acc ≤ x → (negb (next n cmd =? -1) && (x <? next n cmd)) = false) as Hpass.
  { intros x ??. apply next_leb; lia. }
  destruct (bool_decide (k < level_int spec (scope spec cmd))%nat && bool_decide (cs ≠ []) && (0 <=? y)) eqn:Hgo.
  - rewrite !andb_true_iff, !bool_decide_eq_true in Hgo. destruct Hgo as [[Hlt Hne] Hpos].
    rewrite !bool_decide_true by done. simpl. rewrite Hpos.
    destruct (lookup_lt_is_Some_2 cs (Z.to_nat y)) as [c Hc].
    { eapply child_count_lt; eauto; [lia|]. by destruct cs. }
    rewrite at_child_lookup. unfold zlookup. destruct (y <? 0) eqn:Hy0; [lia|]. rewrite Hc; simpl.
    destruct (IH _ _ Hc (Z.max acc (next (info c) cmd))) as (t&Ht&Hle&Hcheck); [lia|lia|].
    exists t. split_and!; [done|lia|]. intros x Hx Hax. rewrite Hpass by done. simpl.
    rewrite (bool_decide_false (level n = _)) by (intros E; rewrite E in Hk; lia).
    rewrite (bool_decide_false (cs = [])) by done. simpl.
    rewrite at_child_lookup. unfold zlookup. rewrite Hy0, Hc; simpl.
    destruct (decide (Z.max acc (next (info c) cmd) ≤ x)); [by apply Hcheck|].
    destruct c as [nc ccs]; cbn [check info] in *.
    destruct (negb (next nc cmd =? -1) && (x <? next nc cmd)) eqn:E.
    + f_equal. lia.
    + apply next_leb in E; lia.
  - exists acc. split_and!; [|lia|].
    + destruct (bool_decide (k < _)%nat && bool_decide (cs ≠ [])) eqn:E; [|done].
      simpl in Hgo. by rewrite Hgo.
    + intros x Hx Hax. rewrite Hpass by done. rewrite (proj2 (Z.leb_le acc x)) by done.
      rewrite andb_false_iff, andb_false_iff, !bool_decide_eq_false in Hgo.
      destruct ((y <? 0) || bool_decide (level n = scope spec cmd) || bool_decide (cs = [])) eqn:E; [done|].
      rewrite !orb_false_iff, !bool_decide_eq_false in E. destruct E as [[E1 E2] E3].
      destruct Hgo as [[Hge| ]|]; [|by destruct cs|lia].
      exfalso. apply E2. apply level_int_inj. lia.
Qed.

Lemma get_next_check cmd (a : list Z) d :
  shaped spec 0 d → addr_ok spec a →
  ∃ t, get_next spec cmd a d = Some t ∧ cur_clk (info d) ≤ t ∧
    ∀ x, 0 ≤ x → cur_clk (info d) ≤ x → check spec cmd a x d = Some (t <=? x).
Proof.
  intros Hd Ha. set (acc := Z.max (cur_clk (info d)) (next (info d) cmd)).
  destruct (get_next_loop_check cmd a 0 d acc Hd Ha) as (t&Ht&Hle&Hc); [lia|lia|].
  exists t. unfold get_next, lvl. assert (level_int spec (level (info d)) = 0%nat) as ->.
  { by inversion Hd. }
  split_and!; [done|lia|]. intros x Hx Hcur. destruct (decide (acc ≤ x)); [by apply Hc|].
  destruct d as [nd cs]; cbn [check info] in *.
  destruct (negb (next nd cmd =? -1) && (x <? next nd cmd)) eqn:E; [f_equal; lia|].
  apply next_leb in E; lia.
Qed.

(** [check] always answers. *)
Lemma shaped_check k cmd (a : list Z) x d :
  shaped spec k d → addr_ok spec a → ∃ b, check spec cmd a x d = Some b.
Proof.
  intros Hd Ha. induction Hd as [k n cs Hk Hmax Hlen Hid Hch IH]. cbn [check]. rewrite Hk.
  destruct (lookup_lt_is_Some_2 a (k + 1)) as [y Hy]; [destruct Ha as [-> _]; lia|]. rewrite Hy; simpl.
  case_match; [eauto|]. destruct ((y <? 0) || _ || _) eqn:E; [eauto|].
  rewrite !orb_false_iff, !bool_decide_eq_false in E. destruct E as [[E1 E2] E3].
  destruct (lookup_lt_is_Some_2 cs (Z.to_nat y)) as [c Hc].
  { eapply child_count_lt; eauto; [lia|]. by destruct cs. }
  rewrite at_child_lookup. unfold zlookup. rewrite E1, Hc; simpl. eauto.
Qed.

End Updates.
