(* ===== verification/BankProtocol.v ===== *)
(** * The command protocol of a bank

    Every standard of the repository whose devices are "power level -> (bank
    groups ->) banks" (DDR3, DDR4, GDDR5, HBM, HMC, LPDDR3, LPDDR4, WideIO)
    fills the tables of [DRAM<T>] with the same protocol: a powered-down rank
    is woken up, a bank with another row open is precharged, a closed bank is
    activated, a refresh needs all banks precharged.  [BankProtocol] states the
    protocol as laws on the tables, and this file proves what follows for
    [decode] and [update_state] on the device tree; each standard proves the
    laws for its own tables. *)

From S2P Require Import Prelude Request Dram DramTiming.

(** ** Paths *)
Section Paths.
Context {L C S : Type} `{!EqDecision L, !EqDecision C, !EqDecision S}.
Variable spec : Spec L C S.

(** The node at level index [k] on the path of an address, and its update. *)
Fixpoint node_at (a : list Z) (k : nat) (d : DRAM L C S) : option (DRAM L C S) :=
  match d with
  | Dram n cs =>
    if decide (level_int spec (level n) = k) then Some d
    else x ← a !! (level_int spec (level n) + 1)%nat; at_child (node_at a k) cs x
  end.

Fixpoint upd_at (a : list Z) (k : nat) (f : DRAM L C S → option (DRAM L C S)) (d : DRAM L C S) :
    option (DRAM L C S) :=
  match d with
  | Dram n cs =>
    if decide (level_int spec (level n) = k) then f d
    else
      x ← a !! (level_int spec (level n) + 1)%nat;
      cs' ← upd_child (upd_at a k f) cs x;
      Some (Dram n cs')
  end.

(** All coordinates down to level index [k] are specified and in range. *)
Definition path_ok (k : nat) (a : list Z) : Prop :=
  length a = level_MAX spec ∧
  ∀ j, (0 < j ≤ k)%nat → ∃ x, a !! j = Some x ∧ 0 ≤ x < default 0 (count spec !! j).

Lemma shaped_skel k d d' : skel spec d' = skel spec d → shaped spec k d → shaped spec k d'.
Proof.
  intros Hs Hd. revert d' Hs. induction Hd as [k n cs Hl Hmax Hlen Hid Hch IH]; intros [n' cs'] Hs.
  simpl in Hs. injection Hs as Hn _ _ _ _ _ Hcs.
  assert (∀ j c', cs' !! j = Some c' → ∃ c, cs !! j = Some c ∧ skel spec c' = skel spec c) as Hc.
  { intros j c' Hj. assert (map (skel spec) cs' !! j = Some (skel spec c')) as Hm by (by rewrite list_lookup_fmap, Hj).
    rewrite Hcs, list_lookup_fmap in Hm. destruct (cs !! j) as [c|]; simplify_eq/=. eauto. }
  constructor; [congruence|done| | |].
  - rewrite <-Hlen. apply (f_equal length) in Hcs. by rewrite !length_map in Hcs.
  - intros j c' Hj. destruct (Hc j c' Hj) as (c&Hcj&Hsk). rewrite <-(Hid j c Hcj).
    destruct c', c; simpl in *. unfold set_state, set_row_state, set_cur_clk in Hsk; simpl in Hsk. congruence.
  - intros j c' Hj. destruct (Hc j c' Hj) as (c&Hcj&Hsk). by apply (IH j c Hcj).
Qed.

Lemma path_child j k a n cs :
  path_ok k a → (j < k)%nat → (k < level_int spec (lvl_Row spec))%nat → shaped spec j (Dram n cs) →
  ∃ x c, a !! (j + 1)%nat = Some x ∧ 0 ≤ x ∧ cs !! Z.to_nat x = Some c ∧ shaped spec (j + 1) c ∧
    level_int spec (level n) = j.
Proof.
  intros [_ Ha] Hj Hk Hd. inversion Hd as [? ? ? Hl Hmax Hlen Hid Hch]; subst.
  destruct (Ha (level_int spec (level n) + 1)%nat) as (x&Hx&Hr); [lia|].
  destruct (lookup_lt_is_Some_2 cs (Z.to_nat x)) as [c Hc].
  { rewrite Hlen. unfold child_count. rewrite decide_False by lia. lia. }
  exists x, c. split_and!; eauto. lia.
Qed.

Lemma node_at_total j k a d :
  path_ok k a → (j ≤ k)%nat → (k < level_int spec (lvl_Row spec))%nat → shaped spec j d →
  ∃ dk, node_at a k d = Some dk ∧ shaped spec k dk.
Proof.
  intros Ha Hjk Hk Hd. revert Hjk. induction Hd as [j n cs Hl Hmax Hlen Hid Hch IH]; intros Hjk.
  assert (shaped spec j (Dram n cs)) as Hd by (constructor; auto).
  cbn [node_at]. case_decide as E; [exists (Dram n cs); split; [done|congruence]|].
  destruct (path_child j k a n cs) as (x&c&Hx&Hpos&Hc&_); [done|lia|done|done|].
  rewrite Hl, Hx; simpl. rewrite at_child_lookup. unfold zlookup.
  destruct (x <? 0) eqn:?; [lia|]. rewrite Hc; simpl. apply (IH _ _ Hc). lia.
Qed.

(** The tree with one node of the path replaced. *)
Lemma upd_at_node f j k a d dk dk' :
  path_ok k a → (j ≤ k)%nat → (k < level_int spec (lvl_Row spec))%nat → shaped spec j d →
  node_at a k d = Some dk → f dk = Some dk' → skel spec dk' = skel spec dk →
  ∃ d', upd_at a k f d = Some d' ∧ upd_at a k (λ _, Some dk') d = Some d' ∧ skel spec d' = skel spec d ∧
    node_at a k d' = Some dk' ∧
    ∀ i di, (j ≤ i < k)%nat → node_at a i d = Some di →
      ∃ di', node_at a i d' = Some di' ∧ info di' = info di.
Proof.
  intros Ha Hjk Hk Hd Hn Hf Hsk. revert Hjk Hn.
  induction Hd as [j n cs Hl Hmax Hlen Hid Hch IH]; intros Hjk Hn.
  assert (shaped spec j (Dram n cs)) as Hd by (constructor; auto).
  cbn [node_at upd_at] in *. case_decide as E.
  - simplify_eq. exists dk'. split_and!; [done|done|done| |intros; lia].
    destruct dk' as [n' cs']. cbn [node_at]. simpl in Hsk.
    rewrite decide_True; [done|]. injection Hsk. intros. congruence.
  - destruct (path_child j k a n cs) as (x&c&Hx&Hpos&Hc&Hsc&_); [done|lia|done|done|].
    rewrite Hl, Hx in Hn |- *; simpl in Hn |- *.
    rewrite at_child_lookup in Hn. rewrite !upd_child_lookup. unfold zlookup in *.
    destruct (x <? 0) eqn:?; [lia|]. rewrite Hc in Hn |- *; simpl in Hn |- *.
    destruct (IH _ _ Hc) as (c'&Hc'&Hc''&Hskc&Hnc&Hup); [lia|done|].
    rewrite Hc', Hc''; simpl. eexists; split_and!; [done|done|..].
    + simpl. f_equal. by eapply map_skel_insert.
    + cbn [node_at]. rewrite decide_False by congruence. rewrite Hl, Hx; simpl.
      rewrite at_child_lookup. unfold zlookup. rewrite Heqb.
      rewrite list_lookup_insert_eq by eauto using lookup_lt_Some. done.
    + intros i di Hi Hdi. cbn [node_at] in *. case_decide as Ei.
      { simplify_eq. rewrite decide_True by congruence. by eexists. }
      rewrite decide_False by congruence.
      rewrite Hl, Hx; simpl. rewrite at_child_lookup in Hdi |- *.
      unfold zlookup in *. rewrite Heqb in Hdi |- *. rewrite Hc in Hdi; simpl in Hdi.
      rewrite list_lookup_insert_eq by eauto using lookup_lt_Some. simpl. apply Hup; [lia|done].
Qed.

(** A replacement by the same node. *)
Lemma upd_at_id a j k d dk :
  path_ok k a → (j ≤ k)%nat → (k < level_int spec (lvl_Row spec))%nat → shaped spec j d →
  node_at a k d = Some dk → upd_at a k (λ _, Some dk) d = Some d.
Proof.
  intros Ha Hjk Hk Hd Hn. revert Hjk Hn.
  induction Hd as [j n cs Hl Hmax Hlen Hid Hch IH]; intros Hjk Hn.
  assert (shaped spec j (Dram n cs)) as Hd by (constructor; auto).
  cbn [node_at upd_at] in *. case_decide as E; [congruence|].
  destruct (path_child j k a n cs) as (x&c&Hx&Hpos&Hc&Hsc&_); [done|lia|done|done|].
  rewrite Hl, Hx in Hn |- *; simpl in Hn |- *. rewrite at_child_lookup in Hn. rewrite upd_child_lookup.
  unfold zlookup in *. destruct (x <? 0) eqn:?; [lia|]. rewrite Hc in Hn |- *; simpl in Hn |- *.
  rewrite (IH _ _ Hc) by (done || lia). simpl. by rewrite list_insert_id.
Qed.

(** A walk that goes to the child on the path at every level above [k] depends
    only on the node at level [k]. *)
Lemma descend {B} (F : DRAM L C S → option B) j k a d dk :
  path_ok k a → (j ≤ k)%nat → (k < level_int spec (lvl_Row spec))%nat → shaped spec j d →
  (∀ n cs x, (j ≤ level_int spec (level n) < k)%nat → a !! (level_int spec (level n) + 1)%nat = Some x →
     0 ≤ x → cs ≠ [] → F (Dram n cs) = at_child F cs x) →
  node_at a k d = Some dk → F d = F dk.
Proof.
  intros Ha Hjk Hk Hd HF Hn. revert Hjk HF Hn.
  induction Hd as [j n cs Hl Hmax Hlen Hid Hch IH]; intros Hjk HF Hn.
  assert (shaped spec j (Dram n cs)) as Hd by (constructor; auto).
  cbn [node_at] in Hn. case_decide as E; [by simplify_eq|].
  destruct (path_child j k a n cs) as (x&c&Hx&Hpos&Hc&Hsc&_); [done|lia|done|done|].
  rewrite Hl, Hx in Hn; simpl in Hn. rewrite at_child_lookup in Hn. unfold zlookup in Hn.
  destruct (x <? 0) eqn:Hx0; [lia|]. rewrite Hc in Hn; simpl in Hn.
  rewrite (HF n cs x) by (lia || congruence || (intros ->; by rewrite lookup_nil in Hc)).
  rewrite at_child_lookup. unfold zlookup. rewrite Hx0, Hc; simpl.
  apply (IH _ _ Hc); [lia|intros; apply HF; auto; lia|done].
Qed.

Lemma node_at_below j k m a d dk :
  path_ok m a → (j ≤ k ≤ m)%nat → (m < level_int spec (lvl_Row spec))%nat → shaped spec j d →
  node_at a k d = Some dk → node_at a m d = node_at a m dk.
Proof.
  intros Ha Hjk Hm Hd. apply descend with (j := j); [|lia|lia|done|].
  - destruct Ha as [? Ha]. split; [done|]. intros i ?; apply Ha; lia.
  - intros n cs x Hl Hx _ _. cbn [node_at]. rewrite decide_False by lia. by rewrite Hx.
Qed.

(** [decode], [check_row_hit] and [check_row_open] go down through the levels
    that have no table entry. *)
Lemma decode_skip cmd j k a d dk :
  path_ok k a → (j ≤ k)%nat → (k < level_int spec (lvl_Row spec))%nat → shaped spec j d →
  (∀ l, (j ≤ level_int spec l < k)%nat → prereq spec l cmd = None) →
  node_at a k d = Some dk → decode spec cmd a d = decode spec cmd a dk.
Proof.
  intros ? ? ? ? Hp. apply descend with (j := j); auto. intros n cs x Hl Hx Hpos Hcs.
  cbn [decode]. rewrite Hx; simpl. rewrite Hp by done; simpl.
  rewrite bool_decide_false by naive_solver. rewrite (proj2 (Z.ltb_ge x 0)) by lia.
  by rewrite bool_decide_false.
Qed.

Lemma check_row_hit_skip cmd j k a d dk :
  path_ok k a → (j ≤ k)%nat → (k < level_int spec (lvl_Row spec))%nat → shaped spec j d →
  (∀ l, (j ≤ level_int spec l < k)%nat → rowhit spec l cmd = None) →
  node_at a k d = Some dk → check_row_hit spec cmd a d = check_row_hit spec cmd a dk.
Proof.
  intros ? ? ? ? Hp. apply descend with (j := j); auto. intros n cs x Hl Hx Hpos Hcs.
  cbn [check_row_hit]. rewrite Hx; simpl. rewrite Hp by done; simpl.
  rewrite (proj2 (Z.ltb_ge x 0)) by lia. by rewrite bool_decide_false.
Qed.

Lemma check_row_open_skip cmd j k a d dk :
  path_ok k a → (j ≤ k)%nat → (k < level_int spec (lvl_Row spec))%nat → shaped spec j d →
  (∀ l, (j ≤ level_int spec l < k)%nat → rowopen spec l cmd = None) →
  node_at a k d = Some dk → check_row_open spec cmd a d = check_row_open spec cmd a dk.
Proof.
  intros ? ? ? ? Hp. apply descend with (j := j); auto. intros n cs x Hl Hx Hpos Hcs.
  cbn [check_row_open]. rewrite Hx; simpl. rewrite Hp by done; simpl.
  rewrite (proj2 (Z.ltb_ge x 0)) by lia. by rewrite bool_decide_false.
Qed.

(** [update_state] goes down through the levels that have no transition or
    one that changes nothing. *)
Definition inert (l : L) (cmd : C) : Prop :=
  ∀ f d x, lambda spec l cmd = Some f → f d x = Some d.

Lemma None_inert l cmd : lambda spec l cmd = None → inert l cmd.
Proof. intros H f d x Hf. congruence. Qed.

Lemma inert_run l cmd d x :
  inert l cmd → match lambda spec l cmd with Some f => f d x | None => Some d end = Some d.
Proof. intros H. destruct (lambda spec l cmd) eqn:E; [by apply H|done]. Qed.

Lemma update_state_skip cmd fuel j k a d :
  path_ok k a → (j ≤ k)%nat → (k < level_int spec (lvl_Row spec))%nat → shaped spec j d →
  (k ≤ level_int spec (scope spec cmd))%nat →
  (∀ l, (j ≤ level_int spec l < k)%nat → inert l cmd) →
  update_state_loop spec (k - j + fuel) cmd a d = upd_at a k (update_state_loop spec fuel cmd a) d.
Proof.
  intros Ha Hjk Hk Hd Hsc Hp. revert Hjk Hp.
  induction Hd as [j n cs Hl Hmax Hlen Hid Hch IH]; intros Hjk Hp.
  assert (shaped spec j (Dram n cs)) as Hd by (constructor; auto).
  cbn [upd_at]. case_decide as E; [by replace (k - j + fuel)%nat with fuel by lia|].
  replace (k - j + fuel)%nat with (Datatypes.S (k - (j + 1) + fuel)) by lia.
  destruct (path_child j k a n cs) as (x&c&Hx&Hpos&Hc&Hsh&_); [done|lia|done|done|].
  cbn [update_state_loop]. unfold lvl; cbn [info]. rewrite Hl, Hx; cbn [mbind option_bind].
  rewrite inert_run by (apply Hp; lia); simpl.
  rewrite bool_decide_false by (intros Heq; rewrite Heq in E, Hl; lia).
  rewrite bool_decide_false by (intros ->; by rewrite lookup_nil in Hc). simpl.
  rewrite !upd_child_lookup. destruct (zlookup cs x) as [c'|] eqn:Hz; simpl; [|done].
  assert (c' = c) as ->.
  { unfold zlookup in Hz. destruct (x <? 0); [done|congruence]. }
  by rewrite (IH _ _ Hc) by (auto with lia).
Qed.

(** A command whose only transition is at level index [k]. *)
Lemma update_state_at `{!TimingOK spec, !LambdaFrame spec} cmd k f x a d dk dk' :
  path_ok k a → (k < level_int spec (lvl_Row spec))%nat → shaped spec 0 d →
  (k ≤ level_int spec (scope spec cmd))%nat →
  (∀ l, (level_int spec l < k)%nat → inert l cmd) →
  node_at a k d = Some dk → lambda spec (level (info dk)) cmd = Some f →
  a !! (k + 1)%nat = Some x → f dk x = Some dk' →
  level (info dk') = scope spec cmd ∨ children dk' = [] →
  ∃ d', update_state spec cmd a d = Some d' ∧ upd_at a k (λ _, Some dk') d = Some d' ∧
    skel spec d' = skel spec d ∧ node_at a k d' = Some dk' ∧
    ∀ i di, (i < k)%nat → node_at a i d = Some di → ∃ di', node_at a i d' = Some di' ∧ info di' = info di.
Proof.
  intros Ha Hk Hd Hsc Hl Hn Hf Hx Hfx Hstop. pose proof (row_lt (spec:=spec)).
  destruct (node_at_total 0 k a d) as (dk0&Hn0&Hsh); [done|lia|done|done|]. simplify_eq.
  unfold update_state.
  replace (level_MAX spec) with (k - 0 + Datatypes.S (level_MAX spec - k - 1))%nat by lia.
  rewrite update_state_skip; [|done|lia|done|done|done|intros; apply Hl; lia].
  destruct (upd_at_node (update_state_loop spec (Datatypes.S (level_MAX spec - k - 1)) cmd a) 0 k a d dk dk')
    as (d'&Hu&Hu'&Hsk&Hnk&Hup); [done|lia|done|done|done| | |].
  - cbn [update_state_loop]. assert (lvl spec dk = k) as -> by (by inversion Hsh).
    rewrite Hx; simpl. rewrite Hf, Hfx; simpl. destruct dk' as [n' cs']; simpl in Hstop.
    destruct Hstop as [Hs|Hs]; [by rewrite (bool_decide_true _ Hs)|].
    by rewrite (bool_decide_true _ Hs), orb_true_r.
  - by eapply lambda_skel.
  - exists d'. split_and!; auto. intros i di Hi. apply Hup. lia.
Qed.

End Paths.

(** ** The protocol *)

(** The names a standard gives to the levels, commands and states. *)
Record Proto {L C S : Type} := mkProto {
  p_power : L;
  p_RD : C; p_WR : C; p_ACT : C; p_PREA : C; p_REF : C; p_PDX : C; p_SRX : C;
  p_Opened : S; p_Closed : S; p_PowerUp : S;
  p_ActPowerDown : S; p_PrePowerDown : S; p_SelfRefresh : S
}.
Arguments Proto : clear implicits.
Arguments mkProto {L C S}.

Section Laws.
Context {L C S : Type} `{!EqDecision L, !EqDecision C, !EqDecision S}.
Variables (spec : Spec L C S) (pr : Proto L C S).

(** What each table entry does. *)
Definition wake_cmd (d : DRAM L C S) : option C :=
  let s := state (info d) in
  if decide (s = p_PowerUp pr) then Some (cmd_MAX spec)
  else if decide (s = p_ActPowerDown pr ∨ s = p_PrePowerDown pr) then Some (p_PDX pr)
  else if decide (s = p_SelfRefresh pr) then Some (p_SRX pr)
  else None.

Definition row_cmd (d : DRAM L C S) (cmd : C) (id : Z) : option C :=
  let s := state (info d) in
  if decide (s = p_Closed pr) then Some (p_ACT pr)
  else if decide (s = p_Opened pr) then
    if decide (is_Some (row_state (info d) !! id)) then Some cmd else Some (cmd_PRE spec)
  else None.

Definition row_hit (d : DRAM L C S) (id : Z) : option bool :=
  let s := state (info d) in
  if decide (s = p_Closed pr) then Some false
  else if decide (s = p_Opened pr) then
    if decide (is_Some (row_state (info d) !! id)) then Some true else Some false
  else None.

Definition row_open (d : DRAM L C S) : option bool :=
  let s := state (info d) in
  if decide (s = p_Closed pr) then Some false
  else if decide (s = p_Opened pr) then Some true
  else None.

Definition open_row (id : Z) (n : dram_info L C S) : dram_info L C S :=
  set_row_state (<[id := p_Opened pr]> (row_state n)) (set_state (p_Opened pr) n).
Definition close_row (n : dram_info L C S) : dram_info L C S :=
  set_row_state ∅ (set_state (p_Closed pr) n).

(** All banks below a node. *)
Fixpoint all_closed (d : DRAM L C S) : bool :=
  match d with
  | Dram n cs =>
    if decide (level n = lvl_Bank spec) then bool_decide (state n = p_Closed pr)
    else forallb all_closed cs
  end.

Fixpoint close_all (d : DRAM L C S) : DRAM L C S :=
  match d with
  | Dram n cs =>
    if decide (level n = lvl_Bank spec) then Dram (close_row n) cs
    else Dram n (map close_all cs)
  end.

Definition agrees {A B} (o : option (DRAM L C S → A → B)) (g : DRAM L C S → A → B) : Prop :=
  ∃ f, o = Some f ∧ ∀ d x, f d x = g d x.

Definition power_idx : nat := level_int spec (p_power pr).
Definition bank_idx : nat := level_int spec (lvl_Bank spec).

(** The only transition of [cmd] is [g], at level [l]. *)
Definition transition (cmd : C) (l : L) (g : DRAM L C S → Z → option (DRAM L C S)) : Prop :=
  agrees (lambda spec l cmd) g ∧ ∀ l', l' ≠ l → inert spec l' cmd.

(** The commands that wake a power level up and open row [r] of a bank. *)
Definition wake_seq (s : S) : list C :=
  if decide (s = p_PowerUp pr) then []
  else if decide (s = p_SelfRefresh pr) then [p_SRX pr] else [p_PDX pr].
Definition open_seq (r : Z) (n : dram_info L C S) : list C :=
  if decide (state n = p_Closed pr) then [p_ACT pr]
  else if decide (is_Some (row_state n !! r)) then [] else [cmd_PRE spec; p_ACT pr].
Definition opened (r : Z) (n : dram_info L C S) : dram_info L C S :=
  if decide (state n = p_Closed pr) then open_row r n
  else if decide (is_Some (row_state n !! r)) then n else open_row r (close_row n).

Definition power_state (s : S) : Prop :=
  s ∈ [p_PowerUp pr; p_ActPowerDown pr; p_PrePowerDown pr; p_SelfRefresh pr].
Definition bank_state (s : S) : Prop := s = p_Opened pr ∨ s = p_Closed pr.

(** A bank has no row open and is [Closed], or has one row open and is
    [Opened]. *)
Definition one_row (n : dram_info L C S) : Prop :=
  (state n = p_Closed pr ∧ row_state n = ∅) ∨
  (state n = p_Opened pr ∧ ∃ r, row_state n = {[ r := p_Opened pr ]}).

(** Every bank of the tree is in one of these two states, and every power
    level in one of its four. *)
Inductive bank_inv : DRAM L C S → Prop :=
| Bank_inv n cs :
    (level n = lvl_Bank spec → one_row n) →
    (level n = p_power pr → power_state (state n)) →
    (∀ j c, cs !! j = Some c → bank_inv c) →
    bank_inv (Dram n cs).

(** What a command does to the node it acts on. *)
Inductive moved (a : list Z) (d : DRAM L C S) : C → DRAM L C S → Prop :=
| Moved_act r db d' :
    path_ok spec bank_idx a → a !! (bank_idx + 1)%nat = Some r → node_at spec a bank_idx d = Some db →
    state (info db) = p_Closed pr →
    upd_at spec a bank_idx (λ _, Some (on_info (open_row r) db)) d = Some d' → moved a d (p_ACT pr) d'
| Moved_pre db d' :
    path_ok spec bank_idx a → node_at spec a bank_idx d = Some db → state (info db) = p_Opened pr →
    upd_at spec a bank_idx (λ _, Some (on_info close_row db)) d = Some d' → moved a d (cmd_PRE spec) d'
| Moved_access c r db :
    path_ok spec bank_idx a → c = p_RD pr ∨ c = p_WR pr → a !! (bank_idx + 1)%nat = Some r → node_at spec a bank_idx d = Some db →
    state (info db) = p_Opened pr → is_Some (row_state (info db) !! r) → moved a d c d
| Moved_wake c dp d' :
    path_ok spec power_idx a → c = p_PDX pr ∨ c = p_SRX pr → node_at spec a power_idx d = Some dp →
    upd_at spec a power_idx (λ _, Some (on_info (set_state (p_PowerUp pr)) dp)) d = Some d' → moved a d c d'
| Moved_prea dp d' :
    path_ok spec power_idx a → node_at spec a power_idx d = Some dp → all_closed dp = false →
    upd_at spec a power_idx (λ _, Some (close_all dp)) d = Some d' → moved a d (p_PREA pr) d'
| Moved_ref dp :
    path_ok spec power_idx a → node_at spec a power_idx d = Some dp → all_closed dp = true → moved a d (p_REF pr) d.

Class BankProtocol : Prop := {
  bp_timing :: TimingOK spec;
  bp_frame :: LambdaFrame spec;
  bp_levels : (power_idx < bank_idx ∧ bank_idx + 1 = level_int spec (lvl_Row spec))%nat;
  bp_cmds : NoDup [p_RD pr; p_WR pr; p_ACT pr; cmd_PRE spec; p_PREA pr; p_REF pr; p_PDX pr; p_SRX pr;
                   cmd_MAX spec];
  bp_states : NoDup [p_Opened pr; p_Closed pr; p_PowerUp pr; p_ActPowerDown pr; p_PrePowerDown pr;
                     p_SelfRefresh pr];
  bp_wake c : c = p_RD pr ∨ c = p_WR pr →
    agrees (prereq spec (p_power pr) c) (λ d _ _, wake_cmd d);
  bp_row c : c = p_RD pr ∨ c = p_WR pr → agrees (prereq spec (lvl_Bank spec) c) row_cmd;
  bp_pass c l : c = p_RD pr ∨ c = p_WR pr → l ≠ p_power pr → l ≠ lvl_Bank spec → prereq spec l c = None;
  bp_hit c : c = p_RD pr ∨ c = p_WR pr → agrees (rowhit spec (lvl_Bank spec) c) (λ d _ id, row_hit d id);
  bp_hit_pass c l : c = p_RD pr ∨ c = p_WR pr → l ≠ lvl_Bank spec → rowhit spec l c = None;
  bp_open c : c = p_RD pr ∨ c = p_WR pr → agrees (rowopen spec (lvl_Bank spec) c) (λ d _ _, row_open d);
  bp_open_pass c l : c = p_RD pr ∨ c = p_WR pr → l ≠ lvl_Bank spec → rowopen spec l c = None;
  bp_ref : ∃ f, prereq spec (p_power pr) (p_REF pr) = Some f ∧
    ∀ d cmd id, shaped spec power_idx d → f d cmd id = Some (if all_closed d then p_REF pr else p_PREA pr);
  bp_ref_pass l : l ≠ p_power pr → prereq spec l (p_REF pr) = None;
  bp_act : transition (p_ACT pr) (lvl_Bank spec) (λ d id, Some (on_info (open_row id) d));
  bp_pre : transition (cmd_PRE spec) (lvl_Bank spec) (λ d _, Some (on_info close_row d));
  bp_pdx : transition (p_PDX pr) (p_power pr) (λ d _, Some (on_info (set_state (p_PowerUp pr)) d));
  bp_srx : transition (p_SRX pr) (p_power pr) (λ d _, Some (on_info (set_state (p_PowerUp pr)) d));
  bp_prea : (∃ f, lambda spec (p_power pr) (p_PREA pr) = Some f ∧
      ∀ d id, shaped spec power_idx d → f d id = Some (close_all d)) ∧
    ∀ l', l' ≠ p_power pr → inert spec l' (p_PREA pr);
  bp_stay c l : c ∈ [p_RD pr; p_WR pr; p_REF pr] → inert spec l c;
  bp_start_bank : start spec (lvl_Bank spec) = p_Closed pr;
  bp_start_power : start spec (p_power pr) = p_PowerUp pr;
  bp_scope_bank c : c ∈ [p_RD pr; p_WR pr; p_ACT pr; cmd_PRE spec] →
    (bank_idx ≤ level_int spec (scope spec c))%nat;
  bp_scope_power c : c ∈ [p_PREA pr; p_REF pr; p_PDX pr; p_SRX pr] → scope spec c = p_power pr
}.

End Laws.

(** ** What follows from the protocol *)
Section Protocol.
Context {L C S : Type} `{!EqDecision L, !EqDecision C, !EqDecision S}.
Variables (spec : Spec L C S) (pr : Proto L C S).
Context `{BP : !BankProtocol spec pr}.

Abbreviation power := (power_idx spec pr).
Abbreviation bank := (bank_idx spec).

Definition rw (c : C) : Prop := c = p_RD pr ∨ c = p_WR pr.

Lemma rw_distinct c :
  rw c → c ≠ p_ACT pr ∧ c ≠ cmd_PRE spec ∧ c ≠ p_PDX pr ∧ c ≠ p_SRX pr ∧ c ≠ cmd_MAX spec.
Proof.
  pose proof (bp_cmds spec pr) as H. rewrite !NoDup_cons, !not_elem_of_cons in H.
  intros [->| ->]; naive_solver.
Qed.

Lemma cmds_distinct :
  p_ACT pr ≠ cmd_MAX spec ∧ cmd_PRE spec ≠ cmd_MAX spec ∧ p_PDX pr ≠ cmd_MAX spec ∧
  p_SRX pr ≠ cmd_MAX spec ∧ p_REF pr ≠ cmd_MAX spec ∧ p_PREA pr ≠ cmd_MAX spec ∧ p_PREA pr ≠ p_REF pr.
Proof.
  pose proof (bp_cmds spec pr) as H. rewrite !NoDup_cons, !not_elem_of_cons in H. naive_solver.
Qed.

Lemma path_ok_le j k a : path_ok spec k a → (j ≤ k)%nat → path_ok spec j a.
Proof. intros [Hlen Ha] Hj. split; [done|]. intros i Hi. apply Ha. lia. Qed.

Lemma level_at k d l : shaped spec k d → level_int spec l = k → level (info d) = l.
Proof. intros Hd Hl. apply level_int_inj. inversion Hd; subst; simpl; congruence. Qed.

Lemma bank_leaf d : shaped spec bank d → children d = [].
Proof.
  pose proof (bp_levels spec pr) as [_ Hr]. intros Hd. inversion Hd as [? n cs Hl _ Hlen _ _]; subst; simpl.
  apply length_zero_iff_nil. rewrite Hlen. unfold child_count.
  by rewrite decide_True.
Qed.

Lemma row_cmd_not_MAX d c r b : rw c → row_cmd spec pr d c r = Some b → b ≠ cmd_MAX spec.
Proof.
  intros Hc. pose proof cmds_distinct. pose proof (rw_distinct c Hc).
  unfold row_cmd. intros. repeat case_decide; simplify_eq; naive_solver.
Qed.

Lemma rw_pass c l :
  rw c → (level_int spec l ≠ power)%nat → (level_int spec l ≠ bank)%nat → prereq spec l c = None.
Proof. intros Hc Hp Hb. apply (bp_pass spec pr); [done|..]; by intros ->. Qed.

(** At the bank itself. *)
Lemma decode_bank c a r db :
  rw c → shaped spec bank db → a !! (bank + 1)%nat = Some r →
  decode spec c a db = row_cmd spec pr db c r.
Proof.
  intros Hc Hsb Hr. pose proof (level_at _ _ (lvl_Bank spec) Hsb eq_refl) as Hlb.
  destruct db as [nb csb]. cbn [decode info] in *. rewrite Hlb. fold bank. rewrite Hr; simpl.
  destruct (bp_row spec pr c Hc) as (g&->&Hg). rewrite Hg.
  destruct (row_cmd spec pr (Dram nb csb) c r) as [b|] eqn:Hrow; simpl; [|done].
  by rewrite bool_decide_true by (by eapply row_cmd_not_MAX).
Qed.

(** [decode] of a read or a write: wake the power level up, then open the row. *)
Lemma decode_rw c a d dp db r :
  rw c → shaped spec 0 d → path_ok spec bank a → a !! (bank + 1)%nat = Some r →
  node_at spec a power d = Some dp → node_at spec a bank d = Some db →
  decode spec c a d =
    w ← wake_cmd spec pr dp; if decide (w = cmd_MAX spec) then row_cmd spec pr db c r else Some w.
Proof.
  intros Hc Hd Ha Hr Hp Hb. pose proof (bp_levels spec pr) as [Hpb Hbr].
  assert (path_ok spec power a) as Hpa by (eapply path_ok_le; [exact Ha|lia]).
  rewrite (decode_skip spec c 0 power a d dp); [|done|lia|lia|done| |done].
  2:{ intros l Hl. apply (rw_pass c l Hc); lia. }
  destruct (node_at_total spec 0 power a d) as (dp'&?&Hsp); [done|lia|lia|done|]. simplify_eq.
  rewrite (node_at_below spec 0 power bank a d dp) in Hb; [|done|lia|lia|done|done].
  pose proof (level_at _ _ (p_power pr) Hsp eq_refl) as Hlp.
  destruct dp as [n cs]. destruct (path_child spec power bank a n cs) as (x&ch&Hx&Hpos&Hch&Hsch&Hln);
    [done|lia|lia|done|].
  cbn [decode info] in *. rewrite Hln, Hx; simpl. rewrite Hlp.
  destruct (bp_wake spec pr c Hc) as (f&->&Hf). rewrite Hf.
  destruct (wake_cmd spec pr (Dram n cs)) as [w|]; simpl; [|done].
  destruct (decide (w = cmd_MAX spec)) as [Hw|Hw]; [rewrite bool_decide_false by naive_solver|by rewrite bool_decide_true].
  rewrite (proj2 (Z.ltb_ge x 0)) by lia. rewrite bool_decide_false by (intros ->; by rewrite lookup_nil in Hch).
  simpl. cbn [node_at] in Hb. rewrite decide_False in Hb by (rewrite Hln; lia).
  rewrite Hln, Hx in Hb; simpl in Hb.
  rewrite at_child_lookup in Hb. rewrite at_child_lookup. unfold zlookup in *.
  rewrite (proj2 (Z.ltb_ge x 0)) in Hb |- * by lia. rewrite Hch in Hb |- *; simpl in Hb |- *.
  rewrite (decode_skip spec c (power + 1) bank a ch db); [|done|lia|lia|done| |done].
  2:{ intros l Hl. apply (rw_pass c l Hc); lia. }
  destruct (node_at_total spec (power + 1) bank a ch) as (db'&?&Hsb); [done|lia|lia|done|]. simplify_eq.
  by apply decode_bank.
Qed.

(** *** The invariant of the tree *)
Lemma bank_inv_at a k d dk :
  path_ok spec k a → (k < level_int spec (lvl_Row spec))%nat → shaped spec 0 d →
  bank_inv spec pr d → node_at spec a k d = Some dk → bank_inv spec pr dk.
Proof.
  intros Ha Hk Hd Hinv Hn. assert (∃ j, (j ≤ k)%nat ∧ shaped spec j d) as (j&Hj&Hs) by (exists 0%nat; split; [lia|done]).
  clear Hd. revert Hj Hinv Hn. induction Hs as [j n cs Hl Hmax Hlen Hid Hch IH]; intros Hj Hinv Hn.
  assert (shaped spec j (Dram n cs)) as Hd by (constructor; auto).
  cbn [node_at] in Hn. case_decide as E; [by simplify_eq|].
  destruct (path_child spec j k a n cs) as (x&c&Hx&Hpos&Hc&Hsc&_); [done|lia|done|done|].
  rewrite Hl, Hx in Hn; simpl in Hn. rewrite at_child_lookup in Hn. unfold zlookup in Hn.
  destruct (x <? 0) eqn:Hx0; [lia|]. rewrite Hc in Hn; simpl in Hn.
  inversion Hinv; subst. eapply IH; eauto. lia.
Qed.

Lemma bank_inv_upd a k d d' dk' :
  upd_at spec a k (λ _, Some dk') d = Some d' → bank_inv spec pr d → bank_inv spec pr dk' →
  bank_inv spec pr d'.
Proof.
  intros Hu Hd Hk. revert d' Hu. induction Hd as [n cs Hb Hp Hc IH]; intros d' Hu.
  cbn [upd_at] in Hu. case_decide; [by simplify_eq|]. run_opt.
  apply upd_child_Some in H1 as (c&c'&_&Hcj&Hcc&->). constructor; auto.
  intros j y Hj. destruct (decide (j = Z.to_nat x)) as [->|Hne].
  - rewrite list_lookup_insert_eq in Hj by eauto using lookup_lt_Some. simplify_eq. eauto.
  - rewrite list_lookup_insert_ne in Hj by done. eauto.
Qed.

Lemma new_dram_bank_inv fuel l i d : new_dram spec fuel l i = Some d → bank_inv spec pr d.
Proof.
  revert l i d; induction fuel as [|fuel IH]; intros l i d Hd; [done|]. cbn [new_dram] in Hd.
  assert (∀ cs, (∀ j c, cs !! j = Some c → bank_inv spec pr c) →
    bank_inv spec pr (Dram (new_info spec l i) cs)) as Hnode.
  { intros cs Hcs. constructor; [| |done]; simpl; intros ->.
    - left. simpl. by rewrite (bp_start_bank spec pr).
    - rewrite (bp_start_power spec pr). unfold power_state. set_solver. }
  case_decide; [simplify_eq; by apply Hnode|]. run_opt. case_match; [simplify_eq; by apply Hnode|].
  run_opt. match goal with H : mapM _ _ = Some _ |- _ => apply mapM_Some_1 in H; rename H into Hm end.
  apply Hnode. intros j c Hj. destruct (Forall2_lookup_r _ _ _ _ _ Hm Hj) as (k&_&Hk). eauto.
Qed.

(** *** What the path of an address shows: the state of the power level and
    the members of the bank. *)
Section View.
Variables (a : list Z) (r : Z).
Hypothesis Ha : path_ok spec bank a.
Hypothesis Hr : a !! (bank + 1)%nat = Some r.

Definition sees (d : DRAM L C S) (sp : S) (nb : dram_info L C S) : Prop :=
  shaped spec 0 d ∧
  ∃ dp db, node_at spec a power d = Some dp ∧ state (info dp) = sp ∧
           node_at spec a bank d = Some db ∧ info db = nb.

Lemma wake_cmd_info (d d' : DRAM L C S) :
  state (info d) = state (info d') → wake_cmd spec pr d = wake_cmd spec pr d'.
Proof. unfold wake_cmd. by intros ->. Qed.

Lemma update_bank c g d sp nb :
  c = p_ACT pr ∨ c = cmd_PRE spec →
  transition spec c (lvl_Bank spec) (λ d id, Some (on_info (g id) d)) →
  sees d sp nb → ∃ d', update_state spec c a d = Some d' ∧ sees d' sp (g r nb) ∧
    (∃ db, node_at spec a bank d = Some db ∧ info db = nb ∧
       upd_at spec a bank (λ _, Some (on_info (g r) db)) d = Some d') ∧
    (bank_inv spec pr d → one_row pr (g r nb) → level (g r nb) = level nb → bank_inv spec pr d').
Proof.
  intros Hc [(f&Hl&Hf) Hno] (Hd&dp&db&Hp&Hsp&Hb&Hnb). pose proof (bp_levels spec pr) as [Hpb Hbr].
  destruct (node_at_total spec 0 bank a d) as (db'&?&Hsb); [done|lia|lia|done|]. simplify_eq.
  pose proof (level_at _ _ (lvl_Bank spec) Hsb eq_refl) as Hlb.
  destruct (update_state_at spec c bank f r a d db (on_info (g r) db)) as (d'&Hu&Hu'&Hsk&Hnk&Hup); auto; try lia.
  - apply (bp_scope_bank spec pr). set_solver.
  - intros l Hlt. apply Hno. intros ->. unfold bank_idx in Hlt. lia.
  - by rewrite Hlb.
  - right. pose proof (bank_leaf _ Hsb). by destruct db.
  - exists d'. split; [done|]. split; [split; [by eapply shaped_skel|]|split; [eauto|]].
    + destruct (Hup power dp) as (dp'&?&Hi); [lia|done|].
      exists dp', (on_info (g r) db). split_and!; [done|by rewrite Hi|done|by destruct db].
    + intros Hinv Hone Hlg. eapply bank_inv_upd; [done|done|].
      pose proof (bank_leaf _ Hsb) as Hleaf. destruct db as [n cs]; simpl in *; subst. constructor; [done| |by intros ? ? ?].
      rewrite Hlg, Hlb. intros Hbp. apply (f_equal (level_int spec)) in Hbp. unfold power_idx, bank_idx in Hpb. lia.
Qed.

Lemma update_wake c d sp nb :
  c = p_PDX pr ∨ c = p_SRX pr → sees d sp nb →
  ∃ d', update_state spec c a d = Some d' ∧ sees d' (p_PowerUp pr) nb ∧
    (∃ dp, node_at spec a power d = Some dp ∧
       upd_at spec a power (λ _, Some (on_info (set_state (p_PowerUp pr)) dp)) d = Some d') ∧
    (bank_inv spec pr d → bank_inv spec pr d').
Proof.
  intros Hc (Hd&dp&db&Hp&Hsp&Hb&Hnb). pose proof (bp_levels spec pr) as [Hpb Hbr].
  assert (path_ok spec power a) as Hpa by (eapply path_ok_le; [exact Ha|lia]).
  assert (transition spec c (p_power pr) (λ d _, Some (on_info (set_state (p_PowerUp pr)) d)))
    as [(f&Hl&Hf) Hno] by (destruct Hc as [->| ->]; [apply (bp_pdx spec pr)|apply (bp_srx spec pr)]).
  destruct (node_at_total spec 0 power a d) as (dp'&?&Hsh); [done|lia|lia|done|]. simplify_eq.
  pose proof (level_at _ _ (p_power pr) Hsh eq_refl) as Hlp.
  assert (scope spec c = p_power pr) as Hsc by (apply (bp_scope_power spec pr); set_solver).
  destruct (proj2 Ha (power + 1)%nat) as (x&Hx&_); [lia|].
  destruct (update_state_at spec c power f x a d dp (on_info (set_state (p_PowerUp pr)) dp))
    as (d'&Hu&Hu'&Hsk&Hnk&_); auto; try lia.
  - by rewrite Hsc.
  - intros l Hlt. apply Hno. intros ->. unfold power_idx in Hlt. lia.
  - by rewrite Hlp.
  - left. rewrite Hsc. by destruct dp.
  - assert (shaped spec 0 d') by (by eapply shaped_skel). exists d'. split; [done|]. split; [split; [done|]|split; [eauto|]].
    + exists (on_info (set_state (p_PowerUp pr)) dp), db. split_and!; [done|by destruct dp| |done].
      rewrite (node_at_below spec 0 power bank a d' _ Ha) by (done || lia).
      rewrite <-Hb, (node_at_below spec 0 power bank a d dp Ha) by (done || lia).
      destruct dp as [n cs]. cbn [node_at on_info]. inversion Hsh; subst. simpl.
      by rewrite !decide_False by lia.
    + intros Hinv. eapply bank_inv_upd; [done|done|].
      assert (bank_inv spec pr dp) as Hdp by (apply (bank_inv_at a power d); auto; lia).
      destruct Hdp as [n cs Hb1 Hp1 Hc1]. simpl in Hlp. constructor; simpl; [|unfold power_state; set_solver|done].
      intros Hbp. apply (f_equal (level_int spec)) in Hbp. rewrite Hlp in Hbp. unfold power_idx, bank_idx in Hpb. lia.
Qed.

Lemma sees_decode c d sp nb :
  rw c → sees d sp nb →
  decode spec c a d =
    w ← wake_cmd spec pr (Dram (set_state sp nb) []);
    if decide (w = cmd_MAX spec) then row_cmd spec pr (Dram nb []) c r else Some w.
Proof.
  intros Hc (Hd&dp&db&Hp&<-&Hb&<-). rewrite (decode_rw c a d dp db r) by done.
  by rewrite (wake_cmd_info dp (Dram (set_state (state (info dp)) (info db)) [])).
Qed.

Lemma sees_hit c d sp nb :
  rw c → sees d sp nb → check_row_hit spec c a d = row_hit pr (Dram nb []) r.
Proof.
  intros Hc (Hd&dp&db&Hp&<-&Hb&<-). pose proof (bp_levels spec pr) as [Hpb Hbr].
  rewrite (check_row_hit_skip spec c 0 bank a d db); [|done|lia|lia|done| |done].
  2:{ intros l Hl. apply (bp_hit_pass spec pr); [done|]. intros ->. unfold bank_idx in Hl. lia. }
  destruct (node_at_total spec 0 bank a d) as (db'&?&Hsb); [done|lia|lia|done|]. simplify_eq.
  pose proof (level_at _ _ (lvl_Bank spec) Hsb eq_refl) as Hlb.
  destruct db as [n cs]. cbn [check_row_hit info] in *. rewrite Hlb. fold bank. rewrite Hr; simpl.
  destruct (bp_hit spec pr c Hc) as (f&->&Hf). by rewrite Hf.
Qed.

Lemma sees_open c d sp nb :
  rw c → sees d sp nb → check_row_open spec c a d = row_open pr (Dram nb []).
Proof.
  intros Hc (Hd&dp&db&Hp&<-&Hb&<-). pose proof (bp_levels spec pr) as [Hpb Hbr].
  rewrite (check_row_open_skip spec c 0 bank a d db); [|done|lia|lia|done| |done].
  2:{ intros l Hl. apply (bp_open_pass spec pr); [done|]. intros ->. unfold bank_idx in Hl. lia. }
  destruct (node_at_total spec 0 bank a d) as (db'&?&Hsb); [done|lia|lia|done|]. simplify_eq.
  pose proof (level_at _ _ (lvl_Bank spec) Hsb eq_refl) as Hlb.
  destruct db as [n cs]. cbn [check_row_open info] in *. rewrite Hlb. fold bank. rewrite Hr; simpl.
  destruct (bp_open spec pr c Hc) as (f&->&Hf). by rewrite Hf.
Qed.

(** Issue what [decode] asks for until it asks for the request's own command. *)
Fixpoint prepare (fuel : nat) (c : C) (d : DRAM L C S) : option (list C * DRAM L C S) :=
  match fuel with
  | O => None
  | Datatypes.S fuel =>
    c' ← decode spec c a d;
    if decide (c' = c) then Some ([], d)
    else
      d' ← update_state spec c' a d;
      '(cs, d'') ← prepare fuel c d';
      Some (c' :: cs, d'')
  end.

Lemma prepare_S fuel c d :
  prepare (Datatypes.S fuel) c d =
    c' ← decode spec c a d;
    if decide (c' = c) then Some ([], d)
    else
      d' ← update_state spec c' a d;
      '(cs, d'') ← prepare fuel c d';
      Some (c' :: cs, d'').
Proof. done. Qed.
#[local] Arguments prepare : simpl never.

Lemma states_distinct :
  p_Opened pr ≠ p_Closed pr ∧ p_PowerUp pr ≠ p_ActPowerDown pr ∧ p_PowerUp pr ≠ p_PrePowerDown pr ∧
  p_PowerUp pr ≠ p_SelfRefresh pr ∧ p_ActPowerDown pr ≠ p_SelfRefresh pr ∧
  p_PrePowerDown pr ≠ p_SelfRefresh pr.
Proof. pose proof (bp_states spec pr) as H. rewrite !NoDup_cons, !not_elem_of_cons in H. naive_solver. Qed.

Lemma wake_cmd_up nb : wake_cmd spec pr (Dram (set_state (p_PowerUp pr) nb) []) = Some (cmd_MAX spec).
Proof. unfold wake_cmd; simpl. by rewrite decide_True. Qed.

(** With the rank awake: nothing to do, activate, or precharge and activate. *)
Lemma prepare_hit c d nb fuel :
  rw c → sees d (p_PowerUp pr) nb → state nb = p_Opened pr → is_Some (row_state nb !! r) →
  prepare (Datatypes.S fuel) c d = Some ([], d).
Proof.
  intros Hc Hs Ho Hrow. destruct states_distinct as [? _]. rewrite prepare_S.
  rewrite (sees_decode c d _ nb Hc Hs), wake_cmd_up; simpl. rewrite decide_True by done.
  unfold row_cmd; simpl. rewrite decide_False by congruence. rewrite decide_True by done.
  rewrite decide_True by done; simpl. by rewrite decide_True.
Qed.

Lemma prepare_closed c d nb fuel :
  rw c → sees d (p_PowerUp pr) nb → state nb = p_Closed pr →
  ∃ d', prepare (2 + fuel) c d = Some ([p_ACT pr], d') ∧ sees d' (p_PowerUp pr) (open_row pr r nb).
Proof.
  intros Hc Hs Ho. pose proof (rw_distinct c Hc).
  destruct (update_bank (p_ACT pr) (open_row pr) d (p_PowerUp pr) nb) as (d'&Hu&Hs'&_);
    [by left|apply (bp_act spec pr)|done|].
  exists d'. split; [|done]. change (2 + fuel)%nat with (Datatypes.S (Datatypes.S fuel)). rewrite prepare_S.
  rewrite (sees_decode c d _ nb Hc Hs), wake_cmd_up; simpl. rewrite decide_True by done.
  unfold row_cmd at 1; simpl. rewrite (decide_True (P := state nb = _)) by done; simpl.
  rewrite decide_False by naive_solver. rewrite Hu; simpl.
  rewrite (prepare_hit c d' (open_row pr r nb)); auto.
  simpl. rewrite lookup_insert_eq. eauto.
Qed.

Lemma prepare_up c d nb fuel :
  rw c → sees d (p_PowerUp pr) nb → bank_state pr (state nb) →
  ∃ d', prepare (3 + fuel) c d = Some (open_seq spec pr r nb, d') ∧ sees d' (p_PowerUp pr) (opened pr r nb).
Proof.
  intros Hc Hs Hst. pose proof (rw_distinct c Hc). destruct states_distinct as [? _].
  unfold open_seq, opened. case_decide as E; [apply (prepare_closed _ _ _ (Datatypes.S fuel)); auto|].
  destruct Hst as [Ho|]; [|done]. case_decide as E'; [by exists d; split; [apply (prepare_hit c d nb)|]|].
  destruct (update_bank (cmd_PRE spec) (λ _, close_row pr) d (p_PowerUp pr) nb) as (d'&Hu&Hs'&_);
    [by right|apply (bp_pre spec pr)|done|].
  destruct (prepare_closed c d' (close_row pr nb) fuel) as (d''&Hp&Hs''); [done..|].
  exists d''. split; [|done]. change (3 + fuel)%nat with (Datatypes.S (2 + fuel)). rewrite prepare_S.
  rewrite (sees_decode c d _ nb Hc Hs), wake_cmd_up; simpl. rewrite decide_True by done.
  unfold row_cmd at 1; simpl. rewrite decide_False by done. rewrite decide_True by done. rewrite decide_False by done; simpl.
  rewrite decide_False by naive_solver. rewrite Hu; simpl. simpl in Hp. by rewrite Hp.
Qed.

Lemma wake_cases sp nb :
  power_state pr sp →
  (sp = p_PowerUp pr ∧ wake_cmd spec pr (Dram (set_state sp nb) []) = Some (cmd_MAX spec)) ∨
  ∃ w, wake_cmd spec pr (Dram (set_state sp nb) []) = Some w ∧ (w = p_PDX pr ∨ w = p_SRX pr) ∧
       w ≠ cmd_MAX spec ∧ wake_seq pr sp = [w].
Proof.
  unfold power_state. rewrite !elem_of_cons, elem_of_nil. intros Hsp.
  pose proof states_distinct as (_&?&?&?&?&?). pose proof cmds_distinct as (_&_&?&?&_).
  destruct Hsp as [->|[->|[->|[->|[]]]]]; [left; by rewrite wake_cmd_up|right..];
    unfold wake_cmd, wake_seq; simpl; rewrite !(decide_False (P := _ = p_PowerUp pr)) by done.
  - exists (p_PDX pr). rewrite (decide_True (P := _ ∨ _)) by auto. rewrite decide_False by done. auto.
  - exists (p_PDX pr). rewrite (decide_True (P := _ ∨ _)) by auto. rewrite decide_False by done. auto.
  - exists (p_SRX pr). rewrite decide_False by (intros [?|?]; congruence). rewrite !decide_True by done. auto.
Qed.

Lemma prepare_any c d sp nb :
  rw c → sees d sp nb → power_state pr sp → bank_state pr (state nb) →
  ∃ d', prepare 4 c d = Some (wake_seq pr sp ++ open_seq spec pr r nb, d') ∧
        sees d' (p_PowerUp pr) (opened pr r nb).
Proof.
  intros Hc Hs Hsp Hst.
  destruct (wake_cases sp nb Hsp) as [[-> _]|(w&Hw&Hw'&Hwm&->)].
  { unfold wake_seq. rewrite decide_True by done. by apply prepare_up. }
  assert (w ≠ c) as Hwc.
  { pose proof (rw_distinct c Hc). destruct_and!. destruct Hw' as [->| ->]; congruence. }
  destruct (update_wake w d sp nb) as (d'&Hu&Hs'&_); [done..|].
  destruct (prepare_up c d' nb 0) as (d''&Hp&Hs''); [done..|].
  exists d''. split; [|done]. change 4%nat with (Datatypes.S 3). rewrite prepare_S.
  rewrite (sees_decode c d _ nb Hc Hs), Hw; simpl. rewrite decide_False by done; simpl.
  rewrite decide_False by done. rewrite Hu; simpl. simpl in Hp. by rewrite Hp.
Qed.

Lemma one_row_opened nb :
  one_row pr nb → state (opened pr r nb) = p_Opened pr ∧ row_state (opened pr r nb) = {[ r := p_Opened pr ]}.
Proof.
  destruct states_distinct as [? _]. unfold opened. intros [[E Er]|[E [r' Er]]]; rewrite E.
  - rewrite decide_True by done. simpl. by rewrite Er, insert_empty.
  - rewrite decide_False by done. rewrite Er. destruct (decide (r = r')) as [<-|Hne].
    + rewrite decide_True by (rewrite lookup_singleton_eq; eauto). by rewrite E, Er.
    + rewrite decide_False by (rewrite lookup_singleton_ne by done; by intros []). done.
Qed.

End View.

(** A powered-up rank with the row open. *)
Lemma decode_opened c r nb :
  rw c → state nb = p_Opened pr → row_state nb = {[ r := p_Opened pr ]} →
  (w ← wake_cmd spec pr (Dram (set_state (p_PowerUp pr) nb) []);
   if decide (w = cmd_MAX spec) then row_cmd spec pr (Dram nb []) c r else Some w) = Some c.
Proof.
  intros Hc Ho Hrow. destruct states_distinct as [? _]. rewrite wake_cmd_up; simpl.
  rewrite decide_True by done. unfold row_cmd; simpl. rewrite Ho, Hrow.
  rewrite decide_False by done. rewrite decide_True by done.
  by rewrite decide_True by (rewrite lookup_singleton_eq; eauto).
Qed.

(** The three states of the row buffer. *)
Lemma row_status c r nb :
  rw c → bank_state pr (state nb) →
  ∃ hit open, row_hit pr (Dram nb []) r = Some hit ∧ row_open pr (Dram nb []) = Some open ∧
    (hit = true ↔ row_cmd spec pr (Dram nb []) c r = Some c) ∧
    (open = true ∧ hit = false ↔ row_cmd spec pr (Dram nb []) c r = Some (cmd_PRE spec)) ∧
    (open = false ↔ row_cmd spec pr (Dram nb []) c r = Some (p_ACT pr)).
Proof.
  intros Hc Hst. destruct states_distinct as [Hoc _]. pose proof (rw_distinct c Hc) as (Ha&Hp&_).
  assert (p_ACT pr ≠ cmd_PRE spec) as Hap.
  { pose proof (bp_cmds spec pr) as H. rewrite !NoDup_cons, !not_elem_of_cons in H. naive_solver. }
  unfold row_hit, row_open, row_cmd; simpl. destruct Hst as [E|E]; rewrite E.
  - rewrite !(decide_False (P := p_Opened pr = p_Closed pr)), !(decide_True (P := p_Opened pr = _)) by done.
    case_decide; eexists _, _; split_and!; try done; split; naive_solver.
  - rewrite !(decide_True (P := p_Closed pr = _)) by done.
    eexists _, _; split_and!; try done; split; naive_solver.
Qed.

(** *** Refreshes *)
Lemma decode_ref a d dp :
  shaped spec 0 d → path_ok spec power a → node_at spec a power d = Some dp →
  decode spec (p_REF pr) a d = Some (if all_closed spec pr dp then p_REF pr else p_PREA pr).
Proof.
  intros Hd Ha Hp. pose proof (bp_levels spec pr) as [Hpb Hbr]. pose proof (row_lt (spec:=spec)).
  rewrite (decode_skip spec (p_REF pr) 0 power a d dp); [|done|lia|lia|done| |done].
  2:{ intros l Hl. apply (bp_ref_pass spec pr). intros ->. unfold power_idx in Hl. lia. }
  destruct (node_at_total spec 0 power a d) as (dp'&?&Hsp); [done|lia|lia|done|]. simplify_eq.
  pose proof (level_at _ _ (p_power pr) Hsp eq_refl) as Hlp.
  destruct (lookup_lt_is_Some_2 a (power + 1)) as [x Hx]; [destruct Ha; lia|].
  destruct (bp_ref spec pr) as (f&Hpre&Hf). pose proof cmds_distinct. destruct_and!.
  destruct dp as [n cs]. cbn [decode info] in *. rewrite Hlp. fold power. rewrite Hx; simpl.
  rewrite Hpre, Hf by done; simpl. rewrite bool_decide_true; [done|]. by case_match.
Qed.

Lemma close_all_closed k d : shaped spec k d → all_closed spec pr (close_all spec pr d) = true.
Proof.
  induction 1 as [k n cs Hl Hmax Hlen Hid Hch IH]. cbn [close_all].
  case_decide as E; simpl; [by rewrite (decide_True (P := level n = _)), bool_decide_true|].
  rewrite decide_False by done. apply forallb_forall. intros c Hc.
  apply in_map_iff in Hc as (c'&<-&Hc'). apply list_elem_of_In, list_elem_of_lookup in Hc' as [j Hj]. eauto.
Qed.

Lemma close_all_inv d : (power < bank)%nat → bank_inv spec pr d → bank_inv spec pr (close_all spec pr d).
Proof.
  intros Hpb. induction 1 as [n cs Hb Hp Hc IH]. cbn [close_all]. case_decide as E.
  - constructor; [left; done| |done]. simpl. rewrite E. intros Hbp.
    apply (f_equal (level_int spec)) in Hbp. unfold power_idx, bank_idx in Hpb. lia.
  - constructor; auto. intros j c. rewrite list_lookup_fmap. destruct (cs !! j) eqn:?; intros; simplify_eq/=. eauto.
Qed.

Lemma update_prea a d dp :
  shaped spec 0 d → path_ok spec power a → node_at spec a power d = Some dp →
  ∃ d', update_state spec (p_PREA pr) a d = Some d' ∧ shaped spec 0 d' ∧
    upd_at spec a power (λ _, Some (close_all spec pr dp)) d = Some d' ∧
    node_at spec a power d' = Some (close_all spec pr dp) ∧ (bank_inv spec pr d → bank_inv spec pr d').
Proof.
  intros Hd Ha Hp. pose proof (bp_levels spec pr) as [Hpb Hbr]. pose proof (row_lt (spec:=spec)).
  destruct (node_at_total spec 0 power a d) as (dp'&?&Hsh); [done|lia|lia|done|]. simplify_eq.
  pose proof (level_at _ _ (p_power pr) Hsh eq_refl) as Hlp.
  destruct (bp_prea spec pr) as [(f&Hl&Hf) Hno].
  assert (scope spec (p_PREA pr) = p_power pr) as Hsc by (apply (bp_scope_power spec pr); set_solver).
  destruct (lookup_lt_is_Some_2 a (power + 1)) as [x Hx]; [destruct Ha; lia|].
  destruct (update_state_at spec (p_PREA pr) power f x a d dp (close_all spec pr dp))
    as (d'&Hu&Hu'&Hsk&Hnk&_); auto; try lia.
  - by rewrite Hsc.
  - intros l Hlt. apply Hno. intros ->. unfold power_idx in Hlt. lia.
  - by rewrite Hlp.
  - left. rewrite Hsc, <-Hlp. destruct dp as [n cs]; simpl. by case_decide.
  - exists d'. split_and!; [done|by eapply shaped_skel|done|done|]. intros Hinv.
    eapply bank_inv_upd; [done|done|]. apply close_all_inv; [done|]. apply (bank_inv_at a power d); auto; lia.
Qed.

(** A command without transitions. *)
Lemma update_stay c k a d :
  c ∈ [p_RD pr; p_WR pr; p_REF pr] → shaped spec 0 d → path_ok spec k a →
  (k = power ∧ c = p_REF pr) ∨ k = bank ∧ rw c →
  update_state spec c a d = Some d.
Proof.
  intros Hc Hd Ha Hk. pose proof (bp_levels spec pr) as [Hpb Hbr]. pose proof (row_lt (spec:=spec)).
  assert (∀ l, inert spec l c) as Hno by (intros; by apply (bp_stay spec pr)).
  assert (k < level_int spec (lvl_Row spec))%nat by (destruct Hk as [[-> _]|[-> _]]; lia).
  destruct (node_at_total spec 0 k a d) as (dk&Hn&Hsk); [done|lia|done|done|].
  destruct (lookup_lt_is_Some_2 a (k + 1)) as [x Hx]; [destruct Ha; lia|].
  unfold update_state.
  replace (level_MAX spec) with (k - 0 + Datatypes.S (level_MAX spec - k - 1))%nat by lia.
  rewrite update_state_skip; [|done|lia|done|done| |done].
  2:{ destruct Hk as [[-> ->]|[-> Hc']]; [|apply (bp_scope_bank spec pr); destruct Hc' as [->| ->]; set_solver].
      rewrite (bp_scope_power spec pr (p_REF pr)) by set_solver. done. }
  destruct (upd_at_node spec (update_state_loop spec (Datatypes.S (level_MAX spec - k - 1)) c a) 0 k a d dk dk)
    as (d'&Hu&Hu'&Hs'&Hnk&Hup); [done|lia|done|done|done| |done|].
  - cbn [update_state_loop]. assert (lvl spec dk = k) as -> by (by inversion Hsk). rewrite Hx; cbn [mbind option_bind].
    rewrite inert_run by done; simpl. destruct dk as [n cs].
    destruct Hk as [[-> ->]|[-> _]].
    + rewrite bool_decide_true; [done|]. rewrite (bp_scope_power spec pr) by set_solver.
      by apply (level_at _ _ (p_power pr) Hsk).
    + pose proof (bank_leaf _ Hsk) as Hcs. simpl in Hcs. by rewrite (bool_decide_true (cs = [])), orb_true_r.
  - rewrite (upd_at_id spec a 0 k d dk) in Hu' by (done || lia). congruence.
Qed.

(** *** Reachable devices *)

(** The requests a controller sends to a channel: a read or a write with every
    coordinate down to the bank, a refresh of a power level. *)
Definition request_ok (c : C) (a : list Z) : Prop :=
  (rw c ∧ path_ok spec bank a) ∨ (c = p_REF pr ∧ path_ok spec power a).

Lemma sees_path a d :
  path_ok spec bank a → shaped spec 0 d → bank_inv spec pr d →
  ∃ r sp nb, a !! (bank + 1)%nat = Some r ∧ sees a d sp nb ∧ power_state pr sp ∧ one_row pr nb ∧
    level nb = lvl_Bank spec.
Proof.
  intros Ha Hd Hinv. pose proof (bp_levels spec pr) as [Hpb Hbr]. pose proof (row_lt (spec:=spec)).
  assert (path_ok spec power a) as Hpa by (eapply path_ok_le; [exact Ha|lia]).
  destruct (lookup_lt_is_Some_2 a (bank + 1)) as [r Hr]; [destruct Ha; lia|].
  destruct (node_at_total spec 0 power a d) as (dp&Hp&Hsp); [done|lia|lia|done|].
  destruct (node_at_total spec 0 bank a d) as (db&Hb&Hsb); [done|lia|lia|done|].
  pose proof (level_at _ _ (p_power pr) Hsp eq_refl). pose proof (level_at _ _ (lvl_Bank spec) Hsb eq_refl).
  assert (bank_inv spec pr dp) as Hip by (apply (bank_inv_at a power d); auto; lia).
  assert (bank_inv spec pr db) as Hib by (apply (bank_inv_at a bank d); auto; lia).
  exists r, (state (info dp)), (info db). split_and!; [done|by split; [|exists dp, db]|..]; [inversion Hip|inversion Hib|done];
    subst; auto.
Qed.

Lemma one_row_state nb : one_row pr nb → bank_state pr (state nb).
Proof. unfold one_row, bank_state. naive_solver. Qed.

Lemma open_row_inv r nb : one_row pr nb → state nb = p_Closed pr → one_row pr (open_row pr r nb).
Proof.
  destruct states_distinct as [? _]. intros [[_ E]|[E _]] Hc; [|congruence].
  right. simpl. split; [done|]. exists r. by rewrite E, insert_empty.
Qed.

Lemma rw_step c a d :
  rw c → path_ok spec bank a → shaped spec 0 d → bank_inv spec pr d →
  ∃ c' d', decode spec c a d = Some c' ∧ update_state spec c' a d = Some d' ∧
    shaped spec 0 d' ∧ bank_inv spec pr d' ∧ moved spec pr a d c' d'.
Proof.
  intros Hc Ha Hd Hinv. destruct (sees_path a d) as (r&sp&nb&Hr&Hs&Hsp&Hone&_); [done..|].
  rewrite (sees_decode a r Ha Hr c d sp nb Hc Hs). destruct states_distinct as [? _].
  destruct (wake_cases sp nb Hsp) as [[-> Hw]|(w&Hw&Hw'&Hwm&_)]; rewrite Hw; simpl.
  2:{ rewrite decide_False by done. exists w.
      destruct (update_wake a r Ha Hr w d sp nb) as (d'&?&(?&_)&(dp&?&?)&?); [done..|].
      exists d'. split_and!; auto. eapply Moved_wake; eauto. eapply path_ok_le; [exact Ha|].
      pose proof (bp_levels spec pr). lia. }
  rewrite decide_True by done. unfold row_cmd; simpl. destruct (one_row_state nb Hone) as [E|E].
  - rewrite decide_False, decide_True by congruence. case_decide as E'.
    + exists c, d. split_and!; auto; [apply (update_stay c bank); [|done|done|by right]|].
      { destruct Hc as [->| ->]; set_solver. }
      destruct Hs as (_&_&db&_&_&Hb&<-). by eapply Moved_access.
    + exists (cmd_PRE spec).
      destruct (update_bank a r Ha Hr (cmd_PRE spec) (λ _, close_row pr) d (p_PowerUp pr) nb)
        as (d'&?&(?&_)&(db&Hb&<-&Hu)&Hi); [by right|apply (bp_pre spec pr)|done|].
      exists d'. split_and!; auto; [apply Hi; [done|by left|done]|by eapply Moved_pre].
  - rewrite decide_True by done. exists (p_ACT pr).
    destruct (update_bank a r Ha Hr (p_ACT pr) (open_row pr) d (p_PowerUp pr) nb)
      as (d'&?&(?&_)&(db&Hb&<-&Hu)&Hi); [by left|apply (bp_act spec pr)|done|].
    exists d'. split_and!; auto; [apply Hi; [done|by apply open_row_inv|done]|by eapply Moved_act].
Qed.

Lemma ref_step a d :
  path_ok spec power a → shaped spec 0 d → bank_inv spec pr d →
  ∃ c' d', decode spec (p_REF pr) a d = Some c' ∧ update_state spec c' a d = Some d' ∧
    shaped spec 0 d' ∧ bank_inv spec pr d' ∧ moved spec pr a d c' d'.
Proof.
  intros Ha Hd Hinv. pose proof (bp_levels spec pr) as [Hpb Hbr].
  destruct (node_at_total spec 0 power a d) as (dp&Hp&Hsp); [done|lia|lia|done|].
  rewrite (decode_ref a d dp) by done. destruct (all_closed spec pr dp) eqn:Hcl.
  - exists (p_REF pr), d. split_and!; auto; [apply (update_stay _ power); [set_solver|done|done|by left]|].
    by eapply Moved_ref.
  - exists (p_PREA pr). destruct (update_prea a d dp) as (d'&?&?&?&_&?); [done..|].
    exists d'. split_and!; auto. by eapply Moved_prea.
Qed.

Lemma pre_step a d :
  path_ok spec bank a → shaped spec 0 d → bank_inv spec pr d →
  ∃ d', update_state spec (cmd_PRE spec) a d = Some d' ∧ shaped spec 0 d' ∧ bank_inv spec pr d'.
Proof.
  intros Ha Hd Hinv. destruct (sees_path a d) as (r&sp&nb&Hr&Hs&Hsp&Hone&_); [done..|].
  destruct (update_bank a r Ha Hr (cmd_PRE spec) (λ _, close_row pr) d sp nb)
    as (d'&?&(?&_)&_&Hi); [by right|apply (bp_pre spec pr)|done|].
  exists d'. split_and!; auto. apply Hi; [done|by left|done].
Qed.

Lemma request_step c a d :
  request_ok c a → shaped spec 0 d → bank_inv spec pr d →
  ∃ c' d', decode spec c a d = Some c' ∧ update_state spec c' a d = Some d' ∧
    shaped spec 0 d' ∧ bank_inv spec pr d' ∧ moved spec pr a d c' d'.
Proof. intros [[? ?]|[-> ?]]; [by apply rw_step|by apply ref_step]. Qed.

End Protocol.
