(* ===== verification/Device.v ===== *)
(** * Reachable devices

    [DRAM<T>::update] is [update_state] followed by [update_timing]; this file
    puts the timing invariant ([DramTiming]) and the protocol invariant
    ([BankProtocol]) together for a channel on which a controller issues the
    commands [decode] asks for. *)

From S2P Require Import Prelude Request Dram DramTiming BankProtocol.

Section Device.
Context {L C S : Type} `{!EqDecision L, !EqDecision C, !EqDecision S}.
Variables (spec : Spec L C S) (pr : Proto L C S).
Context `{BP : !BankProtocol spec pr}.

(** A channel as built, then any sequence of commands: each the one [decode]
    asks for on some request, or a precharge of some bank.  The list is the
    history of the commands, the most recent first. *)
Inductive reachable (l : L) (i : Z) : list (event (C := C)) → DRAM L C S → Prop :=
| Reach_new d : new_channel spec l i = Some d → reachable l i [] d
| Reach_request h c a c' clk d d' :
    reachable l i h d → request_ok spec pr c a → 0 ≤ clk →
    decode spec c a d = Some c' → update spec c' a clk d = Some d' →
    reachable l i ((c', a, clk) :: h) d'
| Reach_pre h a clk d d' :
    reachable l i h d → path_ok spec (bank_idx spec) a → 0 ≤ clk →
    update spec (cmd_PRE spec) a clk d = Some d' →
    reachable l i ((cmd_PRE spec, a, clk) :: h) d'.

(** ** [update_timing] keeps the states *)

Lemma same_node_refl n : same_node (L:=L) (C:=C) (S:=S) n n.
Proof. done. Qed.

Lemma same_node_trans (n1 n2 n3 : dram_info L C S) : same_node n1 n2 → same_node n2 n3 → same_node n1 n3.
Proof. unfold same_node. intuition congruence. Qed.

Lemma foldM_same {B} (f : dram_info L C S → B → option (dram_info L C S)) ts n n' :
  (∀ n t n', f n t = Some n' → same_node n n') → foldM f n ts = Some n' → same_node n n'.
Proof.
  intros Hf. revert n. induction ts as [|t ts IH]; intros n H; [by simplify_eq/=|].
  simpl in H. run_opt. eapply same_node_trans; [by eapply Hf|by apply IH].
Qed.

Lemma sibling_entry_same clk n (t : TimingEntry C) n' :
  sibling_entry clk n t = Some n' → same_node (L:=L) (S:=S) n n'.
Proof. unfold sibling_entry. intros H. repeat case_match; simplify_eq; done. Qed.

Lemma target_entry_same cmd clk n (t : TimingEntry C) n' :
  target_entry spec cmd clk n t = Some n' → same_node n n'.
Proof.
  unfold target_entry. intros H. case_match; [by simplify_eq|]. run_opt.
  repeat case_match; simplify_eq; done.
Qed.

Lemma bank_inv_node n n' cs :
  same_node n n' → bank_inv spec pr (Dram n cs) → bank_inv spec pr (Dram n' cs).
Proof.
  intros (Hl&_&Hs&Hr&_) H. inversion H as [? ? Hb Hp Hc]; subst.
  constructor; unfold one_row; rewrite ?Hl, ?Hs, ?Hr; auto.
Qed.

Lemma update_timing_bank_inv cmd a clk d d' :
  update_timing spec cmd a clk d = Some d' → bank_inv spec pr d → bank_inv spec pr d'.
Proof.
  intros Hu Hd. revert d' Hu. induction Hd as [n cs Hb Hp Hc IH]; intros d' Hu.
  assert (bank_inv spec pr (Dram n cs)) as Hn by (by constructor).
  cbn [update_timing] in Hu. run_opt. case_match; run_opt.
  - eapply bank_inv_node; [|done]. eapply foldM_same; [|done]. apply sibling_entry_same.
  - match goal with H : foldM _ _ _ = Some ?n' |- _ => rename H into Hf; rename n' into n1 end.
    match goal with H : mapM _ _ = Some _ |- _ => apply mapM_Some_1 in H; rename H into Hm end.
    assert (same_node n n1) as Hs.
    { eapply same_node_trans; [|eapply foldM_same; [apply target_entry_same|done]].
      unfold push_history. by case_match. }
    eapply bank_inv_node in Hn; [|exact Hs]. inversion Hn; subst. constructor; auto.
    intros j c Hj. destruct (Forall2_lookup_r _ _ _ _ _ Hm Hj) as (c0&Hc0&Hu). eauto.
Qed.

(** ** [cur_clk] plays no part *)
Lemma bank_inv_clk clk d : bank_inv spec pr d → bank_inv spec pr (on_info (set_cur_clk clk) d).
Proof. intros [n cs Hb Hp Hc]. by constructor. Qed.

Lemma shaped_clk clk k d : shaped spec k d → shaped spec k (on_info (set_cur_clk clk) d).
Proof. intros [? n cs Hl Hm Hlen Hid Hch]. by constructor. Qed.

Lemma node_at_clk clk a k d :
  node_at spec a k (on_info (set_cur_clk clk) d) =
  if decide (level_int spec (level (info d)) = k) then Some (on_info (set_cur_clk clk) d) else node_at spec a k d.
Proof. destruct d as [n cs]. simpl. by case_decide. Qed.

Lemma sees_clk clk a d sp nb :
  (0 < bank_idx spec)%nat → sees spec pr a d sp nb → sees spec pr a (on_info (set_cur_clk clk) d) sp nb.
Proof.
  intros Hb0 (Hd&dp&db&Hp&Hsp&Hb&Hnb). split; [by apply shaped_clk|].
  assert (level_int spec (level (info d)) = 0%nat) as E by (by inversion Hd).
  exists (if decide (0%nat = power_idx spec pr) then on_info (set_cur_clk clk) d else dp), db.
  rewrite !node_at_clk, E. rewrite (decide_False (P := 0%nat = bank_idx spec)) by lia.
  case_decide as Hz; [|done]. rewrite <-Hz in Hp. destruct d as [n cs]. simpl in Hp, E.
  rewrite decide_True in Hp by done. by simplify_eq.
Qed.

Lemma decode_clk c a d clk :
  request_ok spec pr c a → shaped spec 0 d → bank_inv spec pr d →
  decode spec c a (on_info (set_cur_clk clk) d) = decode spec c a d.
Proof.
  intros [[Hc Ha]|[-> Ha]] Hd Hi; pose proof (bp_levels spec pr) as [Hpb Hbr].
  - destruct (sees_path spec pr a d) as (r&sp&nb&Hr&Hs&_); [done..|].
    rewrite (sees_decode spec pr a r Ha Hr c d sp nb Hc Hs).
    apply (sees_decode spec pr a r Ha Hr c _ sp nb Hc), sees_clk; [lia|done].
  - destruct (node_at_total spec 0 (power_idx spec pr) a d) as (dp&Hp&Hsp); [done|lia|lia|done|].
    rewrite (decode_ref spec pr a d dp) by done.
    destruct (decide (level_int spec (level (info d)) = power_idx spec pr)) as [E|E].
    + rewrite (decode_ref spec pr a _ (on_info (set_cur_clk clk) d));
        [|by apply shaped_clk|done|by rewrite node_at_clk, decide_True].
      destruct d as [n cs]. simpl in Hp, E. rewrite decide_True in Hp by done. simplify_eq. simpl.
      by case_decide.
    + rewrite (decode_ref spec pr a _ dp); [done|by apply shaped_clk|done|].
      by rewrite node_at_clk, decide_False.
Qed.

(** ** The invariant of reachable devices *)
Definition device_ok (i : Z) (h : list (event (C := C))) (d : DRAM L C S) : Prop :=
  tree_inv spec h [] i d ∧ bank_inv spec pr d ∧ Forall (event_ok spec) h.

Lemma device_shaped i h d : device_ok i h d → shaped spec 0 d.
Proof. intros (Ht&_). by apply (tree_inv_shaped spec _ _ _ _ Ht). Qed.

(** A transition that keeps the protocol invariant makes an update that keeps
    both. *)
Lemma update_ok i h c a clk d d1 :
  device_ok i h d → event_ok spec (c, a, clk) →
  update_state spec c a (on_info (set_cur_clk clk) d) = Some d1 → bank_inv spec pr d1 →
  ∃ d', update spec c a clk d = Some d' ∧ device_ok i ((c, a, clk) :: h) d'.
Proof.
  intros (Ht&Hb&Hh) He Hs Hb1. unfold update. rewrite Hs; simpl.
  assert (tree_inv spec h [] i d1) as Ht1.
  { eapply tree_inv_skel; [|exact Ht]. rewrite (update_state_skel spec _ _ _ _ _ Hs). by destruct d. }
  destruct (update_timing_inv spec h [] i d1 a clk c) as (d'&Hd'&Ht'); [done..|].
  exists d'. split; [done|]. split_and!; [done|by eapply update_timing_bank_inv|by constructor].
Qed.

Lemma request_update i h c a clk d :
  device_ok i h d → request_ok spec pr c a → 0 ≤ clk →
  ∃ c' d1 d', decode spec c a d = Some c' ∧ update spec c' a clk d = Some d' ∧
    device_ok i ((c', a, clk) :: h) d' ∧
    moved spec pr a (on_info (set_cur_clk clk) d) c' d1 ∧ update_timing spec c' a clk d1 = Some d' ∧
    skel spec d1 = skel spec d ∧ shaped spec 0 d1.
Proof.
  intros Hd Hq Hclk. pose proof (device_shaped i h d Hd) as Hsh. destruct (id Hd) as (Ht&Hb&Hh).
  destruct (request_step spec pr c a (on_info (set_cur_clk clk) d)) as (c'&d1&Hdec&Hs&Hs1&Hb1&Hm);
    [done|by apply shaped_clk|by apply bank_inv_clk|].
  rewrite decode_clk in Hdec by done.
  destruct (update_ok i h c' a clk d d1) as (d'&Hu&?); [done| |done|done|].
  { split; [|done]. destruct Hq as [[_ [? _]]|[_ [? _]]]; done. }
  exists c', d1, d'. split_and!; auto.
  - unfold update in Hu. by rewrite Hs in Hu.
  - rewrite (update_state_skel spec _ _ _ _ _ Hs). by destruct d.
Qed.

Lemma pre_update i h a clk d :
  device_ok i h d → path_ok spec (bank_idx spec) a → 0 ≤ clk →
  ∃ d', update spec (cmd_PRE spec) a clk d = Some d' ∧ device_ok i ((cmd_PRE spec, a, clk) :: h) d'.
Proof.
  intros Hd Ha Hclk. pose proof (device_shaped i h d Hd) as Hsh. destruct (id Hd) as (Ht&Hb&Hh).
  destruct (pre_step spec pr a (on_info (set_cur_clk clk) d)) as (d1&Hs&_&Hb1);
    [done|by apply shaped_clk|by apply bank_inv_clk|].
  eapply update_ok; eauto. split; [apply Ha|done].
Qed.

Lemma reachable_ok l i h d :
  level_cast spec 0 = Some l → reachable l i h d → device_ok i h d.
Proof.
  intros Hl. induction 1 as [d Hn|h c a c' clk d d' _ IH Hq Hclk Hdec Hup|h a clk d d' _ IH Ha Hclk Hup].
  - destruct (new_channel_inv spec l i Hl) as (d0&?&Ht). simplify_eq.
    split_and!; [done|by eapply new_dram_bank_inv|done].
  - destruct (request_update i h c a clk d) as (?&?&?&?&?&?&_); [done..|]. by simplify_eq.
  - destruct (pre_update i h a clk d) as (?&?&?); [done..|]. by simplify_eq.
Qed.

End Device.
