(* ===== verification/Standard.v ===== *)
(** * Shared parts of the DRAM standards

    The standards ([DDR3.cpp], [HMC.cpp], ...) fill the same tables.  Here are
    the parts their files share: the timing table built by [push_back] calls
    and a check of it, the loops over the banks of a rank (with and without
    bank groups), and the tactics that prove a standard's instances of
    [TimingOK], [LambdaFrame] and [BankProtocol]. *)

From S2P Require Import Prelude Request Dram DramTiming BankProtocol.

(** ** Timing tables *)
Section Tables.
Context {L C : Type} `{!EqDecision L, !EqDecision C}.

(** [timing[int(l)][int(c)]]: the entries pushed to that vector, in order. *)
Definition entries_at (tbl : list (L * C * TimingEntry C)) (l : L) (c : C) : list (TimingEntry C) :=
  omap (λ '(l', c', t), if decide (l' = l ∧ c' = c) then Some t else None) tbl.

Lemma elem_of_entries_at tbl l c t : t ∈ entries_at tbl l c → (l, c, t) ∈ tbl.
Proof.
  unfold entries_at. rewrite list_elem_of_omap. intros ([[l' c'] t']&Hin&Ht).
  case_decide; naive_solver.
Qed.

(** What [update_timing] needs of a table. *)
Definition table_check (refreshing opening : C → bool) (tbl : list (L * C * TimingEntry C)) : bool :=
  forallb (λ '(_, c, t),
    (1 <=? t_dist t) && implb (t_sibling t) (t_dist t =? 1) &&
    implb (negb (t_sibling t) && refreshing c && opening (t_cmd t)) (t_dist t =? 1)) tbl.

Lemma table_check_elem refreshing opening tbl l c t :
  table_check refreshing opening tbl = true → t ∈ entries_at tbl l c →
  1 ≤ t_dist t ∧ (t_sibling t = true → t_dist t = 1) ∧
  (t_sibling t = false → refreshing c = true → opening (t_cmd t) = true → t_dist t = 1).
Proof.
  intros Hc Ht%elem_of_entries_at. unfold table_check in Hc. rewrite forallb_forall in Hc.
  apply list_elem_of_In in Ht. specialize (Hc _ Ht). simpl in Hc.
  apply andb_prop in Hc as [[H1 H2]%andb_prop H3]. split_and!; [lia| |].
  - intros E. rewrite E in H2. simpl in H2. lia.
  - intros E Er Eo. rewrite E, Er, Eo in H3. simpl in H3. lia.
Qed.

(** A vector of counts, one per level. *)
Class CountOK (n : nat) (count : list Z) : Prop := {
  count_ok_len : length count = n;
  count_ok_nonneg : Forall (λ c, 0 ≤ c) count
}.

(** [org_entry.count[i] = x] *)
Lemma CountOK_insert n count i x : CountOK n count → 0 ≤ x → CountOK n (<[i:=x]> count).
Proof.
  intros [Hl Hf] Hx. split; [by rewrite length_insert|]. apply Forall_lookup. intros j y Hj.
  destruct (decide (i = j)) as [->|Hne].
  - pose proof (lookup_lt_Some _ _ _ Hj) as Hlt. rewrite length_insert in Hlt.
    rewrite list_lookup_insert_eq in Hj by done. by simplify_eq.
  - rewrite list_lookup_insert_ne in Hj by done. rewrite Forall_lookup in Hf. eauto.
Qed.

Lemma TimingOK_table {S} (spec : Spec L C S) tbl :
  (∀ l c, timing spec l c = entries_at tbl l c) →
  table_check (is_refreshing spec) (is_opening spec) tbl = true →
  CountOK (level_MAX spec) (count spec) →
  (0 < level_int spec (lvl_Row spec) < level_MAX spec)%nat →
  (∀ k, (k < level_MAX spec)%nat → ∃ l, level_cast spec k = Some l) →
  (∀ k l, level_cast spec k = Some l → level_int spec l = k) →
  (∀ l l', level_int spec l = level_int spec l' → l = l') →
  TimingOK spec.
Proof.
  intros Ht Hc [? ?]. split; auto; intros l c t; rewrite Ht; intros Hin;
    destruct (table_check_elem _ _ _ _ _ _ Hc Hin) as (?&?&?); auto.
Qed.

(** A [static map<string, T>] read with [operator[]]: a missing key yields the
    enumeration's first value. *)
Fixpoint map_at {A} (first : A) (m : list (string * A)) (k : string) : A :=
  match m with
  | [] => first
  | (k', v) :: m => if decide (k' = k) then v else map_at first m k
  end.

End Tables.

(** [TABLE[i][j]] *)
Definition table_at (t : list (list Z)) (i j : Z) : option Z := r ← zlookup t i; zlookup r j.

(** ** Loops over the banks *)
Section Loops.
Context {L C S : Type} `{!EqDecision L, !EqDecision C, !EqDecision S}.
Variables (spec : Spec L C S) (pr : Proto L C S).
Context `{!TimingOK spec}.

Lemma forallb_lookup {A} (f g : A → bool) l :
  (∀ j x, l !! j = Some x → f x = g x) → forallb f l = forallb g l.
Proof.
  revert f g; induction l as [|x l IH]; intros f g H; [done|]. simpl.
  rewrite (H 0%nat x eq_refl). f_equal. apply IH. intros j y Hy. by apply (H (Datatypes.S j)).
Qed.

Lemma map_lookup_ext {A B} (f g : A → B) l :
  (∀ j x, l !! j = Some x → f x = g x) → map f l = map g l.
Proof.
  revert f g; induction l as [|x l IH]; intros f g H; [done|]. simpl.
  rewrite (H 0%nat x eq_refl). f_equal. apply IH. intros j y Hy. by apply (H (Datatypes.S j)).
Qed.

Lemma bank_closed d :
  shaped spec (bank_idx spec) d → all_closed spec pr d = bool_decide (state (info d) = p_Closed pr).
Proof.
  intros Hd. destruct d as [n cs]. inversion Hd as [? ? ? Hl _ _ _ _]; subst. simpl.
  rewrite decide_True; [done|]. by apply level_int_inj.
Qed.

Lemma bank_close d :
  shaped spec (bank_idx spec) d → close_all spec pr d = on_info (close_row pr) d.
Proof.
  intros Hd. destruct d as [n cs]. inversion Hd as [? ? ? Hl _ _ _ _]; subst. simpl.
  rewrite decide_True; [done|]. by apply level_int_inj.
Qed.

(** A node whose children are banks. *)
Lemma flat_closed k d :
  shaped spec k d → (k + 1)%nat = bank_idx spec →
  all_closed spec pr d = forallb (λ b, bool_decide (state (info b) = p_Closed pr)) (children d).
Proof.
  intros Hd Hk. destruct Hd as [k n cs Hl Hmax Hlen Hid Hch]. simpl.
  rewrite decide_False by (intros E; rewrite E in Hl; unfold bank_idx in Hk; lia).
  apply forallb_lookup. intros j x Hj. apply bank_closed. rewrite <-Hk. eauto.
Qed.

Lemma flat_close k d :
  shaped spec k d → (k + 1)%nat = bank_idx spec →
  close_all spec pr d = Dram (info d) (map (on_info (close_row pr)) (children d)).
Proof.
  intros Hd Hk. destruct Hd as [k n cs Hl Hmax Hlen Hid Hch]. simpl.
  rewrite decide_False by (intros E; rewrite E in Hl; unfold bank_idx in Hk; lia).
  f_equal. apply map_lookup_ext. intros j x Hj. apply bank_close. rewrite <-Hk. eauto.
Qed.

(** A node whose children are bank groups. *)
Lemma grouped_closed k d :
  shaped spec k d → (k + 2)%nat = bank_idx spec →
  all_closed spec pr d =
    forallb (λ bg, forallb (λ b, bool_decide (state (info b) = p_Closed pr)) (children bg)) (children d).
Proof.
  intros Hd Hk. destruct Hd as [k n cs Hl Hmax Hlen Hid Hch]. simpl.
  rewrite decide_False by (intros E; rewrite E in Hl; unfold bank_idx in Hk; lia).
  apply forallb_lookup. intros j x Hj. apply (flat_closed (k + 1)); [eauto|lia].
Qed.

Lemma grouped_close k d :
  shaped spec k d → (k + 2)%nat = bank_idx spec →
  close_all spec pr d =
    Dram (info d) (map (λ bg, Dram (info bg) (map (on_info (close_row pr)) (children bg))) (children d)).
Proof.
  intros Hd Hk. destruct Hd as [k n cs Hl Hmax Hlen Hid Hch]. simpl.
  rewrite decide_False by (intros E; rewrite E in Hl; unfold bank_idx in Hk; lia).
  f_equal. apply map_lookup_ext. intros j x Hj. apply (flat_close (k + 1)); [eauto|lia].
Qed.

(** Transitions change only [state] and [row_state]. *)
Lemma skel_set_state s d : skel spec (on_info (set_state s) d) = skel spec d.
Proof. by destruct d. Qed.

Lemma skel_set_row s m d :
  skel spec (on_info (λ n, set_row_state (m n) (set_state s n)) d) = skel spec d.
Proof. by destruct d. Qed.

Lemma skel_map n f cs :
  (∀ c, skel spec (f c) = skel spec c) → skel spec (Dram n (map f cs)) = skel spec (Dram n cs).
Proof. intros H. simpl. f_equal. rewrite map_map. by apply map_ext. Qed.

Lemma skel_info_children d : skel spec (Dram (info d) (children d)) = skel spec d.
Proof. by destruct d. Qed.

End Loops.

(** ** Tactics for the instances of a standard *)

(** A transition keeps everything but [state] and [row_state]. *)
Ltac solve_frame :=
  repeat match goal with
    | H : Some _ = Some _ |- _ => injection H as <-
    | H : (if ?b then _ else _) = Some _ |- _ => destruct b
    end;
  first
    [ reflexivity
    | apply skel_set_state
    | apply skel_set_row
    | etrans; [apply skel_map; intros; first
        [ apply skel_set_row
        | etrans; [apply skel_map; intros; apply skel_set_row|apply skel_info_children] ]
      |apply skel_info_children] ].

Ltac split_elem H :=
  repeat (apply elem_of_cons in H; destruct H as [->|H]); try (by apply elem_of_nil in H).

(** The laws of [BankProtocol]: each table entry is compared with what the
    protocol says, by cases on the state of the node. *)
Ltac solve_agrees :=
  eexists; split; [reflexivity|]; intros d ?;
  cbv beta; unfold wake_cmd, row_cmd, row_hit, row_open; simpl;
  destruct (state (info d)); reflexivity.

Ltac solve_inert := intros ? ? ? Hf; simpl in Hf; simplify_eq; reflexivity.

Ltac solve_transition :=
  split; [eexists; split; [reflexivity|by intros [? ?] ?]|intros []; try done; solve_inert].

Ltac solve_protocol :=
  match goal with
  | |- (_ < _)%nat ∧ _ => by vm_compute; lia
  | |- NoDup _ => apply (bool_decide_unpack _); vm_compute; exact I
  | |- ∀ c, c = _ ∨ c = _ → agrees _ _ => intros c [->| ->]; solve_agrees
  | |- ∀ c l, c = _ ∨ c = _ → _ => intros c [] [->| ->]; done
  | |- ∃ f, prereq _ _ _ = Some f ∧ _ =>
      eexists; split; [reflexivity|]; intros d ? ? Hd; simpl;
      first [rewrite (flat_closed _ _ _ d Hd eq_refl)|rewrite (grouped_closed _ _ _ d Hd eq_refl)];
      simpl; by case_match
  | |- (∃ f, _ ∧ _) ∧ _ =>
      split; [eexists; split; [reflexivity|]; intros d ? Hd; simpl;
              first [rewrite (flat_close _ _ _ d Hd eq_refl)|rewrite (grouped_close _ _ _ d Hd eq_refl)];
              reflexivity
             |intros []; try done; solve_inert]
  | |- transition _ _ _ _ => solve_transition
  | |- ∀ c l, c ∈ _ → inert _ l c => intros c l Hc; split_elem Hc; destruct l; solve_inert
  | |- ∀ c, c ∈ _ → _ => intros c Hc; split_elem Hc; simpl; first [done|vm_compute; lia]
  | |- ∀ l, l ≠ _ → _ => intros []; done
  | |- _ => done
  end.
