(* ===== verification/SpecDDR4.v ===== *)
(** * DDR4 ([ramulator/src/DDR4.h], [ramulator/src/DDR4.cpp])

    The tables of the standard, a rank holds bank groups, which hold the banks.
    The enumerations keep the source's names ([MAX] is [Cmd_MAX] and
    [State_MAX]; the tables are not indexed by it, and their value there stands
    for nothing); an array indexed by an enumeration is a function on it.  The
    floating point members of a speed entry ([freq], [tCK]) only scale printed
    statistics and are left out. *)

From S2P Require Import Prelude Request Dram DramTiming BankProtocol Standard.

Module DDR4.

(** ** Enumerations *)

Inductive Level := Channel | Rank | BankGroup | Bank | Row | Column.
Inductive Command :=
  | ACT | PRE | PREA | RD | WR | RDA | WRA | REF | PDE | PDX | SRE | SRX | Cmd_MAX.
Inductive State :=
  | Opened | Closed | PowerUp | ActPowerDown | PrePowerDown | SelfRefresh | State_MAX.
Inductive Org :=
  | DDR4_2Gb_x4 | DDR4_2Gb_x8 | DDR4_2Gb_x16 | DDR4_4Gb_x4 | DDR4_4Gb_x8 | DDR4_4Gb_x16
  | DDR4_8Gb_x4 | DDR4_8Gb_x8 | DDR4_8Gb_x16.
Inductive Speed :=
  | DDR4_1600K | DDR4_1600L | DDR4_1866M | DDR4_1866N | DDR4_2133P | DDR4_2133R | DDR4_2400R
  | DDR4_2400U | DDR4_2400R_disable_bg.

#[global] Instance Level_eq_dec : EqDecision Level.
Proof. solve_decision. Defined.
#[global] Instance Command_eq_dec : EqDecision Command.
Proof. solve_decision. Defined.
#[global] Instance State_eq_dec : EqDecision State.
Proof. solve_decision. Defined.
#[global] Instance Org_eq_dec : EqDecision Org.
Proof. solve_decision. Defined.
#[global] Instance Speed_eq_dec : EqDecision Speed.
Proof. solve_decision. Defined.

(** [int(level)] and [Level(i)] *)
Definition level_int (l : Level) : nat :=
  match l with Channel => 0 | Rank => 1 | BankGroup => 2 | Bank => 3 | Row => 4 | Column => 5 end%nat.
Definition level_cast (i : nat) : option Level :=
  match i with
  | 0 => Some Channel | 1 => Some Rank | 2 => Some BankGroup | 3 => Some Bank | 4 => Some Row
  | 5 => Some Column
  | _ => None
  end%nat.

(** ** Command tables *)

Definition scope (cmd : Command) : Level :=
  match cmd with
  | PREA | REF | PDE | PDX | SRE | SRX => Rank
  | PRE => Bank
  | ACT => Row
  | RD | WR | RDA | WRA => Column
  | Cmd_MAX => Column
  end.

Definition is_opening (cmd : Command) : bool :=
  match cmd with ACT => true | _ => false end.
Definition is_accessing (cmd : Command) : bool :=
  match cmd with RD | WR | RDA | WRA => true | _ => false end.
Definition is_closing (cmd : Command) : bool :=
  match cmd with RDA | WRA | PRE | PREA => true | _ => false end.
Definition is_refreshing (cmd : Command) : bool :=
  match cmd with REF => true | _ => false end.

Definition start (l : Level) : State :=
  match l with Channel => State_MAX | Rank => PowerUp | BankGroup => State_MAX | Bank => Closed | Row => Closed | Column => State_MAX end.

(** The initialiser lists five commands; the entries of the remaining request
    types are value-initialised, which is the first command. *)
Definition translate (t : ReqType) : Command :=
  match t with
  | READ => RD | WRITE => WR | REFRESH => REF | POWERDOWN => PDE | SELFREFRESH => SRE
  | EXTENSION | INSTRUCTION | ReqMAX => ACT
  end.

(** ** Organisations and speeds *)

Record OrgEntry := mkOrg { size : Z; dq : Z; count : list Z }.

Definition org_table (o : Org) : OrgEntry :=
  match o with
  | DDR4_2Gb_x4 => mkOrg (Z.shiftl 2 10) 4 [0; 0; 4; 4; Z.shiftl 1 15; Z.shiftl 1 10]
  | DDR4_2Gb_x8 => mkOrg (Z.shiftl 2 10) 8 [0; 0; 4; 4; Z.shiftl 1 14; Z.shiftl 1 10]
  | DDR4_2Gb_x16 => mkOrg (Z.shiftl 2 10) 16 [0; 0; 2; 4; Z.shiftl 1 14; Z.shiftl 1 10]
  | DDR4_4Gb_x4 => mkOrg (Z.shiftl 4 10) 4 [0; 0; 4; 4; Z.shiftl 1 16; Z.shiftl 1 10]
  | DDR4_4Gb_x8 => mkOrg (Z.shiftl 4 10) 8 [0; 0; 4; 4; Z.shiftl 1 15; Z.shiftl 1 10]
  | DDR4_4Gb_x16 => mkOrg (Z.shiftl 4 10) 16 [0; 0; 2; 4; Z.shiftl 1 15; Z.shiftl 1 10]
  | DDR4_8Gb_x4 => mkOrg (Z.shiftl 8 10) 4 [0; 0; 4; 4; Z.shiftl 1 17; Z.shiftl 1 10]
  | DDR4_8Gb_x8 => mkOrg (Z.shiftl 8 10) 8 [0; 0; 4; 4; Z.shiftl 1 16; Z.shiftl 1 10]
  | DDR4_8Gb_x16 => mkOrg (Z.shiftl 8 10) 16 [0; 0; 2; 4; Z.shiftl 1 16; Z.shiftl 1 10]
  end.

Record SpeedEntry := mkSpeed {
  rate : Z; nBL : Z; nCCDS : Z; nCCDL : Z; nRTRS : Z; nCL : Z; nRCD : Z; nRP : Z; nCWL : Z;
  nRAS : Z; nRC : Z; nRTP : Z; nWTRS : Z; nWTRL : Z; nWR : Z; nRRDS : Z; nRRDL : Z; nFAW : Z;
  nRFC : Z; nREFI : Z; nPD : Z; nXP : Z; nXPDLL : Z; nCKESR : Z; nXS : Z; nXSDLL : Z
}.

(** rate nBL nCCDS nCCDL nRTRS nCL nRCD nRP nCWL nRAS nRC nRTP nWTRS nWTRL nWR nRRDS nRRDL nFAW
    nRFC nREFI nPD nXP nXPDLL nCKESR nXS nXSDLL *)
Definition speed_table (s : Speed) : SpeedEntry :=
  match s with
  | DDR4_1600K =>
    mkSpeed 1600 4 4 5 2 11 11 11 9 28 39 6 2 6 12 0 0 0 0 0 4 5 0 5 0 0
  | DDR4_1600L =>
    mkSpeed 1600 4 4 5 2 12 12 12 9 28 40 6 2 6 12 0 0 0 0 0 4 5 0 5 0 0
  | DDR4_1866M =>
    mkSpeed 1866 4 4 5 2 13 13 13 10 32 45 7 3 7 14 0 0 0 0 0 5 6 0 6 0 0
  | DDR4_1866N =>
    mkSpeed 1866 4 4 5 2 14 14 14 10 32 46 7 3 7 14 0 0 0 0 0 5 6 0 6 0 0
  | DDR4_2133P =>
    mkSpeed 2133 4 4 6 2 15 15 15 11 36 51 8 3 8 16 0 0 0 0 0 6 7 0 7 0 0
  | DDR4_2133R =>
    mkSpeed 2133 4 4 6 2 16 16 16 11 36 52 8 3 8 16 0 0 0 0 0 6 7 0 7 0 0
  | DDR4_2400R =>
    mkSpeed 2400 4 4 6 2 16 16 16 12 39 55 9 3 9 18 0 0 0 0 0 6 8 0 7 0 0
  | DDR4_2400U =>
    mkSpeed 2400 4 4 6 2 18 18 18 12 39 57 9 3 9 18 0 0 0 0 0 6 8 0 7 0 0
  | DDR4_2400R_disable_bg =>
    mkSpeed 2400 4 4 4 2 16 16 16 12 39 55 9 3 9 18 0 0 0 0 0 6 8 0 7 0 0
  end.

Definition org_map : list (string * Org) :=
  [("DDR4_2Gb_x4"%string, DDR4_2Gb_x4); ("DDR4_2Gb_x8"%string, DDR4_2Gb_x8);
   ("DDR4_2Gb_x16"%string, DDR4_2Gb_x16); ("DDR4_4Gb_x4"%string, DDR4_4Gb_x4);
   ("DDR4_4Gb_x8"%string, DDR4_4Gb_x8); ("DDR4_4Gb_x16"%string, DDR4_4Gb_x16);
   ("DDR4_8Gb_x4"%string, DDR4_8Gb_x4); ("DDR4_8Gb_x8"%string, DDR4_8Gb_x8);
   ("DDR4_8Gb_x16"%string, DDR4_8Gb_x16)].
Definition speed_map : list (string * Speed) :=
  [("DDR4_1600K"%string, DDR4_1600K); ("DDR4_1600L"%string, DDR4_1600L);
   ("DDR4_1866M"%string, DDR4_1866M); ("DDR4_1866N"%string, DDR4_1866N);
   ("DDR4_2133P"%string, DDR4_2133P); ("DDR4_2133R"%string, DDR4_2133R);
   ("DDR4_2400R"%string, DDR4_2400R); ("DDR4_2400U"%string, DDR4_2400U);
   ("DDR4_2400R_disable_bg"%string, DDR4_2400R_disable_bg)].

Definition set_nRRDS (x : Z) (s : SpeedEntry) : SpeedEntry :=
  mkSpeed (rate s) (nBL s) (nCCDS s) (nCCDL s) (nRTRS s) (nCL s) (nRCD s) (nRP s) (nCWL s) (nRAS s)
    (nRC s) (nRTP s) (nWTRS s) (nWTRL s) (nWR s) x (nRRDL s) (nFAW s) (nRFC s) (nREFI s) (nPD s)
    (nXP s) (nXPDLL s) (nCKESR s) (nXS s) (nXSDLL s).
Definition set_nRRDL (x : Z) (s : SpeedEntry) : SpeedEntry :=
  mkSpeed (rate s) (nBL s) (nCCDS s) (nCCDL s) (nRTRS s) (nCL s) (nRCD s) (nRP s) (nCWL s) (nRAS s)
    (nRC s) (nRTP s) (nWTRS s) (nWTRL s) (nWR s) (nRRDS s) x (nFAW s) (nRFC s) (nREFI s) (nPD s)
    (nXP s) (nXPDLL s) (nCKESR s) (nXS s) (nXSDLL s).
Definition set_nFAW (x : Z) (s : SpeedEntry) : SpeedEntry :=
  mkSpeed (rate s) (nBL s) (nCCDS s) (nCCDL s) (nRTRS s) (nCL s) (nRCD s) (nRP s) (nCWL s) (nRAS s)
    (nRC s) (nRTP s) (nWTRS s) (nWTRL s) (nWR s) (nRRDS s) (nRRDL s) x (nRFC s) (nREFI s)
    (nPD s) (nXP s) (nXPDLL s) (nCKESR s) (nXS s) (nXSDLL s).
Definition set_nRFC (x : Z) (s : SpeedEntry) : SpeedEntry :=
  mkSpeed (rate s) (nBL s) (nCCDS s) (nCCDL s) (nRTRS s) (nCL s) (nRCD s) (nRP s) (nCWL s) (nRAS s)
    (nRC s) (nRTP s) (nWTRS s) (nWTRL s) (nWR s) (nRRDS s) (nRRDL s) (nFAW s) x (nREFI s)
    (nPD s) (nXP s) (nXPDLL s) (nCKESR s) (nXS s) (nXSDLL s).
Definition set_nREFI (x : Z) (s : SpeedEntry) : SpeedEntry :=
  mkSpeed (rate s) (nBL s) (nCCDS s) (nCCDL s) (nRTRS s) (nCL s) (nRCD s) (nRP s) (nCWL s) (nRAS s)
    (nRC s) (nRTP s) (nWTRS s) (nWTRL s) (nWR s) (nRRDS s) (nRRDL s) (nFAW s) (nRFC s) x (nPD s)
    (nXP s) (nXPDLL s) (nCKESR s) (nXS s) (nXSDLL s).
Definition set_nXS (x : Z) (s : SpeedEntry) : SpeedEntry :=
  mkSpeed (rate s) (nBL s) (nCCDS s) (nCCDL s) (nRTRS s) (nCL s) (nRCD s) (nRP s) (nCWL s) (nRAS s)
    (nRC s) (nRTP s) (nWTRS s) (nWTRL s) (nWR s) (nRRDS s) (nRRDL s) (nFAW s) (nRFC s) (nREFI s)
    (nPD s) (nXP s) (nXPDLL s) (nCKESR s) x (nXSDLL s).

(** [RefreshMode]; the member keeps its initial value [Refresh_1X]. *)
Inductive RefreshMode := Refresh_1X | Refresh_2X | Refresh_4X.
Definition refresh_int (m : RefreshMode) : Z :=
  match m with Refresh_1X => 0 | Refresh_2X => 1 | Refresh_4X => 2 end.
Definition refresh_mode : RefreshMode := Refresh_1X.

(** [init_speed] *)
Definition init_speed (org_entry : OrgEntry) (speed_entry : SpeedEntry) : option SpeedEntry :=
  let RRDS_TABLE := [[4; 4; 4; 4];
    [5; 5; 6; 7]] in
  let RRDL_TABLE := [[5; 5; 6; 6];
    [6; 6; 7; 8]] in
  let FAW_TABLE := [[16; 16; 16; 16];
    [20; 22; 23; 26];
    [28; 28; 32; 36]] in
  let RFC_TABLE := [
    [[128; 150; 171; 193]; [208; 243; 278; 313]; [280; 327; 374; 421]];
    [[88; 103; 118; 132]; [128; 150; 171; 192]; [208; 243; 278; 312]];
    [[72; 84; 96; 108]; [88; 103; 118; 132]; [128; 150; 171; 192]]] in
  let REFI_TABLE := [6240; 7280; 8320; 9360] in
  let XS_TABLE := [[136; 159; 182; 204];
    [216; 252; 288; 324];
    [288; 336; 384; 432]] in
  speed ←
    match rate speed_entry with
    | 1600 => Some 0 | 1866 => Some 1 | 2133 => Some 2 | 2400 => Some 3
    | _ => None
    end;
  density ←
    match Z.shiftr (size org_entry) 10 with
    | 2 => Some 0 | 4 => Some 1 | 8 => Some 2
    | _ => None
    end;
  rrds ← table_at RRDS_TABLE (if dq org_entry =? 16 then 1 else 0) speed;
  rrdl ← table_at RRDL_TABLE (if dq org_entry =? 16 then 1 else 0) speed;
  faw ← table_at FAW_TABLE (if dq org_entry =? 4 then 0 else if dq org_entry =? 8 then 1 else 2) speed;
  rfcs ← zlookup RFC_TABLE (refresh_int refresh_mode);
  rfc ← table_at rfcs density speed;
  refi ← zlookup REFI_TABLE speed;
  xs ← table_at XS_TABLE density speed;
  Some (set_nXS xs (set_nREFI (Z.shiftr refi (refresh_int refresh_mode)) (set_nRFC rfc
        (set_nFAW faw (set_nRRDL rrdl (set_nRRDS rrds speed_entry)))))).

(** The members of the object the constructor sets. *)
Record DDR4 := mkDDR4 { org_entry : OrgEntry; speed_entry : SpeedEntry; read_latency : Z }.

(** [DDR4(Org, Speed)] and [DDR4(string, string)] *)
Definition new (org : Org) (speed : Speed) : option DDR4 :=
  let org_entry := org_table org in
  let speed_entry := speed_table speed in
  let read_latency := nCL speed_entry + nBL speed_entry in
  speed_entry ← init_speed org_entry speed_entry;
  Some (mkDDR4 org_entry speed_entry read_latency).
Definition new_str (org_str speed_str : string) : option DDR4 :=
  new (map_at DDR4_2Gb_x4 org_map org_str) (map_at DDR4_1600K speed_map speed_str).

(** [org_entry.count[int(l)] = x] *)
Definition set_count (l : Level) (x : Z) (o : DDR4) : DDR4 :=
  let e := org_entry o in
  mkDDR4 (mkOrg (size e) (dq e) (<[level_int l := x]> (count e))) (speed_entry o) (read_latency o).
Definition set_channel_number (channel : Z) (o : DDR4) : DDR4 := set_count Channel channel o.
Definition set_rank_number (rank : Z) (o : DDR4) : DDR4 := set_count Rank rank o.

(** ** Prerequisites, row hits and state transitions *)

Definition node : Type := DRAM Level Command State.

Definition prereq (l : Level) (c : Command) : option (node → Command → Z → option Command) :=
  match l, c with
  | Rank, RD | Rank, WR =>
    Some (λ node _ _,
      match state (info node) with
      | PowerUp => Some Cmd_MAX
      | ActPowerDown => Some PDX
      | PrePowerDown => Some PDX
      | SelfRefresh => Some SRX
      | _ => None
      end)
  | Bank, RD | Bank, WR =>
    Some (λ node cmd id,
      match state (info node) with
      | Closed => Some ACT
      | Opened => if decide (is_Some (row_state (info node) !! id)) then Some cmd else Some PRE
      | _ => None
      end)
  | Rank, REF =>
    Some (λ node _ _,
      if forallb (λ bg, forallb (λ bank, bool_decide (state (info bank) = Closed)) (children bg)) (children node)
      then Some REF else Some PREA)
  | Rank, PDE =>
    Some (λ node _ _,
      match state (info node) with
      | PowerUp => Some PDE
      | ActPowerDown => Some PDE
      | PrePowerDown => Some PDE
      | SelfRefresh => Some SRX
      | _ => None
      end)
  | Rank, SRE =>
    Some (λ node _ _,
      match state (info node) with
      | PowerUp => Some SRE
      | ActPowerDown => Some PDX
      | PrePowerDown => Some PDX
      | SelfRefresh => Some SRE
      | _ => None
      end)
  | _, _ => None
  end.

Definition rowhit (l : Level) (c : Command) : option (node → Command → Z → option bool) :=
  match l, c with
  | Bank, RD | Bank, WR =>
    Some (λ node _ id,
      match state (info node) with
      | Closed => Some false
      | Opened => if decide (is_Some (row_state (info node) !! id)) then Some true else Some false
      | _ => None
      end)
  | _, _ => None
  end.

Definition rowopen (l : Level) (c : Command) : option (node → Command → Z → option bool) :=
  match l, c with
  | Bank, RD | Bank, WR =>
    Some (λ node _ _,
      match state (info node) with Closed => Some false | Opened => Some true | _ => None end)
  | _, _ => None
  end.

(** [node->state = State::Closed; node->row_state.clear();] *)
Definition close (n : dram_info Level Command State) : dram_info Level Command State :=
  set_row_state ∅ (set_state Closed n).

Definition lambda (l : Level) (c : Command) : option (node → Z → option node) :=
  match l, c with
  | Bank, ACT =>
    Some (λ node id,
      Some (on_info (λ n, set_row_state (<[id := Opened]> (row_state n)) (set_state Opened n)) node))
  | Bank, PRE | Bank, RDA | Bank, WRA =>
    Some (λ node _, Some (on_info close node))
  | Rank, PREA =>
    Some (λ node _,
      Some (Dram (info node) (map (λ bg, Dram (info bg) (map (on_info close) (children bg))) (children node))))
  | Rank, REF | Bank, RD | Bank, WR =>
    Some (λ node _, Some node)
  | Rank, PDE =>
    Some (λ node _,
      if forallb (λ bg, forallb (λ bank, bool_decide (state (info bank) = Closed)) (children bg)) (children node)
      then Some (on_info (set_state PrePowerDown) node)
      else Some (on_info (set_state ActPowerDown) node))
  | Rank, PDX | Rank, SRX =>
    Some (λ node _, Some (on_info (set_state PowerUp) node))
  | Rank, SRE =>
    Some (λ node _, Some (on_info (set_state SelfRefresh) node))
  | _, _ => None
  end.

(** ** Timing: the [push_back] calls in source order *)

Definition init_timing (s : SpeedEntry) : list (Level * Command * TimingEntry Command) :=
  [ (Channel, RD, mkTiming RD 1 (nBL s) false);
    (Channel, RD, mkTiming RDA 1 (nBL s) false);
    (Channel, RDA, mkTiming RD 1 (nBL s) false);
    (Channel, RDA, mkTiming RDA 1 (nBL s) false);
    (Channel, WR, mkTiming WR 1 (nBL s) false);
    (Channel, WR, mkTiming WRA 1 (nBL s) false);
    (Channel, WRA, mkTiming WR 1 (nBL s) false);
    (Channel, WRA, mkTiming WRA 1 (nBL s) false);
    (Rank, RD, mkTiming RD 1 (nCCDS s) false);
    (Rank, RD, mkTiming RDA 1 (nCCDS s) false);
    (Rank, RDA, mkTiming RD 1 (nCCDS s) false);
    (Rank, RDA, mkTiming RDA 1 (nCCDS s) false);
    (Rank, WR, mkTiming WR 1 (nCCDS s) false);
    (Rank, WR, mkTiming WRA 1 (nCCDS s) false);
    (Rank, WRA, mkTiming WR 1 (nCCDS s) false);
    (Rank, WRA, mkTiming WRA 1 (nCCDS s) false);
    (Rank, RD, mkTiming WR 1 (nCL s + nCCDS s + 2 - nCWL s) false);
    (Rank, RD, mkTiming WRA 1 (nCL s + nCCDS s + 2 - nCWL s) false);
    (Rank, RDA, mkTiming WR 1 (nCL s + nCCDS s + 2 - nCWL s) false);
    (Rank, RDA, mkTiming WRA 1 (nCL s + nCCDS s + 2 - nCWL s) false);
    (Rank, WR, mkTiming RD 1 (nCWL s + nBL s + nWTRS s) false);
    (Rank, WR, mkTiming RDA 1 (nCWL s + nBL s + nWTRS s) false);
    (Rank, WRA, mkTiming RD 1 (nCWL s + nBL s + nWTRS s) false);
    (Rank, WRA, mkTiming RDA 1 (nCWL s + nBL s + nWTRS s) false);
    (Rank, RD, mkTiming RD 1 (nBL s + nRTRS s) true);
    (Rank, RD, mkTiming RDA 1 (nBL s + nRTRS s) true);
    (Rank, RDA, mkTiming RD 1 (nBL s + nRTRS s) true);
    (Rank, RDA, mkTiming RDA 1 (nBL s + nRTRS s) true);
    (Rank, RD, mkTiming WR 1 (nBL s + nRTRS s) true);
    (Rank, RD, mkTiming WRA 1 (nBL s + nRTRS s) true);
    (Rank, RDA, mkTiming WR 1 (nBL s + nRTRS s) true);
    (Rank, RDA, mkTiming WRA 1 (nBL s + nRTRS s) true);
    (Rank, RD, mkTiming WR 1 (nCL s + nBL s + nRTRS s - nCWL s) true);
    (Rank, RD, mkTiming WRA 1 (nCL s + nBL s + nRTRS s - nCWL s) true);
    (Rank, RDA, mkTiming WR 1 (nCL s + nBL s + nRTRS s - nCWL s) true);
    (Rank, RDA, mkTiming WRA 1 (nCL s + nBL s + nRTRS s - nCWL s) true);
    (Rank, WR, mkTiming RD 1 (nCWL s + nBL s + nRTRS s - nCL s) true);
    (Rank, WR, mkTiming RDA 1 (nCWL s + nBL s + nRTRS s - nCL s) true);
    (Rank, WRA, mkTiming RD 1 (nCWL s + nBL s + nRTRS s - nCL s) true);
    (Rank, WRA, mkTiming RDA 1 (nCWL s + nBL s + nRTRS s - nCL s) true);
    (Rank, RD, mkTiming PREA 1 (nRTP s) false);
    (Rank, WR, mkTiming PREA 1 (nCWL s + nBL s + nWR s) false);
    (Rank, RD, mkTiming PDE 1 (nCL s + nBL s + 1) false);
    (Rank, RDA, mkTiming PDE 1 (nCL s + nBL s + 1) false);
    (Rank, WR, mkTiming PDE 1 (nCWL s + nBL s + nWR s) false);
    (Rank, WRA, mkTiming PDE 1 (nCWL s + nBL s + nWR s + 1) false);
    (Rank, PDX, mkTiming RD 1 (nXP s) false);
    (Rank, PDX, mkTiming RDA 1 (nXP s) false);
    (Rank, PDX, mkTiming WR 1 (nXP s) false);
    (Rank, PDX, mkTiming WRA 1 (nXP s) false);
    (Rank, ACT, mkTiming ACT 1 (nRRDS s) false);
    (Rank, ACT, mkTiming ACT 4 (nFAW s) false);
    (Rank, ACT, mkTiming PREA 1 (nRAS s) false);
    (Rank, PREA, mkTiming ACT 1 (nRP s) false);
    (Rank, PRE, mkTiming REF 1 (nRP s) false);
    (Rank, PREA, mkTiming REF 1 (nRP s) false);
    (Rank, REF, mkTiming ACT 1 (nRFC s) false);
    (Rank, ACT, mkTiming PDE 1 1 false);
    (Rank, PDX, mkTiming ACT 1 (nXP s) false);
    (Rank, PDX, mkTiming PRE 1 (nXP s) false);
    (Rank, PDX, mkTiming PREA 1 (nXP s) false);
    (Rank, PRE, mkTiming SRE 1 (nRP s) false);
    (Rank, PREA, mkTiming SRE 1 (nRP s) false);
    (Rank, SRX, mkTiming ACT 1 (nXS s) false);
    (Rank, REF, mkTiming REF 1 (nRFC s) false);
    (Rank, REF, mkTiming PDE 1 1 false);
    (Rank, PDX, mkTiming REF 1 (nXP s) false);
    (Rank, SRX, mkTiming REF 1 (nXS s) false);
    (Rank, PDE, mkTiming PDX 1 (nPD s) false);
    (Rank, PDX, mkTiming PDE 1 (nXP s) false);
    (Rank, PDX, mkTiming SRE 1 (nXP s) false);
    (Rank, SRX, mkTiming PDE 1 (nXS s) false);
    (Rank, SRE, mkTiming SRX 1 (nCKESR s) false);
    (Rank, SRX, mkTiming SRE 1 (nXS s) false);
    (BankGroup, RD, mkTiming RD 1 (nCCDL s) false);
    (BankGroup, RD, mkTiming RDA 1 (nCCDL s) false);
    (BankGroup, RDA, mkTiming RD 1 (nCCDL s) false);
    (BankGroup, RDA, mkTiming RDA 1 (nCCDL s) false);
    (BankGroup, WR, mkTiming WR 1 (nCCDL s) false);
    (BankGroup, WR, mkTiming WRA 1 (nCCDL s) false);
    (BankGroup, WRA, mkTiming WR 1 (nCCDL s) false);
    (BankGroup, WRA, mkTiming WRA 1 (nCCDL s) false);
    (BankGroup, WR, mkTiming RD 1 (nCWL s + nBL s + nWTRL s) false);
    (BankGroup, WR, mkTiming RDA 1 (nCWL s + nBL s + nWTRL s) false);
    (BankGroup, WRA, mkTiming RD 1 (nCWL s + nBL s + nWTRL s) false);
    (BankGroup, WRA, mkTiming RDA 1 (nCWL s + nBL s + nWTRL s) false);
    (BankGroup, ACT, mkTiming ACT 1 (nRRDL s) false);
    (Bank, ACT, mkTiming RD 1 (nRCD s) false);
    (Bank, ACT, mkTiming RDA 1 (nRCD s) false);
    (Bank, ACT, mkTiming WR 1 (nRCD s) false);
    (Bank, ACT, mkTiming WRA 1 (nRCD s) false);
    (Bank, RD, mkTiming PRE 1 (nRTP s) false);
    (Bank, WR, mkTiming PRE 1 (nCWL s + nBL s + nWR s) false);
    (Bank, RDA, mkTiming ACT 1 (nRTP s + nRP s) false);
    (Bank, WRA, mkTiming ACT 1 (nCWL s + nBL s + nWR s + nRP s) false);
    (Bank, ACT, mkTiming ACT 1 (nRC s) false);
    (Bank, ACT, mkTiming PRE 1 (nRAS s) false);
    (Bank, PRE, mkTiming ACT 1 (nRP s) false) ].

(** ** The standard as an instance of the interfaces *)

(** Members with a default initialiser. *)
Definition prefetch_size : Z := 8.
Definition channel_width : Z := 64.

Definition spec (o : DDR4) : Spec Level Command State :=
  {| Dram.level_int := level_int; Dram.level_cast := level_cast; Dram.level_MAX := 6;
     Dram.lvl_Bank := Bank; Dram.lvl_Row := Row; Dram.cmd_MAX := Cmd_MAX; Dram.cmd_PRE := PRE;
     Dram.scope := scope; Dram.start := start; Dram.is_opening := is_opening;
     Dram.is_accessing := is_accessing; Dram.is_closing := is_closing;
     Dram.is_refreshing := is_refreshing; Dram.translate := translate;
     Dram.prereq := prereq; Dram.rowhit := rowhit; Dram.rowopen := rowopen; Dram.lambda := lambda;
     Dram.timing := entries_at (init_timing (speed_entry o));
     Dram.count := count (org_entry o); Dram.nREFI := nREFI (speed_entry o);
     Dram.read_latency := read_latency o; Dram.prefetch_size := prefetch_size;
     Dram.channel_width := channel_width |}.

Definition proto : Proto Level Command State :=
  {| p_power := Rank; p_RD := RD; p_WR := WR; p_ACT := ACT; p_PREA := PREA; p_REF := REF;
     p_PDX := PDX; p_SRX := SRX; p_Opened := Opened; p_Closed := Closed; p_PowerUp := PowerUp;
     p_ActPowerDown := ActPowerDown; p_PrePowerDown := PrePowerDown; p_SelfRefresh := SelfRefresh |}.

Lemma init_timing_check_DDR4 s : table_check is_refreshing is_opening (init_timing s) = true.
Proof. vm_compute. reflexivity. Qed.

Section Instances.
Variable o : DDR4.
Context `{Hcount : !CountOK 6 (count (org_entry o))}.

#[global] Instance spec_TimingOK : TimingOK (spec o).
Proof.
  apply (TimingOK_table _ (init_timing (speed_entry o))); [done|apply init_timing_check_DDR4|done|simpl; lia|..].
  - intros k Hk. simpl in Hk. do 6 (destruct k as [|k]; [by eexists|]). lia.
  - intros k l Hl. do 6 (destruct k as [|k]; [by simplify_eq/=|]). done.
  - by intros [] [].
Qed.

#[global] Instance spec_LambdaFrame : LambdaFrame (spec o).
Proof. intros l c f d i d' Hf Hd. destruct l, c; simpl in Hf; simplify_eq; solve_frame. Qed.

#[global] Instance spec_BankProtocol : BankProtocol (spec o) proto.
Proof. split; try apply _; solve_protocol. Qed.

End Instances.

End DDR4.

