(* ===== verification/SpecGDDR5.v ===== *)
(** * GDDR5 ([ramulator/src/GDDR5.h], [ramulator/src/GDDR5.cpp])

    The tables of the standard, a rank holds bank groups, which hold the banks.
    The enumerations keep the source's names ([MAX] is [Cmd_MAX] and
    [State_MAX]; the tables are not indexed by it, and their value there stands
    for nothing); an array indexed by an enumeration is a function on it.  The
    floating point members of a speed entry ([freq], [tCK]) only scale printed
    statistics and are left out. *)

From S2P Require Import Prelude Request Dram DramTiming BankProtocol Standard.

Module GDDR5.

(** ** Enumerations *)

Inductive Level := Channel | Rank | BankGroup | Bank | Row | Column.
Inductive Command :=
  | ACT | PRE | PREA | RD | WR | RDA | WRA | REF | PDE | PDX | SRE | SRX | Cmd_MAX.
Inductive State :=
  | Opened | Closed | PowerUp | ActPowerDown | PrePowerDown | SelfRefresh | State_MAX.
Inductive Org :=
  | GDDR5_512Mb_x16 | GDDR5_512Mb_x32 | GDDR5_1Gb_x16 | GDDR5_1Gb_x32 | GDDR5_2Gb_x16
  | GDDR5_2Gb_x32 | GDDR5_4Gb_x16 | GDDR5_4Gb_x32 | GDDR5_8Gb_x16 | GDDR5_8Gb_x32
  | GDDR5_2Gb_x16_bank32 | GDDR5_2Gb_x16_bank64 | GDDR5_2Gb_x16_bank128 | GDDR5_2Gb_x16_bank256
  | GDDR5_2Gb_x16_bank512.
Inductive Speed :=
  | GDDR5_4000 | GDDR5_4500 | GDDR5_5000 | GDDR5_5500 | GDDR5_6000 | GDDR5_6500 | GDDR5_7000
  | GDDR5_7000_disable_bg | GDDR5_7000_larger_REFI | GDDR5_7000_disable_bg_larger_REFI
  | GDDR5_7000_unlimit_bandwidth.

#[global] Instance Level_eq_dec : EqDecision Level.
Proof. solve_decision. Defined.
#[global] Instance Command_eq_dec : EqDecision Command.
Proof. solve_decision. Defined.
#[global] Instance State_eq_dec : EqDecision State.
Proof. solve_decision. Defined.
#[global] Instance Org_eq_dec : EqDecision Org.
Proof. solve_decision. Defined.
#[global] Instance Speed_eq_dec : EqDecision Speed.
Proof. solve_decision. Defined.

(** [int(level)] and [Level(i)] *)
Definition level_int (l : Level) : nat :=
  match l with Channel => 0 | Rank => 1 | BankGroup => 2 | Bank => 3 | Row => 4 | Column => 5 end%nat.
Definition level_cast (i : nat) : option Level :=
  match i with
  | 0 => Some Channel | 1 => Some Rank | 2 => Some BankGroup | 3 => Some Bank | 4 => Some Row
  | 5 => Some Column
  | _ => None
  end%nat.

(** ** Command tables *)

Definition scope (cmd : Command) : Level :=
  match cmd with
  | PREA | REF | PDE | PDX | SRE | SRX => Rank
  | PRE => Bank
  | ACT => Row
  | RD | WR | RDA | WRA => Column
  | Cmd_MAX => Column
  end.

Definition is_opening (cmd : Command) : bool :=
  match cmd with ACT => true | _ => false end.
Definition is_accessing (cmd : Command) : bool :=
  match cmd with RD | WR | RDA | WRA => true | _ => false end.
Definition is_closing (cmd : Command) : bool :=
  match cmd with RDA | WRA | PRE | PREA => true | _ => false end.
Definition is_refreshing (cmd : Command) : bool :=
  match cmd with REF => true | _ => false end.

Definition start (l : Level) : State :=
  match l with Channel => State_MAX | Rank => PowerUp | BankGroup => State_MAX | Bank => Closed | Row => Closed | Column => State_MAX end.

(** The initialiser lists five commands; the entries of the remaining request
    types are value-initialised, which is the first command. *)
Definition translate (t : ReqType) : Command :=
  match t with
  | READ => RD | WRITE => WR | REFRESH => REF | POWERDOWN => PDE | SELFREFRESH => SRE
  | EXTENSION | INSTRUCTION | ReqMAX => ACT
  end.

(** ** Organisations and speeds *)

Record OrgEntry := mkOrg { size : Z; dq : Z; count : list Z }.

Definition org_table (o : Org) : OrgEntry :=
  match o with
  | GDDR5_512Mb_x16 => mkOrg 512 16 [0; 1; 4; 2; Z.shiftl 1 12; Z.shiftl 1 (7 + 3)]
  | GDDR5_512Mb_x32 => mkOrg 512 32 [0; 1; 4; 2; Z.shiftl 1 12; Z.shiftl 1 (6 + 3)]
  | GDDR5_1Gb_x16 => mkOrg (Z.shiftl 1 10) 16 [0; 1; 4; 4; Z.shiftl 1 12; Z.shiftl 1 (7 + 3)]
  | GDDR5_1Gb_x32 => mkOrg (Z.shiftl 1 10) 32 [0; 1; 4; 4; Z.shiftl 1 12; Z.shiftl 1 (6 + 3)]
  | GDDR5_2Gb_x16 => mkOrg (Z.shiftl 2 10) 16 [0; 1; 4; 4; Z.shiftl 1 13; Z.shiftl 1 (7 + 3)]
  | GDDR5_2Gb_x32 => mkOrg (Z.shiftl 2 10) 32 [0; 1; 4; 4; Z.shiftl 1 13; Z.shiftl 1 (6 + 3)]
  | GDDR5_4Gb_x16 => mkOrg (Z.shiftl 4 10) 16 [0; 1; 4; 4; Z.shiftl 1 14; Z.shiftl 1 (7 + 3)]
  | GDDR5_4Gb_x32 => mkOrg (Z.shiftl 2 10) 32 [0; 1; 4; 4; Z.shiftl 1 14; Z.shiftl 1 (6 + 3)]
  | GDDR5_8Gb_x16 => mkOrg (Z.shiftl 8 10) 16 [0; 1; 4; 4; Z.shiftl 1 14; Z.shiftl 1 (8 + 3)]
  | GDDR5_8Gb_x32 => mkOrg (Z.shiftl 8 10) 32 [0; 1; 4; 4; Z.shiftl 1 14; Z.shiftl 1 (7 + 3)]
  | GDDR5_2Gb_x16_bank32 => mkOrg (Z.shiftl 2 10) 16 [0; 1; 4; 8; Z.shiftl 1 12; Z.shiftl 1 (7 + 3)]
  | GDDR5_2Gb_x16_bank64 => mkOrg (Z.shiftl 2 10) 16 [0; 1; 4; 16; Z.shiftl 1 11; Z.shiftl 1 (7 + 3)]
  | GDDR5_2Gb_x16_bank128 => mkOrg (Z.shiftl 2 10) 16 [0; 1; 4; 32; Z.shiftl 1 10; Z.shiftl 1 (7 + 3)]
  | GDDR5_2Gb_x16_bank256 => mkOrg (Z.shiftl 2 10) 16 [0; 1; 4; 64; Z.shiftl 1 9; Z.shiftl 1 (7 + 3)]
  | GDDR5_2Gb_x16_bank512 => mkOrg (Z.shiftl 2 10) 16 [0; 1; 4; 128; Z.shiftl 1 8; Z.shiftl 1 (7 + 3)]
  end.

Record SpeedEntry := mkSpeed {
  rate : Z; nBL : Z; nCCDS : Z; nCCDL : Z; nCL : Z; nRCDR : Z; nRCDW : Z; nRP : Z; nCWL : Z;
  nRAS : Z; nRC : Z; nPPD : Z; nRTP : Z; nWTR : Z; nWR : Z; nRRD : Z; nFAW : Z; n32AW : Z;
  nRFC : Z; nREFI : Z; nPD : Z; nXPN : Z; nLK : Z; nCKESR : Z; nXS : Z; nXSDLL : Z
}.

(** rate nBL nCCDS nCCDL nCL nRCDR nRCDW nRP nCWL nRAS nRC nPPD nRTP nWTR nWR nRRD nFAW n32AW
    nRFC nREFI nPD nXPN nLK nCKESR nXS nXSDLL *)
Definition speed_table (s : Speed) : SpeedEntry :=
  match s with
  | GDDR5_4000 =>
    mkSpeed 4000 2 2 3 12 12 10 12 3 28 40 1 2 5 12 6 23 184 0 0 10 10 0 0 0 0
  | GDDR5_4500 =>
    mkSpeed 4500 2 2 3 14 14 12 14 4 32 46 2 2 6 14 7 26 207 0 0 10 10 0 0 0 0
  | GDDR5_5000 =>
    mkSpeed 5000 2 2 3 15 15 13 15 4 35 50 2 2 7 15 7 29 230 0 0 10 10 0 0 0 0
  | GDDR5_5500 =>
    mkSpeed 5500 2 2 3 17 17 14 17 5 39 56 2 2 7 17 8 32 253 0 0 10 10 0 0 0 0
  | GDDR5_6000 =>
    mkSpeed 6000 2 2 3 18 18 15 18 5 42 60 2 2 8 18 9 35 276 0 0 10 10 0 0 0 0
  | GDDR5_6500 =>
    mkSpeed 6500 2 2 3 20 20 17 20 5 46 66 2 2 9 20 9 38 299 0 0 10 10 0 0 0 0
  | GDDR5_7000 =>
    mkSpeed 7000 2 2 3 21 21 18 21 6 49 70 2 2 9 21 10 41 322 0 0 10 10 0 0 0 0
  | GDDR5_7000_disable_bg =>
    mkSpeed 7000 2 2 2 21 21 18 21 6 49 70 2 2 9 21 10 41 322 0 0 10 10 0 0 0 0
  | GDDR5_7000_larger_REFI =>
    mkSpeed 7000 2 2 3 21 21 18 21 6 49 70 2 2 9 21 10 41 322 0 13650 10 10 0 0 0 0
  | GDDR5_7000_disable_bg_larger_REFI =>
    mkSpeed 7000 2 2 2 21 21 18 21 6 49 70 2 2 9 21 10 41 322 0 13650 10 10 0 0 0 0
  | GDDR5_7000_unlimit_bandwidth =>
    mkSpeed 7000 0 1 1 21 21 18 21 6 49 70 2 2 9 21 10 41 322 0 0 10 10 0 0 0 0
  end.

Definition org_map : list (string * Org) :=
  [("GDDR5_512Mb_x16"%string, GDDR5_512Mb_x16); ("GDDR5_512Mb_x32"%string, GDDR5_512Mb_x32);
   ("GDDR5_1Gb_x16"%string, GDDR5_1Gb_x16); ("GDDR5_1Gb_x32"%string, GDDR5_1Gb_x32);
   ("GDDR5_2Gb_x16"%string, GDDR5_2Gb_x16); ("GDDR5_2Gb_x32"%string, GDDR5_2Gb_x32);
   ("GDDR5_4Gb_x16"%string, GDDR5_4Gb_x16); ("GDDR5_4Gb_x32"%string, GDDR5_4Gb_x32);
   ("GDDR5_8Gb_x16"%string, GDDR5_8Gb_x16); ("GDDR5_8Gb_x32"%string, GDDR5_8Gb_x32);
   ("GDDR5_2Gb_x16_bank32"%string, GDDR5_2Gb_x16_bank32);
   ("GDDR5_2Gb_x16_bank64"%string, GDDR5_2Gb_x16_bank64);
   ("GDDR5_2Gb_x16_bank128"%string, GDDR5_2Gb_x16_bank128);
   ("GDDR5_2Gb_x16_bank256"%string, GDDR5_2Gb_x16_bank256);
   ("GDDR5_2Gb_x16_bank512"%string, GDDR5_2Gb_x16_bank512)].
Definition speed_map : list (string * Speed) :=
  [("GDDR5_4000"%string, GDDR5_4000); ("GDDR5_4500"%string, GDDR5_4500);
   ("GDDR5_5000"%string, GDDR5_5000); ("GDDR5_5500"%string, GDDR5_5500);
   ("GDDR5_6000"%string, GDDR5_6000); ("GDDR5_6500"%string, GDDR5_6500);
   ("GDDR5_7000"%string, GDDR5_7000); ("GDDR5_7000_disable_bg"%string, GDDR5_7000_disable_bg);
   ("GDDR5_7000_larger_REFI"%string, GDDR5_7000_larger_REFI);
   ("GDDR5_7000_disable_bg_larger_REFI"%string, GDDR5_7000_disable_bg_larger_REFI);
   ("GDDR5_7000_unlimit_bandwidth"%string, GDDR5_7000_unlimit_bandwidth)].

Definition set_nRFC (x : Z) (s : SpeedEntry) : SpeedEntry :=
  mkSpeed (rate s) (nBL s) (nCCDS s) (nCCDL s) (nCL s) (nRCDR s) (nRCDW s) (nRP s) (nCWL s) (nRAS s)
    (nRC s) (nPPD s) (nRTP s) (nWTR s) (nWR s) (nRRD s) (nFAW s) (n32AW s) x (nREFI s) (nPD s)
    (nXPN s) (nLK s) (nCKESR s) (nXS s) (nXSDLL s).
Definition set_nREFI (x : Z) (s : SpeedEntry) : SpeedEntry :=
  mkSpeed (rate s) (nBL s) (nCCDS s) (nCCDL s) (nCL s) (nRCDR s) (nRCDW s) (nRP s) (nCWL s) (nRAS s)
    (nRC s) (nPPD s) (nRTP s) (nWTR s) (nWR s) (nRRD s) (nFAW s) (n32AW s) (nRFC s) x (nPD s)
    (nXPN s) (nLK s) (nCKESR s) (nXS s) (nXSDLL s).

(** [init_speed] *)
Definition init_speed (org_entry : OrgEntry) (speed_entry : SpeedEntry) : option SpeedEntry :=
  let REFIL_TABLE := [3900; 4388; 4875; 5363; 5850; 6338; 6825] in
  let REFIS_TABLE := [1900; 2138; 2375; 2613; 2850; 3088; 3325] in
  let RFC_TABLE := [[90; 102; 113; 124; 135; 147; 158];
    [110; 124; 138; 152; 165; 179; 193];
    [160; 180; 200; 220; 240; 260; 280];
    [260; 293; 325; 358; 390; 423; 455];
    [350; 394; 438; 482; 525; 569; 613]] in
  speed ←
    match rate speed_entry with
    | 4000 => Some 0 | 4500 => Some 1 | 5000 => Some 2 | 5500 => Some 3 | 6000 => Some 4 | 6500 => Some 5 | 7000 => Some 6
    | _ => None
    end;
  density ←
    match Z.shiftr (size org_entry) 9 with
    | 1 => Some 0 | 2 => Some 1 | 4 => Some 2 | 8 => Some 3 | 16 => Some 4
    | _ => None
    end;
  speed_entry ←
    (if nREFI speed_entry =? 0 then
       refi ← (if size org_entry <=? 1024 then zlookup REFIL_TABLE speed else zlookup REFIS_TABLE speed);
       Some (set_nREFI refi speed_entry)
     else Some speed_entry);
  rfc ← table_at RFC_TABLE density speed;
  Some (set_nRFC rfc speed_entry).

(** The members of the object the constructor sets. *)
Record GDDR5 := mkGDDR5 { org_entry : OrgEntry; speed_entry : SpeedEntry; read_latency : Z }.

(** [GDDR5(Org, Speed)] and [GDDR5(string, string)] *)
Definition new (org : Org) (speed : Speed) : option GDDR5 :=
  let org_entry := org_table org in
  let speed_entry := speed_table speed in
  let read_latency := nCL speed_entry + nBL speed_entry in
  speed_entry ← init_speed org_entry speed_entry;
  Some (mkGDDR5 org_entry speed_entry read_latency).
Definition new_str (org_str speed_str : string) : option GDDR5 :=
  new (map_at GDDR5_512Mb_x16 org_map org_str) (map_at GDDR5_4000 speed_map speed_str).

(** [org_entry.count[int(l)] = x] *)
Definition set_count (l : Level) (x : Z) (o : GDDR5) : GDDR5 :=
  let e := org_entry o in
  mkGDDR5 (mkOrg (size e) (dq e) (<[level_int l := x]> (count e))) (speed_entry o) (read_latency o).
Definition set_channel_number (channel : Z) (o : GDDR5) : GDDR5 := set_count Channel channel o.
Definition set_rank_number (rank : Z) (o : GDDR5) : option GDDR5 := assert! rank =? 1; Some o.

(** ** Prerequisites, row hits and state transitions *)

Definition node : Type := DRAM Level Command State.

Definition prereq (l : Level) (c : Command) : option (node → Command → Z → option Command) :=
  match l, c with
  | Rank, RD | Rank, WR =>
    Some (λ node _ _,
      match state (info node) with
      | PowerUp => Some Cmd_MAX
      | ActPowerDown => Some PDX
      | PrePowerDown => Some PDX
      | SelfRefresh => Some SRX
      | _ => None
      end)
  | Bank, RD | Bank, WR =>
    Some (λ node cmd id,
      match state (info node) with
      | Closed => Some ACT
      | Opened => if decide (is_Some (row_state (info node) !! id)) then Some cmd else Some PRE
      | _ => None
      end)
  | Rank, REF =>
    Some (λ node _ _,
      if forallb (λ bg, forallb (λ bank, bool_decide (state (info bank) = Closed)) (children bg)) (children node)
      then Some REF else Some PREA)
  | Rank, PDE =>
    Some (λ node _ _,
      match state (info node) with
      | PowerUp => Some PDE
      | ActPowerDown => Some PDE
      | PrePowerDown => Some PDE
      | SelfRefresh => Some SRX
      | _ => None
      end)
  | Rank, SRE =>
    Some (λ node _ _,
      match state (info node) with
      | PowerUp => Some SRE
      | ActPowerDown => Some PDX
      | PrePowerDown => Some PDX
      | SelfRefresh => Some SRE
      | _ => None
      end)
  | _, _ => None
  end.

Definition rowhit (l : Level) (c : Command) : option (node → Command → Z → option bool) :=
  match l, c with
  | Bank, RD | Bank, WR =>
    Some (λ node _ id,
      match state (info node) with
      | Closed => Some false
      | Opened => if decide (is_Some (row_state (info node) !! id)) then Some true else Some false
      | _ => None
      end)
  | _, _ => None
  end.

Definition rowopen (l : Level) (c : Command) : option (node → Command → Z → option bool) :=
  match l, c with
  | Bank, RD | Bank, WR =>
    Some (λ node _ _,
      match state (info node) with Closed => Some false | Opened => Some true | _ => None end)
  | _, _ => None
  end.

(** [node->state = State::Closed; node->row_state.clear();] *)
Definition close (n : dram_info Level Command State) : dram_info Level Command State :=
  set_row_state ∅ (set_state Closed n).

Definition lambda (l : Level) (c : Command) : option (node → Z → option node) :=
  match l, c with
  | Bank, ACT =>
    Some (λ node id,
      Some (on_info (λ n, set_row_state (<[id := Opened]> (row_state n)) (set_state Opened n)) node))
  | Bank, PRE | Bank, RDA | Bank, WRA =>
    Some (λ node _, Some (on_info close node))
  | Rank, PREA =>
    Some (λ node _,
      Some (Dram (info node) (map (λ bg, Dram (info bg) (map (on_info close) (children bg))) (children node))))
  | Rank, REF | Bank, RD | Bank, WR =>
    Some (λ node _, Some node)
  | Rank, PDE =>
    Some (λ node _,
      if forallb (λ bg, forallb (λ bank, bool_decide (state (info bank) = Closed)) (children bg)) (children node)
      then Some (on_info (set_state PrePowerDown) node)
      else Some (on_info (set_state ActPowerDown) node))
  | Rank, PDX | Rank, SRX =>
    Some (λ node _, Some (on_info (set_state PowerUp) node))
  | Rank, SRE =>
    Some (λ node _, Some (on_info (set_state SelfRefresh) node))
  | _, _ => None
  end.

(** ** Timing: the [push_back] calls in source order *)

Definition init_timing (s : SpeedEntry) : list (Level * Command * TimingEntry Command) :=
  [ (Channel, RD, mkTiming RD 1 (nBL s) false);
    (Channel, RD, mkTiming RDA 1 (nBL s) false);
    (Channel, RDA, mkTiming RD 1 (nBL s) false);
    (Channel, RDA, mkTiming RDA 1 (nBL s) false);
    (Channel, WR, mkTiming WR 1 (nBL s) false);
    (Channel, WR, mkTiming WRA 1 (nBL s) false);
    (Channel, WRA, mkTiming WR 1 (nBL s) false);
    (Channel, WRA, mkTiming WRA 1 (nBL s) false);
    (Rank, RD, mkTiming RD 1 (nCCDS s) false);
    (Rank, RD, mkTiming RDA 1 (nCCDS s) false);
    (Rank, RDA, mkTiming RD 1 (nCCDS s) false);
    (Rank, RDA, mkTiming RDA 1 (nCCDS s) false);
    (Rank, WR, mkTiming WR 1 (nCCDS s) false);
    (Rank, WR, mkTiming WRA 1 (nCCDS s) false);
    (Rank, WRA, mkTiming WR 1 (nCCDS s) false);
    (Rank, WRA, mkTiming WRA 1 (nCCDS s) false);
    (Rank, RD, mkTiming WR 1 (nCL s + nCCDS s + 2 - nCWL s) false);
    (Rank, RD, mkTiming WRA 1 (nCL s + nCCDS s + 2 - nCWL s) false);
    (Rank, RDA, mkTiming WR 1 (nCL s + nCCDS s + 2 - nCWL s) false);
    (Rank, RDA, mkTiming WRA 1 (nCL s + nCCDS s + 2 - nCWL s) false);
    (Rank, WR, mkTiming RD 1 (nCWL s + nBL s + nWTR s) false);
    (Rank, WR, mkTiming RDA 1 (nCWL s + nBL s + nWTR s) false);
    (Rank, WRA, mkTiming RD 1 (nCWL s + nBL s + nWTR s) false);
    (Rank, WRA, mkTiming RDA 1 (nCWL s + nBL s + nWTR s) false);
    (Rank, RD, mkTiming PREA 1 (nRTP s) false);
    (Rank, WR, mkTiming PREA 1 (nCWL s + nBL s + nWR s) false);
    (Rank, RD, mkTiming PDE 1 (nCL s + nBL s + 1) false);
    (Rank, RDA, mkTiming PDE 1 (nCL s + nBL s + 1) false);
    (Rank, WR, mkTiming PDE 1 (nCWL s + nBL s + nWR s) false);
    (Rank, WRA, mkTiming PDE 1 (nCWL s + nBL s + nWR s + 1) false);
    (Rank, PDX, mkTiming RD 1 (nXPN s) false);
    (Rank, PDX, mkTiming RDA 1 (nXPN s) false);
    (Rank, PDX, mkTiming WR 1 (nXPN s) false);
    (Rank, PDX, mkTiming WRA 1 (nXPN s) false);
    (Rank, ACT, mkTiming ACT 1 (nRRD s) false);
    (Rank, ACT, mkTiming ACT 4 (nFAW s) false);
    (Rank, ACT, mkTiming ACT 32 (n32AW s) false);
    (Rank, ACT, mkTiming PREA 1 (nRAS s) false);
    (Rank, PREA, mkTiming ACT 1 (nRP s) false);
    (Rank, PRE, mkTiming PRE 1 (nPPD s) false);
    (Rank, PRE, mkTiming REF 1 (nRP s) false);
    (Rank, PREA, mkTiming REF 1 (nRP s) false);
    (Rank, REF, mkTiming ACT 1 (nRFC s) false);
    (Rank, ACT, mkTiming PDE 1 1 false);
    (Rank, PDX, mkTiming ACT 1 (nXPN s) false);
    (Rank, PDX, mkTiming PRE 1 (nXPN s) false);
    (Rank, PDX, mkTiming PREA 1 (nXPN s) false);
    (Rank, PRE, mkTiming SRE 1 (nRP s) false);
    (Rank, PREA, mkTiming SRE 1 (nRP s) false);
    (Rank, SRX, mkTiming ACT 1 (nXS s) false);
    (Rank, REF, mkTiming REF 1 (nRFC s) false);
    (Rank, REF, mkTiming PDE 1 1 false);
    (Rank, PDX, mkTiming REF 1 (nXPN s) false);
    (Rank, SRX, mkTiming REF 1 (nXS s) false);
    (Rank, PDE, mkTiming PDX 1 (nPD s) false);
    (Rank, PDX, mkTiming PDE 1 (nXPN s) false);
    (Rank, PDX, mkTiming SRE 1 (nXPN s) false);
    (Rank, SRX, mkTiming PDE 1 (nXS s) false);
    (Rank, SRE, mkTiming SRX 1 (nCKESR s) false);
    (Rank, SRX, mkTiming SRE 1 (nXS s) false);
    (BankGroup, RD, mkTiming RD 1 (nCCDL s) false);
    (BankGroup, RD, mkTiming RDA 1 (nCCDL s) false);
    (BankGroup, RDA, mkTiming RD 1 (nCCDL s) false);
    (BankGroup, RDA, mkTiming RDA 1 (nCCDL s) false);
    (BankGroup, WR, mkTiming WR 1 (nCCDL s) false);
    (BankGroup, WR, mkTiming WRA 1 (nCCDL s) false);
    (BankGroup, WRA, mkTiming WR 1 (nCCDL s) false);
    (BankGroup, WRA, mkTiming WRA 1 (nCCDL s) false);
    (Bank, ACT, mkTiming RD 1 (nRCDR s) false);
    (Bank, ACT, mkTiming RDA 1 (nRCDR s) false);
    (Bank, ACT, mkTiming WR 1 (nRCDW s) false);
    (Bank, ACT, mkTiming WRA 1 (nRCDW s) false);
    (Bank, RD, mkTiming PRE 1 (nRTP s) false);
    (Bank, WR, mkTiming PRE 1 (nCWL s + nBL s + nWR s) false);
    (Bank, RDA, mkTiming ACT 1 (nRTP s + nRP s) false);
    (Bank, WRA, mkTiming ACT 1 (nCWL s + nBL s + nWR s + nRP s) false);
    (Bank, ACT, mkTiming ACT 1 (nRC s) false);
    (Bank, ACT, mkTiming PRE 1 (nRAS s) false);
    (Bank, PRE, mkTiming ACT 1 (nRP s) false) ].

(** ** The standard as an instance of the interfaces *)

(** Members with a default initialiser. *)
Definition prefetch_size : Z := 8.
Definition channel_width : Z := 64.

Definition spec (o : GDDR5) : Spec Level Command State :=
  {| Dram.level_int := level_int; Dram.level_cast := level_cast; Dram.level_MAX := 6;
     Dram.lvl_Bank := Bank; Dram.lvl_Row := Row; Dram.cmd_MAX := Cmd_MAX; Dram.cmd_PRE := PRE;
     Dram.scope := scope; Dram.start := start; Dram.is_opening := is_opening;
     Dram.is_accessing := is_accessing; Dram.is_closing := is_closing;
     Dram.is_refreshing := is_refreshing; Dram.translate := translate;
     Dram.prereq := prereq; Dram.rowhit := rowhit; Dram.rowopen := rowopen; Dram.lambda := lambda;
     Dram.timing := entries_at (init_timing (speed_entry o));
     Dram.count := count (org_entry o); Dram.nREFI := nREFI (speed_entry o);
     Dram.read_latency := read_latency o; Dram.prefetch_size := prefetch_size;
     Dram.channel_width := channel_width |}.

Definition proto : Proto Level Command State :=
  {| p_power := Rank; p_RD := RD; p_WR := WR; p_ACT := ACT; p_PREA := PREA; p_REF := REF;
     p_PDX := PDX; p_SRX := SRX; p_Opened := Opened; p_Closed := Closed; p_PowerUp := PowerUp;
     p_ActPowerDown := ActPowerDown; p_PrePowerDown := PrePowerDown; p_SelfRefresh := SelfRefresh |}.

Lemma init_timing_check_GDDR5 s : table_check is_refreshing is_opening (init_timing s) = true.
Proof. vm_compute. reflexivity. Qed.

Section Instances.
Variable o : GDDR5.
Context `{Hcount : !CountOK 6 (count (org_entry o))}.

#[global] Instance spec_TimingOK : TimingOK (spec o).
Proof.
  apply (TimingOK_table _ (init_timing (speed_entry o))); [done|apply init_timing_check_GDDR5|done|simpl; lia|..].
  - intros k Hk. simpl in Hk. do 6 (destruct k as [|k]; [by eexists|]). lia.
  - intros k l Hl. do 6 (destruct k as [|k]; [by simplify_eq/=|]). done.
  - by intros [] [].
Qed.

#[global] Instance spec_LambdaFrame : LambdaFrame (spec o).
Proof. intros l c f d i d' Hf Hd. destruct l, c; simpl in Hf; simplify_eq; solve_frame. Qed.

#[global] Instance spec_BankProtocol : BankProtocol (spec o) proto.
Proof. split; try apply _; solve_protocol. Qed.

End Instances.

End GDDR5.

