(* ===== verification/SpecHBM.v ===== *)
(** * HBM ([ramulator/src/HBM.h], [ramulator/src/HBM.cpp])

    The tables of the standard, a rank holds bank groups, which hold the banks.
    The enumerations keep the source's names ([MAX] is [Cmd_MAX] and
    [State_MAX]; the tables are not indexed by it, and their value there stands
    for nothing); an array indexed by an enumeration is a function on it.  The
    floating point members of a speed entry ([freq], [tCK]) only scale printed
    statistics and are left out. *)

From S2P Require Import Prelude Request Dram DramTiming BankProtocol Standard.

Module HBM.

(** ** Enumerations *)

Inductive Level := Channel | Rank | BankGroup | Bank | Row | Column.
Inductive Command :=
  | ACT | PRE | PREA | RD | WR | RDA | WRA | REF | REFSB | PDE | PDX | SRE | SRX | Cmd_MAX.
Inductive State :=
  | Opened | Closed | PowerUp | ActPowerDown | PrePowerDown | SelfRefresh | State_MAX.
Inductive Org :=
  | HBM_1Gb | HBM_2Gb | HBM_4Gb | HBM_4Gb_bank32 | HBM_4Gb_bank64 | HBM_4Gb_bank128
  | HBM_4Gb_bank256 | HBM_4Gb_bank512.
Inductive Speed :=
  | HBM_1Gbps | HBM_1Gbps_unlimit_bandwidth.

#[global] Instance Level_eq_dec : EqDecision Level.
Proof. solve_decision. Defined.
#[global] Instance Command_eq_dec : EqDecision Command.
Proof. solve_decision. Defined.
#[global] Instance State_eq_dec : EqDecision State.
Proof. solve_decision. Defined.
#[global] Instance Org_eq_dec : EqDecision Org.
Proof. solve_decision. Defined.
#[global] Instance Speed_eq_dec : EqDecision Speed.
Proof. solve_decision. Defined.

(** [int(level)] and [Level(i)] *)
Definition level_int (l : Level) : nat :=
  match l with Channel => 0 | Rank => 1 | BankGroup => 2 | Bank => 3 | Row => 4 | Column => 5 end%nat.
Definition level_cast (i : nat) : option Level :=
  match i with
  | 0 => Some Channel | 1 => Some Rank | 2 => Some BankGroup | 3 => Some Bank | 4 => Some Row
  | 5 => Some Column
  | _ => None
  end%nat.

(** ** Command tables *)

Definition scope (cmd : Command) : Level :=
  match cmd with
  | PREA | REF | PDE | PDX | SRE | SRX => Rank
  | PRE | REFSB => Bank
  | ACT => Row
  | RD | WR | RDA | WRA => Column
  | Cmd_MAX => Column
  end.

Definition is_opening (cmd : Command) : bool :=
  match cmd with ACT => true | _ => false end.
Definition is_accessing (cmd : Command) : bool :=
  match cmd with RD | WR | RDA | WRA => true | _ => false end.
Definition is_closing (cmd : Command) : bool :=
  match cmd with RDA | WRA | PRE | PREA => true | _ => false end.
Definition is_refreshing (cmd : Command) : bool :=
  match cmd with REF | REFSB => true | _ => false end.

Definition start (l : Level) : State :=
  match l with Channel => State_MAX | Rank => PowerUp | BankGroup => State_MAX | Bank => Closed | Row => Closed | Column => State_MAX end.

(** The initialiser lists five commands; the entries of the remaining request
    types are value-initialised, which is the first command. *)
Definition translate (t : ReqType) : Command :=
  match t with
  | READ => RD | WRITE => WR | REFRESH => REF | POWERDOWN => PDE | SELFREFRESH => SRE
  | EXTENSION | INSTRUCTION | ReqMAX => ACT
  end.

(** ** Organisations and speeds *)

Record OrgEntry := mkOrg { size : Z; dq : Z; count : list Z }.

Definition org_table (o : Org) : OrgEntry :=
  match o with
  | HBM_1Gb => mkOrg (Z.shiftl 1 10) 128 [0; 0; 4; 2; Z.shiftl 1 13; Z.shiftl 1 (6 + 1)]
  | HBM_2Gb => mkOrg (Z.shiftl 2 10) 128 [0; 0; 4; 2; Z.shiftl 1 14; Z.shiftl 1 (6 + 1)]
  | HBM_4Gb => mkOrg (Z.shiftl 4 10) 128 [0; 0; 4; 4; Z.shiftl 1 14; Z.shiftl 1 (6 + 1)]
  | HBM_4Gb_bank32 => mkOrg (Z.shiftl 4 10) 128 [0; 0; 4; 8; Z.shiftl 1 13; Z.shiftl 1 (6 + 1)]
  | HBM_4Gb_bank64 => mkOrg (Z.shiftl 4 10) 128 [0; 0; 4; 16; Z.shiftl 1 12; Z.shiftl 1 (6 + 1)]
  | HBM_4Gb_bank128 => mkOrg (Z.shiftl 4 10) 128 [0; 0; 4; 32; Z.shiftl 1 11; Z.shiftl 1 (6 + 1)]
  | HBM_4Gb_bank256 => mkOrg (Z.shiftl 4 10) 128 [0; 0; 4; 64; Z.shiftl 1 10; Z.shiftl 1 (6 + 1)]
  | HBM_4Gb_bank512 => mkOrg (Z.shiftl 4 10) 128 [0; 0; 4; 128; Z.shiftl 1 9; Z.shiftl 1 (6 + 1)]
  end.

Record SpeedEntry := mkSpeed {
  rate : Z; nBL : Z; nCCDS : Z; nCCDL : Z; nCL : Z; nRCDR : Z; nRCDW : Z; nRP : Z; nCWL : Z;
  nRAS : Z; nRC : Z; nRTP : Z; nWTRS : Z; nWTRL : Z; nWR : Z; nRRDS : Z; nRRDL : Z; nFAW : Z;
  nRFC : Z; nREFI : Z; nREFI1B : Z; nPD : Z; nXP : Z; nCKESR : Z; nXS : Z
}.

(** rate nBL nCCDS nCCDL nCL nRCDR nRCDW nRP nCWL nRAS nRC nRTP nWTRS nWTRL nWR nRRDS nRRDL nFAW
    nRFC nREFI nREFI1B nPD nXP nCKESR nXS *)
Definition speed_table (s : Speed) : SpeedEntry :=
  match s with
  | HBM_1Gbps =>
    mkSpeed 1000 2 2 3 7 7 6 7 4 17 24 7 2 4 8 4 5 20 0 1950 0 5 5 5 0
  | HBM_1Gbps_unlimit_bandwidth =>
    mkSpeed 1000 0 1 1 7 7 6 7 4 17 24 7 2 4 8 4 5 20 0 1950 0 5 5 5 0
  end.

Definition org_map : list (string * Org) :=
  [("HBM_1Gb"%string, HBM_1Gb); ("HBM_2Gb"%string, HBM_2Gb); ("HBM_4Gb"%string, HBM_4Gb);
   ("HBM_4Gb_bank32"%string, HBM_4Gb_bank32); ("HBM_4Gb_bank64"%string, HBM_4Gb_bank64);
   ("HBM_4Gb_bank128"%string, HBM_4Gb_bank128); ("HBM_4Gb_bank256"%string, HBM_4Gb_bank256);
   ("HBM_4Gb_bank512"%string, HBM_4Gb_bank512)].
Definition speed_map : list (string * Speed) :=
  [("HBM_1Gbps"%string, HBM_1Gbps);
   ("HBM_1Gbps_unlimit_bandwidth"%string, HBM_1Gbps_unlimit_bandwidth)].

Definition set_nRFC (x : Z) (s : SpeedEntry) : SpeedEntry :=
  mkSpeed (rate s) (nBL s) (nCCDS s) (nCCDL s) (nCL s) (nRCDR s) (nRCDW s) (nRP s) (nCWL s) (nRAS s)
    (nRC s) (nRTP s) (nWTRS s) (nWTRL s) (nWR s) (nRRDS s) (nRRDL s) (nFAW s) x (nREFI s)
    (nREFI1B s) (nPD s) (nXP s) (nCKESR s) (nXS s).
Definition set_nREFI1B (x : Z) (s : SpeedEntry) : SpeedEntry :=
  mkSpeed (rate s) (nBL s) (nCCDS s) (nCCDL s) (nCL s) (nRCDR s) (nRCDW s) (nRP s) (nCWL s) (nRAS s)
    (nRC s) (nRTP s) (nWTRS s) (nWTRL s) (nWR s) (nRRDS s) (nRRDL s) (nFAW s) (nRFC s) (nREFI s)
    x (nPD s) (nXP s) (nCKESR s) (nXS s).
Definition set_nXS (x : Z) (s : SpeedEntry) : SpeedEntry :=
  mkSpeed (rate s) (nBL s) (nCCDS s) (nCCDL s) (nCL s) (nRCDR s) (nRCDW s) (nRP s) (nCWL s) (nRAS s)
    (nRC s) (nRTP s) (nWTRS s) (nWTRL s) (nWR s) (nRRDS s) (nRRDL s) (nFAW s) (nRFC s) (nREFI s)
    (nREFI1B s) (nPD s) (nXP s) (nCKESR s) x.

(** [init_speed] *)
Definition init_speed (org_entry : OrgEntry) (speed_entry : SpeedEntry) : option SpeedEntry :=
  let RFC_TABLE := [[55; 80; 130]] in
  let REFI1B_TABLE := [[64; 128; 256]] in
  let XS_TABLE := [[60; 85; 135]] in
  speed ←
    match rate speed_entry with
    | 1000 => Some 0
    | _ => None
    end;
  density ←
    match Z.shiftr (size org_entry) 10 with
    | 1 => Some 0 | 2 => Some 1 | 4 => Some 2
    | _ => None
    end;
  rfc ← table_at RFC_TABLE speed density;
  refi1b ← table_at REFI1B_TABLE speed density;
  xs ← table_at XS_TABLE speed density;
  Some (set_nXS xs (set_nREFI1B refi1b (set_nRFC rfc speed_entry))).

(** The members of the object the constructor sets. *)
Record HBM := mkHBM { org_entry : OrgEntry; speed_entry : SpeedEntry; read_latency : Z }.

(** [HBM(Org, Speed)] and [HBM(string, string)] *)
Definition new (org : Org) (speed : Speed) : option HBM :=
  let org_entry := org_table org in
  let speed_entry := speed_table speed in
  let read_latency := nCL speed_entry + nBL speed_entry in
  speed_entry ← init_speed org_entry speed_entry;
  Some (mkHBM org_entry speed_entry read_latency).
Definition new_str (org_str speed_str : string) : option HBM :=
  new (map_at HBM_1Gb org_map org_str) (map_at HBM_1Gbps speed_map speed_str).

(** [org_entry.count[int(l)] = x] *)
Definition set_count (l : Level) (x : Z) (o : HBM) : HBM :=
  let e := org_entry o in
  mkHBM (mkOrg (size e) (dq e) (<[level_int l := x]> (count e))) (speed_entry o) (read_latency o).
Definition set_channel_number (channel : Z) (o : HBM) : HBM := set_count Channel channel o.
Definition set_rank_number (rank : Z) (o : HBM) : HBM := set_count Rank rank o.

(** ** Prerequisites, row hits and state transitions *)

Definition node : Type := DRAM Level Command State.

Definition prereq (l : Level) (c : Command) : option (node → Command → Z → option Command) :=
  match l, c with
  | Rank, RD | Rank, WR =>
    Some (λ node _ _,
      match state (info node) with
      | PowerUp => Some Cmd_MAX
      | ActPowerDown => Some PDX
      | PrePowerDown => Some PDX
      | SelfRefresh => Some SRX
      | _ => None
      end)
  | Bank, RD | Bank, WR =>
    Some (λ node cmd id,
      match state (info node) with
      | Closed => Some ACT
      | Opened => if decide (is_Some (row_state (info node) !! id)) then Some cmd else Some PRE
      | _ => None
      end)
  | Rank, REF =>
    Some (λ node _ _,
      if forallb (λ bg, forallb (λ bank, bool_decide (state (info bank) = Closed)) (children bg)) (children node)
      then Some REF else Some PREA)
  | Bank, REFSB =>
    Some (λ node _ _, if decide (state (info node) = Closed) then Some REFSB else Some PRE)
  | Rank, PDE =>
    Some (λ node _ _,
      match state (info node) with
      | PowerUp => Some PDE
      | ActPowerDown => Some PDE
      | PrePowerDown => Some PDE
      | SelfRefresh => Some SRX
      | _ => None
      end)
  | Rank, SRE =>
    Some (λ node _ _,
      match state (info node) with
      | PowerUp => Some SRE
      | ActPowerDown => Some PDX
      | PrePowerDown => Some PDX
      | SelfRefresh => Some SRE
      | _ => None
      end)
  | _, _ => None
  end.

Definition rowhit (l : Level) (c : Command) : option (node → Command → Z → option bool) :=
  match l, c with
  | Bank, RD | Bank, WR =>
    Some (λ node _ id,
      match state (info node) with
      | Closed => Some false
      | Opened => if decide (is_Some (row_state (info node) !! id)) then Some true else Some false
      | _ => None
      end)
  | _, _ => None
  end.

Definition rowopen (l : Level) (c : Command) : option (node → Command → Z → option bool) :=
  match l, c with
  | Bank, RD | Bank, WR =>
    Some (λ node _ _,
      match state (info node) with Closed => Some false | Opened => Some true | _ => None end)
  | _, _ => None
  end.

(** [node->state = State::Closed; node->row_state.clear();] *)
Definition close (n : dram_info Level Command State) : dram_info Level Command State :=
  set_row_state ∅ (set_state Closed n).

Definition lambda (l : Level) (c : Command) : option (node → Z → option node) :=
  match l, c with
  | Bank, ACT =>
    Some (λ node id,
      Some (on_info (λ n, set_row_state (<[id := Opened]> (row_state n)) (set_state Opened n)) node))
  | Bank, PRE | Bank, RDA | Bank, WRA =>
    Some (λ node _, Some (on_info close node))
  | Rank, PREA =>
    Some (λ node _,
      Some (Dram (info node) (map (λ bg, Dram (info bg) (map (on_info close) (children bg))) (children node))))
  | Rank, REF | Bank, RD | Bank, WR =>
    Some (λ node _, Some node)
  | Rank, PDE =>
    Some (λ node _,
      if forallb (λ bg, forallb (λ bank, bool_decide (state (info bank) = Closed)) (children bg)) (children node)
      then Some (on_info (set_state PrePowerDown) node)
      else Some (on_info (set_state ActPowerDown) node))
  | Rank, PDX | Rank, SRX =>
    Some (λ node _, Some (on_info (set_state PowerUp) node))
  | Rank, SRE =>
    Some (λ node _, Some (on_info (set_state SelfRefresh) node))
  | _, _ => None
  end.

(** ** Timing: the [push_back] calls in source order *)

Definition init_timing (s : SpeedEntry) : list (Level * Command * TimingEntry Command) :=
  [ (Channel, RD, mkTiming RD 1 (nBL s) false);
    (Channel, RD, mkTiming RDA 1 (nBL s) false);
    (Channel, RDA, mkTiming RD 1 (nBL s) false);
    (Channel, RDA, mkTiming RDA 1 (nBL s) false);
    (Channel, WR, mkTiming WR 1 (nBL s) false);
    (Channel, WR, mkTiming WRA 1 (nBL s) false);
    (Channel, WRA, mkTiming WR 1 (nBL s) false);
    (Channel, WRA, mkTiming WRA 1 (nBL s) false);
    (Rank, RD, mkTiming RD 1 (nCCDS s) false);
    (Rank, RD, mkTiming RDA 1 (nCCDS s) false);
    (Rank, RDA, mkTiming RD 1 (nCCDS s) false);
    (Rank, RDA, mkTiming RDA 1 (nCCDS s) false);
    (Rank, WR, mkTiming WR 1 (nCCDS s) false);
    (Rank, WR, mkTiming WRA 1 (nCCDS s) false);
    (Rank, WRA, mkTiming WR 1 (nCCDS s) false);
    (Rank, WRA, mkTiming WRA 1 (nCCDS s) false);
    (Rank, RD, mkTiming WR 1 (nCL s + nCCDS s + 2 - nCWL s) false);
    (Rank, RD, mkTiming WRA 1 (nCL s + nCCDS s + 2 - nCWL s) false);
    (Rank, RDA, mkTiming WR 1 (nCL s + nCCDS s + 2 - nCWL s) false);
    (Rank, RDA, mkTiming WRA 1 (nCL s + nCCDS s + 2 - nCWL s) false);
    (Rank, WR, mkTiming RD 1 (nCWL s + nBL s + nWTRS s) false);
    (Rank, WR, mkTiming RDA 1 (nCWL s + nBL s + nWTRS s) false);
    (Rank, WRA, mkTiming RD 1 (nCWL s + nBL s + nWTRS s) false);
    (Rank, WRA, mkTiming RDA 1 (nCWL s + nBL s + nWTRS s) false);
    (Rank, RD, mkTiming PREA 1 (nRTP s) false);
    (Rank, WR, mkTiming PREA 1 (nCWL s + nBL s + nWR s) false);
    (Rank, RD, mkTiming PDE 1 (nCL s + nBL s + 1) false);
    (Rank, RDA, mkTiming PDE 1 (nCL s + nBL s + 1) false);
    (Rank, WR, mkTiming PDE 1 (nCWL s + nBL s + nWR s) false);
    (Rank, WRA, mkTiming PDE 1 (nCWL s + nBL s + nWR s + 1) false);
    (Rank, PDX, mkTiming RD 1 (nXP s) false);
    (Rank, PDX, mkTiming RDA 1 (nXP s) false);
    (Rank, PDX, mkTiming WR 1 (nXP s) false);
    (Rank, PDX, mkTiming WRA 1 (nXP s) false);
    (Rank, ACT, mkTiming ACT 1 (nRRDS s) false);
    (Rank, ACT, mkTiming ACT 4 (nFAW s) false);
    (Rank, ACT, mkTiming PREA 1 (nRAS s) false);
    (Rank, PREA, mkTiming ACT 1 (nRP s) false);
    (Rank, PRE, mkTiming REF 1 (nRP s) false);
    (Rank, PREA, mkTiming REF 1 (nRP s) false);
    (Rank, REF, mkTiming ACT 1 (nRFC s) false);
    (Rank, ACT, mkTiming PDE 1 1 false);
    (Rank, PDX, mkTiming ACT 1 (nXP s) false);
    (Rank, PDX, mkTiming PRE 1 (nXP s) false);
    (Rank, PDX, mkTiming PREA 1 (nXP s) false);
    (Rank, PRE, mkTiming SRE 1 (nRP s) false);
    (Rank, PREA, mkTiming SRE 1 (nRP s) false);
    (Rank, SRX, mkTiming ACT 1 (nXS s) false);
    (Rank, REF, mkTiming REF 1 (nRFC s) false);
    (Rank, REF, mkTiming PDE 1 1 false);
    (Rank, PDX, mkTiming REF 1 (nXP s) false);
    (Rank, SRX, mkTiming REF 1 (nXS s) false);
    (Rank, PDE, mkTiming PDX 1 (nPD s) false);
    (Rank, PDX, mkTiming PDE 1 (nXP s) false);
    (Rank, PDX, mkTiming SRE 1 (nXP s) false);
    (Rank, SRX, mkTiming PDE 1 (nXS s) false);
    (Rank, SRE, mkTiming SRX 1 (nCKESR s) false);
    (Rank, SRX, mkTiming SRE 1 (nXS s) false);
    (BankGroup, RD, mkTiming RD 1 (nCCDL s) false);
    (BankGroup, RD, mkTiming RDA 1 (nCCDL s) false);
    (BankGroup, RDA, mkTiming RD 1 (nCCDL s) false);
    (BankGroup, RDA, mkTiming RDA 1 (nCCDL s) false);
    (BankGroup, WR, mkTiming WR 1 (nCCDL s) false);
    (BankGroup, WR, mkTiming WRA 1 (nCCDL s) false);
    (BankGroup, WRA, mkTiming WR 1 (nCCDL s) false);
    (BankGroup, WRA, mkTiming WRA 1 (nCCDL s) false);
    (BankGroup, WR, mkTiming RD 1 (nCWL s + nBL s + nWTRL s) false);
    (BankGroup, WR, mkTiming RDA 1 (nCWL s + nBL s + nWTRL s) false);
    (BankGroup, WRA, mkTiming RD 1 (nCWL s + nBL s + nWTRL s) false);
    (BankGroup, WRA, mkTiming RDA 1 (nCWL s + nBL s + nWTRL s) false);
    (BankGroup, ACT, mkTiming ACT 1 (nRRDL s) false);
    (Bank, ACT, mkTiming RD 1 (nRCDR s) false);
    (Bank, ACT, mkTiming RDA 1 (nRCDR s) false);
    (Bank, ACT, mkTiming WR 1 (nRCDW s) false);
    (Bank, ACT, mkTiming WRA 1 (nRCDW s) false);
    (Bank, RD, mkTiming PRE 1 (nRTP s) false);
    (Bank, WR, mkTiming PRE 1 (nCWL s + nBL s + nWR s) false);
    (Bank, RDA, mkTiming ACT 1 (nRTP s + nRP s) false);
    (Bank, WRA, mkTiming ACT 1 (nCWL s + nBL s + nWR s + nRP s) false);
    (Bank, ACT, mkTiming ACT 1 (nRC s) false);
    (Bank, ACT, mkTiming PRE 1 (nRAS s) false);
    (Bank, PRE, mkTiming ACT 1 (nRP s) false);
    (Bank, PRE, mkTiming REFSB 1 (nRP s) false);
    (Bank, REFSB, mkTiming REFSB 1 (nRFC s) false);
    (Bank, REFSB, mkTiming ACT 1 (nRFC s) false) ].

(** ** The standard as an instance of the interfaces *)

(** Members with a default initialiser. *)
Definition prefetch_size : Z := 4.
Definition channel_width : Z := 128.

Definition spec (o : HBM) : Spec Level Command State :=
  {| Dram.level_int := level_int; Dram.level_cast := level_cast; Dram.level_MAX := 6;
     Dram.lvl_Bank := Bank; Dram.lvl_Row := Row; Dram.cmd_MAX := Cmd_MAX; Dram.cmd_PRE := PRE;
     Dram.scope := scope; Dram.start := start; Dram.is_opening := is_opening;
     Dram.is_accessing := is_accessing; Dram.is_closing := is_closing;
     Dram.is_refreshing := is_refreshing; Dram.translate := translate;
     Dram.prereq := prereq; Dram.rowhit := rowhit; Dram.rowopen := rowopen; Dram.lambda := lambda;
     Dram.timing := entries_at (init_timing (speed_entry o));
     Dram.count := count (org_entry o); Dram.nREFI := nREFI (speed_entry o);
     Dram.read_latency := read_latency o; Dram.prefetch_size := prefetch_size;
     Dram.channel_width := channel_width |}.

Definition proto : Proto Level Command State :=
  {| p_power := Rank; p_RD := RD; p_WR := WR; p_ACT := ACT; p_PREA := PREA; p_REF := REF;
     p_PDX := PDX; p_SRX := SRX; p_Opened := Opened; p_Closed := Closed; p_PowerUp := PowerUp;
     p_ActPowerDown := ActPowerDown; p_PrePowerDown := PrePowerDown; p_SelfRefresh := SelfRefresh |}.

Lemma init_timing_check_HBM s : table_check is_refreshing is_opening (init_timing s) = true.
Proof. vm_compute. reflexivity. Qed.

Section Instances.
Variable o : HBM.
Context `{Hcount : !CountOK 6 (count (org_entry o))}.

#[global] Instance spec_TimingOK : TimingOK (spec o).
Proof.
  apply (TimingOK_table _ (init_timing (speed_entry o))); [done|apply init_timing_check_HBM|done|simpl; lia|..].
  - intros k Hk. simpl in Hk. do 6 (destruct k as [|k]; [by eexists|]). lia.
  - intros k l Hl. do 6 (destruct k as [|k]; [by simplify_eq/=|]). done.
  - by intros [] [].
Qed.

#[global] Instance spec_LambdaFrame : LambdaFrame (spec o).
Proof. intros l c f d i d' Hf Hd. destruct l, c; simpl in Hf; simplify_eq; solve_frame. Qed.

#[global] Instance spec_BankProtocol : BankProtocol (spec o) proto.
Proof. split; try apply _; solve_protocol. Qed.

End Instances.

End HBM.

