(* ===== verification/SpecHMC.v ===== *)
(** * HMC ([ramulator/src/HMC.h], [ramulator/src/HMC.cpp])

    The tables of the standard, a vault holds bank groups, which hold the banks.
    The enumerations keep the source's names ([MAX] is [Cmd_MAX] and
    [State_MAX]; the tables are not indexed by it, and their value there stands
    for nothing); an array indexed by an enumeration is a function on it.  The
    member [freq] of a speed entry only scales printed statistics and is left
    out. *)

From S2P Require Import Prelude Double Request Dram DramTiming BankProtocol Standard.

Module HMC.

(** ** Enumerations *)

Inductive Level := Vault | BankGroup | Bank | Row | Column.
Inductive Command :=
  | ACT | PRE | PREA | RD | WR | RDA | WRA | REF | PDE | PDX | SRE | SRX | Cmd_MAX.
Inductive State :=
  | Opened | Closed | PowerUp | ActPowerDown | PrePowerDown | SelfRefresh | State_MAX.
Inductive Org :=
  | HMC_4GB | HMC_8GB | HMC_4GB_bank16 | HMC_4GB_bank32 | HMC_4GB_bank64 | HMC_4GB_bank128
  | HMC_4GB_bank256 | HMC_4GB_va64 | HMC_4GB_va128 | HMC_4GB_va256 | HMC_4GB_va512
  | HMC_4GB_va1024.
Inductive Speed :=
  | HMC_2500 | HMC_2500_unlimit_bandwidth.

#[global] Instance Level_eq_dec : EqDecision Level.
Proof. solve_decision. Defined.
#[global] Instance Command_eq_dec : EqDecision Command.
Proof. solve_decision. Defined.
#[global] Instance State_eq_dec : EqDecision State.
Proof. solve_decision. Defined.
#[global] Instance Org_eq_dec : EqDecision Org.
Proof. solve_decision. Defined.
#[global] Instance Speed_eq_dec : EqDecision Speed.
Proof. solve_decision. Defined.

(** [int(level)] and [Level(i)] *)
Definition level_int (l : Level) : nat :=
  match l with Vault => 0 | BankGroup => 1 | Bank => 2 | Row => 3 | Column => 4 end%nat.
Definition level_cast (i : nat) : option Level :=
  match i with
  | 0 => Some Vault | 1 => Some BankGroup | 2 => Some Bank | 3 => Some Row | 4 => Some Column
  | _ => None
  end%nat.

(** ** Command tables *)

Definition scope (cmd : Command) : Level :=
  match cmd with
  | PREA | REF | PDE | PDX | SRE | SRX => Vault
  | PRE => Bank
  | ACT => Row
  | RD | WR | RDA | WRA => Column
  | Cmd_MAX => Column
  end.

Definition is_opening (cmd : Command) : bool :=
  match cmd with ACT => true | _ => false end.
Definition is_accessing (cmd : Command) : bool :=
  match cmd with RD | WR | RDA | WRA => true | _ => false end.
Definition is_closing (cmd : Command) : bool :=
  match cmd with RDA | WRA | PRE | PREA => true | _ => false end.
Definition is_refreshing (cmd : Command) : bool :=
  match cmd with REF => true | _ => false end.

Definition start (l : Level) : State :=
  match l with Vault => PowerUp | BankGroup => State_MAX | Bank => Closed | Row => Closed | Column => State_MAX end.

(** The initialiser lists five commands; the entries of the remaining request
    types are value-initialised, which is the first command. *)
Definition translate (t : ReqType) : Command :=
  match t with
  | READ => RD | WRITE => WR | REFRESH => REF | POWERDOWN => PDE | SELFREFRESH => SRE
  | EXTENSION | INSTRUCTION | ReqMAX => ACT
  end.

(** ** Organisations and speeds *)

Record OrgEntry := mkOrg { size : Z; dq : Z; count : list Z }.

Definition org_table (o : Org) : OrgEntry :=
  match o with
  | HMC_4GB => mkOrg (Z.shiftl 32 10) 32 [32; 4; 2; Z.shiftl 1 16; Z.shiftl 1 6]
  | HMC_8GB => mkOrg (Z.shiftl 32 10) 32 [32; 8; 2; Z.shiftl 1 16; Z.shiftl 1 6]
  | HMC_4GB_bank16 => mkOrg (Z.shiftl 32 10) 32 [32; 4; 4; Z.shiftl 1 15; Z.shiftl 1 6]
  | HMC_4GB_bank32 => mkOrg (Z.shiftl 32 10) 32 [32; 4; 8; Z.shiftl 1 14; Z.shiftl 1 6]
  | HMC_4GB_bank64 => mkOrg (Z.shiftl 32 10) 32 [32; 4; 16; Z.shiftl 1 13; Z.shiftl 1 6]
  | HMC_4GB_bank128 => mkOrg (Z.shiftl 32 10) 32 [32; 4; 32; Z.shiftl 1 12; Z.shiftl 1 6]
  | HMC_4GB_bank256 => mkOrg (Z.shiftl 32 10) 32 [32; 4; 64; Z.shiftl 1 11; Z.shiftl 1 6]
  | HMC_4GB_va64 => mkOrg (Z.shiftl 32 10) 32 [64; 4; 2; Z.shiftl 1 15; Z.shiftl 1 6]
  | HMC_4GB_va128 => mkOrg (Z.shiftl 32 10) 32 [128; 4; 2; Z.shiftl 1 14; Z.shiftl 1 6]
  | HMC_4GB_va256 => mkOrg (Z.shiftl 32 10) 32 [256; 4; 2; Z.shiftl 1 13; Z.shiftl 1 6]
  | HMC_4GB_va512 => mkOrg (Z.shiftl 32 10) 32 [512; 4; 2; Z.shiftl 1 12; Z.shiftl 1 6]
  | HMC_4GB_va1024 => mkOrg (Z.shiftl 32 10) 32 [1024; 4; 2; Z.shiftl 1 11; Z.shiftl 1 6]
  end.

Record SpeedEntry := mkSpeed {
  rate : Z; nBL : Z; nCCDS : Z; nCCDL : Z; nRTRS : Z; nCL : Z; nRCD : Z; nRP : Z; nCWL : Z;
  nRAS : Z; nRC : Z; nRTP : Z; nWTRS : Z; nWTRL : Z; nWR : Z; nRRDS : Z; nRRDL : Z; nFAW : Z;
  nRFC : Z; nREFI : Z; nPD : Z; nXP : Z; nXPDLL : Z; nCKESR : Z; nXS : Z; nXSDLL : Z
}.

(** rate nBL nCCDS nCCDL nRTRS nCL nRCD nRP nCWL nRAS nRC nRTP nWTRS nWTRL nWR nRRDS nRRDL nFAW
    nRFC nREFI nPD nXP nXPDLL nCKESR nXS nXSDLL *)
Definition speed_table (s : Speed) : SpeedEntry :=
  match s with
  | HMC_2500 =>
    mkSpeed 2500 4 4 6 2 17 17 17 13 34 51 9 3 9 19 7 8 17 200 9750 6 8 0 7 0 0
  | HMC_2500_unlimit_bandwidth =>
    mkSpeed 2500 0 1 1 2 17 17 17 13 34 51 9 3 9 19 7 8 17 200 9750 6 8 0 7 0 0
  end.

Definition org_map : list (string * Org) :=
  [("HMC_4GB"%string, HMC_4GB); ("HMC_8GB"%string, HMC_8GB);
   ("HMC_4GB_bank16"%string, HMC_4GB_bank16); ("HMC_4GB_bank32"%string, HMC_4GB_bank32);
   ("HMC_4GB_bank64"%string, HMC_4GB_bank64); ("HMC_4GB_bank128"%string, HMC_4GB_bank128);
   ("HMC_4GB_bank256"%string, HMC_4GB_bank256); ("HMC_4GB_va64"%string, HMC_4GB_va64);
   ("HMC_4GB_va128"%string, HMC_4GB_va128); ("HMC_4GB_va256"%string, HMC_4GB_va256);
   ("HMC_4GB_va512"%string, HMC_4GB_va512); ("HMC_4GB_va1024"%string, HMC_4GB_va1024)].
Definition speed_map : list (string * Speed) :=
  [("HMC_2500_unlimit_bandwidth"%string, HMC_2500_unlimit_bandwidth)].

(** [MaxBlock], [MaxBlockEntry] and [maxblock_table]; [LinkWidth] and
    [link_width_table]; [LaneSpeed], [lane_speed_table] and the [tCK] column of
    the speed table, which decide how long a packet occupies a link. *)
Inductive MaxBlock := HMC_32B | HMC_64B | HMC_128B | HMC_256B.
Record MaxBlockEntry := mkMaxBlock { max_block_size : Z; flit_num_bits : Z }.
Definition maxblock_table (b : MaxBlock) : MaxBlockEntry :=
  match b with
  | HMC_32B => mkMaxBlock 32 5 | HMC_64B => mkMaxBlock 64 6
  | HMC_128B => mkMaxBlock 128 7 | HMC_256B => mkMaxBlock 256 8
  end.
Inductive LinkWidth := HMC_Full_Width | HMC_Half_Width | HMC_Quarter_Width.
Definition link_width_table (w : LinkWidth) : Z :=
  match w with HMC_Full_Width => 16 | HMC_Half_Width => 8 | HMC_Quarter_Width => 4 end.
Definition maxblock_map : list (string * MaxBlock) :=
  [("HMC_32B"%string, HMC_32B); ("HMC_64B"%string, HMC_64B); ("HMC_128B"%string, HMC_128B);
   ("HMC_256B"%string, HMC_256B)].
Definition linkwidth_map : list (string * LinkWidth) :=
  [("HMC_Full_Width"%string, HMC_Full_Width); ("HMC_Half_Width"%string, HMC_Half_Width);
   ("HMC_Quarter_Width"%string, HMC_Quarter_Width)].

Inductive LaneSpeed := HMC_12_5_Gbps | HMC_15_Gbps | HMC_25_Gbps | HMC_28_Gbps | HMC_30_Gbps.
Definition lane_speed_table (s : LaneSpeed) : double :=
  match s with
  | HMC_12_5_Gbps => d_frac 25 2 | HMC_15_Gbps => d_int 15 | HMC_25_Gbps => d_int 25
  | HMC_28_Gbps => d_int 28 | HMC_30_Gbps => d_int 30
  end.
Definition lanespeed_map : list (string * LaneSpeed) :=
  [("HMC_12.5_Gbps"%string, HMC_12_5_Gbps); ("HMC_15_Gbps"%string, HMC_15_Gbps);
   ("HMC_25_Gbps"%string, HMC_25_Gbps); ("HMC_28_Gbps"%string, HMC_28_Gbps);
   ("HMC_30_Gbps"%string, HMC_30_Gbps)].
Definition tCK_table (s : Speed) : double :=
  match s with HMC_2500 | HMC_2500_unlimit_bandwidth => d_frac 8 10 end.

(** [init_speed] is empty. *)
Definition init_speed (speed_entry : SpeedEntry) : SpeedEntry := speed_entry.

(** Members with a default initialiser. *)
Definition prefetch_size : Z := 8.
Definition channel_width : Z := 32.
Definition max_tags : Z := Z.shiftl 1 11.
Definition bytes_per_flit : Z := 16.

(** The members of the object the constructor sets. *)
Record HMC := mkHMC {
  org_entry : OrgEntry; speed_entry : SpeedEntry; read_latency : Z; maxblock_entry : MaxBlockEntry;
  link_width : Z; lane_speed : double; tCK : double; source_links : Z; payload_flits : Z; burst_count : Z
}.

(** [HMC(Org, Speed, ...)]: [ceil] is applied to a quotient of two [int]s, which
    is already an integer (rounded towards zero). *)
Definition new (org : Org) (speed : Speed) (maxblock : MaxBlock) (linkwidth : LinkWidth)
    (lanespeed : LaneSpeed) (source_links payload_flits : Z) : HMC :=
  let speed_entry := speed_table speed in
  {| org_entry := org_table org;
     speed_entry := init_speed speed_entry;
     read_latency := nCL speed_entry + nBL speed_entry;
     maxblock_entry := maxblock_table maxblock;
     link_width := link_width_table linkwidth;
     lane_speed := lane_speed_table lanespeed;
     tCK := tCK_table speed;
     source_links := source_links;
     payload_flits := payload_flits;
     burst_count := Z.quot payload_flits (Z.quot (Z.quot (prefetch_size * channel_width) 8) bytes_per_flit) |}.
Definition new_str (org_str speed_str maxblock_str linkwidth_str lanespeed_str : string)
    (source_links payload_flits : Z) : HMC :=
  new (map_at HMC_4GB org_map org_str) (map_at HMC_2500 speed_map speed_str)
    (map_at HMC_32B maxblock_map maxblock_str) (map_at HMC_Full_Width linkwidth_map linkwidth_str)
    (map_at HMC_12_5_Gbps lanespeed_map lanespeed_str) source_links payload_flits.

(** ** Prerequisites, row hits and state transitions *)

Definition node : Type := DRAM Level Command State.

Definition prereq (l : Level) (c : Command) : option (node → Command → Z → option Command) :=
  match l, c with
  | Vault, RD | Vault, WR =>
    Some (λ node _ _,
      match state (info node) with
      | PowerUp => Some Cmd_MAX
      | ActPowerDown => Some PDX
      | PrePowerDown => Some PDX
      | SelfRefresh => Some SRX
      | _ => None
      end)
  | Bank, RD | Bank, WR =>
    Some (λ node cmd id,
      match state (info node) with
      | Closed => Some ACT
      | Opened => if decide (is_Some (row_state (info node) !! id)) then Some cmd else Some PRE
      | _ => None
      end)
  | Vault, REF =>
    Some (λ node _ _,
      if forallb (λ bg, forallb (λ bank, bool_decide (state (info bank) = Closed)) (children bg)) (children node)
      then Some REF else Some PREA)
  | Vault, PDE =>
    Some (λ node _ _,
      match state (info node) with
      | PowerUp => Some PDE
      | ActPowerDown => Some PDE
      | PrePowerDown => Some PDE
      | SelfRefresh => Some SRX
      | _ => None
      end)
  | Vault, SRE =>
    Some (λ node _ _,
      match state (info node) with
      | PowerUp => Some SRE
      | ActPowerDown => Some PDX
      | PrePowerDown => Some PDX
      | SelfRefresh => Some SRE
      | _ => None
      end)
  | _, _ => None
  end.

Definition rowhit (l : Level) (c : Command) : option (node → Command → Z → option bool) :=
  match l, c with
  | Bank, RD | Bank, WR =>
    Some (λ node _ id,
      match state (info node) with
      | Closed => Some false
      | Opened => if decide (is_Some (row_state (info node) !! id)) then Some true else Some false
      | _ => None
      end)
  | _, _ => None
  end.

Definition rowopen (l : Level) (c : Command) : option (node → Command → Z → option bool) :=
  match l, c with
  | Bank, RD | Bank, WR =>
    Some (λ node _ _,
      match state (info node) with Closed => Some false | Opened => Some true | _ => None end)
  | _, _ => None
  end.

(** [node->state = State::Closed; node->row_state.clear();] *)
Definition close (n : dram_info Level Command State) : dram_info Level Command State :=
  set_row_state ∅ (set_state Closed n).

Definition lambda (l : Level) (c : Command) : option (node → Z → option node) :=
  match l, c with
  | Bank, ACT =>
    Some (λ node id,
      Some (on_info (λ n, set_row_state (<[id := Opened]> (row_state n)) (set_state Opened n)) node))
  | Bank, PRE | Bank, RDA | Bank, WRA =>
    Some (λ node _, Some (on_info close node))
  | Vault, PREA =>
    Some (λ node _,
      Some (Dram (info node) (map (λ bg, Dram (info bg) (map (on_info close) (children bg))) (children node))))
  | Vault, REF | Bank, RD | Bank, WR =>
    Some (λ node _, Some node)
  | Vault, PDE =>
    Some (λ node _,
      if forallb (λ bg, forallb (λ bank, bool_decide (state (info bank) = Closed)) (children bg)) (children node)
      then Some (on_info (set_state PrePowerDown) node)
      else Some (on_info (set_state ActPowerDown) node))
  | Vault, PDX | Vault, SRX =>
    Some (λ node _, Some (on_info (set_state PowerUp) node))
  | Vault, SRE =>
    Some (λ node _, Some (on_info (set_state SelfRefresh) node))
  | _, _ => None
  end.

(** ** Timing: the [push_back] calls in source order *)

Definition init_timing (s : SpeedEntry) : list (Level * Command * TimingEntry Command) :=
  [ (Vault, RD, mkTiming RD 1 (nBL s) false);
    (Vault, RD, mkTiming RDA 1 (nBL s) false);
    (Vault, RDA, mkTiming RD 1 (nBL s) false);
    (Vault, RDA, mkTiming RDA 1 (nBL s) false);
    (Vault, WR, mkTiming WR 1 (nBL s) false);
    (Vault, WR, mkTiming WRA 1 (nBL s) false);
    (Vault, WRA, mkTiming WR 1 (nBL s) false);
    (Vault, WRA, mkTiming WRA 1 (nBL s) false);
    (Vault, RD, mkTiming RD 1 (nCCDS s) false);
    (Vault, RD, mkTiming RDA 1 (nCCDS s) false);
    (Vault, RDA, mkTiming RD 1 (nCCDS s) false);
    (Vault, RDA, mkTiming RDA 1 (nCCDS s) false);
    (Vault, WR, mkTiming WR 1 (nCCDS s) false);
    (Vault, WR, mkTiming WRA 1 (nCCDS s) false);
    (Vault, WRA, mkTiming WR 1 (nCCDS s) false);
    (Vault, WRA, mkTiming WRA 1 (nCCDS s) false);
    (Vault, RD, mkTiming WR 1 (nCL s + nCCDS s + 2 - nCWL s) false);
    (Vault, RD, mkTiming WRA 1 (nCL s + nCCDS s + 2 - nCWL s) false);
    (Vault, RDA, mkTiming WR 1 (nCL s + nCCDS s + 2 - nCWL s) false);
    (Vault, RDA, mkTiming WRA 1 (nCL s + nCCDS s + 2 - nCWL s) false);
    (Vault, WR, mkTiming RD 1 (nCWL s + nBL s + nWTRS s) false);
    (Vault, WR, mkTiming RDA 1 (nCWL s + nBL s + nWTRS s) false);
    (Vault, WRA, mkTiming RD 1 (nCWL s + nBL s + nWTRS s) false);
    (Vault, WRA, mkTiming RDA 1 (nCWL s + nBL s + nWTRS s) false);
    (Vault, RD, mkTiming PREA 1 (nRTP s) false);
    (Vault, WR, mkTiming PREA 1 (nCWL s + nBL s + nWR s) false);
    (Vault, RD, mkTiming PDE 1 (nCL s + nBL s + 1) false);
    (Vault, RDA, mkTiming PDE 1 (nCL s + nBL s + 1) false);
    (Vault, WR, mkTiming PDE 1 (nCWL s + nBL s + nWR s) false);
    (Vault, WRA, mkTiming PDE 1 (nCWL s + nBL s + nWR s + 1) false);
    (Vault, PDX, mkTiming RD 1 (nXP s) false);
    (Vault, PDX, mkTiming RDA 1 (nXP s) false);
    (Vault, PDX, mkTiming WR 1 (nXP s) false);
    (Vault, PDX, mkTiming WRA 1 (nXP s) false);
    (Vault, ACT, mkTiming ACT 1 (nRRDS s) false);
    (Vault, ACT, mkTiming ACT 4 (nFAW s) false);
    (Vault, ACT, mkTiming PREA 1 (nRAS s) false);
    (Vault, PREA, mkTiming ACT 1 (nRP s) false);
    (Vault, PRE, mkTiming REF 1 (nRP s) false);
    (Vault, PREA, mkTiming REF 1 (nRP s) false);
    (Vault, REF, mkTiming ACT 1 (nRFC s) false);
    (Vault, ACT, mkTiming PDE 1 1 false);
    (Vault, PDX, mkTiming ACT 1 (nXP s) false);
    (Vault, PDX, mkTiming PRE 1 (nXP s) false);
    (Vault, PDX, mkTiming PREA 1 (nXP s) false);
    (Vault, PRE, mkTiming SRE 1 (nRP s) false);
    (Vault, PREA, mkTiming SRE 1 (nRP s) false);
    (Vault, SRX, mkTiming ACT 1 (nXS s) false);
    (Vault, REF, mkTiming REF 1 (nRFC s) false);
    (Vault, REF, mkTiming PDE 1 1 false);
    (Vault, PDX, mkTiming REF 1 (nXP s) false);
    (Vault, SRX, mkTiming REF 1 (nXS s) false);
    (Vault, PDE, mkTiming PDX 1 (nPD s) false);
    (Vault, PDX, mkTiming PDE 1 (nXP s) false);
    (Vault, PDX, mkTiming SRE 1 (nXP s) false);
    (Vault, SRX, mkTiming PDE 1 (nXS s) false);
    (Vault, SRE, mkTiming SRX 1 (nCKESR s) false);
    (Vault, SRX, mkTiming SRE 1 (nXS s) false);
    (BankGroup, RD, mkTiming RD 1 (nCCDL s) false);
    (BankGroup, RD, mkTiming RDA 1 (nCCDL s) false);
    (BankGroup, RDA, mkTiming RD 1 (nCCDL s) false);
    (BankGroup, RDA, mkTiming RDA 1 (nCCDL s) false);
    (BankGroup, WR, mkTiming WR 1 (nCCDL s) false);
    (BankGroup, WR, mkTiming WRA 1 (nCCDL s) false);
    (BankGroup, WRA, mkTiming WR 1 (nCCDL s) false);
    (BankGroup, WRA, mkTiming WRA 1 (nCCDL s) false);
    (BankGroup, WR, mkTiming RD 1 (nCWL s + nBL s + nWTRL s) false);
    (BankGroup, WR, mkTiming RDA 1 (nCWL s + nBL s + nWTRL s) false);
    (BankGroup, WRA, mkTiming RD 1 (nCWL s + nBL s + nWTRL s) false);
    (BankGroup, WRA, mkTiming RDA 1 (nCWL s + nBL s + nWTRL s) false);
    (BankGroup, ACT, mkTiming ACT 1 (nRRDL s) false);
    (Bank, ACT, mkTiming RD 1 (nRCD s) false);
    (Bank, ACT, mkTiming RDA 1 (nRCD s) false);
    (Bank, ACT, mkTiming WR 1 (nRCD s) false);
    (Bank, ACT, mkTiming WRA 1 (nRCD s) false);
    (Bank, RD, mkTiming PRE 1 (nRTP s) false);
    (Bank, WR, mkTiming PRE 1 (nCWL s + nBL s + nWR s) false);
    (Bank, RDA, mkTiming ACT 1 (nRTP s + nRP s) false);
    (Bank, WRA, mkTiming ACT 1 (nCWL s + nBL s + nWR s + nRP s) false);
    (Bank, ACT, mkTiming ACT 1 (nRC s) false);
    (Bank, ACT, mkTiming PRE 1 (nRAS s) false);
    (Bank, PRE, mkTiming ACT 1 (nRP s) false) ].

(** ** The standard as an instance of the interfaces *)

Definition spec (o : HMC) : Spec Level Command State :=
  {| Dram.level_int := level_int; Dram.level_cast := level_cast; Dram.level_MAX := 5;
     Dram.lvl_Bank := Bank; Dram.lvl_Row := Row; Dram.cmd_MAX := Cmd_MAX; Dram.cmd_PRE := PRE;
     Dram.scope := scope; Dram.start := start; Dram.is_opening := is_opening;
     Dram.is_accessing := is_accessing; Dram.is_closing := is_closing;
     Dram.is_refreshing := is_refreshing; Dram.translate := translate;
     Dram.prereq := prereq; Dram.rowhit := rowhit; Dram.rowopen := rowopen; Dram.lambda := lambda;
     Dram.timing := entries_at (init_timing (speed_entry o));
     Dram.count := count (org_entry o); Dram.nREFI := nREFI (speed_entry o);
     Dram.read_latency := read_latency o; Dram.prefetch_size := prefetch_size;
     Dram.channel_width := channel_width |}.

Definition proto : Proto Level Command State :=
  {| p_power := Vault; p_RD := RD; p_WR := WR; p_ACT := ACT; p_PREA := PREA; p_REF := REF;
     p_PDX := PDX; p_SRX := SRX; p_Opened := Opened; p_Closed := Closed; p_PowerUp := PowerUp;
     p_ActPowerDown := ActPowerDown; p_PrePowerDown := PrePowerDown; p_SelfRefresh := SelfRefresh |}.

Lemma init_timing_check_HMC s : table_check is_refreshing is_opening (init_timing s) = true.
Proof. vm_compute. reflexivity. Qed.

Section Instances.
Variable o : HMC.
Context `{Hcount : !CountOK 5 (count (org_entry o))}.

#[global] Instance spec_TimingOK : TimingOK (spec o).
Proof.
  apply (TimingOK_table _ (init_timing (speed_entry o))); [done|apply init_timing_check_HMC|done|simpl; lia|..].
  - intros k Hk. simpl in Hk. do 5 (destruct k as [|k]; [by eexists|]). lia.
  - intros k l Hl. do 5 (destruct k as [|k]; [by simplify_eq/=|]). done.
  - by intros [] [].
Qed.

#[global] Instance spec_LambdaFrame : LambdaFrame (spec o).
Proof. intros l c f d i d' Hf Hd. destruct l, c; simpl in Hf; simplify_eq; solve_frame. Qed.

#[global] Instance spec_BankProtocol : BankProtocol (spec o) proto.
Proof. split; try apply _; solve_protocol. Qed.

End Instances.

End HMC.

