(* ===== verification/SpecLPDDR3.v ===== *)
(** * LPDDR3 ([ramulator/src/LPDDR3.h], [ramulator/src/LPDDR3.cpp])

    The tables of the standard, a rank holds its banks directly.
    The enumerations keep the source's names ([MAX] is [Cmd_MAX] and
    [State_MAX]; the tables are not indexed by it, and their value there stands
    for nothing); an array indexed by an enumeration is a function on it.  The
    floating point members of a speed entry ([freq], [tCK]) only scale printed
    statistics and are left out. *)

From S2P Require Import Prelude Request Dram DramTiming BankProtocol Standard.

Module LPDDR3.

(** ** Enumerations *)

Inductive Level := Channel | Rank | Bank | Row | Column.
Inductive Command :=
  | ACT | PRE | PRA | RD | WR | RDA | WRA | REF | REFPB | PD | PDX | SREF | SREFX | Cmd_MAX.
Inductive State :=
  | Opened | Closed | PowerUp | ActPowerDown | PrePowerDown | SelfRefresh | State_MAX.
Inductive Org :=
  | LPDDR3_4Gb_x16 | LPDDR3_4Gb_x32 | LPDDR3_6Gb_x16 | LPDDR3_6Gb_x32 | LPDDR3_8Gb_x16
  | LPDDR3_8Gb_x32 | LPDDR3_12Gb_x16 | LPDDR3_12Gb_x32 | LPDDR3_16Gb_x16 | LPDDR3_16Gb_x32.
Inductive Speed :=
  | LPDDR3_1333 | LPDDR3_1600 | LPDDR3_1866 | LPDDR3_2133.

#[global] Instance Level_eq_dec : EqDecision Level.
Proof. solve_decision. Defined.
#[global] Instance Command_eq_dec : EqDecision Command.
Proof. solve_decision. Defined.
#[global] Instance State_eq_dec : EqDecision State.
Proof. solve_decision. Defined.
#[global] Instance Org_eq_dec : EqDecision Org.
Proof. solve_decision. Defined.
#[global] Instance Speed_eq_dec : EqDecision Speed.
Proof. solve_decision. Defined.

(** [int(level)] and [Level(i)] *)
Definition level_int (l : Level) : nat :=
  match l with Channel => 0 | Rank => 1 | Bank => 2 | Row => 3 | Column => 4 end%nat.
Definition level_cast (i : nat) : option Level :=
  match i with
  | 0 => Some Channel | 1 => Some Rank | 2 => Some Bank | 3 => Some Row | 4 => Some Column
  | _ => None
  end%nat.

(** ** Command tables *)

Definition scope (cmd : Command) : Level :=
  match cmd with
  | PRA | REF | PD | PDX | SREF | SREFX => Rank
  | PRE | REFPB => Bank
  | ACT => Row
  | RD | WR | RDA | WRA => Column
  | Cmd_MAX => Column
  end.

Definition is_opening (cmd : Command) : bool :=
  match cmd with ACT => true | _ => false end.
Definition is_accessing (cmd : Command) : bool :=
  match cmd with RD | WR | RDA | WRA => true | _ => false end.
Definition is_closing (cmd : Command) : bool :=
  match cmd with RDA | WRA | PRE | PRA => true | _ => false end.
Definition is_refreshing (cmd : Command) : bool :=
  match cmd with REF | REFPB => true | _ => false end.

Definition start (l : Level) : State :=
  match l with Channel => State_MAX | Rank => PowerUp | Bank => Closed | Row => Closed | Column => State_MAX end.

(** The initialiser lists five commands; the entries of the remaining request
    types are value-initialised, which is the first command. *)
Definition translate (t : ReqType) : Command :=
  match t with
  | READ => RD | WRITE => WR | REFRESH => REF | POWERDOWN => PD | SELFREFRESH => SREF
  | EXTENSION | INSTRUCTION | ReqMAX => ACT
  end.

(** ** Organisations and speeds *)

Record OrgEntry := mkOrg { size : Z; dq : Z; count : list Z }.

Definition org_table (o : Org) : OrgEntry :=
  match o with
  | LPDDR3_4Gb_x16 => mkOrg (Z.shiftl 4 10) 16 [0; 0; 8; Z.shiftl 1 14; Z.shiftl 1 11]
  | LPDDR3_4Gb_x32 => mkOrg (Z.shiftl 4 10) 32 [0; 0; 8; Z.shiftl 1 14; Z.shiftl 1 10]
  | LPDDR3_6Gb_x16 => mkOrg (Z.shiftl 6 10) 16 [0; 0; 8; Z.shiftl 3 13; Z.shiftl 1 11]
  | LPDDR3_6Gb_x32 => mkOrg (Z.shiftl 6 10) 32 [0; 0; 8; Z.shiftl 3 13; Z.shiftl 1 10]
  | LPDDR3_8Gb_x16 => mkOrg (Z.shiftl 8 10) 16 [0; 0; 8; Z.shiftl 1 15; Z.shiftl 1 11]
  | LPDDR3_8Gb_x32 => mkOrg (Z.shiftl 8 10) 32 [0; 0; 8; Z.shiftl 1 15; Z.shiftl 1 10]
  | LPDDR3_12Gb_x16 => mkOrg (Z.shiftl 12 10) 16 [0; 0; 8; Z.shiftl 3 13; Z.shiftl 1 12]
  | LPDDR3_12Gb_x32 => mkOrg (Z.shiftl 12 10) 32 [0; 0; 8; Z.shiftl 3 13; Z.shiftl 1 11]
  | LPDDR3_16Gb_x16 => mkOrg (Z.shiftl 16 10) 16 [0; 0; 8; Z.shiftl 1 15; Z.shiftl 1 12]
  | LPDDR3_16Gb_x32 => mkOrg (Z.shiftl 16 10) 32 [0; 0; 8; Z.shiftl 1 15; Z.shiftl 1 11]
  end.

Record SpeedEntry := mkSpeed {
  rate : Z; nBL : Z; nCCD : Z; nRTRS : Z; nDQSCK : Z; nCL : Z; nRCD : Z; nRPpb : Z; nRPab : Z;
  nCWL : Z; nRAS : Z; nRC : Z; nRTP : Z; nWTR : Z; nWR : Z; nRRD : Z; nFAW : Z; nRFCab : Z;
  nRFCpb : Z; nREFI : Z; nCKE : Z; nXP : Z; nCKESR : Z; nXSR : Z
}.

(** rate nBL nCCD nRTRS nDQSCK nCL nRCD nRPpb nRPab nCWL nRAS nRC nRTP nWTR nWR nRRD nFAW nRFCab
    nRFCpb nREFI nCKE nXP nCKESR nXSR *)
Definition speed_table (s : Speed) : SpeedEntry :=
  match s with
  | LPDDR3_1333 =>
    mkSpeed 1333 4 4 2 2 10 12 12 14 6 28 40 5 5 10 7 34 0 0 2600 5 5 10 0
  | LPDDR3_1600 =>
    mkSpeed 1600 4 4 2 2 12 15 15 17 6 34 48 6 6 12 8 40 0 0 3120 6 6 12 0
  | LPDDR3_1866 =>
    mkSpeed 1866 4 4 2 3 14 17 17 20 8 40 56 7 7 14 10 47 0 0 3640 7 7 14 0
  | LPDDR3_2133 =>
    mkSpeed 2133 4 4 2 3 16 20 20 23 8 45 64 8 8 16 11 54 0 0 4160 8 8 16 0
  end.

Definition org_map : list (string * Org) :=
  [("LPDDR3_4Gb_x16"%string, LPDDR3_4Gb_x16); ("LPDDR3_4Gb_x32"%string, LPDDR3_4Gb_x32);
   ("LPDDR3_6Gb_x16"%string, LPDDR3_6Gb_x16); ("LPDDR3_6Gb_x32"%string, LPDDR3_6Gb_x32);
   ("LPDDR3_8Gb_x16"%string, LPDDR3_8Gb_x16); ("LPDDR3_8Gb_x32"%string, LPDDR3_8Gb_x32);
   ("LPDDR3_12Gb_x16"%string, LPDDR3_12Gb_x16); ("LPDDR3_12Gb_x32"%string, LPDDR3_12Gb_x32);
   ("LPDDR3_16Gb_x16"%string, LPDDR3_16Gb_x16); ("LPDDR3_16Gb_x32"%string, LPDDR3_16Gb_x32)].
Definition speed_map : list (string * Speed) :=
  [("LPDDR3_1333"%string, LPDDR3_1333); ("LPDDR3_1600"%string, LPDDR3_1600);
   ("LPDDR3_1866"%string, LPDDR3_1866); ("LPDDR3_2133"%string, LPDDR3_2133)].

Definition set_nRFCpb (x : Z) (s : SpeedEntry) : SpeedEntry :=
  mkSpeed (rate s) (nBL s) (nCCD s) (nRTRS s) (nDQSCK s) (nCL s) (nRCD s) (nRPpb s) (nRPab s) (nCWL s)
    (nRAS s) (nRC s) (nRTP s) (nWTR s) (nWR s) (nRRD s) (nFAW s) (nRFCab s) x (nREFI s) (nCKE s)
    (nXP s) (nCKESR s) (nXSR s).
Definition set_nRFCab (x : Z) (s : SpeedEntry) : SpeedEntry :=
  mkSpeed (rate s) (nBL s) (nCCD s) (nRTRS s) (nDQSCK s) (nCL s) (nRCD s) (nRPpb s) (nRPab s) (nCWL s)
    (nRAS s) (nRC s) (nRTP s) (nWTR s) (nWR s) (nRRD s) (nFAW s) x (nRFCpb s) (nREFI s) (nCKE s)
    (nXP s) (nCKESR s) (nXSR s).
Definition set_nXSR (x : Z) (s : SpeedEntry) : SpeedEntry :=
  mkSpeed (rate s) (nBL s) (nCCD s) (nRTRS s) (nDQSCK s) (nCL s) (nRCD s) (nRPpb s) (nRPab s) (nCWL s)
    (nRAS s) (nRC s) (nRTP s) (nWTR s) (nWR s) (nRRD s) (nFAW s) (nRFCab s) (nRFCpb s) (nREFI s)
    (nCKE s) (nXP s) (nCKESR s) x.

(** [init_speed] *)
Definition init_speed (org_entry : OrgEntry) (speed_entry : SpeedEntry) : option SpeedEntry :=
  let RFCPB_TABLE := [[40; 48; 56; 64];
    [60; 72; 84; 96];
    [60; 72; 84; 96]] in
  let RFCAB_TABLE := [[87; 104; 122; 139];
    [140; 168; 196; 224];
    [140; 168; 196; 224]] in
  let XSR_TABLE := [[94; 112; 131; 150];
    [147; 176; 206; 235];
    [147; 176; 206; 235]] in
  speed ←
    match rate speed_entry with
    | 1333 => Some 0 | 1600 => Some 1 | 1866 => Some 2 | 2133 => Some 3
    | _ => None
    end;
  density ←
    match Z.shiftr (size org_entry) 10 with
    | 4 => Some 0 | 6 => Some 1 | 8 => Some 2
    | _ => None
    end;
  rfcpb ← table_at RFCPB_TABLE density speed;
  rfcab ← table_at RFCAB_TABLE density speed;
  xsr ← table_at XSR_TABLE density speed;
  Some (set_nXSR xsr (set_nRFCab rfcab (set_nRFCpb rfcpb speed_entry))).

(** The members of the object the constructor sets. *)
Record LPDDR3 := mkLPDDR3 { org_entry : OrgEntry; speed_entry : SpeedEntry; read_latency : Z }.

(** [LPDDR3(Org, Speed)] and [LPDDR3(string, string)] *)
Definition new (org : Org) (speed : Speed) : option LPDDR3 :=
  let org_entry := org_table org in
  let speed_entry := speed_table speed in
  let read_latency := nCL speed_entry + nDQSCK speed_entry + nBL speed_entry in
  speed_entry ← init_speed org_entry speed_entry;
  Some (mkLPDDR3 org_entry speed_entry read_latency).
Definition new_str (org_str speed_str : string) : option LPDDR3 :=
  new (map_at LPDDR3_4Gb_x16 org_map org_str) (map_at LPDDR3_1333 speed_map speed_str).

(** [org_entry.count[int(l)] = x] *)
Definition set_count (l : Level) (x : Z) (o : LPDDR3) : LPDDR3 :=
  let e := org_entry o in
  mkLPDDR3 (mkOrg (size e) (dq e) (<[level_int l := x]> (count e))) (speed_entry o) (read_latency o).
Definition set_channel_number (channel : Z) (o : LPDDR3) : LPDDR3 := set_count Channel channel o.
Definition set_rank_number (rank : Z) (o : LPDDR3) : LPDDR3 := set_count Rank rank o.

(** ** Prerequisites, row hits and state transitions *)

Definition node : Type := DRAM Level Command State.

Definition prereq (l : Level) (c : Command) : option (node → Command → Z → option Command) :=
  match l, c with
  | Rank, RD | Rank, WR =>
    Some (λ node _ _,
      match state (info node) with
      | PowerUp => Some Cmd_MAX
      | ActPowerDown => Some PDX
      | PrePowerDown => Some PDX
      | SelfRefresh => Some SREFX
      | _ => None
      end)
  | Bank, RD | Bank, WR =>
    Some (λ node cmd id,
      match state (info node) with
      | Closed => Some ACT
      | Opened => if decide (is_Some (row_state (info node) !! id)) then Some cmd else Some PRE
      | _ => None
      end)
  | Rank, REF =>
    Some (λ node _ _,
      if forallb (λ bank, bool_decide (state (info bank) = Closed)) (children node)
      then Some REF else Some PRA)
  | Bank, REFPB =>
    Some (λ node _ _, if decide (state (info node) = Closed) then Some REFPB else Some PRE)
  | Rank, PD =>
    Some (λ node _ _,
      match state (info node) with
      | PowerUp => Some PD
      | ActPowerDown => Some PD
      | PrePowerDown => Some PD
      | SelfRefresh => Some SREFX
      | _ => None
      end)
  | Rank, SREF =>
    Some (λ node _ _,
      match state (info node) with
      | PowerUp => Some SREF
      | ActPowerDown => Some PDX
      | PrePowerDown => Some PDX
      | SelfRefresh => Some SREF
      | _ => None
      end)
  | _, _ => None
  end.

Definition rowhit (l : Level) (c : Command) : option (node → Command → Z → option bool) :=
  match l, c with
  | Bank, RD | Bank, WR =>
    Some (λ node _ id,
      match state (info node) with
      | Closed => Some false
      | Opened => if decide (is_Some (row_state (info node) !! id)) then Some true else Some false
      | _ => None
      end)
  | _, _ => None
  end.

Definition rowopen (l : Level) (c : Command) : option (node → Command → Z → option bool) :=
  match l, c with
  | Bank, RD | Bank, WR =>
    Some (λ node _ _,
      match state (info node) with Closed => Some false | Opened => Some true | _ => None end)
  | _, _ => None
  end.

(** [node->state = State::Closed; node->row_state.clear();] *)
Definition close (n : dram_info Level Command State) : dram_info Level Command State :=
  set_row_state ∅ (set_state Closed n).

Definition lambda (l : Level) (c : Command) : option (node → Z → option node) :=
  match l, c with
  | Bank, ACT =>
    Some (λ node id,
      Some (on_info (λ n, set_row_state (<[id := Opened]> (row_state n)) (set_state Opened n)) node))
  | Bank, PRE | Bank, RDA | Bank, WRA =>
    Some (λ node _, Some (on_info close node))
  | Rank, PRA =>
    Some (λ node _, Some (Dram (info node) (map (on_info close) (children node))))
  | Rank, REF | Bank, RD | Bank, WR =>
    Some (λ node _, Some node)
  | Rank, PD =>
    Some (λ node _,
      if forallb (λ bank, bool_decide (state (info bank) = Closed)) (children node)
      then Some (on_info (set_state PrePowerDown) node)
      else Some (on_info (set_state ActPowerDown) node))
  | Rank, PDX | Rank, SREFX =>
    Some (λ node _, Some (on_info (set_state PowerUp) node))
  | Rank, SREF =>
    Some (λ node _, Some (on_info (set_state SelfRefresh) node))
  | _, _ => None
  end.

(** ** Timing: the [push_back] calls in source order *)

Definition init_timing (s : SpeedEntry) : list (Level * Command * TimingEntry Command) :=
  [ (Channel, RD, mkTiming RD 1 (nBL s) false);
    (Channel, RD, mkTiming RDA 1 (nBL s) false);
    (Channel, RDA, mkTiming RD 1 (nBL s) false);
    (Channel, RDA, mkTiming RDA 1 (nBL s) false);
    (Channel, WR, mkTiming WR 1 (nBL s) false);
    (Channel, WR, mkTiming WRA 1 (nBL s) false);
    (Channel, WRA, mkTiming WR 1 (nBL s) false);
    (Channel, WRA, mkTiming WRA 1 (nBL s) false);
    (Rank, RD, mkTiming RD 1 (nCCD s) false);
    (Rank, RD, mkTiming RDA 1 (nCCD s) false);
    (Rank, RDA, mkTiming RD 1 (nCCD s) false);
    (Rank, RDA, mkTiming RDA 1 (nCCD s) false);
    (Rank, WR, mkTiming WR 1 (nCCD s) false);
    (Rank, WR, mkTiming WRA 1 (nCCD s) false);
    (Rank, WRA, mkTiming WR 1 (nCCD s) false);
    (Rank, WRA, mkTiming WRA 1 (nCCD s) false);
    (Rank, RD, mkTiming WR 1 (nCL s + nBL s + nDQSCK s + 1 - nCWL s) false);
    (Rank, RD, mkTiming WRA 1 (nCL s + nBL s + nDQSCK s + 1 - nCWL s) false);
    (Rank, RDA, mkTiming WR 1 (nCL s + nBL s + nDQSCK s + 1 - nCWL s) false);
    (Rank, RDA, mkTiming WRA 1 (nCL s + nBL s + nDQSCK s + 1 - nCWL s) false);
    (Rank, WR, mkTiming RD 1 (nCWL s + nBL s + nWTR s + 1) false);
    (Rank, WR, mkTiming RDA 1 (nCWL s + nBL s + nWTR s + 1) false);
    (Rank, WRA, mkTiming RD 1 (nCWL s + nBL s + nWTR s + 1) false);
    (Rank, WRA, mkTiming RDA 1 (nCWL s + nBL s + nWTR s + 1) false);
    (Rank, RD, mkTiming RD 1 (nBL s + nRTRS s) true);
    (Rank, RD, mkTiming RDA 1 (nBL s + nRTRS s) true);
    (Rank, RDA, mkTiming RD 1 (nBL s + nRTRS s) true);
    (Rank, RDA, mkTiming RDA 1 (nBL s + nRTRS s) true);
    (Rank, RD, mkTiming WR 1 (nBL s + nRTRS s) true);
    (Rank, RD, mkTiming WRA 1 (nBL s + nRTRS s) true);
    (Rank, RDA, mkTiming WR 1 (nBL s + nRTRS s) true);
    (Rank, RDA, mkTiming WRA 1 (nBL s + nRTRS s) true);
    (Rank, RD, mkTiming WR 1 (nCL s + nBL s + nDQSCK s + 1 + nRTRS s - nCWL s) true);
    (Rank, RD, mkTiming WRA 1 (nCL s + nBL s + nDQSCK s + 1 + nRTRS s - nCWL s) true);
    (Rank, RDA, mkTiming WR 1 (nCL s + nBL s + nDQSCK s + 1 + nRTRS s - nCWL s) true);
    (Rank, RDA, mkTiming WRA 1 (nCL s + nBL s + nDQSCK s + 1 + nRTRS s - nCWL s) true);
    (Rank, WR, mkTiming RD 1 (nCWL s + nBL s + nRTRS s - nCL s) true);
    (Rank, WR, mkTiming RDA 1 (nCWL s + nBL s + nRTRS s - nCL s) true);
    (Rank, WRA, mkTiming RD 1 (nCWL s + nBL s + nRTRS s - nCL s) true);
    (Rank, WRA, mkTiming RDA 1 (nCWL s + nBL s + nRTRS s - nCL s) true);
    (Rank, RD, mkTiming PRA 1 (nRTP s) false);
    (Rank, WR, mkTiming PRA 1 (nCWL s + nBL s + nWR s) false);
    (Rank, RD, mkTiming PD 1 (nCL s + nBL s + 1) false);
    (Rank, RDA, mkTiming PD 1 (nCL s + nBL s + 1) false);
    (Rank, WR, mkTiming PD 1 (nCWL s + nBL s + nWR s) false);
    (Rank, WRA, mkTiming PD 1 (nCWL s + nBL s + nWR s + 1) false);
    (Rank, PDX, mkTiming RD 1 (nXP s) false);
    (Rank, PDX, mkTiming RDA 1 (nXP s) false);
    (Rank, PDX, mkTiming WR 1 (nXP s) false);
    (Rank, PDX, mkTiming WRA 1 (nXP s) false);
    (Rank, ACT, mkTiming ACT 1 (nRRD s) false);
    (Rank, ACT, mkTiming ACT 4 (nFAW s) false);
    (Rank, ACT, mkTiming PRA 1 (nRAS s) false);
    (Rank, PRA, mkTiming ACT 1 (nRPab s) false);
    (Rank, PRE, mkTiming REF 1 (nRPpb s) false);
    (Rank, PRA, mkTiming REF 1 (nRPab s) false);
    (Rank, REF, mkTiming ACT 1 (nRFCab s) false);
    (Rank, ACT, mkTiming PD 1 1 false);
    (Rank, PDX, mkTiming ACT 1 (nXP s) false);
    (Rank, PDX, mkTiming PRE 1 (nXP s) false);
    (Rank, PDX, mkTiming PRA 1 (nXP s) false);
    (Rank, PRE, mkTiming SREF 1 (nRPpb s) false);
    (Rank, PRA, mkTiming SREF 1 (nRPab s) false);
    (Rank, SREFX, mkTiming ACT 1 (nXSR s) false);
    (Rank, REF, mkTiming REF 1 (nRFCab s) false);
    (Rank, REF, mkTiming REFPB 1 (nRFCab s) false);
    (Rank, REFPB, mkTiming REF 1 (nRFCpb s) false);
    (Rank, REF, mkTiming PD 1 1 false);
    (Rank, REFPB, mkTiming PD 1 1 false);
    (Rank, PDX, mkTiming REF 1 (nXP s) false);
    (Rank, PDX, mkTiming REFPB 1 (nXP s) false);
    (Rank, SREFX, mkTiming REF 1 (nXSR s) false);
    (Rank, SREFX, mkTiming REFPB 1 (nXSR s) false);
    (Rank, PD, mkTiming PDX 1 (nCKE s) false);
    (Rank, PDX, mkTiming PD 1 (nXP s) false);
    (Rank, PDX, mkTiming SREF 1 (nXP s) false);
    (Rank, SREFX, mkTiming PD 1 (nXSR s) false);
    (Rank, SREF, mkTiming SREFX 1 (nCKESR s) false);
    (Rank, SREFX, mkTiming SREF 1 (nXSR s) false);
    (Bank, ACT, mkTiming RD 1 (nRCD s) false);
    (Bank, ACT, mkTiming RDA 1 (nRCD s) false);
    (Bank, ACT, mkTiming WR 1 (nRCD s) false);
    (Bank, ACT, mkTiming WRA 1 (nRCD s) false);
    (Bank, RD, mkTiming PRE 1 (nRTP s) false);
    (Bank, WR, mkTiming PRE 1 (nCWL s + nBL s + nWR s) false);
    (Bank, RDA, mkTiming ACT 1 (nRTP s + nRPpb s) false);
    (Bank, WRA, mkTiming ACT 1 (nCWL s + nBL s + nWR s + nRPpb s) false);
    (Bank, ACT, mkTiming ACT 1 (nRC s) false);
    (Bank, ACT, mkTiming PRE 1 (nRAS s) false);
    (Bank, PRE, mkTiming ACT 1 (nRPpb s) false);
    (Bank, PRE, mkTiming REFPB 1 (nRPpb s) false);
    (Bank, ACT, mkTiming REFPB 1 (nRRD s) true);
    (Bank, REFPB, mkTiming ACT 1 (nRRD s) true);
    (Bank, REFPB, mkTiming REFPB 1 (nRFCpb s) false);
    (Bank, REFPB, mkTiming ACT 1 (nRFCpb s) false) ].

(** ** The standard as an instance of the interfaces *)

(** Members with a default initialiser. *)
Definition prefetch_size : Z := 8.
Definition channel_width : Z := 64.

Definition spec (o : LPDDR3) : Spec Level Command State :=
  {| Dram.level_int := level_int; Dram.level_cast := level_cast; Dram.level_MAX := 5;
     Dram.lvl_Bank := Bank; Dram.lvl_Row := Row; Dram.cmd_MAX := Cmd_MAX; Dram.cmd_PRE := PRE;
     Dram.scope := scope; Dram.start := start; Dram.is_opening := is_opening;
     Dram.is_accessing := is_accessing; Dram.is_closing := is_closing;
     Dram.is_refreshing := is_refreshing; Dram.translate := translate;
     Dram.prereq := prereq; Dram.rowhit := rowhit; Dram.rowopen := rowopen; Dram.lambda := lambda;
     Dram.timing := entries_at (init_timing (speed_entry o));
     Dram.count := count (org_entry o); Dram.nREFI := nREFI (speed_entry o);
     Dram.read_latency := read_latency o; Dram.prefetch_size := prefetch_size;
     Dram.channel_width := channel_width |}.

Definition proto : Proto Level Command State :=
  {| p_power := Rank; p_RD := RD; p_WR := WR; p_ACT := ACT; p_PREA := PRA; p_REF := REF;
     p_PDX := PDX; p_SRX := SREFX; p_Opened := Opened; p_Closed := Closed; p_PowerUp := PowerUp;
     p_ActPowerDown := ActPowerDown; p_PrePowerDown := PrePowerDown; p_SelfRefresh := SelfRefresh |}.

Lemma init_timing_check_LPDDR3 s : table_check is_refreshing is_opening (init_timing s) = true.
Proof. vm_compute. reflexivity. Qed.

Section Instances.
Variable o : LPDDR3.
Context `{Hcount : !CountOK 5 (count (org_entry o))}.

#[global] Instance spec_TimingOK : TimingOK (spec o).
Proof.
  apply (TimingOK_table _ (init_timing (speed_entry o))); [done|apply init_timing_check_LPDDR3|done|simpl; lia|..].
  - intros k Hk. simpl in Hk. do 5 (destruct k as [|k]; [by eexists|]). lia.
  - intros k l Hl. do 5 (destruct k as [|k]; [by simplify_eq/=|]). done.
  - by intros [] [].
Qed.

#[global] Instance spec_LambdaFrame : LambdaFrame (spec o).
Proof. intros l c f d i d' Hf Hd. destruct l, c; simpl in Hf; simplify_eq; solve_frame. Qed.

#[global] Instance spec_BankProtocol : BankProtocol (spec o) proto.
Proof. split; try apply _; solve_protocol. Qed.

End Instances.

End LPDDR3.

