(* ===== verification/SpecLPDDR4.v ===== *)
(** * LPDDR4 ([ramulator/src/LPDDR4.h], [ramulator/src/LPDDR4.cpp])

    The tables of the standard, a rank holds its banks directly.
    The enumerations keep the source's names ([MAX] is [Cmd_MAX] and
    [State_MAX]; the tables are not indexed by it, and their value there stands
    for nothing); an array indexed by an enumeration is a function on it.  The
    floating point members of a speed entry ([freq], [tCK]) only scale printed
    statistics and are left out. *)

From S2P Require Import Prelude Request Dram DramTiming BankProtocol Standard.

Module LPDDR4.

(** ** Enumerations *)

Inductive Level := Channel | Rank | Bank | Row | Column.
Inductive Command :=
  | ACT | PRE | PREA | RD | WR | RDA | WRA | REF | REFPB | PDE | PDX | SREF | SREFX | Cmd_MAX.
Inductive State :=
  | Opened | Closed | PowerUp | ActPowerDown | PrePowerDown | SelfRefresh | State_MAX.
Inductive Org :=
  | LPDDR4_4Gb_x16 | LPDDR4_6Gb_x16 | LPDDR4_8Gb_x16.
Inductive Speed :=
  | LPDDR4_1600 | LPDDR4_2400 | LPDDR4_3200.

#[global] Instance Level_eq_dec : EqDecision Level.
Proof. solve_decision. Defined.
#[global] Instance Command_eq_dec : EqDecision Command.
Proof. solve_decision. Defined.
#[global] Instance State_eq_dec : EqDecision State.
Proof. solve_decision. Defined.
#[global] Instance Org_eq_dec : EqDecision Org.
Proof. solve_decision. Defined.
#[global] Instance Speed_eq_dec : EqDecision Speed.
Proof. solve_decision. Defined.

(** [int(level)] and [Level(i)] *)
Definition level_int (l : Level) : nat :=
  match l with Channel => 0 | Rank => 1 | Bank => 2 | Row => 3 | Column => 4 end%nat.
Definition level_cast (i : nat) : option Level :=
  match i with
  | 0 => Some Channel | 1 => Some Rank | 2 => Some Bank | 3 => Some Row | 4 => Some Column
  | _ => None
  end%nat.

(** ** Command tables *)

Definition scope (cmd : Command) : Level :=
  match cmd with
  | PREA | REF | PDE | PDX | SREF | SREFX => Rank
  | PRE | REFPB => Bank
  | ACT => Row
  | RD | WR | RDA | WRA => Column
  | Cmd_MAX => Column
  end.

Definition is_opening (cmd : Command) : bool :=
  match cmd with ACT => true | _ => false end.
Definition is_accessing (cmd : Command) : bool :=
  match cmd with RD | WR | RDA | WRA => true | _ => false end.
Definition is_closing (cmd : Command) : bool :=
  match cmd with RDA | WRA | PRE | PREA => true | _ => false end.
Definition is_refreshing (cmd : Command) : bool :=
  match cmd with REF | REFPB => true | _ => false end.

Definition start (l : Level) : State :=
  match l with Channel => State_MAX | Rank => PowerUp | Bank => Closed | Row => Closed | Column => State_MAX end.

(** The initialiser lists five commands; the entries of the remaining request
    types are value-initialised, which is the first command. *)
Definition translate (t : ReqType) : Command :=
  match t with
  | READ => RD | WRITE => WR | REFRESH => REF | POWERDOWN => PDE | SELFREFRESH => SREF
  | EXTENSION | INSTRUCTION | ReqMAX => ACT
  end.

(** ** Organisations and speeds *)

Record OrgEntry := mkOrg { size : Z; dq : Z; count : list Z }.

Definition org_table (o : Org) : OrgEntry :=
  match o with
  | LPDDR4_4Gb_x16 => mkOrg (Z.shiftl 2 10) 16 [0; 0; 8; Z.shiftl 1 14; Z.shiftl 1 10]
  | LPDDR4_6Gb_x16 => mkOrg (Z.shiftl 3 10) 16 [0; 0; 8; Z.shiftl 3 13; Z.shiftl 1 10]
  | LPDDR4_8Gb_x16 => mkOrg (Z.shiftl 4 10) 16 [0; 0; 8; Z.shiftl 1 15; Z.shiftl 1 10]
  end.

Record SpeedEntry := mkSpeed {
  rate : Z; nBL : Z; nCCD : Z; nRTRS : Z; nDQSCK : Z; nCL : Z; nRCD : Z; nRPpb : Z; nRPab : Z;
  nCWL : Z; nRAS : Z; nRC : Z; nRTP : Z; nWTR : Z; nWR : Z; nPPD : Z; nRRD : Z; nFAW : Z;
  nRFCab : Z; nRFCpb : Z; nREFI : Z; nCKE : Z; nXP : Z; nSR : Z; nXSR : Z
}.

(** rate nBL nCCD nRTRS nDQSCK nCL nRCD nRPpb nRPab nCWL nRAS nRC nRTP nWTR nWR nPPD nRRD nFAW
    nRFCab nRFCpb nREFI nCKE nXP nSR nXSR *)
Definition speed_table (s : Speed) : SpeedEntry :=
  match s with
  | LPDDR4_1600 =>
    mkSpeed 1600 8 8 2 1 (15 + 3) 15 (15 - 2) (17 - 2) (8 + 3) 34 47 (8 + 2) 8 (15 - 1) 4 8 32 0 0 0 0 6 12 0
  | LPDDR4_2400 =>
    mkSpeed 2400 8 8 2 2 (22 + 3) 22 (22 - 2) (26 - 2) (11 + 3) 51 71 (9 + 2) 12 (22 - 1) 4 12 48 0 0 0 0 9 18 0
  | LPDDR4_3200 =>
    mkSpeed 3200 8 8 2 3 (29 + 3) 29 (29 - 2) (34 - 2) (15 + 3) 68 95 (12 + 2) 16 (29 - 1) 4 16 64 0 0 0 0 12 24 0
  end.

Definition org_map : list (string * Org) :=
  [("LPDDR4_4Gb_x16"%string, LPDDR4_4Gb_x16); ("LPDDR4_6Gb_x16"%string, LPDDR4_6Gb_x16);
   ("LPDDR4_8Gb_x16"%string, LPDDR4_8Gb_x16)].
Definition speed_map : list (string * Speed) :=
  [("LPDDR4_1600"%string, LPDDR4_1600); ("LPDDR4_2400"%string, LPDDR4_2400);
   ("LPDDR4_3200"%string, LPDDR4_3200)].

Definition set_nRFCpb (x : Z) (s : SpeedEntry) : SpeedEntry :=
  mkSpeed (rate s) (nBL s) (nCCD s) (nRTRS s) (nDQSCK s) (nCL s) (nRCD s) (nRPpb s) (nRPab s) (nCWL s)
    (nRAS s) (nRC s) (nRTP s) (nWTR s) (nWR s) (nPPD s) (nRRD s) (nFAW s) (nRFCab s) x (nREFI s)
    (nCKE s) (nXP s) (nSR s) (nXSR s).
Definition set_nRFCab (x : Z) (s : SpeedEntry) : SpeedEntry :=
  mkSpeed (rate s) (nBL s) (nCCD s) (nRTRS s) (nDQSCK s) (nCL s) (nRCD s) (nRPpb s) (nRPab s) (nCWL s)
    (nRAS s) (nRC s) (nRTP s) (nWTR s) (nWR s) (nPPD s) (nRRD s) (nFAW s) x (nRFCpb s) (nREFI s)
    (nCKE s) (nXP s) (nSR s) (nXSR s).
Definition set_nREFI (x : Z) (s : SpeedEntry) : SpeedEntry :=
  mkSpeed (rate s) (nBL s) (nCCD s) (nRTRS s) (nDQSCK s) (nCL s) (nRCD s) (nRPpb s) (nRPab s) (nCWL s)
    (nRAS s) (nRC s) (nRTP s) (nWTR s) (nWR s) (nPPD s) (nRRD s) (nFAW s) (nRFCab s) (nRFCpb s)
    x (nCKE s) (nXP s) (nSR s) (nXSR s).
Definition set_nXSR (x : Z) (s : SpeedEntry) : SpeedEntry :=
  mkSpeed (rate s) (nBL s) (nCCD s) (nRTRS s) (nDQSCK s) (nCL s) (nRCD s) (nRPpb s) (nRPab s) (nCWL s)
    (nRAS s) (nRC s) (nRTP s) (nWTR s) (nWR s) (nPPD s) (nRRD s) (nFAW s) (nRFCab s) (nRFCpb s)
    (nREFI s) (nCKE s) (nXP s) (nSR s) x.

(** [RefreshMode]; the member keeps its initial value [Refresh_1X]. *)
Inductive RefreshMode := Refresh_1X | Refresh_2X | Refresh_4X.
Definition refresh_int (m : RefreshMode) : Z :=
  match m with Refresh_1X => 0 | Refresh_2X => 1 | Refresh_4X => 2 end.
Definition refresh_mode : RefreshMode := Refresh_1X.

(** [init_speed] *)
Definition init_speed (org_entry : OrgEntry) (speed_entry : SpeedEntry) : option SpeedEntry :=
  let RFCPB_TABLE := [[48; 72; 96];
    [72; 108; 144];
    [72; 108; 144]] in
  let RFCAB_TABLE := [[104; 156; 208];
    [144; 216; 288];
    [144; 216; 288]] in
  let REFI_TABLE := [[3124; 4685; 6247];
    [1563; 2344; 3125];
    [782; 1172; 1563]] in
  let XSR_TABLE := [[110; 165; 220];
    [150; 225; 300];
    [150; 225; 300]] in
  speed ←
    match rate speed_entry with
    | 1600 => Some 0 | 2400 => Some 1 | 3200 => Some 2
    | _ => None
    end;
  density ←
    match Z.shiftr (size org_entry) 10 with
    | 2 => Some 0 | 3 => Some 1 | 4 => Some 2
    | _ => None
    end;
  rfcpb ← table_at RFCPB_TABLE density speed;
  rfcab ← table_at RFCAB_TABLE density speed;
  refi ← table_at REFI_TABLE (refresh_int refresh_mode) speed;
  xsr ← table_at XSR_TABLE density speed;
  Some (set_nXSR xsr (set_nREFI refi (set_nRFCab rfcab (set_nRFCpb rfcpb speed_entry)))).

(** The members of the object the constructor sets. *)
Record LPDDR4 := mkLPDDR4 { org_entry : OrgEntry; speed_entry : SpeedEntry; read_latency : Z }.

(** [LPDDR4(Org, Speed)] and [LPDDR4(string, string)] *)
Definition new (org : Org) (speed : Speed) : option LPDDR4 :=
  let org_entry := org_table org in
  let speed_entry := speed_table speed in
  let read_latency := nCL speed_entry + nDQSCK speed_entry + nBL speed_entry in
  speed_entry ← init_speed org_entry speed_entry;
  Some (mkLPDDR4 org_entry speed_entry read_latency).
Definition new_str (org_str speed_str : string) : option LPDDR4 :=
  new (map_at LPDDR4_4Gb_x16 org_map org_str) (map_at LPDDR4_1600 speed_map speed_str).

(** [org_entry.count[int(l)] = x] *)
Definition set_count (l : Level) (x : Z) (o : LPDDR4) : LPDDR4 :=
  let e := org_entry o in
  mkLPDDR4 (mkOrg (size e) (dq e) (<[level_int l := x]> (count e))) (speed_entry o) (read_latency o).
Definition set_channel_number (channel : Z) (o : LPDDR4) : LPDDR4 := set_count Channel channel o.
Definition set_rank_number (rank : Z) (o : LPDDR4) : LPDDR4 := set_count Rank rank o.

(** ** Prerequisites, row hits and state transitions *)

Definition node : Type := DRAM Level Command State.

Definition prereq (l : Level) (c : Command) : option (node → Command → Z → option Command) :=
  match l, c with
  | Rank, RD | Rank, WR =>
    Some (λ node _ _,
      match state (info node) with
      | PowerUp => Some Cmd_MAX
      | ActPowerDown => Some PDX
      | PrePowerDown => Some PDX
      | SelfRefresh => Some SREFX
      | _ => None
      end)
  | Bank, RD | Bank, WR =>
    Some (λ node cmd id,
      match state (info node) with
      | Closed => Some ACT
      | Opened => if decide (is_Some (row_state (info node) !! id)) then Some cmd else Some PRE
      | _ => None
      end)
  | Rank, REF =>
    Some (λ node _ _,
      if forallb (λ bank, bool_decide (state (info bank) = Closed)) (children node)
      then Some REF else Some PREA)
  | Rank, PDE =>
    Some (λ node _ _,
      match state (info node) with
      | PowerUp => Some PDE
      | ActPowerDown => Some PDE
      | PrePowerDown => Some PDE
      | SelfRefresh => Some SREFX
      | _ => None
      end)
  | Rank, SREF =>
    Some (λ node _ _,
      match state (info node) with
      | PowerUp => Some SREF
      | ActPowerDown => Some PDX
      | PrePowerDown => Some PDX
      | SelfRefresh => Some SREF
      | _ => None
      end)
  | _, _ => None
  end.

Definition rowhit (l : Level) (c : Command) : option (node → Command → Z → option bool) :=
  match l, c with
  | Bank, RD | Bank, WR =>
    Some (λ node _ id,
      match state (info node) with
      | Closed => Some false
      | Opened => if decide (is_Some (row_state (info node) !! id)) then Some true else Some false
      | _ => None
      end)
  | _, _ => None
  end.

Definition rowopen (l : Level) (c : Command) : option (node → Command → Z → option bool) :=
  match l, c with
  | Bank, RD | Bank, WR =>
    Some (λ node _ _,
      match state (info node) with Closed => Some false | Opened => Some true | _ => None end)
  | _, _ => None
  end.

(** [node->state = State::Closed; node->row_state.clear();] *)
Definition close (n : dram_info Level Command State) : dram_info Level Command State :=
  set_row_state ∅ (set_state Closed n).

Definition lambda (l : Level) (c : Command) : option (node → Z → option node) :=
  match l, c with
  | Bank, ACT =>
    Some (λ node id,
      Some (on_info (λ n, set_row_state (<[id := Opened]> (row_state n)) (set_state Opened n)) node))
  | Bank, PRE | Bank, RDA | Bank, WRA =>
    Some (λ node _, Some (on_info close node))
  | Rank, PREA =>
    Some (λ node _, Some (Dram (info node) (map (on_info close) (children node))))
  | Rank, REF | Bank, RD | Bank, WR =>
    Some (λ node _, Some node)
  | Rank, PDE =>
    Some (λ node _,
      if forallb (λ bank, bool_decide (state (info bank) = Closed)) (children node)
      then Some (on_info (set_state PrePowerDown) node)
      else Some (on_info (set_state ActPowerDown) node))
  | Rank, PDX | Rank, SREFX =>
    Some (λ node _, Some (on_info (set_state PowerUp) node))
  | Rank, SREF =>
    Some (λ node _, Some (on_info (set_state SelfRefresh) node))
  | _, _ => None
  end.

(** ** Timing: the [push_back] calls in source order *)

Definition init_timing (s : SpeedEntry) : list (Level * Command * TimingEntry Command) :=
  [ (Channel, RD, mkTiming RD 1 (nBL s) false);
    (Channel, RD, mkTiming RDA 1 (nBL s) false);
    (Channel, RDA, mkTiming RD 1 (nBL s) false);
    (Channel, RDA, mkTiming RDA 1 (nBL s) false);
    (Channel, WR, mkTiming WR 1 (nBL s) false);
    (Channel, WR, mkTiming WRA 1 (nBL s) false);
    (Channel, WRA, mkTiming WR 1 (nBL s) false);
    (Channel, WRA, mkTiming WRA 1 (nBL s) false);
    (Rank, RD, mkTiming RD 1 (nCCD s) false);
    (Rank, RD, mkTiming RDA 1 (nCCD s) false);
    (Rank, RDA, mkTiming RD 1 (nCCD s) false);
    (Rank, RDA, mkTiming RDA 1 (nCCD s) false);
    (Rank, WR, mkTiming WR 1 (nCCD s) false);
    (Rank, WR, mkTiming WRA 1 (nCCD s) false);
    (Rank, WRA, mkTiming WR 1 (nCCD s) false);
    (Rank, WRA, mkTiming WRA 1 (nCCD s) false);
    (Rank, RD, mkTiming WR 1 (nCL s + nBL s + nDQSCK s + 1 - nCWL s) false);
    (Rank, RD, mkTiming WRA 1 (nCL s + nBL s + nDQSCK s + 1 - nCWL s) false);
    (Rank, RDA, mkTiming WR 1 (nCL s + nBL s + nDQSCK s + 1 - nCWL s) false);
    (Rank, RDA, mkTiming WRA 1 (nCL s + nBL s + nDQSCK s + 1 - nCWL s) false);
    (Rank, WR, mkTiming RD 1 (nCWL s + nBL s + nWTR s + 1) false);
    (Rank, WR, mkTiming RDA 1 (nCWL s + nBL s + nWTR s + 1) false);
    (Rank, WRA, mkTiming RD 1 (nCWL s + nBL s + nWTR s + 1) false);
    (Rank, WRA, mkTiming RDA 1 (nCWL s + nBL s + nWTR s + 1) false);
    (Rank, RD, mkTiming RD 1 (nBL s + nRTRS s) true);
    (Rank, RD, mkTiming RDA 1 (nBL s + nRTRS s) true);
    (Rank, RDA, mkTiming RD 1 (nBL s + nRTRS s) true);
    (Rank, RDA, mkTiming RDA 1 (nBL s + nRTRS s) true);
    (Rank, RD, mkTiming WR 1 (nBL s + nRTRS s) true);
    (Rank, RD, mkTiming WRA 1 (nBL s + nRTRS s) true);
    (Rank, RDA, mkTiming WR 1 (nBL s + nRTRS s) true);
    (Rank, RDA, mkTiming WRA 1 (nBL s + nRTRS s) true);
    (Rank, RD, mkTiming WR 1 (nCL s + nBL s + nDQSCK s + 1 + nRTRS s - nCWL s) true);
    (Rank, RD, mkTiming WRA 1 (nCL s + nBL s + nDQSCK s + 1 + nRTRS s - nCWL s) true);
    (Rank, RDA, mkTiming WR 1 (nCL s + nBL s + nDQSCK s + 1 + nRTRS s - nCWL s) true);
    (Rank, RDA, mkTiming WRA 1 (nCL s + nBL s + nDQSCK s + 1 + nRTRS s - nCWL s) true);
    (Rank, WR, mkTiming RD 1 (nCWL s + nBL s + nRTRS s - nCL s) true);
    (Rank, WR, mkTiming RDA 1 (nCWL s + nBL s + nRTRS s - nCL s) true);
    (Rank, WRA, mkTiming RD 1 (nCWL s + nBL s + nRTRS s - nCL s) true);
    (Rank, WRA, mkTiming RDA 1 (nCWL s + nBL s + nRTRS s - nCL s) true);
    (Rank, RD, mkTiming PREA 1 (nRTP s) false);
    (Rank, WR, mkTiming PREA 1 (nCWL s + nBL s + nWR s) false);
    (Rank, RD, mkTiming PDE 1 (nCL s + nBL s + 1) false);
    (Rank, RDA, mkTiming PDE 1 (nCL s + nBL s + 1) false);
    (Rank, WR, mkTiming PDE 1 (nCWL s + nBL s + nWR s) false);
    (Rank, WRA, mkTiming PDE 1 (nCWL s + nBL s + nWR s + 1) false);
    (Rank, PDX, mkTiming RD 1 (nXP s) false);
    (Rank, PDX, mkTiming RDA 1 (nXP s) false);
    (Rank, PDX, mkTiming WR 1 (nXP s) false);
    (Rank, PDX, mkTiming WRA 1 (nXP s) false);
    (Rank, ACT, mkTiming ACT 1 (nRRD s) false);
    (Rank, ACT, mkTiming ACT 4 (nFAW s) false);
    (Rank, ACT, mkTiming PREA 1 (nRAS s) false);
    (Rank, PREA, mkTiming ACT 1 (nRPab s) false);
    (Rank, PRE, mkTiming PRE 1 (nPPD s) false);
    (Rank, PRE, mkTiming REF 1 (nRPpb s) false);
    (Rank, PREA, mkTiming REF 1 (nRPab s) false);
    (Rank, REF, mkTiming ACT 1 (nRFCab s) false);
    (Rank, ACT, mkTiming PDE 1 1 false);
    (Rank, PDX, mkTiming ACT 1 (nXP s) false);
    (Rank, PDX, mkTiming PRE 1 (nXP s) false);
    (Rank, PDX, mkTiming PREA 1 (nXP s) false);
    (Rank, PRE, mkTiming SREF 1 (nRPpb s) false);
    (Rank, PREA, mkTiming SREF 1 (nRPab s) false);
    (Rank, SREFX, mkTiming ACT 1 (nXSR s) false);
    (Rank, REF, mkTiming REF 1 (nRFCab s) false);
    (Rank, REF, mkTiming REFPB 1 (nRFCab s) false);
    (Rank, REFPB, mkTiming REF 1 (nRFCpb s) false);
    (Rank, REF, mkTiming PDE 1 1 false);
    (Rank, REFPB, mkTiming PDE 1 1 false);
    (Rank, PDX, mkTiming REF 1 (nXP s) false);
    (Rank, PDX, mkTiming REFPB 1 (nXP s) false);
    (Rank, SREFX, mkTiming REF 1 (nXSR s) false);
    (Rank, SREFX, mkTiming REFPB 1 (nXSR s) false);
    (Rank, PDE, mkTiming PDX 1 (nCKE s) false);
    (Rank, PDX, mkTiming PDE 1 (nXP s) false);
    (Rank, PDX, mkTiming SREF 1 (nXP s) false);
    (Rank, SREFX, mkTiming PDE 1 (nXSR s) false);
    (Rank, SREF, mkTiming SREFX 1 (nSR s) false);
    (Rank, SREFX, mkTiming SREF 1 (nXSR s) false);
    (Bank, ACT, mkTiming RD 1 (nRCD s) false);
    (Bank, ACT, mkTiming RDA 1 (nRCD s) false);
    (Bank, ACT, mkTiming WR 1 (nRCD s) false);
    (Bank, ACT, mkTiming WRA 1 (nRCD s) false);
    (Bank, RD, mkTiming PRE 1 (nRTP s) false);
    (Bank, WR, mkTiming PRE 1 (nCWL s + nBL s + nWR s) false);
    (Bank, RDA, mkTiming ACT 1 (nRTP s + nRPpb s) false);
    (Bank, WRA, mkTiming ACT 1 (nCWL s + nBL s + nWR s + nRPpb s) false);
    (Bank, ACT, mkTiming ACT 1 (nRC s) false);
    (Bank, ACT, mkTiming PRE 1 (nRAS s) false);
    (Bank, PRE, mkTiming ACT 1 (nRPpb s) false);
    (Bank, PRE, mkTiming REFPB 1 (nRPpb s) false);
    (Bank, ACT, mkTiming REFPB 1 (nRRD s) true);
    (Bank, REFPB, mkTiming ACT 1 (nRRD s) true);
    (Bank, REFPB, mkTiming REFPB 1 (nRFCpb s) false);
    (Bank, REFPB, mkTiming ACT 1 (nRFCpb s) false) ].

(** ** The standard as an instance of the interfaces *)

(** Members with a default initialiser. *)
Definition prefetch_size : Z := 16.
Definition channel_width : Z := 32.

Definition spec (o : LPDDR4) : Spec Level Command State :=
  {| Dram.level_int := level_int; Dram.level_cast := level_cast; Dram.level_MAX := 5;
     Dram.lvl_Bank := Bank; Dram.lvl_Row := Row; Dram.cmd_MAX := Cmd_MAX; Dram.cmd_PRE := PRE;
     Dram.scope := scope; Dram.start := start; Dram.is_opening := is_opening;
     Dram.is_accessing := is_accessing; Dram.is_closing := is_closing;
     Dram.is_refreshing := is_refreshing; Dram.translate := translate;
     Dram.prereq := prereq; Dram.rowhit := rowhit; Dram.rowopen := rowopen; Dram.lambda := lambda;
     Dram.timing := entries_at (init_timing (speed_entry o));
     Dram.count := count (org_entry o); Dram.nREFI := nREFI (speed_entry o);
     Dram.read_latency := read_latency o; Dram.prefetch_size := prefetch_size;
     Dram.channel_width := channel_width |}.

Definition proto : Proto Level Command State :=
  {| p_power := Rank; p_RD := RD; p_WR := WR; p_ACT := ACT; p_PREA := PREA; p_REF := REF;
     p_PDX := PDX; p_SRX := SREFX; p_Opened := Opened; p_Closed := Closed; p_PowerUp := PowerUp;
     p_ActPowerDown := ActPowerDown; p_PrePowerDown := PrePowerDown; p_SelfRefresh := SelfRefresh |}.

Lemma init_timing_check_LPDDR4 s : table_check is_refreshing is_opening (init_timing s) = true.
Proof. vm_compute. reflexivity. Qed.

Section Instances.
Variable o : LPDDR4.
Context `{Hcount : !CountOK 5 (count (org_entry o))}.

#[global] Instance spec_TimingOK : TimingOK (spec o).
Proof.
  apply (TimingOK_table _ (init_timing (speed_entry o))); [done|apply init_timing_check_LPDDR4|done|simpl; lia|..].
  - intros k Hk. simpl in Hk. do 5 (destruct k as [|k]; [by eexists|]). lia.
  - intros k l Hl. do 5 (destruct k as [|k]; [by simplify_eq/=|]). done.
  - by intros [] [].
Qed.

#[global] Instance spec_LambdaFrame : LambdaFrame (spec o).
Proof. intros l c f d i d' Hf Hd. destruct l, c; simpl in Hf; simplify_eq; solve_frame. Qed.

#[global] Instance spec_BankProtocol : BankProtocol (spec o) proto.
Proof. split; try apply _; solve_protocol. Qed.

End Instances.

End LPDDR4.

