(* ===== verification/SpecWideIO2.v ===== *)
(** * WideIO2 ([ramulator/src/WideIO2.h], [ramulator/src/WideIO2.cpp])

    The tables of the standard, a rank holds its banks directly.
    The enumerations keep the source's names ([MAX] is [Cmd_MAX] and
    [State_MAX]; the tables are not indexed by it, and their value there stands
    for nothing); an array indexed by an enumeration is a function on it.  The
    floating point members of a speed entry ([freq], [tCK]) only scale printed
    statistics and are left out. *)

From S2P Require Import Prelude Request Dram DramTiming BankProtocol Standard.

Module WideIO2.

(** ** Enumerations *)

Inductive Level := Channel | Rank | Bank | Row | Column.
Inductive Command :=
  | ACT | PRE | PRA | RD | WR | RDA | WRA | REF | REFPB | PD | PDX | SREF | SREFX | Cmd_MAX.
Inductive State :=
  | Opened | Closed | PowerUp | ActPowerDown | PrePowerDown | SelfRefresh | State_MAX.
Inductive Org :=
  | WideIO2_8Gb.
Inductive Speed :=
  | WideIO2_800 | WideIO2_1066.

#[global] Instance Level_eq_dec : EqDecision Level.
Proof. solve_decision. Defined.
#[global] Instance Command_eq_dec : EqDecision Command.
Proof. solve_decision. Defined.
#[global] Instance State_eq_dec : EqDecision State.
Proof. solve_decision. Defined.
#[global] Instance Org_eq_dec : EqDecision Org.
Proof. solve_decision. Defined.
#[global] Instance Speed_eq_dec : EqDecision Speed.
Proof. solve_decision. Defined.

(** [int(level)] and [Level(i)] *)
Definition level_int (l : Level) : nat :=
  match l with Channel => 0 | Rank => 1 | Bank => 2 | Row => 3 | Column => 4 end%nat.
Definition level_cast (i : nat) : option Level :=
  match i with
  | 0 => Some Channel | 1 => Some Rank | 2 => Some Bank | 3 => Some Row | 4 => Some Column
  | _ => None
  end%nat.

(** ** Command tables *)

Definition scope (cmd : Command) : Level :=
  match cmd with
  | PRA | REF | PD | PDX | SREF | SREFX => Rank
  | PRE | REFPB => Bank
  | ACT => Row
  | RD | WR | RDA | WRA => Column
  | Cmd_MAX => Column
  end.

Definition is_opening (cmd : Command) : bool :=
  match cmd with ACT => true | _ => false end.
Definition is_accessing (cmd : Command) : bool :=
  match cmd with RD | WR | RDA | WRA => true | _ => false end.
Definition is_closing (cmd : Command) : bool :=
  match cmd with RDA | WRA | PRE | PRA => true | _ => false end.
Definition is_refreshing (cmd : Command) : bool :=
  match cmd with REF | REFPB => true | _ => false end.

Definition start (l : Level) : State :=
  match l with Channel => State_MAX | Rank => PowerUp | Bank => Closed | Row => Closed | Column => State_MAX end.

(** The initialiser lists five commands; the entries of the remaining request
    types are value-initialised, which is the first command. *)
Definition translate (t : ReqType) : Command :=
  match t with
  | READ => RD | WRITE => WR | REFRESH => REF | POWERDOWN => PD | SELFREFRESH => SREF
  | EXTENSION | INSTRUCTION | ReqMAX => ACT
  end.

(** ** Organisations and speeds *)

Record OrgEntry := mkOrg { size : Z; dq : Z; count : list Z }.

Record SpeedEntry := mkSpeed {
  rate : Z; nBL : Z; nCCD : Z; nDQSCK : Z; nRTRS : Z; nCL : Z; nRCD : Z; nRPpb : Z; nRP8b : Z;
  nRPab : Z; nCWL : Z; nRAS : Z; nRC : Z; nRTP : Z; nWTR : Z; nWR : Z; nRRD : Z; nFAW : Z;
  nRFCab : Z; nRFCpb : Z; nREFI : Z; nCKE : Z; nXP : Z; nCKESR : Z; nXSR : Z
}.

(** rate nBL nCCD nDQSCK nRTRS nCL nRCD nRPpb nRP8b nRPab nCWL nRAS nRC nRTP nWTR nWR nRRD nFAW
    nRFCab nRFCpb nREFI nCKE nXP nCKESR nXSR *)
Definition speed_table (s : Speed) : SpeedEntry :=
  match s with
  | WideIO2_800 =>
    mkSpeed 800 2 2 1 2 7 8 8 9 0 5 17 25 3 4 8 4 24 72 36 1560 3 3 6 76
  | WideIO2_1066 =>
    mkSpeed 1066 2 2 1 2 9 10 10 12 0 7 23 33 4 6 11 6 32 96 48 2080 3 4 8 102
  end.

Definition org_map : list (string * Org) :=
  [("WideIO2_8Gb"%string, WideIO2_8Gb)].
Definition speed_map : list (string * Speed) :=
  [("WideIO2_800"%string, WideIO2_800); ("WideIO2_1066"%string, WideIO2_1066)].

Definition set_nRPab (x : Z) (s : SpeedEntry) : SpeedEntry :=
  mkSpeed (rate s) (nBL s) (nCCD s) (nDQSCK s) (nRTRS s) (nCL s) (nRCD s) (nRPpb s) (nRP8b s) x
    (nCWL s) (nRAS s) (nRC s) (nRTP s) (nWTR s) (nWR s) (nRRD s) (nFAW s) (nRFCab s) (nRFCpb s)
    (nREFI s) (nCKE s) (nXP s) (nCKESR s) (nXSR s).

(** The members of the object the constructor sets. *)
Record WideIO2 := mkWideIO2 { org_entry : OrgEntry; speed_entry : SpeedEntry; read_latency : Z }.

(** [WideIO2(Org, Speed, int channels)] and [WideIO2(string, string, int channels)]: the
    organisation depends on the number of channels. *)
Definition new (org : Org) (speed : Speed) (channels : Z) : option WideIO2 :=
  let speed_entry := speed_table speed in
  let read_latency := nCL speed_entry + nDQSCK speed_entry + nBL speed_entry in
  org_entry ←
    match org with
    | WideIO2_8Gb =>
      if channels =? 4 then Some (mkOrg (Z.shiftl 2 10) 64 [channels; 0; 8; Z.shiftl 1 13; Z.shiftl 1 9])
      else if channels =? 8 then Some (mkOrg (Z.shiftl 1 10) 64 [channels; 0; 4; Z.shiftl 1 14; Z.shiftl 1 8])
      else None
    end;
  let speed_entry :=
    set_nRPab (if channels =? 4 then nRP8b speed_entry else nRPpb speed_entry) speed_entry in
  Some (mkWideIO2 org_entry speed_entry read_latency).
Definition new_str (org_str speed_str : string) (channels : Z) : option WideIO2 :=
  new (map_at WideIO2_8Gb org_map org_str) (map_at WideIO2_800 speed_map speed_str) channels.

(** [org_entry.count[int(l)] = x] *)
Definition set_count (l : Level) (x : Z) (o : WideIO2) : WideIO2 :=
  let e := org_entry o in
  mkWideIO2 (mkOrg (size e) (dq e) (<[level_int l := x]> (count e))) (speed_entry o) (read_latency o).
Definition set_channel_number (channel : Z) (o : WideIO2) : option WideIO2 :=
  assert! bool_decide (count (org_entry o) !! level_int Channel = Some channel);
  Some (set_count Channel channel o).
Definition set_rank_number (rank : Z) (o : WideIO2) : option WideIO2 :=
  assert! (rank =? 1) || (rank =? 2); Some (set_count Rank rank o).

(** ** Prerequisites, row hits and state transitions *)

Definition node : Type := DRAM Level Command State.

Definition prereq (l : Level) (c : Command) : option (node → Command → Z → option Command) :=
  match l, c with
  | Rank, RD | Rank, WR =>
    Some (λ node _ _,
      match state (info node) with
      | PowerUp => Some Cmd_MAX
      | ActPowerDown => Some PDX
      | PrePowerDown => Some PDX
      | SelfRefresh => Some SREFX
      | _ => None
      end)
  | Bank, RD | Bank, WR =>
    Some (λ node cmd id,
      match state (info node) with
      | Closed => Some ACT
      | Opened => if decide (is_Some (row_state (info node) !! id)) then Some cmd else Some PRE
      | _ => None
      end)
  | Rank, REF =>
    Some (λ node _ _,
      if forallb (λ bank, bool_decide (state (info bank) = Closed)) (children node)
      then Some REF else Some PRA)
  | Rank, PD =>
    Some (λ node _ _,
      match state (info node) with
      | PowerUp => Some PD
      | ActPowerDown => Some PD
      | PrePowerDown => Some PD
      | SelfRefresh => Some SREFX
      | _ => None
      end)
  | Rank, SREF =>
    Some (λ node _ _,
      match state (info node) with
      | PowerUp => Some SREF
      | ActPowerDown => Some PDX
      | PrePowerDown => Some PDX
      | SelfRefresh => Some SREF
      | _ => None
      end)
  | _, _ => None
  end.

Definition rowhit (l : Level) (c : Command) : option (node → Command → Z → option bool) :=
  match l, c with
  | Bank, RD | Bank, WR =>
    Some (λ node _ id,
      match state (info node) with
      | Closed => Some false
      | Opened => if decide (is_Some (row_state (info node) !! id)) then Some true else Some false
      | _ => None
      end)
  | _, _ => None
  end.

Definition rowopen (l : Level) (c : Command) : option (node → Command → Z → option bool) :=
  match l, c with
  | Bank, RD | Bank, WR =>
    Some (λ node _ _,
      match state (info node) with Closed => Some false | Opened => Some true | _ => None end)
  | _, _ => None
  end.

(** [node->state = State::Closed; node->row_state.clear();] *)
Definition close (n : dram_info Level Command State) : dram_info Level Command State :=
  set_row_state ∅ (set_state Closed n).

Definition lambda (l : Level) (c : Command) : option (node → Z → option node) :=
  match l, c with
  | Bank, ACT =>
    Some (λ node id,
      Some (on_info (λ n, set_row_state (<[id := Opened]> (row_state n)) (set_state Opened n)) node))
  | Bank, PRE | Bank, RDA | Bank, WRA =>
    Some (λ node _, Some (on_info close node))
  | Rank, PRA =>
    Some (λ node _, Some (Dram (info node) (map (on_info close) (children node))))
  | Rank, PD =>
    Some (λ node _,
      if forallb (λ bank, bool_decide (state (info bank) = Closed)) (children node)
      then Some (on_info (set_state PrePowerDown) node)
      else Some (on_info (set_state ActPowerDown) node))
  | Rank, PDX | Rank, SREFX =>
    Some (λ node _, Some (on_info (set_state PowerUp) node))
  | Rank, SREF =>
    Some (λ node _, Some (on_info (set_state SelfRefresh) node))
  | _, _ => None
  end.

(** ** Timing: the [push_back] calls in source order *)

Definition init_timing (s : SpeedEntry) : list (Level * Command * TimingEntry Command) :=
  [ (Channel, RD, mkTiming RD 1 (nBL s) false);
    (Channel, RD, mkTiming RDA 1 (nBL s) false);
    (Channel, RDA, mkTiming RD 1 (nBL s) false);
    (Channel, RDA, mkTiming RDA 1 (nBL s) false);
    (Channel, WR, mkTiming WR 1 (nBL s) false);
    (Channel, WR, mkTiming WRA 1 (nBL s) false);
    (Channel, WRA, mkTiming WR 1 (nBL s) false);
    (Channel, WRA, mkTiming WRA 1 (nBL s) false);
    (Rank, RD, mkTiming RD 1 (nCCD s) false);
    (Rank, RD, mkTiming RDA 1 (nCCD s) false);
    (Rank, RDA, mkTiming RD 1 (nCCD s) false);
    (Rank, RDA, mkTiming RDA 1 (nCCD s) false);
    (Rank, WR, mkTiming WR 1 (nCCD s) false);
    (Rank, WR, mkTiming WRA 1 (nCCD s) false);
    (Rank, WRA, mkTiming WR 1 (nCCD s) false);
    (Rank, WRA, mkTiming WRA 1 (nCCD s) false);
    (Rank, RD, mkTiming WR 1 (nCL s + nDQSCK s + nBL s + 1 - nCWL s) false);
    (Rank, RD, mkTiming WRA 1 (nCL s + nDQSCK s + nBL s + 1 - nCWL s) false);
    (Rank, RDA, mkTiming WR 1 (nCL s + nDQSCK s + nBL s + 1 - nCWL s) false);
    (Rank, RDA, mkTiming WRA 1 (nCL s + nDQSCK s + nBL s + 1 - nCWL s) false);
    (Rank, WR, mkTiming RD 1 (nCWL s + 1 + nBL s + nWTR s) false);
    (Rank, WR, mkTiming RDA 1 (nCWL s + 1 + nBL s + nWTR s) false);
    (Rank, WRA, mkTiming RD 1 (nCWL s + 1 + nBL s + nWTR s) false);
    (Rank, WRA, mkTiming RDA 1 (nCWL s + 1 + nBL s + nWTR s) false);
    (Rank, RD, mkTiming RD 1 (nBL s + nRTRS s) true);
    (Rank, RD, mkTiming RDA 1 (nBL s + nRTRS s) true);
    (Rank, RDA, mkTiming RD 1 (nBL s + nRTRS s) true);
    (Rank, RDA, mkTiming RDA 1 (nBL s + nRTRS s) true);
    (Rank, RD, mkTiming WR 1 (nBL s + nRTRS s) true);
    (Rank, RD, mkTiming WRA 1 (nBL s + nRTRS s) true);
    (Rank, RDA, mkTiming WR 1 (nBL s + nRTRS s) true);
    (Rank, RDA, mkTiming WRA 1 (nBL s + nRTRS s) true);
    (Rank, RD, mkTiming WR 1 (nCL s + nBL s + nDQSCK s + 1 + nRTRS s - nCWL s) true);
    (Rank, RD, mkTiming WRA 1 (nCL s + nBL s + nDQSCK s + 1 + nRTRS s - nCWL s) true);
    (Rank, RDA, mkTiming WR 1 (nCL s + nBL s + nDQSCK s + 1 + nRTRS s - nCWL s) true);
    (Rank, RDA, mkTiming WRA 1 (nCL s + nBL s + nDQSCK s + 1 + nRTRS s - nCWL s) true);
    (Rank, WR, mkTiming RD 1 (nCWL s + nBL s + nRTRS s - nCL s) true);
    (Rank, WR, mkTiming RDA 1 (nCWL s + nBL s + nRTRS s - nCL s) true);
    (Rank, WRA, mkTiming RD 1 (nCWL s + nBL s + nRTRS s - nCL s) true);
    (Rank, WRA, mkTiming RDA 1 (nCWL s + nBL s + nRTRS s - nCL s) true);
    (Rank, RD, mkTiming PRA 1 (nRTP s) false);
    (Rank, WR, mkTiming PRA 1 (nCWL s + 1 + nBL s + nWR s) false);
    (Rank, RD, mkTiming PD 1 (nCL s + nDQSCK s + nBL s + 1) false);
    (Rank, RDA, mkTiming PD 1 (nCL s + nDQSCK s + nBL s + 1) false);
    (Rank, WR, mkTiming PD 1 (nCWL s + 1 + nBL s + nWR s) false);
    (Rank, WRA, mkTiming PD 1 (nCWL s + 1 + nBL s + nWR s + 1) false);
    (Rank, PDX, mkTiming RD 1 (nXP s) false);
    (Rank, PDX, mkTiming RDA 1 (nXP s) false);
    (Rank, PDX, mkTiming WR 1 (nXP s) false);
    (Rank, PDX, mkTiming WRA 1 (nXP s) false);
    (Rank, ACT, mkTiming ACT 1 (nRRD s) false);
    (Rank, ACT, mkTiming ACT 4 (nFAW s) false);
    (Rank, ACT, mkTiming PRA 1 (nRAS s) false);
    (Rank, PRA, mkTiming ACT 1 (nRPab s) false);
    (Rank, PRE, mkTiming REF 1 (nRPpb s) false);
    (Rank, PRA, mkTiming REF 1 (nRPab s) false);
    (Rank, REF, mkTiming ACT 1 (nRFCab s) false);
    (Rank, ACT, mkTiming PD 1 1 false);
    (Rank, PDX, mkTiming ACT 1 (nXP s) false);
    (Rank, PDX, mkTiming PRE 1 (nXP s) false);
    (Rank, PDX, mkTiming PRA 1 (nXP s) false);
    (Rank, PRE, mkTiming SREF 1 (nRPpb s) false);
    (Rank, PRA, mkTiming SREF 1 (nRPab s) false);
    (Rank, SREFX, mkTiming ACT 1 (nXSR s) false);
    (Rank, REF, mkTiming REF 1 (nRFCab s) false);
    (Rank, REF, mkTiming REFPB 1 (nRFCab s) false);
    (Rank, REFPB, mkTiming REF 1 (nRFCpb s) false);
    (Rank, REF, mkTiming PD 1 1 false);
    (Rank, REFPB, mkTiming PD 1 1 false);
    (Rank, PDX, mkTiming REF 1 (nXP s) false);
    (Rank, PDX, mkTiming REFPB 1 (nXP s) false);
    (Rank, SREFX, mkTiming REF 1 (nXSR s) false);
    (Rank, SREFX, mkTiming REFPB 1 (nXSR s) false);
    (Rank, PD, mkTiming PDX 1 (nCKE s) false);
    (Rank, PDX, mkTiming PD 1 (nXP s) false);
    (Rank, PDX, mkTiming SREF 1 (nXP s) false);
    (Rank, SREFX, mkTiming PD 1 (nXSR s) false);
    (Rank, SREF, mkTiming SREFX 1 (nCKESR s) false);
    (Rank, SREFX, mkTiming SREF 1 (nXSR s) false);
    (Bank, ACT, mkTiming RD 1 (nRCD s) false);
    (Bank, ACT, mkTiming RDA 1 (nRCD s) false);
    (Bank, ACT, mkTiming WR 1 (nRCD s) false);
    (Bank, ACT, mkTiming WRA 1 (nRCD s) false);
    (Bank, RD, mkTiming PRE 1 (nRTP s) false);
    (Bank, WR, mkTiming PRE 1 (nCWL s + 1 + nBL s + nWR s) false);
    (Bank, RDA, mkTiming ACT 1 (nRTP s + nRPpb s) false);
    (Bank, WRA, mkTiming ACT 1 (nCWL s + 1 + nBL s + nWR s + nRPpb s) false);
    (Bank, ACT, mkTiming ACT 1 (nRC s) false);
    (Bank, ACT, mkTiming PRE 1 (nRAS s) false);
    (Bank, PRE, mkTiming ACT 1 (nRPpb s) false);
    (Bank, PRE, mkTiming REFPB 1 (nRPpb s) false);
    (Bank, ACT, mkTiming REFPB 1 (nRRD s) true);
    (Bank, REFPB, mkTiming ACT 1 (nRRD s) true);
    (Bank, REFPB, mkTiming REFPB 1 (nRFCpb s) false);
    (Bank, REFPB, mkTiming ACT 1 (nRFCpb s) false) ].

(** ** The standard as an instance of the interfaces *)

(** Members with a default initialiser. *)
Definition prefetch_size : Z := 4.
Definition channel_width : Z := 64.

Definition spec (o : WideIO2) : Spec Level Command State :=
  {| Dram.level_int := level_int; Dram.level_cast := level_cast; Dram.level_MAX := 5;
     Dram.lvl_Bank := Bank; Dram.lvl_Row := Row; Dram.cmd_MAX := Cmd_MAX; Dram.cmd_PRE := PRE;
     Dram.scope := scope; Dram.start := start; Dram.is_opening := is_opening;
     Dram.is_accessing := is_accessing; Dram.is_closing := is_closing;
     Dram.is_refreshing := is_refreshing; Dram.translate := translate;
     Dram.prereq := prereq; Dram.rowhit := rowhit; Dram.rowopen := rowopen; Dram.lambda := lambda;
     Dram.timing := entries_at (init_timing (speed_entry o));
     Dram.count := count (org_entry o); Dram.nREFI := nREFI (speed_entry o);
     Dram.read_latency := read_latency o; Dram.prefetch_size := prefetch_size;
     Dram.channel_width := channel_width |}.

Definition proto : Proto Level Command State :=
  {| p_power := Rank; p_RD := RD; p_WR := WR; p_ACT := ACT; p_PREA := PRA; p_REF := REF;
     p_PDX := PDX; p_SRX := SREFX; p_Opened := Opened; p_Closed := Closed; p_PowerUp := PowerUp;
     p_ActPowerDown := ActPowerDown; p_PrePowerDown := PrePowerDown; p_SelfRefresh := SelfRefresh |}.

Lemma init_timing_check_WideIO2 s : table_check is_refreshing is_opening (init_timing s) = true.
Proof. vm_compute. reflexivity. Qed.

Section Instances.
Variable o : WideIO2.
Context `{Hcount : !CountOK 5 (count (org_entry o))}.

#[global] Instance spec_TimingOK : TimingOK (spec o).
Proof.
  apply (TimingOK_table _ (init_timing (speed_entry o))); [done|apply init_timing_check_WideIO2|done|simpl; lia|..].
  - intros k Hk. simpl in Hk. do 5 (destruct k as [|k]; [by eexists|]). lia.
  - intros k l Hl. do 5 (destruct k as [|k]; [by simplify_eq/=|]). done.
  - by intros [] [].
Qed.

#[global] Instance spec_LambdaFrame : LambdaFrame (spec o).
Proof. intros l c f d i d' Hf Hd. destruct l, c; simpl in Hf; simplify_eq; solve_frame. Qed.

#[global] Instance spec_BankProtocol : BankProtocol (spec o) proto.
Proof. split; try apply _; solve_protocol. Qed.

End Instances.

End WideIO2.

