(* ===== verification/SpecALDRAM.v ===== *)
(** * ALDRAM ([ramulator/src/ALDRAM.h], [ramulator/src/ALDRAM.cpp])

    The tables of the standard, a rank holds its banks directly; the speed table
    has an entry for each temperature [Temp], and [aldram_timing] changes the timing.
    The enumerations keep the source's names ([MAX] is [Cmd_MAX] and
    [State_MAX]; the tables are not indexed by it, and their value there stands
    for nothing); an array indexed by an enumeration is a function on it.  The
    floating point members of a speed entry ([freq], [tCK]) only scale printed
    statistics and are left out. *)

From S2P Require Import Prelude Request Dram DramTiming BankProtocol Standard.

Module ALDRAM.

(** ** Enumerations *)

Inductive Level := Channel | Rank | Bank | Row | Column.
Inductive Command :=
  | ACT | PRE | PREA | RD | WR | RDA | WRA | REF | PDE | PDX | SRE | SRX | Cmd_MAX.
Inductive State :=
  | Opened | Closed | PowerUp | ActPowerDown | PrePowerDown | SelfRefresh | State_MAX.
Inductive Org :=
  | ALDRAM_512Mb_x4 | ALDRAM_512Mb_x8 | ALDRAM_512Mb_x16 | ALDRAM_1Gb_x4 | ALDRAM_1Gb_x8
  | ALDRAM_1Gb_x16 | ALDRAM_2Gb_x4 | ALDRAM_2Gb_x8 | ALDRAM_2Gb_x16 | ALDRAM_4Gb_x4
  | ALDRAM_4Gb_x8 | ALDRAM_4Gb_x16 | ALDRAM_8Gb_x4 | ALDRAM_8Gb_x8 | ALDRAM_8Gb_x16.
Inductive Speed :=
  | ALDRAM_800D | ALDRAM_800E | ALDRAM_1066E | ALDRAM_1066F | ALDRAM_1066G | ALDRAM_1333G
  | ALDRAM_1333H | ALDRAM_1600H | ALDRAM_1600J | ALDRAM_1600K | ALDRAM_1866K | ALDRAM_1866L
  | ALDRAM_2133L | ALDRAM_2133M.

#[global] Instance Level_eq_dec : EqDecision Level.
Proof. solve_decision. Defined.
#[global] Instance Command_eq_dec : EqDecision Command.
Proof. solve_decision. Defined.
#[global] Instance State_eq_dec : EqDecision State.
Proof. solve_decision. Defined.
#[global] Instance Org_eq_dec : EqDecision Org.
Proof. solve_decision. Defined.
#[global] Instance Speed_eq_dec : EqDecision Speed.
Proof. solve_decision. Defined.

(** [int(level)] and [Level(i)] *)
Definition level_int (l : Level) : nat :=
  match l with Channel => 0 | Rank => 1 | Bank => 2 | Row => 3 | Column => 4 end%nat.
Definition level_cast (i : nat) : option Level :=
  match i with
  | 0 => Some Channel | 1 => Some Rank | 2 => Some Bank | 3 => Some Row | 4 => Some Column
  | _ => None
  end%nat.

(** ** Command tables *)

Definition scope (cmd : Command) : Level :=
  match cmd with
  | PREA | REF | PDE | PDX | SRE | SRX => Rank
  | PRE => Bank
  | ACT => Row
  | RD | WR | RDA | WRA => Column
  | Cmd_MAX => Column
  end.

Definition is_opening (cmd : Command) : bool :=
  match cmd with ACT => true | _ => false end.
Definition is_accessing (cmd : Command) : bool :=
  match cmd with RD | WR | RDA | WRA => true | _ => false end.
Definition is_closing (cmd : Command) : bool :=
  match cmd with RDA | WRA | PRE | PREA => true | _ => false end.
Definition is_refreshing (cmd : Command) : bool :=
  match cmd with REF => true | _ => false end.

Definition start (l : Level) : State :=
  match l with Channel => State_MAX | Rank => PowerUp | Bank => Closed | Row => Closed | Column => State_MAX end.

(** The initialiser lists five commands; the entries of the remaining request
    types are value-initialised, which is the first command. *)
Definition translate (t : ReqType) : Command :=
  match t with
  | READ => RD | WRITE => WR | REFRESH => REF | POWERDOWN => PDE | SELFREFRESH => SRE
  | EXTENSION | INSTRUCTION | ReqMAX => ACT
  end.

(** ** Organisations and speeds *)

Record OrgEntry := mkOrg { size : Z; dq : Z; count : list Z }.

Definition org_table (o : Org) : OrgEntry :=
  match o with
  | ALDRAM_512Mb_x4 => mkOrg 512 4 [0; 0; 8; Z.shiftl 1 13; Z.shiftl 1 11]
  | ALDRAM_512Mb_x8 => mkOrg 512 8 [0; 0; 8; Z.shiftl 1 13; Z.shiftl 1 10]
  | ALDRAM_512Mb_x16 => mkOrg 512 16 [0; 0; 8; Z.shiftl 1 12; Z.shiftl 1 10]
  | ALDRAM_1Gb_x4 => mkOrg (Z.shiftl 1 10) 4 [0; 0; 8; Z.shiftl 1 14; Z.shiftl 1 11]
  | ALDRAM_1Gb_x8 => mkOrg (Z.shiftl 1 10) 8 [0; 0; 8; Z.shiftl 1 14; Z.shiftl 1 10]
  | ALDRAM_1Gb_x16 => mkOrg (Z.shiftl 1 10) 16 [0; 0; 8; Z.shiftl 1 13; Z.shiftl 1 10]
  | ALDRAM_2Gb_x4 => mkOrg (Z.shiftl 2 10) 4 [0; 0; 8; Z.shiftl 1 15; Z.shiftl 1 11]
  | ALDRAM_2Gb_x8 => mkOrg (Z.shiftl 2 10) 8 [0; 0; 8; Z.shiftl 1 15; Z.shiftl 1 10]
  | ALDRAM_2Gb_x16 => mkOrg (Z.shiftl 2 10) 16 [0; 0; 8; Z.shiftl 1 14; Z.shiftl 1 10]
  | ALDRAM_4Gb_x4 => mkOrg (Z.shiftl 4 10) 4 [0; 0; 8; Z.shiftl 1 16; Z.shiftl 1 11]
  | ALDRAM_4Gb_x8 => mkOrg (Z.shiftl 4 10) 8 [0; 0; 8; Z.shiftl 1 16; Z.shiftl 1 10]
  | ALDRAM_4Gb_x16 => mkOrg (Z.shiftl 4 10) 16 [0; 0; 8; Z.shiftl 1 15; Z.shiftl 1 10]
  | ALDRAM_8Gb_x4 => mkOrg (Z.shiftl 8 10) 4 [0; 0; 8; Z.shiftl 1 16; Z.shiftl 1 12]
  | ALDRAM_8Gb_x8 => mkOrg (Z.shiftl 8 10) 8 [0; 0; 8; Z.shiftl 1 16; Z.shiftl 1 11]
  | ALDRAM_8Gb_x16 => mkOrg (Z.shiftl 8 10) 16 [0; 0; 8; Z.shiftl 1 16; Z.shiftl 1 10]
  end.

Record SpeedEntry := mkSpeed {
  rate : Z; nBL : Z; nCCD : Z; nRTRS : Z; nCL : Z; nRCD : Z; nRP : Z; nCWL : Z; nRAS : Z;
  nRC : Z; nRTP : Z; nWTR : Z; nWR : Z; nRRD : Z; nFAW : Z; nRFC : Z; nREFI : Z; nPD : Z;
  nXP : Z; nXPDLL : Z; nCKESR : Z; nXS : Z; nXSDLL : Z
}.

Inductive Temp := COLD | HOT.
#[global] Instance Temp_eq_dec : EqDecision Temp.
Proof. solve_decision. Defined.

(** rate nBL nCCD nRTRS nCL nRCD nRP nCWL nRAS nRC nRTP nWTR nWR nRRD nFAW nRFC nREFI nPD nXP
    nXPDLL nCKESR nXS nXSDLL *)
Definition speed_table (t : Temp) (s : Speed) : SpeedEntry :=
  match t, s with
  | COLD, ALDRAM_800D =>
    mkSpeed 800 4 4 2 5 (5 - 1) (5 - 1) 5 (15 - 5) (20 - 6) 4 4 6 0 0 0 3120 3 3 10 4 0 512
  | COLD, ALDRAM_800E =>
    mkSpeed 800 4 4 2 6 (6 - 1) (6 - 1) 5 (15 - 5) (21 - 6) 4 4 6 0 0 0 3120 3 3 10 4 0 512
  | COLD, ALDRAM_1066E =>
    mkSpeed 1066 4 4 2 6 (6 - 1) (6 - 1) 6 (20 - 5) (26 - 6) 4 4 8 0 0 0 4160 3 4 13 4 0 512
  | COLD, ALDRAM_1066F =>
    mkSpeed 1066 4 4 2 7 (7 - 1) (7 - 1) 6 (20 - 5) (27 - 6) 4 4 8 0 0 0 4160 3 4 13 4 0 512
  | COLD, ALDRAM_1066G =>
    mkSpeed 1066 4 4 2 8 (8 - 1) (8 - 1) 6 (20 - 5) (28 - 6) 4 4 8 0 0 0 4160 3 4 13 4 0 512
  | COLD, ALDRAM_1333G =>
    mkSpeed 1333 4 4 2 8 (8 - 1) (8 - 1) 7 (24 - 5) (32 - 6) 5 5 10 0 0 0 5200 4 4 16 5 0 512
  | COLD, ALDRAM_1333H =>
    mkSpeed 1333 4 4 2 9 (9 - 1) (9 - 1) 7 (24 - 5) (33 - 6) 5 5 10 0 0 0 5200 4 4 16 5 0 512
  | COLD, ALDRAM_1600H =>
    mkSpeed 1600 4 4 2 9 (9 - 2) (9 - 2) 8 (28 - 10) (37 - 12) 6 6 12 0 0 0 6240 4 5 20 5 0 512
  | COLD, ALDRAM_1600J =>
    mkSpeed 1600 4 4 2 10 (10 - 2) (10 - 2) 8 (28 - 10) (38 - 12) 6 6 12 0 0 0 6240 4 5 20 5 0 512
  | COLD, ALDRAM_1600K =>
    mkSpeed 1600 4 4 2 11 (11 - 2) (11 - 2) 8 (28 - 10) (39 - 12) 6 6 12 0 0 0 6240 4 5 20 5 0 512
  | COLD, ALDRAM_1866K =>
    mkSpeed 1866 4 4 2 11 (11 - 2) (11 - 2) 9 (32 - 10) (43 - 12) 7 7 14 0 0 0 7280 5 6 23 6 0 512
  | COLD, ALDRAM_1866L =>
    mkSpeed 1866 4 4 2 12 (12 - 2) (12 - 3) 9 (32 - 10) (44 - 13) 7 7 14 0 0 0 7280 5 6 23 6 0 512
  | COLD, ALDRAM_2133L =>
    mkSpeed 2133 4 4 2 12 (12 - 2) (12 - 3) 10 (36 - 10) (48 - 13) 8 8 16 0 0 0 8320 6 7 26 7 0 512
  | COLD, ALDRAM_2133M =>
    mkSpeed 2133 4 4 2 13 (13 - 2) (13 - 3) 10 (36 - 10) (49 - 13) 8 8 16 0 0 0 8320 6 7 26 7 0 512
  | HOT, ALDRAM_800D =>
    mkSpeed 800 4 4 2 5 5 5 5 15 20 4 4 6 0 0 0 3120 3 3 10 4 0 512
  | HOT, ALDRAM_800E =>
    mkSpeed 800 4 4 2 6 6 6 5 15 21 4 4 6 0 0 0 3120 3 3 10 4 0 512
  | HOT, ALDRAM_1066E =>
    mkSpeed 1066 4 4 2 6 6 6 6 20 26 4 4 8 0 0 0 4160 3 4 13 4 0 512
  | HOT, ALDRAM_1066F =>
    mkSpeed 1066 4 4 2 7 7 7 6 20 27 4 4 8 0 0 0 4160 3 4 13 4 0 512
  | HOT, ALDRAM_1066G =>
    mkSpeed 1066 4 4 2 8 8 8 6 20 28 4 4 8 0 0 0 4160 3 4 13 4 0 512
  | HOT, ALDRAM_1333G =>
    mkSpeed 1333 4 4 2 8 8 8 7 24 32 5 5 10 0 0 0 5200 4 4 16 5 0 512
  | HOT, ALDRAM_1333H =>
    mkSpeed 1333 4 4 2 9 9 9 7 24 33 5 5 10 0 0 0 5200 4 4 16 5 0 512
  | HOT, ALDRAM_1600H =>
    mkSpeed 1600 4 4 2 9 9 9 8 28 37 6 6 12 0 0 0 6240 4 5 20 5 0 512
  | HOT, ALDRAM_1600J =>
    mkSpeed 1600 4 4 2 10 10 10 8 28 38 6 6 12 0 0 0 6240 4 5 20 5 0 512
  | HOT, ALDRAM_1600K =>
    mkSpeed 1600 4 4 2 11 11 11 8 28 39 6 6 12 0 0 0 6240 4 5 20 5 0 512
  | HOT, ALDRAM_1866K =>
    mkSpeed 1866 4 4 2 11 11 11 9 32 43 7 7 14 0 0 0 7280 5 6 23 6 0 512
  | HOT, ALDRAM_1866L =>
    mkSpeed 1866 4 4 2 12 12 12 9 32 44 7 7 14 0 0 0 7280 5 6 23 6 0 512
  | HOT, ALDRAM_2133L =>
    mkSpeed 2133 4 4 2 12 12 12 10 36 48 8 8 16 0 0 0 8320 6 7 26 7 0 512
  | HOT, ALDRAM_2133M =>
    mkSpeed 2133 4 4 2 13 13 13 10 36 49 8 8 16 0 0 0 8320 6 7 26 7 0 512
  end.

Definition org_map : list (string * Org) :=
  [("ALDRAM_512Mb_x4"%string, ALDRAM_512Mb_x4); ("ALDRAM_512Mb_x8"%string, ALDRAM_512Mb_x8);
   ("ALDRAM_512Mb_x16"%string, ALDRAM_512Mb_x16); ("ALDRAM_1Gb_x4"%string, ALDRAM_1Gb_x4);
   ("ALDRAM_1Gb_x8"%string, ALDRAM_1Gb_x8); ("ALDRAM_1Gb_x16"%string, ALDRAM_1Gb_x16);
   ("ALDRAM_2Gb_x4"%string, ALDRAM_2Gb_x4); ("ALDRAM_2Gb_x8"%string, ALDRAM_2Gb_x8);
   ("ALDRAM_2Gb_x16"%string, ALDRAM_2Gb_x16); ("ALDRAM_4Gb_x4"%string, ALDRAM_4Gb_x4);
   ("ALDRAM_4Gb_x8"%string, ALDRAM_4Gb_x8); ("ALDRAM_4Gb_x16"%string, ALDRAM_4Gb_x16);
   ("ALDRAM_8Gb_x4"%string, ALDRAM_8Gb_x4); ("ALDRAM_8Gb_x8"%string, ALDRAM_8Gb_x8);
   ("ALDRAM_8Gb_x16"%string, ALDRAM_8Gb_x16)].
Definition speed_map : list (string * Speed) :=
  [("ALDRAM_800D"%string, ALDRAM_800D); ("ALDRAM_800E"%string, ALDRAM_800E);
   ("ALDRAM_1066E"%string, ALDRAM_1066E); ("ALDRAM_1066F"%string, ALDRAM_1066F);
   ("ALDRAM_1066G"%string, ALDRAM_1066G); ("ALDRAM_1333G"%string, ALDRAM_1333G);
   ("ALDRAM_1333H"%string, ALDRAM_1333H); ("ALDRAM_1600H"%string, ALDRAM_1600H);
   ("ALDRAM_1600J"%string, ALDRAM_1600J); ("ALDRAM_1600K"%string, ALDRAM_1600K);
   ("ALDRAM_1866K"%string, ALDRAM_1866K); ("ALDRAM_1866L"%string, ALDRAM_1866L);
   ("ALDRAM_2133L"%string, ALDRAM_2133L); ("ALDRAM_2133M"%string, ALDRAM_2133M)].

Definition set_nRRD (x : Z) (s : SpeedEntry) : SpeedEntry :=
  mkSpeed (rate s) (nBL s) (nCCD s) (nRTRS s) (nCL s) (nRCD s) (nRP s) (nCWL s) (nRAS s) (nRC s)
    (nRTP s) (nWTR s) (nWR s) x (nFAW s) (nRFC s) (nREFI s) (nPD s) (nXP s) (nXPDLL s)
    (nCKESR s) (nXS s) (nXSDLL s).
Definition set_nFAW (x : Z) (s : SpeedEntry) : SpeedEntry :=
  mkSpeed (rate s) (nBL s) (nCCD s) (nRTRS s) (nCL s) (nRCD s) (nRP s) (nCWL s) (nRAS s) (nRC s)
    (nRTP s) (nWTR s) (nWR s) (nRRD s) x (nRFC s) (nREFI s) (nPD s) (nXP s) (nXPDLL s)
    (nCKESR s) (nXS s) (nXSDLL s).
Definition set_nRFC (x : Z) (s : SpeedEntry) : SpeedEntry :=
  mkSpeed (rate s) (nBL s) (nCCD s) (nRTRS s) (nCL s) (nRCD s) (nRP s) (nCWL s) (nRAS s) (nRC s)
    (nRTP s) (nWTR s) (nWR s) (nRRD s) (nFAW s) x (nREFI s) (nPD s) (nXP s) (nXPDLL s)
    (nCKESR s) (nXS s) (nXSDLL s).
Definition set_nXS (x : Z) (s : SpeedEntry) : SpeedEntry :=
  mkSpeed (rate s) (nBL s) (nCCD s) (nRTRS s) (nCL s) (nRCD s) (nRP s) (nCWL s) (nRAS s) (nRC s)
    (nRTP s) (nWTR s) (nWR s) (nRRD s) (nFAW s) (nRFC s) (nREFI s) (nPD s) (nXP s) (nXPDLL s)
    (nCKESR s) x (nXSDLL s).

(** [init_speed]: the parameters that depend on the page size and the density. *)
Definition init_speed (org_entry : OrgEntry) (speed_entry : SpeedEntry) : option SpeedEntry :=
  cols ← count org_entry !! level_int Column;
  let page := Z.shiftr (dq org_entry * cols) 13 in
  let by_page (a b : Z) := if page =? 1 then a else b in
  speed_entry ←
    match rate speed_entry with
    | 800 => Some (set_nFAW (by_page 16 20) (set_nRRD (by_page 4 4) speed_entry))
    | 1066 => Some (set_nFAW (by_page 20 27) (set_nRRD (by_page 4 6) speed_entry))
    | 1333 => Some (set_nFAW (by_page 20 30) (set_nRRD (by_page 4 5) speed_entry))
    | 1600 => Some (set_nFAW (by_page 24 32) (set_nRRD (by_page 5 6) speed_entry))
    | 1866 => Some (set_nFAW (by_page 26 33) (set_nRRD (by_page 5 6) speed_entry))
    | 2133 => Some (set_nFAW (by_page 27 34) (set_nRRD (by_page 5 6) speed_entry))
    | _ => None
    end;
  let chip := size org_entry in
  let by_chip (a b c d e : Z) :=
    if chip =? 512 then a else if chip =? Z.shiftl 1 10 then b
    else if chip =? Z.shiftl 1 11 then c else if chip =? Z.shiftl 1 12 then d else e in
  speed_entry ←
    match rate speed_entry with
    | 800 => Some (set_nRFC (by_chip 36 44 64 104 140) speed_entry)
    | 1066 => Some (set_nRFC (by_chip 48 59 86 139 187) speed_entry)
    | 1333 => Some (set_nRFC (by_chip 60 74 107 174 234) speed_entry)
    | 1600 => Some (set_nRFC (by_chip 72 88 128 208 280) speed_entry)
    | 1866 => Some (set_nRFC (by_chip 84 103 150 243 327) speed_entry)
    | 2133 => Some (set_nRFC (by_chip 96 118 171 278 374) speed_entry)
    | _ => None
    end;
  match rate speed_entry with
  | 800 => Some (set_nXS (by_chip 40 48 68 108 144) speed_entry)
  | 1066 => Some (set_nXS (by_chip 54 64 91 144 192) speed_entry)
  | 1333 => Some (set_nXS (by_chip 67 80 114 180 240) speed_entry)
  | 1600 => Some (set_nXS (by_chip 80 96 136 216 288) speed_entry)
  | 1866 => Some (set_nXS (by_chip 94 112 159 252 336) speed_entry)
  | 2133 => Some (set_nXS (by_chip 107 128 182 288 384) speed_entry)
  | _ => None
  end.

(** The members of the object: [timing] holds the entries of the table of the
    temperature [timing_temp]. *)
Record ALDRAM := mkALDRAM {
  org_entry : OrgEntry; speed_entry : SpeedEntry; read_latency : Z;
  current_speed : Speed; temperature : Temp; timing_temp : Temp
}.

(** [ALDRAM(Org, Speed)] and [ALDRAM(string, string)]: the timing is that of the
    hot table, and the temperature is then set to cold. *)
Definition new (org : Org) (speed : Speed) : option ALDRAM :=
  let org_entry := org_table org in
  let speed_entry := speed_table COLD speed in
  let read_latency := nCL speed_entry + nBL speed_entry in
  speed_entry ← init_speed org_entry speed_entry;
  Some (mkALDRAM org_entry speed_entry read_latency speed COLD HOT).
Definition new_str (org_str speed_str : string) : option ALDRAM :=
  new (map_at ALDRAM_512Mb_x4 org_map org_str) (map_at ALDRAM_800D speed_map speed_str).

(** [aldram_timing(current_temperature)] *)
Definition aldram_timing (current_temperature : Temp) (o : ALDRAM) : ALDRAM :=
  mkALDRAM (org_entry o) (speed_entry o) (nCL (speed_entry o) + nBL (speed_entry o)) (current_speed o)
    current_temperature current_temperature.

(** [set_channel_number] and [set_rank_number] *)
Definition set_count (l : Level) (x : Z) (o : ALDRAM) : ALDRAM :=
  let e := org_entry o in
  mkALDRAM (mkOrg (size e) (dq e) (<[level_int l := x]> (count e))) (speed_entry o) (read_latency o)
    (current_speed o) (temperature o) (timing_temp o).
Definition set_channel_number (channel : Z) (o : ALDRAM) : ALDRAM := set_count Channel channel o.
Definition set_rank_number (rank : Z) (o : ALDRAM) : ALDRAM := set_count Rank rank o.

(** ** Prerequisites, row hits and state transitions *)

Definition node : Type := DRAM Level Command State.

Definition prereq (l : Level) (c : Command) : option (node → Command → Z → option Command) :=
  match l, c with
  | Rank, RD | Rank, WR =>
    Some (λ node _ _,
      match state (info node) with
      | PowerUp => Some Cmd_MAX
      | ActPowerDown => Some PDX
      | PrePowerDown => Some PDX
      | SelfRefresh => Some SRX
      | _ => None
      end)
  | Bank, RD | Bank, WR =>
    Some (λ node cmd id,
      match state (info node) with
      | Closed => Some ACT
      | Opened => if decide (is_Some (row_state (info node) !! id)) then Some cmd else Some PRE
      | _ => None
      end)
  | Rank, REF =>
    Some (λ node _ _,
      if forallb (λ bank, bool_decide (state (info bank) = Closed)) (children node)
      then Some REF else Some PREA)
  | Rank, PDE =>
    Some (λ node _ _,
      match state (info node) with
      | PowerUp => Some PDE
      | ActPowerDown => Some PDE
      | PrePowerDown => Some PDE
      | SelfRefresh => Some SRX
      | _ => None
      end)
  | Rank, SRE =>
    Some (λ node _ _,
      match state (info node) with
      | PowerUp => Some SRE
      | ActPowerDown => Some PDX
      | PrePowerDown => Some PDX
      | SelfRefresh => Some SRE
      | _ => None
      end)
  | _, _ => None
  end.

Definition rowhit (l : Level) (c : Command) : option (node → Command → Z → option bool) :=
  match l, c with
  | Bank, RD | Bank, WR =>
    Some (λ node _ id,
      match state (info node) with
      | Closed => Some false
      | Opened => if decide (is_Some (row_state (info node) !! id)) then Some true else Some false
      | _ => None
      end)
  | _, _ => None
  end.

Definition rowopen (l : Level) (c : Command) : option (node → Command → Z → option bool) :=
  match l, c with
  | Bank, RD | Bank, WR =>
    Some (λ node _ _,
      match state (info node) with Closed => Some false | Opened => Some true | _ => None end)
  | _, _ => None
  end.

(** [node->state = State::Closed; node->row_state.clear();] *)
Definition close (n : dram_info Level Command State) : dram_info Level Command State :=
  set_row_state ∅ (set_state Closed n).

Definition lambda (l : Level) (c : Command) : option (node → Z → option node) :=
  match l, c with
  | Bank, ACT =>
    Some (λ node id,
      Some (on_info (λ n, set_row_state (<[id := Opened]> (row_state n)) (set_state Opened n)) node))
  | Bank, PRE | Bank, RDA | Bank, WRA =>
    Some (λ node _, Some (on_info close node))
  | Rank, PREA =>
    Some (λ node _, Some (Dram (info node) (map (on_info close) (children node))))
  | Rank, REF | Bank, RD | Bank, WR =>
    Some (λ node _, Some node)
  | Rank, PDE =>
    Some (λ node _,
      if forallb (λ bank, bool_decide (state (info bank) = Closed)) (children node)
      then Some (on_info (set_state PrePowerDown) node)
      else Some (on_info (set_state ActPowerDown) node))
  | Rank, PDX | Rank, SRX =>
    Some (λ node _, Some (on_info (set_state PowerUp) node))
  | Rank, SRE =>
    Some (λ node _, Some (on_info (set_state SelfRefresh) node))
  | _, _ => None
  end.

(** ** Timing: the [push_back] calls in source order *)

Definition init_timing (s : SpeedEntry) : list (Level * Command * TimingEntry Command) :=
  [ (Channel, RD, mkTiming RD 1 (nBL s) false);
    (Channel, RD, mkTiming RDA 1 (nBL s) false);
    (Channel, RDA, mkTiming RD 1 (nBL s) false);
    (Channel, RDA, mkTiming RDA 1 (nBL s) false);
    (Channel, WR, mkTiming WR 1 (nBL s) false);
    (Channel, WR, mkTiming WRA 1 (nBL s) false);
    (Channel, WRA, mkTiming WR 1 (nBL s) false);
    (Channel, WRA, mkTiming WRA 1 (nBL s) false);
    (Rank, RD, mkTiming RD 1 (nCCD s) false);
    (Rank, RD, mkTiming RDA 1 (nCCD s) false);
    (Rank, RDA, mkTiming RD 1 (nCCD s) false);
    (Rank, RDA, mkTiming RDA 1 (nCCD s) false);
    (Rank, WR, mkTiming WR 1 (nCCD s) false);
    (Rank, WR, mkTiming WRA 1 (nCCD s) false);
    (Rank, WRA, mkTiming WR 1 (nCCD s) false);
    (Rank, WRA, mkTiming WRA 1 (nCCD s) false);
    (Rank, RD, mkTiming WR 1 (nCL s + nCCD s + 2 - nCWL s) false);
    (Rank, RD, mkTiming WRA 1 (nCL s + nCCD s + 2 - nCWL s) false);
    (Rank, RDA, mkTiming WR 1 (nCL s + nCCD s + 2 - nCWL s) false);
    (Rank, RDA, mkTiming WRA 1 (nCL s + nCCD s + 2 - nCWL s) false);
    (Rank, WR, mkTiming RD 1 (nCWL s + nBL s + nWTR s) false);
    (Rank, WR, mkTiming RDA 1 (nCWL s + nBL s + nWTR s) false);
    (Rank, WRA, mkTiming RD 1 (nCWL s + nBL s + nWTR s) false);
    (Rank, WRA, mkTiming RDA 1 (nCWL s + nBL s + nWTR s) false);
    (Rank, RD, mkTiming RD 1 (nBL s + nRTRS s) true);
    (Rank, RD, mkTiming RDA 1 (nBL s + nRTRS s) true);
    (Rank, RDA, mkTiming RD 1 (nBL s + nRTRS s) true);
    (Rank, RDA, mkTiming RDA 1 (nBL s + nRTRS s) true);
    (Rank, RD, mkTiming WR 1 (nBL s + nRTRS s) true);
    (Rank, RD, mkTiming WRA 1 (nBL s + nRTRS s) true);
    (Rank, RDA, mkTiming WR 1 (nBL s + nRTRS s) true);
    (Rank, RDA, mkTiming WRA 1 (nBL s + nRTRS s) true);
    (Rank, RD, mkTiming WR 1 (nCL s + nBL s + nRTRS s - nCWL s) true);
    (Rank, RD, mkTiming WRA 1 (nCL s + nBL s + nRTRS s - nCWL s) true);
    (Rank, RDA, mkTiming WR 1 (nCL s + nBL s + nRTRS s - nCWL s) true);
    (Rank, RDA, mkTiming WRA 1 (nCL s + nBL s + nRTRS s - nCWL s) true);
    (Rank, WR, mkTiming RD 1 (nCWL s + nBL s + nRTRS s - nCL s) true);
    (Rank, WR, mkTiming RDA 1 (nCWL s + nBL s + nRTRS s - nCL s) true);
    (Rank, WRA, mkTiming RD 1 (nCWL s + nBL s + nRTRS s - nCL s) true);
    (Rank, WRA, mkTiming RDA 1 (nCWL s + nBL s + nRTRS s - nCL s) true);
    (Rank, RD, mkTiming PREA 1 (nRTP s) false);
    (Rank, WR, mkTiming PREA 1 (nCWL s + nBL s + nWR s) false);
    (Rank, RD, mkTiming PDE 1 (nCL s + nBL s + 1) false);
    (Rank, RDA, mkTiming PDE 1 (nCL s + nBL s + 1) false);
    (Rank, WR, mkTiming PDE 1 (nCWL s + nBL s + nWR s) false);
    (Rank, WRA, mkTiming PDE 1 (nCWL s + nBL s + nWR s + 1) false);
    (Rank, PDX, mkTiming RD 1 (nXP s) false);
    (Rank, PDX, mkTiming RDA 1 (nXP s) false);
    (Rank, PDX, mkTiming WR 1 (nXP s) false);
    (Rank, PDX, mkTiming WRA 1 (nXP s) false);
    (Rank, ACT, mkTiming ACT 1 (nRRD s) false);
    (Rank, ACT, mkTiming ACT 4 (nFAW s) false);
    (Rank, ACT, mkTiming PREA 1 (nRAS s) false);
    (Rank, PREA, mkTiming ACT 1 (nRP s) false);
    (Rank, PRE, mkTiming REF 1 (nRP s) false);
    (Rank, PREA, mkTiming REF 1 (nRP s) false);
    (Rank, REF, mkTiming ACT 1 (nRFC s) false);
    (Rank, ACT, mkTiming PDE 1 1 false);
    (Rank, PDX, mkTiming ACT 1 (nXP s) false);
    (Rank, PDX, mkTiming PRE 1 (nXP s) false);
    (Rank, PDX, mkTiming PREA 1 (nXP s) false);
    (Rank, PRE, mkTiming SRE 1 (nRP s) false);
    (Rank, PREA, mkTiming SRE 1 (nRP s) false);
    (Rank, SRX, mkTiming ACT 1 (nXS s) false);
    (Rank, REF, mkTiming REF 1 (nRFC s) false);
    (Rank, REF, mkTiming PDE 1 1 false);
    (Rank, PDX, mkTiming REF 1 (nXP s) false);
    (Rank, SRX, mkTiming REF 1 (nXS s) false);
    (Rank, PDE, mkTiming PDX 1 (nPD s) false);
    (Rank, PDX, mkTiming PDE 1 (nXP s) false);
    (Rank, PDX, mkTiming SRE 1 (nXP s) false);
    (Rank, SRX, mkTiming PDE 1 (nXS s) false);
    (Rank, SRE, mkTiming SRX 1 (nCKESR s) false);
    (Rank, SRX, mkTiming SRE 1 (nXS s) false);
    (Bank, ACT, mkTiming RD 1 (nRCD s) false);
    (Bank, ACT, mkTiming RDA 1 (nRCD s) false);
    (Bank, ACT, mkTiming WR 1 (nRCD s) false);
    (Bank, ACT, mkTiming WRA 1 (nRCD s) false);
    (Bank, RD, mkTiming PRE 1 (nRTP s) false);
    (Bank, WR, mkTiming PRE 1 (nCWL s + nBL s + nWR s) false);
    (Bank, RDA, mkTiming ACT 1 (nRTP s + nRP s) false);
    (Bank, WRA, mkTiming ACT 1 (nCWL s + nBL s + nWR s + nRP s) false);
    (Bank, ACT, mkTiming ACT 1 (nRC s) false);
    (Bank, ACT, mkTiming PRE 1 (nRAS s) false);
    (Bank, PRE, mkTiming ACT 1 (nRP s) false) ].

(** ** The standard as an instance of the interfaces *)

(** Members with a default initialiser. *)
Definition prefetch_size : Z := 8.
Definition channel_width : Z := 64.

Definition spec (o : ALDRAM) : Spec Level Command State :=
  {| Dram.level_int := level_int; Dram.level_cast := level_cast; Dram.level_MAX := 5;
     Dram.lvl_Bank := Bank; Dram.lvl_Row := Row; Dram.cmd_MAX := Cmd_MAX; Dram.cmd_PRE := PRE;
     Dram.scope := scope; Dram.start := start; Dram.is_opening := is_opening;
     Dram.is_accessing := is_accessing; Dram.is_closing := is_closing;
     Dram.is_refreshing := is_refreshing; Dram.translate := translate;
     Dram.prereq := prereq; Dram.rowhit := rowhit; Dram.rowopen := rowopen; Dram.lambda := lambda;
     Dram.timing := entries_at (init_timing (speed_table (timing_temp o) (current_speed o)));
     Dram.count := count (org_entry o); Dram.nREFI := nREFI (speed_entry o);
     Dram.read_latency := read_latency o; Dram.prefetch_size := prefetch_size;
     Dram.channel_width := channel_width |}.

Definition proto : Proto Level Command State :=
  {| p_power := Rank; p_RD := RD; p_WR := WR; p_ACT := ACT; p_PREA := PREA; p_REF := REF;
     p_PDX := PDX; p_SRX := SRX; p_Opened := Opened; p_Closed := Closed; p_PowerUp := PowerUp;
     p_ActPowerDown := ActPowerDown; p_PrePowerDown := PrePowerDown; p_SelfRefresh := SelfRefresh |}.

Lemma init_timing_check_ALDRAM s : table_check is_refreshing is_opening (init_timing s) = true.
Proof. vm_compute. reflexivity. Qed.

Section Instances.
Variable o : ALDRAM.
Context `{Hcount : !CountOK 5 (count (org_entry o))}.

#[global] Instance spec_TimingOK : TimingOK (spec o).
Proof.
  apply (TimingOK_table _ (init_timing (speed_table (timing_temp o) (current_speed o)))); [done|apply init_timing_check_ALDRAM|done|simpl; lia|..].
  - intros k Hk. simpl in Hk. do 5 (destruct k as [|k]; [by eexists|]). lia.
  - intros k l Hl. do 5 (destruct k as [|k]; [by simplify_eq/=|]). done.
  - by intros [] [].
Qed.

#[global] Instance spec_LambdaFrame : LambdaFrame (spec o).
Proof. intros l c f d i d' Hf Hd. destruct l, c; simpl in Hf; simplify_eq; solve_frame. Qed.

#[global] Instance spec_BankProtocol : BankProtocol (spec o) proto.
Proof. split; try apply _; solve_protocol. Qed.

End Instances.

End ALDRAM.

