(* ===== verification/SpecTLDRAM.v ===== *)
(** * TLDRAM ([ramulator/src/TLDRAM.h], [ramulator/src/TLDRAM.cpp])

    The tables of the standard, a rank holds its banks directly; the rows of a bank
    are near ([id % segment_ratio == 0]) or far, with commands of their own.
    The enumerations keep the source's names ([MAX] is [Cmd_MAX] and
    [State_MAX]; the tables are not indexed by it, and their value there stands
    for nothing); an array indexed by an enumeration is a function on it.  The
    floating point members of a speed entry ([freq], [tCK]) only scale printed
    statistics and are left out. *)

From S2P Require Import Prelude Request Dram DramTiming BankProtocol Standard.

Module TLDRAM.

(** ** Enumerations *)

Inductive Level := Channel | Rank | Bank | Row | Column.
Inductive Command :=
  | ACT | PRE | PREA | RD | WR | REF | PDE | PDX | SRE | SRX | ACTF | PREF | PREAF | MIG | ACTM
  | PREM | PREAM | Cmd_MAX.
Inductive State :=
  | Opened | Closed | PowerUp | ActPowerDown | PrePowerDown | SelfRefresh | State_MAX.
Inductive Org :=
  | TLDRAM_512Mb_x4 | TLDRAM_512Mb_x8 | TLDRAM_512Mb_x16 | TLDRAM_1Gb_x4 | TLDRAM_1Gb_x8
  | TLDRAM_1Gb_x16 | TLDRAM_2Gb_x4 | TLDRAM_2Gb_x8 | TLDRAM_2Gb_x16 | TLDRAM_4Gb_x4
  | TLDRAM_4Gb_x8 | TLDRAM_4Gb_x16 | TLDRAM_8Gb_x4 | TLDRAM_8Gb_x8 | TLDRAM_8Gb_x16.
Inductive Speed :=
  | TLDRAM_800D | TLDRAM_800E | TLDRAM_1066E | TLDRAM_1066F | TLDRAM_1066G | TLDRAM_1333G
  | TLDRAM_1333H | TLDRAM_1600H | TLDRAM_1600J | TLDRAM_1600K | TLDRAM_1866K | TLDRAM_1866L
  | TLDRAM_2133L | TLDRAM_2133M.

#[global] Instance Level_eq_dec : EqDecision Level.
Proof. solve_decision. Defined.
#[global] Instance Command_eq_dec : EqDecision Command.
Proof. solve_decision. Defined.
#[global] Instance State_eq_dec : EqDecision State.
Proof. solve_decision. Defined.
#[global] Instance Org_eq_dec : EqDecision Org.
Proof. solve_decision. Defined.
#[global] Instance Speed_eq_dec : EqDecision Speed.
Proof. solve_decision. Defined.

(** [int(level)] and [Level(i)] *)
Definition level_int (l : Level) : nat :=
  match l with Channel => 0 | Rank => 1 | Bank => 2 | Row => 3 | Column => 4 end%nat.
Definition level_cast (i : nat) : option Level :=
  match i with
  | 0 => Some Channel | 1 => Some Rank | 2 => Some Bank | 3 => Some Row | 4 => Some Column
  | _ => None
  end%nat.

(** ** Command tables *)

Definition scope (cmd : Command) : Level :=
  match cmd with
  | PREA | REF | PDE | PDX | SRE | SRX | PREAF | PREAM => Rank
  | PRE | PREF | PREM => Bank
  | ACT | ACTF | ACTM => Row
  | RD | WR | MIG => Column
  | Cmd_MAX => Column
  end.

Definition is_opening (cmd : Command) : bool :=
  match cmd with ACT | ACTF | ACTM => true | _ => false end.
Definition is_accessing (cmd : Command) : bool :=
  match cmd with RD | WR | MIG => true | _ => false end.
Definition is_closing (cmd : Command) : bool :=
  match cmd with PRE | PREF | PREM | PREA | PREAF | PREAM => true | _ => false end.
Definition is_refreshing (cmd : Command) : bool :=
  match cmd with REF => true | _ => false end.

Definition start (l : Level) : State :=
  match l with Channel => State_MAX | Rank => PowerUp | Bank => Closed | Row => Closed | Column => State_MAX end.

(** The initialiser lists six commands; the entries of the remaining request
    types are value-initialised, which is the first command. *)
Definition translate (t : ReqType) : Command :=
  match t with
  | READ => RD | WRITE => WR | REFRESH => REF | POWERDOWN => PDE | SELFREFRESH => SRE | EXTENSION => MIG
  | INSTRUCTION | ReqMAX => ACT
  end.

(** ** Organisations and speeds *)

Record OrgEntry := mkOrg { size : Z; dq : Z; count : list Z }.

Definition org_table (o : Org) : OrgEntry :=
  match o with
  | TLDRAM_512Mb_x4 => mkOrg 512 4 [0; 0; 8; Z.shiftl 1 13; Z.shiftl 1 11]
  | TLDRAM_512Mb_x8 => mkOrg 512 8 [0; 0; 8; Z.shiftl 1 13; Z.shiftl 1 10]
  | TLDRAM_512Mb_x16 => mkOrg 512 16 [0; 0; 8; Z.shiftl 1 12; Z.shiftl 1 10]
  | TLDRAM_1Gb_x4 => mkOrg (Z.shiftl 1 10) 4 [0; 0; 8; Z.shiftl 1 14; Z.shiftl 1 11]
  | TLDRAM_1Gb_x8 => mkOrg (Z.shiftl 1 10) 8 [0; 0; 8; Z.shiftl 1 14; Z.shiftl 1 10]
  | TLDRAM_1Gb_x16 => mkOrg (Z.shiftl 1 10) 16 [0; 0; 8; Z.shiftl 1 13; Z.shiftl 1 10]
  | TLDRAM_2Gb_x4 => mkOrg (Z.shiftl 2 10) 4 [0; 0; 8; Z.shiftl 1 15; Z.shiftl 1 11]
  | TLDRAM_2Gb_x8 => mkOrg (Z.shiftl 2 10) 8 [0; 0; 8; Z.shiftl 1 15; Z.shiftl 1 10]
  | TLDRAM_2Gb_x16 => mkOrg (Z.shiftl 2 10) 16 [0; 0; 8; Z.shiftl 1 14; Z.shiftl 1 10]
  | TLDRAM_4Gb_x4 => mkOrg (Z.shiftl 4 10) 4 [0; 0; 8; Z.shiftl 1 16; Z.shiftl 1 11]
  | TLDRAM_4Gb_x8 => mkOrg (Z.shiftl 4 10) 8 [0; 0; 8; Z.shiftl 1 16; Z.shiftl 1 10]
  | TLDRAM_4Gb_x16 => mkOrg (Z.shiftl 4 10) 16 [0; 0; 8; Z.shiftl 1 15; Z.shiftl 1 10]
  | TLDRAM_8Gb_x4 => mkOrg (Z.shiftl 8 10) 4 [0; 0; 8; Z.shiftl 1 16; Z.shiftl 1 12]
  | TLDRAM_8Gb_x8 => mkOrg (Z.shiftl 8 10) 8 [0; 0; 8; Z.shiftl 1 16; Z.shiftl 1 11]
  | TLDRAM_8Gb_x16 => mkOrg (Z.shiftl 8 10) 16 [0; 0; 8; Z.shiftl 1 16; Z.shiftl 1 10]
  end.

Record SpeedEntry := mkSpeed {
  rate : Z; nBL : Z; nCCD : Z; nRTRS : Z; nCL : Z; nRCD : Z; nRP : Z; nCWL : Z; nRAS : Z;
  nRC : Z; nRTP : Z; nWTR : Z; nWR : Z; nRRD : Z; nFAW : Z; nRFC : Z; nREFI : Z; nPD : Z;
  nXP : Z; nXPDLL : Z; nCKESR : Z; nXS : Z; nXSDLL : Z; nRCDF : Z; nRPF : Z; nRASF : Z;
  nRCF : Z; nRCDM : Z; nRPM : Z; nRASM : Z; nRCM : Z
}.

(** rate nBL nCCD nRTRS nCL nRCD nRP nCWL nRAS nRC nRTP nWTR nWR nRRD nFAW nRFC nREFI nPD nXP
    nXPDLL nCKESR nXS nXSDLL nRCDF nRPF nRASF nRCF nRCDM nRPM nRASM nRCM *)
Definition speed_table (s : Speed) : SpeedEntry :=
  match s with
  | TLDRAM_800D =>
    mkSpeed 800 4 4 2 5 5 5 5 15 20 4 4 6 0 0 0 3120 3 3 10 4 0 512 3 3 10 13 6 6 20 26
  | TLDRAM_800E =>
    mkSpeed 800 4 4 2 6 6 6 5 15 21 4 4 6 0 0 0 3120 3 3 10 4 0 512 3 3 10 13 6 6 20 26
  | TLDRAM_1066E =>
    mkSpeed 1066 4 4 2 6 6 6 6 20 26 4 4 8 0 0 0 4160 3 4 13 4 0 512 3 3 10 13 6 6 20 26
  | TLDRAM_1066F =>
    mkSpeed 1066 4 4 2 7 7 7 6 20 27 4 4 8 0 0 0 4160 3 4 13 4 0 512 3 3 10 13 6 6 20 26
  | TLDRAM_1066G =>
    mkSpeed 1066 4 4 2 8 8 8 6 20 28 4 4 8 0 0 0 4160 3 4 13 4 0 512 3 3 10 13 6 6 20 26
  | TLDRAM_1333G =>
    mkSpeed 1333 4 4 2 8 8 8 7 24 32 5 5 10 0 0 0 5200 4 4 16 5 0 512 3 3 10 13 6 6 20 26
  | TLDRAM_1333H =>
    mkSpeed 1333 4 4 2 9 9 9 7 24 33 5 5 10 0 0 0 5200 4 4 16 5 0 512 3 3 10 13 6 6 20 26
  | TLDRAM_1600H =>
    mkSpeed 1600 4 4 2 9 9 9 8 28 37 6 6 12 0 0 0 6240 4 5 20 5 0 512 3 3 10 13 6 6 20 26
  | TLDRAM_1600J =>
    mkSpeed 1600 4 4 2 10 10 10 8 28 38 6 6 12 0 0 0 6240 4 5 20 5 0 512 3 3 10 13 6 6 20 26
  | TLDRAM_1600K =>
    mkSpeed 1600 4 4 2 11 11 11 8 28 39 6 6 12 0 0 0 6240 4 5 20 5 0 512 3 3 10 13 6 6 20 26
  | TLDRAM_1866K =>
    mkSpeed 1866 4 4 2 11 11 11 9 32 43 7 7 14 0 0 0 7280 5 6 23 6 0 512 3 3 10 13 6 6 20 26
  | TLDRAM_1866L =>
    mkSpeed 1866 4 4 2 12 12 12 9 32 44 7 7 14 0 0 0 7280 5 6 23 6 0 512 3 3 10 13 6 6 20 26
  | TLDRAM_2133L =>
    mkSpeed 2133 4 4 2 12 12 12 10 36 48 8 8 16 0 0 0 8320 6 7 26 7 0 512 3 3 10 13 6 6 20 26
  | TLDRAM_2133M =>
    mkSpeed 2133 4 4 2 13 13 13 10 36 49 8 8 16 0 0 0 8320 6 7 26 7 0 512 3 3 10 13 6 6 20 26
  end.

Definition org_map : list (string * Org) :=
  [("TLDRAM_512Mb_x4"%string, TLDRAM_512Mb_x4); ("TLDRAM_512Mb_x8"%string, TLDRAM_512Mb_x8);
   ("TLDRAM_512Mb_x16"%string, TLDRAM_512Mb_x16); ("TLDRAM_1Gb_x4"%string, TLDRAM_1Gb_x4);
   ("TLDRAM_1Gb_x8"%string, TLDRAM_1Gb_x8); ("TLDRAM_1Gb_x16"%string, TLDRAM_1Gb_x16);
   ("TLDRAM_2Gb_x4"%string, TLDRAM_2Gb_x4); ("TLDRAM_2Gb_x8"%string, TLDRAM_2Gb_x8);
   ("TLDRAM_2Gb_x16"%string, TLDRAM_2Gb_x16); ("TLDRAM_4Gb_x4"%string, TLDRAM_4Gb_x4);
   ("TLDRAM_4Gb_x8"%string, TLDRAM_4Gb_x8); ("TLDRAM_4Gb_x16"%string, TLDRAM_4Gb_x16);
   ("TLDRAM_8Gb_x4"%string, TLDRAM_8Gb_x4); ("TLDRAM_8Gb_x8"%string, TLDRAM_8Gb_x8);
   ("TLDRAM_8Gb_x16"%string, TLDRAM_8Gb_x16)].
Definition speed_map : list (string * Speed) :=
  [("TLDRAM_800D"%string, TLDRAM_800D); ("TLDRAM_800E"%string, TLDRAM_800E);
   ("TLDRAM_1066E"%string, TLDRAM_1066E); ("TLDRAM_1066F"%string, TLDRAM_1066F);
   ("TLDRAM_1066G"%string, TLDRAM_1066G); ("TLDRAM_1333G"%string, TLDRAM_1333G);
   ("TLDRAM_1333H"%string, TLDRAM_1333H); ("TLDRAM_1600H"%string, TLDRAM_1600H);
   ("TLDRAM_1600J"%string, TLDRAM_1600J); ("TLDRAM_1600K"%string, TLDRAM_1600K);
   ("TLDRAM_1866K"%string, TLDRAM_1866K); ("TLDRAM_1866L"%string, TLDRAM_1866L);
   ("TLDRAM_2133L"%string, TLDRAM_2133L); ("TLDRAM_2133M"%string, TLDRAM_2133M)].

Definition set_nRRD (x : Z) (s : SpeedEntry) : SpeedEntry :=
  mkSpeed (rate s) (nBL s) (nCCD s) (nRTRS s) (nCL s) (nRCD s) (nRP s) (nCWL s) (nRAS s) (nRC s)
    (nRTP s) (nWTR s) (nWR s) x (nFAW s) (nRFC s) (nREFI s) (nPD s) (nXP s) (nXPDLL s)
    (nCKESR s) (nXS s) (nXSDLL s) (nRCDF s) (nRPF s) (nRASF s) (nRCF s) (nRCDM s) (nRPM s)
    (nRASM s) (nRCM s).
Definition set_nFAW (x : Z) (s : SpeedEntry) : SpeedEntry :=
  mkSpeed (rate s) (nBL s) (nCCD s) (nRTRS s) (nCL s) (nRCD s) (nRP s) (nCWL s) (nRAS s) (nRC s)
    (nRTP s) (nWTR s) (nWR s) (nRRD s) x (nRFC s) (nREFI s) (nPD s) (nXP s) (nXPDLL s)
    (nCKESR s) (nXS s) (nXSDLL s) (nRCDF s) (nRPF s) (nRASF s) (nRCF s) (nRCDM s) (nRPM s)
    (nRASM s) (nRCM s).
Definition set_nRFC (x : Z) (s : SpeedEntry) : SpeedEntry :=
  mkSpeed (rate s) (nBL s) (nCCD s) (nRTRS s) (nCL s) (nRCD s) (nRP s) (nCWL s) (nRAS s) (nRC s)
    (nRTP s) (nWTR s) (nWR s) (nRRD s) (nFAW s) x (nREFI s) (nPD s) (nXP s) (nXPDLL s)
    (nCKESR s) (nXS s) (nXSDLL s) (nRCDF s) (nRPF s) (nRASF s) (nRCF s) (nRCDM s) (nRPM s)
    (nRASM s) (nRCM s).
Definition set_nXS (x : Z) (s : SpeedEntry) : SpeedEntry :=
  mkSpeed (rate s) (nBL s) (nCCD s) (nRTRS s) (nCL s) (nRCD s) (nRP s) (nCWL s) (nRAS s) (nRC s)
    (nRTP s) (nWTR s) (nWR s) (nRRD s) (nFAW s) (nRFC s) (nREFI s) (nPD s) (nXP s) (nXPDLL s)
    (nCKESR s) x (nXSDLL s) (nRCDF s) (nRPF s) (nRASF s) (nRCF s) (nRCDM s) (nRPM s) (nRASM s)
    (nRCM s).

(** [init_speed]: the parameters that depend on the page size and the density. *)
Definition init_speed (org_entry : OrgEntry) (speed_entry : SpeedEntry) : option SpeedEntry :=
  cols ← count org_entry !! level_int Column;
  let page := Z.shiftr (dq org_entry * cols) 13 in
  let by_page (a b : Z) := if page =? 1 then a else b in
  speed_entry ←
    match rate speed_entry with
    | 800 => Some (set_nFAW (by_page 16 20) (set_nRRD (by_page 4 4) speed_entry))
    | 1066 => Some (set_nFAW (by_page 20 27) (set_nRRD (by_page 4 6) speed_entry))
    | 1333 => Some (set_nFAW (by_page 20 30) (set_nRRD (by_page 4 5) speed_entry))
    | 1600 => Some (set_nFAW (by_page 24 32) (set_nRRD (by_page 5 6) speed_entry))
    | 1866 => Some (set_nFAW (by_page 26 33) (set_nRRD (by_page 5 6) speed_entry))
    | 2133 => Some (set_nFAW (by_page 27 34) (set_nRRD (by_page 5 6) speed_entry))
    | _ => None
    end;
  let chip := size org_entry in
  let by_chip (a b c d e : Z) :=
    if chip =? 512 then a else if chip =? Z.shiftl 1 10 then b
    else if chip =? Z.shiftl 1 11 then c else if chip =? Z.shiftl 1 12 then d else e in
  speed_entry ←
    match rate speed_entry with
    | 800 => Some (set_nRFC (by_chip 36 44 64 104 140) speed_entry)
    | 1066 => Some (set_nRFC (by_chip 48 59 86 139 187) speed_entry)
    | 1333 => Some (set_nRFC (by_chip 60 74 107 174 234) speed_entry)
    | 1600 => Some (set_nRFC (by_chip 72 88 128 208 280) speed_entry)
    | 1866 => Some (set_nRFC (by_chip 84 103 150 243 327) speed_entry)
    | 2133 => Some (set_nRFC (by_chip 96 118 171 278 374) speed_entry)
    | _ => None
    end;
  match rate speed_entry with
  | 800 => Some (set_nXS (by_chip 40 48 68 108 144) speed_entry)
  | 1066 => Some (set_nXS (by_chip 54 64 91 144 192) speed_entry)
  | 1333 => Some (set_nXS (by_chip 67 80 114 180 240) speed_entry)
  | 1600 => Some (set_nXS (by_chip 80 96 136 216 288) speed_entry)
  | 1866 => Some (set_nXS (by_chip 94 112 159 252 336) speed_entry)
  | 2133 => Some (set_nXS (by_chip 107 128 182 288 384) speed_entry)
  | _ => None
  end.

(** The members of the object the constructor sets. *)
Record TLDRAM := mkTLDRAM { segment_ratio : Z; org_entry : OrgEntry; speed_entry : SpeedEntry; read_latency : Z }.

(** [TLDRAM(Org, Speed, int)] and [TLDRAM(string, string, int)] *)
Definition new (org : Org) (speed : Speed) (segment_ratio : Z) : option TLDRAM :=
  let org_entry := org_table org in
  let speed_entry := speed_table speed in
  let read_latency := nCL speed_entry + nBL speed_entry in
  speed_entry ← init_speed org_entry speed_entry;
  Some (mkTLDRAM segment_ratio org_entry speed_entry read_latency).
Definition new_str (org_str speed_str : string) (segment_ratio : Z) : option TLDRAM :=
  new (map_at TLDRAM_512Mb_x4 org_map org_str) (map_at TLDRAM_800D speed_map speed_str) segment_ratio.

(** [set_channel_number] and [set_rank_number] *)
Definition set_count (l : Level) (x : Z) (o : TLDRAM) : TLDRAM :=
  let e := org_entry o in
  mkTLDRAM (segment_ratio o) (mkOrg (size e) (dq e) (<[level_int l := x]> (count e))) (speed_entry o) (read_latency o).
Definition set_channel_number (channel : Z) (o : TLDRAM) : TLDRAM := set_count Channel channel o.
Definition set_rank_number (rank : Z) (o : TLDRAM) : TLDRAM := set_count Rank rank o.

(** [if (id % node->spec->segment_ratio) return far; else return near;] *)
Definition by_segment (segment_ratio id : Z) (far near : Command) : option Command :=
  if segment_ratio =? 0 then None else if Z.rem id segment_ratio =? 0 then Some near else Some far.

(** ** Prerequisites, row hits and state transitions *)

Definition node : Type := DRAM Level Command State.

Definition prereq (segment_ratio : Z) (l : Level) (c : Command) : option (node → Command → Z → option Command) :=
  match l, c with
  | Rank, RD | Rank, MIG | Rank, WR =>
    Some (λ node _ _,
      match state (info node) with
      | PowerUp => Some Cmd_MAX
      | ActPowerDown => Some PDX
      | PrePowerDown => Some PDX
      | SelfRefresh => Some SRX
      | _ => None
      end)
  | Bank, RD | Bank, WR =>
    Some (λ node cmd id,
      match state (info node) with
      | Closed => by_segment segment_ratio id ACT ACTF
      | Opened =>
        if decide (is_Some (row_state (info node) !! id)) then Some cmd
        else by_segment segment_ratio id PRE PREF
      | _ => None
      end)
  | Bank, MIG =>
    Some (λ node cmd id,
      match state (info node) with
      | Closed => Some ACTM
      | Opened => if decide (is_Some (row_state (info node) !! id)) then Some cmd else Some PREM
      | _ => None
      end)
  | Rank, REF =>
    Some (λ node _ id,
      if forallb (λ bank, bool_decide (state (info bank) = Closed)) (children node)
      then Some REF else by_segment segment_ratio id PREA PREAF)
  | Rank, PDE =>
    Some (λ node _ _,
      match state (info node) with
      | PowerUp => Some PDE
      | ActPowerDown => Some PDE
      | PrePowerDown => Some PDE
      | SelfRefresh => Some SRX
      | _ => None
      end)
  | Rank, SRE =>
    Some (λ node _ _,
      match state (info node) with
      | PowerUp => Some SRE
      | ActPowerDown => Some PDX
      | PrePowerDown => Some PDX
      | SelfRefresh => Some SRE
      | _ => None
      end)
  | _, _ => None
  end.

Definition rowhit (l : Level) (c : Command) : option (node → Command → Z → option bool) :=
  match l, c with
  | Bank, RD | Bank, WR =>
    Some (λ node _ id,
      match state (info node) with
      | Closed => Some false
      | Opened => if decide (is_Some (row_state (info node) !! id)) then Some true else Some false
      | _ => None
      end)
  | _, _ => None
  end.

Definition rowopen (l : Level) (c : Command) : option (node → Command → Z → option bool) :=
  match l, c with
  | Bank, RD | Bank, WR =>
    Some (λ node _ _,
      match state (info node) with Closed => Some false | Opened => Some true | _ => None end)
  | _, _ => None
  end.

(** [node->state = State::Closed; node->row_state.clear();] *)
Definition close (n : dram_info Level Command State) : dram_info Level Command State :=
  set_row_state ∅ (set_state Closed n).

Definition lambda (l : Level) (c : Command) : option (node → Z → option node) :=
  match l, c with
  | Bank, ACT | Bank, ACTF | Bank, ACTM =>
    Some (λ node id,
      Some (on_info (λ n, set_row_state (<[id := Opened]> (row_state n)) (set_state Opened n)) node))
  | Bank, PRE | Bank, PREF | Bank, PREM =>
    Some (λ node _, Some (on_info close node))
  | Rank, PREA | Rank, PREAF | Rank, PREAM =>
    Some (λ node _, Some (Dram (info node) (map (on_info close) (children node))))
  | Rank, REF | Bank, RD | Bank, WR | Bank, MIG =>
    Some (λ node _, Some node)
  | Rank, PDE =>
    Some (λ node _,
      if forallb (λ bank, bool_decide (state (info bank) = Closed)) (children node)
      then Some (on_info (set_state PrePowerDown) node)
      else Some (on_info (set_state ActPowerDown) node))
  | Rank, PDX | Rank, SRX =>
    Some (λ node _, Some (on_info (set_state PowerUp) node))
  | Rank, SRE =>
    Some (λ node _, Some (on_info (set_state SelfRefresh) node))
  | _, _ => None
  end.

(** ** Timing: the [push_back] calls in source order *)

Definition init_timing (s : SpeedEntry) : list (Level * Command * TimingEntry Command) :=
  [ (Channel, RD, mkTiming RD 1 (nBL s) false);
    (Channel, RD, mkTiming MIG 1 (nBL s) false);
    (Channel, MIG, mkTiming RD 1 (nBL s) false);
    (Channel, MIG, mkTiming MIG 1 (nBL s) false);
    (Channel, WR, mkTiming WR 1 (nBL s) false);
    (Rank, RD, mkTiming RD 1 (nCCD s) false);
    (Rank, RD, mkTiming MIG 1 (nCCD s) false);
    (Rank, MIG, mkTiming RD 1 (nCCD s) false);
    (Rank, MIG, mkTiming MIG 1 (nCCD s) false);
    (Rank, RD, mkTiming WR 1 (nCL s + nCCD s + 2 - nCWL s) false);
    (Rank, MIG, mkTiming WR 1 (nCL s + nCCD s + 2 - nCWL s) false);
    (Rank, WR, mkTiming RD 1 (nCWL s + nBL s + nWTR s) false);
    (Rank, WR, mkTiming MIG 1 (nCWL s + nBL s + nWTR s) false);
    (Rank, WR, mkTiming WR 1 (nCCD s) false);
    (Rank, RD, mkTiming RD 1 (nBL s + nRTRS s) true);
    (Rank, RD, mkTiming MIG 1 (nBL s + nRTRS s) true);
    (Rank, RD, mkTiming WR 1 (nBL s + nRTRS s) true);
    (Rank, RD, mkTiming WR 1 (nCL s + nBL s + nRTRS s - nCWL s) true);
    (Rank, RD, mkTiming PREA 1 (nRTP s) false);
    (Rank, RD, mkTiming PREAF 1 (nRTP s) false);
    (Rank, RD, mkTiming PREAM 1 (nRTP s) false);
    (Rank, MIG, mkTiming RD 1 (nBL s + nRTRS s) true);
    (Rank, MIG, mkTiming MIG 1 (nBL s + nRTRS s) true);
    (Rank, MIG, mkTiming WR 1 (nBL s + nRTRS s) true);
    (Rank, MIG, mkTiming WR 1 (nCL s + nBL s + nRTRS s - nCWL s) true);
    (Rank, MIG, mkTiming PREA 1 (nRTP s) false);
    (Rank, MIG, mkTiming PREAF 1 (nRTP s) false);
    (Rank, MIG, mkTiming PREAM 1 (nRTP s) false);
    (Rank, WR, mkTiming RD 1 (nCWL s + nBL s + nRTRS s - nCL s) true);
    (Rank, WR, mkTiming MIG 1 (nCWL s + nBL s + nRTRS s - nCL s) true);
    (Rank, WR, mkTiming PREA 1 (nCWL s + nBL s + nWR s) false);
    (Rank, WR, mkTiming PREAF 1 (nCWL s + nBL s + nWR s) false);
    (Rank, WR, mkTiming PREAM 1 (nCWL s + nBL s + nWR s) false);
    (Rank, RD, mkTiming PDE 1 (nCL s + nBL s + 1) false);
    (Rank, MIG, mkTiming PDE 1 (nCL s + nBL s + 1) false);
    (Rank, WR, mkTiming PDE 1 (nCWL s + nBL s + nWR s) false);
    (Rank, PDX, mkTiming RD 1 (nXP s) false);
    (Rank, PDX, mkTiming MIG 1 (nXP s) false);
    (Rank, PDX, mkTiming WR 1 (nXP s) false);
    (Rank, ACT, mkTiming ACT 1 (nRRD s) false);
    (Rank, ACT, mkTiming ACT 4 (nFAW s) false);
    (Rank, ACT, mkTiming ACTF 1 (nRRD s) false);
    (Rank, ACT, mkTiming ACTF 4 (nFAW s) false);
    (Rank, ACT, mkTiming ACTM 1 (nRRD s) false);
    (Rank, ACT, mkTiming ACTM 4 (nFAW s) false);
    (Rank, ACT, mkTiming PRE 1 (nRAS s) false);
    (Rank, ACT, mkTiming PREA 1 (nRAS s) false);
    (Rank, ACT, mkTiming PREF 1 (nRAS s) false);
    (Rank, ACT, mkTiming PREAF 1 (nRAS s) false);
    (Rank, ACT, mkTiming PREM 1 (nRAS s) false);
    (Rank, ACT, mkTiming PREAM 1 (nRAS s) false);
    (Rank, ACTF, mkTiming ACT 1 (nRRD s) false);
    (Rank, ACTF, mkTiming ACT 4 (nFAW s) false);
    (Rank, ACTF, mkTiming ACTF 1 (nRRD s) false);
    (Rank, ACTF, mkTiming ACTF 4 (nFAW s) false);
    (Rank, ACTF, mkTiming ACTM 1 (nRRD s) false);
    (Rank, ACTF, mkTiming ACTM 4 (nFAW s) false);
    (Rank, ACTF, mkTiming PRE 1 (nRASF s) false);
    (Rank, ACTF, mkTiming PREA 1 (nRASF s) false);
    (Rank, ACTF, mkTiming PREF 1 (nRASF s) false);
    (Rank, ACTF, mkTiming PREAF 1 (nRASF s) false);
    (Rank, ACTF, mkTiming PREM 1 (nRASF s) false);
    (Rank, ACTF, mkTiming PREAM 1 (nRASF s) false);
    (Rank, ACTM, mkTiming ACT 1 (nRRD s) false);
    (Rank, ACTM, mkTiming ACT 4 (nFAW s) false);
    (Rank, ACTM, mkTiming ACTF 1 (nRRD s) false);
    (Rank, ACTM, mkTiming ACTF 4 (nFAW s) false);
    (Rank, ACTM, mkTiming ACTM 1 (nRRD s) false);
    (Rank, ACTM, mkTiming ACTM 4 (nFAW s) false);
    (Rank, ACTM, mkTiming PRE 1 (nRASM s) false);
    (Rank, ACTM, mkTiming PREA 1 (nRASM s) false);
    (Rank, ACTM, mkTiming PREF 1 (nRASM s) false);
    (Rank, ACTM, mkTiming PREAF 1 (nRASM s) false);
    (Rank, ACTM, mkTiming PREM 1 (nRASM s) false);
    (Rank, ACTM, mkTiming PREAM 1 (nRASM s) false);
    (Rank, PRE, mkTiming ACT 1 (nRP s) false);
    (Rank, PRE, mkTiming ACTF 1 (nRP s) false);
    (Rank, PRE, mkTiming ACTM 1 (nRP s) false);
    (Rank, PREF, mkTiming ACT 1 (nRPF s) false);
    (Rank, PREF, mkTiming ACTF 1 (nRPF s) false);
    (Rank, PREF, mkTiming ACTM 1 (nRPF s) false);
    (Rank, PREM, mkTiming ACT 1 (nRPM s) false);
    (Rank, PREM, mkTiming ACTF 1 (nRPM s) false);
    (Rank, PREM, mkTiming ACTM 1 (nRPM s) false);
    (Rank, PRE, mkTiming REF 1 (nRP s) false);
    (Rank, PREF, mkTiming REF 1 (nRPF s) false);
    (Rank, PREM, mkTiming REF 1 (nRPM s) false);
    (Rank, PREA, mkTiming REF 1 (nRP s) false);
    (Rank, PREAF, mkTiming REF 1 (nRPF s) false);
    (Rank, PREAM, mkTiming REF 1 (nRPM s) false);
    (Rank, REF, mkTiming ACT 1 (nRFC s) false);
    (Rank, REF, mkTiming ACTF 1 (nRFC s) false);
    (Rank, REF, mkTiming ACTM 1 (nRFC s) false);
    (Rank, ACT, mkTiming PDE 1 1 false);
    (Rank, ACTF, mkTiming PDE 1 1 false);
    (Rank, ACTM, mkTiming PDE 1 1 false);
    (Rank, PDX, mkTiming ACT 1 (nXP s) false);
    (Rank, PDX, mkTiming ACTF 1 (nXP s) false);
    (Rank, PDX, mkTiming ACTM 1 (nXP s) false);
    (Rank, PDX, mkTiming PRE 1 (nXP s) false);
    (Rank, PDX, mkTiming PREF 1 (nXP s) false);
    (Rank, PDX, mkTiming PREM 1 (nXP s) false);
    (Rank, PRE, mkTiming SRE 1 (nRP s) false);
    (Rank, PREF, mkTiming SRE 1 (nRPF s) false);
    (Rank, PREM, mkTiming SRE 1 (nRPM s) false);
    (Rank, PREA, mkTiming SRE 1 (nRP s) false);
    (Rank, PREAF, mkTiming SRE 1 (nRPF s) false);
    (Rank, PREAM, mkTiming SRE 1 (nRPM s) false);
    (Rank, SRX, mkTiming ACT 1 (nXS s) false);
    (Rank, SRX, mkTiming ACTF 1 (nXS s) false);
    (Rank, SRX, mkTiming ACTM 1 (nXS s) false);
    (Rank, REF, mkTiming REF 1 (nRFC s) false);
    (Rank, REF, mkTiming PDE 1 1 false);
    (Rank, PDX, mkTiming REF 1 (nXP s) false);
    (Rank, SRX, mkTiming REF 1 (nXS s) false);
    (Rank, PDE, mkTiming PDX 1 (nPD s) false);
    (Rank, PDX, mkTiming PDE 1 (nXP s) false);
    (Rank, PDX, mkTiming SRE 1 (nXP s) false);
    (Rank, SRX, mkTiming PDE 1 (nXS s) false);
    (Rank, SRE, mkTiming SRX 1 (nCKESR s) false);
    (Rank, SRX, mkTiming SRE 1 (nXS s) false);
    (Bank, ACT, mkTiming RD 1 (nRCD s) false);
    (Bank, ACTF, mkTiming RD 1 (nRCDF s) false);
    (Bank, ACTM, mkTiming RD 1 (nRCDM s) false);
    (Bank, ACT, mkTiming MIG 1 (nRCD s) false);
    (Bank, ACTF, mkTiming MIG 1 (nRCDF s) false);
    (Bank, ACTM, mkTiming MIG 1 (nRCDM s) false);
    (Bank, ACT, mkTiming WR 1 (nRCD s) false);
    (Bank, ACTF, mkTiming WR 1 (nRCDF s) false);
    (Bank, ACTM, mkTiming WR 1 (nRCDM s) false);
    (Bank, RD, mkTiming PRE 1 (nRTP s) false);
    (Bank, RD, mkTiming PREF 1 (nRTP s) false);
    (Bank, RD, mkTiming PREM 1 (nRTP s) false);
    (Bank, MIG, mkTiming PRE 1 (nRTP s) false);
    (Bank, MIG, mkTiming PREF 1 (nRTP s) false);
    (Bank, MIG, mkTiming PREM 1 (nRTP s) false);
    (Bank, WR, mkTiming PRE 1 (nCWL s + nBL s + nWR s) false);
    (Bank, WR, mkTiming PREF 1 (nCWL s + nBL s + nWR s) false);
    (Bank, ACT, mkTiming ACT 1 (nRC s) false);
    (Bank, ACT, mkTiming ACTF 1 (nRC s) false);
    (Bank, ACT, mkTiming ACTM 1 (nRC s) false);
    (Bank, ACTF, mkTiming ACT 1 (nRCF s) false);
    (Bank, ACTF, mkTiming ACTF 1 (nRCF s) false);
    (Bank, ACTF, mkTiming ACTM 1 (nRCF s) false);
    (Bank, ACTM, mkTiming ACT 1 (nRCM s) false);
    (Bank, ACTM, mkTiming ACTF 1 (nRCM s) false);
    (Bank, ACTM, mkTiming ACTM 1 (nRCM s) false);
    (Bank, ACT, mkTiming PRE 1 (nRAS s) false);
    (Bank, ACT, mkTiming PREF 1 (nRAS s) false);
    (Bank, ACT, mkTiming PREM 1 (nRAS s) false);
    (Bank, ACTF, mkTiming PRE 1 (nRASF s) false);
    (Bank, ACTF, mkTiming PREF 1 (nRASF s) false);
    (Bank, ACTF, mkTiming PREM 1 (nRASF s) false);
    (Bank, ACTM, mkTiming PRE 1 (nRASM s) false);
    (Bank, ACTM, mkTiming PREF 1 (nRASM s) false);
    (Bank, ACTM, mkTiming PREM 1 (nRASM s) false);
    (Bank, PRE, mkTiming ACT 1 (nRP s) false);
    (Bank, PRE, mkTiming ACTF 1 (nRP s) false);
    (Bank, PRE, mkTiming ACTM 1 (nRP s) false);
    (Bank, PREF, mkTiming ACT 1 (nRPF s) false);
    (Bank, PREF, mkTiming ACTF 1 (nRPF s) false);
    (Bank, PREF, mkTiming ACTM 1 (nRPF s) false);
    (Bank, PREM, mkTiming ACT 1 (nRPM s) false);
    (Bank, PREM, mkTiming ACTF 1 (nRPM s) false);
    (Bank, PREM, mkTiming ACTM 1 (nRPM s) false) ].

(** ** The standard as an instance of the interfaces *)

(** Members with a default initialiser. *)
Definition prefetch_size : Z := 8.
Definition channel_width : Z := 64.

Definition spec (o : TLDRAM) : Spec Level Command State :=
  {| Dram.level_int := level_int; Dram.level_cast := level_cast; Dram.level_MAX := 5;
     Dram.lvl_Bank := Bank; Dram.lvl_Row := Row; Dram.cmd_MAX := Cmd_MAX; Dram.cmd_PRE := PRE;
     Dram.scope := scope; Dram.start := start; Dram.is_opening := is_opening;
     Dram.is_accessing := is_accessing; Dram.is_closing := is_closing;
     Dram.is_refreshing := is_refreshing; Dram.translate := translate;
     Dram.prereq := prereq (segment_ratio o); Dram.rowhit := rowhit; Dram.rowopen := rowopen; Dram.lambda := lambda;
     Dram.timing := entries_at (init_timing (speed_entry o));
     Dram.count := count (org_entry o); Dram.nREFI := nREFI (speed_entry o);
     Dram.read_latency := read_latency o; Dram.prefetch_size := prefetch_size;
     Dram.channel_width := channel_width |}.

Lemma init_timing_check_TLDRAM s : table_check is_refreshing is_opening (init_timing s) = true.
Proof. vm_compute. reflexivity. Qed.

Section Instances.
Variable o : TLDRAM.
Context `{Hcount : !CountOK 5 (count (org_entry o))}.

#[global] Instance spec_TimingOK : TimingOK (spec o).
Proof.
  apply (TimingOK_table _ (init_timing (speed_entry o))); [done|apply init_timing_check_TLDRAM|done|simpl; lia|..].
  - intros k Hk. simpl in Hk. do 5 (destruct k as [|k]; [by eexists|]). lia.
  - intros k l Hl. do 5 (destruct k as [|k]; [by simplify_eq/=|]). done.
  - by intros [] [].
Qed.

#[global] Instance spec_LambdaFrame : LambdaFrame (spec o).
Proof. intros l c f d i d' Hf Hd. destruct l, c; simpl in Hf; simplify_eq; solve_frame. Qed.

End Instances.

End TLDRAM.

