(* ===== verification/SpecDSARP.v ===== *)
(** * DSARP ([ramulator/src/DSARP.h], [ramulator/src/DSARP.cpp])

    The tables of the standard; banks hold subarrays.  [Type] is [Type_] here, and
    its members [REFPB] and [DSARP], which are also the name of a command and of
    the class, are [REFPB_type] and [DSARP_type].
    The enumerations keep the source's names ([MAX] is [Cmd_MAX] and
    [State_MAX]; the tables are not indexed by it, and their value there stands
    for nothing); an array indexed by an enumeration is a function on it.  The
    floating point members of a speed entry ([freq], [tCK]) only scale printed
    statistics and are left out. *)

From S2P Require Import Prelude Double Request Dram DramTiming BankProtocol Standard.

Module DSARP.

(** ** Enumerations *)

Inductive Level := Channel | Rank | Bank | SubArray | Row | Column.
Inductive Command :=
  | ACT | PRE | PREA | RD | WR | RDA | WRA | REF | REFPB | PDE | PDX | SRE | SRX | Cmd_MAX.
Inductive State :=
  | Opened | Closed | PowerUp | ActPowerDown | PrePowerDown | SelfRefresh | State_MAX.
Inductive Org :=
  | DSARP_8Gb_x8 | DSARP_16Gb_x8 | DSARP_32Gb_x8.
Inductive Speed :=
  | DSARP_1333.

#[global] Instance Level_eq_dec : EqDecision Level.
Proof. solve_decision. Defined.
#[global] Instance Command_eq_dec : EqDecision Command.
Proof. solve_decision. Defined.
#[global] Instance State_eq_dec : EqDecision State.
Proof. solve_decision. Defined.
#[global] Instance Org_eq_dec : EqDecision Org.
Proof. solve_decision. Defined.
#[global] Instance Speed_eq_dec : EqDecision Speed.
Proof. solve_decision. Defined.

(** [int(level)] and [Level(i)] *)
Definition level_int (l : Level) : nat :=
  match l with Channel => 0 | Rank => 1 | Bank => 2 | SubArray => 3 | Row => 4 | Column => 5 end%nat.
Definition level_cast (i : nat) : option Level :=
  match i with
  | 0 => Some Channel | 1 => Some Rank | 2 => Some Bank | 3 => Some SubArray | 4 => Some Row
  | 5 => Some Column
  | _ => None
  end%nat.

(** ** Command tables *)

Definition scope (cmd : Command) : Level :=
  match cmd with
  | PREA | REF | PDE | PDX | SRE | SRX => Rank
  | PRE | REFPB => Bank
  | ACT => Row
  | RD | WR | RDA | WRA => Column
  | Cmd_MAX => Column
  end.

Definition is_opening (cmd : Command) : bool :=
  match cmd with ACT => true | _ => false end.
Definition is_accessing (cmd : Command) : bool :=
  match cmd with RD | WR | RDA | WRA => true | _ => false end.
Definition is_closing (cmd : Command) : bool :=
  match cmd with RDA | WRA | PRE | PREA => true | _ => false end.
Definition is_refreshing (cmd : Command) : bool :=
  match cmd with REF | REFPB => true | _ => false end.

Definition start (l : Level) : State :=
  match l with Channel => State_MAX | Rank => PowerUp | Bank => Closed | SubArray => Closed | Row => State_MAX | Column => Opened end.

(** The initialiser lists five commands; the entries of the remaining request
    types are value-initialised, which is the first command. *)
Definition translate (t : ReqType) : Command :=
  match t with
  | READ => RD | WRITE => WR | REFRESH => REF | POWERDOWN => PDE | SELFREFRESH => SRE
  | EXTENSION | INSTRUCTION | ReqMAX => ACT
  end.

(** ** Organisations and speeds *)

Record OrgEntry := mkOrg { size : Z; dq : Z; count : list Z }.

Definition org_table (o : Org) : OrgEntry :=
  match o with
  | DSARP_8Gb_x8 => mkOrg (Z.shiftl 8 10) 8 [0; 0; 8; 0; Z.shiftl 1 16; Z.shiftl 1 11]
  | DSARP_16Gb_x8 => mkOrg (Z.shiftl 16 10) 8 [0; 0; 8; 0; Z.shiftl 1 17; Z.shiftl 1 11]
  | DSARP_32Gb_x8 => mkOrg (Z.shiftl 32 10) 8 [0; 0; 8; 0; Z.shiftl 1 18; Z.shiftl 1 11]
  end.

Record SpeedEntry := mkSpeed {
  rate : Z; nBL : Z; nCCD : Z; nRTRS : Z; nCL : Z; nRCD : Z; nRPpb : Z; nRPab : Z; nCWL : Z;
  nRAS : Z; nRC : Z; nRTP : Z; nWTR : Z; nWR : Z; nRRD : Z; nFAW : Z; nRFCab : Z; nRFCpb : Z;
  nREFI : Z; nREFIpb : Z; nPD : Z; nXP : Z; nXPDLL : Z; nCKESR : Z; nXS : Z; nXSDLL : Z
}.

(** rate nBL nCCD nRTRS nCL nRCD nRPpb nRPab nCWL nRAS nRC nRTP nWTR nWR nRRD nFAW nRFCab nRFCpb
    nREFI nREFIpb nPD nXP nXPDLL nCKESR nXS nXSDLL *)
Definition speed_table (s : Speed) : SpeedEntry :=
  match s with
  | DSARP_1333 =>
    mkSpeed 1333 4 4 2 9 9 8 9 7 24 33 5 5 10 5 30 0 0 0 0 4 4 16 5 114 512
  end.

Definition org_map : list (string * Org) :=
  [("DSARP_8Gb_x8"%string, DSARP_8Gb_x8); ("DSARP_16Gb_x9"%string, DSARP_16Gb_x8);
   ("DSARP_32Gb_x8"%string, DSARP_32Gb_x8)].
Definition speed_map : list (string * Speed) :=
  [("DSARP_1333"%string, DSARP_1333)].

Definition set_nRFCab (x : Z) (s : SpeedEntry) : SpeedEntry :=
  mkSpeed (rate s) (nBL s) (nCCD s) (nRTRS s) (nCL s) (nRCD s) (nRPpb s) (nRPab s) (nCWL s) (nRAS s)
    (nRC s) (nRTP s) (nWTR s) (nWR s) (nRRD s) (nFAW s) x (nRFCpb s) (nREFI s) (nREFIpb s)
    (nPD s) (nXP s) (nXPDLL s) (nCKESR s) (nXS s) (nXSDLL s).
Definition set_nRFCpb (x : Z) (s : SpeedEntry) : SpeedEntry :=
  mkSpeed (rate s) (nBL s) (nCCD s) (nRTRS s) (nCL s) (nRCD s) (nRPpb s) (nRPab s) (nCWL s) (nRAS s)
    (nRC s) (nRTP s) (nWTR s) (nWR s) (nRRD s) (nFAW s) (nRFCab s) x (nREFI s) (nREFIpb s)
    (nPD s) (nXP s) (nXPDLL s) (nCKESR s) (nXS s) (nXSDLL s).
Definition set_nREFI (x : Z) (s : SpeedEntry) : SpeedEntry :=
  mkSpeed (rate s) (nBL s) (nCCD s) (nRTRS s) (nCL s) (nRCD s) (nRPpb s) (nRPab s) (nCWL s) (nRAS s)
    (nRC s) (nRTP s) (nWTR s) (nWR s) (nRRD s) (nFAW s) (nRFCab s) (nRFCpb s) x (nREFIpb s)
    (nPD s) (nXP s) (nXPDLL s) (nCKESR s) (nXS s) (nXSDLL s).
Definition set_nREFIpb (x : Z) (s : SpeedEntry) : SpeedEntry :=
  mkSpeed (rate s) (nBL s) (nCCD s) (nRTRS s) (nCL s) (nRCD s) (nRPpb s) (nRPab s) (nCWL s) (nRAS s)
    (nRC s) (nRTP s) (nWTR s) (nWR s) (nRRD s) (nFAW s) (nRFCab s) (nRFCpb s) (nREFI s) x
    (nPD s) (nXP s) (nXPDLL s) (nCKESR s) (nXS s) (nXSDLL s).

(** [Type]; its member [DSARP] has the name of the class. *)
Inductive Type_ := REFAB | REFPB_type | DARP | SARP | DSARP_type.
#[global] Instance Type_eq_dec : EqDecision Type_.
Proof. solve_decision. Defined.
Inductive RefreshMode := Refresh_1X.

(** [init_speed]: the parameters that depend on the density; the tables have one
    column, for the only speed. *)
Definition init_speed (org_entry : OrgEntry) (speed_entry : SpeedEntry) : option SpeedEntry :=
  assert! rate speed_entry =? 1333;
  let density := Z.shiftr (size org_entry) 10 in
  '(ab, pb) ← (if density =? 8 then Some (234, 109) else if density =? 16 then Some (354, 164)
               else if density =? 32 then Some (594, 275) else None);
  Some (set_nREFIpb 325 (set_nREFI 2600 (set_nRFCab ab (set_nRFCpb pb speed_entry)))).

(** The members of the object the constructor sets. *)
Record DSARP := mkDSARP {
  type : Type_; org_entry : OrgEntry; speed_entry : SpeedEntry; read_latency : Z; n_sa : Z; b_ref_rank : bool
}.

(** [DSARP(Org, Speed, Type, int)] and [DSARP(string, string, Type, int)] *)
Definition new (org : Org) (speed : Speed) (t : Type_) (n_sa : Z) : option DSARP :=
  let e := org_table org in
  let speed_entry := speed_table speed in
  let read_latency := nCL speed_entry + nBL speed_entry in
  speed_entry ← init_speed e speed_entry;
  let b_ref_rank := bool_decide (t = REFAB) in
  assert! negb (n_sa =? 0) && (n_sa <=? 128) && (Z.land n_sa (n_sa - 1) =? 0);
  let count := <[level_int SubArray := n_sa]> (count e) in
  bank ← count !! level_int Bank;
  column ← count !! level_int Column;
  let tmp := dq e * bank * n_sa * column in
  assert! negb (tmp =? 0);
  let count := <[level_int Row := Z.quot (size e * Z.shiftl 1 20) tmp]> count in
  Some (mkDSARP t (mkOrg (size e) (dq e) count) speed_entry read_latency n_sa b_ref_rank).
Definition new_str (org_str speed_str : string) (t : Type_) (n_sa : Z) : option DSARP :=
  new (map_at DSARP_8Gb_x8 org_map org_str) (map_at DSARP_1333 speed_map speed_str) t n_sa.

(** [translate], after the constructor's change *)
Definition translate_of (o : DSARP) (t : ReqType) : Command :=
  if decide (t = REFRESH ∧ b_ref_rank o = false) then REFPB else translate t.

(** [set_channel_number] and [set_rank_number] *)
Definition set_count (l : Level) (x : Z) (o : DSARP) : DSARP :=
  let e := org_entry o in
  mkDSARP (type o) (mkOrg (size e) (dq e) (<[level_int l := x]> (count e))) (speed_entry o) (read_latency o)
    (n_sa o) (b_ref_rank o).
Definition set_channel_number (channel : Z) (o : DSARP) : DSARP := set_count Channel channel o.
Definition set_rank_number (rank : Z) (o : DSARP) : DSARP := set_count Rank rank o.

(** [(int)ceil(((double)s.nRRD)*nRRD_factor)]: the factor is the literal 1.138;
    a product that is not a finite number does not occur ([sa_nRRD_ok]). *)
Definition sa_nRRD (s : SpeedEntry) : Z := default 0 (d_ceil (d_mul (d_int (nRRD s)) (d_frac 1138 1000))).
Lemma sa_nRRD_ok s : sa_nRRD (speed_table s) = 6.
Proof. destruct s; vm_compute; reflexivity. Qed.

(** ** Prerequisites, row hits and state transitions *)

Definition node : Type := DRAM Level Command State.

Definition prereq (l : Level) (c : Command) : option (node → Command → Z → option Command) :=
  match l, c with
  | Rank, RD | Rank, WR =>
    Some (λ node _ _,
      match state (info node) with
      | PowerUp => Some Cmd_MAX
      | ActPowerDown => Some PDX
      | PrePowerDown => Some PDX
      | SelfRefresh => Some SRX
      | _ => None
      end)
  | Bank, RD | Bank, WR =>
    Some (λ node _ id,
      match state (info node) with
      | Closed => Some ACT
      | Opened => if decide (is_Some (row_state (info node) !! id)) then Some Cmd_MAX else Some PRE
      | _ => None
      end)
  | SubArray, RD | SubArray, WR =>
    Some (λ node cmd id,
      match state (info node) with
      | Closed => Some ACT
      | Opened => if decide (is_Some (row_state (info node) !! id)) then Some cmd else Some PRE
      | _ => None
      end)
  | Rank, REF =>
    Some (λ node _ _,
      if forallb (λ bank, bool_decide (state (info bank) = Closed)) (children node)
      then Some REF else Some PREA)
  | Bank, REFPB =>
    Some (λ node _ _, if decide (state (info node) = Closed) then Some REFPB else Some PRE)
  | Rank, PDE =>
    Some (λ node _ _,
      match state (info node) with
      | PowerUp => Some PDE
      | ActPowerDown => Some PDE
      | PrePowerDown => Some PDE
      | SelfRefresh => Some SRX
      | _ => None
      end)
  | Rank, SRE =>
    Some (λ node _ _,
      match state (info node) with
      | PowerUp => Some SRE
      | ActPowerDown => Some PDX
      | PrePowerDown => Some PDX
      | SelfRefresh => Some SRE
      | _ => None
      end)
  | _, _ => None
  end.

Definition rowhit (l : Level) (c : Command) : option (node → Command → Z → option bool) :=
  match l, c with
  | SubArray, RD | SubArray, WR =>
    Some (λ node _ id,
      match state (info node) with
      | Closed => Some false
      | Opened => if decide (is_Some (row_state (info node) !! id)) then Some true else Some false
      | _ => None
      end)
  | _, _ => None
  end.

Definition rowopen (l : Level) (c : Command) : option (node → Command → Z → option bool) :=
  match l, c with
  | SubArray, RD | SubArray, WR =>
    Some (λ node _ _,
      match state (info node) with Closed => Some false | Opened => Some true | _ => None end)
  | _, _ => None
  end.

(** [node->state = State::Closed; node->row_state.clear();] *)
Definition close (n : dram_info Level Command State) : dram_info Level Command State :=
  set_row_state ∅ (set_state Closed n).

Definition lambda (l : Level) (c : Command) : option (node → Z → option node) :=
  match l, c with
  | Rank, PREA =>
    Some (λ node _,
      Some (Dram (set_row_state ∅ (info node))
        (map (λ bank, Dram (close (info bank)) (map (on_info close) (children bank))) (children node))))
  | Rank, REF | Bank, RD | Bank, WR =>
    Some (λ node _, Some node)
  | Rank, PDE =>
    Some (λ node _,
      if forallb (λ bank, forallb (λ sa, bool_decide (state (info sa) = Closed)) (children bank)) (children node)
      then Some (on_info (set_state PrePowerDown) node)
      else Some (on_info (set_state ActPowerDown) node))
  | Rank, PDX | Rank, SRX =>
    Some (λ node _, Some (on_info (set_state PowerUp) node))
  | Rank, SRE =>
    Some (λ node _, Some (on_info (set_state SelfRefresh) node))
  | Bank, ACT | SubArray, ACT =>
    Some (λ node id,
      Some (on_info (λ n, set_row_state (<[id := Opened]> (row_state n)) (set_state Opened n)) node))
  | Bank, PRE =>
    Some (λ node _,
      Some (Dram (close (info node)) (map (on_info close) (children node))))
  | Bank, RDA | Bank, WRA | SubArray, RDA | SubArray, WRA =>
    Some (λ node _, Some (on_info close node))
  | Bank, REFPB =>
    Some (λ node _,
      if decide (state (info node) = Closed) then Some (on_info (set_row_state ∅) node) else None)
  | _, _ => None
  end.

(** ** Timing: the [push_back] calls in source order *)

(** SARP refreshes one subarray while the others serve requests. *)
Definition sarp (t : Type_) : bool := bool_decide (t = DSARP_type ∨ t = SARP).

Definition init_timing (t : Type_) (s : SpeedEntry) : list (Level * Command * TimingEntry Command) :=
  [ (Channel, RD, mkTiming RD 1 (nBL s) false);
    (Channel, RD, mkTiming RDA 1 (nBL s) false);
    (Channel, RDA, mkTiming RD 1 (nBL s) false);
    (Channel, RDA, mkTiming RDA 1 (nBL s) false);
    (Channel, WR, mkTiming WR 1 (nBL s) false);
    (Channel, WR, mkTiming WRA 1 (nBL s) false);
    (Channel, WRA, mkTiming WR 1 (nBL s) false);
    (Channel, WRA, mkTiming WRA 1 (nBL s) false);
    (Rank, RD, mkTiming RD 1 (nCCD s) false);
    (Rank, RD, mkTiming RDA 1 (nCCD s) false);
    (Rank, RDA, mkTiming RD 1 (nCCD s) false);
    (Rank, RDA, mkTiming RDA 1 (nCCD s) false);
    (Rank, WR, mkTiming WR 1 (nCCD s) false);
    (Rank, WR, mkTiming WRA 1 (nCCD s) false);
    (Rank, WRA, mkTiming WR 1 (nCCD s) false);
    (Rank, WRA, mkTiming WRA 1 (nCCD s) false);
    (Rank, RD, mkTiming WR 1 (nCL s + nCCD s + 2 - nCWL s) false);
    (Rank, RD, mkTiming WRA 1 (nCL s + nCCD s + 2 - nCWL s) false);
    (Rank, RDA, mkTiming WR 1 (nCL s + nCCD s + 2 - nCWL s) false);
    (Rank, RDA, mkTiming WRA 1 (nCL s + nCCD s + 2 - nCWL s) false);
    (Rank, WR, mkTiming RD 1 (nCWL s + nBL s + nWTR s) false);
    (Rank, WR, mkTiming RDA 1 (nCWL s + nBL s + nWTR s) false);
    (Rank, WRA, mkTiming RD 1 (nCWL s + nBL s + nWTR s) false);
    (Rank, WRA, mkTiming RDA 1 (nCWL s + nBL s + nWTR s) false);
    (Rank, RD, mkTiming RD 1 (nBL s + nRTRS s) true);
    (Rank, RD, mkTiming RDA 1 (nBL s + nRTRS s) true);
    (Rank, RDA, mkTiming RD 1 (nBL s + nRTRS s) true);
    (Rank, RDA, mkTiming RDA 1 (nBL s + nRTRS s) true);
    (Rank, RD, mkTiming WR 1 (nBL s + nRTRS s) true);
    (Rank, RD, mkTiming WRA 1 (nBL s + nRTRS s) true);
    (Rank, RDA, mkTiming WR 1 (nBL s + nRTRS s) true);
    (Rank, RDA, mkTiming WRA 1 (nBL s + nRTRS s) true);
    (Rank, RD, mkTiming WR 1 (nCL s + nBL s + nRTRS s - nCWL s) true);
    (Rank, RD, mkTiming WRA 1 (nCL s + nBL s + nRTRS s - nCWL s) true);
    (Rank, RDA, mkTiming WR 1 (nCL s + nBL s + nRTRS s - nCWL s) true);
    (Rank, RDA, mkTiming WRA 1 (nCL s + nBL s + nRTRS s - nCWL s) true);
    (Rank, WR, mkTiming RD 1 (nCWL s + nBL s + nRTRS s - nCL s) true);
    (Rank, WR, mkTiming RDA 1 (nCWL s + nBL s + nRTRS s - nCL s) true);
    (Rank, WRA, mkTiming RD 1 (nCWL s + nBL s + nRTRS s - nCL s) true);
    (Rank, WRA, mkTiming RDA 1 (nCWL s + nBL s + nRTRS s - nCL s) true);
    (Rank, RD, mkTiming PREA 1 (nRTP s) false);
    (Rank, WR, mkTiming PREA 1 (nCWL s + nBL s + nWR s) false);
    (Rank, RD, mkTiming PDE 1 (nCL s + nBL s + 1) false);
    (Rank, RDA, mkTiming PDE 1 (nCL s + nBL s + 1) false);
    (Rank, WR, mkTiming PDE 1 (nCWL s + nBL s + nWR s) false);
    (Rank, WRA, mkTiming PDE 1 (nCWL s + nBL s + nWR s + 1) false);
    (Rank, PDX, mkTiming RD 1 (nXP s) false);
    (Rank, PDX, mkTiming RDA 1 (nXP s) false);
    (Rank, PDX, mkTiming WR 1 (nXP s) false);
    (Rank, PDX, mkTiming WRA 1 (nXP s) false);
    (Rank, ACT, mkTiming ACT 1 (nRRD s) false);
    (Rank, ACT, mkTiming ACT 4 (nFAW s) false);
    (Rank, ACT, mkTiming PREA 1 (nRAS s) false);
    (Rank, PREA, mkTiming ACT 1 (nRPab s) false);
    (Rank, PRE, mkTiming REF 1 (nRPpb s) false);
    (Rank, PREA, mkTiming REF 1 (nRPab s) false);
    (Rank, REF, mkTiming ACT 1 (nRFCab s) false);
    (Rank, ACT, mkTiming PDE 1 1 false);
    (Rank, PDX, mkTiming ACT 1 (nXP s) false);
    (Rank, PDX, mkTiming PRE 1 (nXP s) false);
    (Rank, PDX, mkTiming PREA 1 (nXP s) false);
    (Rank, PRE, mkTiming SRE 1 (nRPpb s) false);
    (Rank, PREA, mkTiming SRE 1 (nRPab s) false);
    (Rank, SRX, mkTiming ACT 1 (nXS s) false);
    (Rank, REF, mkTiming REF 1 (nRFCab s) false);
    (Rank, REF, mkTiming REFPB 1 (nRFCab s) false);
    (Rank, REFPB, mkTiming REF 1 (nRFCpb s) false);
    (Rank, REF, mkTiming PDE 1 1 false);
    (Rank, REFPB, mkTiming PDE 1 1 false);
    (Rank, PDX, mkTiming REF 1 (nXP s) false);
    (Rank, PDX, mkTiming REFPB 1 (nXP s) false);
    (Rank, SRX, mkTiming REF 1 (nXS s) false);
    (Rank, SRX, mkTiming REFPB 1 (nXS s) false);
    (Rank, PDE, mkTiming PDX 1 (nPD s) false);
    (Rank, PDX, mkTiming PDE 1 (nXP s) false);
    (Rank, PDX, mkTiming SRE 1 (nXP s) false);
    (Rank, SRX, mkTiming PDE 1 (nXS s) false);
    (Rank, SRE, mkTiming SRX 1 (nCKESR s) false);
    (Rank, SRX, mkTiming SRE 1 (nXS s) false);
    (Rank, REFPB, mkTiming REFPB 1 (nRFCpb s) false);
    (Bank, ACT, mkTiming RD 1 (nRCD s) false);
    (Bank, ACT, mkTiming RDA 1 (nRCD s) false);
    (Bank, ACT, mkTiming WR 1 (nRCD s) false);
    (Bank, ACT, mkTiming WRA 1 (nRCD s) false);
    (Bank, RD, mkTiming PRE 1 (nRTP s) false);
    (Bank, WR, mkTiming PRE 1 (nCWL s + nBL s + nWR s) false);
    (Bank, RDA, mkTiming ACT 1 (nRTP s + nRPpb s) false);
    (Bank, WRA, mkTiming ACT 1 (nCWL s + nBL s + nWR s + nRPpb s) false);
    (Bank, ACT, mkTiming ACT 1 (nRC s) false);
    (Bank, ACT, mkTiming PRE 1 (nRAS s) false);
    (Bank, PRE, mkTiming ACT 1 (nRPpb s) false);
    (Bank, PRE, mkTiming REFPB 1 (nRPpb s) false);
    (Bank, REFPB, mkTiming REFPB 1 (nRFCpb s) false);
    (Bank, REFPB, mkTiming REFPB 1 (nRFCpb s) true);
    (Bank, ACT, mkTiming REFPB 1 (nRRD s) true);
    (Bank, REFPB, mkTiming ACT 1 (nRRD s) true) ] ++
  (if sarp t then
  [ (SubArray, ACT, mkTiming REFPB 1 (sa_nRRD s) true);
    (SubArray, REFPB, mkTiming ACT 1 (sa_nRRD s) true);
    (SubArray, REF, mkTiming ACT 1 (nRFCab s) false);
    (SubArray, REFPB, mkTiming ACT 1 (nRFCpb s) false);
    (SubArray, ACT, mkTiming RD 1 (nRCD s) false);
    (SubArray, ACT, mkTiming RDA 1 (nRCD s) false);
    (SubArray, ACT, mkTiming WR 1 (nRCD s) false);
    (SubArray, ACT, mkTiming WRA 1 (nRCD s) false);
    (SubArray, RD, mkTiming PRE 1 (nRTP s) false);
    (SubArray, WR, mkTiming PRE 1 (nCWL s + nBL s + nWR s) false);
    (SubArray, RDA, mkTiming ACT 1 (nRTP s + nRPpb s) false);
    (SubArray, WRA, mkTiming ACT 1 (nCWL s + nBL s + nWR s + nRPpb s) false);
    (SubArray, ACT, mkTiming ACT 1 (nRC s) false);
    (SubArray, ACT, mkTiming PRE 1 (nRAS s) false);
    (SubArray, PRE, mkTiming ACT 1 (nRPpb s) false);
    (SubArray, PRE, mkTiming REFPB 1 (nRPpb s) false);
    (SubArray, PRE, mkTiming REF 1 (nRPpb s) false);
    (SubArray, ACT, mkTiming ACT 1 (nRC s) true);
    (SubArray, PRE, mkTiming ACT 1 (nRPpb s) true);
    (SubArray, RDA, mkTiming ACT 1 (nRTP s + nRPpb s) true);
    (SubArray, WRA, mkTiming ACT 1 (nCWL s + nBL s + nWR s + nRPpb s) true) ]
  else
  [ (Bank, REFPB, mkTiming ACT 1 (nRFCpb s) false);
    (Bank, REFPB, mkTiming RD 1 (nRFCpb s) false);
    (Bank, REFPB, mkTiming RDA 1 (nRFCpb s) false);
    (Bank, REFPB, mkTiming WR 1 (nRFCpb s) false);
    (Bank, REFPB, mkTiming WRA 1 (nRFCpb s) false);
    (Bank, REFPB, mkTiming PRE 1 (nRFCpb s) false);
    (Bank, REFPB, mkTiming PREA 1 (nRFCpb s) false) ]).

(** ** The standard as an instance of the interfaces *)

(** Members with a default initialiser. *)
Definition prefetch_size : Z := 16.
Definition channel_width : Z := 32.

Definition spec (o : DSARP) : Spec Level Command State :=
  {| Dram.level_int := level_int; Dram.level_cast := level_cast; Dram.level_MAX := 6;
     Dram.lvl_Bank := Bank; Dram.lvl_Row := Row; Dram.cmd_MAX := Cmd_MAX; Dram.cmd_PRE := PRE;
     Dram.scope := scope; Dram.start := start; Dram.is_opening := is_opening;
     Dram.is_accessing := is_accessing; Dram.is_closing := is_closing;
     Dram.is_refreshing := is_refreshing; Dram.translate := translate_of o;
     Dram.prereq := prereq; Dram.rowhit := rowhit; Dram.rowopen := rowopen; Dram.lambda := lambda;
     Dram.timing := entries_at (init_timing (type o) (speed_entry o));
     Dram.count := count (org_entry o); Dram.nREFI := nREFI (speed_entry o);
     Dram.read_latency := read_latency o; Dram.prefetch_size := prefetch_size;
     Dram.channel_width := channel_width |}.

Lemma init_timing_check_DSARP t s : table_check is_refreshing is_opening (init_timing t s) = true.
Proof. destruct t; vm_compute; reflexivity. Qed.

Section Instances.
Variable o : DSARP.
Context `{Hcount : !CountOK 6 (count (org_entry o))}.

#[global] Instance spec_TimingOK : TimingOK (spec o).
Proof.
  apply (TimingOK_table _ (init_timing (type o) (speed_entry o))); [done|apply init_timing_check_DSARP|done|simpl; lia|..].
  - intros k Hk. simpl in Hk. do 6 (destruct k as [|k]; [by eexists|]). lia.
  - intros k l Hl. do 6 (destruct k as [|k]; [by simplify_eq/=|]). done.
  - by intros [] [].
Qed.

#[global] Instance spec_LambdaFrame : LambdaFrame (spec o).
Proof.
  intros l c f d i d' Hf Hd. destruct l, c; simpl in Hf; simplify_eq; try solve [solve_frame].
  case_decide; simplify_eq. by destruct d.
Qed.

End Instances.

End DSARP.

