(* ===== verification/DeviceTheorems.v ===== *)
(** * Theorems on DRAM devices

    The properties of [DRAM<T>] and of the standards' tables.  The theorems are
    stated for every standard that has the laws of [TimingOK], [LambdaFrame] and
    [BankProtocol] (nine of the standards, and ALDRAM); the witnesses run a DDR3
    channel with two ranks. *)

From S2P Require Import Prelude Request Dram DramTiming BankProtocol Device Standard.
From S2P Require Import SpecDDR3.

(** ** A DDR3 channel for the witnesses *)
Definition ddr3 : DDR3.DDR3 :=
  DDR3.set_rank_number 2 (DDR3.set_channel_number 1
    (default (DDR3.mkDDR3 (DDR3.org_table DDR3.DDR3_2Gb_x8) (DDR3.speed_table DDR3.DDR3_1600K) 0)
       (DDR3.new DDR3.DDR3_2Gb_x8 DDR3.DDR3_1600K))).

#[export] Instance ddr3_count : CountOK 5 (DDR3.count (DDR3.org_entry ddr3)).
Proof. split; [done|]. repeat constructor; vm_compute; congruence. Qed.

Abbreviation spec3 := (DDR3.spec ddr3).

Definition ddr3_dummy : DRAM DDR3.Level DDR3.Command DDR3.State :=
  Dram (new_info spec3 DDR3.Channel 0) [].
Definition ddr3_new : DRAM DDR3.Level DDR3.Command DDR3.State :=
  default ddr3_dummy (new_channel spec3 DDR3.Channel 0).

Lemma ddr3_new_eq : new_channel spec3 DDR3.Channel 0 = Some ddr3_new.
Proof. apply (Some_default ddr3_dummy). vm_compute. reflexivity. Qed.

(** An activation and a read of row 7 in bank 3 of rank 1. *)
Definition addr3 : list Z := [0; 1; 3; 7; 2].
Definition history3 : list (event (C := DDR3.Command)) :=
  [(DDR3.RD, addr3, 11); (DDR3.ACT, addr3, 0)].
Definition ddr3_used : DRAM DDR3.Level DDR3.Command DDR3.State :=
  default ddr3_dummy (run_updates spec3 history3 ddr3_new).

Lemma ddr3_used_eq : run_updates spec3 history3 ddr3_new = Some ddr3_used.
Proof. apply (Some_default ddr3_dummy). vm_compute. reflexivity. Qed.

Lemma addr3_ok : addr_ok spec3 addr3.
Proof.
  split; [done|]. intros k x Hk Hpos. do 5 (destruct k as [|k]; [simplify_eq/=; vm_compute; done || lia|]). done.
Qed.

Lemma addr3_path : path_ok spec3 (bank_idx spec3) addr3.
Proof.
  split; [done|]. intros k Hk. assert (k = 1 ∨ k = 2)%nat as [->| ->] by (vm_compute in Hk; lia);
    eexists; (split; [reflexivity|vm_compute; split; congruence]).
Qed.

Lemma history3_ok : Forall (event_ok spec3) history3.
Proof. repeat constructor; simpl; lia. Qed.

(** ** Timing *)
Section Timing.
Context {L C S : Type} `{!EqDecision L, !EqDecision C, !EqDecision S}.
Variable spec : Spec L C S.

(** C1: [DRAM<T>::check] decides the timing constraints of the standard over
    the whole history of the channel: after any sequence of updates of a new
    channel it returns, and it returns true exactly when every constraint of
    every level the command passes through is met by every earlier command
    (the bounded histories and the [next] array lose nothing). *)
Theorem check_decides_timing `{!TimingOK spec, !LambdaFrame spec} h l i d0 d cmd a x :
  level_cast spec 0 = Some l → new_channel spec l i = Some d0 →
  Forall (event_ok spec) h → run_updates spec h d0 = Some d →
  addr_ok spec a → a !! 0%nat = Some i → 0 ≤ x →
  ∃ b, check spec cmd a x d = Some b ∧ (b = true ↔ legal spec h cmd a x).
Proof. intros. by eapply check_legal. Qed.

(** C2: [DRAM<T>::get_next] returns the earliest clock, not before the
    channel's current clock, at which [check] accepts the command; from that
    clock on [check] always accepts it. *)
Theorem get_next_is_earliest `{!TimingOK spec} cmd a d :
  shaped spec 0 d → addr_ok spec a →
  ∃ t, get_next spec cmd a d = Some t ∧ cur_clk (info d) ≤ t ∧
    ∀ x, 0 ≤ x → cur_clk (info d) ≤ x → check spec cmd a x d = Some (t <=? x).
Proof. intros. by apply get_next_check. Qed.

End Timing.

Lemma check_decides_timing_witness :
  ∃ b, check spec3 DDR3.PRE addr3 17 ddr3_used = Some b ∧
       (b = true ↔ legal spec3 history3 DDR3.PRE addr3 17).
Proof.
  apply (check_decides_timing spec3 history3 DDR3.Channel 0 ddr3_new ddr3_used DDR3.PRE addr3 17);
    [reflexivity|apply ddr3_new_eq|apply history3_ok|apply ddr3_used_eq|apply addr3_ok|reflexivity|lia].
Defined.

Lemma get_next_is_earliest_witness :
  ∃ t, get_next spec3 DDR3.PRE addr3 ddr3_used = Some t ∧ cur_clk (info ddr3_used) ≤ t ∧
    ∀ x, 0 ≤ x → cur_clk (info ddr3_used) ≤ x → check spec3 DDR3.PRE addr3 x ddr3_used = Some (t <=? x).
Proof.
  apply (get_next_is_earliest spec3 DDR3.PRE addr3 ddr3_used); [|apply addr3_ok].
  apply (tree_inv_shaped spec3 history3 [] 0).
  apply (run_updates_inv spec3 history3 DDR3.Channel 0 ddr3_new ddr3_used);
    [reflexivity|apply ddr3_new_eq|apply history3_ok|apply ddr3_used_eq].
Defined.

(** ** The command protocol *)
Section Protocol.
Context {L C S : Type} `{!EqDecision L, !EqDecision C, !EqDecision S}.
Variables (spec : Spec L C S) (pr : Proto L C S).

(** C3: no reachable device gets stuck or reaches an [assert(false)] of the
    tables: whatever commands were issued before, for every read, write or
    refresh [decode] returns a command, [check] answers for it, issuing it
    succeeds, and the resulting device is again one whose banks are closed with
    no row or opened with exactly one row, and whose ranks are in one of their
    four power states. *)
Theorem reachable_device_progress `{!BankProtocol spec pr} l i h d c a clk :
  level_cast spec 0 = Some l → reachable spec pr l i h d →
  request_ok spec pr c a → addr_ok spec a → 0 ≤ clk →
  ∃ c' b d', decode spec c a d = Some c' ∧ check spec c' a clk d = Some b ∧
    update spec c' a clk d = Some d' ∧
    reachable spec pr l i ((c', a, clk) :: h) d' ∧ bank_inv spec pr d'.
Proof.
  intros Hl Hd Hq Ha Hclk. pose proof (reachable_ok spec pr l i h d Hl Hd) as Hok.
  destruct (request_update spec pr i h c a clk d) as (c'&_&d'&Hdec&Hup&Hok'&_); [done..|].
  assert (∃ b, check spec c' a clk d = Some b) as [b Hb].
  { apply (shaped_check spec 0); [by eapply device_shaped|done]. }
  exists c', b, d'. split_and!; [done..| |apply Hok']. by eapply Reach_request.
Qed.

(** C4: before a read or a write reaches its own command, [decode] asks for
    exactly: the exit from power-down or self-refresh if the rank is not
    powered up, a precharge and an activation if another row is open, only an
    activation if the bank is closed, nothing if the row is open: at most three
    commands, after which the bank has this row, and no other, open. *)
Theorem request_preparation `{!BankProtocol spec pr} l i h d c a r :
  level_cast spec 0 = Some l → reachable spec pr l i h d →
  rw pr c → path_ok spec (bank_idx spec) a → a !! (bank_idx spec + 1)%nat = Some r →
  ∃ sp nb d' nb', sees spec pr a d sp nb ∧
    prepare spec a 4 c d = Some (wake_seq pr sp ++ open_seq spec pr r nb, d') ∧
    decode spec c a d' = Some c ∧
    sees spec pr a d' (p_PowerUp pr) nb' ∧ state nb' = p_Opened pr ∧
    row_state nb' = {[ r := p_Opened pr ]}.
Proof.
  intros Hl Hd Hc Ha Hr. pose proof (reachable_ok spec pr l i h d Hl Hd) as Hok.
  destruct (sees_path spec pr a d) as (r'&sp&nb&Hr'&Hs&Hsp&Hone&_);
    [done|by eapply device_shaped|apply Hok|]. simplify_eq.
  destruct (prepare_any spec pr a r Ha Hr c d sp nb) as (d'&Hp&Hs'); [done..|by apply (one_row_state pr)|].
  destruct (one_row_opened spec pr r nb Hone) as [Ho Hrow].
  exists sp, nb, d', (opened pr r nb). split_and!; try done.
  rewrite (sees_decode spec pr a r Ha Hr c d' _ _ Hc Hs').
  by apply (decode_opened spec pr).
Qed.

(** A refresh of a rank is issued only when all its banks are closed:
    [decode] answers REF in exactly that case and otherwise asks for a
    precharge of all banks, after which every bank is closed and it answers
    REF. *)
Theorem refresh_preparation `{!BankProtocol spec pr} l i h d a dp :
  level_cast spec 0 = Some l → reachable spec pr l i h d →
  path_ok spec (power_idx spec pr) a → node_at spec a (power_idx spec pr) d = Some dp →
  (decode spec (p_REF pr) a d = Some (p_REF pr) ↔ all_closed spec pr dp = true) ∧
  (all_closed spec pr dp = false →
   decode spec (p_REF pr) a d = Some (p_PREA pr) ∧
   ∃ d' dp', update_state spec (p_PREA pr) a d = Some d' ∧
     node_at spec a (power_idx spec pr) d' = Some dp' ∧ all_closed spec pr dp' = true ∧
     decode spec (p_REF pr) a d' = Some (p_REF pr)).
Proof.
  intros Hl Hd Ha Hp. pose proof (reachable_ok spec pr l i h d Hl Hd) as Hok.
  pose proof (device_shaped spec pr i h d Hok) as Hsh.
  pose proof (cmds_distinct spec pr) as (_&_&_&_&_&_&Hne). rewrite (decode_ref spec pr a d dp) by done.
  split; [destruct (all_closed spec pr dp); naive_solver|]. intros ->. split; [done|].
  destruct (update_prea spec pr a d dp) as (d'&Hu&Hs'&_&Hn'&_); [done..|].
  pose proof (bp_levels spec pr) as [Hpb Hbr].
  destruct (node_at_total spec 0 (power_idx spec pr) a d) as (dp'&?&Hsp); [done|lia|lia|done|]. simplify_eq.
  pose proof (close_all_closed spec pr _ dp Hsp) as Hcl.
  exists d', (close_all spec pr dp). split_and!; [done..|]. rewrite (decode_ref spec pr a d' _) by done.
  by rewrite Hcl.
Qed.

(** C5: the scheduler's row-buffer predicates agree with the command protocol:
    on a powered-up rank, [check_row_hit] is true exactly when [decode] lets
    the read or write go ahead, [check_row_open] without a hit exactly when it
    asks for a precharge, and neither exactly when it asks for an activation. *)
Theorem row_buffer_status `{!BankProtocol spec pr} l i h d c a nb :
  level_cast spec 0 = Some l → reachable spec pr l i h d →
  rw pr c → path_ok spec (bank_idx spec) a → sees spec pr a d (p_PowerUp pr) nb →
  ∃ hit open, check_row_hit spec c a d = Some hit ∧ check_row_open spec c a d = Some open ∧
    (hit = true ↔ decode spec c a d = Some c) ∧
    (open = true ∧ hit = false ↔ decode spec c a d = Some (cmd_PRE spec)) ∧
    (open = false ↔ decode spec c a d = Some (p_ACT pr)).
Proof.
  intros Hl Hd Hc Ha Hs. pose proof (reachable_ok spec pr l i h d Hl Hd) as Hok.
  destruct (sees_path spec pr a d) as (r&sp&nb'&Hr&Hs'&Hsp&Hone&_);
    [done|by eapply device_shaped|apply Hok|].
  assert (nb' = nb) as ->.
  { destruct Hs as (_&?&?&_&_&?&<-), Hs' as (_&?&?&_&_&?&<-). congruence. }
  rewrite (sees_hit spec pr a r Ha Hr c d _ nb Hc Hs), (sees_open spec pr a r Ha Hr c d _ nb Hc Hs).
  rewrite (sees_decode spec pr a r Ha Hr c d _ nb Hc Hs), (wake_cmd_up spec pr); simpl.
  rewrite decide_True by done. apply (row_status spec pr); [done|by apply (one_row_state pr)].
Qed.

End Protocol.

(** *** Witnesses: the DDR3 channel above is reachable by a read request. *)
Lemma request3 : request_ok spec3 DDR3.proto DDR3.RD addr3.
Proof. left. split; [by left|apply addr3_path]. Qed.

Definition ddr3_act : DRAM DDR3.Level DDR3.Command DDR3.State :=
  default ddr3_dummy (update spec3 DDR3.ACT addr3 0 ddr3_new).

Lemma ddr3_act_eq : update spec3 DDR3.ACT addr3 0 ddr3_new = Some ddr3_act.
Proof. apply (Some_default ddr3_dummy). vm_compute. reflexivity. Qed.

Lemma ddr3_rd_eq : update spec3 DDR3.RD addr3 11 ddr3_act = Some ddr3_used.
Proof.
  apply (run_updates_cons spec3 _ _ _ [(DDR3.ACT, addr3, 0)] ddr3_new); [apply ddr3_used_eq|].
  apply run_updates_one, ddr3_act_eq.
Qed.

Lemma ddr3_used_reachable : reachable spec3 DDR3.proto DDR3.Channel 0 history3 ddr3_used.
Proof.
  apply (Reach_request _ _ _ _ [(DDR3.ACT, addr3, 0)] DDR3.RD addr3 DDR3.RD 11 ddr3_act ddr3_used);
    [|apply request3|lia|vm_compute; reflexivity|apply ddr3_rd_eq].
  apply (Reach_request _ _ _ _ [] DDR3.RD addr3 DDR3.ACT 0 ddr3_new ddr3_act);
    [apply Reach_new, ddr3_new_eq|apply request3|lia|vm_compute; reflexivity|apply ddr3_act_eq].
Qed.

Lemma reachable_device_progress_witness :
  ∃ c' b d', decode spec3 DDR3.RD addr3 ddr3_used = Some c' ∧ check spec3 c' addr3 15 ddr3_used = Some b ∧
    update spec3 c' addr3 15 ddr3_used = Some d' ∧
    reachable spec3 DDR3.proto DDR3.Channel 0 ((c', addr3, 15) :: history3) d' ∧
    bank_inv spec3 DDR3.proto d'.
Proof.
  apply (reachable_device_progress spec3 DDR3.proto DDR3.Channel 0 history3 ddr3_used DDR3.RD addr3 15);
    [reflexivity|apply ddr3_used_reachable|apply request3|apply addr3_ok|lia].
Defined.

(** The other row of the same bank: precharge and activation. *)
Definition addr3' : list Z := [0; 1; 3; 9; 0].

Lemma addr3'_path : path_ok spec3 (bank_idx spec3) addr3'.
Proof.
  split; [done|]. intros k Hk. assert (k = 1 ∨ k = 2)%nat as [->| ->] by (vm_compute in Hk; lia);
    eexists; (split; [reflexivity|vm_compute; split; congruence]).
Qed.

Lemma request_preparation_witness :
  ∃ sp nb d' nb', sees spec3 DDR3.proto addr3' ddr3_used sp nb ∧
    prepare spec3 addr3' 4 DDR3.WR ddr3_used =
      Some (wake_seq DDR3.proto sp ++ open_seq spec3 DDR3.proto 9 nb, d') ∧
    decode spec3 DDR3.WR addr3' d' = Some DDR3.WR ∧
    sees spec3 DDR3.proto addr3' d' DDR3.PowerUp nb' ∧ state nb' = DDR3.Opened ∧
    row_state nb' = {[ 9 := DDR3.Opened ]}.
Proof.
  apply (request_preparation spec3 DDR3.proto DDR3.Channel 0 history3 ddr3_used DDR3.WR addr3' 9);
    [reflexivity|apply ddr3_used_reachable|by right|apply addr3'_path|reflexivity].
Defined.

Definition rank3 : DRAM DDR3.Level DDR3.Command DDR3.State :=
  default ddr3_dummy (node_at spec3 addr3 (power_idx spec3 DDR3.proto) ddr3_used).

Lemma rank3_eq : node_at spec3 addr3 (power_idx spec3 DDR3.proto) ddr3_used = Some rank3.
Proof. apply (Some_default ddr3_dummy). vm_compute. reflexivity. Qed.

Lemma refresh_preparation_witness :
  all_closed spec3 DDR3.proto rank3 = false ∧
  decode spec3 DDR3.REF addr3 ddr3_used = Some DDR3.PREA.
Proof.
  assert (all_closed spec3 DDR3.proto rank3 = false) as Hopen by (vm_compute; reflexivity).
  split; [exact Hopen|].
  apply (refresh_preparation spec3 DDR3.proto DDR3.Channel 0 history3 ddr3_used addr3 rank3);
    [reflexivity|apply ddr3_used_reachable| |apply rank3_eq|exact Hopen].
  apply (path_ok_le spec3 _ (bank_idx spec3)); [apply addr3_path|vm_compute; lia].
Defined.

Definition bank3 : DRAM DDR3.Level DDR3.Command DDR3.State :=
  default ddr3_dummy (node_at spec3 addr3 (bank_idx spec3) ddr3_used).

Lemma bank3_eq : node_at spec3 addr3 (bank_idx spec3) ddr3_used = Some bank3.
Proof. apply (Some_default ddr3_dummy). vm_compute. reflexivity. Qed.

Lemma rank3_up : state (info rank3) = DDR3.PowerUp.
Proof. vm_compute. reflexivity. Qed.

Lemma bank3_seen : sees spec3 DDR3.proto addr3 ddr3_used DDR3.PowerUp (info bank3).
Proof.
  split.
  - apply (device_shaped spec3 DDR3.proto 0 history3), (reachable_ok spec3 DDR3.proto DDR3.Channel);
      [reflexivity|apply ddr3_used_reachable].
  - exists rank3, bank3. split; [apply rank3_eq|]. split; [apply rank3_up|]. split; [apply bank3_eq|reflexivity].
Qed.

Lemma row_buffer_status_witness :
  ∃ hit open, check_row_hit spec3 DDR3.RD addr3 ddr3_used = Some hit ∧
    check_row_open spec3 DDR3.RD addr3 ddr3_used = Some open ∧
    (hit = true ↔ decode spec3 DDR3.RD addr3 ddr3_used = Some DDR3.RD) ∧
    (open = true ∧ hit = false ↔ decode spec3 DDR3.RD addr3 ddr3_used = Some DDR3.PRE) ∧
    (open = false ↔ decode spec3 DDR3.RD addr3 ddr3_used = Some DDR3.ACT).
Proof.
  apply (row_buffer_status spec3 DDR3.proto DDR3.Channel 0 history3 ddr3_used DDR3.RD addr3 (info bank3));
    [reflexivity|apply ddr3_used_reachable|by left|apply addr3_path|apply bank3_seen].
Defined.
