(* ===== verification/StandardTheorems.v ===== *)
(** * Theorems on the standards' tables *)

From S2P Require Import Prelude Request Dram DramTiming BankProtocol Device Standard.
From S2P Require Import SpecDDR3 SpecDDR4 SpecGDDR5 SpecHBM SpecHMC SpecLPDDR3 SpecLPDDR4 SpecWideIO SpecWideIO2.
From S2P Require Import DeviceTheorems.

(** Find an entry in a concrete table. *)
Ltac in_table := vm_compute; repeat (apply elem_of_cons; first [left; reflexivity|right]).

(** The nodes on a specified path are visited by a command whose scope is at
    the row or below. *)
Lemma visited_path {L C S} `{!EqDecision L, !EqDecision C, !EqDecision S} (spec : Spec L C S)
    `{!TimingOK spec} cmd a m k l :
  path_ok spec m a → (m < level_int spec (lvl_Row spec) ≤ level_int spec (scope spec cmd))%nat →
  (k ≤ m)%nat → level_cast spec k = Some l → visited spec cmd a k l.
Proof.
  intros Ha Hm. revert l. induction k as [|k IH]; intros l Hk Hl; [by apply visited_root|].
  pose proof (row_lt (spec:=spec)). replace (Datatypes.S k) with (k + 1)%nat in * by lia.
  destruct (cast_int (spec:=spec) k) as [l0 Hl0]; [lia|].
  destruct (proj2 Ha (k + 1)%nat) as (x&Hx&Hr); [lia|].
  apply (visited_child _ _ _ k l0 x l); [by apply IH; [lia|]| |done|lia| |done].
  - intros ->. apply int_cast in Hl0. lia.
  - unfold child_count. rewrite decide_False by lia. lia.
Qed.

(** An entry with [dist] 1 constrains every earlier issue. *)
Lemma met_entry {C} cmd c v (ts : C → list (TimingEntry C)) (iss : C → list Z) x :
  (∀ cmd t, t ∈ ts cmd → t_cmd t = c → t_sibling t = false →
     ∀ k τ, iss cmd !! k = Some τ → t_dist t - 1 ≤ Z.of_nat k → τ + t_val t ≤ x) →
  mkTiming c 1 v false ∈ ts cmd → ∀ τ, τ ∈ iss cmd → τ + v ≤ x.
Proof.
  intros H Ht τ [k Hk]%list_elem_of_lookup. apply (H cmd (mkTiming c 1 v false) Ht eq_refl eq_refl k τ Hk).
  simpl. lia.
Qed.

(** The activation constraints of DDR3.  When [check] accepts an ACT at
    clock [x], then after any history: at most three activations of the rank
    are more recent than [nFAW] cycles (the four-activate window), every
    activation of the rank is at least [nRRD] cycles old, every activation of
    the bank [nRC], every precharge of the bank and every precharge-all of the
    rank [nRP], and every refresh of the rank [nRFC]. *)
Theorem ddr3_activation_windows o `{!CountOK 5 (DDR3.count (DDR3.org_entry o))} h d0 d a i r b x :
  let spec := DDR3.spec o in
  let s := DDR3.speed_entry o in
  new_channel spec DDR3.Channel i = Some d0 → Forall (event_ok spec) h → run_updates spec h d0 = Some d →
  addr_ok spec a → path_ok spec (bank_idx spec) a → take 3 a = [i; r; b] → 0 ≤ x →
  check spec DDR3.ACT a x d = Some true →
  (∀ k τ, issues h [i] r DDR3.ACT !! k = Some τ → (3 ≤ k)%nat → τ + DDR3.nFAW s ≤ x) ∧
  (∀ τ, τ ∈ issues h [i] r DDR3.ACT → τ + DDR3.nRRD s ≤ x) ∧
  (∀ τ, τ ∈ issues h [i; r] b DDR3.ACT → τ + DDR3.nRC s ≤ x) ∧
  (∀ τ, τ ∈ issues h [i; r] b DDR3.PRE → τ + DDR3.nRP s ≤ x) ∧
  (∀ τ, τ ∈ issues h [i] r DDR3.PREA → τ + DDR3.nRP s ≤ x) ∧
  (∀ τ, τ ∈ issues h [i] r DDR3.REF → τ + DDR3.nRFC s ≤ x).
Proof.
  intros spec s Hd0 Hh Hd Ha Hpath Hta Hx Hc.
  assert (∃ tl, a = i :: r :: b :: tl) as [tl Etl].
  { exists (drop 3 a). by rewrite <-(take_drop 3 a), Hta at 1. }
  destruct (check_legal spec h DDR3.Channel i d0 d DDR3.ACT a x) as (b0&Hb&Hiff); [done..|by subst a|done|].
  assert (legal spec h DDR3.ACT a x) as Hleg by (apply Hiff; congruence).
  destruct (Hleg 1%nat DDR3.Rank r) as [Hrank _];
    [by apply (visited_path spec _ _ (bank_idx spec)); [|simpl; vm_compute; lia|vm_compute; lia|]|by subst a|].
  destruct (Hleg 2%nat DDR3.Bank b) as [Hbank _];
    [by apply (visited_path spec _ _ (bank_idx spec)); [|simpl; vm_compute; lia|vm_compute; lia|]|by subst a|].
  subst a. cbn [take] in Hrank, Hbank.
  split_and!.
  - intros k τ Hk H3.
    apply (Hrank DDR3.ACT (mkTiming DDR3.ACT 4 (DDR3.nFAW s) false)) with k;
      [in_table|done|done|done|cbn [t_dist]; lia].
  - intros τ Hτ. apply (met_entry DDR3.ACT DDR3.ACT (DDR3.nRRD s) _ (λ c, issues h [i] r c) _ Hrank); [in_table|done].
  - intros τ Hτ. apply (met_entry DDR3.ACT DDR3.ACT (DDR3.nRC s) _ (λ c, issues h [i; r] b c) _ Hbank); [in_table|done].
  - intros τ Hτ. apply (met_entry DDR3.PRE DDR3.ACT (DDR3.nRP s) _ (λ c, issues h [i; r] b c) _ Hbank); [in_table|done].
  - intros τ Hτ. apply (met_entry DDR3.PREA DDR3.ACT (DDR3.nRP s) _ (λ c, issues h [i] r c) _ Hrank); [in_table|done].
  - intros τ Hτ. apply (met_entry DDR3.REF DDR3.ACT (DDR3.nRFC s) _ (λ c, issues h [i] r c) _ Hrank); [in_table|done].
Qed.

Definition acts3 : list (event (C := DDR3.Command)) :=
  [(DDR3.ACT, [0; 1; 3; 7; 0], 18); (DDR3.ACT, [0; 1; 2; 7; 0], 12);
   (DDR3.ACT, [0; 1; 1; 7; 0], 6); (DDR3.ACT, [0; 1; 0; 7; 0], 0)].
Definition ddr3_acts : DRAM DDR3.Level DDR3.Command DDR3.State :=
  default ddr3_dummy (run_updates spec3 acts3 ddr3_new).

Lemma ddr3_acts_eq : run_updates spec3 acts3 ddr3_new = Some ddr3_acts.
Proof. apply (Some_default ddr3_dummy). vm_compute. reflexivity. Qed.

Definition addr3'' : list Z := [0; 1; 4; 5; 0].

Lemma addr3''_ok : addr_ok spec3 addr3''.
Proof.
  split; [done|]. intros k x Hk Hpos. do 5 (destruct k as [|k]; [simplify_eq/=; vm_compute; done || lia|]). done.
Qed.

Lemma addr3''_path : path_ok spec3 (bank_idx spec3) addr3''.
Proof.
  split; [done|]. intros k Hk. assert (k = 1 ∨ k = 2)%nat as [->| ->] by (vm_compute in Hk; lia);
    eexists; (split; [reflexivity|vm_compute; split; congruence]).
Qed.

Lemma ddr3_activation_windows_witness :
  check spec3 DDR3.ACT addr3'' 32 ddr3_acts = Some true ∧
  check spec3 DDR3.ACT addr3'' 23 ddr3_acts = Some false ∧
  ∀ k τ, issues acts3 [0] 1 DDR3.ACT !! k = Some τ → (3 ≤ k)%nat → τ + DDR3.nFAW (DDR3.speed_entry ddr3) ≤ 32.
Proof.
  assert (check spec3 DDR3.ACT addr3'' 32 ddr3_acts = Some true) as Hc by (vm_compute; reflexivity).
  split; [exact Hc|]. split; [vm_compute; reflexivity|].
  apply (ddr3_activation_windows ddr3 acts3 ddr3_new ddr3_acts addr3'' 0 1 4 32);
    [apply ddr3_new_eq| |apply ddr3_acts_eq| | |reflexivity|lia|exact Hc].
  - repeat constructor; simpl; lia.
  - apply addr3''_ok.
  - apply addr3''_path.
Defined.

(** ** Organisations *)

(** The capacity in Mb that a data width and the counts of the levels below
    the rank (of all levels for HMC) amount to. *)
Definition capacity (dq : Z) (counts : list Z) : Z := Z.shiftr (dq * foldr Z.mul 1 counts) 20.

(** The [size] of every organisation of every standard is the capacity its
    data width and its counts amount to, with two exceptions: GDDR5_4Gb_x32
    (declared 2 Gb, its counts give 4 Gb) and HMC_8GB (declared 4 GB, its
    counts give 8 GB). *)
Theorem organisation_sizes :
  (∀ g, let e := DDR3.org_table g in capacity (DDR3.dq e) (drop 2 (DDR3.count e)) = DDR3.size e) ∧
  (∀ g, let e := DDR4.org_table g in capacity (DDR4.dq e) (drop 2 (DDR4.count e)) = DDR4.size e) ∧
  (∀ g, let e := HBM.org_table g in capacity (HBM.dq e) (drop 2 (HBM.count e)) = HBM.size e) ∧
  (∀ g, let e := LPDDR3.org_table g in capacity (LPDDR3.dq e) (drop 2 (LPDDR3.count e)) = LPDDR3.size e) ∧
  (∀ g, let e := LPDDR4.org_table g in capacity (LPDDR4.dq e) (drop 2 (LPDDR4.count e)) = LPDDR4.size e) ∧
  (∀ g, let e := WideIO.org_table g in capacity (WideIO.dq e) (drop 2 (WideIO.count e)) = WideIO.size e) ∧
  (∀ g, let e := GDDR5.org_table g in
    capacity (GDDR5.dq e) (drop 2 (GDDR5.count e)) =
      if decide (g = GDDR5.GDDR5_4Gb_x32) then 2 * GDDR5.size e else GDDR5.size e) ∧
  (∀ g, let e := HMC.org_table g in
    capacity (HMC.dq e) (HMC.count e) =
      if decide (g = HMC.HMC_8GB) then 2 * HMC.size e else HMC.size e).
Proof. split_and!; intros []; vm_compute; reflexivity. Qed.

(** The boolean form of what is said of a constructed object. *)
Lemma built_ok {O E} n (x : option O) (org : O → E) (counts : E → list Z) (rfc refi lat : O → Z) :
  match x with
  | Some o => bool_decide (length (counts (org o)) = n) && forallb (Z.leb 0) (counts (org o)) &&
              (0 <? rfc o) && (rfc o <? refi o) && (1 <? lat o)
  | None => false
  end = true →
  ∃ o, x = Some o ∧ CountOK n (counts (org o)) ∧ 0 < rfc o < refi o ∧ 1 < lat o.
Proof.
  destruct x as [o|]; [|done]. rewrite !andb_true_iff, bool_decide_eq_true, forallb_forall.
  intros ((((Hl&Hf)&?)&?)&?). exists o. split_and!; [done| |lia..]. split; [done|].
  apply Forall_forall. intros c Hc. apply Z.leb_le, Hf. by apply list_elem_of_In.
Qed.

(** The constructors.  Every organisation and speed of DDR3, DDR4, GDDR5,
    HBM, LPDDR4 and WideIO yields an object: no [assert] of [init_speed] fails,
    the counts are well-formed, the refresh latency is positive and smaller
    than the refresh interval, and the read latency exceeds one cycle.  LPDDR3
    refuses exactly its 12 Gb and 16 Gb organisations. *)
Theorem standard_constructors :
  (∀ g s, ∃ o, DDR3.new g s = Some o ∧ CountOK 5 (DDR3.count (DDR3.org_entry o)) ∧
     0 < DDR3.nRFC (DDR3.speed_entry o) < DDR3.nREFI (DDR3.speed_entry o) ∧ 1 < DDR3.read_latency o) ∧
  (∀ g s, ∃ o, DDR4.new g s = Some o ∧ CountOK 6 (DDR4.count (DDR4.org_entry o)) ∧
     0 < DDR4.nRFC (DDR4.speed_entry o) < DDR4.nREFI (DDR4.speed_entry o) ∧ 1 < DDR4.read_latency o) ∧
  (∀ g s, ∃ o, GDDR5.new g s = Some o ∧ CountOK 6 (GDDR5.count (GDDR5.org_entry o)) ∧
     0 < GDDR5.nRFC (GDDR5.speed_entry o) < GDDR5.nREFI (GDDR5.speed_entry o) ∧ 1 < GDDR5.read_latency o) ∧
  (∀ g s, ∃ o, HBM.new g s = Some o ∧ CountOK 6 (HBM.count (HBM.org_entry o)) ∧
     0 < HBM.nRFC (HBM.speed_entry o) < HBM.nREFI (HBM.speed_entry o) ∧ 1 < HBM.read_latency o) ∧
  (∀ g s, ∃ o, LPDDR4.new g s = Some o ∧ CountOK 5 (LPDDR4.count (LPDDR4.org_entry o)) ∧
     0 < LPDDR4.nRFCab (LPDDR4.speed_entry o) < LPDDR4.nREFI (LPDDR4.speed_entry o) ∧ 1 < LPDDR4.read_latency o) ∧
  (∀ g s, ∃ o, WideIO.new g s = Some o ∧ CountOK 5 (WideIO.count (WideIO.org_entry o)) ∧
     0 < WideIO.nRFC (WideIO.speed_entry o) < WideIO.nREFI (WideIO.speed_entry o) ∧ 1 < WideIO.read_latency o) ∧
  (∀ g s, LPDDR3.new g s = None ↔
     g ∈ [LPDDR3.LPDDR3_12Gb_x16; LPDDR3.LPDDR3_12Gb_x32; LPDDR3.LPDDR3_16Gb_x16; LPDDR3.LPDDR3_16Gb_x32]).
Proof.
  split_and!.
  1: intros g s; apply (built_ok 5 _ DDR3.org_entry DDR3.count (λ o, DDR3.nRFC (DDR3.speed_entry o))
       (λ o, DDR3.nREFI (DDR3.speed_entry o)) DDR3.read_latency); destruct g, s; vm_compute; reflexivity.
  1: intros g s; apply (built_ok 6 _ DDR4.org_entry DDR4.count (λ o, DDR4.nRFC (DDR4.speed_entry o))
       (λ o, DDR4.nREFI (DDR4.speed_entry o)) DDR4.read_latency); destruct g, s; vm_compute; reflexivity.
  1: intros g s; apply (built_ok 6 _ GDDR5.org_entry GDDR5.count (λ o, GDDR5.nRFC (GDDR5.speed_entry o))
       (λ o, GDDR5.nREFI (GDDR5.speed_entry o)) GDDR5.read_latency); destruct g, s; vm_compute; reflexivity.
  1: intros g s; apply (built_ok 6 _ HBM.org_entry HBM.count (λ o, HBM.nRFC (HBM.speed_entry o))
       (λ o, HBM.nREFI (HBM.speed_entry o)) HBM.read_latency); destruct g, s; vm_compute; reflexivity.
  1: intros g s; apply (built_ok 5 _ LPDDR4.org_entry LPDDR4.count (λ o, LPDDR4.nRFCab (LPDDR4.speed_entry o))
       (λ o, LPDDR4.nREFI (LPDDR4.speed_entry o)) LPDDR4.read_latency); destruct g, s; vm_compute; reflexivity.
  1: intros g s; apply (built_ok 5 _ WideIO.org_entry WideIO.count (λ o, WideIO.nRFC (WideIO.speed_entry o))
       (λ o, WideIO.nREFI (WideIO.speed_entry o)) WideIO.read_latency); destruct g, s; vm_compute; reflexivity.
  intros g s. destruct (decide (g ∈ [LPDDR3.LPDDR3_12Gb_x16; LPDDR3.LPDDR3_12Gb_x32;
    LPDDR3.LPDDR3_16Gb_x16; LPDDR3.LPDDR3_16Gb_x32])) as [H|H].
  - split; [done|]. intros _. split_elem H; destruct s; reflexivity.
  - split; [|done]. destruct g; try (by destruct H; apply (bool_decide_unpack _); vm_compute);
      destruct s; vm_compute; congruence.
Qed.
