(* ===== verification/Scheduler.v ===== *)
(** * Request scheduling ([ramulator/src/Scheduler.h])

    [Scheduler<T>::get_head], [RowPolicy<T>::get_victim] and [RowTable<T>].
    The three classes hold a pointer to the controller and call its predicates
    [is_ready], [is_row_hit] and [is_row_open]; these are the record
    [CtrlView].  A list iterator is the index of the element, [q.end()] is
    [None].  [map<vector<int>, Entry>] is a [gmap]; the loops that depend on the
    map's order go through its sorted list of keys. *)

From stdpp Require Import sorting.
From S2P Require Import Prelude Request Dram.

(** ** Data *)

(** [Scheduler<T>::Type] and the members of [Scheduler<T>] *)
Inductive SchedType := FCFS | FRFCFS | FRFCFS_Cap | FRFCFS_PriorHit.
Record Scheduler := mkScheduler { sched_type : SchedType; cap : Z }.
Definition Scheduler0 : Scheduler := mkScheduler FRFCFS_PriorHit 16.

(** [RowPolicy<T>::Type] and the members of [RowPolicy<T>] *)
Inductive PolicyType := ClosedRow | OpenedRow | TimeoutRow.
Record RowPolicy := mkRowPolicy { policy_type : PolicyType; timeout : Z }.
Definition RowPolicy0 : RowPolicy := mkRowPolicy OpenedRow 50.

(** [RowTable<T>::Entry] and [RowTable<T>::table] *)
Record Entry := mkEntry { row : Z; hits : Z; timestamp : Z }.
Abbreviation RowTable := (gmap (list Z) Entry).

#[export] Instance SchedType_eq_dec : EqDecision SchedType.
Proof. solve_decision. Defined.
#[export] Instance PolicyType_eq_dec : EqDecision PolicyType.
Proof. solve_decision. Defined.

(** What the scheduler and the row policy ask of the controller. *)
Record CtrlView {C : Type} := mkView {
  v_is_ready : Request → option bool;
  v_is_row_hit : Request → option bool;
  v_is_row_open : Request → option bool;
  v_is_ready_cmd : C → list Z → option bool;
  v_clk : Z
}.
Arguments CtrlView : clear implicits.
Arguments mkView {C}.

(** Lexicographic order of [vector<int>]. *)
Fixpoint lex_le (a b : list Z) : bool :=
  match a, b with
  | [], _ => true
  | _ :: _, [] => false
  | x :: a, y :: b => (x <? y) || ((x =? y) && lex_le a b)
  end.

Definition key_le (x y : list Z * Entry) : Prop := lex_le (fst x) (fst y) = true.
#[export] Instance key_le_dec x y : Decision (key_le x y).
Proof. unfold key_le. apply _. Defined.

Section Ops.
Context {L C S : Type}.
Variable spec : Spec L C S.

(** ** [RowTable<T>] *)

Definition row_idx : nat := level_int spec (lvl_Row spec).

(** The vector [rowgroup(begin, begin + int(T::Level::Row))] *)
Definition rowgroup (addr_vec : list Z) : list Z := take row_idx addr_vec.

(** [table.insert({rowgroup, {row, 0, clk}})] does not replace an entry. *)
Definition table_open (addr_vec : list Z) (r clk : Z) (t : RowTable) : RowTable :=
  match t !! rowgroup addr_vec with
  | Some _ => t
  | None => <[rowgroup addr_vec := mkEntry r 0 clk]> t
  end.

Definition table_access (addr_vec : list Z) (r clk : Z) (t : RowTable) : option RowTable :=
  e ← t !! rowgroup addr_vec;
  assert! row e =? r;
  Some (<[rowgroup addr_vec := mkEntry (row e) (hits e + 1) clk]> t).

(** The loop that erases the entries that agree with the address down to the
    command's scope, and [assert(n_rm > 0)]; [equal] would read past the end
    of a key for a scope at the row or below. *)
Definition table_close (scope : nat) (addr_vec : list Z) (t : RowTable) : option RowTable :=
  if decide (scope + 1 ≤ row_idx)%nat then
    let t' := filter (λ kv, take (scope + 1) kv.1 ≠ take (scope + 1) addr_vec) t in
    assert! bool_decide (size t' < size t)%nat;
    Some t'
  else None.

(** [update(cmd, addr_vec, clk)] *)
Definition rowtable_update (cmd : C) (addr_vec : list Z) (clk : Z) (t : RowTable) : option RowTable :=
  r ← addr_vec !! row_idx;
  let t := if is_opening spec cmd then table_open addr_vec r clk t else t in
  t ← if is_accessing spec cmd then table_access addr_vec r clk t else Some t;
  if is_closing spec cmd then table_close (level_int spec (scope spec cmd)) addr_vec t else Some t.

(** [get_hits(addr_vec)]: [table[rowgroup]] inserts an entry with all members 0
    when there is none. *)
Definition get_hits (addr_vec : list Z) (t : RowTable) : option (Z * RowTable) :=
  r ← addr_vec !! row_idx;
  match t !! rowgroup addr_vec with
  | Some e => Some (if row e =? r then hits e else 0, t)
  | None => Some (0, <[rowgroup addr_vec := mkEntry 0 0 0]> t)
  end.

(** ** [Scheduler<T>] *)
Section Compare.
Variable view : CtrlView C.

(** The end of every comparison: the one that is ready, else the older. *)
Definition pick (ready1 ready2 : bool) (r1 r2 : Request) (i j : nat) : nat :=
  if xorb ready1 ready2 then (if ready1 then i else j)
  else if arrive r1 <=? arrive r2 then i else j.

(** [ready && (rowtable->get_hits(addr_vec) <= cap)] *)
Definition below_cap (cap : Z) (r : Request) (ready : bool) (t : RowTable) : option (bool * RowTable) :=
  if ready then '(h, t) ← get_hits (addr_vec r) t; Some (h <=? cap, t) else Some (false, t).

(** [is_ready(req) && is_row_hit(req)] *)
Definition ready_hit (r : Request) : option bool :=
  b ← v_is_ready view r; if (b : bool) then v_is_row_hit view r else Some false.

(** [compare[type](req1, req2)] *)
Definition compare (cap : Z) (ty : SchedType) (q : list Request) (t : RowTable) (i j : nat) :
    option (nat * RowTable) :=
  r1 ← q !! i;
  r2 ← q !! j;
  match ty with
  | FCFS => Some (if arrive r1 <=? arrive r2 then i else j, t)
  | FRFCFS =>
    ready1 ← v_is_ready view r1;
    ready2 ← v_is_ready view r2;
    Some (pick ready1 ready2 r1 r2 i j, t)
  | FRFCFS_Cap =>
    ready1 ← v_is_ready view r1;
    ready2 ← v_is_ready view r2;
    '(ready1, t) ← below_cap cap r1 ready1 t;
    '(ready2, t) ← below_cap cap r2 ready2 t;
    Some (pick ready1 ready2 r1 r2 i j, t)
  | FRFCFS_PriorHit =>
    ready1 ← ready_hit r1;
    ready2 ← ready_hit r2;
    Some (pick ready1 ready2 r1 r2 i j, t)
  end.

(** [for (itr = next(q.begin(), 1); itr != q.end(); itr++) head = compare(head, itr);] *)
Definition scan (cap : Z) (ty : SchedType) (q : list Request) (t : RowTable) : option (nat * RowTable) :=
  foldM (λ ht j, compare cap ty q (snd ht) (fst ht) j) (0%nat, t) (seq 1 (length q - 1)).

(** The bank or subarray of a request, from the scope of PRE. *)
Definition pre_group (r : Request) : list Z :=
  take (level_int spec (scope spec (cmd_PRE spec)) + 1) (addr_vec r).

(** The row groups of the requests that hit. *)
Definition hit_reqs (q : list Request) : option (list (list Z)) :=
  foldM (λ acc r, hit ← v_is_row_hit view r; Some (if (hit : bool) then acc ++ [pre_group r] else acc)) [] q.

(** Would scheduling the request close a row that another request hits? *)
Definition violates_hit (hits : list (list Z)) (r : Request) : option bool :=
  hit ← v_is_row_hit view r;
  if (hit : bool) then Some false
  else
    open ← v_is_row_open view r;
    Some (open && bool_decide (pre_group r ∈ hits)).

Definition prior_step (hits : list (list Z)) (cap : Z) (q : list Request) (t : RowTable)
    (head : option nat) (i : nat) : option (option nat) :=
  r ← q !! i;
  violate ← violates_hit hits r;
  if (violate : bool) then Some head
  else
    match head with
    | None => Some (Some i)
    | Some h => '(h, _) ← compare cap FRFCFS q t h i; Some (Some h)
    end.

(** [get_head(q)] *)
Definition get_head (sch : Scheduler) (q : list Request) (t : RowTable) : option (option nat * RowTable) :=
  match q with
  | [] => Some (None, t)
  | _ =>
    '(head, t) ← scan (cap sch) (sched_type sch) q t;
    if decide (sched_type sch = FRFCFS_PriorHit) then
      r ← q !! head;
      best ← ready_hit r;
      if (best : bool) then Some (Some head, t)
      else
        hits ← hit_reqs q;
        head ← foldM (prior_step hits (cap sch) q t) None (seq 0 (length q));
        Some (head, t)
    else Some (Some head, t)
  end.

(** ** [RowPolicy<T>] *)

(** [for (auto& kv : table)] *)
Definition table_list (t : RowTable) : list (list Z * Entry) :=
  merge_sort key_le (map_to_list t).

Fixpoint first_ready (cmd : C) (l : list (list Z)) : option (list Z) :=
  match l with
  | [] => Some []
  | k :: l =>
    b ← v_is_ready_cmd view cmd k;
    if (b : bool) then Some k else first_ready cmd l
  end.

(** [get_victim(cmd)]: the empty vector is no victim. *)
Definition get_victim (pol : RowPolicy) (cmd : C) (t : RowTable) : option (list Z) :=
  match policy_type pol with
  | ClosedRow => first_ready cmd (map fst (table_list t))
  | OpenedRow => Some []
  | TimeoutRow =>
    first_ready cmd (map fst (filter (λ kv, timeout pol ≤ v_clk view - timestamp (snd kv)) (table_list t)))
  end.

End Compare.
End Ops.
