(* ===== verification/SchedulerTheorems.v ===== *)
(** * What the scheduler chooses

    [get_head] folds a comparison over the queue.  The abstract
    specification [best] says which request wins: a good one if there is one,
    the oldest among those, the first in the queue among equally old ones. *)

From S2P Require Import Prelude Request Dram Scheduler SpecDDR3 DeviceTheorems.

(** [i] wins among the indices [I] of the queue. *)
Definition best (good : Request → bool) (q : list Request) (I : list nat) (i : nat) : Prop :=
  i ∈ I ∧ ∃ r, q !! i = Some r ∧
    ∀ j rj, j ∈ I → q !! j = Some rj →
      (good rj = true → good r = true) ∧
      (good r = good rj → arrive r ≤ arrive rj ∧ (arrive r = arrive rj → (i ≤ j)%nat)).

Lemma best_single good q i r : q !! i = Some r → best good q [i] i.
Proof.
  intros Hi. split; [set_solver|]. exists r. split; [done|]. intros j rj ->%list_elem_of_singleton Hj.
  simplify_eq. split; [done|]. intros _. split; [lia|done].
Qed.

Lemma best_pick good q I i j ri rj :
  best good q I i → q !! i = Some ri → q !! j = Some rj → (∀ k, k ∈ I → (k < j)%nat) →
  best good q (I ++ [j]) (pick (good ri) (good rj) ri rj i j).
Proof.
  intros [Hi (r&Hr&Hbest)] Hri Hj Hlt. rewrite Hr in Hri. injection Hri as ->.
  unfold pick. destruct (xorb (good ri) (good rj)) eqn:Hx.
  - destruct (good ri) eqn:Gi, (good rj) eqn:Gj; try done.
    + split; [set_solver|]. exists ri. split; [done|]. rewrite Gi.
      intros k rk [Hk| ->%list_elem_of_singleton]%elem_of_app Hk'; [by apply Hbest|].
      assert (rk = rj) as -> by congruence. by rewrite Gj.
    + split; [set_solver|]. exists rj. split; [done|]. rewrite Gj.
      intros k rk [Hk| ->%list_elem_of_singleton]%elem_of_app Hk'.
      * destruct (Hbest k rk Hk Hk') as [Hg _]. split; [done|]. intros E. specialize (Hg (eq_sym E)). congruence.
      * simplify_eq. split; [done|]. intros _. split; [lia|done].
  - assert (good ri = good rj) as E by (by destruct (good ri), (good rj)).
    destruct (arrive ri <=? arrive rj) eqn:Ha.
    + split; [set_solver|]. exists ri. split; [done|].
      intros k rk [Hk| ->%list_elem_of_singleton]%elem_of_app Hk'; [eauto|]. simplify_eq.
      split; [congruence|]. intros _. split; [lia|]. intros _.
      apply Hlt in Hi. lia.
    + split; [set_solver|]. exists rj. split; [done|].
      intros k rk [Hk| ->%list_elem_of_singleton]%elem_of_app Hk'.
      * destruct (Hbest k rk Hk Hk') as [Hg Ho]. rewrite <-E. split; [done|]. intros E'.
        destruct (Ho E') as [? ?]. split; lia.
      * simplify_eq. split; [done|]. intros _. split; [lia|done].
Qed.

(** A scan whose comparison prefers good requests. *)
Section Scan.
Context {L C S : Type}.
Variables (spec : Spec L C S) (view : CtrlView C) (q : list Request).
Variables (good : Request → bool) (cap : Z) (ty : SchedType) (t : RowTable).
Hypothesis Hcmp : ∀ i j ri rj, q !! i = Some ri → q !! j = Some rj →
  compare spec view cap ty q t i j = Some (pick (good ri) (good rj) ri rj i j, t).

Lemma scan_from n m h :
  (n + m)%nat = length q → best good q (seq 0 n) h →
  ∃ h', foldM (λ ht j, compare spec view cap ty q (snd ht) (fst ht) j) (h, t) (seq n m) = Some (h', t) ∧
        best good q (seq 0 (length q)) h'.
Proof.
  revert n h. induction m as [|m IH]; intros n h Hlen Hb; simpl.
  { exists h. split; [done|]. by rewrite <-Hlen, Nat.add_0_r. }
  destruct (lookup_lt_is_Some_2 q n) as [rn Hn]; [lia|].
  destruct (id Hb) as [_ (rh&Hh&_)]. rewrite (Hcmp _ _ rh rn) by done. simpl.
  apply IH; [lia|]. rewrite seq_S. simpl. apply best_pick; [done..|]. intros k Hk%elem_of_seq. lia.
Qed.

Lemma scan_best :
  q ≠ [] → ∃ h, scan spec view cap ty q t = Some (h, t) ∧ best good q (seq 0 (length q)) h.
Proof.
  intros Hq. destruct (lookup_lt_is_Some_2 q 0) as [r Hr]; [destruct q; simpl; [done|lia]|].
  apply scan_from; [destruct q; simpl; [done|lia]|]. by eapply best_single.
Qed.

End Scan.

Section Plain.
Context {L C S : Type}.
Variables (spec : Spec L C S) (view : CtrlView C) (q : list Request) (ready : Request → bool).
Hypothesis Hready : ∀ r, r ∈ q → v_is_ready view r = Some (ready r).

Lemma compare_frfcfs cap t i j ri rj :
  q !! i = Some ri → q !! j = Some rj →
  compare spec view cap FRFCFS q t i j = Some (pick (ready ri) (ready rj) ri rj i j, t).
Proof.
  intros Hi Hj. unfold compare. rewrite Hi, Hj; simpl.
  by rewrite !Hready by (by eapply list_elem_of_lookup_2).
Qed.

Lemma scan_plain cap ty t :
  ty = FCFS ∨ ty = FRFCFS → q ≠ [] →
  ∃ h, scan spec view cap ty q t = Some (h, t) ∧
    best (λ r, if decide (ty = FCFS) then true else ready r) q (seq 0 (length q)) h.
Proof.
  intros [->| ->]; apply scan_best; intros i j ri rj Hi Hj; [|by apply compare_frfcfs].
  unfold compare. by rewrite Hi, Hj.
Qed.

End Plain.

Section Choice.
Context {L C S : Type}.
Variables (spec : Spec L C S) (view : CtrlView C) (q : list Request) (ready hit open : Request → bool).
Hypothesis Hready : ∀ r, r ∈ q → v_is_ready view r = Some (ready r).
Hypothesis Hhit : ∀ r, r ∈ q → v_is_row_hit view r = Some (hit r).
Hypothesis Hopen : ∀ r, r ∈ q → v_is_row_open view r = Some (open r).

Lemma ready_hit_eq r : r ∈ q → ready_hit view r = Some (ready r && hit r).
Proof. intros Hr. unfold ready_hit. rewrite Hready by done. simpl. destruct (ready r); [by apply Hhit|done]. Qed.

Lemma compare_prior cap t i j ri rj :
  q !! i = Some ri → q !! j = Some rj →
  compare spec view cap FRFCFS_PriorHit q t i j =
    Some (pick (ready ri && hit ri) (ready rj && hit rj) ri rj i j, t).
Proof.
  intros Hi Hj. unfold compare. rewrite Hi, Hj; simpl.
  by rewrite !ready_hit_eq by (by eapply list_elem_of_lookup_2).
Qed.

(** The requests that would close a row another request of the queue hits. *)
Definition violating (r : Request) : bool :=
  negb (hit r) && open r && bool_decide (Exists (λ r', hit r' = true ∧ pre_group spec r' = pre_group spec r) q).

Lemma hit_reqs_from acc l :
  (∀ r, r ∈ l → r ∈ q) →
  foldM (λ acc r, h ← v_is_row_hit view r; Some (if (h : bool) then acc ++ [pre_group spec r] else acc)) acc l =
    Some (acc ++ map (pre_group spec) (filter (λ r, hit r = true) l)).
Proof.
  revert acc. induction l as [|r l IH]; intros acc Hl; [by rewrite app_nil_r|]. simpl.
  rewrite Hhit by set_solver. simpl. rewrite IH by set_solver. rewrite filter_cons.
  destruct (hit r); simpl; [by rewrite <-app_assoc|done].
Qed.

Lemma hit_reqs_eq : hit_reqs spec view q = Some (map (pre_group spec) (filter (λ r, hit r = true) q)).
Proof. unfold hit_reqs. rewrite hit_reqs_from by done. done. Qed.

Lemma violates_hit_eq r :
  r ∈ q →
  violates_hit spec view (map (pre_group spec) (filter (λ r, hit r = true) q)) r = Some (violating r).
Proof.
  intros Hr. unfold violates_hit, violating. rewrite Hhit by done. simpl. destruct (hit r); simpl; [done|].
  rewrite Hopen by done. simpl. do 2 f_equal. apply bool_decide_ext.
  rewrite list_elem_of_fmap, Exists_exists. setoid_rewrite list_elem_of_filter. naive_solver.
Qed.

Definition safe_indices (n : nat) : list nat :=
  filter (λ i, violating <$> q !! i = Some false) (seq 0 n).

Lemma safe_indices_S n r :
  q !! n = Some r → safe_indices (Datatypes.S n) = safe_indices n ++ if violating r then [] else [n].
Proof.
  intros Hr. unfold safe_indices. rewrite seq_S, filter_app. f_equal. simpl. rewrite filter_cons, filter_nil.
  rewrite Hr; simpl. destruct (violating r); by case_decide.
Qed.

Lemma prior_from cap t n m head :
  (n + m)%nat = length q →
  match head with None => safe_indices n = [] | Some h => best ready q (safe_indices n) h end →
  ∃ head', foldM (prior_step spec view (map (pre_group spec) (filter (λ r, hit r = true) q)) cap q t) head (seq n m) =
             Some head' ∧
    match head' with None => safe_indices (length q) = [] | Some h => best ready q (safe_indices (length q)) h end.
Proof.
  revert n head. induction m as [|m IH]; intros n head Hlen Hh; simpl.
  { exists head. split; [done|]. by rewrite <-Hlen, Nat.add_0_r. }
  destruct (lookup_lt_is_Some_2 q n) as [rn Hn]; [lia|].
  unfold prior_step at 2. rewrite Hn; simpl.
  rewrite violates_hit_eq by (eapply list_elem_of_lookup_2; eauto). simpl.
  pose proof (safe_indices_S n rn Hn) as Hs. destruct (violating rn) eqn:V.
  { apply IH; [lia|]. by rewrite Hs, app_nil_r. }
  destruct head as [h|].
  - destruct (id Hh) as [_ (rh&Hrh&_)].
    rewrite (compare_frfcfs spec view q ready Hready _ _ _ _ rh rn) by done. simpl. apply IH; [lia|]. rewrite Hs.
    apply (best_pick ready); [done..|].
    intros k [_ Hk%elem_of_seq]%list_elem_of_filter. lia.
  - apply IH; [lia|]. rewrite Hs, Hh. simpl. by eapply best_single.
Qed.

(** Not every request can violate a hit. *)
Lemma safe_nonempty : q ≠ [] → safe_indices (length q) ≠ [].
Proof.
  intros Hq Hs.
  assert (∀ i r, q !! i = Some r → violating r = true) as Hall.
  { intros i r Hi. destruct (violating r) eqn:V; [done|].
    assert (i ∈ safe_indices (length q)) as Hin; [|rewrite Hs in Hin; by apply elem_of_nil in Hin].
    apply list_elem_of_filter. split; [by rewrite Hi; simpl; rewrite V|]. apply elem_of_seq. apply lookup_lt_Some in Hi. lia. }
  destruct (lookup_lt_is_Some_2 q 0) as [r Hr]; [destruct q; simpl; [done|lia]|].
  pose proof (Hall _ _ Hr) as Hv. unfold violating in Hv. rewrite !andb_true_iff, bool_decide_eq_true, Exists_exists in Hv.
  destruct Hv as [_ (r'&Hr'&Hh&_)]. apply list_elem_of_lookup in Hr' as [j Hj].
  specialize (Hall _ _ Hj). unfold violating in Hall. by rewrite Hh in Hall.
Qed.

Lemma get_head_prior sch t :
  sched_type sch = FRFCFS_PriorHit → q ≠ [] →
  ∃ i, get_head spec view sch q t = Some (Some i, t) ∧
    if decide (Exists (λ r, ready r && hit r = true) q)
    then best (λ r, ready r && hit r) q (seq 0 (length q)) i
    else best ready q (safe_indices (length q)) i.
Proof.
  intros Hty Hq. destruct (scan_best spec view q (λ r, ready r && hit r) (cap sch) FRFCFS_PriorHit t)
    as (h&Hscan&Hb); [by apply compare_prior|done|].
  destruct (id Hb) as [_ (rh&Hrh&Hbest)].
  assert (∀ {A} (x y : A), match q with [] => x | _ => y end = y) as Hm by (by destruct q).
  unfold get_head. rewrite Hm, Hty, Hscan; simpl. rewrite Hrh; simpl.
  rewrite ready_hit_eq by (eapply list_elem_of_lookup_2; eauto). simpl.
  destruct (ready rh && hit rh) eqn:G.
  - exists h. split; [done|]. rewrite decide_True; [done|]. apply Exists_exists. exists rh. split; [|done].
    eapply list_elem_of_lookup_2; eauto.
  - rewrite hit_reqs_eq; simpl.
    destruct (prior_from (cap sch) t 0 (length q) None) as (head&Hf&Hh); [done..|].
    rewrite Hf; simpl. destruct head as [i|]; [|by apply safe_nonempty in Hh].
    exists i. split; [done|]. rewrite decide_False; [done|]. intros (r&Hr&Hg)%Exists_exists.
    apply list_elem_of_lookup in Hr as [j Hj].
    destruct (Hbest j r) as [Hgood _]; [|done|]; [apply elem_of_seq; apply lookup_lt_Some in Hj; lia|].
    specialize (Hgood Hg). simpl in Hgood. congruence.
Qed.

End Choice.

Section Claims.
Context {L C S : Type}.
Variables (spec : Spec L C S) (view : CtrlView C) (q : list Request) (ready hit open : Request → bool).

(** C6: [get_head] with the FCFS and FRFCFS policies returns, on a non-empty
    queue, the oldest request (FCFS), or the oldest ready request and, when
    none is ready, the oldest one (FRFCFS); ties go to the request nearer the
    head of the queue.  The row table is not changed. *)
Theorem get_head_oldest sch t :
  (∀ r, r ∈ q → v_is_ready view r = Some (ready r)) →
  sched_type sch = FCFS ∨ sched_type sch = FRFCFS → q ≠ [] →
  ∃ i, get_head spec view sch q t = Some (Some i, t) ∧
    best (λ r, if decide (sched_type sch = FCFS) then true else ready r) q (seq 0 (length q)) i.
Proof.
  intros Hready Hty Hq.
  destruct (scan_plain spec view q ready Hready (cap sch) (sched_type sch) t Hty Hq) as (h&Hs&Hb).
  exists h. split; [|done]. unfold get_head. destruct q; [done|]. rewrite Hs; simpl.
  rewrite decide_False; [done|]. destruct Hty; congruence.
Qed.

(** C7: [get_head] with the default policy FRFCFS_PriorHit.  On a non-empty
    queue it always returns a request (never [q.end()]): the oldest request
    that is ready and hits the open row if there is one, else the oldest ready
    one (or the oldest, if none is ready) among the requests that violate no
    hit; and the request it returns is never one whose next command would close
    a row that some request of the queue hits. *)
Theorem get_head_prior_hit sch t :
  (∀ r, r ∈ q → v_is_ready view r = Some (ready r)) →
  (∀ r, r ∈ q → v_is_row_hit view r = Some (hit r)) →
  (∀ r, r ∈ q → v_is_row_open view r = Some (open r)) →
  sched_type sch = FRFCFS_PriorHit → q ≠ [] →
  ∃ i r, get_head spec view sch q t = Some (Some i, t) ∧ q !! i = Some r ∧
    (Exists (λ r', ready r' && hit r' = true) q →
       best (λ r', ready r' && hit r') q (seq 0 (length q)) i) ∧
    (¬ Exists (λ r', ready r' && hit r' = true) q →
       best ready q (safe_indices spec q hit open (length q)) i) ∧
    (hit r = false → open r = true → ∀ r', r' ∈ q → hit r' = true → pre_group spec r' ≠ pre_group spec r).
Proof.
  intros Hready Hhit Hopen Hty Hq.
  destruct (get_head_prior spec view q ready hit open Hready Hhit Hopen sch t Hty Hq) as (i&Hg&Hb).
  case_decide as E.
  - destruct (id Hb) as [_ (r&Hr&Hbest)]. exists i, r. split_and!; [done..|].
    intros Hh _. apply Exists_exists in E as (r0&Hr0&Hg0). apply list_elem_of_lookup in Hr0 as [j Hj].
    destruct (Hbest j r0) as [Hgood _]; [apply elem_of_seq; apply lookup_lt_Some in Hj; lia|done|].
    specialize (Hgood Hg0). simpl in Hgood. rewrite Hh, andb_false_r in Hgood. done.
  - destruct (id Hb) as [Hin (r&Hr&_)]. exists i, r. split_and!; [done..|].
    intros Hh Ho r' Hr' Hh' Heq. apply list_elem_of_filter in Hin as [Hv _]. rewrite Hr in Hv; simpl in Hv.
    injection Hv as Hv. unfold violating in Hv. rewrite Hh, Ho in Hv. simpl in Hv.
    apply bool_decide_eq_false in Hv. apply Hv, Exists_exists. eauto.
Qed.

End Claims.

(** *** Witnesses: two requests, the second of which hits the open row. *)
Definition req_old : Request := set_arrive 1 (set_addr_vec [0; 0; 3; 5; 0] (Request_addr 0 READ 0)).
Definition req_hit : Request := set_arrive 2 (set_addr_vec [0; 0; 3; 7; 0] (Request_addr 64 READ 0)).
Definition view0 : CtrlView DDR3.Command :=
  mkView (λ r, Some (bool_decide (r = req_old))) (λ r, Some (bool_decide (r = req_hit))) (λ _, Some true)
    (λ _ _, Some true) 3.

Lemma get_head_oldest_witness :
  ∃ i, get_head spec3 view0 (mkScheduler FRFCFS 16) [req_old; req_hit] ∅ = Some (Some i, ∅) ∧
    best (λ r, bool_decide (r = req_old)) [req_old; req_hit] [0%nat; 1%nat] i.
Proof.
  apply (get_head_oldest spec3 view0 [req_old; req_hit] (λ r, bool_decide (r = req_old))
    (mkScheduler FRFCFS 16) ∅); [done|by right|done].
Defined.

Lemma get_head_prior_hit_witness :
  ∃ i r, get_head spec3 view0 Scheduler0 [req_old; req_hit] ∅ = Some (Some i, ∅) ∧
    [req_old; req_hit] !! i = Some r ∧
    (bool_decide (r = req_hit) = false → true = true → ∀ r', r' ∈ [req_old; req_hit] →
       bool_decide (r' = req_hit) = true → pre_group spec3 r' ≠ pre_group spec3 r).
Proof.
  destruct (get_head_prior_hit spec3 view0 [req_old; req_hit] (λ r, bool_decide (r = req_old))
    (λ r, bool_decide (r = req_hit)) (λ _, true) Scheduler0 ∅) as (i&r&Hg&Hr&_&_&Hv);
    [done|done|done|reflexivity|done|].
  exists i, r. split; [exact Hg|]. split; [exact Hr|exact Hv].
Defined.
