(* ===== verification/BankMap.v ===== *)
(** * The open rows of a device

    [open_at i d rg] is the row open in the bank with coordinates [rg] of the
    channel [d] with id [i]: the abstract view of the device that the
    controller's row table mirrors.  This file proves how each command changes
    it. *)

From S2P Require Import Prelude Request Dram DramTiming BankProtocol Device.

Section Frame.
Context {L C S : Type} `{!EqDecision L, !EqDecision C, !EqDecision S}.
Variable spec : Spec L C S.

(** ** Nodes and paths *)

Lemma node_at_ext a b j k d :
  shaped spec j d → (∀ t, (j < t ≤ k)%nat → a !! t = b !! t) → (j ≤ k)%nat →
  node_at spec a k d = node_at spec b k d.
Proof.
  intros Hd. induction Hd as [j n cs Hl Hmax Hlen Hid Hch IH]; intros Hab Hjk.
  cbn [node_at]. case_decide as E; [done|]. rewrite Hl in *.
  rewrite (Hab (j + 1)%nat) by lia. destruct (b !! (j + 1)%nat) as [x|]; simpl; [|done].
  rewrite !at_child_lookup. destruct (zlookup cs x) as [c|] eqn:Hz; simpl; [|done].
  unfold zlookup in Hz. case_match; [done|]. apply (IH _ _ Hz); [intros; apply Hab; lia|lia].
Qed.

(** Replacing the node at level [k] of a path leaves the nodes of the paths
    that part from it above or at that level. *)
Lemma upd_at_other f a b j k m d d' :
  shaped spec j d → upd_at spec a k f d = Some d' → (j ≤ k ≤ m)%nat →
  (∃ t, (j < t ≤ k)%nat ∧ a !! t ≠ b !! t) → node_at spec b m d' = node_at spec b m d.
Proof.
  intros Hd. revert d'. induction Hd as [j n cs Hl Hmax Hlen Hid Hch IH]; intros d' Hu Hk (t&Ht&Hne).
  cbn [upd_at] in Hu. rewrite decide_False in Hu by lia. subst j. set (j := level_int spec (level n)) in *. run_opt.
  match goal with H : upd_child _ _ _ = Some _ |- _ => apply upd_child_Some in H as (c&c'&Hpos&Hc&Hc'&->) end.
  match goal with H : a !! _ = Some ?y |- _ => rename H into Hx; rename y into x end.
  cbn [node_at]. fold j. rewrite !decide_False by lia.
  destruct (b !! (j + 1)%nat) as [y|] eqn:Hy; simpl; [|done]. rewrite !at_child_lookup.
  unfold zlookup. destruct (y <? 0) eqn:Hy0; simpl; [done|].
  destruct (decide (x = y)) as [<-|Hxy].
  - rewrite list_lookup_insert_eq by eauto using lookup_lt_Some. rewrite Hc; simpl.
    apply (IH _ _ Hc); [done|lia|]. exists t. split; [|done].
    destruct (decide (t = (j + 1)%nat)) as [->|]; [congruence|lia].
  - rewrite list_lookup_insert_ne by lia. done.
Qed.

Lemma upd_at_result a j k d d' dk' :
  shaped spec j d → upd_at spec a k (λ _, Some dk') d = Some d' →
  level_int spec (level (info dk')) = k → node_at spec a k d' = Some dk'.
Proof.
  intros Hd. revert d'. induction Hd as [j n cs Hl Hmax Hlen Hid Hch IH]; intros d' Hu Hk.
  cbn [upd_at] in Hu. case_decide as E.
  - injection Hu as <-. destruct dk' as [n' cs']. cbn [node_at]. simpl in Hk. by rewrite decide_True.
  - subst j. run_opt.
    match goal with H : upd_child _ _ _ = Some _ |- _ => apply upd_child_Some in H as (c&c'&Hpos&Hc&Hc'&->) end.
    match goal with H : a !! _ = Some ?y |- _ => rename H into Hx; rename y into x end.
    cbn [node_at]. rewrite decide_False by done. rewrite Hx; simpl. rewrite at_child_lookup. unfold zlookup.
    destruct (x <? 0) eqn:?; [lia|]. rewrite list_lookup_insert_eq by eauto using lookup_lt_Some. simpl. eauto.
Qed.

Lemma node_at_level a j k d dk :
  node_at spec a k d = Some dk → shaped spec j d → level_int spec (level (info dk)) = k.
Proof.
  intros Hn Hd. revert Hn. induction Hd as [j n cs Hl Hmax Hlen Hid Hch IH]; intros Hn.
  cbn [node_at] in Hn. case_decide; [by simplify_eq|].
  destruct (a !! _) as [x|]; simpl in Hn; [|done]. rewrite at_child_lookup in Hn.
  destruct (zlookup cs x) as [c|] eqn:Hz; simpl in Hn; [|done]. unfold zlookup in Hz. case_match; [done|]. eauto.
Qed.

(** [update_timing] keeps the state of every node. *)
Lemma update_timing_node_at cmd a clk b j k d d' :
  shaped spec j d → update_timing spec cmd a clk d = Some d' →
  option_Forall2 (λ x y, same_node (info x) (info y)) (node_at spec b k d) (node_at spec b k d').
Proof.
  intros Hd. revert d'. induction Hd as [j n cs Hl Hmax Hlen Hid Hch IH]; intros d' Hu.
  cbn [update_timing] in Hu. run_opt.
  assert (∃ n' cs', d' = Dram n' cs' ∧ same_node n n' ∧
    (cs' = cs ∨ mapM (update_timing spec cmd a clk) cs = Some cs')) as (n'&cs'&->&Hs&Hcs).
  { case_match; run_opt.
    - eexists _, cs. split_and!; [done| |by left]. eapply foldM_same; [|done]. apply sibling_entry_same.
    - eexists _, _. split_and!; [done| |by right].
      eapply same_node_trans; [|eapply foldM_same; [apply target_entry_same|done]].
      unfold push_history. by case_match. }
  clear Hu. destruct (id Hs) as (Hl'&_). cbn [node_at]. rewrite Hl'. case_decide; [by constructor|].
  destruct (b !! _) as [y|]; simpl; [|constructor]. rewrite !at_child_lookup. unfold zlookup.
  destruct (y <? 0); simpl; [constructor|]. destruct Hcs as [->|Hm].
  - destruct (cs !! Z.to_nat y) as [c|]; simpl; [|constructor]. destruct (node_at spec b k c); by constructor.
  - apply mapM_Some_1 in Hm. destruct (cs !! Z.to_nat y) as [c|] eqn:Hc; simpl.
    + destruct (Forall2_lookup_l _ _ _ _ _ Hm Hc) as (c'&Hc'&Hu'). rewrite Hc'; simpl. eauto.
    + destruct (cs' !! Z.to_nat y) as [c'|] eqn:Hc'; simpl; [|constructor].
      destruct (Forall2_lookup_r _ _ _ _ _ Hm Hc') as (c&?&_). congruence.
Qed.

End Frame.

Section Rows.
Context {L C S : Type} `{!EqDecision L, !EqDecision C, !EqDecision S}.
Variables (spec : Spec L C S) (pr : Proto L C S).
Context `{BP : !BankProtocol spec pr}.

Abbreviation power := (power_idx spec pr).
Abbreviation bank := (bank_idx spec).

(** ** The open row of a bank *)
Definition bank_row (n : dram_info L C S) : option Z := fst <$> head (map_to_list (row_state n)).

Definition open_at (i : Z) (d : DRAM L C S) (rg : list Z) : option Z :=
  if decide (length rg = (bank + 1)%nat ∧ rg !! 0%nat = Some i)
  then db ← node_at spec rg bank d; bank_row (info db) else None.

Lemma bank_row_closed n : row_state n = ∅ → bank_row n = None.
Proof. unfold bank_row. intros ->. by rewrite map_to_list_empty. Qed.

Lemma bank_row_opened n r : row_state n = {[ r := p_Opened pr ]} → bank_row n = Some r.
Proof. unfold bank_row. intros ->. by rewrite map_to_list_singleton. Qed.

Lemma one_row_bank_row n : one_row pr n →
  (state n = p_Closed pr ∧ bank_row n = None) ∨
  (state n = p_Opened pr ∧ ∃ r, bank_row n = Some r ∧ row_state n = {[ r := p_Opened pr ]}).
Proof.
  intros [[? ?]|[? [r ?]]]; [left; split; [done|by apply bank_row_closed]|].
  right. split; [done|]. exists r. split; [by apply bank_row_opened|done].
Qed.

Lemma same_node_bank_row n n' : same_node n n' → bank_row n' = bank_row n.
Proof. intros (_&_&_&Hr&_). unfold bank_row. by rewrite Hr. Qed.

(** The bank an address designates. *)
Lemma open_at_addr i a d db :
  shaped spec 0 d → path_ok spec bank a → a !! 0%nat = Some i → node_at spec a bank d = Some db →
  open_at i d (take (bank + 1) a) = bank_row (info db).
Proof.
  intros Hd [Hlen Ha] Hi Hb. pose proof (bp_levels spec pr) as [Hpb Hbr]. pose proof (row_lt (spec:=spec)).
  unfold open_at. rewrite decide_True.
  2:{ rewrite length_take. split; [lia|]. rewrite lookup_take_lt by lia. done. }
  rewrite (node_at_ext spec _ a 0 bank d); [by rewrite Hb|done| |lia].
  intros t Ht. rewrite lookup_take_lt by lia. done.
Qed.

Lemma node_at_through b j k m d dk :
  shaped spec j d → (j ≤ k ≤ m)%nat → node_at spec b k d = Some dk → node_at spec b m d = node_at spec b m dk.
Proof.
  intros Hd. induction Hd as [j n cs Hl Hmax Hlen Hid Hch IH]; intros Hk Hn.
  cbn [node_at] in Hn. case_decide as E; [by simplify_eq|].
  destruct (decide (j = m)) as [Hjm|Hjm]; [lia|].
  assert (node_at spec b m (Dram n cs) =
    x ← b !! (level_int spec (level n) + 1)%nat; at_child (node_at spec b m) cs x) as ->.
  { cbn [node_at]. by rewrite decide_False by lia. }
  destruct (b !! _) as [x|]; simpl in *; [|done]. rewrite !at_child_lookup in *.
  destruct (zlookup cs x) as [c|] eqn:Hz; simpl in *; [|done].
  unfold zlookup in Hz. case_match; [done|]. apply (IH _ _ Hz); [lia|done].
Qed.

(** Two coordinate lists of the same length and head that differ. *)
Lemma coords_differ (rg a : list Z) k i :
  rg !! 0%nat = Some i → a !! 0%nat = Some i → (k < length a)%nat → length rg = (k + 1)%nat →
  rg ≠ take (k + 1) a → ∃ t, (0 < t ≤ k)%nat ∧ a !! t ≠ rg !! t.
Proof.
  intros Hr Ha Hk Hl Hne. destruct (decide (Exists (λ t, a !! t ≠ rg !! t) (seq 1 k))) as [He|He].
  - apply Exists_exists in He as (t&Ht%elem_of_seq&Hd). exists t. split; [lia|done].
  - destruct Hne. apply list_eq. intros t. destruct (decide (t < k + 1)%nat) as [Hlt|Hge].
    + rewrite lookup_take_lt by lia. destruct t as [|t]; [congruence|].
      destruct (decide (rg !! Datatypes.S t = a !! Datatypes.S t)) as [|Hd]; [done|].
      destruct He. apply Exists_exists. exists (Datatypes.S t). split; [apply elem_of_seq; lia|congruence].
    + rewrite lookup_take_ge by lia. apply lookup_ge_None. lia.
Qed.

(** ** The effect of a change at a bank, and at a power level *)
Lemma open_at_bank i a d d' db' :
  shaped spec 0 d → shaped spec 0 d' → path_ok spec bank a → a !! 0%nat = Some i →
  upd_at spec a bank (λ _, Some db') d = Some d' → node_at spec a bank d' = Some db' →
  ∀ rg, open_at i d' rg = if decide (rg = take (bank + 1) a) then bank_row (info db') else open_at i d rg.
Proof.
  intros Hd Hd' Ha Hi Hu Hn rg. pose proof (bp_levels spec pr) as [Hpb Hbr]. pose proof (row_lt (spec:=spec)).
  case_decide as E; [subst rg; by apply open_at_addr|].
  unfold open_at. case_decide as Hc; [|done]. destruct Hc as [Hlen H0].
  rewrite (upd_at_other spec _ a rg 0 bank bank d d' Hd Hu); [done|lia|].
  eapply coords_differ; eauto. destruct Ha; lia.
Qed.

Lemma open_at_power i a d d' dp dp' (F : option Z → option Z) :
  shaped spec 0 d → shaped spec 0 d' → path_ok spec power a → a !! 0%nat = Some i →
  upd_at spec a power (λ _, Some dp') d = Some d' →
  node_at spec a power d = Some dp → node_at spec a power d' = Some dp' →
  (∀ b, (db ← node_at spec b bank dp'; bank_row (info db)) = F (db ← node_at spec b bank dp; bank_row (info db))) →
  F None = None →
  ∀ rg, open_at i d' rg =
    if decide (take (power + 1) rg = take (power + 1) a) then F (open_at i d rg) else open_at i d rg.
Proof.
  intros Hd Hd' Ha Hi Hu Hn Hn' HF HF0 rg. pose proof (bp_levels spec pr) as [Hpb Hbr].
  pose proof (row_lt (spec:=spec)). unfold open_at.
  destruct (decide (length rg = (bank + 1)%nat ∧ rg !! 0%nat = Some i)) as [[Hlen H0]|]; [|by case_decide].
  case_decide as E.
  - assert (∀ t, (0 < t ≤ power)%nat → rg !! t = a !! t) as Heq.
    { intros t Ht. rewrite <-(lookup_take_lt rg (power + 1) t), <-(lookup_take_lt a (power + 1) t) by lia.
      by rewrite E. }
    rewrite (node_at_through rg 0 power bank d dp Hd) by (lia || by rewrite (node_at_ext spec rg a 0 power) by (done || lia)).
    rewrite (node_at_through rg 0 power bank d' dp' Hd') by (lia || by rewrite (node_at_ext spec rg a 0 power) by (done || lia)).
    apply HF.
  - rewrite (upd_at_other spec _ a rg 0 power bank d d' Hd Hu); [done|lia|].
    destruct (coords_differ (take (power + 1) rg) a power i) as (t&Ht&Hne); auto.
    + by rewrite lookup_take_lt by lia.
    + destruct Ha; lia.
    + rewrite length_take. lia.
    + exists t. split; [done|]. by rewrite lookup_take_lt in Hne by lia.
Qed.

Lemma node_at_close_all b k d :
  shaped spec k d → (k ≤ bank)%nat →
  node_at spec b bank (close_all spec pr d) = on_info (close_row pr) <$> node_at spec b bank d.
Proof.
  intros Hd. induction Hd as [k n cs Hl Hmax Hlen Hid Hch IH]; intros Hk. cbn [close_all].
  destruct (decide (level n = lvl_Bank spec)) as [E|E].
  - cbn [node_at]. simpl. rewrite !decide_True by (by rewrite E). done.
  - cbn [node_at]. assert (level_int spec (level n) ≠ bank) by (intros ?; apply E; by apply level_int_inj).
    rewrite !decide_False by done. destruct (b !! _) as [x|]; simpl; [|done].
    rewrite !at_child_lookup. unfold zlookup. destruct (x <? 0); simpl; [done|].
    rewrite list_lookup_fmap. destruct (cs !! Z.to_nat x) as [c|] eqn:Hc; simpl; [|done].
    apply (IH _ _ Hc). lia.
Qed.

(** Any bank of a tree that satisfies the invariant. *)
Lemma bank_inv_node_at b k d db :
  shaped spec k d → bank_inv spec pr d → node_at spec b bank d = Some db → one_row pr (info db).
Proof.
  intros Hd. induction Hd as [k n cs Hl Hmax Hlen Hid Hch IH]; intros Hinv Hn.
  inversion Hinv as [? ? Hb Hp Hc]; subst. cbn [node_at] in Hn. case_decide as E.
  - simplify_eq. apply Hb. by apply level_int_inj.
  - destruct (b !! _) as [x|]; simpl in Hn; [|done]. rewrite at_child_lookup in Hn.
    destruct (zlookup cs x) as [c|] eqn:Hz; simpl in Hn; [|done]. unfold zlookup in Hz.
    case_match; [done|]. eauto.
Qed.

(** ** The effect of a command *)

(** The rows a command opens, needs and closes. *)
Inductive row_effect (i : Z) (a : list Z) (d d' : DRAM L C S) : C → Prop :=
| Eff_act r :
    a !! (bank + 1)%nat = Some r → open_at i d (take (bank + 1) a) = None →
    (∀ rg, open_at i d' rg = if decide (rg = take (bank + 1) a) then Some r else open_at i d rg) →
    row_effect i a d d' (p_ACT pr)
| Eff_pre r :
    open_at i d (take (bank + 1) a) = Some r →
    (∀ rg, open_at i d' rg = if decide (rg = take (bank + 1) a) then None else open_at i d rg) →
    row_effect i a d d' (cmd_PRE spec)
| Eff_access c r :
    c = p_RD pr ∨ c = p_WR pr → a !! (bank + 1)%nat = Some r →
    open_at i d (take (bank + 1) a) = Some r →
    (∀ rg, open_at i d' rg = open_at i d rg) → row_effect i a d d' c
| Eff_prea rg r :
    open_at i d rg = Some r → take (power + 1) rg = take (power + 1) a →
    (∀ rg, open_at i d' rg =
       if decide (take (power + 1) rg = take (power + 1) a) then None else open_at i d rg) →
    row_effect i a d d' (p_PREA pr)
| Eff_none c :
    c = p_PDX pr ∨ c = p_SRX pr ∨ c = p_REF pr →
    (∀ rg, open_at i d' rg = open_at i d rg) → row_effect i a d d' c.

Lemma open_at_clk clk i d rg :
  shaped spec 0 d → open_at i (on_info (set_cur_clk clk) d) rg = open_at i d rg.
Proof.
  intros Hd. pose proof (bp_levels spec pr) as [Hpb _]. unfold open_at. case_decide; [|done].
  rewrite node_at_clk. rewrite decide_False; [done|]. inversion Hd; subst; simpl in *. lia.
Qed.

Lemma open_at_timing cmd a clk i d d' rg :
  shaped spec 0 d → update_timing spec cmd a clk d = Some d' → open_at i d' rg = open_at i d rg.
Proof.
  intros Hd Hu. unfold open_at. case_decide; [|done].
  pose proof (update_timing_node_at spec cmd a clk rg 0 bank d d' Hd Hu) as H2.
  destruct H2 as [x y Hs|]; simpl; [|done]. by apply same_node_bank_row.
Qed.

(** A device that is not closed has an open bank. *)
Lemma not_closed_bank k d p :
  shaped spec k d → (k ≤ bank)%nat → all_closed spec pr d = false → length p = (k + 1)%nat →
  ∃ s db, length (p ++ s) = (bank + 1)%nat ∧ node_at spec (p ++ s) bank d = Some db ∧
    state (info db) ≠ p_Closed pr.
Proof.
  intros Hd. revert p. induction Hd as [k n cs Hl Hmax Hlen Hid Hch IH]; intros p Hk Hcl Hp.
  simpl in Hcl. destruct (decide (level n = lvl_Bank spec)) as [E|E].
  - exists [], (Dram n cs). apply bool_decide_eq_false in Hcl. rewrite E in Hl.
    assert (k = bank) as -> by (symmetry; exact Hl). rewrite app_nil_r. split_and!; [done| |done].
    cbn [node_at]. by rewrite decide_True by (by rewrite E).
  - assert (level_int spec (level n) ≠ bank) by (intros ?; apply E; by apply level_int_inj).
    assert (¬ ∀ c, c ∈ cs → all_closed spec pr c = true) as Hex.
    { intros H'. rewrite <-not_true_iff_false in Hcl. apply Hcl, forallb_forall.
      intros c Hc. by apply H', list_elem_of_In. }
    assert (Exists (λ c, all_closed spec pr c = false) cs) as He.
    { destruct (decide (Exists (λ c, all_closed spec pr c = false) cs)) as [|Hne]; [done|].
      destruct Hex. intros c Hc. destruct (all_closed spec pr c) eqn:?; [done|].
      destruct Hne. apply Exists_exists. by exists c. }
    apply Exists_exists in He as (c&[j Hj]%list_elem_of_lookup&Hc).
    destruct (IH j c Hj (p ++ [Z.of_nat j])) as (s&db&Hls&Hn&Hst); [lia|done|rewrite length_app; simpl; lia|].
    exists (Z.of_nat j :: s), db. rewrite <-app_assoc in Hls, Hn. simpl in Hls, Hn. split_and!; [done| |done].
    cbn [node_at]. rewrite decide_False by done. rewrite Hl, <-Hp, list_lookup_middle by done. simpl.
    rewrite at_child_lookup. unfold zlookup. rewrite (proj2 (Z.ltb_ge _ _)) by lia.
    by rewrite Nat2Z.id, Hj.
Qed.

Lemma open_bank_below i a d dp :
  shaped spec 0 d → bank_inv spec pr d → path_ok spec power a → a !! 0%nat = Some i →
  node_at spec a power d = Some dp → all_closed spec pr dp = false →
  ∃ rg r, open_at i d rg = Some r ∧ take (power + 1) rg = take (power + 1) a.
Proof.
  intros Hd Hinv Ha Hi Hp Hcl. pose proof (bp_levels spec pr) as [Hpb Hbr]. pose proof (row_lt (spec:=spec)).
  destruct (node_at_total spec 0 power a d) as (dp'&?&Hsp); [done|lia|lia|done|]. simplify_eq.
  assert (length (take (power + 1) a) = (power + 1)%nat) as Hlt by (rewrite length_take; destruct Ha; lia).
  destruct (not_closed_bank power dp (take (power + 1) a)) as (s&db&Hls&Hn&Hst); [done|lia|done|done|].
  set (rg := take (power + 1) a ++ s) in *.
  assert (take (power + 1) rg = take (power + 1) a) as Hpre by (by unfold rg; rewrite take_app_le, take_take, Nat.min_id by lia).
  assert (node_at spec rg bank d = Some db) as Hb.
  { rewrite (node_at_through rg 0 power bank d dp Hd); [done|lia|].
    rewrite (node_at_ext spec rg a 0 power); [done|done| |lia]. intros t Ht.
    rewrite <-(lookup_take_lt rg (power + 1) t), <-(lookup_take_lt a (power + 1) t) by lia. by rewrite Hpre. }
  assert (one_row pr (info db)) as Hone.
  { by apply (bank_inv_node_at rg 0 d). }
  destruct (one_row_bank_row _ Hone) as [[? _]|(_&r&Hr&_)]; [done|].
  exists rg, r. split; [|done]. unfold open_at. rewrite decide_True; [by rewrite Hb|]. split; [done|].
  rewrite <-(lookup_take_lt rg (power + 1) 0), Hpre, lookup_take_lt by lia. done.
Qed.

Lemma moved_effect i a c d d1 :
  shaped spec 0 d → shaped spec 0 d1 → bank_inv spec pr d → a !! 0%nat = Some i →
  moved spec pr a d c d1 → row_effect i a d d1 c.
Proof.
  intros Hd Hd1 Hinv Hi Hm. pose proof (bp_levels spec pr) as [Hpb Hbr].
  destruct Hm as [r db d1 Ha Hr Hb Hst Hu|db d1 Ha Hb Hst Hu|c r db Ha Hc Hr Hb Hst Hrow|c dp d1 Ha Hc Hp Hu
    |dp d1 Ha Hp Hcl Hu|dp Ha Hp Hcl].
  - pose proof (bank_inv_node_at a 0 d db Hd Hinv Hb) as Hone.
    destruct (one_row_bank_row _ Hone) as [[_ Hnone]|[E _]]; [|destruct (states_distinct spec pr); congruence].
    apply Eff_act with r; [done|by rewrite (open_at_addr i a d db)|].
    intros rg. rewrite (open_at_bank i a d d1 _ Hd Hd1 Ha Hi Hu).
    2:{ apply (upd_at_result spec a 0 bank d d1 _ Hd Hu). pose proof (node_at_level spec a 0 bank d db Hb Hd). by destruct db. }
    case_decide; [|done]. destruct db as [n cs]. apply bank_row_opened. simpl.
    destruct Hone as [[_ E]|[E _]]; simpl in *; [by rewrite E, insert_empty|destruct (states_distinct spec pr); congruence].
  - pose proof (bank_inv_node_at a 0 d db Hd Hinv Hb) as Hone.
    destruct (one_row_bank_row _ Hone) as [[E _]|(_&r&Hsome&_)]; [destruct (states_distinct spec pr); congruence|].
    apply Eff_pre with r; [by rewrite (open_at_addr i a d db)|].
    intros rg. rewrite (open_at_bank i a d d1 _ Hd Hd1 Ha Hi Hu).
    2:{ apply (upd_at_result spec a 0 bank d d1 _ Hd Hu). pose proof (node_at_level spec a 0 bank d db Hb Hd). by destruct db. }
    case_decide; [|done]. destruct db as [n cs]. by apply bank_row_closed.
  - pose proof (bank_inv_node_at a 0 d db Hd Hinv Hb) as Hone.
    destruct (one_row_bank_row _ Hone) as [[E _]|(_&r'&Hsome&Hrs)]; [destruct (states_distinct spec pr); congruence|].
    apply Eff_access with r; [done..| |done]. rewrite (open_at_addr i a d db) by done.
    rewrite Hrs in Hrow. destruct Hrow as [x Hx]. apply lookup_singleton_Some in Hx as [-> _]. done.
  - apply Eff_none; [naive_solver|]. intros rg.
    rewrite (open_at_power i a d d1 dp _ id Hd Hd1 Ha Hi Hu Hp); [by case_decide| | |done].
    + apply (upd_at_result spec a 0 power d d1 _ Hd Hu). pose proof (node_at_level spec a 0 power d dp Hp Hd). by destruct dp.
    + intros b. assert (level_int spec (level (info dp)) = power) as Hl by (by apply (node_at_level spec a 0 power d)).
      destruct dp as [n cs]. simpl in Hl |- *. by rewrite !decide_False by lia.
  - destruct (open_bank_below i a d dp) as (rg0&r0&Hopen&Hpre); [done..|].
    destruct (node_at_total spec 0 power a d) as (dp'&?&Hsp); [done|lia|lia|done|]. simplify_eq.
    apply Eff_prea with rg0 r0; [done..|]. intros rg.
    rewrite (open_at_power i a d d1 dp _ (λ _, None) Hd Hd1 Ha Hi Hu Hp); [done| | |done].
    + apply (upd_at_result spec a 0 power d d1 _ Hd Hu). apply (node_at_level spec a 0) in Hp; [|done].
      destruct dp as [n cs]. simpl in Hp |- *. by case_decide.
    + intros b. rewrite (node_at_close_all b power) by (done || lia).
      destruct (node_at spec b bank dp) as [[n cs]|]; simpl; [by apply bank_row_closed|done].
  - by apply Eff_none; [auto|].
Qed.

End Rows.
