(* ===== verification/Serving.v ===== *)
(** * Requests being served ([DRAM<T>::update_serving_requests])

    Each node counts the reads and writes in flight below it
    ([cur_serving_requests]).  [serve_inv] relates these counters to the list of
    the addresses in flight; with it no [assert] of [update_serving_requests]
    fails, and nothing but statistics changes. *)

From S2P Require Import Prelude Request Dram DramTiming BankProtocol Device BankMap.

Section Serving.
Context {L C S : Type} `{!EqDecision L, !EqDecision C, !EqDecision S}.
Variable spec : Spec L C S.

(** The addresses that pass through the node with coordinates [p]. *)
Definition passing (p : list Z) (act : list (list Z)) : list (list Z) :=
  filter (λ a, take (length p) a = p) act.

Inductive serve_inv (act : list (list Z)) : list Z → Z → DRAM L C S → Prop :=
| ServeInv p i n cs :
    cur_serving_requests (stats n) = Z.of_nat (length (passing (p ++ [i]) act)) →
    (0 < cur_serving_requests (stats n) → begin_of_serving (stats n) ≠ -1) →
    (∀ j c, cs !! j = Some c → serve_inv act (p ++ [i]) (Z.of_nat j) c) →
    serve_inv act p i (Dram n cs).

Lemma passing_perm p act act' : act ≡ₚ act' → length (passing p act) = length (passing p act').
Proof. intros H. unfold passing. by rewrite H. Qed.

Lemma serve_inv_perm act act' p i d : act ≡ₚ act' → serve_inv act p i d → serve_inv act' p i d.
Proof.
  intros H Hd. induction Hd as [p i n cs Hc Hb Hch IH]. constructor; auto.
  by rewrite Hc, (passing_perm _ _ _ H).
Qed.

Lemma passing_cons p a act :
  length (passing p (a :: act)) = (length (passing p act) + if decide (take (length p) a = p) then 1 else 0)%nat.
Proof. unfold passing. rewrite filter_cons. case_decide; simpl; lia. Qed.

(** An address that does not pass through a node. *)
Lemma serve_inv_other act p i d a :
  take (length (p ++ [i])) a ≠ p ++ [i] → serve_inv act p i d ↔ serve_inv (a :: act) p i d.
Proof.
  assert (∀ q j, take (length q) a ≠ q → take (length (q ++ [j])) a ≠ q ++ [j]) as Hext.
  { intros q j Hne E. apply Hne. apply (f_equal (take (length q))) in E.
    rewrite take_take, length_app, take_app_length in E. by rewrite Nat.min_l in E by lia. }
  assert (∀ q, take (length q) a ≠ q → length (passing q (a :: act)) = length (passing q act)) as Hlen.
  { intros q Hq. rewrite passing_cons, decide_False by done. lia. }
  intros Hne. split; intros Hd; revert Hne; induction Hd as [p i n cs Hc Hb Hch IH]; intros Hne;
    (constructor; [rewrite Hc, Hlen by done; done|done|]); intros j c Hj; apply (IH j c Hj), Hext, Hne.
Qed.

Lemma overlap_cur (g : dram_stats → Z * Z → Z) l st :
  cur_serving_requests (foldl (λ st r, set_active_refresh_overlap_cycles (g st r) st) st l) =
  cur_serving_requests st.
Proof. revert st. induction l as [|r l IH]; intros st; simpl; [done|]. by rewrite IH. Qed.

(** The counters of one node. *)
Lemma serve_stats_ok delta clk st :
  0 ≤ clk → delta = 1 ∨ delta = -1 → 0 ≤ cur_serving_requests st → 0 ≤ cur_serving_requests st + delta →
  (0 < cur_serving_requests st → begin_of_serving st ≠ -1) →
  ∃ st', serve_stats delta clk st = Some st' ∧
    cur_serving_requests st' = cur_serving_requests st + delta ∧
    (0 < cur_serving_requests st' → begin_of_serving st' ≠ -1).
Proof.
  intros Hclk Hd Hcur Hsum Hb. unfold serve_stats.
  set (st1 := if negb (begin_of_cur_reqcnt st =? -1) && (0 <? cur_serving_requests st) then _ else _).
  assert (cur_serving_requests st1 = cur_serving_requests st ∧ begin_of_serving st1 = begin_of_serving st)
    as [Hc1 Hb1] by (unfold st1; by case_match).
  cbn -[Z.add]. rewrite Hc1. rewrite (proj2 (Z.leb_le _ _)) by lia.
  destruct ((delta =? 1) && (cur_serving_requests st + delta =? 1)) eqn:E1.
  - case_match; eexists; (split; [reflexivity|]); simpl; split; try done; lia.
  - destruct (cur_serving_requests st + delta =? 0) eqn:E2.
    + rewrite Hb1. assert (begin_of_serving st ≠ -1) as Hne by (apply Hb; lia).
      rewrite (proj2 (Z.eqb_neq _ _)) by done. simpl. rewrite (proj2 (Z.eqb_eq delta (-1))) by lia.
      eexists; split; [reflexivity|].
      simpl. rewrite overlap_cur. simpl. split; [done|lia].
    + eexists; split; [reflexivity|]. simpl. rewrite Hb1. split; [done|]. intros. apply Hb. lia.
Qed.

(** A tree without its statistics. *)
Fixpoint bare (d : DRAM L C S) : DRAM L C S :=
  match d with Dram n cs => Dram (set_stats stats0 n) (map bare cs) end.

Lemma bare_insert j c c' cs :
  cs !! j = Some c → bare c' = bare c → map bare (<[j:=c']> cs) = map bare cs.
Proof.
  intros Hj E. apply list_eq. intros k. rewrite !list_lookup_fmap.
  destruct (decide (j = k)) as [<-|Hne].
  - rewrite list_lookup_insert_eq by eauto using lookup_lt_Some. by rewrite Hj; simpl; rewrite E.
  - by rewrite list_lookup_insert_ne.
Qed.

(** [update_serving_requests] on the path of a read or a write. *)
Lemma update_serving_ok `{!TimingOK spec} act a delta clk k d p i :
  0 ≤ clk → delta = 1 ∨ delta = -1 →
  shaped spec k d → path_ok spec (bank_idx spec) a → (bank_idx spec + 1)%nat = level_int spec (lvl_Row spec) →
  (k ≤ bank_idx spec)%nat → length p = k → take (k + 1) a = p ++ [i] → nid (info d) = i →
  serve_inv (if decide (delta = 1) then act else a :: act) p i d →
  ∃ d', update_serving_requests spec a delta clk d = Some d' ∧
    serve_inv (if decide (delta = 1) then a :: act else act) p i d' ∧ bare d' = bare d.
Proof.
  intros Hclk Hdelta Hd Ha Hbr Hk Hp Hta Hi Hs. revert p i Hk Hp Hta Hi Hs.
  induction Hd as [k n cs Hl Hmax Hlen Hid Hch IH]; intros p i Hk Hp Hta Hi Hs.
  assert (shaped spec k (Dram n cs)) as Hd by (constructor; auto).
  inversion Hs as [? ? ? ? Hcur Hbeg Hsub]; subst p0 i0 n0 cs0.
  pose proof (row_lt (spec:=spec)).
  assert (a !! k = Some i) as Hak.
  { assert (take (k + 1) a !! k = Some i) as E by (rewrite Hta, list_lookup_middle by done; done).
    by rewrite lookup_take_lt in E by lia. }
  assert (length (passing (p ++ [i]) (a :: act)) = (length (passing (p ++ [i]) act) + 1)%nat) as Hpass.
  { rewrite passing_cons, decide_True; [done|]. by rewrite length_app; simpl; rewrite Hp, Hta. }
  destruct (serve_stats_ok delta clk (stats n)) as (st&Hst&Hcur'&Hbeg'); [done|done|rewrite Hcur; lia| |done|].
  { rewrite Hcur. destruct Hdelta as [->| ->]; case_decide; try done; rewrite ?Hpass; lia. }
  assert (cur_serving_requests st =
    Z.of_nat (length (passing (p ++ [i]) (if decide (delta = 1) then a :: act else act)))) as Hcnt.
  { rewrite Hcur', Hcur. destruct Hdelta as [->| ->]; case_decide; try done; rewrite ?Hpass; lia. }
  destruct (lookup_lt_is_Some_2 a (k + 1)) as [x Hx]; [destruct Ha; lia|].
  cbn [update_serving_requests]. rewrite Hl, Hak; simpl in Hi |- *. subst i. rewrite Z.eqb_refl.
  replace ((delta =? 1) || (delta =? -1)) with true by (destruct Hdelta as [->| ->]; done).
  rewrite Hst; simpl. rewrite Hl, Hx; simpl.
  rewrite (bool_decide_false (level_int spec (lvl_Bank spec) < k)%nat) by (unfold bank_idx in Hk; lia).
  rewrite orb_false_r.
  assert (∀ j c, cs !! j = Some c → x ≠ Z.of_nat j →
    serve_inv (if decide (delta = 1) then a :: act else act) (p ++ [nid n]) (Z.of_nat j) c) as Hoth.
  { intros j c Hj Hne. specialize (Hsub j c Hj).
    assert (take (length ((p ++ [nid n]) ++ [Z.of_nat j])) a ≠ (p ++ [nid n]) ++ [Z.of_nat j]) as Hneq.
    { intros E. apply (f_equal (lookup (k + 1)%nat)) in E.
      rewrite lookup_take_lt in E by (rewrite !length_app; simpl; lia).
      rewrite Hx, list_lookup_middle in E by (rewrite length_app; simpl; lia). congruence. }
    pose proof (serve_inv_other act (p ++ [nid n]) (Z.of_nat j) c a Hneq) as Hiff.
    destruct (decide (delta = 1)); tauto. }
  destruct (decide (cs = [])) as [->|Hcs].
  { rewrite (bool_decide_true ([] = [])), orb_true_r by done. eexists; split; [done|]. split; [|done].
    constructor; [done|done|by intros ? ? ?]. }
  assert (k ≠ bank_idx spec) as Hkb.
  { intros ->. apply Hcs, length_zero_iff_nil. rewrite Hlen. unfold child_count. by rewrite decide_True. }
  destruct (path_child spec k (bank_idx spec) a n cs) as (x'&c&Hx'&Hpos&Hc&Hsc&_); [done|lia|lia|done|].
  assert (x' = x) as -> by congruence.
  rewrite (proj2 (Z.ltb_ge _ _)) by done. rewrite bool_decide_false by done. simpl.
  destruct (IH _ _ Hc (p ++ [nid n]) x) as (c'&Hc'&Hsc'&Hbare).
  { lia. } { rewrite length_app; simpl; lia. }
  { replace (k + 1 + 1)%nat with (Datatypes.S (k + 1)) by lia. rewrite (take_S_r _ _ x) by done. by rewrite Hta. }
  { rewrite (Hid _ _ Hc). lia. }
  { specialize (Hsub _ _ Hc). by rewrite Z2Nat.id in Hsub by done. }
  rewrite upd_child_lookup. unfold zlookup. rewrite (proj2 (Z.ltb_ge _ _)) by done. rewrite Hc; simpl.
  rewrite Hc'; simpl. eexists; split; [done|]. split.
  - constructor; [done|done|]. intros j c0 Hj. destruct (decide (j = Z.to_nat x)) as [->|Hne].
    + rewrite list_lookup_insert_eq in Hj by eauto using lookup_lt_Some. simplify_eq.
      by rewrite Z2Nat.id by done.
    + rewrite list_lookup_insert_ne in Hj by done. apply Hoth; [done|]. lia.
  - simpl. f_equal. by eapply bare_insert.
Qed.

(** ** What does not depend on the statistics *)

Lemma bare_node n n' cs cs' :
  bare (Dram n' cs') = bare (Dram n cs) →
  level n' = level n ∧ nid n' = nid n ∧ state n' = state n ∧ row_state n' = row_state n ∧
  cur_clk n' = cur_clk n ∧ next n' = next n ∧ prev n' = prev n ∧ map bare cs' = map bare cs.
Proof. simpl. unfold set_stats. intros H. injection H. auto 10. Qed.

Lemma bare_shaped k d d' : bare d' = bare d → shaped spec k d → shaped spec k d'.
Proof.
  intros E Hd. revert d' E. induction Hd as [k n cs Hl Hmax Hlen Hid Hch IH]; intros [n' cs'] E.
  apply bare_node in E as (El&_&_&_&_&_&_&Ecs). constructor; [congruence|done|by rewrite (map_eq_length _ _ _ Ecs)| |].
  - intros j c' Hj. destruct (map_eq_lookup _ _ _ _ _ Ecs Hj) as ([m ms]&Hc&Eb). rewrite <-(Hid j _ Hc).
    destruct c' as [m' ms']. apply bare_node in Eb. simpl. tauto.
  - intros j c' Hj. destruct (map_eq_lookup _ _ _ _ _ Ecs Hj) as (c&Hc&Eb). eauto.
Qed.

Lemma bare_tree_inv h p i d d' : bare d' = bare d → tree_inv spec h p i d → tree_inv spec h p i d'.
Proof.
  intros E Hd. revert d' E. induction Hd as [p i n cs [Hl Hdep Hi Hp Hnx] Hlen _ IH]; intros [n' cs'] E.
  apply bare_node in E as (El&Ei&_&_&_&Ex&Ep&Ecs). constructor; [|by rewrite (map_eq_length _ _ _ Ecs)|].
  - split; rewrite ?El, ?Ei, ?Ex, ?Ep; auto. intros c. unfold history_len. rewrite El. apply Hp.
  - intros j c' Hj. destruct (map_eq_lookup _ _ _ _ _ Ecs Hj) as (c&Hc&Eb). eauto.
Qed.

Lemma bare_bank_inv pr d d' : bare d' = bare d → bank_inv spec pr d → bank_inv spec pr d'.
Proof.
  intros E Hd. revert d' E. induction Hd as [n cs Hb Hp Hc IH]; intros [n' cs'] E.
  apply bare_node in E as (El&_&Es&Er&_&_&_&Ecs). constructor; unfold one_row; rewrite ?El, ?Es, ?Er; auto.
  intros j c' Hj. destruct (map_eq_lookup _ _ _ _ _ Ecs Hj) as (c&?&Eb). eauto.
Qed.

Lemma bare_node_at b k d : bare <$> node_at spec b k d = node_at spec b k (bare d).
Proof.
  revert d. fix IH 1. intros [n cs]. cbn [node_at bare]. simpl. case_decide; [done|].
  destruct (b !! _) as [x|]; simpl; [|done]. rewrite !at_child_lookup. unfold zlookup.
  destruct (x <? 0); [done|]. generalize (Z.to_nat x) as m. induction cs as [|c cs IHcs]; intros [|m]; simpl; auto.
Qed.

Lemma bare_open_at i d d' rg : bare d' = bare d → open_at spec i d' rg = open_at spec i d rg.
Proof.
  intros E. unfold open_at. case_decide; [|done].
  pose proof (bare_node_at rg (bank_idx spec) d) as H1. pose proof (bare_node_at rg (bank_idx spec) d') as H2.
  rewrite E, <-H1 in H2.
  destruct (node_at spec rg _ d) as [[n cs]|], (node_at spec rg _ d') as [[n' cs']|];
    try done; [|discriminate..].
  apply (inj Some) in H2. apply bare_node in H2 as (_&_&_&Er&_). simpl. unfold bank_row. by rewrite Er.
Qed.

(** ** The other operations keep the counters *)

Lemma serve_inv_skel act p i d d' : skel spec d' = skel spec d → serve_inv act p i d → serve_inv act p i d'.
Proof.
  intros E Hd. revert d' E. induction Hd as [p i n cs Hc Hb Hch IH]; intros [n' cs'] E.
  simpl in E. unfold set_state, set_row_state, set_cur_clk in E. simpl in E.
  injection E as _ _ _ _ _ Es Ecs. constructor; rewrite ?Es; auto.
  intros j c' Hj. destruct (map_eq_lookup _ _ _ _ _ Ecs Hj) as (c&?&Eb). eauto.
Qed.

Definition same_serving (n n' : dram_info L C S) : Prop :=
  cur_serving_requests (stats n') = cur_serving_requests (stats n) ∧
  begin_of_serving (stats n') = begin_of_serving (stats n).

Lemma foldM_serving {B} (f : dram_info L C S → B → option (dram_info L C S)) ts n n' :
  (∀ n t n', f n t = Some n' → same_serving n n') → foldM f n ts = Some n' → same_serving n n'.
Proof.
  intros Hf. revert n. induction ts as [|t ts IH]; intros n H; [by simplify_eq/=|].
  simpl in H. run_opt. destruct (Hf _ _ _ H0) as [E1 E2]. destruct (IH _ H) as [E3 E4].
  split; congruence.
Qed.

Lemma target_entry_serving cmd clk n (t : TimingEntry C) n' :
  target_entry spec cmd clk n t = Some n' → same_serving n n'.
Proof.
  unfold target_entry. intros H. case_match; [by simplify_eq|]. run_opt. case_match; [by simplify_eq|].
  case_match; run_opt; split; try done; simpl; unfold record_refresh; by case_match.
Qed.

Lemma sibling_entry_serving clk n (t : TimingEntry C) n' :
  sibling_entry clk n t = Some n' → same_serving n n'.
Proof. unfold sibling_entry. intros H. repeat case_match; simplify_eq; done. Qed.

Lemma update_timing_serving act cmd a clk p i d d' :
  update_timing spec cmd a clk d = Some d' → serve_inv act p i d → serve_inv act p i d'.
Proof.
  intros Hu Hd. revert d' Hu. induction Hd as [p i n cs Hc Hb Hch IH]; intros d' Hu.
  cbn [update_timing] in Hu. run_opt. case_match; run_opt.
  - match goal with H : foldM _ _ _ = Some ?n' |- _ =>
      destruct (foldM_serving _ _ _ _ (sibling_entry_serving clk) H) as [E1 E2] end.
    constructor; rewrite ?E1, ?E2; auto.
  - match goal with H : foldM _ _ _ = Some ?n' |- _ =>
      destruct (foldM_serving _ _ _ _ (target_entry_serving cmd clk) H) as [E1 E2] end.
    assert (stats (push_history cmd clk n) = stats n) as E by (unfold push_history; by case_match).
    rewrite E in *. constructor; rewrite ?E1, ?E2; auto.
    match goal with H : mapM _ _ = Some _ |- _ => apply mapM_Some_1 in H; rename H into Hm end.
    intros j c Hj. destruct (Forall2_lookup_r _ _ _ _ _ Hm Hj) as (c0&Hc0&Hu). eauto.
Qed.

Lemma new_dram_serving p fuel l i d : new_dram spec fuel l i = Some d → serve_inv [] p i d.
Proof.
  revert p l i d; induction fuel as [|fuel IH]; intros p l i d Hd; [done|]. cbn [new_dram] in Hd.
  case_decide; [simplify_eq; by constructor|]. run_opt. case_match; [simplify_eq; by constructor|]. run_opt.
  match goal with H : mapM _ _ = Some _ |- _ => apply mapM_Some_1 in H; rename H into Hm end.
  constructor; [done|done|]. intros j c Hj. destruct (Forall2_lookup_r _ _ _ _ _ Hm Hj) as (k&Hk&Hc).
  apply lookup_seq in Hk as [-> _]. simpl in Hc. eauto.
Qed.

End Serving.
