(* ===== verification/Controller.v ===== *)
(** * The memory controller ([ramulator/src/Controller.h], [ramulator/src/Refresh.h])

    One [Controller<T>] per channel: the request queues, the pending reads, the
    write-drain mode, the refresh timer, and [tick], which issues at most one
    command per cycle.  [None] is a failed [assert]; a callback is returned as
    the request it is run on.  Left out: the DRAMPower calls (the flag
    [with_drampower] is never set), and the per-rank trace files: the trace
    [print_cmd_trace] prints is the member [cmd_trace], most recent line first. *)

From S2P Require Import Prelude Request Dram Scheduler.

(** ** Data *)

(** [Controller<T>::Queue] *)
Record Queue := mkQueue { q : list Request; qmax : Z }.
Definition Queue0 : Queue := mkQueue [] 32.
Definition qsize (x : Queue) : Z := Z.of_nat (length (q x)).

(** [Refresh<T>] *)
Record Refresh := mkRefresh { ref_clk : Z; refreshed : Z; bank_ref_counters : list Z }.

(** [VectorStat] ([StatType.h]): the counters of the cores, as many as [init]
    was given; [operator[]] asserts that its index is in range. *)
Abbreviation VectorStat := (list Z).
Definition VectorStat_init (size : nat) : VectorStat := replicate size 0.
(** [++v[i]] *)
Definition bump (v : VectorStat) (i : Z) : option VectorStat := upd_child (λ x, Some (x + 1)) v i.
(** [v[i] = w[i]] *)
Definition at_core (i : Z) (w v : VectorStat) : option VectorStat :=
  x ← zlookup w i; upd_child (λ _, Some x) v i.

(** The statistics [tick] updates.  The scalars and the vectors are members of
    the memory that the controllers share; the model keeps the part of each
    controller apart, every vector with one counter per core. *)
Record ctrl_stats := mkCtrlStats {
  req_queue_length_sum : Z;
  read_req_queue_length_sum : Z;
  write_req_queue_length_sum : Z;
  read_latency_sum : Z;
  queueing_latency_sum : Z;
  row_hits : Z;
  row_misses : Z;
  row_conflicts : Z;
  read_transaction_bytes : Z;
  write_transaction_bytes : Z;
  read_row_hits : VectorStat;
  read_row_misses : VectorStat;
  read_row_conflicts : VectorStat;
  write_row_hits : VectorStat;
  write_row_misses : VectorStat;
  write_row_conflicts : VectorStat
}.
Definition ctrl_stats0 (core_num : nat) : ctrl_stats :=
  let v := VectorStat_init core_num in mkCtrlStats 0 0 0 0 0 0 0 0 0 0 v v v v v v.

(** The per-core counts [record_core] keeps. *)
Record ctrl_record := mkCtrlRecord {
  record_read_hits : VectorStat;
  record_read_misses : VectorStat;
  record_read_conflicts : VectorStat;
  record_write_hits : VectorStat;
  record_write_misses : VectorStat;
  record_write_conflicts : VectorStat
}.
Definition ctrl_record0 (core_num : nat) : ctrl_record :=
  let v := VectorStat_init core_num in mkCtrlRecord v v v v v v.

(** [Controller<T>] *)
Record Controller {L C S : Type} := mkCtrl {
  clk : Z;
  channel : DRAM L C S;
  scheduler : Scheduler;
  rowpolicy : RowPolicy;
  rowtable : RowTable;
  refresh : Refresh;
  readq : Queue;
  writeq : Queue;
  otherq : Queue;
  pending : list Request;
  write_mode : bool;
  no_DRAM_latency : bool;
  cstats : ctrl_stats;
  crecord : ctrl_record;
  cmd_trace : list (C * list Z * Z)
}.
Arguments Controller : clear implicits.
Arguments mkCtrl {L C S}.

(** Member updates. *)
Definition set_req_queue_length_sum (x : Z) (s : ctrl_stats) : ctrl_stats :=
  mkCtrlStats x (read_req_queue_length_sum s) (write_req_queue_length_sum s)
    (read_latency_sum s) (queueing_latency_sum s) (row_hits s) (row_misses s)
    (row_conflicts s) (read_transaction_bytes s) (write_transaction_bytes s)
    (read_row_hits s) (read_row_misses s) (read_row_conflicts s) (write_row_hits s)
    (write_row_misses s) (write_row_conflicts s).
Definition set_read_req_queue_length_sum (x : Z) (s : ctrl_stats) : ctrl_stats :=
  mkCtrlStats (req_queue_length_sum s) x (write_req_queue_length_sum s)
    (read_latency_sum s) (queueing_latency_sum s) (row_hits s) (row_misses s)
    (row_conflicts s) (read_transaction_bytes s) (write_transaction_bytes s)
    (read_row_hits s) (read_row_misses s) (read_row_conflicts s) (write_row_hits s)
    (write_row_misses s) (write_row_conflicts s).
Definition set_write_req_queue_length_sum (x : Z) (s : ctrl_stats) : ctrl_stats :=
  mkCtrlStats (req_queue_length_sum s) (read_req_queue_length_sum s) x
    (read_latency_sum s) (queueing_latency_sum s) (row_hits s) (row_misses s)
    (row_conflicts s) (read_transaction_bytes s) (write_transaction_bytes s)
    (read_row_hits s) (read_row_misses s) (read_row_conflicts s) (write_row_hits s)
    (write_row_misses s) (write_row_conflicts s).
Definition set_read_latency_sum (x : Z) (s : ctrl_stats) : ctrl_stats :=
  mkCtrlStats (req_queue_length_sum s) (read_req_queue_length_sum s)
    (write_req_queue_length_sum s) x (queueing_latency_sum s) (row_hits s)
    (row_misses s) (row_conflicts s) (read_transaction_bytes s)
    (write_transaction_bytes s) (read_row_hits s) (read_row_misses s)
    (read_row_conflicts s) (write_row_hits s) (write_row_misses s)
    (write_row_conflicts s).
Definition set_queueing_latency_sum (x : Z) (s : ctrl_stats) : ctrl_stats :=
  mkCtrlStats (req_queue_length_sum s) (read_req_queue_length_sum s)
    (write_req_queue_length_sum s) (read_latency_sum s) x (row_hits s) (row_misses
    s) (row_conflicts s) (read_transaction_bytes s) (write_transaction_bytes s)
    (read_row_hits s) (read_row_misses s) (read_row_conflicts s) (write_row_hits s)
    (write_row_misses s) (write_row_conflicts s).
Definition set_row_hits (x : Z) (s : ctrl_stats) : ctrl_stats :=
  mkCtrlStats (req_queue_length_sum s) (read_req_queue_length_sum s)
    (write_req_queue_length_sum s) (read_latency_sum s) (queueing_latency_sum s) x
    (row_misses s) (row_conflicts s) (read_transaction_bytes s)
    (write_transaction_bytes s) (read_row_hits s) (read_row_misses s)
    (read_row_conflicts s) (write_row_hits s) (write_row_misses s)
    (write_row_conflicts s).
Definition set_row_misses (x : Z) (s : ctrl_stats) : ctrl_stats :=
  mkCtrlStats (req_queue_length_sum s) (read_req_queue_length_sum s)
    (write_req_queue_length_sum s) (read_latency_sum s) (queueing_latency_sum s)
    (row_hits s) x (row_conflicts s) (read_transaction_bytes s)
    (write_transaction_bytes s) (read_row_hits s) (read_row_misses s)
    (read_row_conflicts s) (write_row_hits s) (write_row_misses s)
    (write_row_conflicts s).
Definition set_row_conflicts (x : Z) (s : ctrl_stats) : ctrl_stats :=
  mkCtrlStats (req_queue_length_sum s) (read_req_queue_length_sum s)
    (write_req_queue_length_sum s) (read_latency_sum s) (queueing_latency_sum s)
    (row_hits s) (row_misses s) x (read_transaction_bytes s)
    (write_transaction_bytes s) (read_row_hits s) (read_row_misses s)
    (read_row_conflicts s) (write_row_hits s) (write_row_misses s)
    (write_row_conflicts s).
Definition set_read_transaction_bytes (x : Z) (s : ctrl_stats) : ctrl_stats :=
  mkCtrlStats (req_queue_length_sum s) (read_req_queue_length_sum s)
    (write_req_queue_length_sum s) (read_latency_sum s) (queueing_latency_sum s)
    (row_hits s) (row_misses s) (row_conflicts s) x (write_transaction_bytes s)
    (read_row_hits s) (read_row_misses s) (read_row_conflicts s) (write_row_hits s)
    (write_row_misses s) (write_row_conflicts s).
Definition set_write_transaction_bytes (x : Z) (s : ctrl_stats) : ctrl_stats :=
  mkCtrlStats (req_queue_length_sum s) (read_req_queue_length_sum s)
    (write_req_queue_length_sum s) (read_latency_sum s) (queueing_latency_sum s)
    (row_hits s) (row_misses s) (row_conflicts s) (read_transaction_bytes s) x
    (read_row_hits s) (read_row_misses s) (read_row_conflicts s) (write_row_hits s)
    (write_row_misses s) (write_row_conflicts s).
Definition set_read_row_hits (x : VectorStat) (s : ctrl_stats) : ctrl_stats :=
  mkCtrlStats (req_queue_length_sum s) (read_req_queue_length_sum s)
    (write_req_queue_length_sum s) (read_latency_sum s) (queueing_latency_sum s)
    (row_hits s) (row_misses s) (row_conflicts s) (read_transaction_bytes s)
    (write_transaction_bytes s) x (read_row_misses s) (read_row_conflicts s)
    (write_row_hits s) (write_row_misses s) (write_row_conflicts s).
Definition set_read_row_misses (x : VectorStat) (s : ctrl_stats) : ctrl_stats :=
  mkCtrlStats (req_queue_length_sum s) (read_req_queue_length_sum s)
    (write_req_queue_length_sum s) (read_latency_sum s) (queueing_latency_sum s)
    (row_hits s) (row_misses s) (row_conflicts s) (read_transaction_bytes s)
    (write_transaction_bytes s) (read_row_hits s) x (read_row_conflicts s)
    (write_row_hits s) (write_row_misses s) (write_row_conflicts s).
Definition set_read_row_conflicts (x : VectorStat) (s : ctrl_stats) : ctrl_stats :=
  mkCtrlStats (req_queue_length_sum s) (read_req_queue_length_sum s)
    (write_req_queue_length_sum s) (read_latency_sum s) (queueing_latency_sum s)
    (row_hits s) (row_misses s) (row_conflicts s) (read_transaction_bytes s)
    (write_transaction_bytes s) (read_row_hits s) (read_row_misses s) x
    (write_row_hits s) (write_row_misses s) (write_row_conflicts s).
Definition set_write_row_hits (x : VectorStat) (s : ctrl_stats) : ctrl_stats :=
  mkCtrlStats (req_queue_length_sum s) (read_req_queue_length_sum s)
    (write_req_queue_length_sum s) (read_latency_sum s) (queueing_latency_sum s)
    (row_hits s) (row_misses s) (row_conflicts s) (read_transaction_bytes s)
    (write_transaction_bytes s) (read_row_hits s) (read_row_misses s)
    (read_row_conflicts s) x (write_row_misses s) (write_row_conflicts s).
Definition set_write_row_misses (x : VectorStat) (s : ctrl_stats) : ctrl_stats :=
  mkCtrlStats (req_queue_length_sum s) (read_req_queue_length_sum s)
    (write_req_queue_length_sum s) (read_latency_sum s) (queueing_latency_sum s)
    (row_hits s) (row_misses s) (row_conflicts s) (read_transaction_bytes s)
    (write_transaction_bytes s) (read_row_hits s) (read_row_misses s)
    (read_row_conflicts s) (write_row_hits s) x (write_row_conflicts s).
Definition set_write_row_conflicts (x : VectorStat) (s : ctrl_stats) : ctrl_stats :=
  mkCtrlStats (req_queue_length_sum s) (read_req_queue_length_sum s)
    (write_req_queue_length_sum s) (read_latency_sum s) (queueing_latency_sum s)
    (row_hits s) (row_misses s) (row_conflicts s) (read_transaction_bytes s)
    (write_transaction_bytes s) (read_row_hits s) (read_row_misses s)
    (read_row_conflicts s) (write_row_hits s) (write_row_misses s) x.
Definition set_clk {L C S : Type} (x : Z) (c : Controller L C S) : Controller L C S :=
  mkCtrl x (channel c) (scheduler c) (rowpolicy c) (rowtable c) (refresh c) (readq c)
    (writeq c) (otherq c) (pending c) (write_mode c) (no_DRAM_latency c) (cstats c)
    (crecord c) (cmd_trace c).
Definition set_channel {L C S : Type} (x : DRAM L C S) (c : Controller L C S) : Controller L C S :=
  mkCtrl (clk c) x (scheduler c) (rowpolicy c) (rowtable c) (refresh c) (readq c)
    (writeq c) (otherq c) (pending c) (write_mode c) (no_DRAM_latency c) (cstats c)
    (crecord c) (cmd_trace c).
Definition set_scheduler {L C S : Type} (x : Scheduler) (c : Controller L C S) : Controller L C S :=
  mkCtrl (clk c) (channel c) x (rowpolicy c) (rowtable c) (refresh c) (readq c)
    (writeq c) (otherq c) (pending c) (write_mode c) (no_DRAM_latency c) (cstats c)
    (crecord c) (cmd_trace c).
Definition set_rowtable {L C S : Type} (x : RowTable) (c : Controller L C S) : Controller L C S :=
  mkCtrl (clk c) (channel c) (scheduler c) (rowpolicy c) x (refresh c) (readq c)
    (writeq c) (otherq c) (pending c) (write_mode c) (no_DRAM_latency c) (cstats c)
    (crecord c) (cmd_trace c).
Definition set_refresh {L C S : Type} (x : Refresh) (c : Controller L C S) : Controller L C S :=
  mkCtrl (clk c) (channel c) (scheduler c) (rowpolicy c) (rowtable c) x (readq c)
    (writeq c) (otherq c) (pending c) (write_mode c) (no_DRAM_latency c) (cstats c)
    (crecord c) (cmd_trace c).
Definition set_readq {L C S : Type} (x : Queue) (c : Controller L C S) : Controller L C S :=
  mkCtrl (clk c) (channel c) (scheduler c) (rowpolicy c) (rowtable c) (refresh c) x
    (writeq c) (otherq c) (pending c) (write_mode c) (no_DRAM_latency c) (cstats c)
    (crecord c) (cmd_trace c).
Definition set_writeq {L C S : Type} (x : Queue) (c : Controller L C S) : Controller L C S :=
  mkCtrl (clk c) (channel c) (scheduler c) (rowpolicy c) (rowtable c) (refresh c)
    (readq c) x (otherq c) (pending c) (write_mode c) (no_DRAM_latency c) (cstats c)
    (crecord c) (cmd_trace c).
Definition set_otherq {L C S : Type} (x : Queue) (c : Controller L C S) : Controller L C S :=
  mkCtrl (clk c) (channel c) (scheduler c) (rowpolicy c) (rowtable c) (refresh c)
    (readq c) (writeq c) x (pending c) (write_mode c) (no_DRAM_latency c) (cstats c)
    (crecord c) (cmd_trace c).
Definition set_pending {L C S : Type} (x : list Request) (c : Controller L C S) : Controller L C S :=
  mkCtrl (clk c) (channel c) (scheduler c) (rowpolicy c) (rowtable c) (refresh c)
    (readq c) (writeq c) (otherq c) x (write_mode c) (no_DRAM_latency c) (cstats c)
    (crecord c) (cmd_trace c).
Definition set_write_mode {L C S : Type} (x : bool) (c : Controller L C S) : Controller L C S :=
  mkCtrl (clk c) (channel c) (scheduler c) (rowpolicy c) (rowtable c) (refresh c)
    (readq c) (writeq c) (otherq c) (pending c) x (no_DRAM_latency c) (cstats c)
    (crecord c) (cmd_trace c).
Definition set_no_DRAM_latency {L C S : Type} (x : bool) (c : Controller L C S) : Controller L C S :=
  mkCtrl (clk c) (channel c) (scheduler c) (rowpolicy c) (rowtable c) (refresh c)
    (readq c) (writeq c) (otherq c) (pending c) (write_mode c) x (cstats c) (crecord c)
    (cmd_trace c).
Definition set_cstats {L C S : Type} (x : ctrl_stats) (c : Controller L C S) : Controller L C S :=
  mkCtrl (clk c) (channel c) (scheduler c) (rowpolicy c) (rowtable c) (refresh c)
    (readq c) (writeq c) (otherq c) (pending c) (write_mode c) (no_DRAM_latency c) x
    (crecord c) (cmd_trace c).
Definition set_crecord {L C S : Type} (x : ctrl_record) (c : Controller L C S) : Controller L C S :=
  mkCtrl (clk c) (channel c) (scheduler c) (rowpolicy c) (rowtable c) (refresh c)
    (readq c) (writeq c) (otherq c) (pending c) (write_mode c) (no_DRAM_latency c)
    (cstats c) x (cmd_trace c).
Definition set_cmd_trace {L C S : Type} (x : list (C * list Z * Z)) (c : Controller L C S) : Controller L C S :=
  mkCtrl (clk c) (channel c) (scheduler c) (rowpolicy c) (rowtable c) (refresh c)
    (readq c) (writeq c) (otherq c) (pending c) (write_mode c) (no_DRAM_latency c)
    (cstats c) (crecord c) x.

Definition set_q (x : list Request) (u : Queue) : Queue := mkQueue x (qmax u).

(** The three queues. *)
Inductive QSel := ReadQ | WriteQ | OtherQ.
#[export] Instance QSel_eq_dec : EqDecision QSel.
Proof. solve_decision. Defined.

Section Ops.
Context {L C S : Type} `{!EqDecision L, !EqDecision C, !EqDecision S}.
Variable spec : Spec L C S.

Definition queue_of (s : QSel) (c : Controller L C S) : Queue :=
  match s with ReadQ => readq c | WriteQ => writeq c | OtherQ => otherq c end.
Definition set_queue (s : QSel) (x : list Request) (c : Controller L C S) : Controller L C S :=
  match s with
  | ReadQ => set_readq (set_q x (readq c)) c
  | WriteQ => set_writeq (set_q x (writeq c)) c
  | OtherQ => set_otherq (set_q x (otherq c)) c
  end.

(** [Controller(configs, channel)] with [Refresh(this)], before
    [fake_ideal_DRAM(configs)]; [core_num] is [configs.get_core_num()]. *)
Definition new_controller (core_num : nat) (ch : DRAM L C S) : Controller L C S :=
  {| clk := 0; channel := ch; scheduler := Scheduler0; rowpolicy := RowPolicy0; rowtable := ∅;
     refresh := mkRefresh 0 0 (replicate (length (children ch)) 0);
     readq := Queue0; writeq := Queue0; otherq := Queue0; pending := []; write_mode := false;
     no_DRAM_latency := false; cstats := ctrl_stats0 core_num; crecord := ctrl_record0 core_num; cmd_trace := [] |}.

(** [fake_ideal_DRAM(configs)]: the options [no_DRAM_latency] and
    [unlimit_bandwidth], and the members of the speed entry the second checks. *)
Definition fake_ideal_DRAM (no_latency unlimit : bool) (nBL nCL nCCD : Z) (c : Controller L C S) :
    option (Controller L C S) :=
  let c := if no_latency then set_scheduler (mkScheduler FRFCFS (cap (scheduler c))) (set_no_DRAM_latency true c) else c in
  if unlimit then
    assert! nBL =? 0;
    assert! read_latency spec =? nCL;
    assert! nCCD =? 1;
    Some c
  else Some c.

(** ** Queries *)

(** [get_first_cmd(req)] *)
Definition get_first_cmd (c : Controller L C S) (req : Request) : option C :=
  let cmd := translate spec (type req) in
  if no_DRAM_latency c then Some cmd else decode spec cmd (addr_vec req) (channel c).

(** [is_ready(cmd, addr_vec)] and [is_ready(req)] *)
Definition is_ready_cmd (c : Controller L C S) (cmd : C) (a : list Z) : option bool :=
  check spec cmd a (clk c) (channel c).
Definition is_ready (c : Controller L C S) (req : Request) : option bool :=
  cmd ← get_first_cmd c req; is_ready_cmd c cmd (addr_vec req).

(** [is_row_hit(req)] and [is_row_open(req)] *)
Definition is_row_hit (c : Controller L C S) (req : Request) : option bool :=
  check_row_hit spec (translate spec (type req)) (addr_vec req) (channel c).
Definition is_row_open (c : Controller L C S) (req : Request) : option bool :=
  check_row_open spec (translate spec (type req)) (addr_vec req) (channel c).

Definition view_of (c : Controller L C S) : CtrlView C :=
  mkView (is_ready c) (is_row_hit c) (is_row_open c) (is_ready_cmd c) (clk c).

(** [is_active()] and [is_refresh()] *)
Definition is_active (c : Controller L C S) : bool :=
  0 <? cur_serving_requests (stats (info (channel c))).
Definition is_refresh (c : Controller L C S) : bool :=
  clk c <=? end_of_refreshing (stats (info (channel c))).

(** ** [enqueue] *)

(** [get_queue(type)] *)
Definition get_queue (t : ReqType) : QSel :=
  match t with READ => ReadQ | WRITE => WriteQ | _ => OtherQ end.

(** [enqueue(req)]: a read of an address with a write in the queue is answered
    from the queue; [accept] is what is done with a request there is room for. *)
Definition accept (req : Request) (c : Controller L C S) : Controller L C S :=
  let s := get_queue (type req) in
  let req := set_arrive (clk c) req in
  let c := set_queue s (q (queue_of s c) ++ [req]) c in
  if bool_decide (type req = READ) && existsb (λ w, addr req =? addr w) (q (writeq c)) then
    let req := set_depart (clk c + 1) req in
    let c := set_pending (pending c ++ [req]) c in
    set_queue ReadQ (removelast (q (readq c))) c
  else c.
Definition enqueue (req : Request) (c : Controller L C S) : bool * Controller L C S :=
  let s := get_queue (type req) in
  if qmax (queue_of s c) =? qsize (queue_of s c) then (false, c) else (true, accept req c).

(** ** [Refresh<T>] *)

(** [refresh_target(ctrl, rank, bank, sa)] *)
Definition refresh_target (rank bank sa : Z) (c : Controller L C S) : option (Controller L C S) :=
  assert! (4 <=? Z.of_nat (level_MAX spec));
  let addr_vec := <[3%nat := sa]> (<[2%nat := bank]> (<[1%nat := rank]> (<[0%nat := nid (info (channel c))]>
                    (replicate (level_MAX spec) (-1))))) in
  let '(res, c) := enqueue (Request_addr_vec addr_vec REFRESH (-1)) c in
  assert! res;
  Some c.

(** [inject_refresh(b_ref_rank)] *)
Definition inject_refresh (b_ref_rank : bool) (c : Controller L C S) : option (Controller L C S) :=
  c ← foldM (λ c rank,
        let id := nid (info rank) in
        if b_ref_rank then refresh_target id (-1) (-1) c
        else bank ← zlookup (bank_ref_counters (refresh c)) id; refresh_target id bank (-1) c)
      c (children (channel c));
  let r := refresh c in
  Some (set_refresh (mkRefresh (ref_clk r) (ref_clk r) (bank_ref_counters r)) c).

(** [tick_ref()] *)
Definition tick_ref (c : Controller L C S) : option (Controller L C S) :=
  let r := refresh c in
  let r := mkRefresh (ref_clk r + 1) (refreshed r) (bank_ref_counters r) in
  let c := set_refresh r c in
  if nREFI spec <=? ref_clk r - refreshed r then inject_refresh true c else Some c.

(** ** [issue_cmd] *)

(** The line [print_cmd_trace] prints: the clock, the command and its address. *)
Definition record_cmd (cmd : C) (a : list Z) (c : Controller L C S) : Controller L C S :=
  set_cmd_trace ((cmd, a, clk c) :: cmd_trace c) c.

Definition issue_cmd (cmd : C) (a : list Z) (c : Controller L C S) : option (Controller L C S) :=
  ready ← is_ready_cmd c cmd a;
  assert! ready;
  if negb (no_DRAM_latency c) then
    ch ← update spec cmd a (clk c) (channel c);
    t ← rowtable_update spec cmd a (clk c) (rowtable c);
    Some (record_cmd cmd a (set_rowtable t (set_channel ch c)))
  else
    ch ← update_timing spec cmd a (clk c) (channel c);
    Some (record_cmd cmd a (set_channel ch c)).

(** ** [tick] *)

Definition serving (a : list Z) (delta : Z) (c : Controller L C S) : option (Controller L C S) :=
  ch ← update_serving_requests spec a delta (clk c) (channel c);
  Some (set_channel ch c).

(** The clock and the queue statistics. *)
Definition tick_clk (c : Controller L C S) : Controller L C S :=
  let c := set_clk (clk c + 1) c in
  let s := cstats c in
  let p := Z.of_nat (length (pending c)) in
  let s := set_req_queue_length_sum (req_queue_length_sum s + (qsize (readq c) + qsize (writeq c) + p)) s in
  let s := set_read_req_queue_length_sum (read_req_queue_length_sum s + (qsize (readq c) + p)) s in
  let s := set_write_req_queue_length_sum (write_req_queue_length_sum s + qsize (writeq c)) s in
  set_cstats s c.

(** 1. Serve completed reads: the request whose callback is run, if any. *)
Definition serve_pending (c : Controller L C S) : option (list Request * Controller L C S) :=
  match pending c with
  | [] => Some ([], c)
  | req :: rest =>
    if depart req <=? clk c then
      c ← if 1 <? depart req - arrive req then
            let s := cstats c in
            serving (addr_vec req) (-1)
              (set_cstats (set_read_latency_sum (read_latency_sum s + (depart req - arrive req)) s) c)
          else Some c;
      Some ([req], set_pending rest c)
    else Some ([], c)
  end.

(** 3. Should we schedule writes?  [int(0.8 * writeq.max)] and
    [int(0.2 * writeq.max)] as integer quotients: [max] is 32. *)
Definition switch_mode (c : Controller L C S) : Controller L C S :=
  if negb (write_mode c) then
    if (8 * qmax (writeq c) / 10 <=? qsize (writeq c)) || (qsize (readq c) =? 0)
    then set_write_mode true c else c
  else
    if (qsize (writeq c) <=? 2 * qmax (writeq c) / 10) && negb (qsize (readq c) =? 0)
    then set_write_mode false c else c.

(** 4. The queue to schedule from. *)
Definition pick_queue (c : Controller L C S) : QSel :=
  if negb (qsize (otherq c) =? 0) then OtherQ else if write_mode c then WriteQ else ReadQ.

(** Statistics on the first command of a request; [hit] and [open] are the
    row-buffer status.  Only the counter of a read's or a write's core can be
    missing. *)
Definition count_row_read (req : Request) (hit open : bool) (s : ctrl_stats) : option ctrl_stats :=
  if hit then v ← bump (read_row_hits s) (coreid req); Some (set_row_hits (row_hits s + 1) (set_read_row_hits v s))
  else if open then
    v ← bump (read_row_conflicts s) (coreid req); Some (set_row_conflicts (row_conflicts s + 1) (set_read_row_conflicts v s))
  else v ← bump (read_row_misses s) (coreid req); Some (set_row_misses (row_misses s + 1) (set_read_row_misses v s)).
Definition count_row_write (req : Request) (hit open : bool) (s : ctrl_stats) : option ctrl_stats :=
  if hit then v ← bump (write_row_hits s) (coreid req); Some (set_row_hits (row_hits s + 1) (set_write_row_hits v s))
  else if open then
    v ← bump (write_row_conflicts s) (coreid req); Some (set_row_conflicts (row_conflicts s + 1) (set_write_row_conflicts v s))
  else v ← bump (write_row_misses s) (coreid req); Some (set_row_misses (row_misses s + 1) (set_write_row_misses v s)).
Definition first_stats (req : Request) (hit open : bool) (now : Z) (s : ctrl_stats) : option ctrl_stats :=
  let tx := Z.quot (prefetch_size spec * channel_width spec) 8 * burst_count req in
  match type req with
  | READ =>
    let s := set_queueing_latency_sum (queueing_latency_sum s + (now - arrive req)) s in
    s ← count_row_read req hit open s;
    Some (set_read_transaction_bytes (read_transaction_bytes s + tx) s)
  | WRITE =>
    s ← count_row_write req hit open s;
    Some (set_write_transaction_bytes (write_transaction_bytes s + tx) s)
  | _ => Some s
  end.

Definition is_rw (t : ReqType) : bool := match t with READ | WRITE => true | _ => false end.

(** [if (req->is_first_command) ...] for the request at index [i]. *)
Definition first_command (s : QSel) (i : nat) (req : Request) (c : Controller L C S) :
    option (Controller L C S) :=
  if is_first_command req then
    let req' := set_is_first_command false req in
    let c := set_queue s (<[i := req']> (q (queue_of s c))) c in
    if is_rw (type req) then
      c ← serving (addr_vec req) 1 c;
      hit ← is_row_hit c req';
      open ← (if (hit : bool) then Some false else is_row_open c req');
      st ← first_stats req' hit open (clk c) (cstats c);
      Some (set_cstats st c)
    else Some c
  else Some c.

(** The completion of a request whose own command was issued. *)
Definition complete (s : QSel) (i : nat) (req : Request) (c : Controller L C S) : option (Controller L C S) :=
  let req' := set_depart (clk c + read_latency spec) req in
  let c := if decide (type req = READ) then set_pending (pending c ++ [req']) c else c in
  c ← if decide (type req = WRITE) then serving (addr_vec req) (-1) c else Some c;
  Some (set_queue s (delete i (q (queue_of s c))) c).

(** The command of the request at index [i], which is ready. *)
Definition issue_request (s : QSel) (i : nat) (req : Request) (c : Controller L C S) :
    option (Controller L C S) :=
  c ← first_command s i req c;
  cmd ← get_first_cmd c req;
  c ← issue_cmd cmd (addr_vec req) c;
  if decide (cmd ≠ translate spec (type req)) then Some c
  else
    req ← q (queue_of s c) !! i;
    complete s i req c.

(** 4. Find the best command to schedule: the request the scheduler chose and
    its index, if it is ready. *)
Definition pick_request (c : Controller L C S) : option (Controller L C S * option (nat * Request)) :=
  let s := pick_queue c in
  '(head, t) ← get_head spec (view_of c) (scheduler c) (q (queue_of s c)) (rowtable c);
  let c := set_rowtable t c in
  ready ← match head with
          | None => Some None
          | Some i =>
            req ← q (queue_of s c) !! i;
            ready ← is_ready c req;
            Some (if (ready : bool) then Some (i, req) else None)
          end;
  Some (c, ready).

(** [issue] is what is done with the ready request; if there is none, the row
    policy may close a row. *)
Definition schedule_with (issue : QSel → nat → Request → Controller L C S → option (Controller L C S))
    (c : Controller L C S) : option (Controller L C S) :=
  let s := pick_queue c in
  '(c, ready) ← pick_request c;
  match ready with
  | None =>
    if negb (no_DRAM_latency c) then
      let cmd := cmd_PRE spec in
      victim ← get_victim (view_of c) (rowpolicy c) cmd (rowtable c);
      if bool_decide (victim = []) then Some c else issue_cmd cmd victim c
    else Some c
  | Some (i, req) => issue s i req c
  end.

(** [tick()]: the specialisation of [tick] for WideIO2 differs in what is done
    with the ready request ([WideController]). *)
Definition tick_with (issue : QSel → nat → Request → Controller L C S → option (Controller L C S))
    (c : Controller L C S) : option (list Request * Controller L C S) :=
  '(done, c) ← serve_pending (tick_clk c);
  c ← tick_ref c;
  c ← schedule_with issue (switch_mode c);
  Some (done, c).
Definition schedule : Controller L C S → option (Controller L C S) := schedule_with issue_request.
Definition tick : Controller L C S → option (list Request * Controller L C S) := tick_with issue_request.

(** [record_core(coreid)] *)
Definition record_core (i : Z) (c : Controller L C S) : option (Controller L C S) :=
  let s := cstats c in
  let r := crecord c in
  rh ← at_core i (read_row_hits s) (record_read_hits r);
  rm ← at_core i (read_row_misses s) (record_read_misses r);
  rc ← at_core i (read_row_conflicts s) (record_read_conflicts r);
  wh ← at_core i (write_row_hits s) (record_write_hits r);
  wm ← at_core i (write_row_misses s) (record_write_misses r);
  wc ← at_core i (write_row_conflicts s) (record_write_conflicts r);
  Some (set_crecord (mkCtrlRecord rh rm rc wh wm wc) c).

(** [finish(dram_cycles)] *)
Definition ctrl_finish (c : Controller L C S) : Controller L C S := set_channel (finish (channel c)) c.

End Ops.
