(* ===== verification/CtrlQueries.v ===== *)
(** * What a controller needs of a standard

    The questions a controller asks a channel and what it relies on in the
    answers ([ChanLaws], [CtrlLaws]), with lemmas on them, and the instances for
    nine standards. *)

From S2P Require Import Prelude Request Dram DramTiming BankProtocol Device Standard SpecDDR3 SpecDDR4 SpecGDDR5 SpecHBM SpecHMC SpecLPDDR3 SpecLPDDR4 SpecWideIO SpecWideIO2 SpecALDRAM BankMap Serving.

(** ** What the controller asks of its channel

    The laws of a standard the controller relies on beside [BankProtocol], the
    requests it handles, and the answers of the channel to them: every query is
    answered, and no answer depends on the statistics of the channel. *)

(** ** The interface of a standard to the controller *)

(** What serving requests needs. *)
Class ChanLaws {L C S} `{!EqDecision L, !EqDecision C, !EqDecision S} (spec : Spec L C S) (pr : Proto L C S) : Prop := {
  cl_protocol :: BankProtocol spec pr;
  cl_read : translate spec READ = p_RD pr;
  cl_write : translate spec WRITE = p_WR pr;
  cl_refresh : translate spec REFRESH = p_REF pr;
  cl_scope_pre : scope spec (cmd_PRE spec) = lvl_Bank spec;
  cl_opening c : c ∈ [p_RD pr; p_WR pr; p_ACT pr; cmd_PRE spec; p_PREA pr; p_REF pr; p_PDX pr; p_SRX pr] →
    is_opening spec c = bool_decide (c = p_ACT pr);
  cl_accessing c : c ∈ [p_RD pr; p_WR pr; p_ACT pr; cmd_PRE spec; p_PREA pr; p_REF pr; p_PDX pr; p_SRX pr] →
    is_accessing spec c = bool_decide (c = p_RD pr ∨ c = p_WR pr);
  cl_closing c : c ∈ [p_RD pr; p_WR pr; p_ACT pr; cmd_PRE spec; p_PREA pr; p_REF pr; p_PDX pr; p_SRX pr] →
    is_closing spec c = bool_decide (c = cmd_PRE spec ∨ c = p_PREA pr);
  cl_ref_hit l : rowhit spec l (p_REF pr) = None;
  cl_ref_open l : rowopen spec l (p_REF pr) = None;
  cl_latency : 1 < read_latency spec
}.

(** The generic [Refresh<T>] refreshes ranks: they are the children of the
    root. *)
Class CtrlLaws {L C S} `{!EqDecision L, !EqDecision C, !EqDecision S} (spec : Spec L C S) (pr : Proto L C S) : Prop := {
  cl_chan :: ChanLaws spec pr;
  cl_power : power_idx spec pr = 1%nat;
  cl_levels : (4 ≤ level_MAX spec)%nat
}.

Section Queries.
Context {L C S : Type} `{!EqDecision L, !EqDecision C, !EqDecision S}.
Variables (spec : Spec L C S) (pr : Proto L C S).
Context `{CL : !ChanLaws spec pr}.

Abbreviation power := (power_idx spec pr).
Abbreviation bank := (bank_idx spec).

(** ** Requests *)

(** A read or a write names a bank of the channel [i]; a refresh names a
    rank and nothing below it. *)
Definition rw_addr (i : Z) (a : list Z) : Prop :=
  addr_ok spec a ∧ path_ok spec bank a ∧ a !! 0%nat = Some i.
Definition ref_addr (i : Z) (a : list Z) : Prop :=
  addr_ok spec a ∧ path_ok spec power a ∧ a !! 0%nat = Some i ∧ a !! (power + 1)%nat = Some (-1).

Definition request_wf (i : Z) (r : Request) : Prop :=
  match type r with
  | READ | WRITE => rw_addr i (addr_vec r)
  | REFRESH => ref_addr i (addr_vec r)
  | _ => False
  end.

Lemma wf_request_ok i r : request_wf i r → request_ok spec pr (translate spec (type r)) (addr_vec r).
Proof.
  unfold request_wf, request_ok, rw. destruct (type r); try done.
  - rewrite (cl_read (pr := pr)). intros (_&?&_). auto.
  - rewrite (cl_write (pr := pr)). intros (_&?&_). auto.
  - rewrite (cl_refresh (pr := pr)). intros (_&?&_). auto.
Qed.

Lemma wf_addr_ok i r : request_wf i r → addr_ok spec (addr_vec r).
Proof. unfold request_wf. destruct (type r); try done; by intros [? _]. Qed.

Lemma wf_head i r : request_wf i r → addr_vec r !! 0%nat = Some i.
Proof. unfold request_wf. destruct (type r); try done; unfold rw_addr, ref_addr; tauto. Qed.

Lemma wf_not_MAX : p_RD pr ≠ p_REF pr ∧ p_WR pr ≠ p_REF pr ∧ p_RD pr ≠ p_WR pr.
Proof. pose proof (bp_cmds spec pr) as H. rewrite !NoDup_cons, !not_elem_of_cons in H. naive_solver. Qed.

(** ** The row status of a refresh: no row. *)
Lemma ref_status i a d :
  ref_addr i a → shaped spec 0 d →
  check_row_hit spec (p_REF pr) a d = Some false ∧ check_row_open spec (p_REF pr) a d = Some false.
Proof.
  intros (_&Ha&_&Hneg) Hd. pose proof (bp_levels spec pr) as [Hpb Hbr].
  destruct (node_at_total spec 0 power a d) as (dp&Hp&Hsp); [done|lia|lia|done|].
  rewrite (check_row_hit_skip spec _ 0 power a d dp), (check_row_open_skip spec _ 0 power a d dp);
    try done; try lia; try (intros; apply cl_ref_hit || apply cl_ref_open).
  destruct Hsp as [k n cs Hl _ _ _ _]. cbn [check_row_hit check_row_open].
  rewrite Hl, Hneg; simpl. by rewrite cl_ref_hit, cl_ref_open.
Qed.

Lemma rw_status c i a d :
  rw pr c → rw_addr i a → shaped spec 0 d → bank_inv spec pr d →
  ∃ hit open, check_row_hit spec c a d = Some hit ∧ check_row_open spec c a d = Some open.
Proof.
  intros Hc (_&Ha&_) Hd Hb. destruct (sees_path spec pr a d) as (r&sp&nb&Hr&Hs&_&Hone&_); [done..|].
  destruct (row_status spec pr c r nb) as (hit&open&Hh&Ho&_); [done|by apply (one_row_state pr)|].
  exists hit, open. rewrite (sees_hit spec pr a r Ha Hr c d sp nb Hc Hs).
  by rewrite (sees_open spec pr a r Ha Hr c d sp nb Hc Hs).
Qed.

(** ** Every query is answered *)
Lemma wf_answers i h r d x :
  request_wf i r → device_ok spec pr i h d → 0 ≤ x →
  ∃ c ready hit open, decode spec (translate spec (type r)) (addr_vec r) d = Some c ∧
    check spec c (addr_vec r) x d = Some ready ∧
    check_row_hit spec (translate spec (type r)) (addr_vec r) d = Some hit ∧
    check_row_open spec (translate spec (type r)) (addr_vec r) d = Some open.
Proof.
  intros Hwf Hd Hx. pose proof (device_shaped spec pr i h d Hd) as Hsh. destruct (id Hd) as (_&Hb&_).
  destruct (request_step spec pr (translate spec (type r)) (addr_vec r) d) as (c&?&Hdec&_);
    [by eapply wf_request_ok|done|done|].
  assert (∃ ready, check spec c (addr_vec r) x d = Some ready) as [ready Hr].
  { apply (shaped_check spec 0); [done|by eapply wf_addr_ok]. }
  exists c, ready. unfold request_wf in Hwf. destruct (type r) eqn:Ht; try done.
  - rewrite (cl_read (pr := pr)) in *. destruct (rw_status (p_RD pr) i (addr_vec r) d) as (hit&open&?&?);
      [by left|done..|eauto 10].
  - rewrite (cl_write (pr := pr)) in *. destruct (rw_status (p_WR pr) i (addr_vec r) d) as (hit&open&?&?);
      [by right|done..|eauto 10].
  - rewrite (cl_refresh (pr := pr)) in *. destruct (ref_status i (addr_vec r) d) as [? ?]; [done..|]. eauto 10.
Qed.

(** ** No answer depends on the statistics *)
Lemma check_bare c a x (d : DRAM L C S) : check spec c a x (bare d) = check spec c a x d.
Proof.
  revert d. fix IH 1. intros [n cs]. cbn [check bare]. simpl. case_match; [done|].
  destruct (a !! _) as [y|]; simpl; [|done].
  assert (bool_decide (map bare cs = []) = bool_decide (cs = [])) as -> by (by destruct cs).
  destruct (_ || _ || _); [done|]. rewrite !at_child_lookup. unfold zlookup. destruct (y <? 0); [done|].
  generalize (Z.to_nat y) as m. induction cs as [|c0 cs IHcs]; intros [|m]; simpl; auto.
Qed.

Lemma all_closed_bare (d : DRAM L C S) : all_closed spec pr (bare d) = all_closed spec pr d.
Proof.
  revert d. fix IH 1. intros [n cs]. cbn [all_closed bare]. simpl. case_decide; [done|].
  induction cs as [|c0 cs IHcs]; simpl; [done|]. by rewrite IH, IHcs.
Qed.

Lemma bare_node_at_Some b k d d' n :
  bare d' = bare d → node_at spec b k d = Some n → ∃ n', node_at spec b k d' = Some n' ∧ bare n' = bare n.
Proof.
  intros E Hn. pose proof (bare_node_at spec b k d) as H1. pose proof (bare_node_at spec b k d') as H2.
  rewrite E, <-H1, Hn in H2. simpl in H2. destruct (node_at spec b k d') as [n'|]; [|done].
  exists n'. split; [done|]. by injection H2.
Qed.

Lemma bare_info (d d' : DRAM L C S) :
  bare d' = bare d → state (info d') = state (info d) ∧ row_state (info d') = row_state (info d).
Proof. destruct d, d'. intros E. apply bare_node in E. simpl. tauto. Qed.

Lemma decode_bare c a d d' :
  request_ok spec pr c a → shaped spec 0 d → bank_inv spec pr d → bare d' = bare d →
  decode spec c a d' = decode spec c a d.
Proof.
  intros Hq Hd Hb E. pose proof (bare_shaped spec 0 d d' E Hd) as Hd'. pose proof (bp_levels spec pr) as [Hpb Hbr].
  destruct Hq as [[Hc Ha]|[-> Ha]].
  - destruct (sees_path spec pr a d) as (r&sp&nb&Hr&Hs&_); [done..|].
    rewrite (sees_decode spec pr a r Ha Hr c d sp nb Hc Hs). destruct Hs as (_&dp&db&Hp&<-&Hbk&<-).
    destruct (bare_node_at_Some _ _ _ _ _ E Hp) as (dp'&Hp'&Ep). destruct (bare_node_at_Some _ _ _ _ _ E Hbk) as (db'&Hb'&Eb).
    apply bare_info in Ep as [Ep _]. apply bare_info in Eb as [Eb1 Eb2].
    rewrite (sees_decode spec pr a r Ha Hr c d' (state (info dp)) (info db') Hc).
    + unfold row_cmd. simpl. by rewrite Eb1, Eb2.
    + split; [done|]. by exists dp', db'.
  - destruct (node_at_total spec 0 power a d) as (dp&Hp&_); [done|lia|lia|done|].
    destruct (bare_node_at_Some _ _ _ _ _ E Hp) as (dp'&Hp'&Ep).
    rewrite (decode_ref spec pr a d dp), (decode_ref spec pr a d' dp') by done.
    by rewrite <-(all_closed_bare dp), <-Ep, all_closed_bare.
Qed.

Lemma bare_device_ok i h d d' :
  bare d' = bare d → device_ok spec pr i h d → device_ok spec pr i h d'.
Proof.
  intros E (Ht&Hb&Hh). split_and!; [by eapply bare_tree_inv|by eapply bare_bank_inv|done].
Qed.

Lemma bare_check c a x (d d' : DRAM L C S) : bare d' = bare d → check spec c a x d' = check spec c a x d.
Proof. intros E. by rewrite <-(check_bare c a x d), <-E, check_bare. Qed.

End Queries.

(** ** The standards the controller runs

    Each standard with ranks satisfies the laws [CtrlLaws] of the controller,
    for every organisation with non-negative counts and every speed grade whose
    read latency is at least two cycles.  HMC, whose root is a vault and not a
    channel of ranks, has a controller of its own and satisfies [ChanLaws];
    WideIO2 and ALDRAM satisfy the laws and have a [tick] of their own
    ([WideController], [AldramController]). *)

Ltac solve_ctrl :=
  match goal with
  | |- ∀ c, c ∈ _ → _ => intros c Hc; split_elem Hc; reflexivity
  | |- ∀ l, _ => intros []; reflexivity
  | |- (_ ≤ _)%nat => simpl; lia
  | |- _ => first [assumption|reflexivity]
  end.

#[export] Instance ALDRAM_ctrl (o : ALDRAM.ALDRAM) `{!CountOK 5 (ALDRAM.count (ALDRAM.org_entry o))} :
  1 < read_latency (ALDRAM.spec o) → CtrlLaws (ALDRAM.spec o) ALDRAM.proto.
Proof. split; [split; try apply _; solve_ctrl|solve_ctrl..]. Qed.

#[export] Instance DDR3_ctrl (o : DDR3.DDR3) `{!CountOK 5 (DDR3.count (DDR3.org_entry o))} :
  1 < read_latency (DDR3.spec o) → CtrlLaws (DDR3.spec o) DDR3.proto.
Proof. split; [split; try apply _; solve_ctrl|solve_ctrl..]. Qed.

#[export] Instance DDR4_ctrl (o : DDR4.DDR4) `{!CountOK 6 (DDR4.count (DDR4.org_entry o))} :
  1 < read_latency (DDR4.spec o) → CtrlLaws (DDR4.spec o) DDR4.proto.
Proof. split; [split; try apply _; solve_ctrl|solve_ctrl..]. Qed.

#[export] Instance GDDR5_ctrl (o : GDDR5.GDDR5) `{!CountOK 6 (GDDR5.count (GDDR5.org_entry o))} :
  1 < read_latency (GDDR5.spec o) → CtrlLaws (GDDR5.spec o) GDDR5.proto.
Proof. split; [split; try apply _; solve_ctrl|solve_ctrl..]. Qed.

#[export] Instance HBM_ctrl (o : HBM.HBM) `{!CountOK 6 (HBM.count (HBM.org_entry o))} :
  1 < read_latency (HBM.spec o) → CtrlLaws (HBM.spec o) HBM.proto.
Proof. split; [split; try apply _; solve_ctrl|solve_ctrl..]. Qed.

#[export] Instance HMC_chan (o : HMC.HMC) `{!CountOK 5 (HMC.count (HMC.org_entry o))} :
  1 < read_latency (HMC.spec o) → ChanLaws (HMC.spec o) HMC.proto.
Proof. split; try apply _; solve_ctrl. Qed.

#[export] Instance LPDDR3_ctrl (o : LPDDR3.LPDDR3) `{!CountOK 5 (LPDDR3.count (LPDDR3.org_entry o))} :
  1 < read_latency (LPDDR3.spec o) → CtrlLaws (LPDDR3.spec o) LPDDR3.proto.
Proof. split; [split; try apply _; solve_ctrl|solve_ctrl..]. Qed.

#[export] Instance LPDDR4_ctrl (o : LPDDR4.LPDDR4) `{!CountOK 5 (LPDDR4.count (LPDDR4.org_entry o))} :
  1 < read_latency (LPDDR4.spec o) → CtrlLaws (LPDDR4.spec o) LPDDR4.proto.
Proof. split; [split; try apply _; solve_ctrl|solve_ctrl..]. Qed.

#[export] Instance WideIO_ctrl (o : WideIO.WideIO) `{!CountOK 5 (WideIO.count (WideIO.org_entry o))} :
  1 < read_latency (WideIO.spec o) → CtrlLaws (WideIO.spec o) WideIO.proto.
Proof. split; [split; try apply _; solve_ctrl|solve_ctrl..]. Qed.

#[export] Instance WideIO2_ctrl (o : WideIO2.WideIO2) `{!CountOK 5 (WideIO2.count (WideIO2.org_entry o))} :
  1 < read_latency (WideIO2.spec o) → CtrlLaws (WideIO2.spec o) WideIO2.proto.
Proof. split; [split; try apply _; solve_ctrl|solve_ctrl..]. Qed.
