(* ===== verification/ControllerInv.v ===== *)
(** * The controller's invariant

    [ctrl_inv i h c]: the controller [c] of channel [i] has issued the commands
    [h].  Its device is one that [h] leads to and obeys the bank protocol, every
    command of [h] was legal when it was issued, the row table mirrors the open
    rows of the device, the queues hold well-formed requests, and the counters
    of requests in flight are right.  This file proves that each phase of
    [tick] returns and preserves it. *)

From S2P Require Import Prelude Request Dram DramTiming BankProtocol Device BankMap Serving.
From S2P Require Import Scheduler SchedulerTheorems Controller CtrlQueries.

(** ** The counters of the cores

    A read or a write is counted under its core with its first command, in a
    vector with one counter per core.  [sized n c]: all vectors have [n]
    counters; [cores_in P c]: the cores of the queued reads and writes satisfy
    [P].  Every operation of a controller preserves both. *)
Section Cores.
Context {L C S : Type} `{!EqDecision L, !EqDecision C, !EqDecision S}.
Variable spec : Spec L C S.

Definition core_vectors (s : ctrl_stats) : list VectorStat :=
  [read_row_hits s; read_row_misses s; read_row_conflicts s; write_row_hits s; write_row_misses s; write_row_conflicts s].
Definition record_vectors (r : ctrl_record) : list VectorStat :=
  [record_read_hits r; record_read_misses r; record_read_conflicts r;
   record_write_hits r; record_write_misses r; record_write_conflicts r].
Definition has_length {A} (n : nat) (v : list A) : Prop := length v = n.
Definition sized (n : nat) (c : Controller L C S) : Prop :=
  Forall (has_length n) (core_vectors (cstats c)) ∧ Forall (has_length n) (record_vectors (crecord c)).
Definition in_range (n : nat) (i : Z) : bool := (0 <=? i) && (i <? Z.of_nat n).

(** Whether the counters have one for the request, if it is counted at all. *)
Definition counted (n : nat) (r : Request) : bool := negb (is_first_command r && is_rw (type r)) || in_range n (coreid r).

Definition rw_core (P : Z → Prop) (r : Request) : Prop := is_rw (type r) = true → P (coreid r).
Definition cores_in (P : Z → Prop) (c : Controller L C S) : Prop := ∀ s, Forall (rw_core P) (q (queue_of s c)).
Definition cores_ok (n : nat) (P : Z → Prop) (c : Controller L C S) : Prop := sized n c ∧ cores_in P c.

Lemma in_range_true n i : in_range n i = true ↔ 0 ≤ i < Z.of_nat n.
Proof. unfold in_range. rewrite andb_true_iff, Z.leb_le, Z.ltb_lt. done. Qed.

Lemma in_range_lookup {A} n i (v : list A) : has_length n v → in_range n i = bool_decide (is_Some (zlookup v i)).
Proof.
  unfold has_length, in_range, zlookup. intros <-. destruct (Z.ltb_spec i 0).
  - rewrite (proj2 (Z.leb_gt _ _)) by done. by rewrite bool_decide_false by (by intros []).
  - rewrite (proj2 (Z.leb_le _ _)) by done. simpl. apply eq_true_iff_eq. rewrite Z.ltb_lt, bool_decide_eq_true, lookup_lt_is_Some. lia.
Qed.

Lemma bump_ok n v i :
  has_length n v → if in_range n i then ∃ v', bump v i = Some v' ∧ has_length n v' else bump v i = None.
Proof.
  intros Hv. rewrite (in_range_lookup _ _ _ Hv). unfold bump. rewrite upd_child_lookup.
  case_bool_decide as H; [|by rewrite (proj2 (eq_None_not_Some _) H)]. destruct H as [x ->]. simpl. eexists. split; [done|].
  unfold has_length in *. by rewrite length_insert.
Qed.

Lemma at_core_ok n w v i :
  has_length n w → has_length n v →
  if in_range n i then ∃ v', at_core i w v = Some v' ∧ has_length n v' else at_core i w v = None.
Proof.
  intros Hw Hv. rewrite (in_range_lookup _ _ _ Hw). unfold at_core.
  case_bool_decide as H; [|by rewrite (proj2 (eq_None_not_Some _) H)]. destruct (id H) as [x ->]. simpl.
  assert (is_Some (zlookup v i)) as [y Hy].
  { rewrite <-(bool_decide_eq_true (is_Some (zlookup v i))), <-(in_range_lookup _ _ _ Hv), (in_range_lookup _ _ _ Hw).
    by rewrite bool_decide_eq_true. }
  rewrite upd_child_lookup, Hy. simpl. eexists. split; [done|]. unfold has_length in *. by rewrite length_insert.
Qed.

(** Counting one of the vectors of a record of statistics. *)
Ltac bump_vector :=
  match goal with H : has_length ?n ?v |- context [bump ?v ?i] =>
    pose proof (bump_ok n v i H); destruct (in_range n i);
      [match goal with E : ∃ _, _ |- _ => destruct E as (?&->&?) end; simpl; eexists; split; [done|]; by repeat constructor
      |match goal with E : bump _ _ = None |- _ => by rewrite E end]
  end.

Lemma first_stats_ok n req hit open now st :
  Forall (has_length n) (core_vectors st) →
  if negb (is_rw (type req)) || in_range n (coreid req)
  then ∃ st', first_stats spec req hit open now st = Some st' ∧ Forall (has_length n) (core_vectors st')
  else first_stats spec req hit open now st = None.
Proof.
  unfold core_vectors. rewrite !Forall_cons. intros (H1&H2&H3&H4&H5&H6&_).
  unfold first_stats. destruct (type req); simpl; try (eexists; split; [done|]; by repeat constructor).
  - unfold count_row_read. destruct hit; [|destruct open]; simpl; bump_vector.
  - unfold count_row_write. destruct hit; [|destruct open]; simpl; bump_vector.
Qed.

Lemma record_core_ok n i c :
  sized n c →
  if in_range n i then ∃ r, record_core i c = Some (set_crecord r c) ∧ sized n (set_crecord r c) else record_core i c = None.
Proof.
  intros [Hs Hr]. unfold core_vectors, record_vectors in *. rewrite !Forall_cons in Hs, Hr.
  destruct Hs as (S1&S2&S3&S4&S5&S6&_). destruct Hr as (R1&R2&R3&R4&R5&R6&_). unfold record_core.
  pose proof (at_core_ok n _ _ i S1 R1) as E1. pose proof (at_core_ok n _ _ i S2 R2) as E2.
  pose proof (at_core_ok n _ _ i S3 R3) as E3. pose proof (at_core_ok n _ _ i S4 R4) as E4.
  pose proof (at_core_ok n _ _ i S5 R5) as E5. pose proof (at_core_ok n _ _ i S6 R6) as E6.
  destruct (in_range n i); [|by rewrite E1]. destruct E1 as (?&->&?), E2 as (?&->&?), E3 as (?&->&?), E4 as (?&->&?), E5 as (?&->&?), E6 as (?&->&?).
  simpl. eexists. split; [done|]. split; unfold core_vectors, record_vectors; by repeat constructor.
Qed.

(** *** What preserves the sizes and the cores *)
Section Kept.
Variables (n : nat) (P : Z → Prop).
Abbreviation ok := (cores_ok n P).

Lemma cores_frame c c' :
  cstats c' = cstats c → crecord c' = crecord c → (∀ s, q (queue_of s c') = q (queue_of s c)) → ok c → ok c'.
Proof. intros E1 E2 E3 [Hs Hp]. split; [unfold sized; by rewrite E1, E2|]. intros s. rewrite E3. apply Hp. Qed.

Lemma cores_stats st c : Forall (has_length n) (core_vectors st) → ok c → ok (set_cstats st c).
Proof. intros Hst [[_ Hr] Hp]. split; [by split|]. intros []; [apply (Hp ReadQ)|apply (Hp WriteQ)|apply (Hp OtherQ)]. Qed.

Lemma cores_queue s l c : Forall (rw_core P) l → ok c → ok (set_queue s l c).
Proof. intros Hl [Hs Hp]. split; [by destruct s|]. intros s'. destruct s, s'; simpl; try done; apply (Hp ReadQ) || apply (Hp WriteQ) || apply (Hp OtherQ). Qed.

Lemma cores_insert s j r r' c :
  ok c → q (queue_of s c) !! j = Some r → type r' = type r → coreid r' = coreid r →
  ok (set_queue s (<[j:=r']> (q (queue_of s c))) c).
Proof.
  intros Hc Hj Et Ec. apply cores_queue; [|done]. destruct Hc as [_ Hp]. apply Forall_insert; [apply Hp|].
  specialize (Hp s). rewrite Forall_lookup in Hp. unfold rw_core. rewrite Et, Ec. by apply (Hp j).
Qed.

Lemma cores_delete s j c : ok c → ok (set_queue s (delete j (q (queue_of s c))) c).
Proof. intros Hc. apply cores_queue; [|done]. apply Forall_delete, Hc. Qed.

Lemma cores_accept req c : ok c → rw_core P req → ok (accept req c).
Proof.
  intros Hc Hr. unfold accept. set (c1 := set_queue _ _ c).
  assert (ok c1) as H1.
  { apply cores_queue; [|done]. apply Forall_app. split; [apply Hc|]. by constructor. }
  case_match; [|done]. apply (cores_queue ReadQ (removelast (q (readq c1)))).
  - destruct H1 as [_ Hq]. specialize (Hq ReadQ). simpl in Hq. revert Hq. generalize (q (readq c1)). clear. intros l Hl.
    induction l as [|x [|y l] IH]; [done|constructor|]. apply Forall_cons in Hl as [Hx Hl]. constructor; [done|]. by apply IH.
  - eapply cores_frame; [| | |exact H1]; [done..|by intros []].
Qed.

Lemma cores_enqueue req c : ok c → rw_core P req → ok (snd (enqueue req c)).
Proof. intros Hc Hr. unfold enqueue. case_match; [done|]. by apply cores_accept. Qed.

Lemma cores_refresh_target rank bank sa c c' : ok c → refresh_target spec rank bank sa c = Some c' → ok c'.
Proof.
  intros Hc H. unfold refresh_target in H. run_opt. destruct (enqueue _ c) as [res c1] eqn:He. run_opt.
  match goal with H : enqueue ?r c = _ |- _ => pose proof (cores_enqueue r c Hc) as Hq; rewrite H in Hq end. by apply Hq.
Qed.

Lemma cores_inject b c c' : ok c → inject_refresh spec b c = Some c' → ok c'.
Proof.
  intros Hc H. unfold inject_refresh in H. run_opt. apply (cores_frame x); [done..|].
  eapply (foldM_inv _ ok); [|done|exact Hc]. intros a rank a' Hx Ha. simpl in Hx. case_match; [by eapply cores_refresh_target|].
  run_opt. by eapply cores_refresh_target.
Qed.

Lemma cores_tick_ref c c' : ok c → tick_ref spec c = Some c' → ok c'.
Proof.
  intros Hc H. unfold tick_ref in H. set (c1 := set_refresh _ c) in *.
  assert (ok c1) as H1 by (eapply cores_frame; [| | |exact Hc]; [done..|by intros []]).
  case_match; [by eapply cores_inject|by simplify_eq].
Qed.

Lemma cores_serving a d c c' : ok c → serving spec a d c = Some c' → ok c'.
Proof. unfold serving. intros Hc H. run_opt. eapply cores_frame; [| | |exact Hc]; [done..|by intros []]. Qed.

Lemma cores_issue_cmd cmd a c c' : ok c → issue_cmd spec cmd a c = Some c' → ok c'.
Proof. unfold issue_cmd. intros Hc H. run_opt. case_match; run_opt; (eapply cores_frame; [| | |exact Hc]; [done..|by intros []]). Qed.

Lemma cores_first_command s j r c c' :
  ok c → q (queue_of s c) !! j = Some r → first_command spec s j r c = Some c' → ok c'.
Proof.
  intros Hc Hj H. unfold first_command in H. case_match; [|by simplify_eq].
  assert (ok (set_queue s (<[j:=set_is_first_command false r]> (q (queue_of s c))) c)) as H1 by (by eapply cores_insert).
  case_match; [|by simplify_eq]. run_opt.
  match goal with H : serving _ _ _ _ = Some ?x |- _ => pose proof (cores_serving _ _ _ _ H1 H) as Hc2; rename x into c2 end.
  match goal with H : first_stats _ ?r ?hit ?open ?now ?st = Some ?st' |- _ =>
    pose proof (first_stats_ok n r hit open now st (proj1 (proj1 Hc2))) as Hst; rewrite H in Hst end.
  apply cores_stats; [|done]. case_match; [|done]. destruct Hst as (st'&[= <-]&?). done.
Qed.

Lemma cores_complete s j r c c' : ok c → complete spec s j r c = Some c' → ok c'.
Proof.
  unfold complete. intros Hc H. run_opt. apply cores_delete.
  match goal with H : (if _ then serving _ _ _ ?x else Some _) = _ |- _ => rename H into H1; set (y := x) in * end.
  assert (ok y) as Hy.
  { unfold y. destruct (decide (type r = READ)); [|exact Hc]. apply (cores_frame c); [done..|by intros []|done]. }
  case_decide; [by eapply cores_serving|by simplify_eq].
Qed.

Lemma cores_issue_request s j r c c' :
  ok c → q (queue_of s c) !! j = Some r → issue_request spec s j r c = Some c' → ok c'.
Proof.
  unfold issue_request. intros Hc Hj H. run_opt.
  match goal with H : first_command _ _ _ _ _ = _ |- _ => pose proof (cores_first_command _ _ _ _ _ Hc Hj H) as Hc1 end.
  match goal with H : issue_cmd _ _ _ _ = _ |- _ => pose proof (cores_issue_cmd _ _ _ _ Hc1 H) as Hc2 end.
  case_decide; run_opt; [done|]. by eapply cores_complete.
Qed.

Lemma cores_schedule_with issue c c' :
  (∀ s j r c c', ok c → q (queue_of s c) !! j = Some r → issue s j r c = Some c' → ok c') →
  ok c → schedule_with spec issue c = Some c' → ok c'.
Proof.
  intros Hissue Hc H. unfold schedule_with, pick_request in H. rewrite !bind_Some in H. destruct H as ([c1 ready]&Hp&H).
  rewrite bind_Some in Hp. destruct Hp as ([head t]&_&Hp). run_opt.
  assert (ok (set_rowtable t c)) as H1 by (eapply cores_frame; [| | |exact Hc]; [done..|by intros []]).
  match goal with H : match head with _ => _ end = Some ?x |- _ => rename H into Hr end. destruct ready as [[j r]|].
  - eapply (Hissue (pick_queue c) j r); [exact H1| |done]. destruct head; run_opt; by simplify_eq.
  - case_match; [|by simplify_eq]. run_opt. case_bool_decide; [by simplify_eq|]. by eapply cores_issue_cmd.
Qed.

Lemma cores_serve_pending c done c' : ok c → serve_pending spec c = Some (done, c') → ok c'.
Proof.
  unfold serve_pending. intros Hc H. destruct (pending c) as [|r rest]; [by simplify_eq|]. case_match; [|by simplify_eq]. run_opt.
  match goal with H : (if _ then serving _ _ _ _ else _) = Some ?x |- _ => apply (cores_frame x); [done..|by intros []|] end.
  case_match; [|by simplify_eq]. eapply cores_serving; [|done]. apply cores_stats; [apply Hc|done].
Qed.

Lemma cores_switch_mode c : ok c → ok (switch_mode c).
Proof. intros Hc. unfold switch_mode. repeat case_match; try done; (eapply cores_frame; [| | |exact Hc]; [done..|by intros []]). Qed.

Lemma cores_tick_clk c : ok c → ok (tick_clk c).
Proof. intros Hc. unfold tick_clk. apply cores_stats; [apply Hc|]. eapply cores_frame; [| | |exact Hc]; [done..|by intros []]. Qed.

Lemma cores_tick_with issue c done c' :
  (∀ s j r c c', ok c → q (queue_of s c) !! j = Some r → issue s j r c = Some c' → ok c') →
  ok c → tick_with spec issue c = Some (done, c') → ok c'.
Proof.
  intros Hissue Hc H. unfold tick_with in H. rewrite bind_Some in H. destruct H as ([dn c1]&Hs&H). run_opt.
  eapply cores_schedule_with; [exact Hissue| |done]. eapply cores_switch_mode, cores_tick_ref; [|done].
  eapply cores_serve_pending; [|done]. by apply cores_tick_clk.
Qed.

Lemma cores_tick c done c' : ok c → tick spec c = Some (done, c') → ok c'.
Proof. apply cores_tick_with. intros s j r x x'. apply cores_issue_request. Qed.

Lemma cores_new d : ok (new_controller n d).
Proof.
  split; [|intros []; constructor]. split; unfold core_vectors, record_vectors; simpl;
    repeat constructor; apply length_replicate.
Qed.

Lemma cores_record i c c' : ok c → record_core i c = Some c' → ok c'.
Proof.
  intros [Hs Hp] H. pose proof (record_core_ok n i c Hs) as Hr. rewrite H in Hr. case_match; [|done].
  destruct Hr as (r&[= ->]&?). split; [done|]. intros []; [apply (Hp ReadQ)|apply (Hp WriteQ)|apply (Hp OtherQ)].
Qed.
End Kept.

(** The number of counters. *)
Definition num_cores (c : Controller L C S) : nat := length (read_row_hits (cstats c)).

Lemma sized_num n c : sized n c → num_cores c = n.
Proof. intros [Hs _]. by apply Forall_inv in Hs. Qed.

(** Without a condition on the cores. *)
Lemma sized_any n c : sized n c ↔ cores_ok n (λ _, True) c.
Proof. split; [|by intros []]. intros H. split; [done|]. intros s. apply Forall_forall. by intros r _ _. Qed.

(** A queued request whose core is in range is counted. *)
Lemma cores_counted n c s j r :
  cores_in (λ i, 0 ≤ i < Z.of_nat n) c → q (queue_of s c) !! j = Some r → counted n r = true.
Proof.
  intros Hp Hj. specialize (Hp s). rewrite Forall_lookup in Hp. specialize (Hp _ _ Hj). unfold counted, rw_core in *.
  destruct (is_rw (type r)); [|by rewrite andb_false_r]. apply orb_true_intro. right. apply in_range_true. by apply Hp.
Qed.
End Cores.

Section Inv.
Context {L C S : Type} `{!EqDecision L, !EqDecision C, !EqDecision S}.
Variables (spec : Spec L C S) (pr : Proto L C S).
Context `{CL : !ChanLaws spec pr}.

Abbreviation power := (power_idx spec pr).
Abbreviation bank := (bank_idx spec).

(** ** The commands issued *)

(** Commands issued in legal order, at most one per cycle. *)
Inductive legal_history : list (event (C := C)) → Prop :=
| Legal_nil : legal_history []
| Legal_cons h c a x :
    legal_history h → Forall (λ e, snd e < x) h → legal spec h c a x → legal_history ((c, a, x) :: h).

Lemma device_check_legal i h d c a x :
  device_ok spec pr i h d → addr_ok spec a → a !! 0%nat = Some i → 0 ≤ x →
  check spec c a x d = Some true → legal spec h c a x.
Proof.
  intros (Ht&_&_) Ha Hi Hx Hc.
  destruct (check_inv spec h [] i d a c x Ht) as (b&Hb&Hiff); [done..| |].
  - inversion Ht as [?? n cs Hn]; subst. apply visited_root.
    destruct (cast_int (spec := spec) 0) as [l Hl]; [pose proof (row_lt (spec:=spec)); lia|].
    rewrite Hl. f_equal. apply level_int_inj. rewrite (int_cast _ _ Hl). simpl. symmetry. apply (ni_level _ _ _ _ _ Hn).
  - rewrite Hc in Hb. injection Hb as <-. apply legal_root. by apply Hiff.
Qed.

(** ** The channel and the row table *)

Definition mirror (i : Z) (d : DRAM L C S) (t : RowTable) : Prop :=
  ∀ rg, row <$> t !! rg = open_at spec i d rg.

Lemma row_idx_bank : row_idx spec = (bank + 1)%nat.
Proof. unfold row_idx. pose proof (bp_levels spec pr). lia. Qed.

(** Erasing the entries below a node. *)
Lemma mirror_close i d d' t (k : nat) a rg0 r0 :
  mirror i d t → (k + 1 ≤ row_idx spec)%nat →
  open_at spec i d rg0 = Some r0 → take (k + 1) rg0 = take (k + 1) a →
  (∀ rg, open_at spec i d' rg = if decide (take (k + 1) rg = take (k + 1) a) then None else open_at spec i d rg) →
  ∃ t', table_close spec k a t = Some t' ∧ mirror i d' t'.
Proof.
  intros Hm Hk Ho Hrg Hd'. unfold table_close. rewrite decide_True by done.
  set (t' := filter _ t). assert (size t' < size t)%nat as Hsize.
  { apply map_subset_size. split; [apply map_filter_subseteq|]. intros Hsub.
    pose proof (Hm rg0) as H0. rewrite Ho in H0. destruct (t !! rg0) as [e|] eqn:He; simplify_eq/=.
    eapply lookup_weaken in He; [|exact Hsub]. apply map_lookup_filter_Some in He as [_ Hne]. by apply Hne. }
  rewrite bool_decide_true by done. exists t'. split; [done|]. intros rg. rewrite Hd', <-Hm.
  case_decide as E.
  - destruct (t' !! rg) as [e|] eqn:He; [|done]. apply map_lookup_filter_Some in He as [_ Hne]. by destruct Hne.
  - f_equal. unfold t'. destruct (t !! rg) as [e|] eqn:He.
    + by apply map_lookup_filter_Some.
    + apply map_lookup_filter_None. by left.
Qed.

Lemma open_at_short i d k rg a :
  take (bank + 1) rg = take (bank + 1) a → (bank + 1 ≤ length a)%nat → open_at spec i d rg = Some k →
  rg = take (bank + 1) a.
Proof.
  unfold open_at. case_decide as E; [|done]. intros Ht _ _. destruct E as [E _]. by rewrite <-Ht, take_ge by lia.
Qed.

Lemma open_at_length i d rg r : open_at spec i d rg = Some r → length rg = (bank + 1)%nat.
Proof. unfold open_at. case_decide; naive_solver. Qed.

(** What each command does to the row table. *)
Lemma cmd_flags c b1 b2 b3 :
  (c = p_ACT pr ∧ (b1, b2, b3) = (true, false, false)) ∨
  ((c = p_RD pr ∨ c = p_WR pr) ∧ (b1, b2, b3) = (false, true, false)) ∨
  ((c = cmd_PRE spec ∨ c = p_PREA pr) ∧ (b1, b2, b3) = (false, false, true)) ∨
  ((c = p_PDX pr ∨ c = p_SRX pr ∨ c = p_REF pr) ∧ (b1, b2, b3) = (false, false, false)) →
  is_opening spec c = b1 ∧ is_accessing spec c = b2 ∧ is_closing spec c = b3.
Proof.
  pose proof (bp_cmds spec pr) as Hnd. rewrite !NoDup_cons, !not_elem_of_cons in Hnd. destruct_and!.
  intros H'. assert (c ∈ [p_RD pr; p_WR pr; p_ACT pr; cmd_PRE spec; p_PREA pr; p_REF pr; p_PDX pr; p_SRX pr]) as Hin.
  { rewrite !elem_of_cons. tauto. }
  rewrite (cl_opening (pr:=pr)), (cl_accessing (pr:=pr)), (cl_closing (pr:=pr)) by done.
  assert (∀ x y : C, x ≠ y → x = y ∨ y = x → False) as Hne by naive_solver.
  destruct H' as [[-> E]|[[[-> | ->] E]|[[[-> | ->] E]|[[->|[->| ->]] E]]]]; injection E as -> -> ->; split_and!;
    first [apply bool_decide_eq_true; first [reflexivity|left; reflexivity|right; reflexivity]
          |apply bool_decide_eq_false; intros E; try destruct E as [E|E];
           match goal with H : ?x ≠ ?y |- _ => apply (Hne x y H); first [left; exact E|right; exact E] end].
Qed.

(** [RowTable::update] follows the device. *)
Lemma rowtable_mirror i a c x d d' t :
  row_effect spec pr i a d d' c → (length a = level_MAX spec)%nat → mirror i d t →
  ∃ t', rowtable_update spec c a x t = Some t' ∧ mirror i d' t'.
Proof.
  intros He Hlen Hm. pose proof (bp_levels spec pr) as [Hpb Hbr]. pose proof (row_lt (spec:=spec)).
  destruct (lookup_lt_is_Some_2 a (bank + 1)) as [r Hr]; [lia|].
  unfold rowtable_update. rewrite row_idx_bank, Hr; cbn [mbind option_bind].
  destruct He as [r' Hr' Hno Hd'|r' Ho Hd'|c r' Hc Hr' Ho Hd'|rg r' Ho Hrg Hd'|c Hc Hd'].
  - destruct (cmd_flags (p_ACT pr) true false false) as (->&->&->); [tauto|]. simpl.
    assert (r' = r) as -> by congruence. unfold table_open, rowgroup. rewrite row_idx_bank.
    pose proof (Hm (take (bank + 1) a)) as H0. rewrite Hno in H0.
    destruct (t !! take (bank + 1) a) eqn:Ht; [done|]. eexists; split; [done|]. intros rg. rewrite Hd'.
    case_decide as E; [by subst; rewrite lookup_insert_eq|by rewrite lookup_insert_ne].
  - destruct (cmd_flags (cmd_PRE spec) false false true) as (->&->&->); [tauto|]. simpl.
    rewrite cl_scope_pre. fold bank.
    eapply mirror_close; [done|rewrite row_idx_bank; lia|done|by rewrite take_take, Nat.min_id|].
    intros rg. rewrite Hd'. destruct (decide (rg = _)) as [->|Hne]; [by rewrite decide_True by (by rewrite take_take, Nat.min_id)|].
    case_decide as E; [|done]. destruct (open_at spec i d rg) eqn:Hrg; [|done].
    destruct Hne. eapply open_at_short; [done|lia|done].
  - destruct (cmd_flags c false true false) as (->&->&->); [tauto|]. simpl.
    assert (r' = r) as -> by congruence. unfold table_access, rowgroup. rewrite row_idx_bank.
    pose proof (Hm (take (bank + 1) a)) as H0. rewrite Ho in H0.
    destruct (t !! take (bank + 1) a) as [e|] eqn:Ht; [|done]. simpl in H0 |- *. injection H0 as He. rewrite He, Z.eqb_refl; simpl.
    eexists; split; [done|]. intros rg. rewrite Hd', <-Hm.
    destruct (decide (rg = take (bank + 1) a)) as [->|Hne]; [rewrite lookup_insert_eq, Ht; simpl; congruence|by rewrite lookup_insert_ne].
  - destruct (cmd_flags (p_PREA pr) false false true) as (->&->&->); [tauto|]. simpl.
    rewrite (bp_scope_power spec pr) by set_solver. fold power.
    eapply mirror_close; [done|rewrite row_idx_bank; lia|done|done|done].
  - destruct (cmd_flags c false false false) as (->&->&->); [tauto|]. simpl.
    exists t. split; [done|]. intros rg. by rewrite Hd'.
Qed.

(** ** The channel, its history, and the table *)

Record chan_inv (i : Z) (h : list (event (C := C))) (x : Z) (d : DRAM L C S) (t : RowTable) : Prop := {
  chan_device : device_ok spec pr i h d;
  chan_legal : legal_history h;
  chan_past : Forall (λ e, snd e ≤ x) h;
  chan_mirror : mirror i d t;
  chan_clk : 0 ≤ x
}.

Lemma chan_bare i h x d d' t : bare d' = bare d → chan_inv i h x d t → chan_inv i h x d' t.
Proof.
  intros E [Hd Hl Hp Hm Hx]. split; [by eapply bare_device_ok|done|done| |done].
  intros rg. by rewrite Hm, (bare_open_at spec i d d' rg E).
Qed.

Lemma chan_later i h x y d t : x ≤ y → chan_inv i h x d t → chan_inv i h y d t.
Proof. intros Hxy [Hd Hl Hp Hm Hx]. split; auto; [|lia]. eapply Forall_impl; [exact Hp|]. simpl. lia. Qed.

Lemma chan_shaped i h x d t : chan_inv i h x d t → shaped spec 0 d.
Proof. intros [Hd _ _ _ _]. by eapply device_shaped. Qed.

Lemma chan_id i h x d t : chan_inv i h x d t → nid (info d) = i.
Proof. intros [[Ht _] _ _ _ _]. inversion Ht; subst. simpl. by apply (ni_id _ _ _ _ _ H). Qed.

(** Issuing the command a request needs. *)
Lemma chan_issue i h r c x d t :
  chan_inv i h x d t → Forall (λ e, snd e < x) h → request_wf spec pr i r →
  decode spec (translate spec (type r)) (addr_vec r) d = Some c → check spec c (addr_vec r) x d = Some true →
  ∃ d' t', update spec c (addr_vec r) x d = Some d' ∧ rowtable_update spec c (addr_vec r) x t = Some t' ∧
    chan_inv i ((c, addr_vec r, x) :: h) x d' t' ∧
    ∀ act, serve_inv act [] i d → serve_inv act [] i d'.
Proof.
  intros Hch Hpast Hwf Hdec Hck. pose proof (chan_shaped _ _ _ _ _ Hch) as Hsh.
  destruct Hch as [Hd Hl Hp Hm Hx].
  destruct (request_update spec pr i h (translate spec (type r)) (addr_vec r) x d)
    as (c'&d1&d'&Hdec'&Hu&Hd'&Hmv&Ht&Hsk&Hsh1); [done|by eapply wf_request_ok|done|].
  rewrite Hdec in Hdec'. injection Hdec' as <-.
  pose proof (wf_addr_ok spec pr i r Hwf) as Ha. pose proof (wf_head spec pr i r Hwf) as H0.
  destruct (rowtable_mirror i (addr_vec r) c x (on_info (set_cur_clk x) d) d1 t) as (t'&Ht'&Hm').
  - apply moved_effect; [apply _|by apply shaped_clk|done|apply bank_inv_clk, Hd|done|done].
  - apply Ha.
  - intros rg. by rewrite (open_at_clk spec pr) by done.
  - exists d', t'. split_and!; [done|done|split|].
    + done.
    + apply Legal_cons; [done|done|]. by eapply device_check_legal.
    + by constructor; [|].
    + intros rg. rewrite Hm'. symmetry. by eapply (open_at_timing spec).
    + done.
    + intros act Hs. eapply update_timing_serving; [done|]. by eapply serve_inv_skel.
Qed.

(** Counting a request in or out. *)
Lemma chan_serving i h x d t a act delta :
  chan_inv i h x d t → rw_addr spec i a → delta = 1 ∨ delta = -1 →
  serve_inv (if decide (delta = 1) then act else a :: act) [] i d →
  ∃ d', update_serving_requests spec a delta x d = Some d' ∧ chan_inv i h x d' t ∧ bare d' = bare d ∧
    serve_inv (if decide (delta = 1) then a :: act else act) [] i d'.
Proof.
  intros Hch (_&Ha&H0) Hdelta Hs. pose proof (bp_levels spec pr) as [Hpb Hbr].
  destruct (update_serving_ok spec act a delta x 0 d [] i) as (d'&Hd'&Hs'&Hb); try done; try lia.
  - apply Hch.
  - by eapply chan_shaped.
  - by destruct a as [|? a]; simplify_eq/=.
  - by eapply chan_id.
  - exists d'. split_and!; [done|by eapply chan_bare|done|done].
Qed.

End Inv.
