(* ===== verification/ControllerTick.v ===== *)
(** * The phases of the controller's cycle

    The invariant of the whole controller, and for each phase of [tick] and for
    [enqueue] the proof that it returns and preserves the invariant. *)

From S2P Require Import Prelude Request Dram DramTiming BankProtocol Device BankMap Serving.
From S2P Require Import Scheduler SchedulerTheorems Controller CtrlQueries ControllerInv.

Section Tick.
Context {L C S : Type} `{!EqDecision L, !EqDecision C, !EqDecision S}.
Variables (spec : Spec L C S) (pr : Proto L C S).
Context `{CL : !ChanLaws spec pr}.

(** Whether the queues are bounded: an HMC vault in PIM mode accepts requests
    beyond their [max]. *)
Context {lim : bool}.

Abbreviation bank := (bank_idx spec).

(** ** The invariant *)

(** The addresses of the reads and writes whose first command was issued. *)
Definition begun (l : list Request) : list (list Z) :=
  map addr_vec (filter (λ r, is_first_command r = false) l).
Definition waiting (l : list Request) : list (list Z) :=
  map addr_vec (filter (λ r, 1 < depart r - arrive r) l).
Definition started (c : Controller L C S) : list (list Z) :=
  begun (q (readq c)) ++ begun (q (writeq c)) ++ waiting (pending c).

(** A queue holds requests of its type. *)
Definition queued (i x : Z) (s : QSel) (r : Request) : Prop :=
  get_queue (type r) = s ∧ request_wf spec pr i r ∧ arrive r ≤ x.

Record ctrl_core_inv (i : Z) (h : list (event (C := C))) (c : Controller L C S) : Prop := {
  ci_chan : chan_inv spec pr i h (clk c) (channel c) (rowtable c);
  ci_queued s : Forall (queued i (clk c) s) (q (queue_of s c));
  ci_pending : Forall (λ r, type r = READ ∧ request_wf spec pr i r) (pending c);
  ci_serving : serve_inv (started c) [] i (channel c);
  ci_size s : lim = true → qsize (queue_of s c) ≤ qmax (queue_of s c);
  ci_real : no_DRAM_latency c = false;
  ci_sched : sched_type (scheduler c) ≠ FRFCFS_Cap;
  ci_policy : policy_type (rowpolicy c) = OpenedRow;
  ci_trace : cmd_trace c = h
}.

(** ** Members and queues *)
Lemma queue_of_set s s' l (c : Controller L C S) :
  queue_of s' (set_queue s l c) = if decide (s = s') then set_q l (queue_of s c) else queue_of s' c.
Proof. by destruct s, s'. Qed.

Lemma set_queue_frame s l (c : Controller L C S) :
  clk (set_queue s l c) = clk c ∧ channel (set_queue s l c) = channel c ∧
  scheduler (set_queue s l c) = scheduler c ∧ rowpolicy (set_queue s l c) = rowpolicy c ∧
  rowtable (set_queue s l c) = rowtable c ∧ refresh (set_queue s l c) = refresh c ∧
  pending (set_queue s l c) = pending c ∧ no_DRAM_latency (set_queue s l c) = no_DRAM_latency c ∧
  cmd_trace (set_queue s l c) = cmd_trace c.
Proof. by destruct s. Qed.

Lemma delete_insert_list {A} (l : list A) i x : delete i (<[i:=x]> l) = delete i l.
Proof. revert i. induction l as [|y l IH]; intros [|i]; simpl; try done. f_equal. apply IH. Qed.

Lemma begun_app l l' : begun (l ++ l') = begun l ++ begun l'.
Proof. unfold begun. by rewrite filter_app, map_app. Qed.

Lemma begun_lookup l i r :
  l !! i = Some r →
  begun l ≡ₚ (if is_first_command r then [] else [addr_vec r]) ++ begun (delete i l).
Proof.
  intros Hi. rewrite (delete_take_drop l i), <-(take_drop_middle l i r Hi) at 1.
  rewrite !begun_app. unfold begun at 2. rewrite filter_cons.
  destruct (is_first_command r); simpl; [done|]. by rewrite Permutation_middle.
Qed.

Lemma begun_insert l i r r' :
  l !! i = Some r →
  begun (<[i:=r']> l) ≡ₚ (if is_first_command r' then [] else [addr_vec r']) ++ begun (delete i l).
Proof.
  intros Hi. rewrite (begun_lookup _ i r') by (by apply list_lookup_insert_eq, (lookup_lt_Some _ _ r)).
  f_equiv. f_equiv. by rewrite delete_insert_list.
Qed.

(** The requests in flight after a queue changes. *)
Lemma started_set s l (c : Controller L C S) (x y : list (list Z)) :
  s ≠ OtherQ → x ++ begun l ≡ₚ y ++ begun (q (queue_of s c)) →
  x ++ started (set_queue s l c) ≡ₚ y ++ started c.
Proof.
  unfold started. destruct s; [| |done]; intros _ H; simpl in *.
  - by rewrite !(assoc_L (++)), H.
  - rewrite (Permutation_app_comm (begun (q (readq c)))), (Permutation_app_comm (begun (q (readq c)))).
    rewrite <-!(assoc_L (++)), !(assoc_L (++) x), !(assoc_L (++) y). by rewrite H.
Qed.

Lemma started_other l (c : Controller L C S) : started (set_queue OtherQ l c) = started c.
Proof. done. Qed.

Lemma started_same s l (c : Controller L C S) :
  begun l ≡ₚ begun (q (queue_of s c)) → started (set_queue s l c) ≡ₚ started c.
Proof.
  intros H. destruct (decide (s = OtherQ)) as [->|Hs]; [done|]. by apply (started_set s l c [] [] Hs).
Qed.

Lemma wf_ext i r r' :
  type r' = type r → addr_vec r' = addr_vec r → request_wf spec pr i r → request_wf spec pr i r'.
Proof. unfold request_wf. by intros -> ->. Qed.

(** ** Member updates and the invariant *)

(** Members the invariant does not mention. *)
Lemma inv_frame i h c c' :
  clk c' = clk c → channel c' = channel c → rowtable c' = rowtable c → (∀ s, queue_of s c' = queue_of s c) →
  pending c' = pending c → no_DRAM_latency c' = no_DRAM_latency c → scheduler c' = scheduler c →
  rowpolicy c' = rowpolicy c → cmd_trace c' = cmd_trace c → ctrl_core_inv i h c → ctrl_core_inv i h c'.
Proof.
  intros E1 E2 E3 E4 E5 E6 E7 E8 E9 [H1 H2 H3 H4 H5 H6 H7 H8 H9].
  assert (started c' = started c) as Es.
  { unfold started. pose proof (E4 ReadQ) as Er. pose proof (E4 WriteQ) as Ew. simpl in Er, Ew. by rewrite Er, Ew, E5. }
  split; rewrite ?E1, ?E2, ?E3, ?E5, ?E6, ?E7, ?E8, ?E9, ?Es; try done; intros s; rewrite ?E4; apply H2 || apply H5.
Qed.

Lemma inv_set_queue i h s l c :
  ctrl_core_inv i h c → Forall (queued i (clk c) s) l → (lim = true → Z.of_nat (length l) ≤ qmax (queue_of s c)) →
  serve_inv (started (set_queue s l c)) [] i (channel c) → ctrl_core_inv i h (set_queue s l c).
Proof.
  intros [H1 H2 H3 H4 H5 H6 H7 H8 H9] Hl Hlen Hs.
  destruct (set_queue_frame s l c) as (E1&E2&E3&E4&E5&E6&E7&E8&E9).
  split; rewrite ?E1, ?E2, ?E3, ?E4, ?E5, ?E6, ?E7, ?E8, ?E9; try done;
    intros s'; rewrite queue_of_set; case_decide; subst; try done; apply H2 || apply H5.
Qed.

Lemma inv_set_queue_same i h s l c :
  ctrl_core_inv i h c → Forall (queued i (clk c) s) l → (lim = true → Z.of_nat (length l) ≤ qmax (queue_of s c)) →
  begun l ≡ₚ begun (q (queue_of s c)) → ctrl_core_inv i h (set_queue s l c).
Proof.
  intros Hc Hl Hlen Hb. apply inv_set_queue; try done.
  eapply serve_inv_perm; [symmetry; by apply started_same|apply Hc].
Qed.

Lemma inv_set_pending i h l c :
  ctrl_core_inv i h c → Forall (λ r, type r = READ ∧ request_wf spec pr i r) l →
  serve_inv (started (set_pending l c)) [] i (channel c) → ctrl_core_inv i h (set_pending l c).
Proof. intros [H1 H2 H3 H4 H5 H6 H7 H8 H9] Hl Hs. by split. Qed.

Lemma inv_set_channel i h d c act :
  ctrl_core_inv i h c → chan_inv spec pr i h (clk c) d (rowtable c) → act ≡ₚ started c → serve_inv act [] i d →
  ctrl_core_inv i h (set_channel d c).
Proof.
  intros [H1 H2 H3 H4 H5 H6 H7 H8 H9] Hd Ha Hs.
  split; try done. by eapply serve_inv_perm.
Qed.

(** ** [enqueue] *)
Lemma accept_ok i h c req :
  ctrl_core_inv i h c → request_wf spec pr i req → is_first_command req = true →
  (lim = true → qsize (queue_of (get_queue (type req)) c) < qmax (queue_of (get_queue (type req)) c)) →
  ctrl_core_inv i h (accept req c).
Proof.
  intros Hc Hwf Hfirst Hroom. unfold accept. set (s := get_queue (type req)) in *.
  set (req1 := set_arrive (clk c) req). set (c1 := set_queue s (q (queue_of s c) ++ [req1]) c).
  assert (request_wf spec pr i req1) as Hwf1 by (by eapply wf_ext; [| |exact Hwf]).
  assert (ctrl_core_inv i h c1) as Hc1.
  { apply inv_set_queue_same; [done|apply Forall_app; split; [apply Hc|]| |].
    - constructor; [|done]. split_and!; [done|done|simpl; lia].
    - intros Hlim. specialize (Hroom Hlim). rewrite length_app. simpl. unfold qsize in *. lia.
    - rewrite begun_app. unfold begun at 2. rewrite filter_cons. simpl. rewrite Hfirst. simpl. by rewrite app_nil_r. }
  destruct (bool_decide (type req1 = READ) && _) eqn:Hf; simpl; [|done].
  apply andb_prop in Hf as [Hread%bool_decide_eq_true _].
  assert (s = ReadQ) as Hs by (unfold s; simpl in Hread; by rewrite Hread).
  unfold c1 in *. clearbody s. subst s. simpl in *. rewrite removelast_last.
  apply (inv_set_pending i h (pending c ++ [set_depart (clk c + 1) req1]) c) in Hc.
  - apply (inv_frame i h (set_pending (pending c ++ [set_depart (clk c + 1) req1]) c)); try done.
    intros []; simpl; [by destruct (readq c)|done..].
  - apply Forall_app; split; [apply Hc|]. constructor; [|done]. split; [done|by eapply wf_ext; [| |exact Hwf]].
  - eapply serve_inv_perm; [|apply Hc]. unfold started; simpl. unfold waiting. rewrite filter_app, map_app.
    rewrite (filter_cons _ (set_depart _ _)). simpl. rewrite decide_False by lia. by rewrite app_nil_r.
Qed.

(** ** The clock and the pending reads *)

(** Between the start of a cycle and its command, everything issued is
    older than the clock. *)
Definition fresh (h : list (event (C := C))) (c : Controller L C S) : Prop := Forall (λ e, snd e < clk c) h.

Lemma tick_clk_ok i h c : ctrl_core_inv i h c → ctrl_core_inv i h (tick_clk c) ∧ fresh h (tick_clk c).
Proof.
  intros Hc. destruct (id Hc) as [H1 H2 H3 H4 H5 H6 H7 H8 H9]. split.
  - split; try done; [apply (chan_later _ _ _ _ (clk c)); [simpl; lia|done]|].
    intros s. eapply Forall_impl; [apply H2|]. intros r (?&?&?). split_and!; [done..|]. simpl. lia.
  - eapply Forall_impl; [apply (chan_past _ _ _ _ _ _ _ H1)|]. simpl. intros e ?. lia.
Qed.

Lemma read_wf i r : type r = READ → request_wf spec pr i r → rw_addr spec i (addr_vec r).
Proof. unfold request_wf. by intros ->. Qed.

Lemma waiting_cons r l :
  waiting (r :: l) = (if 1 <? depart r - arrive r then [addr_vec r] else []) ++ waiting l.
Proof.
  unfold waiting. rewrite filter_cons. destruct (1 <? depart r - arrive r) eqn:E.
  - by rewrite decide_True by lia.
  - by rewrite decide_False by lia.
Qed.

(** Counting a request in or out, on the controller. *)
Lemma serving_ok i h c a act delta :
  ctrl_core_inv i h c → rw_addr spec i a → delta = 1 ∨ delta = -1 →
  (if decide (delta = 1) then act else a :: act) ≡ₚ started c →
  ∃ d', serving spec a delta c = Some (set_channel d' c) ∧ chan_inv spec pr i h (clk c) d' (rowtable c) ∧
    bare d' = bare (channel c) ∧ serve_inv (if decide (delta = 1) then a :: act else act) [] i d'.
Proof.
  intros Hc Ha Hd Hp. destruct (chan_serving spec pr i h (clk c) (channel c) (rowtable c) a act delta)
    as (d'&Hu&Hch&Hb&Hs); [apply Hc|done|done| |].
  - eapply serve_inv_perm; [symmetry; exact Hp|apply Hc].
  - exists d'. unfold serving. by rewrite Hu.
Qed.

(** The read at the head is completed when its time has come. *)
Lemma serve_pending_ok i h c :
  ctrl_core_inv i h c →
  ∃ done c', serve_pending spec c = Some (done, c') ∧ ctrl_core_inv i h c' ∧ clk c' = clk c ∧
    pending c = done ++ pending c' ∧ Forall (λ r, depart r ≤ clk c) done ∧
    (∀ s, queue_of s c' = queue_of s c) ∧ refresh c' = refresh c.
Proof.
  intros Hc. unfold serve_pending. destruct (pending c) as [|r rest] eqn:Hp; [exists [], c; by rewrite Hp|].
  destruct (depart r <=? clk c) eqn:Hd; [|exists [], c; by rewrite Hp]. apply Z.leb_le in Hd.
  pose proof (ci_pending _ _ _ Hc) as Hpend. rewrite Hp in Hpend. apply Forall_cons in Hpend as [[Hr Hwf] Hrest].
  set (st := set_cstats _ c). destruct (1 <? depart r - arrive r) eqn:Hlat; simpl.
  - assert (ctrl_core_inv i h st) as Hst by (by apply (inv_frame i h c)).
    destruct (serving_ok i h st (addr_vec r) (begun (q (readq c)) ++ begun (q (writeq c)) ++ waiting rest) (-1))
      as (d'&Hu&Hch&_&Hs); [done|by apply read_wf|by right| |].
    { simpl. unfold started; simpl. rewrite Hp, waiting_cons, Hlat. simpl. rewrite !(assoc_L (++)).
      by rewrite Permutation_middle. }
    rewrite Hu; simpl. eexists [r], _. split; [done|]. split_and!; try done; [|by constructor].
    destruct Hst as [H1 H2 H3 H4 H5 H6 H7 H8 H9]. by split.
  - eexists [r], _. split; [done|]. split_and!; try done; [|by constructor].
    apply inv_set_pending; [done|done|]. eapply serve_inv_perm; [|apply Hc].
    unfold started; simpl. by rewrite Hp, waiting_cons, Hlat.
Qed.

(** ** Scheduling *)

(** What the controller answers about a queued request. *)
Lemma queue_answers i h c s r :
  ctrl_core_inv i h c → r ∈ q (queue_of s c) →
  ∃ ready hit open, is_ready spec c r = Some ready ∧ is_row_hit spec c r = Some hit ∧ is_row_open spec c r = Some open.
Proof.
  intros Hc Hr. pose proof (ci_queued _ _ _ Hc s) as Hq. rewrite Forall_forall in Hq.
  destruct (Hq _ Hr) as (_&Hwf&_).
  destruct (wf_answers spec pr i h r (channel c) (clk c) Hwf) as (cmd&ready&hit&open&Hdec&Hck&Hh&Ho);
    [apply Hc|apply Hc|]. exists ready, hit, open. split_and!; [|done|done].
  unfold is_ready, get_first_cmd. rewrite (ci_real _ _ _ Hc), Hdec. done.
Qed.

(** The head of the queue: an index of it, and the row table is kept. *)
Lemma head_ok i h c s :
  ctrl_core_inv i h c →
  ∃ o, get_head spec (view_of spec c) (scheduler c) (q (queue_of s c)) (rowtable c) = Some (o, rowtable c) ∧
    match o with None => q (queue_of s c) = [] | Some j => is_Some (q (queue_of s c) !! j) end.
Proof.
  intros Hc. set (l := q (queue_of s c)). destruct (decide (l = [])) as [->|Hl]; [by exists None|].
  set (val := λ (f : Request → option bool) r, default false (f r)).
  assert (∀ r, r ∈ l → is_ready spec c r = Some (val (is_ready spec c) r) ∧
    is_row_hit spec c r = Some (val (is_row_hit spec c) r) ∧ is_row_open spec c r = Some (val (is_row_open spec c) r)) as Hall.
  { intros r Hr. destruct (queue_answers i h c s r Hc Hr) as (?&?&?&E1&E2&E3). unfold val. by rewrite E1, E2, E3. }
  pose proof (ci_sched _ _ _ Hc) as Hs.
  destruct (decide (sched_type (scheduler c) = FRFCFS_PriorHit)) as [Hty|Hty].
  - destruct (get_head_prior spec (view_of spec c) l (val (is_ready spec c)) (val (is_row_hit spec c))
      (val (is_row_open spec c))) with (sch := scheduler c) (t := rowtable c) as (j&Hj&Hb);
      [intros r Hr; by apply Hall..|done|done|].
    exists (Some j). split; [exact Hj|]. case_decide; destruct Hb as (_&r&Hr&_); by exists r.
  - destruct (scan_plain spec (view_of spec c) l (val (is_ready spec c))) with (cap := cap (scheduler c))
      (ty := sched_type (scheduler c)) (t := rowtable c) as (j&Hj&_&r&Hr&_); [intros r Hr; by apply Hall| |done|].
    { destruct (sched_type (scheduler c)); auto; done. }
    exists (Some j). split; [|by exists r]. unfold get_head. destruct l as [|r0 l0] eqn:El; [done|].
    rewrite Hj; simpl. by rewrite decide_False.
Qed.

Lemma queued_insert i x s l j r r' :
  Forall (queued i x s) l → l !! j = Some r → type r' = type r → addr_vec r' = addr_vec r → arrive r' = arrive r →
  Forall (queued i x s) (<[j:=r']> l).
Proof.
  intros Hl Hj Et Ea Er. apply Forall_insert; [done|]. rewrite Forall_lookup in Hl.
  destruct (Hl _ _ Hj) as (?&?&?). split_and!; [congruence|by eapply wf_ext|congruence].
Qed.

Lemma inv_step i h s l d t c :
  ctrl_core_inv i h c → chan_inv spec pr i h (clk c) d t → Forall (queued i (clk c) s) l →
  (lim = true → Z.of_nat (length l) ≤ qmax (queue_of s c)) → serve_inv (started (set_queue s l c)) [] i d →
  ctrl_core_inv i h (set_rowtable t (set_channel d (set_queue s l c))).
Proof.
  intros [H1 H2 H3 H4 H5 H6 H7 H8 H9] Hch Hl Hlen Hs.
  destruct (set_queue_frame s l c) as (E1&E2&E3&E4&E5&E6&E7&E8&E9).
  assert (∀ s', queue_of s' (set_rowtable t (set_channel d (set_queue s l c))) =
    if decide (s = s') then set_q l (queue_of s c) else queue_of s' c) as Eq by (by destruct s; intros []).
  split; simpl; rewrite ?E1, ?E2, ?E3, ?E4, ?E5, ?E6, ?E7, ?E8, ?E9; try done;
    intros s'; rewrite Eq; case_decide; subst; try done; apply H2 || apply H5.
Qed.

Lemma set_queue_id s (c : Controller L C S) : set_queue s (q (queue_of s c)) c = c.
Proof. destruct s, c as [? ? ? ? ? ? [] [] []]; done. Qed.

Lemma set_rowtable_id (c : Controller L C S) : set_rowtable (rowtable c) c = c.
Proof. by destruct c. Qed.

Lemma queue_set_queue s l (c : Controller L C S) : q (queue_of s (set_queue s l c)) = l.
Proof. by destruct s. Qed.

Lemma inv_issue i h cmd a d t c :
  ctrl_core_inv i h c → chan_inv spec pr i ((cmd, a, clk c) :: h) (clk c) d t → serve_inv (started c) [] i d →
  ctrl_core_inv i ((cmd, a, clk c) :: h) (record_cmd cmd a (set_rowtable t (set_channel d c))).
Proof.
  intros [H1 H2 H3 H4 H5 H6 H7 H8 H9] Hch Hs. split; try done. simpl. by rewrite H9.
Qed.

Lemma queued_rw i x s r : queued i x s r → is_rw (type r) = true → rw_addr spec i (addr_vec r) ∧ s ≠ OtherQ.
Proof. intros (Hs&Hwf&_) Hrw. unfold request_wf in Hwf. destruct (type r); simpl in Hs; subst; try done. Qed.

Lemma queued_not_rw i x s r : queued i x s r → is_rw (type r) = false → s = OtherQ.
Proof. intros (Hs&Hwf&_) Hrw. unfold request_wf in Hwf. destruct (type r); simpl in Hs; subst; try done. Qed.

Lemma queued_at i h c s j r : ctrl_core_inv i h c → q (queue_of s c) !! j = Some r → queued i (clk c) s r.
Proof. intros Hc Hj. pose proof (ci_queued _ _ _ Hc s) as Hq. rewrite Forall_lookup in Hq. eauto. Qed.

(** The first command of a request: it is counted in, and fails exactly when
    there is no counter for its core. *)
Lemma first_command_cases i h n c s j req :
  ctrl_core_inv i h c → sized n c → q (queue_of s c) !! j = Some req →
  if counted n req then
    ∃ c', first_command spec s j req c = Some c' ∧ ctrl_core_inv i h c' ∧
      q (queue_of s c') !! j = Some (set_is_first_command false req) ∧
      bare (channel c') = bare (channel c) ∧ clk c' = clk c
  else first_command spec s j req c = None.
Proof.
  intros Hc [Hn _] Hj. unfold first_command, counted. destruct (is_first_command req) eqn:Hfirst.
  2:{ exists c. split_and!; try done. rewrite Hj. f_equal. destruct req; simpl in *. by subst. }
  set (req' := set_is_first_command false req). set (l := <[j:=req']> (q (queue_of s c))).
  pose proof (queued_at _ _ _ _ _ _ Hc Hj) as Hqd.
  assert (Forall (queued i (clk c) s) l) as Hl by (eapply queued_insert; [apply Hc|exact Hj|done..]).
  assert (lim = true → Z.of_nat (length l) ≤ qmax (queue_of s c)) as Hlen by (unfold l; rewrite length_insert; apply (ci_size _ _ _ Hc)).
  assert (l !! j = Some req') as Hlj by (apply list_lookup_insert_eq; by eapply lookup_lt_Some).
  destruct (is_rw (type req)) eqn:Hrw; simpl.
  - destruct (queued_rw _ _ _ _ Hqd Hrw) as [Ha Hs].
    destruct (chan_serving spec pr i h (clk c) (channel c) (rowtable c) (addr_vec req) (started c) 1)
      as (d'&Hu&Hch&Hb&Hsv); [apply Hc|done|by left|apply Hc|].
    unfold serving. destruct (set_queue_frame s l c) as (E1&E2&E3&E4&E5&E6&E7&E8&E9). rewrite E1, E2, Hu; simpl.
    set (c1 := set_channel d' (set_queue s l c)).
    assert (ctrl_core_inv i h c1) as Hc1.
    { assert (c1 = set_rowtable (rowtable c) (set_channel d' (set_queue s l c))) as -> by (by unfold c1; destruct s, c).
      eapply inv_step; [done..|]. eapply serve_inv_perm; [|exact Hsv]. symmetry.
      apply (started_set s l c [] [addr_vec req]); [done|]. simpl. unfold l. rewrite (begun_insert _ _ _ _ Hj).
      rewrite (begun_lookup _ _ _ Hj), Hfirst. done. }
    assert (q (queue_of s c1) !! j = Some req') as Hlk by (by unfold c1; destruct s).
    destruct (queue_answers i h c1 s req' Hc1) as (_&hit&open&_&Hh&Ho); [by eapply list_elem_of_lookup_2|].
    rewrite Hh; simpl. assert (∃ b, (if hit then Some false else is_row_open spec c1 req') = Some b) as [b ->] by (destruct hit; eauto).
    cbn [mbind option_bind]. assert (cstats (set_queue s l c) = cstats c) as -> by (by destruct s).
    pose proof (first_stats_ok spec n req' hit b (clk (set_queue s l c)) (cstats c) Hn) as Hst. change (type req') with (type req) in Hst.
    rewrite Hrw in Hst. simpl in Hst. destruct (in_range n (coreid req)); [|by rewrite Hst].
    destruct Hst as (st&->&_). simpl. eexists. split; [done|]. split_and!; try done. by apply (inv_frame i h c1).
  - pose proof (queued_not_rw _ _ _ _ Hqd Hrw) as ->. eexists. split; [done|]. split_and!; try done.
    apply inv_set_queue; try done. apply Hc.
Qed.

Lemma first_command_ok i h n c s j req :
  ctrl_core_inv i h c → sized n c → q (queue_of s c) !! j = Some req → counted n req = true →
  ∃ c', first_command spec s j req c = Some c' ∧ ctrl_core_inv i h c' ∧
    q (queue_of s c') !! j = Some (set_is_first_command false req) ∧
    bare (channel c') = bare (channel c) ∧ clk c' = clk c.
Proof. intros Hc Hn Hj E. pose proof (first_command_cases i h n c s j req Hc Hn Hj) as H. by rewrite E in H. Qed.

(** *** The completion of a request *)
Lemma length_delete_le {A} (l : list A) j : (length (delete j l) ≤ length l)%nat.
Proof. revert j. induction l as [|x l IH]; intros [|j]; simpl; [lia..|]. specialize (IH j). lia. Qed.

Lemma queue_delete_ok i h c s j :
  ctrl_core_inv i h c →
  Forall (queued i (clk c) s) (delete j (q (queue_of s c))) ∧
  (lim = true → Z.of_nat (length (delete j (q (queue_of s c)))) ≤ qmax (queue_of s c)).
Proof.
  intros Hc. split; [apply Forall_delete, Hc|]. intros Hlim. pose proof (ci_size _ _ _ Hc s Hlim). unfold qsize in *.
  pose proof (length_delete_le (q (queue_of s c)) j). lia.
Qed.

Lemma complete_read i h c j r x :
  ctrl_core_inv i h c → q (readq c) !! j = Some r → is_first_command r = false → type r = READ →
  1 < x - arrive r →
  ctrl_core_inv i h (set_queue ReadQ (delete j (q (readq c))) (set_pending (pending c ++ [set_depart x r]) c)).
Proof.
  intros Hc Hj Hfirst Hr Hx. destruct (queue_delete_ok i h c ReadQ j Hc) as [Hl Hlen].
  pose proof (queued_at i h c ReadQ j r Hc Hj) as (_&Hwf&_).
  destruct (id Hc) as [H1 H2 H3 H4 H5 H6 H7 H8 H9]. split; try done.
  - intros []; [exact Hl|apply (H2 WriteQ)|apply (H2 OtherQ)].
  - apply Forall_app; split; [done|]. constructor; [|done]. split; [done|]. by eapply wf_ext; [| |exact Hwf].
  - eapply serve_inv_perm; [|exact H4]. unfold started; simpl. rewrite (begun_lookup _ _ _ Hj), Hfirst.
    unfold waiting. rewrite filter_app, map_app. rewrite (filter_cons _ (set_depart x r)). simpl.
    rewrite decide_True by lia. simpl. rewrite !(assoc_L (++)). rewrite <-Permutation_cons_append. done.
  - intros []; [exact Hlen|apply (H5 WriteQ)|apply (H5 OtherQ)].
Qed.

Lemma complete_ok i h c s j req :
  ctrl_core_inv i h c → q (queue_of s c) !! j = Some req → is_first_command req = false →
  ∃ c', complete spec s j req c = Some c' ∧ ctrl_core_inv i h c' ∧ clk c' = clk c.
Proof.
  intros Hc Hj Hfirst. pose proof (queued_at _ _ _ _ _ _ Hc Hj) as Hqd. destruct (id Hqd) as (Hs&Hwf&Harr).
  destruct (queue_delete_ok i h c s j Hc) as [Hl Hlen]. unfold complete. unfold request_wf in Hwf.
  destruct (type req) eqn:Hty; try done; simpl in Hs; subst s; simpl in *.
  - eexists. split; [done|]. split; [|done]. eapply complete_read; try done.
    simpl. pose proof (cl_latency (spec:=spec) (pr:=pr)). lia.
  - destruct (serving_ok i h c (addr_vec req)
      (begun (q (readq c)) ++ begun (delete j (q (writeq c))) ++ waiting (pending c)) (-1))
      as (d'&Hu&Hch&_&Hsv); [done|done|by right| |].
    { simpl. unfold started. rewrite (begun_lookup (q (writeq c)) j req Hj), Hfirst. simpl. by rewrite Permutation_middle. }
    rewrite Hu; simpl. eexists. split; [done|]. split; [|done].
    assert (∀ l, set_writeq (set_q l (writeq c)) (set_channel d' c) =
      set_rowtable (rowtable c) (set_channel d' (set_queue WriteQ l c))) as -> by (by destruct c).
    eapply inv_step; try done.
  - eexists. split; [done|]. split; [|done]. apply (inv_set_queue i h OtherQ); try done. apply Hc.
Qed.

(** *** Requests of several bursts *)

(** A request after one of its bursts: HMC and WideIO2 serve a request in
    several column commands. *)
Definition one_burst (r : Request) : Request :=
  if is_rw (type r) then set_burst_count (burst_count r - 1) r else r.

Lemma one_burst_frame r :
  is_first_command (one_burst r) = is_first_command r ∧ type (one_burst r) = type r ∧
  addr_vec (one_burst r) = addr_vec r ∧ arrive (one_burst r) = arrive r.
Proof. unfold one_burst. by destruct (is_rw (type r)). Qed.

Definition with_burst (s : QSel) (j : nat) (r : Request) (c : Controller L C S) : Controller L C S :=
  set_queue s (<[j := one_burst r]> (q (queue_of s c))) c.

Lemma with_burst_ok i h c s j r :
  ctrl_core_inv i h c → q (queue_of s c) !! j = Some r → is_first_command r = false →
  ctrl_core_inv i h (with_burst s j r c) ∧ q (queue_of s (with_burst s j r c)) !! j = Some (one_burst r).
Proof.
  intros Hc Hj Hfirst. destruct (one_burst_frame r) as (Ef&Et&Ea&Er). split.
  - apply inv_set_queue_same; [done|by eapply queued_insert; [apply Hc|exact Hj|..]| |].
    + rewrite length_insert. intros Hlim. apply (ci_size _ _ _ Hc s Hlim).
    + by rewrite (begun_insert _ _ _ _ Hj), (begun_lookup _ _ _ Hj), Ef, Hfirst, Ea.
  - unfold with_burst. rewrite queue_set_queue. apply list_lookup_insert_eq. by eapply lookup_lt_Some.
Qed.

(** *** The whole cycle *)

(** The command a queued request needs is issued. *)
Lemma issue_ok i h c cmd req :
  ctrl_core_inv i h c → fresh h c → request_wf spec pr i req →
  decode spec (translate spec (type req)) (addr_vec req) (channel c) = Some cmd →
  is_ready_cmd spec c cmd (addr_vec req) = Some true →
  ∃ c', issue_cmd spec cmd (addr_vec req) c = Some c' ∧ ctrl_core_inv i ((cmd, addr_vec req, clk c) :: h) c' ∧
    clk c' = clk c ∧ (∀ s, queue_of s c' = queue_of s c) ∧ pending c' = pending c.
Proof.
  intros Hc Hf Hwf Hdec Hready. pose proof Hready as Hck. unfold is_ready_cmd in Hck.
  destruct (chan_issue spec pr i h req cmd (clk c) (channel c) (rowtable c)) as (d'&t'&Hu&Ht&Hch&Hsv);
    [apply Hc|exact Hf|done|done|done|].
  unfold issue_cmd. rewrite Hready, (ci_real _ _ _ Hc); simpl. rewrite Hu, Ht; simpl.
  exists (record_cmd cmd (addr_vec req) (set_rowtable t' (set_channel d' c))).
  split_and!; try done. apply inv_issue; [done|done|]. apply Hsv, Hc.
Qed.

(** A request that was ready is so after its first command was counted. *)
Lemma ready_after_first i h c c1 s j req :
  ctrl_core_inv i h c → ctrl_core_inv i h c1 → q (queue_of s c) !! j = Some req → is_ready spec c req = Some true →
  bare (channel c1) = bare (channel c) → clk c1 = clk c →
  ∃ cmd, get_first_cmd spec c1 req = Some cmd ∧
    decode spec (translate spec (type req)) (addr_vec req) (channel c1) = Some cmd ∧
    decode spec (translate spec (type req)) (addr_vec req) (channel c) = Some cmd ∧
    is_ready_cmd spec c1 cmd (addr_vec req) = Some true.
Proof.
  intros Hc Hc1 Hj Hready Hb Hclk. pose proof (queued_at _ _ _ _ _ _ Hc Hj) as (_&Hwf&_).
  unfold is_ready, get_first_cmd in Hready. rewrite (ci_real _ _ _ Hc) in Hready. run_opt.
  match goal with H : decode _ _ _ _ = Some ?x |- _ => rename H into Hdec; rename x into cmd end.
  assert (shaped spec 0 (channel c)) as Hsh by (eapply chan_shaped, Hc).
  assert (bank_inv spec pr (channel c)) as Hbi by (apply (chan_device _ _ _ _ _ _ _ (ci_chan _ _ _ Hc))).
  assert (decode spec (translate spec (type req)) (addr_vec req) (channel c1) = Some cmd) as Hdec1.
  { rewrite (decode_bare spec pr _ _ (channel c)); try done. by eapply wf_request_ok. }
  exists cmd. unfold get_first_cmd. rewrite (ci_real _ _ _ Hc1). split_and!; try done.
  unfold is_ready_cmd in *. by rewrite Hclk, (bare_check spec _ _ _ _ _ Hb).
Qed.

Lemma issue_request_ok i h n c s j req :
  ctrl_core_inv i h c → sized n c → fresh h c → q (queue_of s c) !! j = Some req → is_ready spec c req = Some true →
  counted n req = true →
  ∃ c' cmd, issue_request spec s j req c = Some c' ∧ ctrl_core_inv i ((cmd, addr_vec req, clk c) :: h) c' ∧ clk c' = clk c ∧
    decode spec (translate spec (type req)) (addr_vec req) (channel c) = Some cmd.
Proof.
  intros Hc Hn Hf Hj Hready Hcnt. pose proof (queued_at _ _ _ _ _ _ Hc Hj) as (_&Hwf&_).
  destruct (first_command_ok i h n c s j req Hc Hn Hj Hcnt) as (c1&Hfc&Hc1&Hj1&Hb&Hclk).
  destruct (ready_after_first i h c c1 s j req) as (cmd&Hg&Hd1&Hd&Hr); [done..|].
  destruct (issue_ok i h c1 cmd req) as (c2&Hi&Hc2&Hclk2&Hq2&_); [done|by unfold fresh; rewrite Hclk|done..|].
  unfold issue_request. rewrite Hfc; simpl. rewrite Hg; simpl. rewrite Hi; simpl. rewrite <-Hclk.
  case_decide; [exists c2, cmd; split_and!; congruence|]. rewrite Hq2, Hj1; simpl.
  destruct (complete_ok i _ c2 s j (set_is_first_command false req) Hc2) as (c3&Hc3&Hinv3&Hclk3); [by rewrite Hq2, Hj1|done|].
  exists c3, cmd. rewrite Hc3. split_and!; congruence.
Qed.

Lemma issue_request_None i h n c s j req :
  ctrl_core_inv i h c → sized n c → q (queue_of s c) !! j = Some req → counted n req = false →
  issue_request spec s j req c = None.
Proof.
  intros Hc Hn Hj E. pose proof (first_command_cases i h n c s j req Hc Hn Hj) as H. rewrite E in H.
  unfold issue_request. by rewrite H.
Qed.

(** The request that the scheduler picks, if it is ready, and whether there is
    no counter for it. *)
Definition picked (c : Controller L C S) : option Request := p ← pick_request spec c; snd <$> snd p.
Definition uncounted (n : nat) (o : option Request) : bool := match o with Some r => negb (counted n r) | None => false end.

Lemma uncounted_iff n o :
  uncounted n o = true ↔
  ∃ r, o = Some r ∧ is_first_command r = true ∧ (type r = READ ∨ type r = WRITE) ∧ ¬ (0 ≤ coreid r < Z.of_nat n).
Proof.
  assert (∀ t, is_rw t = true ↔ t = READ ∨ t = WRITE) as Hrw by (intros []; simpl; naive_solver).
  destruct o as [r|]; simpl; [|split; [done|by intros (?&?&_)]].
  unfold counted. rewrite negb_orb, negb_involutive, !andb_true_iff, negb_true_iff, Hrw, <-not_true_iff_false, in_range_true.
  split; [intros [[? ?] ?]; eauto 6|]. intros (r'&[= <-]&?&?&?). done.
Qed.

(** Scheduling either leaves the controller as it is, or issues for a ready
    request of the queue it picked. *)
Lemma schedule_with_cases issue i h c :
  ctrl_core_inv i h c →
  (picked c = None ∧ schedule_with spec issue c = Some c) ∨
  ∃ j req, q (queue_of (pick_queue c) c) !! j = Some req ∧ is_ready spec c req = Some true ∧
    picked c = Some req ∧ schedule_with spec issue c = issue (pick_queue c) j req c.
Proof.
  intros Hc. unfold schedule_with, picked, pick_request. destruct (head_ok i h c (pick_queue c) Hc) as (o&Hh&Ho).
  rewrite Hh; simpl. rewrite set_rowtable_id.
  destruct o as [j|]; simpl; rewrite ?(ci_real _ _ _ Hc); simpl; unfold get_victim; rewrite ?(ci_policy _ _ _ Hc); simpl; [|by left].
  destruct Ho as [req Hj]. rewrite Hj; simpl.
  destruct (queue_answers i h c (pick_queue c) req Hc) as (ready&_&_&Hr&_); [by eapply list_elem_of_lookup_2|].
  rewrite Hr; simpl. destruct ready; simpl; [right; eauto 7|left]. rewrite (ci_real _ _ _ Hc); simpl.
  by rewrite (ci_policy _ _ _ Hc).
Qed.

Lemma schedule_ok i h n c :
  ctrl_core_inv i h c → sized n c → fresh h c →
  if uncounted n (picked c) then schedule spec c = None
  else ∃ c' h', schedule spec c = Some c' ∧ ctrl_core_inv i h' c' ∧ clk c' = clk c ∧ (h' = h ∨ ∃ e, h' = e :: h).
Proof.
  intros Hc Hn Hf. unfold schedule.
  destruct (schedule_with_cases (issue_request spec) i h c Hc) as [[-> ->]|(j&req&Hj&Hr&->&->)]; simpl; [exists c, h; by auto|].
  destruct (counted n req) eqn:E; simpl; [|by eapply issue_request_None].
  destruct (issue_request_ok i h n c _ j req Hc Hn Hf Hj Hr E) as (c'&cmd&->&Hinv&Hclk&_).
  exists c', ((cmd, addr_vec req, clk c) :: h). split_and!; eauto.
Qed.

Lemma switch_mode_frame (c : Controller L C S) :
  (∀ s, queue_of s (switch_mode c) = queue_of s c) ∧ pending (switch_mode c) = pending c ∧
  refresh (switch_mode c) = refresh c.
Proof. unfold switch_mode. split_and!; [intros []|..]; by repeat case_match. Qed.

Lemma switch_mode_ok i h c : ctrl_core_inv i h c → ctrl_core_inv i h (switch_mode c) ∧ clk (switch_mode c) = clk c.
Proof. intros Hc. unfold switch_mode. split; repeat case_match; try done; by apply (inv_frame i h c). Qed.

(** ** The constructor *)
Lemma new_dram_rows fuel l i d b k dk :
  new_dram spec fuel l i = Some d → node_at spec b k d = Some dk → row_state (info dk) = ∅.
Proof.
  revert l i d. induction fuel as [|fuel IH]; intros l i d Hd Hn; [done|]. cbn [new_dram] in Hd.
  assert (∀ cs, d = Dram (new_info spec l i) cs →
    (∀ j c, cs !! j = Some c → ∃ l' i', new_dram spec fuel l' i' = Some c) → row_state (info dk) = ∅) as Hnode.
  { clear Hd. intros cs -> Hcs. cbn [node_at] in Hn. case_decide; [by simplify_eq|].
    destruct (b !! _) as [x|]; simpl in Hn; [|done]. rewrite at_child_lookup in Hn.
    destruct (zlookup cs x) as [c|] eqn:Hz; simpl in Hn; [|done]. unfold zlookup in Hz. case_match; [done|].
    destruct (Hcs _ _ Hz) as (l'&i'&Hc). eauto. }
  case_decide; [simplify_eq; by apply (Hnode [])|]. run_opt. case_match; [simplify_eq; by apply (Hnode [])|]. run_opt.
  match goal with H : mapM _ _ = Some _ |- _ => apply mapM_Some_1 in H; rename H into Hm end.
  eapply Hnode; [done|]. intros j c Hj. destruct (Forall2_lookup_r _ _ _ _ _ Hm Hj) as (y&_&Hy). eauto.
Qed.

Lemma new_controller_inv l i n d :
  level_cast spec 0 = Some l → new_channel spec l i = Some d → ctrl_core_inv i [] (new_controller n d).
Proof.
  intros Hl Hd. split; try done.
  - split; [|constructor|constructor| |simpl; lia].
    + apply (reachable_ok spec pr l i []); [done|by constructor].
    + intros rg. simpl. unfold open_at. case_decide; [|done].
      destruct (node_at spec rg _ d) as [dk|] eqn:Hn; [|done]. simpl.
      unfold bank_row. by rewrite (new_dram_rows _ _ _ _ _ _ _ Hd Hn).
  - intros []; constructor.
  - by eapply new_dram_serving.
  - intros []; done.
Qed.

End Tick.

(** The invariant of a controller with bounded queues. *)
Abbreviation ctrl_inv spec pr := (ctrl_core_inv spec pr (lim := true)).

(** ** Refresh and the whole cycle *)
Section Refresh.
Context {L C S : Type} `{!EqDecision L, !EqDecision C, !EqDecision S}.
Variables (spec : Spec L C S) (pr : Proto L C S).
Context `{CL : !CtrlLaws spec pr}.

Abbreviation ctrl_inv := (ctrl_core_inv spec pr (lim := true)).

Definition room (s : QSel) (c : Controller L C S) : Z := qmax (queue_of s c) - qsize (queue_of s c).

Definition due (c : Controller L C S) : bool :=
  nREFI spec <=? ref_clk (refresh c) + 1 - refreshed (refresh c).

(** What a refresh leaves as it is. *)
Definition same_but_other (c c' : Controller L C S) : Prop :=
  clk c' = clk c ∧ channel c' = channel c ∧ readq c' = readq c ∧ writeq c' = writeq c ∧ pending c' = pending c ∧
  write_mode c' = write_mode c ∧ scheduler c' = scheduler c ∧ rowtable c' = rowtable c.

Definition refresh_addr (i rank : Z) : list Z :=
  <[3%nat := -1]> (<[2%nat := -1]> (<[1%nat := rank]> (<[0%nat := i]> (replicate (level_MAX spec) (-1))))).

Lemma refresh_addr_lookup i rank k :
  (k < level_MAX spec)%nat →
  refresh_addr i rank !! k = Some (if decide (k = 0)%nat then i else if decide (k = 1)%nat then rank else -1).
Proof.
  intros Hk. unfold refresh_addr. destruct k as [|[|[|[|k]]]]; simpl;
    repeat (rewrite list_lookup_insert_ne by lia); try (rewrite list_lookup_insert_eq by (rewrite ?length_insert, length_replicate; lia));
    try done; by apply lookup_replicate_2.
Qed.

Lemma refresh_addr_ok i rank :
  0 ≤ rank < default 0 (count spec !! 1%nat) → ref_addr spec pr i (refresh_addr i rank).
Proof.
  intros Hr. pose proof (cl_levels (spec:=spec) (pr:=pr)). pose proof (cl_power (spec:=spec) (pr:=pr)) as Hpow.
  assert (length (refresh_addr i rank) = level_MAX spec) as Hlen.
  { unfold refresh_addr. by rewrite !length_insert, length_replicate. }
  unfold ref_addr. rewrite Hpow. split_and!.
  - split; [done|]. intros k x Hx Hpos. pose proof (lookup_lt_Some _ _ _ Hx) as Hk. rewrite Hlen in Hk.
    rewrite refresh_addr_lookup in Hx by done. rewrite decide_False in Hx by lia. injection Hx as <-.
    case_decide as E; [subst k; lia|].
    destruct (lookup_lt_is_Some_2 (count spec) k) as [y Hy]; [by rewrite (count_len (spec:=spec))|].
    rewrite Hy. simpl. pose proof (count_nonneg (spec:=spec)) as Hn. rewrite Forall_lookup in Hn.
    specialize (Hn _ _ Hy). simpl in Hn. lia.
  - split; [done|]. intros j Hj. assert (j = 1)%nat as -> by lia. exists rank.
    by rewrite refresh_addr_lookup by lia.
  - by rewrite refresh_addr_lookup by lia.
  - by rewrite refresh_addr_lookup by lia.
Qed.

Lemma enqueue_ok i h c req :
  ctrl_inv i h c → request_wf spec pr i req → is_first_command req = true →
  ctrl_inv i h (snd (enqueue req c)) ∧
  fst (enqueue req c) = (qsize (queue_of (get_queue (type req)) c) <? qmax (queue_of (get_queue (type req)) c)).
Proof.
  intros Hc Hwf Hfirst. pose proof (ci_size spec pr _ _ _ Hc (get_queue (type req)) eq_refl) as Hsz.
  unfold enqueue. case_match eqn:E; simpl.
  - split; [done|]. apply Z.eqb_eq in E. rewrite E. symmetry. apply Z.ltb_irrefl.
  - apply Z.eqb_neq in E. split; [apply accept_ok; try done; lia|]. symmetry. apply Z.ltb_lt. lia.
Qed.

(** One rank's refresh is queued. *)
Lemma refresh_target_ok i h c rank :
  ctrl_inv i h c → 0 ≤ rank < default 0 (count spec !! 1%nat) →
  if 0 <? room OtherQ c then
    ∃ c', refresh_target spec rank (-1) (-1) c = Some c' ∧ ctrl_inv i h c' ∧ room OtherQ c' = room OtherQ c - 1 ∧
      same_but_other c c' ∧ refresh c' = refresh c
  else refresh_target spec rank (-1) (-1) c = None.
Proof.
  intros Hc Hr. pose proof (cl_levels (spec:=spec) (pr:=pr)). unfold refresh_target.
  assert (nid (info (channel c)) = i) as -> by (eapply chan_id, Hc). fold (refresh_addr i rank).
  rewrite (proj2 (Z.leb_le _ _)) by lia. set (req := Request_addr_vec _ _ _).
  assert (request_wf spec pr i req) as Hwf by (apply refresh_addr_ok; done).
  destruct (enqueue_ok i h c req Hc Hwf eq_refl) as [Hinv Hres]. simpl in Hres. unfold room, queue_of.
  pose proof (ci_size _ _ _ _ _ Hc OtherQ eq_refl) as Hsz. simpl in Hsz.
  destruct (enqueue req c) as [b c'] eqn:He. simpl in *. subst b.
  destruct (0 <? qmax (otherq c) - qsize (otherq c)) eqn:E.
  - rewrite (proj2 (Z.ltb_lt _ _)) by lia. exists c'. split_and!; try done;
      unfold enqueue in He; simpl in He; rewrite (proj2 (Z.eqb_neq _ _)) in He by lia; simplify_eq; try done.
    simpl. unfold qsize. simpl. rewrite length_app. simpl. lia.
  - rewrite (proj2 (Z.ltb_ge _ _)) by lia. done.
Qed.

Lemma inject_loop_ok i h c (l : list (DRAM L C S)) :
  ctrl_inv i h c → (∀ r, r ∈ l → 0 ≤ nid (info r) < default 0 (count spec !! 1%nat)) →
  let loop := foldM (λ c rank, refresh_target spec (nid (info rank)) (-1) (-1) c) c l in
  if Z.of_nat (length l) <=? room OtherQ c then
    ∃ c', loop = Some c' ∧ ctrl_inv i h c' ∧ same_but_other c c' ∧ refresh c' = refresh c
  else loop = None.
Proof.
  intros Hc Hl. revert c Hc. induction l as [|r l IH]; intros c Hc; simpl.
  { rewrite (proj2 (Z.leb_le _ _)); [by exists c|]. pose proof (ci_size _ _ _ _ _ Hc OtherQ eq_refl). unfold room. lia. }
  pose proof (refresh_target_ok i h c (nid (info r)) Hc (Hl r (list_elem_of_here _ _))) as Hrt.
  destruct (0 <? room OtherQ c) eqn:E.
  - destruct Hrt as (c1&->&Hc1&Hroom&Hs&Href). simpl. specialize (IH (λ r Hr, Hl r (list_elem_of_further _ _ _ Hr)) c1 Hc1).
    rewrite Hroom in IH. destruct (Z.of_nat (Datatypes.S (length l)) <=? room OtherQ c) eqn:E2;
      [apply Z.leb_le in E2|apply Z.leb_gt in E2]; rewrite Nat2Z.inj_succ in E2.
    + rewrite (proj2 (Z.leb_le (Z.of_nat (length l)) (room OtherQ c - 1))) in IH by lia. destruct IH as (c2&->&Hc2&Hs2&Href2).
      exists c2. split_and!; try done; [|congruence]. unfold same_but_other in *. intuition congruence.
    + by rewrite (proj2 (Z.leb_gt (Z.of_nat (length l)) (room OtherQ c - 1))) in IH by lia.
  - rewrite Hrt. rewrite (proj2 (Z.leb_gt (Z.of_nat (Datatypes.S (length l))) (room OtherQ c))) by lia. done.
Qed.

(** The ranks of the channel. *)
Lemma ranks_of i h c :
  ctrl_inv i h c →
  (∀ r, r ∈ children (channel c) → 0 ≤ nid (info r) < default 0 (count spec !! 1%nat)) ∧
  map (λ r, nid (info r)) (children (channel c)) = map Z.of_nat (seq 0 (child_count spec 0)).
Proof.
  intros Hc. assert (shaped spec 0 (channel c)) as Hsh by (eapply chan_shaped, Hc).
  inversion Hsh as [k n cs Hk Hmax Hlen Hid Hch Heq Hc']. simpl. split.
  - intros r [j Hj]%list_elem_of_lookup. rewrite (Hid _ _ Hj). apply lookup_lt_Some in Hj.
    unfold child_count in Hlen. case_decide; simpl in *; lia.
  - rewrite <-Hlen. apply list_eq. intros j. rewrite !list_lookup_fmap.
    destruct (cs !! j) as [r|] eqn:Hj; simpl.
    + rewrite lookup_seq_lt by (by eapply lookup_lt_Some). simpl. by rewrite (Hid _ _ Hj).
    + rewrite lookup_seq_ge; [done|by apply lookup_ge_None].
Qed.

Lemma tick_ref_ok i h c :
  ctrl_inv i h c →
  if due c && (room OtherQ c <? Z.of_nat (child_count spec 0)) then tick_ref spec c = None
  else ∃ c', tick_ref spec c = Some c' ∧ ctrl_inv i h c' ∧ same_but_other c c' ∧
    refresh c' = mkRefresh (ref_clk (refresh c) + 1)
      (if due c then ref_clk (refresh c) + 1 else refreshed (refresh c)) (bank_ref_counters (refresh c)).
Proof.
  intros Hc. unfold tick_ref. set (c0 := set_refresh _ c). fold (due c). simpl.
  assert (ctrl_inv i h c0) as Hc0 by (apply (inv_frame spec pr i h c); try done).
  unfold due. simpl. destruct (nREFI spec <=? _) eqn:E; simpl; [|by exists c0].
  destruct (ranks_of i h c Hc) as [Hids Hmap].
  assert (length (children (channel c)) = child_count spec 0) as Hn.
  { apply (f_equal length) in Hmap. by rewrite !length_map, length_seq in Hmap. }
  pose proof (inject_loop_ok i h c0 (children (channel c)) Hc0 Hids) as Hloop. simpl in Hloop. rewrite Hn in Hloop.
  unfold inject_refresh. change (children (channel c0)) with (children (channel c)). simpl.
  change (room OtherQ c0) with (room OtherQ c) in Hloop.
  destruct (room OtherQ c <? Z.of_nat (child_count spec 0)) eqn:E2.
  - rewrite (proj2 (Z.leb_gt (Z.of_nat (child_count spec 0)) (room OtherQ c))) in Hloop by lia. by rewrite Hloop.
  - rewrite (proj2 (Z.leb_le (Z.of_nat (child_count spec 0)) (room OtherQ c))) in Hloop by lia. destruct Hloop as (c1&->&Hc1&Hs&Href). simpl.
    eexists. split; [done|]. split_and!.
    + by apply (inv_frame spec pr i h c1).
    + unfold same_but_other in *. simpl in *. tauto.
    + rewrite Href. done.
Qed.

(** The request that the cycle picks to issue a command for. *)
Definition served (c : Controller L C S) : option Request :=
  '(_, c) ← serve_pending spec (tick_clk c); c ← tick_ref spec c; picked spec (switch_mode c).

(** A request of a core in range is counted. *)
Lemma served_counted n c : cores_ok n (λ i, 0 ≤ i < Z.of_nat n) c → uncounted n (served c) = false.
Proof.
  intros Hc. destruct (served c) as [r|] eqn:E; [|done]. unfold served in E. rewrite bind_Some in E. destruct E as ([dn c1]&Hs&E).
  rewrite bind_Some in E. destruct E as (c2&Ht&E). set (c3 := switch_mode c2) in *.
  assert (cores_ok n (λ i, 0 ≤ i < Z.of_nat n) c3) as [_ Hp].
  { eapply cores_switch_mode, cores_tick_ref; [|done]. eapply cores_serve_pending; [|done]. by apply cores_tick_clk. }
  unfold picked, pick_request in E. rewrite bind_Some in E. destruct E as ([c4 ready]&Hr&E). rewrite bind_Some in Hr.
  destruct Hr as ([head t]&_&Hr). rewrite bind_Some in Hr. destruct Hr as (o&Ho&[= <- <-]). simpl in E.
  destruct o as [[k req]|]; [|done]. simpl in E. injection E as ->. apply negb_false_iff.
  apply (cores_counted n c3 (pick_queue c3) k); [done|]. destruct head as [h|]; [|done].
  rewrite bind_Some in Ho. destruct Ho as (x&Hx&Ho). rewrite bind_Some in Ho. destruct Ho as ([]&_&Ho); [by injection Ho as <- <-|done].
Qed.

(** The phases before the scheduler: they fail only when a refresh is due and
    does not fit in its queue. *)
Lemma tick_with_ok issue i h n c :
  ctrl_inv i h c → sized n c →
  if due c && (room OtherQ c <? Z.of_nat (child_count spec 0)) then tick_with spec issue c = None
  else ∃ done c1, tick_with spec issue c = (c' ← schedule_with spec issue c1; Some (done, c')) ∧
    sized n c1 ∧ served c = picked spec c1 ∧
    ctrl_inv i h c1 ∧ fresh h c1 ∧ clk c1 = clk c + 1 ∧
    (∀ s, s ≠ OtherQ → queue_of s c1 = queue_of s c) ∧ pending c = done ++ pending c1 ∧
    Forall (λ r, depart r ≤ clk c1) done ∧
    refresh c1 = mkRefresh (ref_clk (refresh c) + 1)
      (if due c then ref_clk (refresh c) + 1 else refreshed (refresh c)) (bank_ref_counters (refresh c)) ∧
    ∃ c2 c3, ctrl_inv i h c2 ∧ otherq c2 = otherq c ∧ tick_ref spec c2 = Some c3 ∧ otherq c1 = otherq c3.
Proof.
  intros Hc Hn. destruct (tick_clk_ok spec pr i h c Hc) as [Hc1 Hf]. unfold tick_with, served.
  destruct (serve_pending_ok spec pr i h _ Hc1) as (done&c2&Hs&Hc2&Hclk2&Hp&Hd&Hq&Href). rewrite Hs; simpl.
  pose proof (tick_ref_ok i h c2 Hc2) as Ht. unfold due, room in Ht. rewrite Href, Hq in Ht.
  change (refresh (tick_clk c)) with (refresh c) in Ht. change (queue_of OtherQ (tick_clk c)) with (queue_of OtherQ c) in Ht.
  fold (due c) (room OtherQ c) in Ht. destruct (due c && _); [by rewrite Ht|].
  destruct Ht as (c3&Ht3&Hc3&(Hclk3&_&Hr3&Hw3&Hp3&_)&Href3). rewrite Ht3; simpl. destruct (switch_mode_ok spec pr i h c3 Hc3) as [Hc4 Hclk4].
  assert (clk (switch_mode c3) = clk (tick_clk c)) as Hclk by (by rewrite Hclk4, Hclk3, Hclk2).
  destruct (switch_mode_frame c3) as (Hq4&Hp4&Href4).
  exists done, (switch_mode c3). split_and!; try done.
  - apply sized_any in Hn. apply sized_any. eapply cores_switch_mode, cores_tick_ref; [|done].
    eapply cores_serve_pending; [|done]. by apply cores_tick_clk.
  - unfold fresh. by rewrite Hclk.
  - intros [] Hne; rewrite Hq4; simpl; rewrite ?Hr3, ?Hw3; [apply (Hq ReadQ)|apply (Hq WriteQ)|done].
  - by rewrite Hp4, Hp3.
  - by rewrite Hclk.
  - by rewrite Href4.
  - exists c2, c3. split_and!; try done; [apply (Hq OtherQ)|apply (Hq4 OtherQ)].
Qed.

(** [tick] fails only when a refresh is due and does not fit in its queue, or
    when there is no counter for the request it picks. *)
Lemma tick_ok i h n c :
  ctrl_inv i h c → sized n c →
  if due c && (room OtherQ c <? Z.of_nat (child_count spec 0)) || uncounted n (served c) then tick spec c = None
  else ∃ done c' h', tick spec c = Some (done, c') ∧ ctrl_inv i h' c' ∧ clk c' = clk c + 1 ∧
    (h' = h ∨ ∃ e, h' = e :: h).
Proof.
  intros Hc Hn. pose proof (tick_with_ok (issue_request spec) i h n c Hc Hn) as Ht. unfold tick. destruct (_ && _); [done|]. simpl.
  destruct Ht as (done&c1&->&Hn1&Es&Hc1&Hf&Hclk&_). rewrite Es.
  pose proof (schedule_ok spec pr i h n c1 Hc1 Hn1 Hf) as Hs. unfold schedule in Hs. destruct (uncounted n (picked spec c1)); [by rewrite Hs|].
  destruct Hs as (c2&h'&->&Hc2&Hclk2&Hh). exists done, c2, h'. split_and!; [done|done|congruence|done].
Qed.

End Refresh.
