(* ===== verification/ControllerReads.v ===== *)
(** * What the controller's cycle does to its requests

    Reads are neither lost nor duplicated, refreshes are queued on time, the
    counters of requests in flight are exact, and the controller does not idle
    because of its write-drain mode: the lemmas on the phases of [tick] from
    which the theorems on the controller follow. *)

From S2P Require Import Prelude Request Dram DramTiming BankProtocol Device BankMap Serving.
From S2P Require Import Scheduler SchedulerTheorems Controller CtrlQueries ControllerInv ControllerTick.

Section Reads.
Context {L C S : Type} `{!EqDecision L, !EqDecision C, !EqDecision S}.
Variables (spec : Spec L C S) (pr : Proto L C S).
Context `{CL : !CtrlLaws spec pr}.

(** ** Reads *)

(** What identifies a request as it moves through the controller. *)
Definition key (r : Request) : Z * list Z * Z * Z * Z := (addr r, addr_vec r, reqid r, coreid r, arrive r).

(** The reads the controller holds. *)
Definition reads (c : Controller L C S) : list Request := q (readq c) ++ pending c.

Lemma map_key_insert l j r r' : l !! j = Some r → key r' = key r → map key (<[j:=r']> l) = map key l.
Proof.
  intros Hj E. apply list_eq. intros k. rewrite !list_lookup_fmap. destruct (decide (j = k)) as [<-|Hne].
  - rewrite list_lookup_insert_eq by eauto using lookup_lt_Some. by rewrite Hj; simpl; rewrite E.
  - by rewrite list_lookup_insert_ne.
Qed.

Lemma delete_perm {A} (l : list A) j x : l !! j = Some x → l ≡ₚ x :: delete j l.
Proof.
  intros Hj. rewrite (delete_take_drop l j), <-(take_drop_middle l j x Hj) at 1. by rewrite Permutation_middle.
Qed.

Lemma serving_members a delta (c c' : Controller L C S) :
  serving spec a delta c = Some c' →
  (∀ s, queue_of s c' = queue_of s c) ∧ pending c' = pending c ∧ refresh c' = refresh c.
Proof. unfold serving. intros H. run_opt. split; [by intros []|done]. Qed.

Lemma first_command_reads s j req (c c' : Controller L C S) :
  first_command spec s j req c = Some c' → q (queue_of s c) !! j = Some req →
  map key (q (readq c')) = map key (q (readq c)) ∧ pending c' = pending c ∧ refresh c' = refresh c ∧
  ∃ req', q (queue_of s c') !! j = Some req' ∧ key req' = key req ∧ type req' = type req.
Proof.
  unfold first_command. intros H Hj. case_match; [|simplify_eq; by eauto 10].
  set (req' := set_is_first_command false req) in *. set (c1 := set_queue s (<[j:=req']> (q (queue_of s c))) c) in *.
  assert (map key (q (readq c1)) = map key (q (readq c)) ∧ pending c1 = pending c ∧
    refresh c1 = refresh c ∧ q (queue_of s c1) !! j = Some req') as (E1&E2&E4&E3).
  { unfold c1. split_and!; [destruct s; try done; by eapply map_key_insert|by destruct s|by destruct s|].
    rewrite queue_set_queue. apply list_lookup_insert_eq. by eapply lookup_lt_Some. }
  case_match; run_opt; [|by eauto 10].
  match goal with H : serving _ _ _ _ = Some _ |- _ => apply serving_members in H as (Hq&Hp&Hf) end.
  simpl. pose proof (Hq ReadQ) as Hr. simpl in Hr. rewrite Hr, Hp, Hf. split_and!; [done..|].
  exists req'. split; [|done]. rewrite <-E3, <-(Hq s). by destruct s.
Qed.

Lemma issue_cmd_reads cmd a (c c' : Controller L C S) :
  issue_cmd spec cmd a c = Some c' →
  (∀ s, queue_of s c' = queue_of s c) ∧ pending c' = pending c ∧ refresh c' = refresh c.
Proof. unfold issue_cmd. intros H. run_opt. case_match; run_opt; (split; [by intros []|done]). Qed.

Lemma complete_reads s j req (c c' : Controller L C S) :
  complete spec s j req c = Some c' → q (queue_of s c) !! j = Some req → get_queue (type req) = s →
  map key (reads c') ≡ₚ map key (reads c) ∧ refresh c' = refresh c.
Proof.
  unfold complete, reads. intros H Hj Hs. destruct (type req) eqn:E; simpl in Hs; subst s; simpl in H, Hj; run_opt; try done.
  - split; [|done]. pose proof (fmap_Permutation key _ _ (delete_perm _ _ _ Hj)) as Hp. simpl in Hp.
    simpl. rewrite !map_app, Hp. simpl. rewrite (assoc_L (++)). by rewrite <-Permutation_cons_append.
  - match goal with H : serving _ _ _ _ = Some _ |- _ => apply serving_members in H as (Hq&Hp&Hf) end.
    pose proof (Hq ReadQ) as Hr. simpl in Hr |- *. by rewrite Hr, Hp, Hf.
Qed.

Lemma issue_request_reads s j req (c c' : Controller L C S) :
  issue_request spec s j req c = Some c' → q (queue_of s c) !! j = Some req → get_queue (type req) = s →
  map key (reads c') ≡ₚ map key (reads c) ∧ refresh c' = refresh c.
Proof.
  unfold issue_request. intros H Hj Hs. run_opt.
  match goal with H : first_command _ _ _ _ _ = Some ?x |- _ =>
    apply first_command_reads in H as (E1&E2&E3&req'&Hj'&_&Hty); [|done]; rename x into c1 end.
  match goal with H : issue_cmd _ _ _ _ = Some ?x |- _ => apply issue_cmd_reads in H as (Hq&Hp&Hf); rename x into c2 end.
  assert (map key (reads c2) = map key (reads c)) as E.
  { unfold reads. pose proof (Hq ReadQ) as Hr. simpl in Hr. by rewrite Hr, Hp, !map_app, E1, E2. }
  case_decide; run_opt; [by rewrite E, Hf|]. rewrite Hq, Hj' in *. simplify_eq.
  rewrite <-E, <-E3, <-Hf. eapply complete_reads; [done|by rewrite Hq|congruence].
Qed.

Lemma schedule_reads i h (c c' : Controller L C S) :
  ctrl_inv spec pr i h c → schedule spec c = Some c' →
  map key (reads c') ≡ₚ map key (reads c) ∧ refresh c' = refresh c.
Proof.
  intros Hc H. unfold schedule in H.
  destruct (schedule_with_cases spec pr (issue_request spec) i h c Hc) as [[_ E]|(j&req&Hj&_&_&E)]; rewrite E in H; [by simplify_eq|].
  eapply issue_request_reads; [done..|]. by eapply queued_at.
Qed.

Lemma tick_reads i h n (c c' : Controller L C S) done :
  ctrl_inv spec pr i h c → sized n c → tick spec c = Some (done, c') →
  map key (reads c) ≡ₚ map key done ++ map key (reads c') ∧ Forall (λ r, depart r ≤ clk c') done ∧
  refresh c' = mkRefresh (ref_clk (refresh c) + 1)
    (if due spec c then ref_clk (refresh c) + 1 else refreshed (refresh c)) (bank_ref_counters (refresh c)).
Proof.
  intros Hc Hn H. pose proof (tick_with_ok spec pr (issue_request spec) i h n c Hc Hn) as Ht. unfold tick in H.
  case_match; [congruence|]. destruct Ht as (done'&c1&E&Hn1&_&Hc1&Hf&Hclk&Hq&Hp&Hd&Href&_). rewrite E in H. run_opt.
  match goal with H : schedule_with _ _ _ = Some ?x |- _ => rename H into Hs; rename x into c2 end.
  pose proof (schedule_ok spec pr i h n c1 Hc1 Hn1 Hf) as Hs3. unfold schedule in Hs3. case_match; [congruence|].
  destruct Hs3 as (c3&_&Hs3&_&Hclk3&_).
  assert (c3 = c2) as -> by congruence. destruct (schedule_reads i h _ _ Hc1 Hs) as [Hrd Hrf].
  pose proof (Hq ReadQ) as Hq0. simpl in Hq0. split_and!; [|by rewrite Hclk3|by rewrite Hrf].
  rewrite Hrd. unfold reads. rewrite Hp, Hq0, !map_app by done. rewrite !(assoc_L (++)). f_equiv. apply Permutation_app_comm.
Qed.

(** ** Refresh *)

(** The refresh of one rank, as it is queued. *)
Definition refresh_request (i x rank : Z) : Request :=
  set_arrive x (Request_addr_vec (refresh_addr spec i rank) REFRESH (-1)).

Lemma refresh_target_queue i h (c c' : Controller L C S) rank :
  ctrl_inv spec pr i h c → refresh_target spec rank (-1) (-1) c = Some c' →
  q (otherq c') = q (otherq c) ++ [refresh_request i (clk c) rank].
Proof.
  intros Hc H. unfold refresh_target in H. assert (nid (info (channel c)) = i) as E by (eapply chan_id, Hc).
  rewrite E in H. unfold enqueue, accept in H. simpl in H. destruct (4 <=? _); [|done].
  destruct (_ =? _); by simplify_eq/=.
Qed.

Lemma inject_loop_queue i h (c c' : Controller L C S) (l : list (DRAM L C S)) :
  ctrl_inv spec pr i h c → (∀ r, r ∈ l → 0 ≤ nid (info r) < default 0 (count spec !! 1%nat)) →
  foldM (λ c rank, refresh_target spec (nid (info rank)) (-1) (-1) c) c l = Some c' →
  q (otherq c') = q (otherq c) ++ map (λ r, refresh_request i (clk c) (nid (info r))) l.
Proof.
  revert c. induction l as [|r l IH]; intros c Hc Hl H; simpl in H; [simplify_eq; by rewrite app_nil_r|]. run_opt.
  match goal with H : refresh_target _ _ _ _ _ = Some ?x |- _ => rename H into Ht; rename x into c1 end.
  pose proof (refresh_target_ok spec pr i h c _ Hc (Hl r (list_elem_of_here _ _))) as Hok.
  case_match; [|congruence]. destruct Hok as (c1'&Ht'&Hc1&_&(Hclk&_)&_). rewrite Ht in Ht'. simplify_eq.
  rewrite (IH c1' Hc1 (λ r Hr, Hl r (list_elem_of_further _ _ _ Hr)) H), Hclk.
  rewrite (refresh_target_queue i h c c1' _ Hc Ht). by rewrite <-(assoc_L (++)).
Qed.

Lemma tick_ref_queue i h (c c' : Controller L C S) :
  ctrl_inv spec pr i h c → tick_ref spec c = Some c' →
  q (otherq c') = q (otherq c) ++
    (if due spec c then map (λ j, refresh_request i (clk c) (Z.of_nat j)) (seq 0 (child_count spec 0)) else []).
Proof.
  intros Hc H. unfold tick_ref in H. fold (due spec c) in H. simpl in H. unfold due.
  destruct (nREFI spec <=? _); [|simplify_eq/=; by rewrite app_nil_r].
  unfold inject_refresh in H. simpl in H. run_opt. simpl.
  destruct (ranks_of spec pr i h c Hc) as [Hids Hmap].
  match goal with H : foldM _ ?c0 _ = Some _ |- _ =>
    rewrite (inject_loop_queue i h c0 _ (children (channel c))); [|by apply (inv_frame spec pr i h c)|done|exact H] end.
  simpl. f_equal. rewrite <-(map_map Z.of_nat), <-Hmap. by rewrite map_map.
Qed.

(** ** The write-drain mode *)

(** The queue the controller schedules from is empty only if all are. *)
Lemma pick_queue_busy (c : Controller L C S) :
  2 ≤ qmax (writeq c) → q (queue_of (pick_queue (switch_mode c)) (switch_mode c)) = [] →
  q (readq c) = [] ∧ q (writeq c) = [] ∧ q (otherq c) = [].
Proof.
  intros Hmax. assert (∀ s, queue_of s (switch_mode c) = queue_of s c) as Hq.
  { unfold switch_mode. intros []; by repeat case_match. }
  rewrite Hq. pose proof (Hq OtherQ) as Ho. simpl in Ho. unfold pick_queue. rewrite Ho.
  assert (∀ x, qsize x = 0 ↔ q x = []) as Hnil.
  { intros x. unfold qsize. destruct (q x); simpl; split; try done; lia. }
  assert (∀ x, 0 ≤ qsize x) as Hpos by (intros x; unfold qsize; lia).
  assert (1 ≤ 8 * qmax (writeq c) / 10) by (apply Z.div_le_lower_bound; lia).
  assert (0 ≤ 2 * qmax (writeq c) / 10) by (apply Z.div_pos; lia).
  rewrite <-!Hnil. pose proof (Hpos (readq c)). pose proof (Hpos (writeq c)).
  destruct (qsize (otherq c) =? 0) eqn:Eo; simpl; [apply Z.eqb_eq in Eo|apply Z.eqb_neq in Eo; tauto].
  unfold switch_mode. destruct (write_mode c) eqn:Ew; simpl.
  - destruct (_ && _) eqn:E; simpl; rewrite ?Ew; simpl; rewrite ?andb_true_iff, ?andb_false_iff in E; lia.
  - destruct (_ || _) eqn:E; simpl; rewrite ?Ew; simpl; rewrite ?orb_true_iff, ?orb_false_iff in E; lia.
Qed.

(** ** The counters of requests in flight *)
Lemma serve_inv_node act p i k (d n : DRAM L C S) a m :
  serve_inv act p i d → shaped spec k d → length p = k → (k ≤ m)%nat → take (k + 1) a = p ++ [i] →
  node_at spec a m d = Some n →
  cur_serving_requests (stats (info n)) = Z.of_nat (length (passing (take (m + 1) a) act)).
Proof.
  intros Hs Hd. revert p i Hs. induction Hd as [k n0 cs Hl Hmax Hlen Hid Hch IH]; intros p i Hs Hp Hm Ha Hn.
  inversion Hs as [? ? ? ? Hcur _ Hsub]; subst p0 i0 n1 cs0. cbn [node_at] in Hn. case_decide as E.
  - injection Hn as <-. simpl. assert (m = k) as -> by lia. by rewrite Ha.
  - rewrite Hl in *. destruct (a !! (k + 1)%nat) as [x|] eqn:Hx; simpl in Hn; [|done].
    rewrite at_child_lookup in Hn. destruct (zlookup cs x) as [c|] eqn:Hz; simpl in Hn; [|done].
    unfold zlookup in Hz. destruct (x <? 0) eqn:Hx0; [done|].
    eapply (IH _ _ Hz (p ++ [i]) x); [| | | |done].
    + specialize (Hsub _ _ Hz). by rewrite Z2Nat.id in Hsub by lia.
    + rewrite length_app. simpl. lia.
    + lia.
    + replace (k + 1 + 1)%nat with (Datatypes.S (k + 1)) by lia. rewrite (take_S_r _ _ x) by done. by rewrite Ha.
Qed.

End Reads.
