(* ===== verification/ControllerTheorems.v ===== *)
(** * Theorems on the memory controller

    What holds of every controller reached from its constructor by [enqueue]s
    of reads and writes and by [tick]s, for every standard with the laws
    [CtrlLaws]; the witnesses run a DDR3 controller. *)

From S2P Require Import Prelude Request Dram DramTiming BankProtocol Device BankMap Serving Standard.
From S2P Require Import Scheduler SchedulerTheorems Controller CtrlQueries ControllerInv ControllerTick ControllerReads.
From S2P Require Import SpecDDR3 DeviceTheorems.

Section Reach.
Context {L C S : Type} `{!EqDecision L, !EqDecision C, !EqDecision S}.
Variables (spec : Spec L C S) (pr : Proto L C S).

(** The controllers of channel [i] that a run of the program can reach. *)
Inductive ctrl_reachable (l : L) (i : Z) : Controller L C S → Prop :=
| CReach_new n d : new_channel spec l i = Some d → ctrl_reachable l i (new_controller n d)
| CReach_enqueue c req :
    ctrl_reachable l i c → type req = READ ∨ type req = WRITE → rw_addr spec i (addr_vec req) →
    is_first_command req = true → ctrl_reachable l i (snd (enqueue req c))
| CReach_tick c done c' :
    ctrl_reachable l i c → tick spec c = Some (done, c') → ctrl_reachable l i c'
| CReach_record c k c' : ctrl_reachable l i c → record_core k c = Some c' → ctrl_reachable l i c'.

Context `{CL : !CtrlLaws spec pr}.

(** [record_core] writes a copy of the statistics only. *)
Lemma record_core_inv i h c k c' : ctrl_inv spec pr i h c → record_core k c = Some c' → ctrl_inv spec pr i h c'.
Proof. intros [? ? ? ? ? ? ? ? ?] H. unfold record_core in H. run_opt. by split. Qed.

(** The vectors of the statistics keep their size. *)
Lemma ctrl_reachable_sized l i c : ctrl_reachable l i c → sized (num_cores c) c.
Proof.
  intros Hr. enough (∃ n, sized n c) as [n Hn] by (by rewrite (sized_num n c Hn)).
  induction Hr as [n d Hd|c req _ [n IH] Hty Ha Hf|c done c' _ [n IH] Ht|c k c' _ [n IH] Hk].
  - exists n. by apply (cores_new n (λ _, True)).
  - exists n. apply sized_any in IH. apply sized_any. apply cores_enqueue; [done|by intros _].
  - exists n. apply sized_any in IH. apply sized_any. by eapply cores_tick.
  - exists n. apply sized_any in IH. apply sized_any. by eapply cores_record.
Qed.

Lemma ctrl_reachable_inv l i c :
  level_cast spec 0 = Some l → ctrl_reachable l i c → ctrl_inv spec pr i (cmd_trace c) c.
Proof.
  intros Hl. assert (∀ h, ctrl_inv spec pr i h c → ctrl_inv spec pr i (cmd_trace c) c) as Htr.
  { intros h Hh. by rewrite (ci_trace _ _ _ _ _ Hh). }
  intros Hr. enough (∃ h, ctrl_inv spec pr i h c) as [h Hh] by eauto. clear Htr.
  induction Hr as [n d Hd|c req _ [h IH] Hty Ha Hf|c done c' Hr [h IH] Ht|c k c' _ [h IH] Hk].
  - exists []. by eapply (new_controller_inv spec pr).
  - exists h. apply (enqueue_ok spec pr i h c req IH); [|done]. unfold request_wf. by destruct Hty as [-> | ->].
  - pose proof (tick_ok spec pr i h _ c IH (ctrl_reachable_sized l i c Hr)) as Hok. case_match; [congruence|].
    destruct Hok as (done'&c''&h'&Ht'&Hinv&_). rewrite Ht in Ht'. simplify_eq. by exists h'.
  - exists h. by eapply record_core_inv.
Qed.

(** ** Claims *)

(** C8: the controller never violates a timing constraint: the trace of the
    commands of any reachable controller is one in which every command was
    legal, for every constraint of every level, after the commands before it;
    and there is at most one command per clock cycle. *)
Theorem controller_trace_legal l i c :
  level_cast spec 0 = Some l → ctrl_reachable l i c →
  legal_history spec (cmd_trace c) ∧ Forall (λ e, 0 ≤ snd e ≤ clk c) (cmd_trace c).
Proof.
  intros Hl Hc. destruct (ctrl_reachable_inv l i c Hl Hc) as [Hch _ _ _ _ _ _ _ _].
  destruct Hch as [Hd Hleg Hpast _ _]. split; [done|]. destruct Hd as (_&_&He).
  rewrite Forall_forall in Hpast, He |- *. intros [[cmd a] x] Hin. specialize (Hpast _ Hin). specialize (He _ Hin).
  simpl in *. lia.
Qed.

(** C9: no [assert] of the controller, its scheduler, its row table, its
    statistics or its device fails on a reachable controller, with two
    exceptions.  A cycle aborts when the refreshes are due and the queue of
    other requests has no room for one per rank ([assert(res)] in
    [refresh_target]), or when it picks a read or a write for its first command
    whose core is not one of those the per-core statistics count
    ([VectorStat::operator[]]); and then only. *)
Theorem tick_aborts_iff l i c :
  level_cast spec 0 = Some l → ctrl_reachable l i c →
  tick spec c = None ↔
    (nREFI spec ≤ ref_clk (refresh c) + 1 - refreshed (refresh c) ∧
     qmax (otherq c) - qsize (otherq c) < Z.of_nat (child_count spec 0)) ∨
    (∃ req, served spec c = Some req ∧ is_first_command req = true ∧ (type req = READ ∨ type req = WRITE) ∧
      ¬ (0 ≤ coreid req < Z.of_nat (num_cores c))).
Proof.
  intros Hl Hc. pose proof (tick_ok spec pr i _ _ c (ctrl_reachable_inv l i c Hl Hc) (ctrl_reachable_sized l i c Hc)) as Hok.
  unfold due, room in Hok. simpl in Hok. rewrite <-Z.leb_le, <-Z.ltb_lt, <-andb_true_iff, <-uncounted_iff, <-orb_true_iff.
  destruct (_ || _); [done|]. destruct Hok as (?&?&?&->&_). done.
Qed.

(** C10: the row table is an exact image of the device: it has an entry for a
    bank exactly when the bank has a row open, with that row. *)
Theorem row_table_mirrors_device l i c rg :
  level_cast spec 0 = Some l → ctrl_reachable l i c →
  row <$> rowtable c !! rg = open_at spec i (channel c) rg.
Proof. intros Hl Hc. apply (chan_mirror _ _ _ _ _ _ _ (ci_chan _ _ _ _ _ (ctrl_reachable_inv l i c Hl Hc))). Qed.

(** C11: the counters of requests in flight are exact at every node of the
    device: [cur_serving_requests] of a node is the number of reads and writes
    whose first command was issued and that are not finished, with an address
    through that node. *)
Theorem serving_counters_exact l i c a m n :
  level_cast spec 0 = Some l → ctrl_reachable l i c → a !! 0%nat = Some i →
  node_at spec a m (channel c) = Some n →
  cur_serving_requests (stats (info n)) = Z.of_nat (length (passing (take (m + 1) a) (started c))).
Proof.
  intros Hl Hc Ha Hn. pose proof (ctrl_reachable_inv l i c Hl Hc) as Hinv.
  eapply serve_inv_node; [apply (ci_serving _ _ _ _ _ Hinv)|eapply chan_shaped, Hinv|done|lia| |done].
  by destruct a; simplify_eq/=.
Qed.

(** [enqueue] refuses a request exactly when its queue is full, and then
    changes nothing.  A read of an address that a queued write is going to
    write joins no queue: it is answered in the next cycle.  Every other
    request is appended to its queue with the current clock. *)
Theorem enqueue_spec (req : Request) (c : Controller L C S) :
  enqueue req c =
    let s := get_queue (type req) in
    let req' := set_arrive (clk c) req in
    if qmax (queue_of s c) =? qsize (queue_of s c) then (false, c)
    else if bool_decide (type req = READ ∧ Exists (λ w, addr w = addr req) (q (writeq c)))
    then (true, set_pending (pending c ++ [set_depart (clk c + 1) req']) c)
    else (true, set_queue s (q (queue_of s c) ++ [req']) c).
Proof.
  unfold enqueue, accept. cbv zeta. case_match; [done|]. simpl.
  assert (∀ x : list Request, (bool_decide (type req = READ) && existsb (λ w, addr req =? addr w) x) =
    bool_decide (type req = READ ∧ Exists (λ w, addr w = addr req) x)) as E.
  { intros x. apply eq_bool_prop_intro. rewrite andb_True, !bool_decide_spec. apply and_iff_compat_l.
    rewrite Exists_exists, Is_true_true, existsb_exists. setoid_rewrite <-list_elem_of_In.
    split; intros (w&?&?); exists w; split; try done; lia. }
  destruct (decide (type req = READ)) as [Hr|Hr].
  - rewrite Hr in *. simpl in *. rewrite E. case_bool_decide; [|done].
    rewrite removelast_last. by destruct c as [? ? ? ? ? ? []].
  - rewrite (bool_decide_false (type req = READ)), bool_decide_false by tauto. done.
Qed.

(** C12: the controller neither loses nor duplicates a read: the reads waiting
    in the read queue or for their data before a cycle are, up to order, the
    reads completed in the cycle, whose data is due, and the reads waiting
    after it. *)
Theorem reads_conserved l i c c' done :
  level_cast spec 0 = Some l → ctrl_reachable l i c → tick spec c = Some (done, c') →
  map key (reads c) ≡ₚ map key done ++ map key (reads c') ∧ Forall (λ r, depart r ≤ clk c') done.
Proof.
  intros Hl Hc Ht. pose proof (ctrl_reachable_sized l i c Hc) as Hn.
  destruct (tick_reads spec pr i _ _ c c' done (ctrl_reachable_inv l i c Hl Hc) Hn Ht) as (?&?&_). done.
Qed.

Lemma refresh_inv l i c :
  level_cast spec 0 = Some l → ctrl_reachable l i c → 0 < nREFI spec →
  ref_clk (refresh c) = clk c ∧ refreshed (refresh c) = nREFI spec * (clk c / nREFI spec).
Proof.
  intros Hl Hc Hn. induction Hc as [n d Hd|c req Hc IH Hty Ha Hf|c done c' Hc IH Ht|c k c' _ IH Hk]; [| | |unfold record_core in Hk; by run_opt].
  - simpl. by rewrite Z.div_0_l, Z.mul_0_r by lia.
  - unfold enqueue, accept. case_match; [done|]. set (s := get_queue (type req)).
    destruct (set_queue_frame s (q (queue_of s c) ++ [set_arrive (clk c) req]) c) as (E1&_&_&_&_&E6&_).
    case_match; simpl; by rewrite E1, E6.
  - pose proof (ctrl_reachable_inv l i c Hl Hc) as Hinv.
    pose proof (ctrl_reachable_sized l i c Hc) as Hsz.
    destruct (tick_reads spec pr i _ _ c c' done Hinv Hsz Ht) as (_&_&->). simpl. destruct IH as [E1 E2].
    pose proof (tick_ok spec pr i _ _ c Hinv Hsz) as Hok. case_match; [congruence|].
    destruct Hok as (done'&c''&h'&Ht'&_&Hclk&_). rewrite Ht in Ht'. simplify_eq. rewrite Hclk, E1. split; [done|].
    unfold due. rewrite E1, E2. set (x := clk c). set (n := nREFI spec). fold n in Hn.
    pose proof (Z.mod_pos_bound x n Hn). pose proof (Z.div_mod x n). pose proof (Z.mod_eq x n).
    destruct (n <=? x + 1 - n * (x / n)) eqn:E.
    + assert ((x + 1) / n = x / n + 1) as -> by (symmetry; apply (Z.div_unique_pos _ _ _ 0); nia). nia.
    + assert ((x + 1) / n = x / n) as -> by (symmetry; apply (Z.div_unique_pos _ _ _ (x mod n + 1)); nia). done.
Qed.

(** C13: refreshes are queued on time: the last refresh of a reachable
    controller was queued at the last multiple of [nREFI], and in a cycle that
    reaches the next multiple [tick_ref] queues one refresh for every rank, in
    order, with the current clock. *)
Theorem refresh_on_time l i c :
  level_cast spec 0 = Some l → ctrl_reachable l i c → 0 < nREFI spec →
  ref_clk (refresh c) = clk c ∧ refreshed (refresh c) = nREFI spec * (clk c / nREFI spec) ∧
  ∀ c', tick_ref spec c = Some c' →
    q (otherq c') = q (otherq c) ++
      (if (clk c + 1) mod nREFI spec =? 0
       then map (λ j, refresh_request spec i (clk c) (Z.of_nat j)) (seq 0 (child_count spec 0)) else []).
Proof.
  intros Hl Hc Hn. destruct (refresh_inv l i c Hl Hc Hn) as [E1 E2]. split_and!; [done..|]. intros c' Ht.
  rewrite (tick_ref_queue spec pr i _ c c' (ctrl_reachable_inv l i c Hl Hc) Ht).
  assert (due spec c = ((clk c + 1) mod nREFI spec =? 0)) as ->; [|done].
  unfold due. rewrite E1, E2. set (x := clk c). set (n := nREFI spec). fold n in Hn.
  pose proof (Z.mod_pos_bound x n Hn). pose proof (Z.mod_eq x n).
  destruct (n <=? x + 1 - n * (x / n)) eqn:E; symmetry.
  - apply Z.eqb_eq. symmetry. apply (Z.mod_unique_pos (x + 1) n (x / n + 1) 0); nia.
  - apply Z.eqb_neq. rewrite <-(Z.mod_unique_pos (x + 1) n (x / n) (x mod n + 1)); nia.
Qed.

(** C14: the write-drain mode never idles the controller: after [tick] chose
    the mode, the queue it schedules from is empty only when all three queues
    are; and then the scheduler returns a request whenever one is waiting. *)
Theorem schedule_work_conserving l i c :
  level_cast spec 0 = Some l → ctrl_reachable l i c → 2 ≤ qmax (writeq c) →
  let c' := switch_mode c in
  ∃ head, get_head spec (view_of spec c') (scheduler c') (q (queue_of (pick_queue c') c')) (rowtable c') =
      Some (head, rowtable c') ∧
    (head = None → q (readq c) = [] ∧ q (writeq c) = [] ∧ q (otherq c) = []).
Proof.
  intros Hl Hc Hmax c'. destruct (switch_mode_ok spec pr i _ c (ctrl_reachable_inv l i c Hl Hc)) as [Hinv _].
  destruct (head_ok spec pr i _ c' (pick_queue c') Hinv) as (o&Ho&Hsome). exists o. split; [done|].
  intros ->. by apply pick_queue_busy.
Qed.

End Reach.

(** ** Runs of a controller *)
Inductive action := Enqueue (req : Request) | Tick.

Section Run.
Context {L C S : Type} `{!EqDecision L, !EqDecision C, !EqDecision S}.
Variables (spec : Spec L C S) (pr : Proto L C S).

Definition act (x : action) (c : Controller L C S) : option (Controller L C S) :=
  match x with Enqueue req => Some (snd (enqueue req c)) | Tick => '(_, c) ← tick spec c; Some c end.
Definition run (xs : list action) (c : Controller L C S) : option (Controller L C S) :=
  foldM (λ c x, act x c) c xs.

Definition action_ok (i : Z) (x : action) : Prop :=
  match x with
  | Enqueue req => (type req = READ ∨ type req = WRITE) ∧ rw_addr spec i (addr_vec req) ∧ is_first_command req = true
  | Tick => True
  end.

Lemma run_reachable l i xs c c' :
  ctrl_reachable spec l i c → Forall (action_ok i) xs → run xs c = Some c' → ctrl_reachable spec l i c'.
Proof.
  revert c. induction xs as [|x xs IH]; intros c Hc Hx H; simpl in H; [by simplify_eq|]. run_opt.
  inversion Hx as [|? ? Hok Hxs]; subst. eapply IH; [|done|done]. destruct x as [req|]; simpl in *.
  - simplify_eq. destruct Hok as (?&?&?). by apply CReach_enqueue.
  - run_opt. match goal with p : list Request * _ |- _ => destruct p as [done c2] end. simplify_eq. by eapply CReach_tick.
Qed.
End Run.

(** *** Witnesses: a DDR3 controller for two cores, with two reads of one bank
    and a write. *)
#[export] Instance ddr3_ctrl : CtrlLaws spec3 DDR3.proto.
Proof. apply (DDR3_ctrl ddr3). vm_compute. reflexivity. Qed.

Definition read3 : Request := set_addr_vec addr3 (Request_addr 64 READ 0).
Definition read3' : Request := set_addr_vec addr3' (Request_addr 128 READ 0).
Definition write3 : Request := set_addr_vec addr3' (Request_addr 192 WRITE 1).
Definition ticks (n : nat) : list action := replicate n Tick.

Definition ctrl3_new : Controller DDR3.Level DDR3.Command DDR3.State := new_controller 2 ddr3_new.
(** The same controller with another scheduler or row policy. *)
Definition ctrl3_with (x : Scheduler) (p : RowPolicy) : Controller DDR3.Level DDR3.Command DDR3.State :=
  mkCtrl 0 ddr3_new x p ∅ (mkRefresh 0 0 [0; 0]) Queue0 Queue0 Queue0 [] false false (ctrl_stats0 2) (ctrl_record0 2) [].

Lemma addr3'_ok : addr_ok spec3 addr3'.
Proof.
  split; [done|]. intros k x Hk Hpos. do 5 (destruct k as [|k]; [simplify_eq/=; vm_compute; done || lia|]). done.
Qed.

Lemma actions3_ok n : Forall (action_ok spec3 0) ([Enqueue read3; Enqueue read3'; Enqueue write3] ++ ticks n).
Proof.
  apply Forall_app; split; [|by apply Forall_replicate].
  assert (rw_addr spec3 0 addr3) by (split_and!; [apply addr3_ok|apply addr3_path|done]).
  assert (rw_addr spec3 0 addr3') by (split_and!; [apply addr3'_ok|apply addr3'_path|done]).
  repeat (apply Forall_cons; split); [split_and!; [by left|done|done]..| |by apply Forall_nil].
  split_and!; [by right|done|done].
Qed.

(** After 26 cycles: the first read was issued in cycle 12, and waits for its
    data; the other requests wait for the bank. *)
Definition ctrl3 : Controller DDR3.Level DDR3.Command DDR3.State :=
  default ctrl3_new (run spec3 ([Enqueue read3; Enqueue read3'; Enqueue write3] ++ ticks 26) ctrl3_new).

Lemma ctrl3_reachable : ctrl_reachable spec3 DDR3.Channel 0 ctrl3.
Proof.
  apply (run_reachable spec3 DDR3.Channel 0 ([Enqueue read3; Enqueue read3'; Enqueue write3] ++ ticks 26) ctrl3_new).
  - apply CReach_new, ddr3_new_eq.
  - apply actions3_ok.
  - apply (Some_default ctrl3_new). vm_compute. reflexivity.
Qed.

Lemma controller_trace_legal_witness :
  legal_history spec3 [(DDR3.RD, addr3, 12); (DDR3.ACT, addr3, 1)] ∧ Forall (λ e, 0 ≤ snd e ≤ clk ctrl3) (cmd_trace ctrl3).
Proof.
  assert (cmd_trace ctrl3 = [(DDR3.RD, addr3, 12); (DDR3.ACT, addr3, 1)]) as E by (vm_compute; reflexivity).
  rewrite <-E. apply (controller_trace_legal spec3 DDR3.proto DDR3.Channel 0 ctrl3); [reflexivity|apply ctrl3_reachable].
Defined.

(** A request without a core, as [Request]'s default constructor leaves it. *)
Definition read3_none : Request := set_addr_vec addr3 (Request_addr 64 READ (-1)).
Definition ctrl3_none : Controller DDR3.Level DDR3.Command DDR3.State := snd (enqueue read3_none ctrl3_new).

Lemma ctrl3_none_reachable : ctrl_reachable spec3 DDR3.Channel 0 ctrl3_none.
Proof.
  apply CReach_enqueue; [apply CReach_new, ddr3_new_eq|by left| |done].
  split_and!; [apply addr3_ok|apply addr3_path|done].
Qed.

Lemma tick_aborts_iff_witness :
  (tick spec3 ctrl3 ≠ None) ∧ tick spec3 ctrl3_none = None.
Proof.
  assert (served spec3 ctrl3 = None) as E1 by (vm_compute; reflexivity).
  assert (option_map coreid (served spec3 ctrl3_none) = Some (-1)) as E2 by (vm_compute; reflexivity).
  assert (option_map type (served spec3 ctrl3_none) = Some READ) as E3 by (vm_compute; reflexivity).
  assert (option_map is_first_command (served spec3 ctrl3_none) = Some true) as E4 by (vm_compute; reflexivity).
  split.
  - intros H. apply (tick_aborts_iff spec3 DDR3.proto DDR3.Channel 0 ctrl3) in H; [|reflexivity|apply ctrl3_reachable].
    destruct H as [[H _]|(req&E&_)]; [vm_compute in H; congruence|congruence].
  - apply (tick_aborts_iff spec3 DDR3.proto DDR3.Channel 0 ctrl3_none); [reflexivity|apply ctrl3_none_reachable|].
    right. destruct (served spec3 ctrl3_none) as [req|]; [|discriminate E2]. exists req. simpl in *.
    injection E2 as ->. injection E3 as ->. injection E4 as ->. split_and!; [done|done|by left|lia].
Defined.

Lemma row_table_mirrors_device_witness :
  row <$> rowtable ctrl3 !! [0; 1; 3] = open_at spec3 0 (channel ctrl3) [0; 1; 3].
Proof.
  apply (row_table_mirrors_device spec3 DDR3.proto DDR3.Channel 0 ctrl3); [reflexivity|apply ctrl3_reachable].
Defined.

Definition bank_ctrl3 : DRAM DDR3.Level DDR3.Command DDR3.State :=
  default ddr3_dummy (node_at spec3 addr3 2 (channel ctrl3)).

Lemma bank_ctrl3_eq : node_at spec3 addr3 2 (channel ctrl3) = Some bank_ctrl3.
Proof. apply (Some_default ddr3_dummy). vm_compute. reflexivity. Qed.

Lemma serving_counters_exact_witness :
  cur_serving_requests (stats (info bank_ctrl3)) =
    Z.of_nat (length (passing (take (2 + 1) addr3) (started ctrl3))).
Proof.
  apply (serving_counters_exact spec3 DDR3.proto DDR3.Channel 0 ctrl3 addr3 2 bank_ctrl3);
    [reflexivity|apply ctrl3_reachable|reflexivity|apply bank_ctrl3_eq].
Defined.

(** The next cycle completes the read. *)
Definition tick3 : list Request * Controller DDR3.Level DDR3.Command DDR3.State :=
  default ([], ctrl3_new) (tick spec3 ctrl3).

Lemma tick3_returns : tick spec3 ctrl3 = Some tick3.
Proof. unfold tick3. apply (Some_default ([], ctrl3_new) (tick spec3 ctrl3)). vm_compute. reflexivity. Qed.

Lemma tick3_eq : tick spec3 ctrl3 = Some (fst tick3, snd tick3).
Proof. rewrite tick3_returns. exact (f_equal Some (surjective_pairing tick3)). Qed.

Lemma tick3_done : map key (fst tick3) = [(64, addr3, -1, 0, 0)].
Proof. vm_compute. reflexivity. Qed.

Lemma reads_conserved_witness :
  map key (reads ctrl3) ≡ₚ map key (fst tick3) ++ map key (reads (snd tick3)) ∧
  Forall (λ r, depart r ≤ clk (snd tick3)) (fst tick3).
Proof.
  apply (reads_conserved spec3 DDR3.proto DDR3.Channel 0 ctrl3 (snd tick3) (fst tick3));
    [reflexivity|apply ctrl3_reachable|apply tick3_eq].
Defined.

Lemma refresh_on_time_witness :
  ref_clk (refresh ctrl3) = clk ctrl3 ∧ refreshed (refresh ctrl3) = nREFI spec3 * (clk ctrl3 / nREFI spec3).
Proof.
  destruct (refresh_on_time spec3 DDR3.proto DDR3.Channel 0 ctrl3) as (E1&E2&_);
    [reflexivity|apply ctrl3_reachable|vm_compute; reflexivity|]. split; [exact E1|exact E2].
Defined.

Lemma schedule_work_conserving_witness :
  ∃ head, get_head spec3 (view_of spec3 (switch_mode ctrl3)) (scheduler (switch_mode ctrl3))
      (q (queue_of (pick_queue (switch_mode ctrl3)) (switch_mode ctrl3))) (rowtable (switch_mode ctrl3)) =
      Some (head, rowtable (switch_mode ctrl3)) ∧
    (head = None → q (readq ctrl3) = [] ∧ q (writeq ctrl3) = [] ∧ q (otherq ctrl3) = []).
Proof.
  apply (schedule_work_conserving spec3 DDR3.proto DDR3.Channel 0 ctrl3);
    [reflexivity|apply ctrl3_reachable|vm_compute; congruence].
Defined.

(** The capped scheduler does not work: under [FRFCFS_Cap],
    [RowTable::get_hits] inserts an entry for a bank that has no row open, the
    activation does not replace it, and the first read of the bank fails the
    [assert] that its row is the entry's row.  Two reads of one bank suffice to
    abort a DDR3 controller in cycle 12; the default scheduler serves them. *)
Theorem frfcfs_cap_aborts :
  run spec3 ([Enqueue read3; Enqueue read3] ++ ticks 12) (ctrl3_with (mkScheduler FRFCFS_Cap 16) RowPolicy0) = None ∧
  cmd_trace <$> run spec3 ([Enqueue read3; Enqueue read3] ++ ticks 16) ctrl3_new =
    Some [(DDR3.RD, addr3, 16); (DDR3.RD, addr3, 12); (DDR3.ACT, addr3, 1)].
Proof. split; vm_compute; reflexivity. Qed.

(** The closed-row and timeout policies read outside a vector: the victim
    they propose is a key of the row table, which ends at the bank, while
    [check] reads the coordinate below the bank.  One read and the cycles until
    the bank may be precharged suffice. *)
Theorem closed_row_policy_out_of_range :
  let closed := ctrl3_with Scheduler0 (mkRowPolicy ClosedRow 50) in
  let timeout := ctrl3_with Scheduler0 (mkRowPolicy TimeoutRow 50) in
  clk <$> run spec3 ([Enqueue read3] ++ ticks 28) closed = Some 28 ∧
  run spec3 ([Enqueue read3] ++ ticks 29) closed = None ∧
  clk <$> run spec3 ([Enqueue read3] ++ ticks 61) timeout = Some 61 ∧
  run spec3 ([Enqueue read3] ++ ticks 62) timeout = None.
Proof. split_and!; vm_compute; reflexivity. Qed.
