(* ===== verification/WideController.v ===== *)
(** * The controller of WideIO2 ([ramulator/src/Controller.cpp])

    [Controller<WideIO2>::tick] replaces the generic [tick]: a request is served
    in [burst_count] column commands, one per issue, and leaves its queue with
    the last of them.  The other phases of the cycle are the generic ones.  The
    file proves that the cycle keeps the controller's invariant and that the
    bursts are accounted for: as many column commands are issued as bursts are
    taken off the queued requests. *)

From S2P Require Import Prelude Request Dram DramTiming BankProtocol Device BankMap Serving Standard.
From S2P Require Import Scheduler SchedulerTheorems Controller CtrlQueries ControllerInv ControllerTick ControllerReads.
From S2P Require Import SpecWideIO2.

Abbreviation WideCtrl := (Controller WideIO2.Level WideIO2.Command WideIO2.State).

Section Ops.
Variable o : WideIO2.WideIO2.
Abbreviation spec := (WideIO2.spec o).

(** One burst of the request at index [i] is done: [--req->burst_count]; with
    the last burst a read goes to [pending], and the request leaves its queue. *)
Definition wide_complete (s : QSel) (i : nat) (req : Request) (c : WideCtrl) : option WideCtrl :=
  let req := if is_rw (type req) then set_burst_count (burst_count req - 1) req else req in
  let last := burst_count req =? 0 in
  let req := if bool_decide (type req = READ) && last
             then set_depart (clk c + read_latency spec) req else req in
  let c := set_queue s (<[i := req]> (q (queue_of s c))) c in
  let c := if bool_decide (type req = READ) && last then set_pending (pending c ++ [req]) c else c in
  c ← if bool_decide (type req = WRITE) && last then serving spec (addr_vec req) (-1) c else Some c;
  Some (if last then set_queue s (delete i (q (queue_of s c))) c else c).

(** The command of the request at index [i], which is ready. *)
Definition wide_issue_request (s : QSel) (i : nat) (req : Request) (c : WideCtrl) : option WideCtrl :=
  c ← first_command spec s i req c;
  cmd ← get_first_cmd spec c req;
  c ← issue_cmd spec cmd (addr_vec req) c;
  if decide (cmd ≠ translate spec (type req)) then Some c
  else
    req ← q (queue_of s c) !! i;
    wide_complete s i req c.

(** [tick()] *)
Definition wide_tick : WideCtrl → option (list Request * WideCtrl) := tick_with spec wide_issue_request.

End Ops.

(** ** The bursts still to be served, and the column commands issued *)
Section Bursts.
Variable o : WideIO2.WideIO2.
Context `{Hcount : !CountOK 5 (WideIO2.count (WideIO2.org_entry o))}.
Hypothesis Hlat : 1 < read_latency (WideIO2.spec o).
#[local] Instance wide_ctrl : CtrlLaws (WideIO2.spec o) WideIO2.proto := WideIO2_ctrl o Hlat.

Abbreviation spec := (WideIO2.spec o).
Abbreviation pr := WideIO2.proto.
Abbreviation hist := (list (event (C := WideIO2.Command))).

Fixpoint total (l : list Request) : Z :=
  match l with [] => 0 | r :: l => burst_count r + total l end.
Definition bursts (c : WideCtrl) : Z := total (q (readq c)) + total (q (writeq c)).
Definition is_column (e : event (C := WideIO2.Command)) : bool :=
  match e.1.1 with WideIO2.RD | WideIO2.WR => true | _ => false end.
Fixpoint columns (h : hist) : Z :=
  match h with [] => 0 | e :: h => (if is_column e then 1 else 0) + columns h end.

(** Every queued read and write has bursts left; a refresh has none. *)
Definition has_bursts (r : Request) : Prop :=
  if is_rw (type r) then 1 ≤ burst_count r else burst_count r = 0.
Record wide_inv (i : Z) (h : hist) (c : WideCtrl) : Prop := {
  wi_base : ctrl_inv spec pr i h c;
  wi_bursts s : Forall has_bursts (q (queue_of s c))
}.

(** *** Lists of requests *)
Lemma total_app l l' : total (l ++ l') = total l + total l'.
Proof. induction l; simpl; lia. Qed.

Lemma total_lookup l j r : l !! j = Some r → total l = burst_count r + total (delete j l).
Proof.
  revert j. induction l as [|x l IH]; intros [|j] H; simplify_eq/=; [done|]. rewrite (IH _ H). simpl. lia.
Qed.

Lemma total_insert l j r r' : l !! j = Some r → total (<[j:=r']> l) = total l - burst_count r + burst_count r'.
Proof.
  revert j. induction l as [|x l IH]; intros [|j] H; simplify_eq/=; [lia|]. rewrite (IH _ H). lia.
Qed.

Lemma bursts_set s l (c : WideCtrl) :
  s ≠ OtherQ → bursts (set_queue s l c) = bursts c - total (q (queue_of s c)) + total l.
Proof. intros Hs. unfold bursts. destruct s; simpl; [lia..|done]. Qed.

Lemma bursts_other l (c : WideCtrl) : bursts (set_queue OtherQ l c) = bursts c.
Proof. done. Qed.

Lemma bursts_queues (c c' : WideCtrl) : (∀ s, s ≠ OtherQ → queue_of s c' = queue_of s c) → bursts c' = bursts c.
Proof.
  intros H. unfold bursts. pose proof (H ReadQ) as Hr. pose proof (H WriteQ) as Hw. simpl in *. by rewrite Hr, Hw.
Qed.

(** *** What a request's next command is *)

(** A column command is issued only for the request's own command. *)
Lemma next_column i h c r cmd x :
  device_ok spec pr i h (channel c) → request_wf spec pr i r →
  decode spec (translate spec (type r)) (addr_vec r) (channel c) = Some cmd →
  is_column (cmd, addr_vec r, x) = is_rw (type r) && bool_decide (cmd = translate spec (type r)).
Proof.
  intros Hd Hwf. pose proof (device_shaped spec pr i h _ Hd) as Hsh. destruct Hd as (_&Hb&_).
  assert (∀ col, rw pr col → path_ok spec (bank_idx spec) (addr_vec r) → decode spec col (addr_vec r) (channel c) = Some cmd →
    cmd ∈ [WideIO2.PDX; WideIO2.SREFX; WideIO2.ACT; WideIO2.PRE] ∨ cmd = col) as Hrw.
  { intros col Hcol Ha. destruct (sees_path spec pr (addr_vec r) (channel c)) as (rr&sp&nb&Hr&Hs&Hsp&Hone&_); [done..|].
    rewrite (sees_decode spec pr (addr_vec r) rr Ha Hr col (channel c) sp nb Hcol Hs).
    destruct (wake_cases spec pr sp nb Hsp) as [[-> Hw]|(w&Hw&Hw'&Hwm&_)]; rewrite Hw; simpl.
    - unfold row_cmd. simpl. repeat case_decide; intros; simplify_eq; try set_solver; by right.
    - rewrite decide_False by done. intros [= <-]. destruct Hw' as [-> | ->]; set_solver. }
  unfold request_wf in Hwf. destruct (type r) eqn:Ety; try done; simpl.
  - intros Hdec. destruct (Hrw WideIO2.RD) as [Hin|E]; [by left|apply Hwf|done| |by subst].
    rewrite !elem_of_cons, elem_of_nil in Hin. by destruct Hin as [->|[->|[->|[->|[]]]]].
  - intros Hdec. destruct (Hrw WideIO2.WR) as [Hin|E]; [by right|apply Hwf|done| |by subst].
    rewrite !elem_of_cons, elem_of_nil in Hin. by destruct Hin as [->|[->|[->|[->|[]]]]].
  - destruct Hwf as (_&Ha&_). pose proof (bp_levels spec pr) as [Hpb Hbr]. pose proof (row_lt (spec:=spec)).
    destruct (node_at_total spec 0 (power_idx spec pr) (addr_vec r) (channel c)) as (dp&Hp&_); [done|lia|lia|done|].
    rewrite (decode_ref spec pr (addr_vec r) _ dp Hsh Ha Hp). by case_match; intros [= <-].
Qed.

(** *** One burst *)

(** A burst that is not the last is only counted. *)
Lemma wide_complete_more s j r (c : WideCtrl) :
  burst_count (one_burst r) ≠ 0 → wide_complete o s j r c = Some (with_burst s j r c).
Proof.
  intros Hb. unfold wide_complete. fold (one_burst r). rewrite (proj2 (Z.eqb_neq _ _) Hb), !andb_false_r. done.
Qed.

(** With the last burst the request is completed as in the generic [tick]. *)
Lemma wide_complete_last s j r (c : WideCtrl) :
  burst_count (one_burst r) = 0 → get_queue (type r) = s →
  wide_complete o s j r c = complete spec s j (one_burst r) (with_burst s j r c).
Proof.
  intros Hb Hs. unfold wide_complete, complete. fold (one_burst r). rewrite Hb, Z.eqb_refl, !andb_true_r.
  destruct (one_burst_frame r) as (_&Et&Ea&_). cbv zeta.
  destruct (type r) eqn:E; simpl in Hs; subst s; repeat (rewrite Et; simpl); try done.
  by rewrite !delete_insert_list.
Qed.

Lemma complete_queues s j r (c c' : WideCtrl) :
  complete spec s j r c = Some c' →
  ∀ s', q (queue_of s' c') = if decide (s = s') then delete j (q (queue_of s c)) else q (queue_of s' c).
Proof.
  unfold complete. intros H s'. apply bind_Some in H as (c1&Hs&[= <-]). rewrite queue_of_set.
  assert (∀ s0, queue_of s0 c1 = queue_of s0 c) as Hq; [|rewrite !Hq; by destruct (decide (s = s'))].
  intros s0. destruct (decide (type r = WRITE)); [apply serving_members in Hs as (Hq&_); rewrite Hq|injection Hs as <-];
    by destruct (decide (type r = READ)), s0.
Qed.

Lemma first_command_queues s j r (c c' : WideCtrl) :
  first_command spec s j r c = Some c' → q (queue_of s c) !! j = Some r →
  ∀ s', q (queue_of s' c') =
    if decide (s = s') then <[j:=set_is_first_command false r]> (q (queue_of s c)) else q (queue_of s' c).
Proof.
  unfold first_command. intros H Hj s'. destruct (is_first_command r) eqn:Hf.
  2:{ injection H as <-. case_decide; [subst|done]. rewrite list_insert_id; [done|]. rewrite Hj. f_equal.
    destruct r; simpl in *. by subst. }
  assert (q (queue_of s' c') = q (queue_of s' (set_queue s (<[j:=set_is_first_command false r]> (q (queue_of s c))) c))) as ->.
  { destruct (is_rw (type r)); run_opt; [|done].
    match goal with H : serving _ _ _ _ = Some _ |- _ => apply serving_members in H as (Hq&_) end. by rewrite <-Hq; destruct s'. }
  rewrite queue_of_set. by case_decide.
Qed.

Lemma wide_complete_ok i h c s j r :
  wide_inv i h c → q (queue_of s c) !! j = Some r → is_first_command r = false →
  ∃ c', wide_complete o s j r c = Some c' ∧ wide_inv i h c' ∧ clk c' = clk c ∧
    bursts c = bursts c' + (if is_rw (type r) then 1 else 0).
Proof.
  intros [Hc Hb] Hj Hfirst. pose proof (queued_at spec pr _ _ _ _ _ _ Hc Hj) as (Hs&Hwf&_).
  destruct (with_burst_ok spec pr i h c s j r Hc Hj Hfirst) as [Hc1 Hj1]. set (c1 := with_burst s j r c) in *.
  destruct (one_burst_frame r) as (Ef&Et&_&_).
  assert (has_bursts r) as Hbr by (pose proof (Hb s) as Hl; rewrite Forall_lookup in Hl; eauto).
  assert (bursts c = bursts c1 + (if is_rw (type r) then 1 else 0)) as Hb1.
  { destruct (decide (s = OtherQ)) as [E|E].
    - unfold c1, with_burst. rewrite E, bursts_other. rewrite E in Hs. destruct (type r); simpl in *; done || lia.
    - unfold c1, with_burst. rewrite bursts_set, (total_insert _ _ _ _ Hj) by done. unfold one_burst.
      case_match; simpl; lia. }
  destruct (decide (burst_count (one_burst r) = 0)) as [Hz|Hz].
  - rewrite wide_complete_last by done. destruct (complete_ok spec pr i h c1 s j (one_burst r) Hc1 Hj1) as (c2&E&Hc2&Hclk2); [congruence|].
    pose proof (complete_queues _ _ _ _ _ E) as Hq. exists c2. split; [done|]. split_and!.
    + split; [done|]. intros s'. rewrite Hq. case_decide; [subst|].
      * unfold c1, with_burst. rewrite queue_set_queue, delete_insert_list. apply Forall_delete, Hb.
      * unfold c1, with_burst. rewrite queue_of_set, decide_False by done. apply Hb.
    + rewrite Hclk2. by destruct s.
    + rewrite Hb1. f_equal. destruct (decide (s = OtherQ)) as [->|Hne].
      * symmetry. rewrite <-(bursts_other (q (otherq c2)) c1). unfold bursts. pose proof (Hq ReadQ) as H1. pose proof (Hq WriteQ) as H2.
        simpl in H1, H2 |- *. by rewrite H1, H2.
      * transitivity (bursts (set_queue s (delete j (q (queue_of s c1))) c1)).
        -- rewrite bursts_set, (total_lookup _ _ _ Hj1) by done. lia.
        -- unfold bursts. pose proof (Hq ReadQ) as H1. pose proof (Hq WriteQ) as H2. simpl in H1, H2. rewrite H1, H2. by destruct s.
  - rewrite wide_complete_more by done. exists c1. split; [done|]. split_and!; [|by destruct s|done].
    split; [done|]. intros s'. unfold c1, with_burst. rewrite queue_of_set. case_decide; [subst|apply Hb].
    apply Forall_insert; [apply Hb|]. unfold has_bursts in *. rewrite Et. unfold one_burst in *.
    destruct (is_rw (type r)); simpl in *; lia.
Qed.

Lemma wide_issue_request_ok i h n c s j req :
  wide_inv i h c → sized n c → fresh h c → q (queue_of s c) !! j = Some req → is_ready spec c req = Some true →
  counted n req = true →
  ∃ c' e, wide_issue_request o s j req c = Some c' ∧ wide_inv i (e :: h) c' ∧ clk c' = clk c ∧
    bursts c = bursts c' + (if is_column e then 1 else 0).
Proof.
  intros [Hc Hb] Hn Hf Hj Hready Hcnt. pose proof (queued_at spec pr _ _ _ _ _ _ Hc Hj) as (_&Hwf&_).
  destruct (first_command_ok spec pr i h n c s j req Hc Hn Hj Hcnt) as (c1&Hfc&Hc1&Hj1&Hbare&Hclk).
  destruct (ready_after_first spec pr (lim := true) i h c c1 s j req) as (cmd&Hg&Hd1&Hd&Hr); [done..|].
  destruct (issue_ok spec pr (lim := true) i h c1 cmd req) as (c2&Hi&Hc2&Hclk2&Hq2&_); [done|by unfold fresh; rewrite Hclk|done..|].
  pose proof (first_command_queues _ _ _ _ _ Hfc Hj) as Hq1.
  assert (wide_inv i ((cmd, addr_vec req, clk c1) :: h) c2) as Hw2.
  { split; [done|]. intros s'. rewrite Hq2, Hq1. case_decide; [subst|apply Hb]. apply Forall_insert; [apply Hb|].
    pose proof (Hb s') as Hl. rewrite Forall_lookup in Hl. exact (Hl _ _ Hj). }
  assert (bursts c2 = bursts c) as Hb2.
  { transitivity (bursts c1); [apply bursts_queues; by intros ? _|]. unfold bursts.
    pose proof (Hq1 ReadQ) as H1. pose proof (Hq1 WriteQ) as H2. simpl in H1, H2. rewrite H1, H2.
    destruct s; simpl in *; rewrite ?(total_insert _ _ _ _ Hj); simpl; lia. }
  assert (is_column (cmd, addr_vec req, clk c1) = is_rw (type req) && bool_decide (cmd = translate spec (type req))) as Hcol.
  { eapply next_column; [apply (ci_chan _ _ _ _ _ Hc)|done|done]. }
  unfold wide_issue_request. rewrite Hfc; cbn [mbind option_bind]. rewrite Hg; cbn [mbind option_bind].
  rewrite Hi; cbn [mbind option_bind].
  destruct (decide (cmd ≠ translate spec (type req))) as [Hcmd|Hcmd].
  - exists c2, (cmd, addr_vec req, clk c1). rewrite Hcol, bool_decide_false, andb_false_r by done. split_and!; [done|done|congruence|lia].
  - rewrite Hq2, Hj1; cbn [mbind option_bind].
    destruct (wide_complete_ok i _ c2 s j (set_is_first_command false req) Hw2) as (c3&E&Hw3&Hclk3&Hb3); [by rewrite Hq2, Hj1|done|].
    exists c3, (cmd, addr_vec req, clk c1). rewrite E. split_and!; [done|done|congruence|].
    rewrite Hcol, bool_decide_true, andb_true_r by (by destruct (decide (cmd = translate spec (type req)))).
    rewrite <-Hb2. exact Hb3.
Qed.

Lemma wide_issue_request_None i h n c s j req :
  wide_inv i h c → sized n c → q (queue_of s c) !! j = Some req → counted n req = false →
  wide_issue_request o s j req c = None.
Proof.
  intros [Hc _] Hn Hj E. pose proof (first_command_cases spec pr i h n c s j req Hc Hn Hj) as H. rewrite E in H.
  unfold wide_issue_request. by rewrite H.
Qed.

(** *** The cycle *)
Lemma wide_tick_ok i h n c :
  wide_inv i h c → sized n c →
  if due spec c && (room OtherQ c <? Z.of_nat (child_count spec 0)) || uncounted n (served spec c) then wide_tick o c = None
  else ∃ done c' h', wide_tick o c = Some (done, c') ∧ wide_inv i h' c' ∧ clk c' = clk c + 1 ∧
    (h' = h ∨ ∃ e, h' = e :: h) ∧ bursts c - bursts c' = columns h' - columns h.
Proof.
  intros [Hc Hb] Hn. pose proof (tick_with_ok spec pr (wide_issue_request o) i h n c Hc Hn) as Ht. unfold wide_tick.
  destruct (_ && _); [done|]. simpl. destruct Ht as (done&c1&->&Hn1&->&Hc1&Hf&Hclk&Hq&_&_&_&c2&c3&Hc2&Ho2&Href&Ho3).
  assert (wide_inv i h c1) as Hw1.
  { split; [done|]. intros s. destruct (decide (s = OtherQ)) as [->|Hne]; [|rewrite Hq by done; apply Hb].
    simpl. rewrite Ho3, (tick_ref_queue spec pr i h c2 c3 Hc2 Href), Ho2. apply Forall_app; split; [apply (Hb OtherQ)|].
    case_match; [|done]. apply Forall_forall. intros r (j&->&_)%list_elem_of_fmap. done. }
  pose proof (bursts_queues c c1 Hq) as Hb1.
  destruct (schedule_with_cases spec pr (wide_issue_request o) i h c1 Hc1) as [[-> ->]|(j&req&Hj&Hr&->&->)]; simpl.
  - exists done, c1, h. split_and!; try done; [by left|lia].
  - destruct (counted n req) eqn:E; simpl; [|by rewrite (wide_issue_request_None i h n c1 _ j req)].
    destruct (wide_issue_request_ok i h n c1 _ j req Hw1 Hn1 Hf Hj Hr E) as (c4&e&->&Hw4&Hclk4&Hb4). simpl.
    exists done, c4, (e :: h). split_and!; try done; [congruence|right; by eexists|simpl; lia].
Qed.

(** *** [enqueue] *)

(** Whether [enqueue] leaves the request in a queue: there is room, and it is
    not a read that is answered from the write queue. *)
Definition joins (req : Request) (c : WideCtrl) : bool :=
  let s := get_queue (type req) in
  negb (qmax (queue_of s c) =? qsize (queue_of s c)) &&
  negb (bool_decide (type req = READ) && existsb (λ w, addr req =? addr w) (q (writeq c))).

Lemma wide_enqueue_ok i h c req :
  wide_inv i h c → request_wf spec pr i req → is_rw (type req) = true → is_first_command req = true →
  1 ≤ burst_count req →
  wide_inv i h (snd (enqueue req c)) ∧
  bursts (snd (enqueue req c)) = bursts c + (if joins req c then burst_count req else 0).
Proof.
  intros [Hc Hb] Hwf Hrw Hfirst H1. destruct (enqueue_ok spec pr i h c req Hc Hwf Hfirst) as [Hinv _].
  unfold enqueue, joins in *. destruct (qmax _ =? qsize _); simpl in *; [split; [done|lia]|].
  set (s := get_queue (type req)) in *. assert (s ≠ OtherQ) as Hs by (unfold s; by destruct (type req)).
  assert (has_bursts (set_arrive (clk c) req)) as Hreq by (unfold has_bursts; simpl; by rewrite Hrw).
  assert (∀ s', Forall has_bursts (q (queue_of s' (set_queue s (q (queue_of s c) ++ [set_arrive (clk c) req]) c)))) as Hall.
  { intros s'. rewrite queue_of_set. case_decide; [subst s'|apply Hb]. apply Forall_app. split; [apply Hb|by constructor]. }
  unfold accept in *. fold s in Hinv |- *. cbv zeta in *. change (type (set_arrive (clk c) req)) with (type req) in *.
  change (addr (set_arrive (clk c) req)) with (addr req) in *. destruct (bool_decide (type req = READ)) eqn:Er; simpl in *.
  - apply bool_decide_eq_true in Er. assert (s = ReadQ) as Es by (unfold s; by rewrite Er). rewrite Es in *. simpl in *.
    destruct (existsb _ (q (writeq c))); simpl in *.
    + split; [split; [done|]|]; [|unfold bursts; simpl; rewrite removelast_last; lia].
      intros []; simpl; [rewrite removelast_last; apply (Hb ReadQ)|apply (Hb WriteQ)|apply (Hb OtherQ)].
    + split; [by split|]. unfold bursts. simpl. rewrite total_app. simpl. lia.
  - split; [by split|]. rewrite bursts_set, total_app by done. simpl. lia.
Qed.

(** *** Reachable controllers *)

(** The controllers of channel [i] that a run can reach, with the number of
    bursts of the requests that joined a queue. *)
Inductive wide_reachable (l : WideIO2.Level) (i : Z) : Z → WideCtrl → Prop :=
| WReach_new k d : new_channel spec l i = Some d → wide_reachable l i 0 (new_controller k d)
| WReach_enqueue n c req :
    wide_reachable l i n c → type req = READ ∨ type req = WRITE → rw_addr spec i (addr_vec req) →
    is_first_command req = true → 1 ≤ burst_count req →
    wide_reachable l i (n + (if joins req c then burst_count req else 0)) (snd (enqueue req c))
| WReach_tick n c done c' :
    wide_reachable l i n c → wide_tick o c = Some (done, c') → wide_reachable l i n c'
| WReach_record n c k c' : wide_reachable l i n c → record_core k c = Some c' → wide_reachable l i n c'.

Lemma sized_if n (b : bool) (c1 c2 : WideCtrl) : sized n c1 → sized n c2 → sized n (if b then c1 else c2).
Proof. by destruct b. Qed.

Lemma wide_complete_sized n s j r c c' : sized n c → wide_complete o s j r c = Some c' → sized n c'.
Proof.
  unfold wide_complete. intros Hn H. run_opt.
  assert (∀ s l (c : WideCtrl), sized n c → sized n (set_queue s l c)) as Hq by (by intros []).
  match goal with H : (if _ then serving _ _ _ ?y else Some _) = Some ?x |- _ =>
    rename H into H1; assert (sized n y) as Hy by (apply sized_if; by apply Hq); assert (sized n x) as Hx end.
  { match goal with H : (if ?b then _ else _) = _ |- _ => destruct b end; [|by simplify_eq].
    apply sized_any in Hy. apply sized_any. by eapply cores_serving. }
  apply sized_if; [by apply Hq|done].
Qed.

Lemma wide_tick_sized n c done c' : sized n c → wide_tick o c = Some (done, c') → sized n c'.
Proof.
  intros Hn Ht. apply sized_any in Hn. apply sized_any. eapply cores_tick_with; [|exact Hn|exact Ht].
  intros s j r x x' Hx Hj H. unfold wide_issue_request in H. run_opt.
  match goal with H : first_command _ _ _ _ _ = _ |- _ => pose proof (cores_first_command _ _ _ _ _ _ _ _ Hx Hj H) as Hx1 end.
  match goal with H : issue_cmd _ _ _ _ = _ |- _ => pose proof (cores_issue_cmd _ _ _ _ _ _ _ Hx1 H) as Hx2 end.
  case_decide; run_opt; [done|]. apply sized_any in Hx2. apply sized_any. by eapply wide_complete_sized.
Qed.

Lemma wide_reachable_sized l i n c : wide_reachable l i n c → sized (num_cores c) c.
Proof.
  intros Hr. enough (∃ k, sized k c) as [k Hk] by (by rewrite (sized_num k c Hk)).
  induction Hr as [k d Hd|n c req _ (k&IH) Hty Ha Hf H1|n c done c' _ (k&IH) Ht|n c x c' _ (k&IH) Hx]; exists k.
  - by apply (cores_new k (λ _, True)).
  - apply sized_any in IH. apply sized_any. apply cores_enqueue; [done|by intros _].
  - by eapply wide_tick_sized.
  - apply sized_any in IH. apply sized_any. by eapply cores_record.
Qed.

Lemma wide_reachable_inv l i n c :
  level_cast spec 0 = Some l → wide_reachable l i n c →
  wide_inv i (cmd_trace c) c ∧ bursts c + columns (cmd_trace c) = n.
Proof.
  intros Hl Hr. enough (∃ h, wide_inv i h c ∧ bursts c + columns h = n) as (h&Hh&E).
  { by rewrite (ci_trace _ _ _ _ _ (wi_base _ _ _ Hh)). }
  induction Hr as [k d Hd|n c req _ (h&IH&E) Hty Ha Hf H1|n c done c' Hr (h&IH&E) Ht|n c k c' _ (h&IH&E) Hk].
  - exists []. split; [|done]. split; [by eapply (new_controller_inv spec pr)|]. intros []; constructor.
  - destruct (wide_enqueue_ok i h c req IH) as [IH' E']; try done.
    { unfold request_wf. by destruct Hty as [-> | ->]. } { by destruct Hty as [-> | ->]. }
    exists h. split; [done|]. rewrite E'. lia.
  - pose proof (wide_tick_ok i h _ c IH (wide_reachable_sized l i n c Hr)) as Hok. case_match; [congruence|].
    destruct Hok as (done'&c''&h'&Ht'&Hinv&_&_&Eb). rewrite Ht in Ht'. simplify_eq. exists h'. split; [done|lia].
  - exists h. destruct IH as [[? ? ? ? ? ? ? ? ?] Hb]. unfold record_core in Hk. run_opt.
    split; [|done]. split; [by split|]. intros []; [apply (Hb ReadQ)|apply (Hb WriteQ)|apply (Hb OtherQ)].
Qed.

(** C39: WideIO2's own cycle keeps the invariant of the generic controller
    ([ctrl_inv]) and conserves bursts: in every reachable controller the bursts
    of the requests that joined a queue are those still to be served and the
    column commands issued, a column command being issued only for a burst of a
    queued request; every queued read and write has a burst left.  The cycle
    aborts only when a refresh is due and does not fit in its queue, or when it
    picks a request for its first command whose core has no counter. *)
Theorem wide_bursts_conserved l i n c :
  level_cast spec 0 = Some l → wide_reachable l i n c →
  ctrl_inv spec pr i (cmd_trace c) c ∧
  bursts c + columns (cmd_trace c) = n ∧
  Forall (λ r, 1 ≤ burst_count r) (q (readq c) ++ q (writeq c)) ∧
  (wide_tick o c = None ↔
    (nREFI spec ≤ ref_clk (refresh c) + 1 - refreshed (refresh c) ∧
     qmax (otherq c) - qsize (otherq c) < Z.of_nat (child_count spec 0)) ∨
    (∃ req, served spec c = Some req ∧ is_first_command req = true ∧ (type req = READ ∨ type req = WRITE) ∧
      ¬ (0 ≤ coreid req < Z.of_nat (num_cores c)))).
Proof.
  intros Hl Hr. destruct (wide_reachable_inv l i n c Hl Hr) as [Hinv E]. split; [apply Hinv|]. split; [done|]. split.
  - assert (∀ s, s ≠ OtherQ → Forall (λ r, 1 ≤ burst_count r) (q (queue_of s c))) as Hb.
    { intros s Hs. apply Forall_forall. intros r Hrq. pose proof (wi_bursts _ _ _ Hinv s) as Hb.
      pose proof (ci_queued _ _ _ _ _ (wi_base _ _ _ Hinv) s) as Hq. rewrite Forall_forall in Hb, Hq.
      specialize (Hb _ Hrq). destruct (Hq _ Hrq) as (Et&_). unfold has_bursts in Hb.
      destruct (type r); simpl in *; subst; done. }
    apply Forall_app. split; [by apply (Hb ReadQ)|by apply (Hb WriteQ)].
  - pose proof (wide_tick_ok i _ _ c Hinv (wide_reachable_sized l i n c Hr)) as Hok. unfold due, room in Hok. simpl in Hok.
    rewrite <-Z.leb_le, <-Z.ltb_lt, <-andb_true_iff, <-uncounted_iff, <-orb_true_iff. destruct (_ || _); [done|].
    destruct Hok as (?&?&?&->&_). done.
Qed.

End Bursts.

(** ** Witness: one read and one write of two bursts *)
Definition wide : WideIO2.WideIO2 :=
  default (WideIO2.mkWideIO2 (WideIO2.mkOrg 0 0 []) (WideIO2.speed_table WideIO2.WideIO2_800) 0)
    (o ← WideIO2.new WideIO2.WideIO2_8Gb WideIO2.WideIO2_800 4; WideIO2.set_rank_number 1 o).
Definition wide_dummy : DRAM WideIO2.Level WideIO2.Command WideIO2.State :=
  Dram (new_info (WideIO2.spec wide) WideIO2.Channel 0) [].
Definition wide_device : DRAM WideIO2.Level WideIO2.Command WideIO2.State :=
  default wide_dummy (new_channel (WideIO2.spec wide) WideIO2.Channel 0).
Definition wide_read : Request :=
  set_burst_count 2 (set_addr_vec [0; 0; 1; 5; 2] (Request_addr 64 READ 0)).
Definition wide_write : Request :=
  set_burst_count 2 (set_addr_vec [0; 0; 2; 7; 0] (Request_addr 128 WRITE 0)).
Definition wide_start : WideCtrl :=
  snd (enqueue wide_write (snd (enqueue wide_read (new_controller 1 wide_device)))).

Fixpoint wide_run (n : nat) (c : WideCtrl) : option WideCtrl :=
  match n with 0%nat => Some c | S n => '(_, c) ← wide_tick wide c; wide_run n c end.
Definition wide_ctrl20 : WideCtrl := default wide_start (wide_run 20 wide_start).

Lemma wide_run_reachable l i n k c c' :
  wide_reachable wide l i n c → wide_run k c = Some c' → wide_reachable wide l i n c'.
Proof.
  revert c. induction k as [|k IH]; intros c Hc Hk; [by simplify_eq/=|]. cbn [wide_run] in Hk. run_opt.
  match goal with H : wide_tick _ _ = Some ?x |- _ => destruct x as [dn c1] end. apply (IH c1); [|done]. by eapply WReach_tick.
Qed.

Lemma wide_addr_ok a : length a = 5%nat → (∀ k x, a !! k = Some x → 0 ≤ x < default 0 (count (WideIO2.spec wide) !! k)) →
  a !! 0%nat = Some 0 → rw_addr (WideIO2.spec wide) 0 a.
Proof.
  intros Hlen Hb H0. split_and!; [split; [done|]|split; [by rewrite Hlen|]|done].
  - intros k x Hk Hpos. by destruct (Hb _ _ Hk).
  - intros j Hj. destruct (lookup_lt_is_Some_2 a j) as [x Hx]; [rewrite Hlen; vm_compute in Hj; lia|]. eauto.
Qed.

#[export] Instance wide_count : CountOK 5 (WideIO2.count (WideIO2.org_entry wide)).
Proof. split; [done|]. repeat constructor; vm_compute; congruence. Qed.

Lemma wide_ctrl20_reachable : wide_reachable wide WideIO2.Channel 0 4 wide_ctrl20.
Proof.
  assert (wide_reachable wide WideIO2.Channel 0 4 wide_start) as Hs.
  { apply (WReach_enqueue wide WideIO2.Channel 0 2 (snd (enqueue wide_read (new_controller 1 wide_device))) wide_write).
    - apply (WReach_enqueue wide WideIO2.Channel 0 0 (new_controller 1 wide_device) wide_read).
      + apply WReach_new. apply (Some_default wide_dummy). vm_compute. reflexivity.
      + by left.
      + apply wide_addr_ok; [done| |done]. intros k x. do 5 (destruct k as [|k]; [intros [= <-]; vm_compute; by split|]). done.
      + done.
      + done.
    - by right.
    - apply wide_addr_ok; [done| |done]. intros k x. do 5 (destruct k as [|k]; [intros [= <-]; vm_compute; by split|]). done.
    - done.
    - done. }
  eapply wide_run_reachable; [exact Hs|]. apply (Some_default wide_start). vm_compute. reflexivity.
Qed.

(** Three of the four bursts were served after 20 cycles. *)
Lemma wide_bursts_conserved_witness :
  ctrl_inv (WideIO2.spec wide) WideIO2.proto 0 (cmd_trace wide_ctrl20) wide_ctrl20 ∧
  bursts wide_ctrl20 + columns (cmd_trace wide_ctrl20) = 4 ∧ bursts wide_ctrl20 = 1 ∧
  Forall (λ r, 1 ≤ burst_count r) (q (readq wide_ctrl20) ++ q (writeq wide_ctrl20)).
Proof.
  destruct (wide_bursts_conserved wide) with (l := WideIO2.Channel) (i := 0) (n := 4) (c := wide_ctrl20) as (Hc&E&Hb&_);
    [vm_compute; reflexivity|reflexivity|apply wide_ctrl20_reachable|].
  split_and!; [exact Hc|exact E|vm_compute; reflexivity|exact Hb].
Defined.
