(* ===== verification/AldramController.v ===== *)
(** * The controller of ALDRAM ([ramulator/src/Controller.cpp], [ramulator/src/Refresh.h], [ramulator/src/ALDRAM.cpp])

    [Refresh<T>::tick_ref] tells the controller the temperature after each
    refresh, and [Controller<ALDRAM>::update_temp] gives the standard's object
    the timing of that temperature.  The object is shared by the channels, so it
    is part of the state here: the cycle takes it and returns it. *)

From S2P Require Import Prelude Request Dram DramTiming BankProtocol Standard Scheduler Controller.
From S2P Require Import CtrlQueries ControllerInv ControllerTick.
From S2P Require Import SpecALDRAM.

Abbreviation AldramCtrl := (Controller ALDRAM.Level ALDRAM.Command ALDRAM.State).

(** [update_temp(current_temperature)] *)
Definition update_temp (t : ALDRAM.Temp) (o : ALDRAM.ALDRAM) : ALDRAM.ALDRAM := ALDRAM.aldram_timing t o.

(** [tick_ref()]: the temperature is always [Temp::COLD]. *)
Definition aldram_tick_ref (o : ALDRAM.ALDRAM) (c : AldramCtrl) : option (ALDRAM.ALDRAM * AldramCtrl) :=
  let r := refresh c in
  let r := mkRefresh (ref_clk r + 1) (refreshed r) (bank_ref_counters r) in
  let c := set_refresh r c in
  if nREFI (ALDRAM.spec o) <=? ref_clk r - refreshed r then
    c ← inject_refresh (ALDRAM.spec o) true c;
    Some (update_temp ALDRAM.COLD o, c)
  else Some (o, c).

(** [tick()] *)
Definition aldram_tick (o : ALDRAM.ALDRAM) (c : AldramCtrl) : option (list Request * ALDRAM.ALDRAM * AldramCtrl) :=
  '(done, c) ← serve_pending (ALDRAM.spec o) (tick_clk c);
  '(o, c) ← aldram_tick_ref o c;
  c ← schedule (ALDRAM.spec o) (switch_mode c);
  Some (done, o, c).

Definition new_latency (o : ALDRAM.ALDRAM) : Prop :=
  read_latency (ALDRAM.spec o) = ALDRAM.nCL (ALDRAM.speed_entry o) + ALDRAM.nBL (ALDRAM.speed_entry o).

(** The parameters [init_speed] sets are those of the member, not those of the
    table that [init_timing] reads. *)
Definition recovery (s : ALDRAM.SpeedEntry) : list Z := [ALDRAM.nRRD s; ALDRAM.nFAW s; ALDRAM.nRFC s; ALDRAM.nXS s].

Definition new_ok (org : ALDRAM.Org) (speed : ALDRAM.Speed) : bool :=
  match ALDRAM.new org speed with
  | Some o =>
    bool_decide (ALDRAM.temperature o = ALDRAM.COLD) && bool_decide (ALDRAM.timing_temp o = ALDRAM.HOT) &&
    bool_decide (ALDRAM.current_speed o = speed) &&
    (read_latency (ALDRAM.spec o) =? ALDRAM.nCL (ALDRAM.speed_entry o) + ALDRAM.nBL (ALDRAM.speed_entry o)) &&
    (1 <? read_latency (ALDRAM.spec o)) && forallb (λ x, 0 <? x) (recovery (ALDRAM.speed_entry o))
  | None => false
  end.

Lemma new_ok_all org speed : new_ok org speed = true.
Proof. destruct org, speed; vm_compute; reflexivity. Qed.

Lemma table_recovery t speed : recovery (ALDRAM.speed_table t speed) = [0; 0; 0; 0].
Proof. by destruct t, speed. Qed.

Definition zero_to (cmds : list ALDRAM.Command) (es : list (TimingEntry ALDRAM.Command)) : bool :=
  forallb (λ e, negb (bool_decide (t_cmd e ∈ cmds)) || (t_val e =? 0)) es.

Lemma zero_to_spec cmds es e : zero_to cmds es = true → e ∈ es → t_cmd e ∈ cmds → t_val e = 0.
Proof.
  unfold zero_to. rewrite forallb_forall. intros H He Hc. specialize (H e (proj1 (list_elem_of_In _ _) He)).
  rewrite bool_decide_true in H by done. simpl in H. by apply Z.eqb_eq.
Qed.

Definition aldram_entries (t : ALDRAM.Temp) (speed : ALDRAM.Speed) : ALDRAM.Command → list (TimingEntry ALDRAM.Command) :=
  entries_at (ALDRAM.init_timing (ALDRAM.speed_table t speed)) ALDRAM.Rank.

Lemma entries_zero t speed :
  zero_to [ALDRAM.ACT; ALDRAM.REF] (aldram_entries t speed ALDRAM.REF) &&
  zero_to [ALDRAM.ACT] (aldram_entries t speed ALDRAM.ACT) &&
  zero_to [ALDRAM.ACT; ALDRAM.REF; ALDRAM.PDE; ALDRAM.SRE] (aldram_entries t speed ALDRAM.SRX) = true.
Proof. destruct t, speed; vm_compute; reflexivity. Qed.

Lemma aldram_entries_at t o :
  timing (ALDRAM.spec (ALDRAM.aldram_timing t o)) ALDRAM.Rank = aldram_entries t (ALDRAM.current_speed o).
Proof. unfold aldram_entries, ALDRAM.spec, ALDRAM.aldram_timing. reflexivity. Qed.

(** The timing is that of the temperature, and after a refresh it is cold. *)
Definition cold (o : ALDRAM.ALDRAM) : Prop :=
  ALDRAM.temperature o = ALDRAM.COLD ∧ ALDRAM.timing_temp o = ALDRAM.COLD ∧
  read_latency (ALDRAM.spec o) = ALDRAM.nCL (ALDRAM.speed_entry o) + ALDRAM.nBL (ALDRAM.speed_entry o).

Lemma update_cold o : cold (update_temp ALDRAM.COLD o) ∧ (cold o → update_temp ALDRAM.COLD o = o).
Proof.
  split; [done|]. destruct o as [e s l sp t tt]. unfold cold, update_temp, ALDRAM.aldram_timing. simpl.
  by intros (->&->&->).
Qed.

(** ** Claims *)

(** A refresh of AL-DRAM costs no time, and neither does an activation
    within the rank: [init_timing] is given the entry of the speed table, in
    which nRRD, nFAW, nRFC and nXS are zero, while [init_speed] sets them (to
    positive values) in the member [speed_entry] only.  So at every temperature
    every constraint from a refresh to an activation or a refresh, between the
    activations of a rank, and from the exit of self-refresh has the value 0. *)
Theorem aldram_recovery_is_zero org speed :
  ∃ o, ALDRAM.new org speed = Some o ∧ Forall (λ x, 0 < x) (recovery (ALDRAM.speed_entry o)) ∧
    ∀ t, let from := timing (ALDRAM.spec (ALDRAM.aldram_timing t o)) ALDRAM.Rank in
      (∀ e, e ∈ from ALDRAM.REF → t_cmd e ∈ [ALDRAM.ACT; ALDRAM.REF] → t_val e = 0) ∧
      (∀ e, e ∈ from ALDRAM.ACT → t_cmd e = ALDRAM.ACT → t_val e = 0) ∧
      (∀ e, e ∈ from ALDRAM.SRX → t_cmd e ∈ [ALDRAM.ACT; ALDRAM.REF; ALDRAM.PDE; ALDRAM.SRE] → t_val e = 0).
Proof.
  pose proof (new_ok_all org speed) as H. unfold new_ok in H. destruct (ALDRAM.new org speed) as [o|]; [|done].
  rewrite !andb_true_iff, !bool_decide_eq_true in H. destruct H as (((((_&_)&Hs)&_)&_)&Hr).
  exists o. split; [done|]. split.
  - apply Forall_forall. rewrite forallb_forall in Hr. intros x Hx. apply Z.ltb_lt, Hr. by apply list_elem_of_In.
  - intros t. pose proof (entries_zero t speed) as Hz. rewrite !andb_true_iff in Hz. destruct Hz as ((H1&H2)&H3).
    cbv zeta. rewrite aldram_entries_at, Hs. split; [|split]; intros e He Hc.
    + exact (zero_to_spec _ _ e H1 He Hc).
    + apply (zero_to_spec _ _ e H2 He). rewrite Hc. apply list_elem_of_here.
    + exact (zero_to_spec _ _ e H3 He Hc).
Qed.

(** The cycle of AL-DRAM's controller is the generic cycle, for the timing
    the object has: it is that of the object in a cycle without a refresh, and
    at all times once the object is cold; a cycle with a refresh leaves it cold,
    whatever it was (the constructor installs the hot timing and says cold). *)
Theorem aldram_tick_generic o c :
  let generic := '(done, c') ← tick (ALDRAM.spec o) c; Some (done, o, c') in
  (due (ALDRAM.spec o) c = false ∨ cold o → aldram_tick o c = generic) ∧
  (∀ done o' c', due (ALDRAM.spec o) c = true → aldram_tick o c = Some (done, o', c') →
    o' = update_temp ALDRAM.COLD o ∧ cold o').
Proof.
  assert (∀ d c1, serve_pending (ALDRAM.spec o) (tick_clk c) = Some (d, c1) → refresh c1 = refresh c) as Hs.
  { unfold serve_pending. intros d c1 H. destruct (pending _) as [|r rest]; [by simplify_eq/=|].
    destruct (depart r <=? _); [|by simplify_eq/=]. apply bind_Some in H as (c2&Hs&H). simplify_eq/=.
    destruct (1 <? _); [|by simplify_eq/=]. unfold serving in Hs. by run_opt. }
  cbv zeta. unfold aldram_tick, tick, tick_with, schedule. split.
  - intros Hd. destruct (serve_pending _ _) as [[d c1]|] eqn:E; [|done]. cbn [mbind option_bind]. specialize (Hs _ _ eq_refl).
    unfold aldram_tick_ref, tick_ref, due in *. simpl. rewrite Hs.
    destruct (ALDRAM.nREFI (ALDRAM.speed_entry o) <=? ref_clk (refresh c) + 1 - refreshed (refresh c)) eqn:Er.
    + destruct Hd as [Hd|Hd]; [simpl in Hd; congruence|]. destruct (inject_refresh _ _ _); cbn [mbind option_bind]; [|done].
      rewrite (proj2 (update_cold o) Hd). by destruct (schedule_with _ _ _).
    + cbn [mbind option_bind]. by destruct (schedule_with _ _ _).
  - intros done o' c' Hd H. run_opt. simplify_eq/=.
    destruct (serve_pending _ _) as [[d c1]|] eqn:E; [|by simplify_eq/=]. specialize (Hs _ _ eq_refl). simplify_eq/=.
    unfold aldram_tick_ref in *. unfold due in Hd. simpl in *. rewrite Hs in *. rewrite Hd in *.
    run_opt. simplify_eq/=. split; [done|apply update_cold].
Qed.
