(* ===== verification/TldramController.v ===== *)
(** * The controller of TL-DRAM ([ramulator/src/Controller.cpp])

    [Controller<TLDRAM>::tick] replaces the generic [tick]: a read whose turn
    has come becomes a migration ([Request::Type::EXTENSION]), whose commands
    copy the row to the near segment.  The scheduler tested that the first
    command of the read is ready; the first command of the migration is another
    one, and [issue_cmd] asserts that it is ready.  The file proves that it is.
    TL-DRAM's banks obey no [BankProtocol] (three kinds of activation and of
    precharge), so its theorems rest on the timing laws only. *)

From S2P Require Import Prelude Request Dram DramTiming BankProtocol Standard Serving.
From S2P Require Import Scheduler Controller CtrlQueries SpecTLDRAM.

Abbreviation TlCtrl := (Controller TLDRAM.Level TLDRAM.Command TLDRAM.State).

Section Ops.
Variable o : TLDRAM.TLDRAM.
Abbreviation spec := (TLDRAM.spec o).

(** The statistics of the first command of a request: as in the generic
    [tick], without the queueing latency. *)
Definition tl_first_command (s : QSel) (i : nat) (req : Request) (c : TlCtrl) : option TlCtrl :=
  if is_first_command req then
    let req' := set_is_first_command false req in
    let c := set_queue s (<[i := req']> (q (queue_of s c))) c in
    if is_rw (type req) then
      c ← serving spec (addr_vec req) 1 c;
      hit ← is_row_hit spec c req';
      open ← (if (hit : bool) then Some false else is_row_open spec c req');
      let sum := queueing_latency_sum (cstats c) in
      st ← first_stats spec req' hit open (clk c) (cstats c);
      Some (set_cstats (set_queueing_latency_sum sum st) c)
    else Some c
  else Some c.

(** 5. Change a read request to a migration request. *)
Definition to_migration (req : Request) : Request :=
  if decide (type req = READ) then set_type EXTENSION req else req.

(** The completion of a request whose own command was issued. *)
Definition tl_complete (s : QSel) (i : nat) (req : Request) (c : TlCtrl) : option TlCtrl :=
  let req' := set_depart (clk c + read_latency spec) req in
  let c := if decide (type req = READ ∨ type req = EXTENSION) then set_pending (pending c ++ [req']) c else c in
  c ← if decide (type req = WRITE) then serving spec (addr_vec req) (-1) c else Some c;
  Some (set_queue s (delete i (q (queue_of s c))) c).

(** The command of the request at index [i], which is ready. *)
Definition tl_issue_request (s : QSel) (i : nat) (req : Request) (c : TlCtrl) : option TlCtrl :=
  c ← tl_first_command s i req c;
  req ← q (queue_of s c) !! i;
  let req := to_migration req in
  let c := set_queue s (<[i := req]> (q (queue_of s c))) c in
  cmd ← get_first_cmd spec c req;
  c ← issue_cmd spec cmd (addr_vec req) c;
  if decide (cmd ≠ translate spec (type req)) then Some c
  else tl_complete s i req c.

(** 4. Find the best command to schedule, if any; a victim of the row policy is
    closed even without DRAM latency. *)
Definition tl_schedule (c : TlCtrl) : option TlCtrl :=
  let s := pick_queue c in
  '(head, t) ← get_head spec (view_of spec c) (scheduler c) (q (queue_of s c)) (rowtable c);
  let c := set_rowtable t c in
  ready ← match head with
          | None => Some None
          | Some i =>
            req ← q (queue_of s c) !! i;
            ready ← is_ready spec c req;
            Some (if (ready : bool) then Some (i, req) else None)
          end;
  match ready with
  | None =>
    let cmd := cmd_PRE spec in
    victim ← get_victim (view_of spec c) (rowpolicy c) cmd (rowtable c);
    if bool_decide (victim = []) then Some c else issue_cmd spec cmd victim c
  | Some (i, req) => tl_issue_request s i req c
  end.

(** [tick()] *)
Definition tl_tick (c : TlCtrl) : option (list Request * TlCtrl) :=
  '(done, c) ← serve_pending spec (tick_clk c);
  c ← tick_ref spec c;
  c ← tl_schedule (switch_mode c);
  Some (done, c).

End Ops.

(** ** The commands of a read and of its migration *)

(** The first command of a read, and the first command of its migration. *)
Inductive migrates : TLDRAM.Command → TLDRAM.Command → Prop :=
| Mig_act : migrates TLDRAM.ACT TLDRAM.ACTM
| Mig_actf : migrates TLDRAM.ACTF TLDRAM.ACTM
| Mig_pre : migrates TLDRAM.PRE TLDRAM.PREM
| Mig_pref : migrates TLDRAM.PREF TLDRAM.PREM
| Mig_rd : migrates TLDRAM.RD TLDRAM.MIG
| Mig_pdx : migrates TLDRAM.PDX TLDRAM.PDX
| Mig_srx : migrates TLDRAM.SRX TLDRAM.SRX.

Lemma migrates_scope c c' : migrates c c' → TLDRAM.scope c' = TLDRAM.scope c.
Proof. by destruct 1. Qed.

(** Every constraint on a command of the migration is one on that of the read:
    the entry of the table that matches it is found on a table with distinct
    values, and has the same value in every table. *)
Definition with_cmd (c : TLDRAM.Command) (e : TLDRAM.Level * TLDRAM.Command * TimingEntry TLDRAM.Command) :
    TLDRAM.Level * TLDRAM.Command * TimingEntry TLDRAM.Command :=
  let '(l, c0, t) := e in (l, c0, mkTiming c (t_dist t) (t_val t) (t_sibling t)).
Definition on_cmd (c : TLDRAM.Command) (e : TLDRAM.Level * TLDRAM.Command * TimingEntry TLDRAM.Command) : bool :=
  bool_decide (t_cmd (snd e) = c).

Definition distinct_speed : TLDRAM.SpeedEntry :=
  TLDRAM.mkSpeed 8 32 128 512 2048 8192 32768 131072 524288 2097152 8388608 33554432 134217728 536870912 2147483648 8589934592 34359738368 137438953472 549755813888 2199023255552 8796093022208 35184372088832 140737488355328 562949953421312 2251799813685248 9007199254740992 36028797018963968 144115188075855872 576460752303423488 2305843009213693952 9223372036854775808.

#[local] Instance TimingEntry_eq_dec : EqDecision (TimingEntry TLDRAM.Command).
Proof. solve_decision. Defined.

Definition partners (c c' : TLDRAM.Command) : list nat :=
  let tbl := TLDRAM.init_timing distinct_speed in
  omap (λ e, fst <$> list_find (λ e', e' = with_cmd c e) tbl) (List.filter (on_cmd c') tbl).

Lemma partners_ok s c c' :
  migrates c c' →
  map (with_cmd c) (List.filter (on_cmd c') (TLDRAM.init_timing s)) =
  omap (λ k, TLDRAM.init_timing s !! k) (partners c c').
Proof. destruct s, 1; vm_compute; reflexivity. Qed.

Lemma entries_at_intro tbl l c (t : TimingEntry TLDRAM.Command) :
  (l, c, t) ∈ tbl → t ∈ entries_at tbl (l : TLDRAM.Level) (c : TLDRAM.Command).
Proof. intros H. unfold entries_at. apply list_elem_of_omap. exists (l, c, t). split; [done|]. by rewrite decide_True. Qed.

Lemma partner_elem {A} (f : A → A) (P : A → bool) (tbl : list A) ks x :
  map f (List.filter P tbl) = omap (λ k, tbl !! k) ks → x ∈ tbl → P x = true → f x ∈ tbl.
Proof.
  intros E Hx HP. assert (f x ∈ map f (List.filter P tbl)) as Hf.
  { apply list_elem_of_In, in_map, filter_In. split; [by apply list_elem_of_In|done]. }
  rewrite E in Hf. apply list_elem_of_omap in Hf as (k&_&Hk). by eapply list_elem_of_lookup_2.
Qed.

Lemma migrates_constraint s l c0 c c' t :
  migrates c c' → t ∈ entries_at (TLDRAM.init_timing s) l c0 → t_cmd t = c' →
  mkTiming c (t_dist t) (t_val t) (t_sibling t) ∈ entries_at (TLDRAM.init_timing s) l c0.
Proof.
  intros Hm Ht%elem_of_entries_at Hc. apply entries_at_intro.
  apply (partner_elem (with_cmd c) (on_cmd c') _ _ (l, c0, t) (partners_ok s c c' Hm) Ht).
  apply bool_decide_eq_true, Hc.
Qed.

(** ** What does not depend on the order of constraints *)
Section Migration.
Variable o : TLDRAM.TLDRAM.
Context `{Hcount : !CountOK 5 (TLDRAM.count (TLDRAM.org_entry o))}.
Abbreviation spec := (TLDRAM.spec o).
Abbreviation hist := (list (event (C := TLDRAM.Command))).

Lemma timing_tl l c : timing spec l c = entries_at (TLDRAM.init_timing (TLDRAM.speed_entry o)) l c.
Proof. reflexivity. Qed.

Lemma met_migrates l h p i c c' x : migrates c c' → met spec l h p i c x → met spec l h p i c' x.
Proof.
  intros Hm [H1 H2]. setoid_rewrite timing_tl in H1. setoid_rewrite timing_tl in H2.
  split; intros cmd t Ht Hc Hs; rewrite timing_tl in Ht; pose proof (migrates_constraint _ _ _ _ _ _ Hm Ht Hc) as Ht'.
  - exact (H1 cmd _ Ht' eq_refl Hs).
  - exact (H2 cmd _ Ht' eq_refl Hs).
Qed.

Lemma visited_migrates c c' a k l : migrates c c' → visited spec c' a k l → visited spec c a k l.
Proof.
  intros Hm. induction 1 as [l Hl|k l x l' Hv IH Hne Hx Hpos Hcc Hl']; [by constructor|].
  eapply visited_child; eauto. simpl in *. by rewrite <-(migrates_scope _ _ Hm).
Qed.

(** A device that tells a read's command is ready tells it of the migration's. *)
Lemma check_migrates h i d c c' a x :
  tree_inv spec h [] i d → migrates c c' → addr_ok spec a → a !! 0%nat = Some i → 0 ≤ x →
  check spec c a x d = Some true → check spec c' a x d = Some true.
Proof.
  intros Ht Hm Ha Hi Hx Hc.
  assert (∀ c, visited spec c a 0 (level (info d))) as Hroot.
  { intros c0. inversion Ht as [?? n cs Hn]; subst. apply visited_root.
    destruct (cast_int (spec := spec) 0) as [l Hl]; [pose proof (row_lt (spec:=spec)); lia|].
    rewrite Hl. f_equal. apply level_int_inj. rewrite (int_cast _ _ Hl). simpl. symmetry. apply (ni_level _ _ _ _ _ Hn). }
  destruct (check_inv spec h [] i d a c x Ht) as (b&Hb&Hiff); [done..|apply Hroot|].
  destruct (check_inv spec h [] i d a c' x Ht) as (b'&Hb'&Hiff'); [done..|apply Hroot|].
  rewrite Hb'. f_equal. apply Hiff'. rewrite Hc in Hb. injection Hb as <-.
  intros k l j Hk Hv Hj. eapply met_migrates; [done|]. apply Hiff; [done|done|by eapply visited_migrates|done].
Qed.

(** Induction on device trees. *)
Lemma tree_ind {L C S} (P : DRAM L C S → Prop) : (∀ n cs, Forall P cs → P (Dram n cs)) → ∀ d, P d.
Proof. intros H. fix IH 1. intros [n cs]. apply H. induction cs as [|d cs IHcs]; constructor; [apply IH|exact IHcs]. Qed.

(** The first commands of a read and of its migration correspond. *)
Lemma bank_migrates (n n' : dram_info TLDRAM.Level TLDRAM.Command TLDRAM.State) cs cs' x c :
  state n' = state n → row_state n' = row_state n → level n = TLDRAM.Bank →
  (f ← prereq spec (level n) TLDRAM.RD; f (Dram n cs) TLDRAM.RD x) = Some c →
  ∃ c', (f ← prereq spec (level n) TLDRAM.MIG; f (Dram n' cs') TLDRAM.MIG x) = Some c' ∧ migrates c c' ∧ c ≠ TLDRAM.Cmd_MAX.
Proof.
  intros Es Er El. rewrite El. simpl. rewrite Es, Er. unfold TLDRAM.by_segment.
  destruct (state n); try done; repeat case_decide; repeat case_match; intros; simplify_eq;
    eexists; (split; [done|split; [constructor|done]]).
Qed.

Lemma decode_migrates a (d d' : DRAM TLDRAM.Level TLDRAM.Command TLDRAM.State) c :
  bare d' = bare d → decode spec TLDRAM.RD a d = Some c →
  ∃ c', decode spec TLDRAM.MIG a d' = Some c' ∧ migrates c c'.
Proof.
  revert d'. induction d as [n cs IH] using tree_ind. intros [n' cs'] E. apply bare_node in E as (El&_&Es&Er&_&_&_&Ecs). cbn [decode]. rewrite El.
  destruct (a !! _) as [x|]; cbn [mbind option_bind]; [|done].
  assert (bool_decide (cs' = []) = bool_decide (cs = [])) as Hnil by (by destruct cs, cs').
  assert ((if (x <? 0) || bool_decide (cs = []) then Some TLDRAM.RD else at_child (decode spec TLDRAM.RD a) cs x) = Some c →
    ∃ c', (if (x <? 0) || bool_decide (cs' = []) then Some TLDRAM.MIG else at_child (decode spec TLDRAM.MIG a) cs' x) = Some c' ∧ migrates c c') as Hrec.
  { rewrite Hnil. destruct (_ || _); [intros [= <-]; eexists; split; [done|constructor]|].
    rewrite !at_child_lookup. unfold zlookup. destruct (x <? 0); [done|].
    destruct (cs !! Z.to_nat x) as [d0|] eqn:Hd; simpl; [|done]. intros Hdec.
    apply (f_equal (lookup (Z.to_nat x))) in Ecs. rewrite !list_lookup_fmap, Hd in Ecs.
    destruct (cs' !! Z.to_nat x) as [d0'|]; simpl in *; [|done]. rewrite Forall_lookup in IH.
    apply (IH _ _ Hd); [congruence|done]. }
  destruct (level n) eqn:Hln; simpl.
  - apply Hrec.
  - rewrite Es. destruct (state n); simpl; try done; try (intros [= <-]; eexists; split; [done|constructor]); try apply Hrec.
  - pose proof (bank_migrates n n' cs cs' x) as Hb. rewrite Hln in Hb. simpl in Hb.
    destruct (match state n with TLDRAM.Opened => _ | TLDRAM.Closed => _ | _ => _ end) as [p|] eqn:Ep; cbn [mbind option_bind]; [|done].
    destruct (Hb p Es Er eq_refl eq_refl) as (p'&Ep'&Hm&Hp). rewrite Ep'. cbn [mbind option_bind].
    rewrite bool_decide_true by done. intros [= <-]. exists p'. by rewrite bool_decide_true by (by destruct Hm).
  - apply Hrec.
  - apply Hrec.
Qed.

(** ** The invariant *)

Record tl_inv (i : Z) (h : hist) (c : TlCtrl) : Prop := {
  tl_tree : tree_inv spec h [] i (channel c);
  tl_len s r : r ∈ q (queue_of s c) → length (addr_vec r) = level_MAX spec;
  tl_read r : r ∈ q (readq c) → addr_ok spec (addr_vec r) ∧ addr_vec r !! 0%nat = Some i;
  tl_clk : 0 ≤ clk c;
  tl_past : Forall (event_ok spec) h;
  tl_policy : policy_type (rowpolicy c) = OpenedRow
}.

(** A step that changes nothing but statistics in the device, and adds only
    refreshes to the queues. *)
Record quiet (c c' : TlCtrl) : Prop := {
  qu_bare : bare (channel c') = bare (channel c);
  qu_queue s r' : r' ∈ q (queue_of s c') →
    (∃ r, r ∈ q (queue_of s c) ∧ addr_vec r' = addr_vec r) ∨ s = OtherQ ∧ length (addr_vec r') = level_MAX spec;
  qu_policy : rowpolicy c' = rowpolicy c;
  qu_clk : clk c ≤ clk c'
}.

Lemma quiet_trans c1 c2 c3 : quiet c1 c2 → quiet c2 c3 → quiet c1 c3.
Proof.
  intros [B1 Q1 P1 K1] [B2 Q2 P2 K2]. split; [congruence| |congruence|lia].
  intros s r3 Hr. destruct (Q2 _ _ Hr) as [(r2&Hr2&E2)|?]; [|by right].
  destruct (Q1 _ _ Hr2) as [(r1&Hr1&E1)|[? ?]]; [left; exists r1; split; congruence|right; split; congruence].
Qed.

Lemma quiet_same c c' :
  bare (channel c') = bare (channel c) → (∀ s, q (queue_of s c') = q (queue_of s c)) → rowpolicy c' = rowpolicy c →
  clk c ≤ clk c' → quiet c c'.
Proof. intros Hb Hq Hp Hk. split; [done| |done|done]. intros s r Hr. rewrite Hq in Hr. eauto. Qed.

Lemma quiet_refl c : quiet c c.
Proof. by apply quiet_same. Qed.

Lemma quiet_set_queue s l c :
  (∀ r', r' ∈ l → ∃ r, r ∈ q (queue_of s c) ∧ addr_vec r' = addr_vec r) → quiet c (set_queue s l c).
Proof.
  intros Hl. split; [by destruct s| |by destruct s|by destruct s]. intros s' r' Hr. left. revert Hr.
  destruct s, s'; simpl in *; eauto.
Qed.

Lemma quiet_insert s j r r' c :
  q (queue_of s c) !! j = Some r → addr_vec r' = addr_vec r → quiet c (set_queue s (<[j:=r']> (q (queue_of s c))) c).
Proof.
  intros Hj E. apply quiet_set_queue. intros x [k Hk]%list_elem_of_lookup.
  apply list_lookup_insert_Some in Hk as [(<-&->&_)|[_ Hk]]; apply list_elem_of_lookup_2 in Hj;
    [by exists r|exists x; split; [by eapply list_elem_of_lookup_2|done]].
Qed.

Lemma quiet_inv i h c c' : quiet c c' → tl_inv i h c → tl_inv i h c'.
Proof.
  intros [B Q P K] [T L R C E Po]. split.
  - by eapply bare_tree_inv.
  - intros s r Hr. destruct (Q _ _ Hr) as [(r0&Hr0&->)|[_ ?]]; eauto.
  - intros r Hr. destruct (Q ReadQ _ Hr) as [(r0&Hr0&->)|[? _]]; [eauto|done].
  - lia.
  - done.
  - by rewrite P.
Qed.

(** *** The phases *)
Lemma update_serving_bare a delta clk (d d' : DRAM TLDRAM.Level TLDRAM.Command TLDRAM.State) :
  update_serving_requests spec a delta clk d = Some d' → bare d' = bare d.
Proof.
  revert d'. induction d as [n cs IH] using tree_ind. intros d' H. cbn [update_serving_requests] in H.
  destruct (a !! _) as [x|]; cbn [mbind option_bind] in H; [|done]. destruct (_ =? x); [|done].
  destruct (_ || _); [|done]. apply bind_Some in H as (st&_&H). cbv zeta in H.
  destruct (a !! _) as [y|]; cbn [mbind option_bind] in H; [|done].
  destruct (_ || _ || _); [by simplify_eq/=|]. apply bind_Some in H as (cs'&Hu&H). simplify_eq/=.
  f_equal. apply upd_child_Some in Hu as (d&d'&_&Hd&Hd'&->). rewrite Forall_lookup in IH.
  eapply bare_insert; eauto.
Qed.

Lemma serving_quiet a delta c c' : serving spec a delta c = Some c' → quiet c c'.
Proof.
  unfold serving. intros H. run_opt. apply quiet_same; simpl; [by eapply update_serving_bare|by intros []|done|done].
Qed.

Lemma serve_pending_quiet c done c' : serve_pending spec c = Some (done, c') → quiet c c'.
Proof.
  unfold serve_pending. intros H. destruct (pending c) as [|r rest]; [simplify_eq; apply quiet_refl|].
  destruct (depart r <=? clk c); [|simplify_eq; apply quiet_refl]. apply bind_Some in H as (c1&Hs&H). simplify_eq/=.
  eapply (quiet_trans _ c1); [|by apply quiet_same; [| intros [] | |]].
  destruct (1 <? _); [|simplify_eq; apply quiet_refl]. eapply quiet_trans; [|by eapply serving_quiet].
  by apply quiet_same; [|intros []| |].
Qed.

Lemma refresh_target_quiet rank bank sa c c' : refresh_target spec rank bank sa c = Some c' → quiet c c'.
Proof.
  unfold refresh_target, enqueue, accept. simpl. destruct (_ =? _); simpl; [done|]. intros [= <-].
  split; simpl; [done| |done|done]. intros [] r Hr; [left; eauto..|]. simpl in Hr. apply elem_of_app in Hr as [Hr|Hr]; [left; eauto|].
  right. split; [done|]. apply list_elem_of_singleton in Hr as ->. done.
Qed.

Lemma tick_ref_quiet c c' : tick_ref spec c = Some c' → quiet c c'.
Proof.
  unfold tick_ref. cbv zeta. set (c0 := set_refresh _ c).
  assert (quiet c c0) as H0 by (by apply quiet_same; [|intros []| |]).
  destruct (_ <=? _); [|by intros [= <-]]. unfold inject_refresh. intros H. apply bind_Some in H as (c1&Hl&H). simplify_eq/=.
  eapply quiet_trans; [exact H0|]. apply (quiet_trans _ c1); [|by apply quiet_same; [|intros []| |]].
  clear H0. revert Hl. generalize c0 as x. generalize (children (channel c)) as l.
  induction l as [|d l IH]; intros x Hl; simpl in Hl; [simplify_eq; apply quiet_refl|].
  apply bind_Some in Hl as (x1&Ht&Hl). eapply quiet_trans; [by eapply refresh_target_quiet|by apply IH].
Qed.

Lemma tl_first_command_quiet s j r c c' :
  tl_first_command o s j r c = Some c' → q (queue_of s c) !! j = Some r →
  quiet c c' ∧ q (queue_of s c') !! j = Some (set_is_first_command false r) ∧ clk c' = clk c ∧
  no_DRAM_latency c' = no_DRAM_latency c.
Proof.
  unfold tl_first_command. intros H Hj. destruct (is_first_command r) eqn:Hf.
  2:{ simplify_eq. split_and!; [apply quiet_refl| |done|done]. rewrite Hj. f_equal. destruct r; simpl in *. by subst. }
  set (c1 := set_queue s _ c) in *. assert (quiet c c1) as H1 by (by eapply quiet_insert).
  assert (q (queue_of s c1) !! j = Some (set_is_first_command false r)) as Hj1.
  { unfold c1. destruct s; simpl in *; apply list_lookup_insert_eq; by eapply lookup_lt_Some. }
  assert (clk c1 = clk c ∧ no_DRAM_latency c1 = no_DRAM_latency c) as [K1 N1] by (by unfold c1; destruct s).
  destruct (is_rw (type r)); [|by simplify_eq]. apply bind_Some in H as (c2&Hs&H).
  apply bind_Some in H as (hit&_&H). apply bind_Some in H as (open&_&H). apply bind_Some in H as (st&_&H). simplify_eq/=.
  pose proof (serving_quiet _ _ _ _ Hs) as H2. unfold serving in Hs. run_opt. split_and!; [| |done|done].
  - eapply quiet_trans; [exact H1|]. eapply quiet_trans; [exact H2|]. by apply quiet_same; [|intros []| |].
  - by destruct s.
Qed.

Lemma tl_complete_quiet s j r c c' : tl_complete o s j r c = Some c' → quiet c c'.
Proof.
  unfold tl_complete. intros H. apply bind_Some in H as (c1&Hs&H). simplify_eq.
  apply (quiet_trans _ c1).
  - apply (quiet_trans _ (if decide (type r = READ ∨ type r = EXTENSION)
      then set_pending (pending c ++ [set_depart (clk c + read_latency spec) r]) c else c)).
    { destruct (decide (type r = READ ∨ type r = EXTENSION)); [by apply quiet_same; [|intros []| |]|apply quiet_refl]. }
    destruct (decide (type r = WRITE)); [by eapply serving_quiet|simplify_eq; apply quiet_refl].
  - apply quiet_set_queue. intros x Hx. exists x. split; [by eapply list_elem_of_delete_inv|done].
Qed.

(** A command changes the history. *)
Lemma issue_cmd_inv i h cmd a c c' :
  tl_inv i h c → length a = level_MAX spec → issue_cmd spec cmd a c = Some c' →
  tl_inv i ((cmd, a, clk c) :: h) c' ∧ (∀ s, queue_of s c' = queue_of s c).
Proof.
  intros [T L R K E P] Ha H. unfold issue_cmd in H. apply bind_Some in H as (ready&_&H). destruct ready; [|done].
  assert (Forall (event_ok spec) ((cmd, a, clk c) :: h)) as E' by (by constructor).
  assert (∀ d, skel spec d = skel spec (channel c) → ∀ d', update_timing spec cmd a (clk c) d = Some d' →
    tree_inv spec ((cmd, a, clk c) :: h) [] i d') as Ht.
  { intros d Hd d' Hd'. destruct (update_timing_inv spec h [] i d a (clk c) cmd) as (d2&Hd2&?); [done|by split|by eapply tree_inv_skel|done|congruence]. }
  destruct (negb (no_DRAM_latency c)).
  - apply bind_Some in H as (ch&Hu&H). apply bind_Some in H as (t&_&H). simplify_eq. split; [|by intros []].
    split; try done. simpl. unfold update in Hu. apply bind_Some in Hu as (d2&Hs&Hu). eapply Ht; [|done].
    rewrite (update_state_skel _ _ _ _ _ _ Hs). by destruct (channel c).
  - apply bind_Some in H as (ch&Hu&H). simplify_eq. split; [|by intros []]. split; try done. simpl. by eapply Ht.
Qed.

Lemma tl_issue_request_inv i h s j req c c' :
  tl_inv i h c → q (queue_of s c) !! j = Some req → tl_issue_request o s j req c = Some c' → ∃ h', tl_inv i h' c'.
Proof.
  intros Hc Hj H. unfold tl_issue_request in H. apply bind_Some in H as (c1&Hf&H).
  destruct (tl_first_command_quiet _ _ _ _ _ Hf Hj) as (Hq1&Hj1&_). rewrite Hj1 in H; cbn [mbind option_bind] in H.
  set (r := to_migration _) in H. set (c2 := set_queue s _ c1) in H.
  assert (addr_vec r = addr_vec req) as Ea by (unfold r, to_migration; by case_decide).
  assert (tl_inv i h c2) as Hc2.
  { eapply quiet_inv; [|exact Hc]. eapply quiet_trans; [exact Hq1|]. eapply quiet_insert; [done|done]. }
  apply bind_Some in H as (cmd&_&H). apply bind_Some in H as (c3&Hi&H).
  destruct (issue_cmd_inv i h cmd (addr_vec r) c2 c3 Hc2) as [Hc3 _]; [|done|].
  { rewrite Ea. apply (tl_len _ _ _ Hc s). by eapply list_elem_of_lookup_2. }
  destruct (decide (cmd ≠ translate spec (type r))); [simplify_eq; by eexists|].
  eexists. eapply quiet_inv; [by eapply tl_complete_quiet|exact Hc3].
Qed.

Lemma tl_schedule_inv i h c c' : tl_inv i h c → tl_schedule o c = Some c' → ∃ h', tl_inv i h' c'.
Proof.
  intros Hc H. unfold tl_schedule in H. apply bind_Some in H as ([head t]&_&H).
  assert (tl_inv i h (set_rowtable t c)) as Hc1.
  { eapply quiet_inv; [|exact Hc]. by apply quiet_same; [|intros []| |]. }
  apply bind_Some in H as (ready&Hr&H). destruct ready as [[j req]|].
  - eapply (tl_issue_request_inv i h); [exact Hc1| |exact H]. destruct head as [k|]; [|done].
    apply bind_Some in Hr as (req'&Hk&Hr). apply bind_Some in Hr as (b&_&Hr). destruct b; simplify_eq. exact Hk.
  - unfold get_victim in H. simpl in H. rewrite (tl_policy _ _ _ Hc) in H. simpl in H. simplify_eq. by exists h.
Qed.

(** ** Reachable controllers *)

(** The controllers between the phases of the cycles of a run. *)
Inductive tl_reachable (l : TLDRAM.Level) (i : Z) : TlCtrl → Prop :=
| TReach_new n d : new_channel spec l i = Some d → tl_reachable l i (new_controller n d)
| TReach_enqueue c req :
    tl_reachable l i c → type req = READ ∨ type req = WRITE → addr_ok spec (addr_vec req) →
    addr_vec req !! 0%nat = Some i → tl_reachable l i (snd (enqueue req c))
| TReach_clk c : tl_reachable l i c → tl_reachable l i (tick_clk c)
| TReach_serve c done c' : tl_reachable l i c → serve_pending spec c = Some (done, c') → tl_reachable l i c'
| TReach_ref c c' : tl_reachable l i c → tick_ref spec c = Some c' → tl_reachable l i c'
| TReach_mode c : tl_reachable l i c → tl_reachable l i (switch_mode c)
| TReach_schedule c c' : tl_reachable l i c → tl_schedule o c = Some c' → tl_reachable l i c'.

Lemma tl_reachable_tick l i c done c' : tl_reachable l i c → tl_tick o c = Some (done, c') → tl_reachable l i c'.
Proof.
  intros Hc H. unfold tl_tick in H. apply bind_Some in H as ([d c1]&Hs&H). apply bind_Some in H as (c2&Ht&H).
  apply bind_Some in H as (c3&Hsch&H). simplify_eq. eapply TReach_schedule; [|done]. apply TReach_mode.
  eapply TReach_ref; [|done]. eapply TReach_serve; [|done]. by apply TReach_clk.
Qed.

Lemma accept_tl i h req c :
  tl_inv i h c → addr_ok spec (addr_vec req) → addr_vec req !! 0%nat = Some i → tl_inv i h (accept req c).
Proof.
  intros [T L R K E P] Ha H0.
  assert (∀ s r, r ∈ q (queue_of s (accept req c)) → r ∈ q (queue_of s c) ∨ addr_vec r = addr_vec req) as Hq.
  { unfold accept. intros s r. cbv zeta.
    assert (∀ x, r ∈ q x ++ [set_arrive (clk c) req] → r ∈ q x ∨ addr_vec r = addr_vec req) as Happ.
    { intros x [?| ->%list_elem_of_singleton]%elem_of_app; auto. }
    change (type (set_arrive (clk c) req)) with (type req). destruct (decide (type req = READ)) as [Er|Er].
    - rewrite Er. simpl. destruct (existsb _ _), s; simpl; rewrite ?removelast_last; auto.
    - rewrite bool_decide_false by done. simpl. destruct (type req), s; simpl; auto. }
  unfold accept. split.
  - case_match; by destruct (type req).
  - intros s r Hr. destruct (Hq s r Hr) as [Hr'| ->]; [eauto|apply Ha].
  - intros r Hr. destruct (Hq ReadQ r Hr) as [Hr'| ->]; [eauto|done].
  - case_match; by destruct (type req).
  - done.
  - case_match; by destruct (type req).
Qed.

Lemma tl_reachable_inv l i c : level_cast spec 0 = Some l → tl_reachable l i c → ∃ h, tl_inv i h c.
Proof.
  intros Hl Hr. induction Hr as [n d Hd|c req _ [h IH] _ Ha H0|c _ [h IH]|c dn c' _ [h IH] Hs|c c' _ [h IH] Ht|c _ [h IH]|c c' _ [h IH] Hs].
  - exists []. split; [by apply (run_updates_inv spec [] l i d)| | |done|done|done].
    + intros [] r; simpl; by rewrite elem_of_nil.
    + intros r; simpl; by rewrite elem_of_nil.
  - exists h. unfold enqueue. destruct (_ =? _); simpl; [done|by apply accept_tl].
  - exists h. eapply quiet_inv; [|exact IH]. apply quiet_same; [done|by intros []|done|simpl; lia].
  - exists h. eapply quiet_inv; [by eapply serve_pending_quiet|exact IH].
  - exists h. eapply quiet_inv; [by eapply tick_ref_quiet|exact IH].
  - exists h. eapply quiet_inv; [|exact IH]. apply quiet_same; unfold switch_mode; [|intros []|..]; by repeat case_match.
  - by eapply tl_schedule_inv.
Qed.

(** Changing a read into a migration is safe: whenever a read of a
    reachable TL-DRAM controller is ready (the test was made for the first
    command of the read: ACT or ACTF, PRE or PREF, RD, or a wake-up), the first
    command of its migration (ACTM, PREM, MIG or the same wake-up) exists after
    the statistics of its first command were taken, and it is ready too, so that
    the [assert] of [issue_cmd] on the changed request holds. *)
Theorem tl_migration_ready l i c j req c1 :
  level_cast spec 0 = Some l → tl_reachable l i c → q (readq c) !! j = Some req → type req = READ →
  is_ready spec c req = Some true → tl_first_command o ReadQ j req c = Some c1 →
  let req1 := to_migration (set_is_first_command false req) in
  ∃ cmd cmd1, get_first_cmd spec c req = Some cmd ∧ get_first_cmd spec c1 req1 = Some cmd1 ∧ migrates cmd cmd1 ∧
    is_ready_cmd spec c1 cmd1 (addr_vec req1) = Some true.
Proof.
  intros Hl Hr Hj Hty Hready Hf. destruct (tl_reachable_inv l i c Hl Hr) as [h Hc].
  destruct (tl_first_command_quiet ReadQ j req c c1 Hf Hj) as (Hq&_&Hclk&Hno).
  pose proof (quiet_inv i h c c1 Hq Hc) as Hc1. destruct (tl_read _ _ _ Hc req) as [Ha H0]; [by eapply list_elem_of_lookup_2|].
  unfold is_ready in Hready. apply bind_Some in Hready as (cmd&Hcmd&Hready). exists cmd.
  unfold to_migration. rewrite decide_True by done. cbv zeta. unfold get_first_cmd in *. simpl. rewrite Hno, Hty in *. simpl in *.
  assert (∃ cmd1, (if no_DRAM_latency c then Some TLDRAM.MIG else decode spec TLDRAM.MIG (addr_vec req) (channel c1)) = Some cmd1 ∧
    migrates cmd cmd1) as (cmd1&E&Hm).
  { destruct (no_DRAM_latency c); [simplify_eq; eexists; split; [done|constructor]|].
    eapply decode_migrates; [|exact Hcmd]. apply Hq. }
  exists cmd1. split_and!; [done|done|done|]. unfold is_ready_cmd in *. rewrite Hclk. simpl.
  eapply (check_migrates h i); [apply (tl_tree _ _ _ Hc1)|done|done|done|apply (tl_clk _ _ _ Hc)|].
  rewrite <-(bare_check spec _ _ _ _ _ (qu_bare _ _ Hq)) in Hready. exact Hready.
Qed.

End Migration.

(** ** A TL-DRAM controller *)
Definition tl : TLDRAM.TLDRAM :=
  TLDRAM.set_rank_number 1 (TLDRAM.set_channel_number 1
    (default (TLDRAM.mkTLDRAM 16 (TLDRAM.org_table TLDRAM.TLDRAM_2Gb_x8) (TLDRAM.speed_table TLDRAM.TLDRAM_1600K) 0)
       (TLDRAM.new TLDRAM.TLDRAM_2Gb_x8 TLDRAM.TLDRAM_1600K 16))).
#[export] Instance tl_count : CountOK 5 (TLDRAM.count (TLDRAM.org_entry tl)).
Proof. split; [done|]. repeat constructor; vm_compute; congruence. Qed.

Abbreviation spec_tl := (TLDRAM.spec tl).
Definition tl_dummy : DRAM TLDRAM.Level TLDRAM.Command TLDRAM.State := Dram (new_info spec_tl TLDRAM.Channel 0) [].
Definition tl_device : DRAM TLDRAM.Level TLDRAM.Command TLDRAM.State :=
  default tl_dummy (new_channel spec_tl TLDRAM.Channel 0).
Definition tl_req : Request := set_addr_vec [0; 0; 3; 7; 2] (Request_addr 64 READ 0).

(** A precharge for a migration ignores the write recovery time: no entry
    of the table constrains PREM after WR, in no configuration, while PRE and
    PREF wait for nCWL + nBL + nWR cycles.  On a device, after an activation in
    cycle 0 and a write in cycle 20, PREM is allowed in cycle 28, PRE not before
    cycle 44. *)
Theorem tl_prem_skips_write_recovery (o : TLDRAM.TLDRAM) :
  (∀ l t, t ∈ timing (TLDRAM.spec o) l TLDRAM.WR → t_cmd t ≠ TLDRAM.PREM) ∧
  (let s := TLDRAM.speed_entry o in let v := TLDRAM.nCWL s + TLDRAM.nBL s + TLDRAM.nWR s in
   mkTiming TLDRAM.PRE 1 v false ∈ timing (TLDRAM.spec o) TLDRAM.Bank TLDRAM.WR ∧
   mkTiming TLDRAM.PREF 1 v false ∈ timing (TLDRAM.spec o) TLDRAM.Bank TLDRAM.WR) ∧
  let a := [0; 0; 3; 7; 2] in
  let d := run_updates spec_tl [(TLDRAM.WR, a, 20); (TLDRAM.ACT, a, 0)] tl_device in
  (d ← d; check spec_tl TLDRAM.PREM a 28 d) = Some true ∧ (d ← d; check spec_tl TLDRAM.PRE a 43 d) = Some false ∧
  (d ← d; check spec_tl TLDRAM.PRE a 44 d) = Some true.
Proof.
  split; [|split].
  - intros l t Ht. rewrite timing_tl in Ht. assert (∀ s l, Forall (λ t, t_cmd t ≠ TLDRAM.PREM) (entries_at (TLDRAM.init_timing s) l TLDRAM.WR)) as H.
    { intros s l0. destruct s, l0; vm_compute; repeat constructor; discriminate. }
    specialize (H (TLDRAM.speed_entry o) l). rewrite Forall_forall in H. by apply H.
  - cbv zeta. rewrite timing_tl. split; apply entries_at_intro; unfold TLDRAM.init_timing;
      repeat first [by apply list_elem_of_here|apply list_elem_of_further].
  - vm_compute. auto.
Qed.

(** The read of the witness is turned into a migration in its first cycle. *)
Definition tl_ready : TlCtrl := tick_clk (snd (enqueue tl_req (new_controller 1 tl_device))).
Definition tl_counted : TlCtrl :=
  default tl_ready (tl_first_command tl ReadQ 0 (set_arrive 0 tl_req) tl_ready).

Lemma tl_migration_ready_witness :
  ∃ cmd cmd1, get_first_cmd spec_tl tl_ready (set_arrive 0 tl_req) = Some cmd ∧
    get_first_cmd spec_tl tl_counted (to_migration (set_is_first_command false (set_arrive 0 tl_req))) = Some cmd1 ∧
    migrates cmd cmd1 ∧
    is_ready_cmd spec_tl tl_counted cmd1 (addr_vec (to_migration (set_is_first_command false (set_arrive 0 tl_req)))) = Some true.
Proof.
  apply (tl_migration_ready tl TLDRAM.Channel 0 tl_ready 0 (set_arrive 0 tl_req) tl_counted).
  - reflexivity.
  - apply TReach_clk, TReach_enqueue.
    + apply TReach_new. apply (Some_default tl_dummy). vm_compute. reflexivity.
    + left. reflexivity.
    + split; [reflexivity|]. intros k x Hk Hpos. do 5 (destruct k as [|k]; [injection Hk as <-; vm_compute; reflexivity|]). discriminate.
    + reflexivity.
  - reflexivity.
  - reflexivity.
  - vm_compute. reflexivity.
  - apply (Some_default tl_ready). vm_compute. reflexivity.
Defined.
