(* ===== verification/DsarpRefresh.v ===== *)
(** * The refresh scheduler of DSARP ([ramulator/src/Refresh.cpp], [ramulator/src/Refresh.h])

    [Refresh<DSARP>] refreshes one bank at a time and keeps a credit for each
    bank ([bank_refresh_backlog]): a scheduled refresh may be skipped while the
    bank is not too far behind, and a refresh may be pulled in while a bank is
    idle or while writes are drained.  [None] is a failed assertion, an access
    to a vector out of its range, or a remainder by zero.  [rand] is a sequence
    of numbers, and [std::sort] any function that sorts: both are parameters. *)

From Stdlib Require Import Permutation Sorted.
From S2P Require Import Prelude Double Request Dram DramTiming BankProtocol Standard Scheduler Controller SpecDSARP.

Abbreviation DsarpCtrl := (Controller DSARP.Level DSARP.Command DSARP.State).

(** [v[r][b]] and [v[r][b] = f(v[r][b])] *)
Definition upd2 (f : Z → Z) (v : list (list Z)) (r b : Z) : option (list (list Z)) :=
  upd_child (λ row, upd_child (λ x, Some (f x)) row b) v r.

(** The members of [Refresh<DSARP>] that change, and the number of calls of
    [rand] made. *)
Record DRefresh := mkDRefresh {
  dclk : Z;
  drefreshed : Z;
  dbank_ref_counters : list Z;
  bank_refresh_backlog : list (list Z);
  subarray_ref_counters : list (list Z);
  max_rank_count : Z;
  max_bank_count : Z;
  max_sa_count : Z;
  ctrl_write_mode : bool;
  rand_calls : nat
}.
Definition set_dclk (x : Z) (R : DRefresh) : DRefresh :=
  mkDRefresh x (drefreshed R) (dbank_ref_counters R) (bank_refresh_backlog R) (subarray_ref_counters R)
    (max_rank_count R) (max_bank_count R) (max_sa_count R) (ctrl_write_mode R) (rand_calls R).
Definition set_drefreshed (x : Z) (R : DRefresh) : DRefresh :=
  mkDRefresh (dclk R) x (dbank_ref_counters R) (bank_refresh_backlog R) (subarray_ref_counters R)
    (max_rank_count R) (max_bank_count R) (max_sa_count R) (ctrl_write_mode R) (rand_calls R).
Definition set_counters (x : list Z) (R : DRefresh) : DRefresh :=
  mkDRefresh (dclk R) (drefreshed R) x (bank_refresh_backlog R) (subarray_ref_counters R)
    (max_rank_count R) (max_bank_count R) (max_sa_count R) (ctrl_write_mode R) (rand_calls R).
Definition set_backlog (x : list (list Z)) (R : DRefresh) : DRefresh :=
  mkDRefresh (dclk R) (drefreshed R) (dbank_ref_counters R) x (subarray_ref_counters R)
    (max_rank_count R) (max_bank_count R) (max_sa_count R) (ctrl_write_mode R) (rand_calls R).
Definition set_subarrays (x : list (list Z)) (R : DRefresh) : DRefresh :=
  mkDRefresh (dclk R) (drefreshed R) (dbank_ref_counters R) (bank_refresh_backlog R) x
    (max_rank_count R) (max_bank_count R) (max_sa_count R) (ctrl_write_mode R) (rand_calls R).
Definition set_ctrl_write_mode (x : bool) (R : DRefresh) : DRefresh :=
  mkDRefresh (dclk R) (drefreshed R) (dbank_ref_counters R) (bank_refresh_backlog R) (subarray_ref_counters R)
    (max_rank_count R) (max_bank_count R) (max_sa_count R) x (rand_calls R).
Definition set_rand_calls (x : nat) (R : DRefresh) : DRefresh :=
  mkDRefresh (dclk R) (drefreshed R) (dbank_ref_counters R) (bank_refresh_backlog R) (subarray_ref_counters R)
    (max_rank_count R) (max_bank_count R) (max_sa_count R) (ctrl_write_mode R) x.

(** As defined in the standards. *)
Definition backlog_max : Z := 8.
Definition backlog_min : Z := -8.
Definition backlog_early_pull_threshold : Z := -6.

Definition level_chan : nat := DSARP.level_int DSARP.Channel.
Definition level_rank : nat := DSARP.level_int DSARP.Rank.
Definition level_bank : nat := DSARP.level_int DSARP.Bank.

(** [0, ..., n - 1], for the loops over [int]s. *)
Definition upto (n : Z) : list Z := map Z.of_nat (seq 0 (Z.to_nat n)).

(** Whether an element satisfies a test, with and without leaving the loop at
    the first one. *)
Fixpoint existsM {A} (f : A → option bool) (l : list A) : option bool :=
  match l with
  | [] => Some false
  | x :: l => b ← f x; if (b : bool) then Some true else existsM f l
  end.
Definition anyM {A} (f : A → option bool) (l : list A) : option bool := bs ← mapM f l; Some (existsb id bs).

(** [req.addr_vec[level] == x] *)
Definition coord_is (l : nat) (x : Z) (req : Request) : option bool := y ← addr_vec req !! l; Some (y =? x).
Definition andM (x y : option bool) : option bool := b ← x; if (b : bool) then y else Some false.

Section Ops.
Variable o : DSARP.DSARP.
Variable rand : nat → Z.
Variable sort : list (Z * Z) → list (Z * Z).
Abbreviation spec := (DSARP.spec o).

(** [Refresh(ctrl)] *)
Definition new_drefresh (c : DsarpCtrl) : option DRefresh :=
  banks ← count spec !! level_bank;
  sas ← count spec !! DSARP.level_int DSARP.SubArray;
  let ranks := length (children (channel c)) in
  Some (mkDRefresh 0 0 (replicate ranks 0) (replicate ranks (replicate (Z.to_nat banks) 0))
          (replicate ranks (replicate (Z.to_nat sas) 0)) (Z.of_nat ranks) banks sas false 0).

(** The steps every bank-level refresh ends with: the refresh of the subarray
    whose turn it is, one credit, and the turn of the next subarray. *)
Definition refresh_now (r b : Z) (R : DRefresh) (c : DsarpCtrl) : option (DRefresh * DsarpCtrl) :=
  sa ← table_at (subarray_ref_counters R) r b;
  c ← refresh_target spec r b sa c;
  backlog ← upd2 (λ x, x + 1) (bank_refresh_backlog R) r b;
  assert! negb (max_sa_count R =? 0);
  sas ← upd2 (λ x, Z.rem (x + 1) (max_sa_count R)) (subarray_ref_counters R) r b;
  Some (set_subarrays sas (set_backlog backlog R), c).

(** ** [early_inject_refresh()] *)

(** The banks with a queued read. *)
Definition occupied (R : DRefresh) (c : DsarpCtrl) : option (list bool) :=
  foldM (λ occ req,
      ch ← addr_vec req !! level_chan;
      assert! ch =? nid (info (channel c));
      r ← addr_vec req !! level_rank;
      b ← addr_vec req !! level_bank;
      upd_child (λ _, Some true) occ (r * max_bank_count R + b))
    (replicate (Z.to_nat (max_rank_count R * max_bank_count R)) false) (q (readq c)).

Definition pending_bank (r b : Z) (c : DsarpCtrl) : option bool :=
  anyM (λ req, if decide (type req = REFRESH) then
      andM (coord_is level_chan (nid (info (channel c))) req) (andM (coord_is level_rank r req) (coord_is level_bank b req))
    else Some false) (q (otherq c)).

Definition otherq_full (c : DsarpCtrl) : bool := qmax (otherq c) <=? qsize (otherq c).

(** The loop over the banks of a rank, from [bidx_start]. *)
Fixpoint early_bank (occ : list bool) (r start : Z) (bs : list Z) (R : DRefresh) (c : DsarpCtrl) :
    option (DRefresh * DsarpCtrl) :=
  match bs with
  | [] => Some (R, c)
  | b :: bs =>
    let bidx := Z.rem (start + b) (max_bank_count R) in
    busy ← zlookup occ (r * max_bank_count R + bidx);
    if (busy : bool) then early_bank occ r start bs R c
    else
      pending_ref ← pending_bank r bidx c;
      if (pending_ref : bool) then early_bank occ r start bs R c
      else
        backlog ← table_at (bank_refresh_backlog R) r bidx;
        if (backlog_early_pull_threshold <=? backlog) || otherq_full c then early_bank occ r start bs R c
        else refresh_now r bidx R c
  end.

Definition early_inject_refresh (R : DRefresh) (c : DsarpCtrl) : option (DRefresh * DsarpCtrl) :=
  if write_mode c then Some (R, c)
  else
    occ ← occupied R c;
    foldM (λ '(R, c) r,
        assert! negb (max_bank_count R =? 0);
        let start := Z.rem (rand (rand_calls R)) (max_bank_count R) in
        let R := set_rand_calls (S (rand_calls R)) R in
        early_bank occ r start (upto (max_bank_count R)) R c)
      (R, c) (upto (max_rank_count R)).

(** ** [inject_refresh(b_ref_rank)] *)

(** [type == DARP || type == DSARP] *)
Definition skips : bool := bool_decide (DSARP.type o = DSARP.DARP ∨ DSARP.type o = DSARP.DSARP_type).

(** Whether the refresh of the bank cannot be skipped. *)
Definition ref_now (r b : Z) (R : DRefresh) (c : DsarpCtrl) : option bool :=
  if skips then
    let pending_ref := existsb (λ req, bool_decide (type req = REFRESH)) (q (otherq c)) in
    let now := negb pending_ref && (qsize (readq c) =? 0) in
    backlog ← table_at (bank_refresh_backlog R) r b;
    Some (now || (backlog <=? backlog_min))
  else Some true.

Definition inject_rank (r : Z) (R : DRefresh) (c : DsarpCtrl) : option (DRefresh * DsarpCtrl) :=
  b ← zlookup (dbank_ref_counters R) r;
  backlog ← upd2 (λ x, x - 1) (bank_refresh_backlog R) r b;
  assert! negb (max_bank_count R =? 0);
  counters ← upd_child (λ x, Some (Z.rem (x + 1) (max_bank_count R))) (dbank_ref_counters R) r;
  let R := set_counters counters (set_backlog backlog R) in
  now ← ref_now r b R c;
  if (now : bool) then refresh_now r b R c else Some (R, c).

Definition d_inject_refresh (b_ref_rank : bool) (R : DRefresh) (c : DsarpCtrl) : option (DRefresh * DsarpCtrl) :=
  '(R, c) ←
    (if b_ref_rank then
       c ← foldM (λ c rank, refresh_target spec (nid (info rank)) (-1) (-1) c) c (children (channel c));
       Some (R, c)
     else foldM (λ '(R, c) rank, inject_rank (nid (info rank)) R c) (R, c) (children (channel c)));
  Some (set_drefreshed (dclk R) R, c).

(** ** [wrp()] *)

(** [first++] of the entry of the bank of each request to the rank. *)
Definition add_demand (r : Z) (reqs : list Request) (d : list (Z * Z) * Z) : option (list (Z * Z) * Z) :=
  foldM (λ '(d, n) req,
      x ← addr_vec req !! level_rank;
      if x =? r then
        b ← addr_vec req !! level_bank;
        d ← upd_child (λ '(k, b), Some (k + 1, b)) d b;
        Some (d, n + 1)
      else Some (d, n)) d reqs.

(** [top_idle_idx]: the first entry whose [second] is not 0. *)
Fixpoint top_idle (i : Z) (d : list (Z * Z)) : Z :=
  match d with [] => 0 | e :: d => if negb (snd e =? 0) then i else top_idle (i + 1) d end.

Definition wrp_rank (r : Z) (R : DRefresh) (c : DsarpCtrl) : option (DRefresh * DsarpCtrl) :=
  pending_ref ← existsM (λ req, if decide (type req = REFRESH) then coord_is level_rank r req else Some false) (q (otherq c));
  if (pending_ref : bool) then Some (R, c)
  else
    '(demand, total_wr) ← add_demand r (q (writeq c)) (map (λ b, (0, b)) (upto (max_bank_count R)), 0);
    if total_wr =? 0 then Some (R, c)
    else
      '(demand, _) ← add_demand r (q (readq c)) (demand, 0);
      let sorted := sort demand in
      let top_idle_idx := top_idle 0 sorted in
      let '(ref_bid_idx, R) :=
        if top_idle_idx =? 0 then (0, R)
        else (Z.rem (rand (rand_calls R)) top_idle_idx, set_rand_calls (S (rand_calls R)) R) in
      ref ← zlookup sorted ref_bid_idx;
      let ref_bid := snd ref in
      backlog ← table_at (bank_refresh_backlog R) r ref_bid;
      if (backlog <? backlog_max) && negb (otherq_full c) then refresh_now r ref_bid R c else Some (R, c).

Definition wrp (R : DRefresh) (c : DsarpCtrl) : option (DRefresh * DsarpCtrl) :=
  foldM (λ '(R, c) r, wrp_rank r R c) (R, c) (upto (max_rank_count R)).

(** ** [tick_ref()] *)
Definition refresh_interval : Z :=
  if DSARP.b_ref_rank o then DSARP.nREFI (DSARP.speed_entry o) else DSARP.nREFIpb (DSARP.speed_entry o).

Definition d_tick_ref (R : DRefresh) (c : DsarpCtrl) : option (DRefresh * DsarpCtrl) :=
  let R := set_dclk (dclk R + 1) R in
  '(R, c) ←
    (if skips then
       '(R, c) ← (if negb (ctrl_write_mode R) && write_mode c then wrp R c else Some (R, c));
       early_inject_refresh (set_ctrl_write_mode (write_mode c) R) c
     else Some (R, c));
  if refresh_interval <=? dclk R - drefreshed R then d_inject_refresh (DSARP.b_ref_rank o) R c else Some (R, c).

(** [Controller<DSARP>::tick()]: the generic cycle with this refresh. *)
Definition dsarp_tick (R : DRefresh) (c : DsarpCtrl) : option (list Request * DRefresh * DsarpCtrl) :=
  '(done, c) ← serve_pending spec (tick_clk c);
  '(R, c) ← d_tick_ref R c;
  c ← schedule spec (switch_mode c);
  Some (done, R, c).

End Ops.
