(* ===== verification/DsarpInv.v ===== *)
(** * The refresh scheduler of DSARP: its invariant and its totality

    What the operations of [DsarpRefresh.v] do to the credits of the banks, and
    that they return. *)

From Stdlib Require Import Permutation Sorted.
From S2P Require Import Prelude Request Double Dram DramTiming BankProtocol Standard SpecDSARP Scheduler Controller DsarpRefresh.

(** ** What the refresh scheduler of DSARP does to its credits

    [dstep R c R' c' l sched]: the refreshes [l] were queued and the banks
    [sched] had their turn; the credit of every bank changes by the refreshes it
    got less the turns it had.  Every operation of [DsarpRefresh] is such a
    step, keeps the credits between their bounds, and returns when the counters
    have the right shape and the queue has room. *)

(** ** Vectors of vectors *)
Lemma zlookup_insert {A} (l : list A) i j x :
  0 ≤ i → is_Some (zlookup l i) → zlookup (<[Z.to_nat i:=x]> l) j = if j =? i then Some x else zlookup l j.
Proof.
  intros Hi [y Hy]. unfold zlookup in *. rewrite (proj2 (Z.ltb_ge _ _)) in Hy by done. destruct (j <? 0) eqn:Hj.
  - apply Z.ltb_lt in Hj. by rewrite (proj2 (Z.eqb_neq _ _)) by lia.
  - apply Z.ltb_ge in Hj. destruct (j =? i) eqn:E.
    + apply Z.eqb_eq in E as ->. apply list_lookup_insert_eq. by eapply lookup_lt_Some.
    + apply Z.eqb_neq in E. rewrite list_lookup_insert_ne; [done|]. intros E'. apply E. lia.
Qed.

Lemma zlookup_Some_nonneg {A} (l : list A) i x : zlookup l i = Some x → 0 ≤ i.
Proof. unfold zlookup. case_match; [done|]. lia. Qed.

Lemma upd2_Some f v r b v' :
  upd2 f v r b = Some v' →
  (∀ r0 b0, table_at v' r0 b0 = (λ x, if (r0 =? r) && (b0 =? b) then f x else x) <$> table_at v r0 b0) ∧
  map length v' = map length v.
Proof.
  unfold upd2. rewrite upd_child_lookup. intros H. apply bind_Some in H as (row&Hr&H).
  apply bind_Some in H as (row'&Hu&[= <-]). pose proof (zlookup_Some_nonneg _ _ _ Hr) as Hpos.
  rewrite upd_child_lookup in Hu. apply bind_Some in Hu as (x&Hx&[= <-]). pose proof (zlookup_Some_nonneg _ _ _ Hx) as Hposb.
  split.
  - intros r0 b0. unfold table_at. rewrite zlookup_insert by (try done; by eexists). destruct (r0 =? r) eqn:Er; simpl.
    + apply Z.eqb_eq in Er as ->. rewrite Hr; simpl. rewrite zlookup_insert by (try done; by eexists).
      destruct (b0 =? b) eqn:Eb; simpl; [apply Z.eqb_eq in Eb as ->; by rewrite Hx|]. by destruct (zlookup row b0).
    + destruct (zlookup v r0) as [row0|]; simpl; [|done]. by destruct (zlookup row0 b0).
  - apply list_eq. intros k. rewrite !list_lookup_fmap. unfold zlookup in Hr. rewrite (proj2 (Z.ltb_ge _ _)) in Hr by done.
    destruct (decide (k = Z.to_nat r)) as [->|Hne].
    + rewrite list_lookup_insert_eq by (by eapply lookup_lt_Some). rewrite Hr. simpl. by rewrite length_insert.
    + by rewrite list_lookup_insert_ne.
Qed.

Lemma upd2_is_Some f v r b x : table_at v r b = Some x → is_Some (upd2 f v r b).
Proof.
  unfold table_at, upd2. intros H. apply bind_Some in H as (row&Hr&Hx). rewrite upd_child_lookup, Hr; simpl.
  rewrite upd_child_lookup, Hx; simpl. by eexists.
Qed.

Lemma length_upto n : length (upto n) = Z.to_nat n.
Proof. unfold upto. by rewrite length_map, length_seq. Qed.

Lemma elem_of_upto n x : x ∈ upto n ↔ 0 ≤ x < n.
Proof.
  unfold upto. rewrite list_elem_of_fmap. split.
  - intros (k&->&Hk%elem_of_seq). lia.
  - intros H. exists (Z.to_nat x). rewrite elem_of_seq. lia.
Qed.

Lemma zlookup_upto n i : zlookup (upto n) i = if (0 <=? i) && (i <? n) then Some i else None.
Proof.
  unfold zlookup, upto. destruct (i <? 0) eqn:E; [by rewrite (proj2 (Z.leb_gt 0 i)) by lia|].
  rewrite (proj2 (Z.leb_le 0 i)) by lia. simpl. rewrite list_lookup_fmap. destruct (Z.ltb_spec i n).
  - rewrite lookup_seq_lt by lia. simpl. f_equal. lia.
  - by rewrite lookup_seq_ge by lia.
Qed.

Lemma NoDup_upto n : NoDup (upto n).
Proof. unfold upto. apply NoDup_fmap; [intros ???; lia|apply NoDup_seq]. Qed.

(** ** Steps *)
Section Steps.
Variable o : DSARP.DSARP.
Variable rand : nat → Z.
Variable sort : list (Z * Z) → list (Z * Z).
Abbreviation spec := (DSARP.spec o).

(** The refreshes of a bank in a list of requests, and its turns. *)
Definition of_bank (r b : Z) (req : Request) : bool :=
  bool_decide (addr_vec req !! level_rank = Some r) && bool_decide (addr_vec req !! level_bank = Some b).
Fixpoint issued (r b : Z) (l : list Request) : Z :=
  match l with [] => 0 | req :: l => (if of_bank r b req then 1 else 0) + issued r b l end.
Fixpoint turns (r b : Z) (l : list (Z * Z)) : Z :=
  match l with [] => 0 | e :: l => (if (r =? fst e) && (b =? snd e) then 1 else 0) + turns r b l end.

Definition push (l : list Request) (c : DsarpCtrl) : DsarpCtrl := set_otherq (set_q (q (otherq c) ++ l) (otherq c)) c.

(** A refresh the scheduler queues: its type, its coordinates and its time. *)
Definition queued_refresh (x : Z) (req : Request) : Prop :=
  type req = REFRESH ∧ length (addr_vec req) = 6%nat ∧ arrive req = x.

Record dstep (R : DRefresh) (c : DsarpCtrl) (R' : DRefresh) (c' : DsarpCtrl) (l : list Request) (sched : list (Z * Z)) : Prop := {
  ds_ctrl : c' = push l c;
  ds_refresh : Forall (queued_refresh (clk c)) l;
  ds_backlog r b : table_at (bank_refresh_backlog R') r b =
    (λ x, x + issued r b l - turns r b sched) <$> table_at (bank_refresh_backlog R) r b;
  ds_shape : map length (bank_refresh_backlog R') = map length (bank_refresh_backlog R) ∧
    map length (subarray_ref_counters R') = map length (subarray_ref_counters R);
  ds_max : max_rank_count R' = max_rank_count R ∧ max_bank_count R' = max_bank_count R ∧ max_sa_count R' = max_sa_count R
}.

Lemma issued_app r b l l' : issued r b (l ++ l') = issued r b l + issued r b l'.
Proof. induction l; simpl; lia. Qed.
Lemma turns_app r b l l' : turns r b (l ++ l') = turns r b l + turns r b l'.
Proof. induction l; simpl; lia. Qed.

Lemma push_nil c : push [] c = c.
Proof. unfold push. rewrite app_nil_r. by destruct c as [? ? ? ? ? ? ? ? []]. Qed.
Lemma push_push l l' c : push l' (push l c) = push (l ++ l') c.
Proof. unfold push. simpl. by rewrite (assoc_L (++)). Qed.

(** Only the members of the step matter. *)
Lemma dstep_same R R' c :
  bank_refresh_backlog R' = bank_refresh_backlog R → subarray_ref_counters R' = subarray_ref_counters R →
  max_rank_count R' = max_rank_count R → max_bank_count R' = max_bank_count R → max_sa_count R' = max_sa_count R →
  dstep R c R' c [] [].
Proof.
  intros E1 E2 E3 E4 E5. split; [by rewrite push_nil|done| |by rewrite E1, E2|done].
  intros r b. rewrite E1. simpl. destruct (table_at _ r b); simpl; [|done]. f_equal. lia.
Qed.

Lemma dstep_trans R c R1 c1 R2 c2 l1 l2 s1 s2 :
  dstep R c R1 c1 l1 s1 → dstep R1 c1 R2 c2 l2 s2 → dstep R c R2 c2 (l1 ++ l2) (s1 ++ s2).
Proof.
  intros [C1 F1 B1 [S1 S1'] M1] [C2 F2 B2 [S2 S2'] M2]. subst c1. split.
  - by rewrite C2, push_push.
  - by apply Forall_app.
  - intros r b. rewrite B2, B1, issued_app, turns_app. destruct (table_at _ r b); simpl; [|done]. f_equal. lia.
  - split; congruence.
  - intuition congruence.
Qed.

(** A loop of steps without turns. *)
Lemma dstep_loop {A} (f : DRefresh → DsarpCtrl → A → option (DRefresh * DsarpCtrl))
    (P : DRefresh → DsarpCtrl → Prop) (xs : list A) R c R' c' :
  (∀ x R c R' c', P R c → f R c x = Some (R', c') → (∃ l, dstep R c R' c' l [] ∧ (length l ≤ 1)%nat) ∧ P R' c') →
  P R c → foldM (λ '(R, c) x, f R c x) (R, c) xs = Some (R', c') →
  (∃ l, dstep R c R' c' l [] ∧ (length l ≤ length xs)%nat) ∧ P R' c'.
Proof.
  intros Hf. revert R c. induction xs as [|x xs IH]; intros R c HP H; simpl in H.
  - simplify_eq. split; [|done]. exists []. split; [by apply dstep_same|done].
  - apply bind_Some in H as ([R1 c1]&H1&H). destruct (Hf _ _ _ _ _ HP H1) as [(l1&D1&L1) HP1].
    destruct (IH _ _ HP1 H) as [(l2&D2&L2) HP2]. split; [|done]. exists (l1 ++ l2). split.
    + change (@nil (Z * Z)) with (@nil (Z * Z) ++ []). by eapply dstep_trans.
    + rewrite length_app. simpl. lia.
Qed.

(** ** One refresh *)
Lemma refresh_target_push r b sa c c' :
  refresh_target spec r b sa c = Some c' →
  ∃ req, c' = push [req] c ∧ queued_refresh (clk c) req ∧ addr_vec req = [nid (info (channel c)); r; b; sa; -1; -1].
Proof.
  unfold refresh_target, enqueue, accept. simpl. destruct (_ =? _); simpl; [done|]. intros [= <-].
  by exists (set_arrive (clk c) (Request_addr_vec [nid (info (channel c)); r; b; sa; -1; -1] REFRESH (-1))).
Qed.

Lemma refresh_target_room r b sa c :
  qsize (otherq c) < qmax (otherq c) → is_Some (refresh_target spec r b sa c).
Proof.
  intros H. unfold refresh_target, enqueue. simpl. rewrite (proj2 (Z.eqb_neq _ _)) by lia. by eexists.
Qed.

Lemma of_bank_refresh id r b sa r0 b0 req :
  addr_vec req = [id; r; b; sa; -1; -1] → of_bank r0 b0 req = (r0 =? r) && (b0 =? b).
Proof.
  intros E. unfold of_bank. rewrite E. simpl.
  assert (∀ x y : Z, bool_decide (Some x = Some y) = (y =? x)) as Hb; [|by rewrite !Hb].
  intros x y. destruct (Z.eqb_spec y x) as [->|Hne]; [by apply bool_decide_true|apply bool_decide_false; congruence].
Qed.

Lemma refresh_now_step r b R c R' c' :
  refresh_now o r b R c = Some (R', c') → (∃ req, dstep R c R' c' [req] []) ∧
  (∀ r0 b0, table_at (bank_refresh_backlog R') r0 b0 =
    (λ x, if (r0 =? r) && (b0 =? b) then x + 1 else x) <$> table_at (bank_refresh_backlog R) r0 b0) ∧
  dbank_ref_counters R' = dbank_ref_counters R.
Proof.
  intros H. unfold refresh_now in H. apply bind_Some in H as (sa&_&H). apply bind_Some in H as (c1&Ht&H).
  apply bind_Some in H as (bl&Hb&H). destruct (negb _); [|done]. apply bind_Some in H as (sas&Hs&[= <- <-]).
  destruct (refresh_target_push _ _ _ _ _ Ht) as (req&->&Hreq&Ea). destruct (upd2_Some _ _ _ _ _ Hb) as [Hbl Hshb].
  destruct (upd2_Some _ _ _ _ _ Hs) as [_ Hshs]. split_and!; [|exact Hbl|done].
  exists req. split; [done|by constructor| |done|done]. intros r0 b0. simpl. rewrite Hbl.
  rewrite (of_bank_refresh _ _ _ _ r0 b0 req Ea). destruct (table_at _ r0 b0); simpl; [|done]. f_equal. case_match; lia.
Qed.

(** ** The bounds of the credits *)

(** The credit of a bank is within its bounds. *)
Definition credit_ok (x : Z) : Prop := if skips o then -7 ≤ x ≤ 8 else x = 0.
Definition bounded (R : DRefresh) : Prop := ∀ r b x, table_at (bank_refresh_backlog R) r b = Some x → credit_ok x.

Lemma bounded_same R R' : bank_refresh_backlog R' = bank_refresh_backlog R → bounded R → bounded R'.
Proof. unfold bounded. by intros ->. Qed.

(** A refresh may be given when the bank's credit allows one more. *)
Lemma refresh_now_bounded r b R c R' c' x :
  bounded R → refresh_now o r b R c = Some (R', c') → table_at (bank_refresh_backlog R) r b = Some x → credit_ok (x + 1) →
  bounded R'.
Proof.
  intros HB H Hx Hok r0 b0 y Hy. destruct (refresh_now_step _ _ _ _ _ _ H) as (_&E&_). rewrite E in Hy.
  destruct (table_at (bank_refresh_backlog R) r0 b0) as [z|] eqn:Hz; simplify_eq/=. specialize (HB _ _ _ Hz).
  destruct ((r0 =? r) && (b0 =? b)) eqn:Eq; [|done]. apply andb_prop in Eq as [->%Z.eqb_eq ->%Z.eqb_eq]. congruence.
Qed.

(** ** [early_inject_refresh] *)
Lemma early_bank_step occ r start bs R c R' c' :
  skips o = true → bounded R → early_bank o occ r start bs R c = Some (R', c') →
  (∃ l, dstep R c R' c' l [] ∧ (length l ≤ 1)%nat) ∧ bounded R' ∧ dbank_ref_counters R' = dbank_ref_counters R.
Proof.
  intros Hs HB. induction bs as [|b bs IH]; simpl; intros H.
  { simplify_eq. split_and!; [|done|done]. exists []. split; [by apply dstep_same|simpl; lia]. }
  apply bind_Some in H as (busy&_&H). destruct busy; [by apply IH|]. apply bind_Some in H as (p&_&H). destruct p; [by apply IH|].
  apply bind_Some in H as (x&Hx&H). destruct (_ || _) eqn:E; [by apply IH|]. apply orb_false_iff in E as [E _].
  destruct (refresh_now_step _ _ _ _ _ _ H) as ((req&Hd)&_&Hc). split_and!; [by exists [req]| |done].
  eapply refresh_now_bounded; [done|done|done|]. unfold credit_ok, backlog_early_pull_threshold in *. rewrite Hs. 
  specialize (HB _ _ _ Hx). unfold credit_ok in HB. rewrite Hs in HB. lia.
Qed.

Lemma early_step R c R' c' :
  skips o = true → bounded R → early_inject_refresh o rand R c = Some (R', c') →
  (∃ l, dstep R c R' c' l [] ∧ (length l ≤ Z.to_nat (max_rank_count R))%nat) ∧ bounded R' ∧ dbank_ref_counters R' = dbank_ref_counters R.
Proof.
  intros Hs HB H. unfold early_inject_refresh in H. destruct (write_mode c).
  { simplify_eq. split_and!; [|done|done]. exists []. split; [by apply dstep_same|simpl; lia]. }
  apply bind_Some in H as (occ&_&H).
  apply (dstep_loop (λ R c r, assert! negb (max_bank_count R =? 0);
        early_bank o occ r (Z.rem (rand (rand_calls R)) (max_bank_count R)) (upto (max_bank_count R))
          (set_rand_calls (S (rand_calls R)) R) c)
      (λ R0 _, bounded R0 ∧ dbank_ref_counters R0 = dbank_ref_counters R)) in H; [by rewrite length_upto in H; tauto| |done].
  intros r R1 c1 R2 c2 [HB1 E1] H1. simpl in H1. destruct (negb _); [|done].
  destruct (early_bank_step _ _ _ _ _ _ _ _ Hs (bounded_same R1 (set_rand_calls (S (rand_calls R1)) R1) eq_refl HB1) H1) as ((l&Hd&Hl)&HB2&E2).
  split; [|split; [done|by rewrite E2]]. exists l. split; [|done]. change l with ([] ++ l). change (@nil (Z * Z)) with (@nil (Z * Z) ++ []).
  eapply (dstep_trans R1 c1 (set_rand_calls (S (rand_calls R1)) R1) c1); [by apply dstep_same|exact Hd].
Qed.

(** ** [wrp] *)
Lemma wrp_rank_step r R c R' c' :
  skips o = true → bounded R → wrp_rank o rand sort r R c = Some (R', c') →
  (∃ l, dstep R c R' c' l [] ∧ (length l ≤ 1)%nat) ∧ bounded R' ∧ dbank_ref_counters R' = dbank_ref_counters R.
Proof.
  intros Hs HB H. assert ((∃ l, dstep R c R c l [] ∧ (length l ≤ 1)%nat) ∧ bounded R ∧ dbank_ref_counters R = dbank_ref_counters R) as Hstay.
  { split_and!; [|done|done]. exists []. split; [by apply dstep_same|simpl; lia]. }
  unfold wrp_rank in H. apply bind_Some in H as (p&_&H). destruct p; [by simplify_eq|].
  apply bind_Some in H as ([d n]&_&H). destruct (n =? 0); [by simplify_eq|]. apply bind_Some in H as ([d' n']&_&H).
  destruct (if top_idle 0 (sort d') =? 0 then _ else _) as [k R1] eqn:Ek.
  assert (bank_refresh_backlog R1 = bank_refresh_backlog R ∧ dstep R c R1 c [] [] ∧ dbank_ref_counters R1 = dbank_ref_counters R) as (E1&D1&C1).
  { destruct (_ =? 0); simplify_eq; split_and!; try done; by apply dstep_same. }
  apply bind_Some in H as (e&_&H). apply bind_Some in H as (x&Hx&H).
  pose proof (bounded_same R R1 E1 HB) as HB1. destruct ((x <? backlog_max) && _) eqn:E.
  - apply andb_prop in E as [E _]. destruct (refresh_now_step _ _ _ _ _ _ H) as ((req&Hd)&_&Hc).
    split_and!; [|eapply refresh_now_bounded; [done|done|done|]|congruence].
    + exists [req]. split; [|done]. change [req] with ([] ++ [req]). change (@nil (Z * Z)) with (@nil (Z * Z) ++ []). by eapply dstep_trans.
    + specialize (HB1 _ _ _ Hx). unfold credit_ok, backlog_max in *. rewrite Hs in *. lia.
  - simplify_eq. split_and!; [exists []; split; [done|simpl; lia]|done|done].
Qed.

Lemma wrp_step R c R' c' :
  skips o = true → bounded R → wrp o rand sort R c = Some (R', c') →
  (∃ l, dstep R c R' c' l [] ∧ (length l ≤ Z.to_nat (max_rank_count R))%nat) ∧ bounded R' ∧ dbank_ref_counters R' = dbank_ref_counters R.
Proof.
  intros Hs HB H. apply (dstep_loop (λ R c r, wrp_rank o rand sort r R c)
      (λ R0 _, bounded R0 ∧ dbank_ref_counters R0 = dbank_ref_counters R)) in H; [by rewrite length_upto in H; tauto| |done].
  intros r R1 c1 R2 c2 [HB1 E1] H1. destruct (wrp_rank_step _ _ _ _ _ Hs HB1 H1) as (Hd&HB2&E2). split; [done|].
  split; [done|congruence].
Qed.

(** ** [inject_refresh] *)

(** A turn of a bank. *)
Lemma inject_rank_step r R c R' c' :
  bounded R → inject_rank o r R c = Some (R', c') →
  ∃ b l, (length l ≤ 1)%nat ∧ zlookup (dbank_ref_counters R) r = Some b ∧ dstep R c R' c' l [(r, b)] ∧ bounded R' ∧
    ∀ r0, zlookup (dbank_ref_counters R') r0 =
      if r0 =? r then Some (Z.rem (b + 1) (max_bank_count R)) else zlookup (dbank_ref_counters R) r0.
Proof.
  intros HB H. unfold inject_rank in H. apply bind_Some in H as (b&Hb&H). apply bind_Some in H as (bl&Hu&H).
  destruct (negb _); [|done]. apply bind_Some in H as (cs&Hcs&H). apply bind_Some in H as (now&Hn&H).
  set (R1 := set_counters cs (set_backlog bl R)) in *. destruct (upd2_Some _ _ _ _ _ Hu) as [Hbl Hsh].
  assert (dstep R c R1 c [] [(r, b)]) as D1.
  { split; [by rewrite push_nil|done| |done|done]. intros r0 b0. simpl. rewrite Hbl. destruct (table_at _ r0 b0) as [z|]; simpl; [|done].
    destruct ((r0 =? r) && (b0 =? b)); simpl; f_equal; lia. }
  assert (∀ r0, zlookup cs r0 = if r0 =? r then Some (Z.rem (b + 1) (max_bank_count R)) else zlookup (dbank_ref_counters R) r0) as Hc.
  { intros r0. rewrite upd_child_lookup in Hcs. apply bind_Some in Hcs as (b'&Hb'&Hcs). assert (b' = b) as -> by congruence.
    simpl in Hcs. simplify_eq. apply zlookup_insert; [by eapply zlookup_Some_nonneg|by eexists]. }
  assert (∀ r0 b0 x, table_at bl r0 b0 = Some x → if (r0 =? r) && (b0 =? b) then credit_ok (x + 1) else credit_ok x) as Hcr.
  { intros r0 b0 x Hx. rewrite Hbl in Hx. destruct (table_at (bank_refresh_backlog R) r0 b0) as [y|] eqn:Hy; simplify_eq/=.
    specialize (HB _ _ _ Hy). destruct ((r0 =? r) && (b0 =? b)); [|done]. by replace (y - 1 + 1) with y by lia. }
  exists b. unfold ref_now in Hn. destruct now.
  - destruct (refresh_now_step _ _ _ _ _ _ H) as ((req&Hd)&Hbl2&Hc2). exists [req]. split; [done|]. split; [done|]. split; [|split].
    + change [req] with ([] ++ [req]). change [(r, b)] with ([(r, b)] ++ []). by eapply dstep_trans.
    + intros r0 b0 x Hx. rewrite Hbl2 in Hx. simpl in Hx. destruct (table_at bl r0 b0) as [y|] eqn:Hy; simplify_eq/=.
      specialize (Hcr _ _ _ Hy). by destruct ((r0 =? r) && (b0 =? b)).
    + intros r0. by rewrite Hc2.
  - simplify_eq. exists []. split_and!; [simpl; lia|done|done| |done]. intros r0 b0 x Hx. specialize (Hcr _ _ _ Hx).
    destruct ((r0 =? r) && (b0 =? b)) eqn:E; [|done]. apply andb_prop in E as [->%Z.eqb_eq ->%Z.eqb_eq].
    unfold credit_ok, backlog_min in *. destruct (skips o); [|done].
    apply bind_Some in Hn as (y&Hy&Hn). assert (Some y = Some x) as [= ->] by (rewrite <-Hy, <-Hx; done).
    injection Hn as Hn. apply orb_false_iff in Hn as [_ Hn]. lia.
Qed.

Lemma inject_banks_step ranks R c R' c' :
  bounded R → NoDup ranks → foldM (λ '(R, c) r, inject_rank o r R c) (R, c) ranks = Some (R', c') →
  ∃ l, dstep R c R' c' l (map (λ r, (r, default 0 (zlookup (dbank_ref_counters R) r))) ranks) ∧ bounded R' ∧
    ∀ r, zlookup (dbank_ref_counters R') r =
      if bool_decide (r ∈ ranks) then (λ b, Z.rem (b + 1) (max_bank_count R)) <$> zlookup (dbank_ref_counters R) r
      else zlookup (dbank_ref_counters R) r.
Proof.
  intros HB Hnd. revert R c HB. induction Hnd as [|r ranks Hr Hnd IH]; intros R c HB H; simpl in H.
  { simplify_eq. exists []. split_and!; [by apply dstep_same|done|done]. }
  apply bind_Some in H as ([R1 c1]&H1&H). destruct (inject_rank_step _ _ _ _ _ HB H1) as (b&l1&_&Hb&D1&HB1&Hc1).
  destruct (IH _ _ HB1 H) as (l2&D2&HB2&Hc2). exists (l1 ++ l2). split_and!; [|done|].
  - simpl. rewrite Hb. simpl. replace (map (λ r0, (r0, default 0 (zlookup (dbank_ref_counters R) r0))) ranks)
      with (map (λ r0, (r0, default 0 (zlookup (dbank_ref_counters R1) r0))) ranks); [by eapply (dstep_trans _ _ _ _ _ _ _ _ [(r, b)])|].
    apply map_ext_in. intros r0 Hin%list_elem_of_In. rewrite Hc1, (proj2 (Z.eqb_neq _ _)); [done|]. intros ->. done.
  - intros r0. rewrite Hc2, Hc1. destruct (ds_max _ _ _ _ _ _ D1) as (_&->&_). destruct (Z.eqb_spec r0 r) as [->|Hne].
    + rewrite (bool_decide_false (r ∈ ranks)), (bool_decide_true (r ∈ r :: ranks)), Hb by (done || by left). done.
    + rewrite (bool_decide_ext (r0 ∈ ranks) (r0 ∈ r :: ranks)); [done|]. rewrite elem_of_cons. tauto.
Qed.

Lemma foldM_map_pair {A1 A2 B D} (f : A1 → A2 → D → option (A1 * A2)) (g : B → D) p l :
  foldM (λ '(x, y) b, f x y (g b)) p l = foldM (λ '(x, y) b, f x y b) p (map g l).
Proof.
  revert p. induction l as [|b l IH]; intros [x y]; simpl; [done|]. destruct (f x y (g b)); simpl; auto.
Qed.

Definition rank_ids (c : DsarpCtrl) : list Z := map (λ rank, nid (info rank)) (children (channel c)).

Lemma rank_refresh_step R c c' ranks :
  foldM (λ c rank, refresh_target spec rank (-1) (-1) c) c ranks = Some c' → ∃ l, dstep R c R c' l [].
Proof.
  revert c. induction ranks as [|r ranks IH]; intros c H; simpl in H; [simplify_eq; exists []; by apply dstep_same|].
  apply bind_Some in H as (c1&H1&H). destruct (refresh_target_push _ _ _ _ _ H1) as (req&->&Hreq&Ea).
  destruct (IH _ H) as (l&D). exists ([req] ++ l). change (@nil (Z * Z)) with (@nil (Z * Z) ++ []).
  eapply dstep_trans; [|exact D]. split; [done|by constructor| |done|done]. intros r0 b0. simpl.
  destruct (table_at _ r0 b0) as [x|] eqn:Hx; simpl; [|done].
  rewrite (of_bank_refresh _ _ _ _ r0 b0 req Ea). unfold table_at in Hx. apply bind_Some in Hx as (row&_&Hx).
  apply zlookup_Some_nonneg in Hx. rewrite (proj2 (Z.eqb_neq b0 (-1))), andb_false_r by lia. f_equal. lia.
Qed.

(** The banks whose turn it is when the refresh is due. *)
Definition bank_turns (R : DRefresh) (c : DsarpCtrl) : list (Z * Z) :=
  if DSARP.b_ref_rank o then [] else map (λ r, (r, default 0 (zlookup (dbank_ref_counters R) r))) (rank_ids c).

Lemma d_inject_step R c R' c' :
  bounded R → NoDup (rank_ids c) → d_inject_refresh o (DSARP.b_ref_rank o) R c = Some (R', c') →
  ∃ l, dstep R c R' c' l (bank_turns R c) ∧ bounded R' ∧
    ∀ r, zlookup (dbank_ref_counters R') r =
      if negb (DSARP.b_ref_rank o) && bool_decide (r ∈ rank_ids c)
      then (λ b, Z.rem (b + 1) (max_bank_count R)) <$> zlookup (dbank_ref_counters R) r
      else zlookup (dbank_ref_counters R) r.
Proof.
  intros HB Hnd H. unfold d_inject_refresh in H. apply bind_Some in H as ([R1 c1]&H&[= <- <-]).
  assert (∀ l s, dstep R c R1 c1 l s → dstep R c (set_drefreshed (dclk R1) R1) c1 l s) as Hset.
  { intros l s []. by split. }
  unfold bank_turns. destruct (DSARP.b_ref_rank o).
  - apply bind_Some in H as (c2&Hl&[= <- <-]).
    rewrite <-(foldM_map (λ c r, refresh_target spec r (-1) (-1) c) (λ rank, nid (info rank))) in Hl.
    destruct (rank_refresh_step R _ _ _ Hl) as (l&D). exists l. split_and!; [by apply Hset|done|done].
  - rewrite (foldM_map_pair (λ R c r, inject_rank o r R c) (λ rank, nid (info rank))) in H.
    destruct (inject_banks_step _ _ _ _ _ HB Hnd H) as (l&D&HB1&Hc). exists l. split_and!; [by apply Hset|done|exact Hc].
Qed.

(** ** The whole of [tick_ref] *)
Definition d_due (R : DRefresh) : bool := refresh_interval o <=? dclk R + 1 - drefreshed R.

Lemma dstep_dclk R c R' c' l s : dstep R c R' c' l s → rank_ids c' = rank_ids c ∧ clk c' = clk c.
Proof. intros []. by subst. Qed.

Lemma refresh_now_time r b R c R' c' :
  refresh_now o r b R c = Some (R', c') → dclk R' = dclk R ∧ drefreshed R' = drefreshed R.
Proof. unfold refresh_now. intros H. by run_opt. Qed.

Definition same_time (R : DRefresh) (p : DRefresh * DsarpCtrl) : Prop := dclk p.1 = dclk R ∧ drefreshed p.1 = drefreshed R.

Lemma early_time R c p : early_inject_refresh o rand R c = Some p → same_time R p.
Proof.
  unfold early_inject_refresh. intros H. destruct (write_mode c); [by simplify_eq|]. apply bind_Some in H as (occ&_&H).
  apply (foldM_inv _ (same_time R)) in H; [done| |done]. clear p H. intros [R1 c1] r p1 H Ht. destruct (negb _); [|done]. cbv zeta in H.
  assert (∀ bs R2 p2, same_time R (R2, c1) → early_bank o occ r (Z.rem (rand (rand_calls R1)) (max_bank_count R1)) bs R2 c1 = Some p2 →
    same_time R p2) as Hb; [|eapply Hb; [|exact H]; exact Ht].
  induction bs as [|b bs IH]; intros R2 p2 HR H2; simpl in H2; [by simplify_eq|]. apply bind_Some in H2 as (bu&_&H2).
  destruct bu; [by eapply IH|]. apply bind_Some in H2 as (pd&_&H2). destruct pd; [by eapply IH|].
  apply bind_Some in H2 as (x&_&H2). destruct (_ || _); [by eapply IH|]. destruct p2 as [R3 c3].
  destruct (refresh_now_time _ _ _ _ _ _ H2) as [E1 E2]. unfold same_time in *. simpl in *. by rewrite E1, E2.
Qed.

Lemma wrp_time R c p : wrp o rand sort R c = Some p → same_time R p.
Proof.
  unfold wrp. intros H. apply (foldM_inv _ (same_time R)) in H; [done| |done]. clear p H. intros [R1 c1] r [R2 c2] H [E1 E2]. unfold wrp_rank in H.
  apply bind_Some in H as (pd&_&H). destruct pd; [by simplify_eq|]. apply bind_Some in H as ([d n]&_&H).
  destruct (n =? 0); [by simplify_eq|]. apply bind_Some in H as ([d' n']&_&H).
  destruct (if top_idle 0 (sort d') =? 0 then _ else _) as [k R3] eqn:Ek.
  assert (dclk R3 = dclk R1 ∧ drefreshed R3 = drefreshed R1) as [E3 E4] by (by destruct (_ =? 0); simplify_eq).
  apply bind_Some in H as (e&_&H). apply bind_Some in H as (x&_&H). unfold same_time in *. simpl in *.
  destruct (_ && _); [|simplify_eq; by rewrite E3, E4]. destruct (refresh_now_time _ _ _ _ _ _ H) as [-> ->]. by rewrite E3, E4.
Qed.

Lemma d_tick_ref_step R c R' c' :
  bounded R → NoDup (rank_ids c) → d_tick_ref o rand sort R c = Some (R', c') →
  ∃ l, dstep R c R' c' l (if d_due R then bank_turns R c else []) ∧ bounded R' ∧
    ∀ r, zlookup (dbank_ref_counters R') r =
      if d_due R && negb (DSARP.b_ref_rank o) && bool_decide (r ∈ rank_ids c)
      then (λ b, Z.rem (b + 1) (max_bank_count R)) <$> zlookup (dbank_ref_counters R) r
      else zlookup (dbank_ref_counters R) r.
Proof.
  intros HB Hnd H. unfold d_tick_ref in H. cbv zeta in H. set (R0 := set_dclk (dclk R + 1) R) in *.
  apply bind_Some in H as ([R1 c1]&H1&H).
  assert (∀ R2 c2 l s, dstep R0 c R2 c2 l s → dstep R c R2 c2 l s) as H0 by (intros ? ? ? ? []; by split).
  assert ((∃ l, dstep R c R1 c1 l []) ∧ bounded R1 ∧ dbank_ref_counters R1 = dbank_ref_counters R ∧ same_time R0 (R1, c1)) as ((l1&D1)&HB1&Ec&Et1&Et2).
  { destruct (skips o) eqn:Hs; [|simplify_eq; split_and!; try done; exists []; by apply dstep_same].
    apply bind_Some in H1 as ([R2 c2]&H2&H1).
    assert ((∃ l, dstep R c R2 c2 l []) ∧ bounded R2 ∧ dbank_ref_counters R2 = dbank_ref_counters R ∧ same_time R0 (R2, c2)) as ((l2&D2)&HB2&E2&T2).
    { destruct (_ && _); [|simplify_eq; split_and!; try done; exists []; by apply dstep_same].
      destruct (wrp_step R0 c R2 c2 Hs HB H2) as ((l&D&_)&HB2&E). split_and!; [exists l; by apply H0|done|done|by eapply wrp_time]. }
    set (R3 := set_ctrl_write_mode (write_mode c2) R2) in *.
    destruct (early_step R3 c2 R1 c1 Hs HB2 H1) as ((l&D&_)&HB1&E1). pose proof (early_time _ _ _ H1) as T1. split_and!.
    - exists (l2 ++ l). change (@nil (Z * Z)) with (@nil (Z * Z) ++ []). eapply dstep_trans; [exact D2|]. destruct D. by split.
    - done.
    - by rewrite E1.
    - unfold same_time in *. simpl in *. destruct T1 as [-> ->]. done. }
  destruct (dstep_dclk _ _ _ _ _ _ D1) as [Eid _].
  assert ((refresh_interval o <=? dclk R1 - drefreshed R1) = d_due R) as Ed by (unfold d_due; simpl in Et1, Et2; by rewrite Et1, Et2).
  rewrite Ed in H. destruct (d_due R).
  - destruct (d_inject_step R1 c1 R' c' HB1) as (l&D&HB'&Hc); [by rewrite Eid|exact H|].
    exists (l1 ++ l). split_and!; [|done|].
    + assert (bank_turns R1 c1 = bank_turns R c) as E by (unfold bank_turns; by rewrite Ec, Eid).
      rewrite E in D. change (bank_turns R c) with ([] ++ bank_turns R c). by eapply dstep_trans.
    + intros r. rewrite Hc, Ec. destruct (ds_max _ _ _ _ _ _ D1) as (_&->&_). by rewrite Eid.
  - simplify_eq. exists l1. split_and!; [done|done|]. intros r. simpl. by rewrite Ec.
Qed.

End Steps.

(** ** The refresh scheduler of DSARP returns

    [dwf]: the counters have the shape the code indexes them with and the queued
    requests name banks of the channel.  Under it, and with room in the queue of
    the refreshes, each operation of [DsarpRefresh] returns; the demand the
    write-refresh parallelisation computes is the number of queued reads and
    writes of each bank. *)

Section Returns.
Variable o : DSARP.DSARP.
Variable rand : nat → Z.
Variable sort : list (Z * Z) → list (Z * Z).
Hypothesis rand_nonneg : ∀ n, 0 ≤ rand n.
Hypothesis sort_perm : ∀ l, sort l ≡ₚ l.
Abbreviation spec := (DSARP.spec o).

(** A read or write names a bank of the channel. *)
Definition served (R : DRefresh) (c : DsarpCtrl) (req : Request) : Prop :=
  addr_vec req !! level_chan = Some (nid (info (channel c))) ∧
  (∃ r, addr_vec req !! level_rank = Some r ∧ 0 ≤ r < max_rank_count R) ∧
  (∃ b, addr_vec req !! level_bank = Some b ∧ 0 ≤ b < max_bank_count R).

(** The counters have an entry for every bank, and a subarray counter for every
    bank: the code indexes the subarray counters of a rank, of which there is one
    per subarray, by the bank. *)
Record dwf (R : DRefresh) (c : DsarpCtrl) : Prop := {
  w_ids : rank_ids c = upto (max_rank_count R);
  w_pos : 0 ≤ max_rank_count R ∧ 0 < max_bank_count R ≤ max_sa_count R;
  w_backlog : map length (bank_refresh_backlog R) = replicate (Z.to_nat (max_rank_count R)) (Z.to_nat (max_bank_count R));
  w_subs : map length (subarray_ref_counters R) = replicate (Z.to_nat (max_rank_count R)) (Z.to_nat (max_sa_count R));
  w_counters r : 0 ≤ r < max_rank_count R → ∃ b, zlookup (dbank_ref_counters R) r = Some b ∧ 0 ≤ b < max_bank_count R;
  w_reads : Forall (served R c) (q (readq c));
  w_writes : Forall (served R c) (q (writeq c));
  w_other : Forall (λ req, type req = REFRESH → length (addr_vec req) = 6%nat) (q (otherq c))
}.

Definition oroom (c : DsarpCtrl) : Z := qmax (otherq c) - qsize (otherq c).

Lemma table_is_Some v n m r b :
  map length v = replicate (Z.to_nat n) (Z.to_nat m) → 0 ≤ r < n → 0 ≤ b < m → ∃ x, table_at v r b = Some x.
Proof.
  intros Hv Hr Hb. unfold table_at, zlookup. rewrite !(proj2 (Z.ltb_ge _ 0)) by lia.
  assert (length v = Z.to_nat n) as Hlen by (apply (f_equal length) in Hv; by rewrite length_map, length_replicate in Hv).
  destruct (lookup_lt_is_Some_2 v (Z.to_nat r)) as [row Hrow]; [lia|]. rewrite Hrow; simpl.
  apply (f_equal (lookup (Z.to_nat r))) in Hv. rewrite list_lookup_fmap, Hrow in Hv. simpl in Hv.
  rewrite lookup_replicate_2 in Hv by lia. injection Hv as Hv.
  destruct (lookup_lt_is_Some_2 row (Z.to_nat b)) as [x Hx]; [lia|]. eauto.
Qed.

(** A step keeps the shape; the counters are given apart. *)
Lemma dwf_step R c R' c' l s :
  dwf R c → dstep R c R' c' l s →
  (∀ r, 0 ≤ r < max_rank_count R → ∃ b, zlookup (dbank_ref_counters R') r = Some b ∧ 0 ≤ b < max_bank_count R) →
  dwf R' c' ∧ oroom c' = oroom c - Z.of_nat (length l).
Proof.
  intros [H1 H2 H3 H4 H5 H6 H7 H8] [-> F B [S1 S2] (M1&M2&M3)] Hc. split.
  - split; rewrite ?M1, ?M2, ?M3; try done; [by rewrite S1|by rewrite S2|..].
    + eapply Forall_impl; [exact H6|]. unfold served. by rewrite M1, M2.
    + eapply Forall_impl; [exact H7|]. unfold served. by rewrite M1, M2.
    + simpl. apply Forall_app. split; [done|]. eapply Forall_impl; [exact F|]. by intros r (_&?&_).
  - unfold oroom, qsize, push. simpl. rewrite length_app. lia.
Qed.

Lemma refresh_now_ok R c r b :
  dwf R c → 0 < oroom c → 0 ≤ r < max_rank_count R → 0 ≤ b < max_bank_count R → is_Some (refresh_now o r b R c).
Proof.
  intros [H1 H2 H3 H4 H5 H6 H7 H8] Hroom Hr Hb. unfold refresh_now.
  destruct (table_is_Some _ _ _ r b H4 Hr) as [sa Hsa]; [lia|]. rewrite Hsa; cbn [mbind option_bind].
  destruct (refresh_target_room o r b sa c) as [c1 ->]; [unfold oroom in Hroom; lia|]. cbn [mbind option_bind].
  destruct (table_is_Some _ _ _ r b H3 Hr Hb) as [x Hx].
  destruct (upd2_is_Some (λ x, x + 1) _ _ _ _ Hx) as [bl ->]. cbn [mbind option_bind].
  rewrite (proj2 (Z.eqb_neq (max_sa_count R) 0)) by lia. simpl.
  destruct (upd2_is_Some (λ x, Z.rem (x + 1) (max_sa_count R)) _ _ _ _ Hsa) as [s ->]. by eexists.
Qed.

Lemma rem_range x n : 0 ≤ x → 0 < n → 0 ≤ Z.rem x n < n.
Proof. intros. apply Z.rem_bound_pos; lia. Qed.

Lemma anyM_is_Some {A} (f : A → option bool) l : Forall (λ x, is_Some (f x)) l → is_Some (anyM f l).
Proof. intros H. unfold anyM. apply mapM_is_Some_2 in H as [bs ->]. by eexists. Qed.

Lemma existsM_is_Some {A} (f : A → option bool) l : Forall (λ x, is_Some (f x)) l → is_Some (existsM f l).
Proof. induction 1 as [|x l [b Hb] _ IH]; simpl; [by eexists|]. rewrite Hb; simpl. destruct b; [by eexists|done]. Qed.

Lemma coord_is_Some k x req : (k < length (addr_vec req))%nat → is_Some (coord_is k x req).
Proof. intros [y Hy]%lookup_lt_is_Some_2. unfold coord_is. rewrite Hy. by eexists. Qed.

Lemma pending_bank_ok R c r b : dwf R c → is_Some (pending_bank r b c).
Proof.
  intros Hw. apply anyM_is_Some. eapply Forall_impl; [apply (w_other _ _ Hw)|]. intros req Hreq. simpl in Hreq.
  case_decide as E; [|by eexists]. specialize (Hreq E).
  destruct (coord_is_Some level_chan (nid (info (channel c))) req) as [b1 Hb1]; [rewrite Hreq; by vm_compute; lia|].
  destruct (coord_is_Some level_rank r req) as [b2 Hb2]; [rewrite Hreq; by vm_compute; lia|].
  destruct (coord_is_Some level_bank b req) as [b3 Hb3]; [rewrite Hreq; by vm_compute; lia|].
  unfold andM. rewrite Hb1, Hb2, Hb3; simpl. destruct b1, b2; by eexists.
Qed.

Lemma occupied_ok R c :
  dwf R c → ∃ occ, occupied R c = Some occ ∧ length occ = Z.to_nat (max_rank_count R * max_bank_count R).
Proof.
  intros [_ Hpos _ _ _ Hreads _ _]. unfold occupied. set (start := replicate _ false).
  assert (length start = Z.to_nat (max_rank_count R * max_bank_count R)) as Hlen by (by unfold start; rewrite length_replicate).
  clearbody start. revert start Hlen. induction Hreads as [|req l (E0&(r&E1&Hr)&(b&E2&Hb)) _ IH]; intros occ Hlen; simpl; [by exists occ|].
  rewrite E0; cbn [mbind option_bind]. rewrite Z.eqb_refl, E1; cbn [mbind option_bind]. rewrite E2; cbn [mbind option_bind].
  assert (0 ≤ r * max_bank_count R + b < max_rank_count R * max_bank_count R) as Hi by nia.
  rewrite upd_child_lookup. unfold zlookup at 1. rewrite (proj2 (Z.ltb_ge _ 0)) by lia.
  destruct (lookup_lt_is_Some_2 occ (Z.to_nat (r * max_bank_count R + b))) as [x Hx]; [lia|]. rewrite Hx; simpl.
  apply IH. by rewrite length_insert.
Qed.

Lemma early_bank_ok occ r start bs R c :
  dwf R c → length occ = Z.to_nat (max_rank_count R * max_bank_count R) → 0 ≤ r < max_rank_count R → 0 ≤ start →
  Forall (λ b, 0 ≤ b) bs → is_Some (early_bank o occ r start bs R c).
Proof.
  intros Hw Hlen Hr Hs. pose proof (w_pos _ _ Hw) as [_ Hpos]. induction 1 as [|b bs Hb _ IH]; simpl; [by eexists|].
  pose proof (rem_range (start + b) (max_bank_count R)) as Hi. specialize (Hi ltac:(lia) ltac:(lia)).
  set (bidx := Z.rem (start + b) (max_bank_count R)) in *.
  assert (0 ≤ r * max_bank_count R + bidx < max_rank_count R * max_bank_count R) as Hi' by nia.
  unfold zlookup. rewrite (proj2 (Z.ltb_ge _ 0)) by lia.
  destruct (lookup_lt_is_Some_2 occ (Z.to_nat (r * max_bank_count R + bidx))) as [busy Hbusy]; [lia|]. rewrite Hbusy; simpl.
  destruct busy; [done|]. destruct (pending_bank_ok R c r bidx Hw) as [p ->]; simpl. destruct p; [done|].
  destruct (table_is_Some _ _ _ r bidx (w_backlog _ _ Hw) Hr Hi) as [x ->]; simpl. destruct (_ || _) eqn:E; [done|].
  apply orb_false_iff in E as [_ E]. apply refresh_now_ok; [done| |done|done]. unfold otherq_full, oroom in *. lia.
Qed.

(** A loop that returns. *)
Lemma dloop_ok (f : DRefresh → DsarpCtrl → Z → option (DRefresh * DsarpCtrl)) (P : DRefresh → DsarpCtrl → Prop) xs R c :
  (∀ x R c, x ∈ xs → P R c → is_Some (f R c x)) → (∀ x R c R' c', P R c → f R c x = Some (R', c') → P R' c') →
  P R c → is_Some (foldM (λ '(R, c) x, f R c x) (R, c) xs).
Proof.
  intros Hok Hinv. revert R c. induction xs as [|x xs IH]; intros R c HP; simpl; [by eexists|].
  destruct (Hok x R c (list_elem_of_here _ _) HP) as [[R1 c1] E]. rewrite E; simpl. apply IH; [|by eapply Hinv].
  intros y R2 c2 Hy. apply Hok. by right.
Qed.

Definition sched_inv (n m : Z) (R : DRefresh) (c : DsarpCtrl) : Prop :=
  dwf R c ∧ bounded o R ∧ max_rank_count R = n ∧ max_bank_count R = m.

Lemma sched_inv_step n m R c R' c' l :
  sched_inv n m R c → dstep R c R' c' l [] → bounded o R' → dbank_ref_counters R' = dbank_ref_counters R →
  sched_inv n m R' c' ∧ oroom c' = oroom c - Z.of_nat (length l).
Proof.
  intros (Hw&HB&En&Em) Hd HB' Hc. destruct (dwf_step R c R' c' l [] Hw Hd) as [Hw' Hr].
  { intros r Hr. rewrite Hc. by apply (w_counters _ _ Hw). }
  destruct (ds_max _ _ _ _ _ _ Hd) as (E1&E2&_). split; [|done]. split_and!; try done; congruence.
Qed.

Lemma early_ok n m R c : skips o = true → sched_inv n m R c → is_Some (early_inject_refresh o rand R c).
Proof.
  intros Hs HI. destruct (id HI) as (Hw&HB&En&Em). unfold early_inject_refresh. destruct (write_mode c); [by eexists|].
  destruct (occupied_ok R c Hw) as (occ&->&Hlen). cbn [mbind option_bind]. pose proof (w_pos _ _ Hw) as [_ Hpos].
  apply (dloop_ok (λ R c r, assert! negb (max_bank_count R =? 0);
        early_bank o occ r (Z.rem (rand (rand_calls R)) (max_bank_count R)) (upto (max_bank_count R))
          (set_rand_calls (S (rand_calls R)) R) c) (sched_inv n m)); [| |done].
  - intros r R1 c1 Hr%elem_of_upto (Hw1&_&En1&Em1). simpl. pose proof (w_pos _ _ Hw1) as [_ Hpos1].
    rewrite (proj2 (Z.eqb_neq (max_bank_count R1) 0)) by lia. simpl. apply early_bank_ok.
    + destruct Hw1. by split.
    + simpl. rewrite Em1, En1. congruence.
    + simpl. lia.
    + apply rem_range; [done|lia].
    + apply Forall_forall. intros b Hb%elem_of_upto. lia.
  - intros r R1 c1 R2 c2 HI1 H1. simpl in H1. destruct (negb _); [|done].
    assert (sched_inv n m (set_rand_calls (S (rand_calls R1)) R1) c1) as HI1'.
    { destruct HI1 as ([]&?&?&?). by split_and!; [split|..]. }
    destruct (early_bank_step o _ _ _ _ _ _ _ _ Hs (proj1 (proj2 HI1')) H1) as ((l&Hd&_)&HB2&E2).
    eapply (sched_inv_step n m (set_rand_calls (S (rand_calls R1)) R1)); [done|exact Hd|done|exact E2].
Qed.
(** ** The write-refresh parallelisation *)

(** The requests to a rank. *)
Fixpoint ranked (r : Z) (l : list Request) : Z :=
  match l with [] => 0 | req :: l => (if bool_decide (addr_vec req !! level_rank = Some r) then 1 else 0) + ranked r l end.
Definition demands (n : Z) (f : Z → Z) : list (Z * Z) := map (λ b, (f b, b)) (upto n).

Lemma demands_lookup n f k :
  demands n f !! k = if decide (k < Z.to_nat n)%nat then Some (f (Z.of_nat k), Z.of_nat k) else None.
Proof.
  unfold demands, upto. rewrite map_map. change (map ?g ?l) with (g <$> l). rewrite list_lookup_fmap. case_decide.
  - by rewrite lookup_seq_lt by lia.
  - by rewrite lookup_seq_ge by lia.
Qed.

Lemma demands_bump n f b :
  0 ≤ b < n →
  upd_child (λ '(k, b), Some (k + 1, b)) (demands n f) b = Some (demands n (λ x, if x =? b then f x + 1 else f x)).
Proof.
  intros Hb. rewrite upd_child_lookup. unfold zlookup. rewrite (proj2 (Z.ltb_ge _ 0)) by lia.
  rewrite demands_lookup, decide_True, Z2Nat.id by lia. simpl. f_equal. apply list_eq. intros k. rewrite demands_lookup.
  destruct (decide (k = Z.to_nat b)) as [->|Hne].
  - rewrite list_lookup_insert_eq by (unfold demands; rewrite length_map, length_upto; lia).
    rewrite decide_True by lia. rewrite !Z2Nat.id by lia. by rewrite Z.eqb_refl.
  - rewrite list_lookup_insert_ne by done. rewrite demands_lookup. case_decide; [|done].
    by rewrite (proj2 (Z.eqb_neq _ _)) by lia.
Qed.

Lemma demands_ext n f g : (∀ b, 0 ≤ b < n → f b = g b) → demands n f = demands n g.
Proof. intros H. apply map_ext_in. intros b Hb%list_elem_of_In%elem_of_upto. by rewrite H. Qed.

Lemma add_demand_spec R c r reqs f k :
  Forall (served R c) reqs →
  add_demand r reqs (demands (max_bank_count R) f, k) =
    Some (demands (max_bank_count R) (λ b, f b + issued r b reqs), k + ranked r reqs).
Proof.
  intros H. revert f k. unfold add_demand. induction H as [|req l (_&(x&E1&Hx)&(b&E2&Hb)) _ IH]; intros f k; simpl.
  { f_equal. f_equal; [apply demands_ext; intros; lia|lia]. }
  rewrite E1; simpl. destruct (Z.eqb_spec x r) as [->|Hne].
  - rewrite E2; simpl. rewrite demands_bump by done. simpl. etrans; [apply IH|]. f_equal.
    rewrite bool_decide_true by done. f_equal; [|lia]. apply demands_ext. intros y Hy. unfold of_bank.
    rewrite E1, E2, (bool_decide_true (Some r = Some r)) by done. simpl.
    destruct (Z.eqb_spec y b) as [->|Hy']; [rewrite bool_decide_true by done; lia|].
    rewrite bool_decide_false by congruence. lia.
  - etrans; [apply IH|]. f_equal. rewrite bool_decide_false by congruence. f_equal. apply demands_ext. intros y Hy.
    unfold of_bank. rewrite E1, (bool_decide_false (Some x = Some r)) by congruence. simpl. lia.
Qed.

Lemma demands_snd n f : map snd (demands n f) = upto n.
Proof. unfold demands. rewrite map_map. simpl. apply map_id. Qed.

(** The index [wrp] draws at random is always 0: the loop leaves at the first
    entry whose bank is not 0, which is the first or the second. *)
Lemma top_idle_small d : NoDup (map snd d) → top_idle 0 d = 0 ∨ top_idle 0 d = 1.
Proof.
  destruct d as [|[k b] [|[k' b'] d]]; simpl; [by left|destruct (negb _); by left|].
  intros [Hb _]%NoDup_cons. destruct (Z.eqb_spec b 0) as [->|]; simpl; [|by left].
  destruct (Z.eqb_spec b' 0) as [->|]; simpl; [|by right]. destruct Hb. by left.
Qed.

(** The demand of a bank: the queued reads and writes to it. *)
Definition demand (r b : Z) (c : DsarpCtrl) : Z := issued r b (q (writeq c)) + issued r b (q (readq c)).

Lemma zlookup_head {A} (l : list A) : zlookup l 0 = head l.
Proof. by destruct l. Qed.

(** [wrp] of one rank, once its loops are computed. *)
Lemma wrp_rank_eq r R c :
  dwf R c →
  ∃ pending k, existsM (λ req, if decide (type req = REFRESH) then coord_is level_rank r req else Some false) (q (otherq c)) = Some pending ∧
    wrp_rank o rand sort r R c =
      if pending || (ranked r (q (writeq c)) =? 0) then Some (R, c)
      else
        let R1 := set_rand_calls k R in
        e ← head (sort (demands (max_bank_count R) (λ b, demand r b c)));
        backlog ← table_at (bank_refresh_backlog R) r (snd e);
        if (backlog <? backlog_max) && negb (otherq_full c) then refresh_now o r (snd e) R1 c else Some (R1, c).
Proof.
  intros Hw.
  assert (is_Some (existsM (λ req, if decide (type req = REFRESH) then coord_is level_rank r req else Some false) (q (otherq c)))) as [pending Hp].
  { apply existsM_is_Some. eapply Forall_impl; [apply (w_other _ _ Hw)|]. intros req Hreq. simpl in Hreq.
    case_decide as E; [|by eexists]. apply coord_is_Some. rewrite (Hreq E). vm_compute. lia. }
  exists pending. unfold wrp_rank. rewrite Hp; cbn [mbind option_bind].
  destruct pending; simpl; [exists 0%nat; done|].
  change (map (λ b, (0, b)) (upto (max_bank_count R))) with (demands (max_bank_count R) (λ _, 0)).
  rewrite (add_demand_spec R c) by apply (w_writes _ _ Hw). cbn [mbind option_bind].
  change (0 + ranked r (q (writeq c))) with (ranked r (q (writeq c))). destruct (ranked r (q (writeq c)) =? 0); [exists 0%nat; done|].
  rewrite (add_demand_spec R c) by apply (w_reads _ _ Hw). cbn [mbind option_bind].
  rewrite (demands_ext _ (λ b, 0 + issued r b (q (writeq c)) + issued r b (q (readq c))) (λ b, demand r b c)) by (unfold demand; intros; lia).
  set (d := sort _). assert (NoDup (map snd d)) as Hnd.
  { unfold d. rewrite sort_perm, demands_snd. apply NoDup_upto. }
  destruct (top_idle_small d Hnd) as [E|E]; rewrite E; simpl; rewrite ?Z.rem_1_r, zlookup_head.
  - exists (rand_calls R). destruct R. done.
  - exists (S (rand_calls R)). done.
Qed.

Lemma wrp_ok n m R c : skips o = true → sched_inv n m R c → is_Some (wrp o rand sort R c).
Proof.
  intros Hs HI. unfold wrp. destruct (id HI) as (_&_&En&_). apply (dloop_ok (λ R c r, wrp_rank o rand sort r R c) (sched_inv n m)); [| |done].
  - intros r R1 c1 Hr%elem_of_upto (Hw&_&En1&Em1). destruct (wrp_rank_eq r R1 c1 Hw) as (p&k&_&->).
    destruct (p || _); [by eexists|]. cbv zeta. pose proof (w_pos _ _ Hw) as [_ Hpos].
    set (d := demands _ _). assert (∃ e, head (sort d) = Some e ∧ 0 ≤ snd e < max_bank_count R1) as (e&->&He).
    { destruct (sort d) as [|e l] eqn:E.
      - pose proof (sort_perm d) as Hperm. rewrite E in Hperm. apply Permutation_length in Hperm. unfold d, demands in Hperm.
        rewrite length_map, length_upto in Hperm. simpl in Hperm. lia.
      - exists e. split; [done|]. apply elem_of_upto. rewrite <-(demands_snd _ (λ b, demand r b c1)). fold d.
        rewrite <-(sort_perm d), E. by left. }
    cbn [mbind option_bind]. destruct (table_is_Some _ _ _ r (snd e) (w_backlog _ _ Hw)) as [x ->]; [congruence|done|]. cbn [mbind option_bind].
    destruct (_ && _) eqn:E; [|by eexists]. apply andb_prop in E as [_ E]. apply refresh_now_ok; [destruct Hw; by split| |simpl; congruence|done].
    unfold otherq_full, oroom in *. destruct (Z.leb_spec (qmax (otherq c1)) (qsize (otherq c1))); [done|lia].
  - intros r R1 c1 R2 c2 HI1 H1. destruct (wrp_rank_step o rand sort _ _ _ _ _ Hs (proj1 (proj2 HI1)) H1) as ((l&Hd&_)&HB2&E2).
    by eapply (sched_inv_step n m R1).
Qed.

(** ** The turns of the banks *)
Lemma rank_refresh_ok ranks c :
  Z.of_nat (length ranks) ≤ oroom c → is_Some (foldM (λ c r, refresh_target spec r (-1) (-1) c) c ranks).
Proof.
  revert c. induction ranks as [|r ranks IH]; intros c Hroom; simpl; [by eexists|]. simpl in Hroom.
  destruct (refresh_target_room o r (-1) (-1) c) as [c1 H1]; [unfold oroom in Hroom; lia|]. rewrite H1; simpl.
  apply IH. destruct (refresh_target_push _ _ _ _ _ _ H1) as (req&->&_&_). unfold oroom, qsize, push in *. simpl.
  rewrite length_app. simpl. lia.
Qed.

Lemma inject_rank_ok r n m R c :
  sched_inv n m R c → 0 ≤ r < n → 0 < oroom c → is_Some (inject_rank o r R c).
Proof.
  intros (Hw&_&<-&_) Hr Hroom. pose proof (w_pos _ _ Hw) as [_ Hpos]. unfold inject_rank.
  destruct (w_counters _ _ Hw r Hr) as (b&Hb&Hbr). rewrite Hb; cbn [mbind option_bind].
  destruct (table_is_Some _ _ _ r b (w_backlog _ _ Hw) Hr Hbr) as [x Hx].
  destruct (upd2_is_Some (λ x, x - 1) _ _ _ _ Hx) as [bl Hbl]. rewrite Hbl; cbn [mbind option_bind].
  destruct (upd2_Some _ _ _ _ _ Hbl) as [Hat Hsh].
  rewrite (proj2 (Z.eqb_neq (max_bank_count R) 0)) by lia. simpl. rewrite upd_child_lookup, Hb; cbn [mbind option_bind].
  set (R1 := set_counters _ _). assert (is_Some (ref_now o r b R1 c)) as [now ->].
  { unfold ref_now. destruct (skips o); [|by eexists]. simpl. rewrite Hat, Hx. by eexists. }
  cbn [mbind option_bind]. destruct now; [|by eexists].
  apply refresh_now_ok; [|done|done|done]. destruct Hw as [H1 H2 H3 H4 H5 H6 H7 H8]. split; try done; simpl.
  - by rewrite Hsh.
  - intros r0 Hr0. rewrite zlookup_insert by (lia || by eexists). destruct (r0 =? r); [|by apply H5].
    eexists. split; [done|]. apply rem_range; lia.
Qed.

Lemma inject_banks_ok n m ranks R c :
  sched_inv n m R c → Forall (λ r, 0 ≤ r < n) ranks → Z.of_nat (length ranks) ≤ oroom c →
  is_Some (foldM (λ '(R, c) r, inject_rank o r R c) (R, c) ranks).
Proof.
  intros HI Hr. revert R c HI. induction Hr as [|r ranks Hr _ IH]; intros R c HI Hroom; simpl; [by eexists|]. simpl in Hroom.
  destruct (inject_rank_ok r n m R c HI Hr) as [[R1 c1] H1]; [lia|]. rewrite H1; simpl. destruct (id HI) as (Hw&HB&En&Em).
  destruct (inject_rank_step o sort _ _ _ _ _ HB H1) as (b&l&Hl&Hb&Hd&HB1&Hc). destruct (w_pos _ _ Hw) as [_ Hpos].
  destruct (dwf_step _ _ _ _ _ _ Hw Hd) as [Hw1 Hroom1].
  { intros r0 Hr0. rewrite Hc. destruct (r0 =? r) eqn:E; [|by apply (w_counters _ _ Hw)]. eexists. split; [done|].
    destruct (w_counters _ _ Hw r) as (b'&Hb'&Hb''); [lia|]. assert (b' = b) as -> by congruence. apply rem_range; lia. }
  destruct (ds_max _ _ _ _ _ _ Hd) as (E1&E2&_). apply IH; [split_and!; [done|done|congruence|congruence]|lia].
Qed.

Lemma inject_ok n m R c :
  sched_inv n m R c → n ≤ oroom c → is_Some (d_inject_refresh o (DSARP.b_ref_rank o) R c).
Proof.
  intros HI Hroom. destruct (id HI) as (Hw&_&En&_). pose proof (w_ids _ _ Hw) as Hids. destruct (w_pos _ _ Hw) as [Hn _].
  unfold d_inject_refresh. assert (length (rank_ids c) = Z.to_nat n) as Hlen by (by rewrite Hids, length_upto, En).
  destruct (DSARP.b_ref_rank o).
  - rewrite <-(foldM_map (λ c r, refresh_target spec r (-1) (-1) c) (λ rank, nid (info rank))).
    destruct (rank_refresh_ok (rank_ids c) c) as [c1 H1]; [lia|]. unfold rank_ids in H1. rewrite H1. by eexists.
  - rewrite (foldM_map_pair (λ R c r, inject_rank o r R c) (λ rank, nid (info rank))).
    destruct (inject_banks_ok n m (rank_ids c) R c HI) as [[R1 c1] H1]; [|lia|].
    + rewrite Hids, En. apply Forall_forall. intros r Hr. by apply elem_of_upto.
    + unfold rank_ids in H1. rewrite H1. by eexists.
Qed.

Lemma sched_inv_members n m R R' c :
  sched_inv n m R c → bank_refresh_backlog R' = bank_refresh_backlog R → subarray_ref_counters R' = subarray_ref_counters R →
  dbank_ref_counters R' = dbank_ref_counters R → max_rank_count R' = max_rank_count R →
  max_bank_count R' = max_bank_count R → max_sa_count R' = max_sa_count R → sched_inv n m R' c.
Proof.
  intros (Hw&HB&En&Em) E1 E2 E3 E4 E5 E6. destruct (sched_inv_step n m R c R' c [] (conj Hw (conj HB (conj En Em)))) as [H _].
  - by apply dstep_same.
  - by eapply bounded_same.
  - done.
  - done.
Qed.

(** The room [tick_ref] needs: a refresh for each rank from each of its parts. *)
Lemma d_tick_ref_ok n m R c :
  sched_inv n m R c → (if skips o then 3 * n else n) ≤ oroom c → is_Some (d_tick_ref o rand sort R c).
Proof.
  intros HI Hroom. unfold d_tick_ref. cbv zeta. set (R0 := set_dclk (dclk R + 1) R).
  assert (sched_inv n m R0 c) as HI0 by by apply (sched_inv_members n m R).
  destruct (w_pos _ _ (proj1 HI0)) as [Hn _]. destruct (id HI0) as (_&_&En&_).
  assert (∃ R1 c1, (if skips o then
       '(R, c) ← (if negb (ctrl_write_mode R0) && write_mode c then wrp o rand sort R0 c else Some (R0, c));
       early_inject_refresh o rand (set_ctrl_write_mode (write_mode c) R) c
     else Some (R0, c)) = Some (R1, c1) ∧ sched_inv n m R1 c1 ∧ n ≤ oroom c1) as (R1&c1&->&HI1&Hroom1).
  { destruct (skips o) eqn:Hs; [|by exists R0, c].
    assert (∃ R2 c2, (if negb (ctrl_write_mode R0) && write_mode c then wrp o rand sort R0 c else Some (R0, c)) = Some (R2, c2) ∧
      sched_inv n m R2 c2 ∧ 2 * n ≤ oroom c2) as (R2&c2&->&HI2&Hroom2).
    { destruct (_ && _); [|exists R0, c; split_and!; [done|done|lia]]. destruct (wrp_ok n m R0 c Hs HI0) as [[R2 c2] H2].
      destruct (wrp_step o rand sort _ _ _ _ Hs (proj1 (proj2 HI0)) H2) as ((l&Hd&Hl)&HB2&E2).
      destruct (sched_inv_step n m _ _ _ _ _ HI0 Hd HB2 E2) as [HI2 Hr2]. exists R2, c2. split_and!; [done|done|lia]. }
    cbn [mbind option_bind]. set (R3 := set_ctrl_write_mode _ _).
    assert (sched_inv n m R3 c2) as HI3 by by apply (sched_inv_members n m R2).
    destruct (early_ok n m R3 c2 Hs HI3) as [[R1 c1] H1].
    destruct (early_step o rand sort _ _ _ _ Hs (proj1 (proj2 HI3)) H1) as ((l&Hd&Hl)&HB1&E1).
    destruct (sched_inv_step n m _ _ _ _ _ HI3 Hd HB1 E1) as [HI1 Hr1]. exists R1, c1. split_and!; [done|done|].
    destruct HI3 as (_&_&En3&_). lia. }
  cbn [mbind option_bind]. destruct (_ <=? _); [|by eexists]. by eapply inject_ok.
Qed.
End Returns.
