(* ===== verification/DsarpTheorems.v ===== *)
(** * Theorems on the refresh scheduler of DSARP

    The credits of the banks stay between their bounds and count the refreshes
    less the turns, whatever the controller does between the cycles; the
    scheduler returns when its counters have the right shape and the queue has
    room; the write-refresh parallelisation picks the bank with the least demand
    and draws nothing; and a bank with fewer subarrays than the channel has banks
    is refreshed out of the range of its counters. *)

From Stdlib Require Import Permutation Sorted.
From stdpp Require Import sorting.
From S2P Require Import Prelude Double Request Dram DramTiming BankProtocol Standard Scheduler Controller SpecDSARP DsarpRefresh DsarpInv.

Section Runs.
Variable o : DSARP.DSARP.
Variable rand : nat → Z.
Variable sort : list (Z * Z) → list (Z * Z).

(** A run of the scheduler: [k] refreshes were due, [l] were queued.  The
    controller is arbitrary in every cycle, but for the numbers of its ranks. *)
Inductive drun : nat → list Request → DRefresh → Prop :=
  | drun_new c R : new_drefresh o c = Some R → drun 0 [] R
  | drun_tick k l R c R' c' l' :
      drun k l R → rank_ids c = upto (max_rank_count R) → d_tick_ref o rand sort R c = Some (R', c') →
      q (otherq c') = q (otherq c) ++ l' →
      drun (if d_due o R then S k else k) (l ++ l') R'.

(** The turns bank [b] had among the first [k] of a rank of [n] banks. *)
Definition turns_of (n b : Z) (k : nat) : Z := (Z.of_nat k + n - 1 - b) / n.

Lemma turns_of_S n b k :
  0 ≤ b < n → turns_of n b (S k) = turns_of n b k + (if b =? Z.of_nat k mod n then 1 else 0).
Proof.
  intros Hb. unfold turns_of. set (x := Z.of_nat k) in *. replace (Z.of_nat (S k)) with (x + 1) by lia.
  pose proof (Z.div_mod x n ltac:(lia)) as Hx. pose proof (Z.mod_pos_bound x n ltac:(lia)) as Hm.
  set (d := x / n) in *. set (e := x mod n) in *.
  assert (∀ a c r, 0 ≤ r < n → a = n * c + r → a / n = c) as Hdiv by (intros; symmetry; by eapply Z.div_unique_pos).
  destruct (Z.eqb_spec b e) as [->|Hne].
  - rewrite (Hdiv (x + 1 + n - 1 - e) (d + 1) 0), (Hdiv (x + n - 1 - e) d (n - 1)) by lia. lia.
  - destruct (Z.ltb_spec b e).
    + rewrite (Hdiv (x + 1 + n - 1 - b) (d + 1) (e - b)), (Hdiv (x + n - 1 - b) (d + 1) (e - b - 1)) by lia. lia.
    + rewrite (Hdiv (x + 1 + n - 1 - b) d (n + e - b)), (Hdiv (x + n - 1 - b) d (n + e - b - 1)) by lia. lia.
Qed.

Lemma turns_map r b (f : Z → Z) rs :
  NoDup rs → turns r b (map (λ r, (r, f r)) rs) = if bool_decide (r ∈ rs) && (b =? f r) then 1 else 0.
Proof.
  induction 1 as [|x rs Hx _ IH]; simpl; [done|]. rewrite IH. destruct (Z.eqb_spec r x) as [->|Hne]; simpl.
  - rewrite (bool_decide_false (x ∈ rs)), (bool_decide_true (x ∈ x :: rs)) by (done || by left). simpl. destruct (b =? f x); lia.
  - rewrite (bool_decide_ext (r ∈ x :: rs) (r ∈ rs)); [lia|]. rewrite elem_of_cons. tauto.
Qed.

(** The counters and the credits of a run. *)
Record dcounts (k : nat) (l : list Request) (R : DRefresh) : Prop := {
  dc_bounded : bounded o R;
  dc_counters r : 0 < max_bank_count R → 0 ≤ r < max_rank_count R →
    zlookup (dbank_ref_counters R) r = Some (if DSARP.b_ref_rank o then 0 else Z.of_nat k mod max_bank_count R);
  dc_credits r b : 0 ≤ r < max_rank_count R → 0 ≤ b < max_bank_count R →
    table_at (bank_refresh_backlog R) r b =
      Some (issued r b l - (if DSARP.b_ref_rank o then 0 else turns_of (max_bank_count R) b k))
}.

Lemma zlookup_replicate {A} n (x : A) i : 0 ≤ i < n → zlookup (replicate (Z.to_nat n) x) i = Some x.
Proof. intros H. unfold zlookup. rewrite (proj2 (Z.ltb_ge _ 0)) by lia. apply lookup_replicate_2. lia. Qed.

Lemma dcounts_new c R : new_drefresh o c = Some R → dcounts 0 [] R.
Proof.
  unfold new_drefresh. intros H. apply bind_Some in H as (banks&_&H). apply bind_Some in H as (sas&_&[= <-]).
  assert (∀ r, 0 ≤ r < Z.of_nat (length (children (channel c))) →
    ∀ A (x : A), zlookup (replicate (length (children (channel c))) x) r = Some x) as Hrep.
  { intros r Hr A x. rewrite <-(Nat2Z.id (length _)). by apply zlookup_replicate. }
  split; simpl.
  - intros r b x Hx. unfold table_at in Hx. simpl in Hx. apply bind_Some in Hx as (row&Hrow&Hx).
    unfold zlookup in Hrow, Hx. destruct (r <? 0); [done|]. apply lookup_replicate in Hrow as [-> _].
    destruct (b <? 0); [done|]. apply lookup_replicate in Hx as [-> _]. unfold credit_ok. destruct (skips o); lia.
  - intros r Hb Hr. rewrite Hrep by done. by destruct (DSARP.b_ref_rank o).
  - intros r b Hr Hb. unfold table_at. rewrite Hrep by done. simpl. rewrite zlookup_replicate by done.
    unfold turns_of. rewrite Z.div_small by lia. by destruct (DSARP.b_ref_rank o).
Qed.

Lemma dcounts_tick k l R c R' c' l' :
  dcounts k l R → rank_ids c = upto (max_rank_count R) → d_tick_ref o rand sort R c = Some (R', c') →
  q (otherq c') = q (otherq c) ++ l' → dcounts (if d_due o R then S k else k) (l ++ l') R'.
Proof.
  intros [HB Hc Hv] Hids Ht Hq. assert (NoDup (rank_ids c)) as Hnd by (rewrite Hids; apply NoDup_upto).
  destruct (d_tick_ref_step o rand sort R c R' c' HB Hnd Ht) as (l2&[Ec _ Hbl _ (E1&E2&_)]&HB'&Hc').
  assert (l2 = l') as -> by (rewrite Ec in Hq; simpl in Hq; by apply app_inv_head in Hq).
  assert (∀ r, 0 ≤ r < max_rank_count R → bool_decide (r ∈ rank_ids c) = true) as Hin.
  { intros r Hr. apply bool_decide_true. rewrite Hids. by apply elem_of_upto. }
  split; [done|rewrite E1, E2..].
  - intros r Hpos Hr. rewrite Hc', (Hc r Hpos Hr), (Hin r Hr).
    destruct (d_due o R), (DSARP.b_ref_rank o); simpl; try done. f_equal.
    rewrite Z.rem_mod_nonneg by (pose proof (Z.mod_pos_bound (Z.of_nat k) (max_bank_count R)); lia).
    replace (Z.of_nat (S k)) with (Z.of_nat k + 1) by lia. by rewrite Zplus_mod_idemp_l.
  - intros r b Hr Hb. rewrite Hbl, (Hv r b Hr Hb), issued_app. simpl. f_equal.
    unfold bank_turns. destruct (d_due o R), (DSARP.b_ref_rank o); simpl; try lia.
    rewrite turns_map, (Hin r Hr) by done.
    rewrite (Hc r ltac:(lia) Hr). simpl. rewrite turns_of_S by done. lia.
Qed.

Lemma drun_counts k l R : drun k l R → dcounts k l R.
Proof. induction 1; [by eapply dcounts_new|by eapply dcounts_tick]. Qed.

(** C40: in every run of the refresh scheduler of DSARP with refreshes of single
    banks ([b_ref_rank] false, as in all its types but one), whatever the controller
    does between two cycles and whatever [rand] returns, the credit of each bank
    is the number of refreshes queued for it less the number of its turns, its
    turns being every [max_bank_count]-th of the [k] refreshes that were due;
    with [DARP] and [DSARP] no bank is ever more than 7 refreshes behind its
    turns or more than 8 ahead, with the other types it has been refreshed once
    for every turn. *)
Theorem dsarp_credits_bounded k l R r b :
  DSARP.b_ref_rank o = false → drun k l R → 0 ≤ r < max_rank_count R → 0 ≤ b < max_bank_count R →
  ∃ x, table_at (bank_refresh_backlog R) r b = Some x ∧ x = issued r b l - turns_of (max_bank_count R) b k ∧
    if skips o then -7 ≤ x ≤ 8 else x = 0.
Proof.
  intros Hm H Hr Hb. destruct (drun_counts _ _ _ H) as [HB _ Hv]. specialize (Hv r b Hr Hb). rewrite Hm in Hv.
  eexists. split; [exact Hv|]. split; [done|]. by apply (HB _ _ _ Hv).
Qed.

End Runs.

(** With counters of the right shape, queued requests that name banks of the
    channel and room for a refresh of every rank by each of its parts,
    [tick_ref] returns: no assertion fails, no vector is indexed out of its
    range. *)
Theorem dsarp_tick_ref_returns (o : DSARP.DSARP) rand sort R c :
  (∀ n, 0 ≤ rand n) → (∀ l, sort l ≡ₚ l) → dwf R c → bounded o R →
  (if skips o then 3 * max_rank_count R else max_rank_count R) ≤ oroom c →
  is_Some (d_tick_ref o rand sort R c).
Proof. intros Hrand Hsort Hw HB. by apply (d_tick_ref_ok o rand sort Hrand Hsort _ (max_bank_count R)). Qed.

(** The head of a sorted permutation of the demands is the least. *)
Lemma demands_head (sort : list (Z * Z) → list (Z * Z)) n f :
  (∀ l, sort l ≡ₚ l) → (∀ l, Sorted (λ x y : Z * Z, x.1 ≤ y.1) (sort l)) → 0 < n →
  ∃ b, head (sort (demands n f)) = Some (f b, b) ∧ 0 ≤ b < n ∧ ∀ b', 0 ≤ b' < n → f b ≤ f b'.
Proof.
  intros Hp Hs Hn. set (d := demands n f). specialize (Hp d). specialize (Hs d).
  apply Sorted_StronglySorted in Hs; [|intros x y z; lia]. assert (∀ b, 0 ≤ b < n → (f b, b) ∈ sort d) as Hin.
  { intros b Hb. rewrite Hp. apply list_elem_of_fmap. exists b. split; [done|]. by apply elem_of_upto. }
  destruct Hs as [|e l _ Hle]; [specialize (Hin 0 ltac:(lia)); by apply elem_of_nil in Hin|].
  assert (e ∈ d) as He by (rewrite <-Hp; by left). apply list_elem_of_fmap in He as (b&->&Hb%elem_of_upto).
  exists b. split_and!; [done|lia|lia|]. intros b' Hb'. apply Hin, elem_of_cons in Hb' as [[= -> _]|Hb']; [lia|].
  rewrite List.Forall_forall in Hle. by apply list_elem_of_In, Hle in Hb'.
Qed.

(** The write-refresh parallelisation refreshes a bank of the rank with the
    fewest queued reads and writes, and only if no refresh is queued for the rank,
    a write is, and the bank's credit and the queue have room; the bank does not
    depend on the numbers [rand] returns: the index it draws is always 0. *)
Theorem dsarp_wrp_picks_least (o : DSARP.DSARP) sort r R c :
  (∀ l, sort l ≡ₚ l) → (∀ l, Sorted (λ x y : Z * Z, x.1 ≤ y.1) (sort l)) → dwf R c →
  ∃ b pending, 0 ≤ b < max_bank_count R ∧ (∀ b', 0 ≤ b' < max_bank_count R → demand r b c ≤ demand r b' c) ∧
    existsM (λ req, if decide (type req = REFRESH) then coord_is level_rank r req else Some false) (q (otherq c)) = Some pending ∧
    ∀ rand, ∃ k, wrp_rank o rand sort r R c =
      if pending || (ranked r (q (writeq c)) =? 0) then Some (R, c)
      else
        backlog ← table_at (bank_refresh_backlog R) r b;
        if (backlog <? backlog_max) && negb (otherq_full c) then refresh_now o r b (set_rand_calls k R) c
        else Some (set_rand_calls k R, c).
Proof.
  intros Hp Hs Hw. destruct (demands_head sort (max_bank_count R) (λ b, demand r b c) Hp Hs) as (b&Hb&Hr&Hmin).
  { pose proof (w_pos _ _ Hw). lia. }
  destruct (wrp_rank_eq o (λ _, 0) sort Hp r R c Hw) as (pending&_&Hpd&_). exists b, pending. split_and!; [lia|lia|done|done|].
  intros rand. destruct (wrp_rank_eq o rand sort Hp r R c Hw) as (p'&k&Hp'&E). exists k. rewrite E. simplify_eq.
  by rewrite Hb.
Qed.

(** When a bank has fewer subarrays than the channel has banks, which the
    constructor of [DSARP] accepts, refreshing bank [b] with
    [max_sa_count <= b] indexes the subarray counters of the rank, of which there
    is one for each subarray, out of their range. *)
Theorem dsarp_subarray_out_of_range :
  (∀ (o : DSARP.DSARP) c R r b c',
     new_drefresh o c = Some R → max_sa_count R ≤ b → refresh_now o r b R c' = None) ∧
  (d ← DSARP.new DSARP.DSARP_8Gb_x8 DSARP.DSARP_1333 DSARP.DARP 4;
   Some (DSARP.count (DSARP.org_entry d) !! level_bank, DSARP.count (DSARP.org_entry d) !! DSARP.level_int DSARP.SubArray)) =
  Some (Some 8, Some 4).
Proof.
  split; [|by vm_compute]. intros o c R r b c' H Hb. unfold new_drefresh in H. apply bind_Some in H as (banks&_&H).
  apply bind_Some in H as (sas&_&[= <-]). unfold refresh_now, table_at. simpl in *.
  destruct (zlookup _ r) as [row|] eqn:Hrow; simpl; [|done]. unfold zlookup in Hrow. destruct (r <? 0); [done|].
  apply lookup_replicate in Hrow as [-> _]. unfold zlookup. destruct (Z.ltb_spec b 0); [done|].
  by rewrite (proj1 (lookup_replicate_None _ _ _)) by lia.
Qed.

(** ** A DSARP channel *)
Definition dsarp_of (t : DSARP.Type_) : DSARP.DSARP :=
  DSARP.set_rank_number 2 (DSARP.set_channel_number 1
    (default (DSARP.mkDSARP t (DSARP.org_table DSARP.DSARP_8Gb_x8) (DSARP.speed_table DSARP.DSARP_1333) 0 8 false)
       (DSARP.new DSARP.DSARP_8Gb_x8 DSARP.DSARP_1333 t 8))).
Definition darp : DSARP.DSARP := dsarp_of DSARP.DARP.
Definition dsarp_device : DRAM DSARP.Level DSARP.Command DSARP.State :=
  default (Dram (new_info (DSARP.spec darp) DSARP.Channel 0) []) (new_channel (DSARP.spec darp) DSARP.Channel 0).
Definition dreq (addr : Z) (t : ReqType) (r b : Z) : Request := set_addr_vec [0; r; b; 0; 7; 2] (Request_addr addr t 0).
(** Two writes and a read to bank 0 of rank 0, a write to bank 1 of rank 1. *)
Definition dsarp_busy : DsarpCtrl :=
  foldl (λ c req, snd (enqueue req c)) (new_controller 1 dsarp_device)
    [dreq 64 WRITE 0 0; dreq 128 WRITE 0 0; dreq 192 READ 0 0; dreq 256 WRITE 1 1].
Definition dsarp_start : DRefresh := default (mkDRefresh 0 0 [] [] [] 0 0 0 false 0) (new_drefresh darp dsarp_busy).
(** Numbers for [rand], and a sort of the demands. *)
Definition dice (n : nat) : Z := Z.of_nat n * 5 + 3.
Definition demand_le (x y : Z * Z) : Prop := x.1 ≤ y.1.
#[export] Instance demand_le_dec x y : Decision (demand_le x y).
Proof. unfold demand_le. apply _. Defined.
#[export] Instance demand_le_total : Total demand_le.
Proof. intros x y. unfold demand_le. lia. Qed.
Definition sort_demand : list (Z * Z) → list (Z * Z) := merge_sort demand_le.

Lemma dsarp_start_new : new_drefresh darp dsarp_busy = Some dsarp_start.
Proof. by vm_compute. Qed.
Lemma dsarp_start_max : max_rank_count dsarp_start = 2 ∧ max_bank_count dsarp_start = 8 ∧ max_sa_count dsarp_start = 8.
Proof. by vm_compute. Qed.
Lemma dsarp_served (addr : Z) t r b : 0 ≤ r < 2 → 0 ≤ b < 8 → served dsarp_start dsarp_busy (set_arrive 0 (dreq addr t r b)).
Proof.
  intros Hr Hb. destruct dsarp_start_max as (E1&E2&_). split_and!; [by vm_compute|exists r; by rewrite E1|exists b; by rewrite E2].
Qed.
Lemma dsarp_start_dwf : dwf dsarp_start dsarp_busy.
Proof.
  split.
  - by vm_compute.
  - destruct dsarp_start_max as (->&->&->). lia.
  - by vm_compute.
  - by vm_compute.
  - destruct dsarp_start_max as (->&->&_).
    intros r Hr. exists 0. assert (r = 0 ∨ r = 1) as [->| ->] by lia; (split; [by vm_compute|lia]).
  - assert (q (readq dsarp_busy) = [set_arrive 0 (dreq 192 READ 0 0)]) as -> by by vm_compute.
    repeat constructor; by apply dsarp_served.
  - assert (q (writeq dsarp_busy) = map (set_arrive 0) [dreq 64 WRITE 0 0; dreq 128 WRITE 0 0; dreq 256 WRITE 1 1]) as -> by by vm_compute.
    repeat (constructor; [by apply dsarp_served|]). constructor.
  - by vm_compute.
Qed.

Lemma dsarp_start_bounded : bounded darp dsarp_start.
Proof.
  assert (bank_refresh_backlog dsarp_start = replicate 2 (replicate 8 0)) as E by by vm_compute.
  intros r b x. rewrite E. unfold table_at, zlookup. destruct (r <? 0); [done|].
  destruct (replicate 2 _ !! _) as [row|] eqn:Hr; simpl; [|done]. apply lookup_replicate in Hr as [-> _].
  destruct (b <? 0); [done|]. intros Hx. by apply lookup_replicate in Hx as [-> _].
Qed.

Lemma dsarp_tick_ref_returns_witness : is_Some (d_tick_ref darp dice sort_demand dsarp_start dsarp_busy).
Proof.
  apply (dsarp_tick_ref_returns darp dice sort_demand dsarp_start dsarp_busy).
  - intros n. unfold dice. lia.
  - intros l. apply merge_sort_Permutation.
  - exact dsarp_start_dwf.
  - exact dsarp_start_bounded.
  - vm_compute. discriminate.
Defined.

Lemma dsarp_wrp_picks_least_witness :
  ∃ b pending, 0 ≤ b < max_bank_count dsarp_start ∧
    (∀ b', 0 ≤ b' < max_bank_count dsarp_start → demand 1 b dsarp_busy ≤ demand 1 b' dsarp_busy) ∧
    existsM (λ req, if decide (type req = REFRESH) then coord_is level_rank 1 req else Some false) (q (otherq dsarp_busy)) = Some pending ∧
    ∀ rand, ∃ k, wrp_rank darp rand sort_demand 1 dsarp_start dsarp_busy =
      if pending || (ranked 1 (q (writeq dsarp_busy)) =? 0) then Some (dsarp_start, dsarp_busy)
      else
        backlog ← table_at (bank_refresh_backlog dsarp_start) 1 b;
        if (backlog <? backlog_max) && negb (otherq_full dsarp_busy)
        then refresh_now darp 1 b (set_rand_calls k dsarp_start) dsarp_busy
        else Some (set_rand_calls k dsarp_start, dsarp_busy).
Proof.
  apply (dsarp_wrp_picks_least darp sort_demand 1 dsarp_start dsarp_busy).
  - intros l. apply merge_sort_Permutation.
  - intros l. apply (Sorted_merge_sort demand_le).
  - exact dsarp_start_dwf.
Defined.

(** Bank 0 of rank 1 has no demand: a refresh of it is queued when the writes
    start to drain. *)
Example wrp_rank_1 :
  (λ p : DRefresh * DsarpCtrl, map addr_vec (q (otherq p.2))) <$>
    wrp_rank darp dice sort_demand 1 dsarp_start dsarp_busy = Some [[0; 1; 0; 0; -1; -1]].
Proof. by vm_compute. Qed.
(** Bank 0 of rank 0 has three requests: bank 1 is refreshed. *)
Example wrp_rank_0 :
  (λ p : DRefresh * DsarpCtrl, map addr_vec (q (otherq p.2))) <$>
    wrp_rank darp dice sort_demand 0 dsarp_start dsarp_busy = Some [[0; 0; 1; 0; -1; -1]].
Proof. by vm_compute. Qed.

(** ** A run: an idle controller, whose queue of refreshes is always empty *)
Fixpoint dticks (n : nat) (c : DsarpCtrl) (s : nat * list Request * DRefresh) : option (nat * list Request * DRefresh) :=
  match n with
  | O => Some s
  | S n =>
    let '(k, l, R) := s in
    assert! bool_decide (rank_ids c = upto (max_rank_count R));
    '(R', c') ← d_tick_ref darp dice sort_demand R c;
    dticks n c (if d_due darp R then S k else k, l ++ q (otherq c'), R')
  end.

Lemma drun_dticks n c k l R s :
  q (otherq c) = [] → drun darp dice sort_demand k l R → dticks n c (k, l, R) = Some s → drun darp dice sort_demand s.1.1 s.1.2 s.2.
Proof.
  intros Hq. revert k l R. induction n as [|n IH]; intros k l R HR H; simpl in H; [by simplify_eq|].
  destruct (bool_decide _) eqn:Hids; [|done]. apply bool_decide_eq_true in Hids. apply bind_Some in H as ([R' c']&Ht&H).
  eapply IH; [|exact H]. eapply drun_tick; [done|done|exact Ht|by rewrite Hq].
Qed.

Definition dsarp_idle : DsarpCtrl := new_controller 1 dsarp_device.
(** 1000 cycles: three refreshes are due in each rank. *)
Definition dsarp_end : nat * list Request * DRefresh := default (0%nat, [], dsarp_start) (dticks 1000 dsarp_idle (0%nat, [], dsarp_start)).

Lemma dsarp_end_run : dticks 1000 dsarp_idle (0%nat, [], dsarp_start) = Some dsarp_end.
Proof. unfold dsarp_end. apply Some_default. by vm_compute. Qed.

Lemma dsarp_credits_bounded_witness :
  dsarp_end.1.1 = 3%nat ∧
  ∃ x, table_at (bank_refresh_backlog dsarp_end.2) 1 2 = Some x ∧ x = issued 1 2 dsarp_end.1.2 - turns_of (max_bank_count dsarp_end.2) 2 dsarp_end.1.1 ∧
    if skips darp then -7 ≤ x ≤ 8 else x = 0.
Proof.
  split; [by vm_compute|]. apply (dsarp_credits_bounded darp dice sort_demand dsarp_end.1.1 dsarp_end.1.2 dsarp_end.2 1 2).
  - reflexivity.
  - apply (drun_dticks 1000 dsarp_idle 0 [] dsarp_start dsarp_end); [reflexivity| |].
    + apply (drun_new _ _ _ dsarp_busy). exact dsarp_start_new.
    + exact dsarp_end_run.
  - vm_compute. split; congruence.
  - vm_compute. split; congruence.
Defined.
