(* ===== verification/Memory.v ===== *)
(** * The memory system ([ramulator/src/Memory.h], [ramulator/src/MemoryFactory.h])

    [Memory<T>]: the controllers of the channels, the mapping of physical
    addresses to DRAM coordinates, and the page allocator.  The counters that
    all controllers share are kept per controller ([cstats]); the functions
    here read none of them but the length of those per core.  [rand()] is outside the program: [page_allocator]
    takes the value of the one [lrand()] it may need. *)

From S2P Require Import Prelude Request Dram Scheduler Controller.

(** ** Data *)

(** [Memory::Type] and [Memory::Translation] *)
Inductive MapType := ChRaBaRoCo | RoBaRaCoCh.
Inductive Translation := Translation_None | Translation_Random.

#[export] Instance MapType_eq_dec : EqDecision MapType.
Proof. solve_decision. Defined.
#[export] Instance Translation_eq_dec : EqDecision Translation.
Proof. solve_decision. Defined.

(** The statistics of the memory itself, per core and per channel. *)
Record mem_stats := mkMemStats {
  num_dram_cycles : Z;
  num_incoming_requests : Z;
  num_read_requests : VectorStat;
  num_write_requests : VectorStat;
  ramulator_active_cycles : Z;
  memory_footprint : Z;
  incoming_requests_per_channel : VectorStat;
  incoming_read_reqs_per_channel : VectorStat;
  physical_page_replacement : Z;
  record_read_requests : VectorStat;
  record_write_requests : VectorStat
}.
Definition mem_stats0 (core_num channels : nat) : mem_stats :=
  let v := VectorStat_init core_num in
  let w := VectorStat_init channels in
  mkMemStats 0 0 v v 0 0 w w 0 v v.

(** The page tables. *)
Record pages := mkPages {
  free_physical_pages : list Z;
  free_physical_pages_remaining : Z;
  page_translation : gmap (Z * Z) Z
}.

(** [Memory<T>] *)
Record Memory {L C S : Type} := mkMemory {
  mtype : MapType;
  translation : Translation;
  mpages : pages;
  ctrls : list (Controller L C S);
  addr_bits : list Z;
  tx_bits : Z;
  cacheline_size : Z;
  max_address : Z;
  mstats : mem_stats
}.
Arguments Memory : clear implicits.
Arguments mkMemory {L C S}.

Definition set_ctrls {L C S : Type} (x : list (Controller L C S)) (m : Memory L C S) : Memory L C S :=
  mkMemory (mtype m) (translation m) (mpages m) x (addr_bits m) (tx_bits m) (cacheline_size m) (max_address m)
    (mstats m).
Definition set_mpages {L C S : Type} (x : pages) (m : Memory L C S) : Memory L C S :=
  mkMemory (mtype m) (translation m) x (ctrls m) (addr_bits m) (tx_bits m) (cacheline_size m) (max_address m)
    (mstats m).
Definition set_mstats {L C S : Type} (x : mem_stats) (m : Memory L C S) : Memory L C S :=
  mkMemory (mtype m) (translation m) (mpages m) (ctrls m) (addr_bits m) (tx_bits m) (cacheline_size m)
    (max_address m) x.

(** ** Bit operations *)

(** [calc_log2(val)]: the loop [while ((val >>= 1)) n++]. *)
Fixpoint calc_log2_loop (fuel : nat) (val n : Z) : option Z :=
  match fuel with
  | O => None
  | S fuel => let val := Z.shiftr val 1 in if val =? 0 then Some n else calc_log2_loop fuel val (n + 1)
  end.
Definition calc_log2 (val : Z) : option Z := calc_log2_loop 32 val 0.

(** [slice_lower_bits(addr, bits)] returns the slice and changes [addr];
    [clear_lower_bits(addr, bits)] only changes it. *)
Definition slice_lower_bits (addr bits : Z) : Z * Z :=
  (Z.land addr (Z.shiftl 1 bits - 1), Z.shiftr addr bits).
Definition clear_lower_bits (addr bits : Z) : Z := Z.shiftr addr bits.

(** [v.resize(n)] *)
Definition resize (n : nat) (v : list Z) : list Z := take n v ++ replicate (n - length v) 0.

(** [sz & (sz - 1)] is zero for powers of two (and zero). *)
Definition pow2_check (sz : Z) : bool := Z.land sz (sz - 1) =? 0.

Section Ops.
Context {L C S : Type} `{!EqDecision L, !EqDecision C, !EqDecision S}.
Variable spec : Spec L C S.

(** ** The constructor *)

(** The vector [addr_bits] and the capacity. *)
Definition calc_addr_bits : option (list Z) :=
  bits ← mapM calc_log2 (count spec);
  b ← calc_log2 (prefetch_size spec);
  last ← bits !! (level_MAX spec - 1)%nat;
  Some (<[(level_MAX spec - 1)%nat := last - b]> bits).

Definition calc_max_address : Z := foldl Z.mul (Z.quot (channel_width spec) 8) (count spec).

Definition new_pages (tr : Translation) (max_address : Z) : pages :=
  match tr with
  | Translation_None => mkPages [] 0 ∅
  | Translation_Random =>
    let n := Z.shiftr max_address 12 in mkPages (replicate (Z.to_nat n) (-1)) n ∅
  end.

(** [Memory(configs, ctrls)]; [lpddr] is [standard_name.substr(0, 5) == "LPDDR"],
    and [core_num] is [configs.get_core_num()]. *)
Definition new_memory (core_num : nat) (ty : MapType) (lpddr : bool) (tr : Translation) (cacheline : Z)
    (cs : list (Controller L C S)) : option (Memory L C S) :=
  sz0 ← count spec !! 0%nat;
  assert! pow2_check sz0;
  sz1 ← count spec !! 1%nat;
  assert! pow2_check sz1;
  let tx := Z.quot (prefetch_size spec * channel_width spec) 8 in
  tx_bits ← calc_log2 tx;
  assert! Z.shiftl 1 tx_bits =? tx;
  row ← count spec !! level_int spec (lvl_Row spec);
  assert! bool_decide (ty = RoBaRaCoCh) || negb lpddr || pow2_check row;
  bits ← calc_addr_bits;
  Some (mkMemory ty tr (new_pages tr calc_max_address) cs bits tx_bits cacheline calc_max_address
    (mem_stats0 core_num (Z.to_nat sz0))).

(** [MemoryFactory<T>::populate_memory]: one controller per channel. *)
Definition populate_memory (core_num : nat) (ty : MapType) (lpddr : bool) (tr : Translation) (cacheline : Z) (channels : nat) :
    option (Memory L C S) :=
  l ← level_cast spec 0;
  cs ← mapM (λ c : nat, d ← new_channel spec l (Z.of_nat c); Some (new_controller core_num d)) (seq 0 channels);
  new_memory core_num ty lpddr tr cacheline cs.

(** ** Address mapping *)

(** The levels in the order in which [send] slices them off the address. *)
Definition slice_order (ty : MapType) (n : nat) : list nat :=
  match ty with
  | ChRaBaRoCo => reverse (seq 0 n)
  | RoBaRaCoCh => 0%nat :: (n - 1)%nat :: seq 1 (level_int spec (lvl_Row spec))
  end.

(** [for (...) req.addr_vec[i] = slice_lower_bits(addr, addr_bits[i])] *)
Fixpoint slice_levels (bits : list Z) (order : list nat) (addr : Z) (v : list Z) : option (list Z) :=
  match order with
  | [] => Some v
  | i :: order =>
    b ← bits !! i;
    if decide (i < length v)%nat then
      let '(x, addr) := slice_lower_bits addr b in slice_levels bits order addr (<[i := x]> v)
    else None
  end.

Definition map_address (m : Memory L C S) (a : Z) (v : list Z) : option (list Z) :=
  slice_levels (addr_bits m) (slice_order (mtype m) (length (addr_bits m)))
    (clear_lower_bits a (tx_bits m)) (resize (length (addr_bits m)) v).

(** ** [send], [tick] and the rest *)

Definition count_request (req : Request) (st : mem_stats) : option mem_stats :=
  ch ← addr_vec req !! 0%nat;
  let rd := bool_decide (type req = READ) in
  let wr := bool_decide (type req = WRITE) in
  reads ← (if rd then bump (num_read_requests st) (coreid req) else Some (num_read_requests st));
  read_channels ← (if rd then bump (incoming_read_reqs_per_channel st) ch else Some (incoming_read_reqs_per_channel st));
  writes ← (if wr then bump (num_write_requests st) (coreid req) else Some (num_write_requests st));
  channels ← bump (incoming_requests_per_channel st) ch;
  Some (mkMemStats (num_dram_cycles st) (num_incoming_requests st + 1) reads writes
    (ramulator_active_cycles st) (memory_footprint st) channels read_channels (physical_page_replacement st) (record_read_requests st) (record_write_requests st)).

(** [send(req)] *)
Definition send (req : Request) (m : Memory L C S) : option (bool * Memory L C S) :=
  let req := set_burst_count (Z.quot (cacheline_size m) (Z.shiftl 1 (tx_bits m))) req in
  v ← map_address m (addr req) (addr_vec req);
  let req := set_addr_vec v req in
  ch ← v !! 0%nat;
  c ← zlookup (ctrls m) ch;
  let '(ok, c) := enqueue req c in
  let m := set_ctrls (<[Z.to_nat ch := c]> (ctrls m)) m in
  if (ok : bool) then st ← count_request req (mstats m); Some (true, set_mstats st m)
  else Some (false, m).

(** [tick()]: the requests whose callbacks run, in order. *)
Definition tick_ctrls (cs : list (Controller L C S)) : option (list Request * list (Controller L C S)) :=
  foldM (λ acc c, '(done, c) ← tick spec c; Some (fst acc ++ done, snd acc ++ [c])) ([], []) cs.

Definition mem_tick (m : Memory L C S) : option (list Request * Memory L C S) :=
  let st := mstats m in
  let active := existsb is_active (ctrls m) in
  '(done, cs) ← tick_ctrls (ctrls m);
  let st := mkMemStats (num_dram_cycles st + 1) (num_incoming_requests st) (num_read_requests st)
    (num_write_requests st) (if active then ramulator_active_cycles st + 1 else ramulator_active_cycles st)
    (memory_footprint st) (incoming_requests_per_channel st) (incoming_read_reqs_per_channel st)
    (physical_page_replacement st) (record_read_requests st) (record_write_requests st) in
  Some (done, set_mstats st (set_ctrls cs m)).

(** [pending_requests()] *)
Definition ctrl_requests (c : Controller L C S) : Z :=
  qsize (readq c) + qsize (writeq c) + qsize (otherq c) + Z.of_nat (length (pending c)).
Definition pending_requests (m : Memory L C S) : Z :=
  foldl (λ n c, n + ctrl_requests c) 0 (ctrls m).

(** [record_core(coreid)] *)
Definition mem_record_core (i : Z) (m : Memory L C S) : option (Memory L C S) :=
  let st := mstats m in
  rd ← at_core i (num_read_requests st) (record_read_requests st);
  wr ← at_core i (num_write_requests st) (record_write_requests st);
  cs ← mapM (record_core i) (ctrls m);
  Some (set_ctrls cs
    (set_mstats (mkMemStats (num_dram_cycles st) (num_incoming_requests st) (num_read_requests st)
      (num_write_requests st) (ramulator_active_cycles st) (memory_footprint st)
      (incoming_requests_per_channel st) (incoming_read_reqs_per_channel st) (physical_page_replacement st) rd wr) m)).

(** [finish()]: the part that is not a ratio of statistics. *)
Definition mem_finish (m : Memory L C S) : Memory L C S := set_ctrls (map ctrl_finish (ctrls m)) m.

(** ** The page allocator *)

(** The [do ... while] loop from the page after [start]. *)
Fixpoint find_free (fuel : nat) (ps : list Z) (start p : Z) : option Z :=
  match fuel with
  | O => None
  | Datatypes.S fuel =>
    let p := Z.rem (p + 1) (Z.of_nat (length ps)) in
    x ← zlookup ps p;
    if negb (p =? start) && negb (x =? -1) then find_free fuel ps start p else Some p
  end.

(** The page a new translation gets. *)
Definition pick_page (lrand coreid : Z) (t : pages) : option (Z * pages) :=
  let ps := free_physical_pages t in
  assert! bool_decide (ps ≠ []);
  let p := Z.rem lrand (Z.of_nat (length ps)) in
  x ← zlookup ps p;
  if free_physical_pages_remaining t =? 0 then
    assert! negb (x =? -1);
    Some (p, t)
  else
    p ← if negb (x =? -1) then find_free (length ps) ps p p else Some p;
    x ← zlookup ps p;
    assert! x =? -1;
    Some (p, mkPages (<[Z.to_nat p := coreid]> ps) (free_physical_pages_remaining t - 1) (page_translation t)).

Definition count_page (replaced : bool) (st : mem_stats) : mem_stats :=
  mkMemStats (num_dram_cycles st) (num_incoming_requests st) (num_read_requests st) (num_write_requests st)
    (ramulator_active_cycles st) (memory_footprint st + Z.shiftl 1 12) (incoming_requests_per_channel st)
    (incoming_read_reqs_per_channel st)
    (if replaced then physical_page_replacement st + 1 else physical_page_replacement st)
    (record_read_requests st) (record_write_requests st).

(** [page_allocator(addr, coreid)] *)
Definition page_allocator (lrand addr coreid : Z) (m : Memory L C S) : option (Z * Memory L C S) :=
  let t := mpages m in
  let target := (coreid, Z.shiftr addr 12) in
  match translation m with
  | Translation_None =>
    match page_translation t !! target with
    | Some _ => Some (addr, m)
    | None =>
      let t := mkPages (free_physical_pages t) (free_physical_pages_remaining t)
                 (<[target := Z.shiftr addr 12]> (page_translation t)) in
      Some (addr, set_mstats (count_page false (mstats m)) (set_mpages t m))
    end
  | Translation_Random =>
    '(p, m) ← match page_translation t !! target with
              | Some p => Some (p, m)
              | None =>
                '(p, t') ← pick_page lrand coreid t;
                let t' := mkPages (free_physical_pages t') (free_physical_pages_remaining t')
                            (<[target := p]> (page_translation t')) in
                let replaced := free_physical_pages_remaining t =? 0 in
                Some (p, set_mstats (count_page replaced (mstats m)) (set_mpages t' m))
              end;
    Some (Z.lor (Z.shiftl p 12) (Z.land addr (Z.shiftl 1 12 - 1)), m)
  end.

(** [MemoryFactory<T>::extend_channel_width(spec, cacheline)]: the new width. *)
Definition extend_channel_width (cacheline : Z) : option Z :=
  let channel_unit := Z.quot (prefetch_size spec * channel_width spec) 8 in
  assert! negb (channel_unit =? 0);
  let gang_number := Z.quot cacheline channel_unit in
  assert! 1 <=? gang_number;
  assert! cacheline =? gang_number * channel_unit;
  Some (channel_width spec * gang_number).

End Ops.
