(* ===== verification/MemoryMap.v ===== *)
(** * Page tables and address arithmetic

    Lemmas on the page allocator, the logarithms and the slices of an address. *)

From S2P Require Import Prelude Request Dram DramTiming BankProtocol Controller CtrlQueries Memory.

(** ** The page allocator ([Memory<T>::page_allocator])

    The invariant of the page tables under random translation, and that the
    search for a free page ends with one. *)

(** The number of free pages. *)
Definition free_count (ps : list Z) : Z := Z.of_nat (length (filter (λ x, x = -1) ps)).

Record pages_inv (n : Z) (t : pages) : Prop := {
  pi_size : Z.of_nat (length (free_physical_pages t)) = n;
  pi_free : free_physical_pages_remaining t = free_count (free_physical_pages t);
  pi_mapped k p : page_translation t !! k = Some p →
    0 ≤ p < n ∧ ∃ x, free_physical_pages t !! Z.to_nat p = Some x ∧ x ≠ -1
}.

(** No two virtual pages share a physical page. *)
Definition pages_injective (t : pages) : Prop :=
  ∀ k1 k2 p, page_translation t !! k1 = Some p → page_translation t !! k2 = Some p → k1 = k2.

Lemma free_count_insert ps p x :
  ps !! p = Some (-1) → x ≠ -1 → free_count (<[p:=x]> ps) = free_count ps - 1.
Proof.
  intros Hp Hx. unfold free_count. rewrite <-(take_drop_middle ps p (-1) Hp) at 2.
  assert (p < length ps)%nat by (by eapply lookup_lt_Some).
  rewrite insert_take_drop by done. rewrite !filter_app, !filter_cons, !length_app.
  rewrite decide_False, decide_True by done. simpl. lia.
Qed.

Lemma free_count_pos ps : 0 < free_count ps → ∃ j, ps !! j = Some (-1).
Proof.
  unfold free_count. intros H. destruct (filter (λ x, x = -1) ps) as [|x l] eqn:E; [simpl in H; lia|].
  assert (x ∈ filter (λ x, x = -1) ps) as Hx by (rewrite E; set_solver).
  apply list_elem_of_filter in Hx as [-> [j Hj]%list_elem_of_lookup]. by exists j.
Qed.

Lemma free_count_zero ps j x : free_count ps = 0 → ps !! j = Some x → x ≠ -1.
Proof.
  unfold free_count. intros H Hj ->. assert (-1 ∈ filter (λ x, x = -1) ps) as Hx.
  { apply list_elem_of_filter. split; [done|]. by eapply list_elem_of_lookup_2. }
  destruct (filter (λ x, x = -1) ps); [by apply elem_of_nil in Hx|simpl in H; lia].
Qed.

(** [k] pages after the start were looked at; a free page is further on. *)
Lemma find_free_ok ps start k j fuel :
  let n := Z.of_nat (length ps) in
  0 ≤ start < n → 0 ≤ k < j → j < n → n - k ≤ Z.of_nat fuel →
  ps !! Z.to_nat ((start + j) mod n) = Some (-1) →
  ∃ p, find_free fuel ps start ((start + k) mod n) = Some p ∧ 0 ≤ p < n ∧ ps !! Z.to_nat p = Some (-1).
Proof.
  intros n Hs. revert k. induction fuel as [|fuel IH]; intros k Hk Hj Hf Hp; [lia|]. cbn [find_free].
  fold n. pose proof (Z.mod_pos_bound (start + k) n ltac:(lia)).
  assert (Z.rem ((start + k) mod n + 1) n = (start + (k + 1)) mod n) as ->.
  { rewrite Z.rem_mod_nonneg by lia. rewrite Zplus_mod_idemp_l. f_equal. lia. }
  pose proof (Z.mod_pos_bound (start + (k + 1)) n ltac:(lia)) as Hb.
  rewrite zlookup_nat by lia.
  destruct (lookup_lt_is_Some_2 ps (Z.to_nat ((start + (k + 1)) mod n))) as [x Hx]; [lia|]. rewrite Hx; simpl.
  assert ((start + (k + 1)) mod n ≠ start) as Hne.
  { intros E. pose proof (Z.div_mod (start + (k + 1)) n ltac:(lia)) as D. rewrite E in D.
    generalize dependent ((start + (k + 1)) / n). intros y D. destruct (Z.le_gt_cases y 0); nia. }
  rewrite (proj2 (Z.eqb_neq _ _)) by done. simpl. destruct (x =? -1) eqn:E; simpl.
  - apply Z.eqb_eq in E. subst x. eauto.
  - apply IH; try lia; try done. destruct (decide (j = k + 1)) as [->|]; [|lia]. rewrite Hx in Hp. by simplify_eq.
Qed.

Lemma pick_page_ok n t lrand coreid :
  pages_inv n t → 0 < n → 0 ≤ lrand → coreid ≠ -1 →
  ∃ p t', pick_page lrand coreid t = Some (p, t') ∧ 0 ≤ p < n ∧
    page_translation t' = page_translation t ∧
    Z.of_nat (length (free_physical_pages t')) = n ∧
    free_physical_pages_remaining t' = free_count (free_physical_pages t') ∧
    (∃ x, free_physical_pages t' !! Z.to_nat p = Some x ∧ x ≠ -1) ∧
    (∀ j x, free_physical_pages t !! j = Some x → x ≠ -1 → free_physical_pages t' !! j = Some x) ∧
    (free_physical_pages_remaining t ≠ 0 → free_physical_pages t !! Z.to_nat p = Some (-1)).
Proof.
  intros [Hn Hfree Hmap] Hpos Hl Hc. unfold pick_page. set (ps := free_physical_pages t) in *.
  rewrite bool_decide_true by (intros E; rewrite E in Hn; simpl in Hn; lia). rewrite Hn.
  pose proof (Z.rem_bound_pos lrand n ltac:(lia) ltac:(lia)) as Hb. set (p0 := Z.rem lrand n) in *.
  rewrite zlookup_nat by lia. destruct (lookup_lt_is_Some_2 ps (Z.to_nat p0)) as [x Hx]; [lia|]. rewrite Hx; simpl.
  destruct (free_physical_pages_remaining t =? 0) eqn:Er; [apply Z.eqb_eq in Er|apply Z.eqb_neq in Er].
  { assert (x ≠ -1) by (eapply free_count_zero; [|exact Hx]; congruence). rewrite (proj2 (Z.eqb_neq _ _)) by done. simpl.
    exists p0, t. split_and!; eauto; lia. }
  assert (∃ p, (if negb (x =? -1) then find_free (length ps) ps p0 p0 else Some p0) = Some p ∧ 0 ≤ p < n ∧
    ps !! Z.to_nat p = Some (-1)) as (p&Hp&Hpb&Hpf).
  { destruct (x =? -1) eqn:E; simpl; [apply Z.eqb_eq in E; subst x; eauto|]. apply Z.eqb_neq in E.
    destruct (free_count_pos ps) as [j Hj]; [unfold free_count in *; lia|].
    assert (j < length ps)%nat by (by eapply lookup_lt_Some).
    assert (p0 ≠ Z.of_nat j) as Hne by (intros ->; rewrite Nat2Z.id in Hx; congruence).
    pose proof (find_free_ok ps p0 0 ((Z.of_nat j - p0) mod n) (length ps)) as Hff. rewrite Hn in Hff. simpl in Hff.
    rewrite Z.add_0_r, (Z.mod_small p0) in Hff by lia. pose proof (Z.mod_pos_bound (Z.of_nat j - p0) n ltac:(lia)).
    apply Hff; try lia.
    - destruct (decide ((Z.of_nat j - p0) mod n = 0)) as [E0|]; [|lia].
      apply Z.mod_divide in E0; [|lia]. destruct E0 as [z Hz]. assert (z = 0) by nia. lia.
    - rewrite Zplus_mod_idemp_r. replace (p0 + (Z.of_nat j - p0)) with (Z.of_nat j) by lia.
      rewrite Z.mod_small by lia. by rewrite Nat2Z.id. }
  rewrite Hp; simpl. rewrite zlookup_nat by lia. rewrite Hpf; simpl.
  eexists p, _. split; [done|]. simpl. split_and!; try done; try lia.
  - by rewrite length_insert.
  - rewrite Hfree. rewrite free_count_insert by done. done.
  - exists coreid. split; [|done]. apply list_lookup_insert_eq. by eapply lookup_lt_Some.
  - intros j y Hj Hy. rewrite list_lookup_insert_ne; [done|]. intros <-. congruence.
Qed.

(** [(p << 12) | (addr & ((1 << 12) - 1))] *)
Lemma page_address p a :
  Z.lor (Z.shiftl p 12) (Z.land a (Z.shiftl 1 12 - 1)) = p * 4096 + a mod 4096.
Proof.
  change (Z.shiftl 1 12 - 1) with (Z.ones 12).
  assert (Z.land (Z.shiftl p 12) (Z.land a (Z.ones 12)) = 0) as Hd.
  { apply Z.bits_inj'. intros k Hk. rewrite Z.bits_0, !Z.land_spec, Z.shiftl_spec by lia.
    destruct (decide (k < 12)); [by rewrite (Z.testbit_neg_r p) by lia|].
    rewrite Z.ones_spec_high by lia. by rewrite !andb_false_r. }
  rewrite <-Z.lxor_lor, <-Z.add_nocarry_lxor by done. rewrite Z.land_ones, Z.shiftl_mul_pow2 by lia. done.
Qed.

Section Alloc.
Context {L C S : Type}.

(** The page of the memory after a call under random translation. *)
Lemma page_allocator_random n lrand a coreid (m : Memory L C S) :
  translation m = Translation_Random → pages_inv n (mpages m) → 0 < n → 0 ≤ lrand → coreid ≠ -1 →
  ∃ p m', page_allocator lrand a coreid m = Some (Z.lor (Z.shiftl p 12) (Z.land a (Z.shiftl 1 12 - 1)), m') ∧
    0 ≤ p < n ∧ pages_inv n (mpages m') ∧ page_translation (mpages m') !! (coreid, Z.shiftr a 12) = Some p ∧
    (∀ k q, page_translation (mpages m) !! k = Some q → page_translation (mpages m') !! k = Some q) ∧
    (let R m := physical_page_replacement (mstats m) in
     0 ≤ R m → (R m = 0 → pages_injective (mpages m)) → 0 ≤ R m' ∧ (R m' = 0 → pages_injective (mpages m'))) ∧
    ctrls m' = ctrls m ∧ translation m' = translation m.
Proof.
  intros Htr Hinv Hn Hl Hc. unfold page_allocator. rewrite Htr. set (k0 := (coreid, Z.shiftr a 12)).
  destruct (page_translation (mpages m) !! k0) as [p|] eqn:Hk; simpl.
  { exists p, m. destruct (pi_mapped _ _ Hinv _ _ Hk) as [Hp _]. split_and!; eauto; apply Hp. }
  destruct (pick_page_ok n (mpages m) lrand coreid) as (p&t'&Hpick&Hp&Htt&Hlen&Hfree&Hused&Hkeep&Hnew); try done.
  rewrite Hpick; simpl. eexists p, _. split; [done|]. simpl. rewrite Htt.
  assert (∀ k q, page_translation (mpages m) !! k = Some q → <[k0:=p]> (page_translation (mpages m)) !! k = Some q) as Hold.
  { intros k q Hq. rewrite lookup_insert_ne; [done|]. intros <-. congruence. }
  split_and!; try done; try apply Hp.
  - split; simpl; [done|done|]. intros k q Hq. destruct (decide (k = k0)) as [->|Hne].
    + rewrite lookup_insert_eq in Hq. simplify_eq. done.
    + rewrite lookup_insert_ne in Hq by done. destruct (pi_mapped _ _ Hinv _ _ Hq) as (?&x&Hx&Hx1). eauto.
  - by rewrite lookup_insert_eq.
  - intros HR Hinj.
    destruct (free_physical_pages_remaining (mpages m) =? 0) eqn:Er; [lia|]. apply Z.eqb_neq in Er.
    split; [done|]. intros H0. specialize (Hnew Er). specialize (Hinj H0). intros k1 k2 q. simpl.
    assert (∀ k, page_translation (mpages m) !! k = Some p → False) as Hfresh.
    { intros k Hkp. destruct (pi_mapped _ _ Hinv _ _ Hkp) as (_&x&Hx&Hx1). congruence. }
    destruct (decide (k1 = k0)) as [->|H1], (decide (k2 = k0)) as [->|H2]; try done;
      rewrite ?lookup_insert_eq; rewrite ?lookup_insert_ne by done; intros; simplify_eq; try (exfalso; by eauto).
    by eapply Hinj.
Qed.

End Alloc.

(** ** Address mapping

    [slice_levels] cuts an address into the coordinates of the levels; its
    inverse [join_levels] puts them together.  This file proves that the two are
    inverse to each other, and that the coordinates are in range. *)

#[local] Arguments Z.mul : simpl never.
#[local] Arguments Z.pow : simpl never.

(** ** [calc_log2] *)
Lemma calc_log2_loop_ok fuel val n :
  0 ≤ val < 2 ^ Z.of_nat fuel → (0 < fuel)%nat → calc_log2_loop fuel val n = Some (n + Z.log2 val).
Proof.
  revert val n. induction fuel as [|fuel IH]; intros val n Hv Hf; [lia|]. cbn [calc_log2_loop].
  rewrite Z.shiftr_div_pow2 by lia. change (2 ^ 1) with 2. case_match eqn:E.
  - apply Z.eqb_eq in E. assert (val < 2) as Hlt by (apply Z.div_small_iff in E; lia).
    assert (val = 0 ∨ val = 1) as [->| ->] by lia; f_equal; simpl; lia.
  - apply Z.eqb_neq in E. assert (2 ≤ val) by (destruct (decide (val < 2)); [rewrite Z.div_small in E; lia|lia]).
    rewrite Nat2Z.inj_succ, Z.pow_succ_r in Hv by lia.
    assert (0 < val / 2 < 2 ^ Z.of_nat fuel) as Hr.
    { split; [apply Z.div_str_pos; lia|]. apply Z.div_lt_upper_bound; lia. }
    destruct fuel as [|fuel]; [change (2 ^ Z.of_nat 0) with 1 in Hr; lia|].
    rewrite IH by lia. f_equal. assert (Z.log2 val = Z.log2 (val / 2) + 1); [|lia].
    change 2 with (2 ^ 1) at 1. rewrite <-Z.shiftr_div_pow2 by lia. rewrite Z.log2_shiftr by lia.
    pose proof (Z.log2_le_mono 2 val). change (Z.log2 2) with 1 in *. lia.
Qed.

Lemma calc_log2_ok val : 0 ≤ val < 2 ^ 31 → calc_log2 val = Some (Z.log2 val).
Proof. intros Hv. unfold calc_log2. rewrite calc_log2_loop_ok by (change (2 ^ Z.of_nat 32) with (2 ^ 32); lia). done. Qed.

Lemma calc_log2_negative fuel val n : val < 0 → calc_log2_loop fuel val n = None.
Proof.
  revert val n. induction fuel as [|fuel IH]; intros val n Hv; [done|]. cbn [calc_log2_loop].
  assert (Z.shiftr val 1 < 0) by (by apply Z.shiftr_neg). rewrite (proj2 (Z.eqb_neq _ _)) by lia. by apply IH.
Qed.

Lemma calc_log2_nonneg val n : calc_log2 val = Some n → 0 ≤ n.
Proof.
  assert (∀ fuel v k, calc_log2_loop fuel v k = Some n → k ≤ n) as H; [|apply H].
  induction fuel as [|fuel IH]; intros v k; [done|]. cbn [calc_log2_loop]. case_match; [intros; simplify_eq; lia|].
  intros Hc%IH. lia.
Qed.

(** ** Slicing and joining *)

(** The value with coordinate [v !! i] in the bits of level [i], the first
    level of the order in the lowest bits. *)
Fixpoint join_levels (bits : list Z) (order : list nat) (v : list Z) : Z :=
  match order with
  | [] => 0
  | i :: order => default 0 (v !! i) + 2 ^ default 0 (bits !! i) * join_levels bits order v
  end.

Definition total_bits (bits : list Z) (order : list nat) : Z :=
  foldr (λ i n, default 0 (bits !! i) + n) 0 order.

Lemma slice_value a b : 0 ≤ b → Z.land a (Z.shiftl 1 b - 1) = a mod 2 ^ b.
Proof.
  intros Hb. rewrite Z.shiftl_mul_pow2, Z.mul_1_l by done.
  replace (2 ^ b - 1) with (Z.ones b) by (rewrite Z.ones_equiv; lia). by rewrite Z.land_ones.
Qed.

Lemma total_bits_nonneg bits order :
  Forall (λ b, 0 ≤ b) bits → 0 ≤ total_bits bits order.
Proof.
  intros Hb. induction order as [|i order IH]; simpl; [lia|].
  assert (0 ≤ default 0 (bits !! i)); [|lia]. destruct (bits !! i) as [b|] eqn:E; simpl; [|lia].
  rewrite Forall_lookup in Hb. eauto.
Qed.

(** The bits of all the levels, in any order. *)
Lemma total_bits_perm bits order order' : order ≡ₚ order' → total_bits bits order = total_bits bits order'.
Proof. unfold total_bits. induction 1; simpl; lia. Qed.

Lemma total_bits_seq bits n : length bits = n → total_bits bits (seq 0 n) = foldr Z.add 0 bits.
Proof.
  intros <-. assert (∀ pre, total_bits (pre ++ bits) (seq (length pre) (length bits)) = foldr Z.add 0 bits) as H; [|apply (H [])].
  induction bits as [|b bits IH]; intros pre; simpl; [done|]. rewrite lookup_app_r, Nat.sub_diag by lia. simpl.
  f_equal. specialize (IH (pre ++ [b])). by rewrite <-app_assoc, length_app, Nat.add_1_r in IH.
Qed.

Lemma sum_insert l k x (y : Z) : l !! k = Some x → foldr Z.add 0 (<[k := y]> l) = foldr Z.add 0 l - x + y.
Proof. revert k. induction l as [|z l IH]; intros [|k] Hk; simplify_eq/=; [lia|]. rewrite (IH k) by done. lia. Qed.

(** Powers of two, as the code tests for them. *)
Lemma pow2_check_log2 c : 0 < c → pow2_check c = true ↔ c = 2 ^ Z.log2 c.
Proof.
  intros Hc. pose proof (Z.log2_spec c Hc) as [Hl Hu]. pose proof (Z.log2_nonneg c). unfold pow2_check. rewrite Z.eqb_eq. split.
  - intros Hz. destruct (decide (c = 2 ^ Z.log2 c)) as [|Hne]; [done|]. exfalso.
    assert (Z.log2 (c - 1) = Z.log2 c) as E by (apply Z.log2_unique; lia).
    assert (Z.testbit (Z.land c (c - 1)) (Z.log2 c) = true) as Ht; [|by rewrite Hz, Z.testbit_0_l in Ht].
    rewrite Z.land_spec, Z.bit_log2 by done. rewrite <-E at 1. apply Z.bit_log2. destruct (decide (c = 1)); [subst; done|lia].
  - intros E. rewrite E at 2. replace (2 ^ Z.log2 c - 1) with (Z.ones (Z.log2 c)) by (rewrite Z.ones_equiv; lia).
    rewrite Z.land_ones by done. rewrite E at 1. by apply Z.mod_same; lia.
Qed.

(** A product of counts against the bits given to them. *)
Lemma product_log2 l :
  Forall (λ c, 0 < c) l →
  2 ^ foldr Z.add 0 (map Z.log2 l) ≤ foldr Z.mul 1 l ∧ 0 ≤ foldr Z.add 0 (map Z.log2 l) ∧
  (2 ^ foldr Z.add 0 (map Z.log2 l) = foldr Z.mul 1 l ↔ forallb pow2_check l = true).
Proof.
  induction 1 as [|c l Hc Hl (IH1&IH2&IH3)]; simpl; [done|].
  pose proof (Z.log2_spec c Hc) as [Hlo _]. pose proof (Z.log2_nonneg c). pose proof (Z.pow_pos_nonneg 2 (Z.log2 c)).
  pose proof (Z.pow_pos_nonneg 2 (foldr Z.add 0 (map Z.log2 l))). rewrite Z.pow_add_r by done.
  rewrite andb_true_iff, <-IH3, pow2_check_log2 by done. split_and!; [nia|lia|].
  split; [intros E; split; nia|intros [E1 E2]; rewrite <-E1, E2; done].
Qed.

Lemma foldl_product x l : foldl Z.mul x l = x * foldr Z.mul 1 l.
Proof. revert x. induction l as [|c l IH]; intros x; simpl; [lia|]. rewrite IH. lia. Qed.

Lemma join_levels_ext bits order v w :
  (∀ i, i ∈ order → v !! i = w !! i) → join_levels bits order v = join_levels bits order w.
Proof.
  intros H. induction order as [|i order IH]; simpl; [done|]. rewrite (H i) by set_solver.
  f_equal. f_equal. apply IH. set_solver.
Qed.

Section Slice.
Variable bits : list Z.
Hypothesis Hbits : Forall (λ b, 0 ≤ b) bits.

Lemma bits_at i : (i < length bits)%nat → ∃ b, bits !! i = Some b ∧ 0 ≤ b.
Proof.
  intros Hi. destruct (lookup_lt_is_Some_2 bits i Hi) as [b Hb]. exists b. split; [done|].
  rewrite Forall_lookup in Hbits. eauto.
Qed.

(** What slicing computes, level by level. *)
Lemma slice_levels_ok order a v :
  NoDup order → (∀ i, i ∈ order → (i < length v)%nat ∧ (i < length bits)%nat) →
  ∃ v', slice_levels bits order a v = Some v' ∧ length v' = length v ∧
    (∀ j, j ∉ order → v' !! j = v !! j) ∧
    (∀ i, i ∈ order → ∃ x b, v' !! i = Some x ∧ bits !! i = Some b ∧ 0 ≤ x < 2 ^ b) ∧
    join_levels bits order v' = a mod 2 ^ total_bits bits order.
Proof.
  intros Hnd. revert a v. induction Hnd as [|i order Hi Hnd IH]; intros a v Hlt; simpl.
  { exists v. split_and!; try done; [set_solver|]. by rewrite Z.mod_1_r. }
  destruct (Hlt i) as [Hiv Hib]; [set_solver|]. destruct (bits_at i Hib) as (b&Hb&Hb0).
  rewrite Hb; simpl. rewrite decide_True by done. rewrite slice_value, Z.shiftr_div_pow2 by done.
  destruct (IH (a / 2 ^ b) (<[i := a mod 2 ^ b]> v)) as (v'&Hv'&Hlen&Hout&Hin&Hjoin).
  { intros j Hj. rewrite length_insert. apply Hlt. set_solver. }
  exists v'. split_and!; [done|by rewrite Hlen, length_insert| | |].
  - intros j [Hne Hj]%not_elem_of_cons. rewrite Hout by done. by rewrite list_lookup_insert_ne.
  - intros j [->|Hj]%elem_of_cons; [|by apply Hin]. exists (a mod 2 ^ b), b.
    rewrite Hout by done. rewrite list_lookup_insert_eq by done. split_and!; try done; apply Z.mod_pos_bound; lia.
  - rewrite Hout by done. rewrite list_lookup_insert_eq by done. simpl. rewrite Hjoin.
    pose proof (total_bits_nonneg bits order Hbits).
    rewrite Z.pow_add_r by lia. rewrite Z.rem_mul_r by lia. done.
Qed.

(** Slicing what was joined. *)
Lemma slice_join order v w :
  NoDup order → (∀ i, i ∈ order → (i < length v)%nat) →
  (∀ i, i ∈ order → ∃ x b, w !! i = Some x ∧ bits !! i = Some b ∧ 0 ≤ x < 2 ^ b) →
  ∃ v', slice_levels bits order (join_levels bits order w) v = Some v' ∧ length v' = length v ∧
    (∀ j, j ∉ order → v' !! j = v !! j) ∧ ∀ i, i ∈ order → v' !! i = w !! i.
Proof.
  intros Hnd. revert v. induction Hnd as [|i order Hi Hnd IH]; intros v Hlt Hw; simpl.
  { exists v. split_and!; try done. set_solver. }
  destruct (Hw i) as (x&b&Hx&Hb&Hr); [set_solver|]. assert (0 ≤ b) as Hb0 by (rewrite Forall_lookup in Hbits; eauto).
  rewrite Hb, Hx; simpl. rewrite decide_True by (apply Hlt; set_solver). rewrite slice_value, Z.shiftr_div_pow2 by done.
  assert (0 < 2 ^ b) by lia.
  rewrite (Z.mul_comm (2 ^ b)), Z.mod_add, Z.div_add, Z.mod_small, Z.div_small by lia. rewrite Z.add_0_l.
  destruct (IH (<[i := x]> v)) as (v'&Hv'&Hlen&Hout&Hin).
  { intros j Hj. rewrite length_insert. apply Hlt. set_solver. } { intros j Hj. apply Hw. set_solver. }
  exists v'. split_and!; [done|by rewrite Hlen, length_insert| |].
  - intros j [Hne Hj]%not_elem_of_cons. rewrite Hout by done. by rewrite list_lookup_insert_ne.
  - intros j [->|Hj]%elem_of_cons; [|by apply Hin]. rewrite Hout by done.
    rewrite list_lookup_insert_eq by (apply Hlt; set_solver). done.
Qed.

Lemma join_levels_bound order w :
  (∀ i, i ∈ order → ∃ x b, w !! i = Some x ∧ bits !! i = Some b ∧ 0 ≤ x < 2 ^ b) →
  0 ≤ join_levels bits order w < 2 ^ total_bits bits order.
Proof.
  induction order as [|i order IH]; intros Hw; simpl; [lia|].
  destruct (Hw i) as (x&b&Hx&Hb&Hr); [set_solver|]. assert (0 ≤ b) as Hb0 by (rewrite Forall_lookup in Hbits; eauto).
  rewrite Hb, Hx; simpl. pose proof (total_bits_nonneg bits order Hbits). rewrite Z.pow_add_r by lia.
  destruct IH as [H1 H2]; [intros j Hj; apply Hw; set_solver|]. nia.
Qed.

End Slice.
