(* ===== verification/MemoryInv.v ===== *)
(** * The memory system's invariant

    The interface [MemLaws] of a standard to [Memory<T>], the coordinates
    [send] computes, and that every controller of a reachable memory is a
    reachable controller of its channel. *)

From S2P Require Import Prelude Request Dram DramTiming BankProtocol Device Controller CtrlQueries.
From S2P Require Import ControllerInv ControllerTick ControllerTheorems Memory MemoryMap.

(** What the address mapping needs of a standard: the columns are the level
    below the rows and the last one, and every count is a positive [int]. *)
Class MemLaws {L C S} `{!EqDecision L, !EqDecision C, !EqDecision S} (spec : Spec L C S) (pr : Proto L C S) : Prop := {
  ml_ctrl :: CtrlLaws spec pr;
  ml_row : (level_int spec (lvl_Row spec) + 2)%nat = level_MAX spec;
  ml_counts : Forall (λ c, 0 < c < 2 ^ 31) (count spec);
  ml_prefetch : 0 < prefetch_size spec < 2 ^ 31;
  ml_column c : count spec !! (level_MAX spec - 1)%nat = Some c → prefetch_size spec ≤ c;
  ml_burst : pow2_check (prefetch_size spec) = true;
  ml_width : 0 < channel_width spec ∧ channel_width spec `mod` 8 = 0
}.

Section Inv.
Context {L C S : Type} `{!EqDecision L, !EqDecision C, !EqDecision S}.
Variables (spec : Spec L C S) (pr : Proto L C S).
Context `{ML : !MemLaws spec pr}.

(** ** [addr_bits] *)
Lemma mapM_log2 l : Forall (λ c, 0 < c < 2 ^ 31) l → mapM calc_log2 l = Some (map Z.log2 l).
Proof.
  induction 1 as [|c l Hc Hl IH]; [done|]. simpl. rewrite calc_log2_ok by lia. simpl. by rewrite IH.
Qed.

(** The bits of each level: those of its count, less the burst for columns. *)
Lemma addr_bits_ok :
  ∃ bits, calc_addr_bits spec = Some bits ∧ length bits = level_MAX spec ∧
    ∀ k c, count spec !! k = Some c →
      bits !! k = Some (Z.log2 c - if decide (k = level_MAX spec - 1)%nat then Z.log2 (prefetch_size spec) else 0).
Proof.
  pose proof (ml_row (spec:=spec) (pr:=pr)). pose proof (count_len (spec:=spec)) as Hlen.
  unfold calc_addr_bits. rewrite (mapM_log2 _ (ml_counts (pr:=pr))). cbn [mbind option_bind].
  rewrite calc_log2_ok by (pose proof (ml_prefetch (spec:=spec) (pr:=pr)); lia). cbn [mbind option_bind].
  destruct (lookup_lt_is_Some_2 (count spec) (level_MAX spec - 1)) as [c Hc]; [lia|].
  rewrite list_lookup_fmap, Hc. simpl. eexists. split; [done|]. split; [by rewrite length_insert, length_map|].
  intros k c' Hk. case_decide as E.
  - subst k. rewrite list_lookup_insert_eq by (rewrite length_map; lia). congruence.
  - rewrite list_lookup_insert_ne by done. rewrite list_lookup_fmap, Hk. simpl. f_equal. lia.
Qed.

Lemma addr_bits_range bits k b :
  calc_addr_bits spec = Some bits → bits !! k = Some b → ∃ c, count spec !! k = Some c ∧ 0 ≤ b ∧ 2 ^ b ≤ c.
Proof.
  intros Hb Hk. destruct addr_bits_ok as (bits'&Hb'&Hlen&Hall). rewrite Hb in Hb'. injection Hb' as <-.
  assert (k < level_MAX spec)%nat as Hlt by (rewrite <-Hlen; by eapply lookup_lt_Some).
  destruct (lookup_lt_is_Some_2 (count spec) k) as [c Hc]; [by rewrite (count_len (spec:=spec))|].
  exists c. rewrite (Hall _ _ Hc) in Hk. injection Hk as <-.
  pose proof (ml_counts (spec:=spec) (pr:=pr)) as Hcs. rewrite Forall_lookup in Hcs. specialize (Hcs _ _ Hc). simpl in Hcs.
  pose proof (Z.log2_spec c ltac:(lia)) as [Hl _]. pose proof (Z.log2_nonneg c).
  case_decide as E; [|rewrite Z.sub_0_r; auto].
  pose proof (ml_prefetch (spec:=spec) (pr:=pr)). subst k. pose proof (ml_column _ Hc).
  pose proof (Z.log2_le_mono (prefetch_size spec) c ltac:(lia)). pose proof (Z.log2_nonneg (prefetch_size spec)).
  split_and!; [done|lia|]. etrans; [|exact Hl]. apply Z.pow_le_mono_r; lia.
Qed.

Lemma addr_bits_nonneg bits : calc_addr_bits spec = Some bits → Forall (λ b, 0 ≤ b) bits.
Proof. intros H. apply Forall_lookup. intros k b Hk. by destruct (addr_bits_range bits k b H Hk) as (?&?&?&_). Qed.

(** ** The order of the levels *)
Lemma slice_order_perm ty : slice_order spec ty (level_MAX spec) ≡ₚ seq 0 (level_MAX spec).
Proof.
  pose proof (ml_row (spec:=spec) (pr:=pr)) as Hr. unfold slice_order. destruct ty; [apply reverse_Permutation|].
  rewrite <-Hr. replace (level_int spec (lvl_Row spec) + 2)%nat with (Datatypes.S (level_int spec (lvl_Row spec) + 1)) by lia.
  simpl. constructor. rewrite seq_app, Nat.sub_0_r. simpl. rewrite Nat.add_comm. simpl.
  by rewrite <-Permutation_cons_append.
Qed.

Lemma slice_order_NoDup ty : NoDup (slice_order spec ty (level_MAX spec)).
Proof. rewrite slice_order_perm. apply NoDup_seq. Qed.

Lemma elem_of_slice_order ty i : i ∈ slice_order spec ty (level_MAX spec) ↔ (i < level_MAX spec)%nat.
Proof. rewrite slice_order_perm, elem_of_seq. lia. Qed.

(** ** The coordinates [send] computes *)
Lemma map_address_ok (m : Memory L C S) a :
  calc_addr_bits spec = Some (addr_bits m) → 0 ≤ tx_bits m →
  ∃ v, map_address spec m a [] = Some v ∧ length v = level_MAX spec ∧
    (∀ k b, addr_bits m !! k = Some b → ∃ x, v !! k = Some x ∧ 0 ≤ x < 2 ^ b) ∧
    join_levels (addr_bits m) (slice_order spec (mtype m) (level_MAX spec)) v =
      (a / 2 ^ tx_bits m) mod 2 ^ total_bits (addr_bits m) (slice_order spec (mtype m) (level_MAX spec)).
Proof.
  intros Hb Htx. destruct addr_bits_ok as (bits&Hb'&Hlen&_). rewrite Hb in Hb'. injection Hb' as <-.
  unfold map_address, clear_lower_bits, resize. rewrite Hlen, Z.shiftr_div_pow2 by done.
  destruct (slice_levels_ok (addr_bits m) (addr_bits_nonneg _ Hb) (slice_order spec (mtype m) (level_MAX spec))
    (a / 2 ^ tx_bits m) (take (level_MAX spec) [] ++ replicate (level_MAX spec - length (@nil Z)) 0))
    as (v&Hv&Hlv&_&Hin&Hj).
  - apply slice_order_NoDup.
  - intros i Hi%elem_of_slice_order. rewrite take_nil, length_app, length_replicate. simpl. lia.
  - exists v. split_and!; [done| | |done].
    + rewrite Hlv, take_nil, length_app, length_replicate. simpl. lia.
    + intros k b Hk. destruct (Hin k) as (x&b'&Hx&Hb'&Hr).
      { apply elem_of_slice_order. rewrite <-Hlen. by eapply lookup_lt_Some. }
      exists x. rewrite Hk in Hb'. by simplify_eq.
Qed.

Lemma map_address_join (m : Memory L C S) w :
  calc_addr_bits spec = Some (addr_bits m) → 0 ≤ tx_bits m → length w = level_MAX spec →
  (∀ k b, addr_bits m !! k = Some b → ∃ x, w !! k = Some x ∧ 0 ≤ x < 2 ^ b) →
  map_address spec m
    (join_levels (addr_bits m) (slice_order spec (mtype m) (level_MAX spec)) w * 2 ^ tx_bits m) [] = Some w.
Proof.
  intros Hb Htx Hw Hr. destruct addr_bits_ok as (bits&Hb'&Hlen&_). rewrite Hb in Hb'. injection Hb' as <-.
  unfold map_address, clear_lower_bits, resize. rewrite Hlen, Z.shiftr_div_pow2, Z.div_mul by lia.
  destruct (slice_join (addr_bits m) (addr_bits_nonneg _ Hb) (slice_order spec (mtype m) (level_MAX spec))
    (take (level_MAX spec) [] ++ replicate (level_MAX spec - length (@nil Z)) 0) w) as (v&Hv&Hlv&_&Hin).
  - apply slice_order_NoDup.
  - intros i Hi%elem_of_slice_order. rewrite take_nil, length_app, length_replicate. simpl. lia.
  - intros i Hi%elem_of_slice_order. destruct (lookup_lt_is_Some_2 (addr_bits m) i) as [b Hbi]; [lia|].
    destruct (Hr _ _ Hbi) as (x&?&?). eauto.
  - rewrite Hv. f_equal. apply list_eq. intros i. destruct (decide (i < level_MAX spec)%nat) as [Hi|Hi].
    + apply Hin. by apply elem_of_slice_order.
    + rewrite !lookup_ge_None_2; [done|lia|]. rewrite Hlv, take_nil, length_app, length_replicate. simpl. lia.
Qed.

(** The request that reaches a controller. *)
Lemma map_address_rw (m : Memory L C S) a v i :
  calc_addr_bits spec = Some (addr_bits m) → 0 ≤ tx_bits m →
  map_address spec m a [] = Some v → v !! 0%nat = Some i → rw_addr spec i v.
Proof.
  intros Hb Htx Hv Hi. destruct (map_address_ok m a Hb Htx) as (v'&Hv'&Hlen&Hr&_). rewrite Hv in Hv'. injection Hv' as <-.
  assert (∀ k, (k < level_MAX spec)%nat → ∃ x, v !! k = Some x ∧ 0 ≤ x < default 0 (count spec !! k)) as Hk.
  { intros k Hlt. destruct addr_bits_ok as (bits&Hb'&Hlb&_). rewrite Hb in Hb'. injection Hb' as <-.
    destruct (lookup_lt_is_Some_2 (addr_bits m) k) as [b Hbk]; [lia|]. destruct (Hr _ _ Hbk) as (x&Hx&Hxr).
    destruct (addr_bits_range _ _ _ Hb Hbk) as (c&Hc&_&Hle). exists x. rewrite Hc. simpl. split; [done|lia]. }
  pose proof (bp_levels spec pr). pose proof (row_lt (spec:=spec)).
  split_and!; [split; [done|]|split; [done|]|done].
  - intros k x Hx _. destruct (Hk k) as (y&Hy&?); [rewrite <-Hlen; by eapply lookup_lt_Some|]. simplify_eq. lia.
  - intros k Hlt. apply Hk. lia.
Qed.

(** ** The capacity *)

(** Coordinates inside the organisation; columns are counted in bursts. *)
Definition level_size (k : nat) (c : Z) : Z := if decide (k = level_MAX spec - 1)%nat then c / prefetch_size spec else c.
Definition in_org (v : list Z) : Prop :=
  length v = level_MAX spec ∧ ∀ k c, count spec !! k = Some c → ∃ x, v !! k = Some x ∧ 0 ≤ x < level_size k c.

Lemma prefetch_pow : prefetch_size spec = 2 ^ Z.log2 (prefetch_size spec).
Proof. apply pow2_check_log2; [apply ml_prefetch|apply ml_burst]. Qed.

Lemma level_size_bits bits k c b :
  calc_addr_bits spec = Some bits → count spec !! k = Some c → bits !! k = Some b →
  2 ^ b ≤ level_size k c ∧ (pow2_check c = true → level_size k c = 2 ^ b).
Proof.
  intros Hb Hc Hk. destruct addr_bits_ok as (bits'&Hb'&_&Hall). rewrite Hb in Hb'. injection Hb' as <-.
  rewrite (Hall _ _ Hc) in Hk. injection Hk as <-.
  pose proof (ml_counts (spec:=spec) (pr:=pr)) as Hcs. rewrite Forall_lookup in Hcs. pose proof (Hcs _ _ Hc). simpl in *.
  pose proof (Z.log2_spec c ltac:(lia)) as [Hl _]. rewrite pow2_check_log2 by lia. unfold level_size.
  pose proof (ml_prefetch (spec:=spec) (pr:=pr)). pose proof prefetch_pow as Hp. pose proof (Z.log2_nonneg (prefetch_size spec)).
  case_decide as E; [|rewrite Z.sub_0_r; done]. subst k. pose proof (ml_column _ Hc).
  pose proof (Z.log2_le_mono (prefetch_size spec) c ltac:(lia)). rewrite Z.pow_sub_r, <-Hp by lia. split.
  - by apply Z.div_le_mono; lia.
  - intros E. by rewrite <-E.
Qed.

(** ** Reachable memories *)

Inductive mem_reachable (channels : nat) : Memory L C S → Prop :=
| MReach_new n ty lpddr tr cacheline m :
    count spec !! 0%nat = Some (Z.of_nat channels) →
    populate_memory spec n ty lpddr tr cacheline channels = Some m → mem_reachable channels m
| MReach_send m req b m' :
    mem_reachable channels m → type req = READ ∨ type req = WRITE → addr_vec req = [] →
    is_first_command req = true → send spec req m = Some (b, m') → mem_reachable channels m'
| MReach_tick m done m' :
    mem_reachable channels m → mem_tick spec m = Some (done, m') → mem_reachable channels m'
| MReach_alloc m lrand a coreid x m' :
    mem_reachable channels m → page_allocator lrand a coreid m = Some (x, m') → mem_reachable channels m'
| MReach_record m k m' : mem_reachable channels m → mem_record_core k m = Some m' → mem_reachable channels m'.

(** The number of cores that the statistics count, and the sizes of their
    vectors. *)
Definition mem_cores (m : Memory L C S) : nat := length (num_read_requests (mstats m)).
Definition stats_sized (n channels : nat) (st : mem_stats) : Prop :=
  Forall (has_length n) [num_read_requests st; num_write_requests st; record_read_requests st; record_write_requests st] ∧
  Forall (has_length channels) [incoming_requests_per_channel st; incoming_read_reqs_per_channel st].
Abbreviation known m := (λ i, 0 ≤ i < Z.of_nat (mem_cores m)).

(** What does not change, and the controllers. *)
Record mem_inv (l : L) (channels : nat) (m : Memory L C S) : Prop := {
  mi_bits : calc_addr_bits spec = Some (addr_bits m);
  mi_tx : 0 ≤ tx_bits m;
  mi_burst : 2 ^ tx_bits m = Z.quot (prefetch_size spec * channel_width spec) 8;
  mi_capacity : max_address m = calc_max_address spec;
  mi_channels : count spec !! 0%nat = Some (Z.of_nat channels);
  mi_length : length (ctrls m) = channels;
  mi_ctrls j c : ctrls m !! j = Some c → ctrl_reachable spec l (Z.of_nat j) c;
  mi_sized : stats_sized (mem_cores m) channels (mstats m);
  mi_cores j c : ctrls m !! j = Some c → cores_ok (mem_cores m) (known m) c
}.

(** The bits of an address, against the capacity. *)
Lemma capacity_ok l channels m :
  mem_inv l channels m →
  let total := total_bits (addr_bits m) (slice_order spec (mtype m) (level_MAX spec)) in
  0 ≤ total ∧ 2 ^ (tx_bits m + total) ≤ max_address m ∧
  (2 ^ (tx_bits m + total) = max_address m ↔ forallb pow2_check (count spec) = true).
Proof.
  intros [Hbits Htx Hbu Hcap _ _ _ _ _] total. rewrite Hcap. unfold calc_max_address. rewrite foldl_product.
  destruct (product_log2 (count spec)) as (H1&H2&H3).
  { eapply Forall_impl; [apply (ml_counts (pr:=pr))|]. simpl. lia. }
  destruct (ml_width (spec:=spec) (pr:=pr)) as [Hw Hm]. pose proof prefetch_pow as Hp.
  pose proof (Z.log2_nonneg (prefetch_size spec)). apply Z.mod_divide in Hm as [w Hm]; [|done].
  rewrite Hm in Hbu |- *. rewrite Z.mul_assoc, Z.quot_mul in Hbu by done. rewrite Z.quot_mul by done.
  assert (0 ≤ total) as Hpos by (apply total_bits_nonneg, addr_bits_nonneg, Hbits).
  assert (total = foldr Z.add 0 (map Z.log2 (count spec)) - Z.log2 (prefetch_size spec)) as Ht.
  { unfold total. rewrite (total_bits_perm _ _ _ (slice_order_perm (mtype m))).
    destruct addr_bits_ok as (bits&Hb&Hlen&_). rewrite Hb in Hbits. injection Hbits as <-. rewrite total_bits_seq by done.
    unfold calc_addr_bits in Hb. run_opt. rewrite (mapM_log2 _ (ml_counts (pr:=pr))) in *. simplify_eq.
    rewrite calc_log2_ok in * by (pose proof (ml_prefetch (spec:=spec) (pr:=pr)); lia). simplify_eq.
    erewrite sum_insert by done. lia. }
  assert (2 ^ (tx_bits m + total) = w * 2 ^ foldr Z.add 0 (map Z.log2 (count spec))) as ->.
  { rewrite Z.pow_add_r, Hbu, Ht by done.
    replace (foldr Z.add 0 (map Z.log2 (count spec))) with
      (Z.log2 (prefetch_size spec) + (foldr Z.add 0 (map Z.log2 (count spec)) - Z.log2 (prefetch_size spec))) at 2 by lia.
    rewrite Z.pow_add_r, <-Hp by lia. lia. }
  rewrite <-H3. split_and!; [done|nia|]. split; [nia|by intros ->].
Qed.

(** Every address is mapped inside the organisation. *)
Lemma map_address_org l channels m a :
  mem_inv l channels m →
  ∃ v, map_address spec m a [] = Some v ∧ in_org v ∧
    join_levels (addr_bits m) (slice_order spec (mtype m) (level_MAX spec)) v * 2 ^ tx_bits m + a mod 2 ^ tx_bits m =
      a mod 2 ^ (tx_bits m + total_bits (addr_bits m) (slice_order spec (mtype m) (level_MAX spec))).
Proof.
  intros Hinv. pose proof (mi_bits _ _ _ Hinv) as Hb. pose proof (mi_tx _ _ _ Hinv) as Htx.
  destruct (capacity_ok l channels m Hinv) as [Ht _]. destruct (map_address_ok m a Hb Htx) as (v&Hv&Hlv&Hr&Hj).
  exists v. split; [done|]. split; [split; [done|]|rewrite Hj, Z.pow_add_r, Z.rem_mul_r by lia; lia].
  intros k c Hc. destruct (lookup_lt_is_Some_2 (addr_bits m) k) as [b Hbk].
  { destruct addr_bits_ok as (bits&Hb'&Hlen&_). rewrite Hb in Hb'. injection Hb' as <-.
    rewrite Hlen, <-(count_len (spec:=spec)). by eapply lookup_lt_Some. }
  destruct (Hr _ _ Hbk) as (x&Hx&?). exists x. split; [done|]. destruct (level_size_bits _ _ _ _ Hb Hc Hbk). lia.
Qed.

(** Coordinates inside the organisation of powers of two fit the bits. *)
Lemma in_org_bits l channels m w :
  mem_inv l channels m → forallb pow2_check (count spec) = true → in_org w →
  ∀ k b, addr_bits m !! k = Some b → ∃ x, w !! k = Some x ∧ 0 ≤ x < 2 ^ b.
Proof.
  intros Hinv Hp [_ Hr] k b Hk. pose proof (mi_bits _ _ _ Hinv) as Hb.
  destruct (addr_bits_range _ _ _ Hb Hk) as (c&Hc&_). destruct (Hr _ _ Hc) as (x&Hx&?). exists x. split; [done|].
  rewrite forallb_forall in Hp. destruct (level_size_bits _ _ _ _ Hb Hc Hk) as [_ <-]; [done|].
  apply Hp, list_elem_of_In. by eapply list_elem_of_lookup_2.
Qed.

Lemma join_address_bound l channels m w :
  mem_inv l channels m → (∀ k b, addr_bits m !! k = Some b → ∃ x, w !! k = Some x ∧ 0 ≤ x < 2 ^ b) →
  let order := slice_order spec (mtype m) (level_MAX spec) in
  0 ≤ join_levels (addr_bits m) order w * 2 ^ tx_bits m < 2 ^ (tx_bits m + total_bits (addr_bits m) order).
Proof.
  intros Hinv Hr order. pose proof (mi_bits _ _ _ Hinv) as Hb. pose proof (mi_tx _ _ _ Hinv) as Htx.
  destruct (capacity_ok l channels m Hinv) as [Ht _]. fold order in Ht. rewrite Z.pow_add_r by lia.
  pose proof (Z.pow_pos_nonneg 2 (tx_bits m)). assert (0 ≤ join_levels (addr_bits m) order w < 2 ^ total_bits (addr_bits m) order); [|nia].
  apply join_levels_bound; [by apply addr_bits_nonneg|]. intros i Hi%elem_of_slice_order.
  destruct addr_bits_ok as (bits&Hb'&Hlen&_). rewrite Hb in Hb'. injection Hb' as <-.
  destruct (lookup_lt_is_Some_2 (addr_bits m) i) as [b Hbi]; [lia|]. destruct (Hr _ _ Hbi) as (x&?&?). eauto.
Qed.

(** Addresses with the same low bits share their coordinates. *)
Lemma map_address_cong l channels m a b :
  mem_inv l channels m →
  let span := tx_bits m + total_bits (addr_bits m) (slice_order spec (mtype m) (level_MAX spec)) in
  a mod 2 ^ span = b mod 2 ^ span → map_address spec m a [] = map_address spec m b [].
Proof.
  intros Hinv span E. pose proof (mi_bits _ _ _ Hinv) as Hb. pose proof (mi_tx _ _ _ Hinv) as Htx.
  destruct (capacity_ok l channels m Hinv) as [Ht _]. assert (0 ≤ span - tx_bits m) by (unfold span; lia).
  assert (∀ c, (c / 2 ^ tx_bits m) mod 2 ^ (span - tx_bits m) = (c mod 2 ^ span) / 2 ^ tx_bits m) as Hd.
  { intros c. replace (2 ^ span) with (2 ^ tx_bits m * 2 ^ (span - tx_bits m)) by (rewrite <-Z.pow_add_r by lia; f_equal; lia).
    pose proof (Z.pow_pos_nonneg 2 (tx_bits m)). pose proof (Z.pow_pos_nonneg 2 (span - tx_bits m)).
    pose proof (Z.mod_pos_bound c (2 ^ tx_bits m)). rewrite Z.rem_mul_r by lia.
    rewrite (Z.mul_comm (2 ^ tx_bits m)), Z.div_add by lia.
    rewrite (Z.div_small (c mod _)) by lia. lia. }
  destruct (map_address_ok m a Hb Htx) as (v&Hv&Hlv&Hrv&Hjv), (map_address_ok m b Hb Htx) as (w&Hw&Hlw&Hrw&Hjw).
  pose proof (map_address_join m v Hb Htx Hlv Hrv) as Ev. pose proof (map_address_join m w Hb Htx Hlw Hrw) as Ew.
  replace (total_bits (addr_bits m) _) with (span - tx_bits m) in Hjv, Hjw by (unfold span; lia).
  rewrite Hd in Hjv, Hjw. rewrite Hjv, E in Ev. rewrite Hjw in Ew. rewrite Hv, Hw. congruence.
Qed.

(** The vectors of the memory. *)
Lemma count_request_ok n channels req ch st :
  stats_sized n channels st → addr_vec req !! 0%nat = Some ch → 0 ≤ ch < Z.of_nat channels → is_rw (type req) = true →
  if in_range n (coreid req)
  then ∃ st', count_request req st = Some st' ∧ stats_sized n channels st' ∧
    length (num_read_requests st') = length (num_read_requests st)
  else count_request req st = None.
Proof.
  intros [H1 H2] Hch Hr Hrw. unfold stats_sized in *. rewrite !Forall_cons in H1. rewrite !Forall_cons in H2. destruct H1 as (A1&A2&A3&A4&_), H2 as (B1&B2&_).
  assert (in_range channels ch = true) as Hin by (by apply in_range_true).
  pose proof (bump_ok channels _ ch B1) as E1. pose proof (bump_ok channels _ ch B2) as E2. rewrite Hin in E1, E2.
  destruct E1 as (w1&E1&L1), E2 as (w2&E2&L2). unfold count_request. rewrite Hch. simpl.
  pose proof (bump_ok n _ (coreid req) A1) as E3. pose proof (bump_ok n _ (coreid req) A2) as E4.
  destruct (type req); try done; simpl; rewrite ?E2; simpl.
  - destruct (in_range n (coreid req)); [|by rewrite E3]. destruct E3 as (v&->&Lv). simpl. rewrite E1. simpl. eexists. split; [done|].
    split; [by split; repeat constructor|]. unfold has_length in *. simpl. congruence.
  - destruct (in_range n (coreid req)); [|by rewrite E4]. destruct E4 as (v&->&Lv). simpl. rewrite E1. simpl. eexists. split; [done|].
    split; [by split; repeat constructor|done].
Qed.

Lemma populate_inv l n ty lpddr tr cacheline channels m :
  level_cast spec 0 = Some l → count spec !! 0%nat = Some (Z.of_nat channels) →
  populate_memory spec n ty lpddr tr cacheline channels = Some m → mem_inv l channels m ∧ mem_cores m = n.
Proof.
  intros Hl Hch H. unfold populate_memory in H. rewrite Hl in H; simpl in H. run_opt.
  match goal with H : mapM _ _ = Some ?x |- _ => apply mapM_Some_1 in H; rename H into Hm; rename x into cs end.
  unfold new_memory in H. run_opt.
  match goal with |- mem_inv _ _ ?x ∧ _ => set (m := x); assert (mem_cores m = n) as En by apply length_replicate end.
  assert (∀ j c, cs !! j = Some c → ∃ d, new_channel spec l (Z.of_nat j) = Some d ∧ c = new_controller n d) as Hcs.
  { intros j c Hj. destruct (Forall2_lookup_r _ _ _ _ _ Hm Hj) as (k&Hk&Hc). apply lookup_seq in Hk as [-> _].
    simpl in Hc. apply bind_Some in Hc as (d&Hd&[= <-]). by exists d. }
  split; [|done]. assert (∀ val k, calc_log2 val = Some k → (Z.shiftl 1 k =? val) = true → 2 ^ k = val) as Hpow.
  { intros val k Hx%calc_log2_nonneg E%Z.eqb_eq. by rewrite <-E, Z.shiftl_mul_pow2, Z.mul_1_l. }
  split; rewrite ?En; simpl; [done|by eapply calc_log2_nonneg|by apply Hpow|done|done| | | |].
  - apply Forall2_length in Hm. by rewrite length_seq in Hm.
  - intros j c Hj. destruct (Hcs j c Hj) as (d&Hd&->). by apply CReach_new.
  - match goal with H : count spec !! 0%nat = Some ?x |- _ => rewrite Hch in H; injection H as <- end. rewrite Nat2Z.id.
    split; repeat constructor; apply length_replicate.
  - intros j c Hj. destruct (Hcs j c Hj) as (d&Hd&->). apply cores_new.
Qed.

(** *** [send] *)
Lemma requests_insert (cs : list (Controller L C S)) j c c' n :
  cs !! j = Some c →
  foldl (λ n c, n + ctrl_requests c) n (<[j:=c']> cs) =
  foldl (λ n c, n + ctrl_requests c) n cs + ctrl_requests c' - ctrl_requests c.
Proof.
  assert (∀ (l : list (Controller L C S)) n k, foldl (λ n c, n + ctrl_requests c) (n + k) l =
    foldl (λ n c, n + ctrl_requests c) n l + k) as Hshift.
  { induction l as [|x l IH]; intros k1 k2; simpl; [done|]. rewrite <-IH. f_equal. lia. }
  revert j n. induction cs as [|x cs IH]; intros [|j] n Hj; simplify_eq/=; [|by apply IH].
  rewrite !Hshift. lia.
Qed.

Lemma enqueue_requests req (c : Controller L C S) :
  ctrl_requests (snd (enqueue req c)) = ctrl_requests c + if fst (enqueue req c) then 1 else 0.
Proof.
  unfold enqueue, accept, ctrl_requests. case_match; simpl; [lia|]. unfold qsize.
  destruct (type req) eqn:E; simpl; [|rewrite ?E; simpl; rewrite length_app; simpl; lia..].
  destruct (existsb _ _); simpl; [rewrite removelast_last|]; rewrite length_app; simpl; lia.
Qed.

Lemma cores_known m m' (c : Controller L C S) : mem_cores m' = mem_cores m → cores_ok (mem_cores m) (known m) c → cores_ok (mem_cores m') (known m') c.
Proof. by intros ->. Qed.

(** Where [send] takes a request, and what [enqueue] does there. *)
Lemma send_target l channels m req :
  level_cast spec 0 = Some l → mem_inv l channels m → type req = READ ∨ type req = WRITE → addr_vec req = [] →
  is_first_command req = true →
  ∃ v ch c req', map_address spec m (addr req) [] = Some v ∧ v !! 0%nat = Some ch ∧ 0 ≤ ch < Z.of_nat channels ∧
    ctrls m !! Z.to_nat ch = Some c ∧ addr_vec req' = v ∧ type req' = type req ∧ coreid req' = coreid req ∧
    send spec req m = ('(ok, c) ← Some (enqueue req' c);
      let m := set_ctrls (<[Z.to_nat ch := c]> (ctrls m)) m in
      if (ok : bool) then st ← count_request req' (mstats m); Some (true, set_mstats st m) else Some (false, m)) ∧
    ctrl_reachable spec l ch (snd (enqueue req' c)) ∧
    fst (enqueue req' c) = (qsize (queue_of (get_queue (type req)) c) <? qmax (queue_of (get_queue (type req)) c)).
Proof.
  intros Hl [Hbits Htx _ _ Hch Hlen Hcs _ _] Hty Hv Hf. unfold send. simpl. rewrite Hv.
  destruct (map_address_ok m (addr req) Hbits Htx) as (v&Hm&Hlv&Hr&_). rewrite Hm; simpl.
  pose proof (ml_row (spec:=spec) (pr:=pr)). destruct (lookup_lt_is_Some_2 v 0) as [ch Hch0]; [lia|]. rewrite Hch0; simpl.
  destruct addr_bits_ok as (bits&Hb'&Hlb&_). rewrite Hbits in Hb'. injection Hb' as <-.
  destruct (lookup_lt_is_Some_2 (addr_bits m) 0) as [b0 Hb0]; [lia|]. destruct (Hr _ _ Hb0) as (x&Hx&Hxr).
  destruct (addr_bits_range _ _ _ Hbits Hb0) as (cnt&Hcnt&_&Hle).
  assert (x = ch) as -> by congruence. assert (cnt = Z.of_nat channels) as -> by congruence.
  rewrite zlookup_nat by lia. destruct (lookup_lt_is_Some_2 (ctrls m) (Z.to_nat ch)) as [c Hc]; [lia|]. rewrite Hc; simpl.
  set (req' := set_addr_vec v _). assert (rw_addr spec ch v) as Hrw by (by eapply (map_address_rw m (addr req))).
  assert (ctrl_reachable spec l ch c) as Hcr by (rewrite <-(Z2Nat.id ch) by lia; eauto).
  exists v, ch, c, req'. split_and!; try done; [lia|lia| |].
  - apply CReach_enqueue; [done|exact Hty|exact Hrw|exact Hf].
  - apply (enqueue_ok spec pr ch (cmd_trace c) c req'); [by apply (ctrl_reachable_inv spec pr l)| |done].
    unfold request_wf. simpl. by destruct Hty as [-> | ->].
Qed.

(** The memory after [enqueue]: a request that was accepted is of a known core. *)
Lemma send_inv l channels m ch c req' st :
  mem_inv l channels m → 0 ≤ ch → ctrls m !! Z.to_nat ch = Some c → ctrl_reachable spec l ch (snd (enqueue req' c)) →
  fst (enqueue req' c) = false ∨ known m (coreid req') →
  stats_sized (mem_cores m) channels st → length (num_read_requests st) = mem_cores m →
  mem_inv l channels (set_mstats st (set_ctrls (<[Z.to_nat ch := snd (enqueue req' c)]> (ctrls m)) m)).
Proof.
  intros [Hbits Htx Hbu Hcap Hch Hlen Hcs Hsz Hco] Hpos Hc Hcr Hk Hst Hn. set (m' := set_mstats _ _).
  assert (mem_cores m' = mem_cores m) as En by done.
  split; try done; [by simpl; rewrite length_insert| |by rewrite En|]; intros j c0 Hj;
    apply list_lookup_insert_Some in Hj as [(<-&<-&_)|[_ Hj]]; [by rewrite Z2Nat.id by lia|by apply Hcs| |].
  - apply (cores_known m m'); [done|]. specialize (Hco _ _ Hc).
    destruct Hk as [Hk|Hk]; [|apply cores_enqueue; [done|by intros _]].
    unfold enqueue in *. by case_match.
  - apply (cores_known m m'); [done|]. by apply (Hco j).
Qed.

Lemma send_ok l channels m req :
  level_cast spec 0 = Some l → mem_inv l channels m → type req = READ ∨ type req = WRITE → addr_vec req = [] →
  is_first_command req = true →
  ∃ v ch c, map_address spec m (addr req) [] = Some v ∧ v !! 0%nat = Some ch ∧ ctrls m !! Z.to_nat ch = Some c ∧
    let b := qsize (queue_of (get_queue (type req)) c) <? qmax (queue_of (get_queue (type req)) c) in
    if b && negb (in_range (mem_cores m) (coreid req)) then send spec req m = None
    else ∃ m', send spec req m = Some (b, m') ∧ mem_inv l channels m' ∧ mem_cores m' = mem_cores m ∧
      pending_requests m' = pending_requests m + (if b then 1 else 0).
Proof.
  intros Hl Hinv Hty Hv Hf. destruct (send_target l channels m req Hl Hinv Hty Hv Hf)
    as (v&ch&c&req'&Hm&Hch0&Hchr&Hc&Ev&Et&Ek&->&Hcr&Hb). exists v, ch, c. split_and!; [done..|].
  pose proof (enqueue_requests req' c) as Hreq. rewrite <-Hb. intros b. subst b.
  assert (∀ st, pending_requests (set_mstats st (set_ctrls (<[Z.to_nat ch := snd (enqueue req' c)]> (ctrls m)) m)) =
    pending_requests m + if fst (enqueue req' c) then 1 else 0) as Hp.
  { intros st. unfold pending_requests. simpl. rewrite (requests_insert _ _ c) by done. lia. }
  pose proof (count_request_ok (mem_cores m) channels req' ch (mstats m) (mi_sized _ _ _ Hinv)) as Hst.
  rewrite Ev, Et, Ek in Hst. specialize (Hst Hch0 Hchr). assert (is_rw (type req) = true) as Hrw by (by destruct Hty as [-> | ->]).
  specialize (Hst Hrw). pose proof (λ st, send_inv l channels m ch c req' st Hinv (proj1 Hchr) Hc Hcr) as Hi. rewrite Ek in Hi.
  destruct (enqueue req' c) as [b c']. simpl in *. destruct b; simpl.
  - destruct (in_range (mem_cores m) (coreid req)) eqn:E; simpl; [|by rewrite Hst]. destruct Hst as (st&->&Hs&Hn). simpl.
    eexists. split; [done|]. split_and!; [apply Hi|done|apply Hp]; try done. right. by apply in_range_true.
  - eexists. split; [done|]. specialize (Hi (mstats m)). specialize (Hp (mstats m)).
    replace (set_ctrls _ m) with (set_mstats (mstats m) (set_ctrls (<[Z.to_nat ch:=c']> (ctrls m)) m)) by by destruct m.
    split_and!; [apply Hi|done|apply Hp]; try done; [by left|apply Hinv].
Qed.

(** *** [tick] *)
Lemma tick_ctrls_Some cs acc res :
  foldM (λ acc c, '(done, c) ← tick spec c; Some (fst acc ++ done, snd acc ++ [c])) acc cs = Some res →
  ∃ cs', snd res = snd acc ++ cs' ∧ Forall2 (λ c c', ∃ done, tick spec c = Some (done, c')) cs cs'.
Proof.
  revert acc. induction cs as [|c cs IH]; intros acc H; simpl in H; [simplify_eq; exists []; by rewrite app_nil_r|].
  destruct (tick spec c) as [[dn c']|] eqn:Ht; simpl in H; [|done].
  destruct (IH _ H) as (cs'&E&HF). exists (c' :: cs'). simpl in E. rewrite <-app_assoc in E. split; [done|].
  constructor; eauto.
Qed.

Lemma tick_ctrls_None cs acc :
  foldM (λ acc c, '(done, c) ← tick spec c; Some (fst acc ++ done, snd acc ++ [c])) acc cs = None ↔
  Exists (λ c, tick spec c = None) cs.
Proof.
  revert acc. induction cs as [|c cs IH]; intros acc; simpl; [rewrite Exists_nil; done|]. rewrite Exists_cons.
  destruct (tick spec c) as [[dn c']|] eqn:Ht; simpl; [rewrite IH; naive_solver|]. tauto.
Qed.

Lemma mem_tick_inv l channels m done m' :
  mem_inv l channels m → mem_tick spec m = Some (done, m') → mem_inv l channels m' ∧ mem_cores m' = mem_cores m.
Proof.
  intros [Hbits Htx Hbu Hcap Hch Hlen Hcs Hsz Hco] H. unfold mem_tick, tick_ctrls in H.
  destruct (foldM _ _ (ctrls m)) as [[done' cs']|] eqn:Hf; simpl in H; simplify_eq.
  apply tick_ctrls_Some in Hf as (cs''&E&HF). simpl in E. subst cs'.
  split; [|done]. split; simpl; try done; [by apply Forall2_length in HF| |]; intros j c Hj;
    destruct (Forall2_lookup_r _ _ _ _ _ HF Hj) as (c0&Hc0&d&Ht).
  - eapply CReach_tick; [|done]. eauto.
  - eapply cores_tick; [|done]. by apply (Hco j).
Qed.

(** The cycle of a controller of the memory: the requests it serves are of
    known cores. *)
Lemma known_tick_ok l channels m j c :
  level_cast spec 0 = Some l → mem_inv l channels m → ctrls m !! j = Some c →
  if due spec c && (room OtherQ c <? Z.of_nat (child_count spec 0)) then tick spec c = None else is_Some (tick spec c).
Proof.
  intros Hl Hinv Hj. pose proof (mi_cores _ _ _ Hinv _ _ Hj) as Hco.
  pose proof (tick_ok spec pr _ _ _ c (ctrl_reachable_inv spec pr l _ c Hl (mi_ctrls _ _ _ Hinv j c Hj)) (proj1 Hco)) as Hok.
  rewrite served_counted, orb_false_r in Hok by done. destruct (_ && _); [done|]. destruct Hok as (?&?&?&->&_). by eexists.
Qed.

Lemma page_allocator_frame lrand a coreid (m m' : Memory L C S) x :
  page_allocator lrand a coreid m = Some (x, m') →
  addr_bits m' = addr_bits m ∧ tx_bits m' = tx_bits m ∧ ctrls m' = ctrls m ∧ max_address m' = max_address m ∧
  ∀ n channels, stats_sized n channels (mstats m) → stats_sized n channels (mstats m') ∧ mem_cores m' = mem_cores m.
Proof.
  unfold page_allocator. intros H. destruct (translation m).
  - case_match; by simplify_eq/=.
  - apply bind_Some in H as ([p m1]&H1&H2). injection H2 as <- <-. case_match; [by simplify_eq|].
    destruct (pick_page _ _ _) as [[p' t']|]; by simplify_eq/=.
Qed.

Lemma mem_record_ok l channels m k :
  mem_inv l channels m →
  if in_range (mem_cores m) k
  then ∃ m', mem_record_core k m = Some m' ∧ mem_inv l channels m' ∧ mem_cores m' = mem_cores m
  else mem_record_core k m = None.
Proof.
  intros [Hbits Htx Hbu Hcap Hch Hlen Hcs Hsz Hco]. unfold mem_record_core.
  destruct (id Hsz) as [H1 H2]. rewrite !Forall_cons in H1. destruct H1 as (A1&A2&A3&A4&_).
  pose proof (at_core_ok _ _ _ k A1 A3) as E1. pose proof (at_core_ok _ _ _ k A2 A4) as E2.
  destruct (in_range (mem_cores m) k) eqn:Ek; [|by rewrite E1]. destruct E1 as (v&->&Lv), E2 as (w&->&Lw). simpl.
  assert (∃ cs, mapM (record_core k) (ctrls m) = Some cs) as [cs Hm].
  { apply mapM_is_Some_2, Forall_lookup. intros j c Hj.
    pose proof (record_core_ok (mem_cores m) k c (proj1 (Hco j c Hj))) as Hr. rewrite Ek in Hr. destruct Hr as (r&Hr&_). by eexists. }
  rewrite Hm. simpl. eexists. split; [done|]. split; [|done]. apply mapM_Some_1 in Hm. apply Forall2_length in Hm as Hl'.
  split; simpl; try done; [lia| | |].
  - intros j c Hj. destruct (Forall2_lookup_r _ _ _ _ _ Hm Hj) as (c0&Hc0&Hr). eapply CReach_record; [|done]. eauto.
  - split; [|exact H2]. by repeat constructor.
  - intros j c Hj. destruct (Forall2_lookup_r _ _ _ _ _ Hm Hj) as (c0&Hc0&Hr). eapply cores_record; [|done]. by apply (Hco j).
Qed.

Lemma mem_reachable_inv l channels m :
  level_cast spec 0 = Some l → mem_reachable channels m → mem_inv l channels m.
Proof.
  intros Hl. induction 1 as [n ty lpddr tr cl m Hch Hm|m req b m' _ IH Hty Hv Hf Hs|m done m' _ IH Ht|m lr a core x m' _ IH Hp|m k m' _ IH Hk].
  - by eapply populate_inv.
  - destruct (send_ok l channels m req) as (?&?&?&_&_&_&Hok); try done. cbv zeta in Hok. case_match; [congruence|].
    destruct Hok as (m''&Hs'&Hinv&_). rewrite Hs in Hs'. by simplify_eq.
  - by eapply mem_tick_inv.
  - destruct IH as [H1 H2 H3 H4 H5 H6 H7 H8 H9]. apply page_allocator_frame in Hp as (E1&E2&E3&E4&E5).
    destruct (E5 _ _ H8) as [E6 E7]. split; rewrite ?E1, ?E2, ?E3, ?E4, ?E7; done.
  - pose proof (mem_record_ok l channels m k IH) as Hr. rewrite Hk in Hr. case_match; [|done]. by destruct Hr as (m''&[= ->]&?&_).
Qed.

End Inv.
