(* ===== verification/MemoryTheorems.v ===== *)
(** * Theorems on the memory system

    Address mapping, the memory as a whole, and the page allocator, for every
    standard with the laws [MemLaws]; the witnesses use the DDR3 channel of
    [DeviceTheorems] and a LPDDR4 memory. *)

From S2P Require Import Prelude Request Dram DramTiming BankProtocol Device Standard Controller CtrlQueries.
From S2P Require Import ControllerInv ControllerTick ControllerTheorems CtrlQueries Memory MemoryMap MemoryInv.
From S2P Require Import SpecDDR3 SpecLPDDR4 DeviceTheorems.

Section Claims.
Context {L C S : Type} `{!EqDecision L, !EqDecision C, !EqDecision S}.
Variables (spec : Spec L C S) (pr : Proto L C S).

(** C15: the address mapping of a reachable memory, for both mapping types.
    Every address is mapped to coordinates inside the organisation (columns
    counted in bursts), which give back the address modulo the power of two
    that the address bits span.  When all the counts of the organisation are
    powers of two, that span is the capacity: the mapping is a bijection
    between the transactions below the capacity and the coordinates of the
    organisation, every address below the capacity is recovered exactly and
    every vector of coordinates inside the organisation is the image of the
    address it determines.  When some count is not a power of two (6 Gb and
    12 Gb LPDDR dies), the mapping is not injective: the first transaction
    shares its coordinates with another one below the capacity. *)
Theorem address_mapping_roundtrip `{!MemLaws spec pr} l channels (m : Memory L C S) :
  level_cast spec 0 = Some l → mem_reachable spec channels m →
  let order := slice_order spec (mtype m) (level_MAX spec) in
  let to_address w := join_levels (addr_bits m) order w * 2 ^ tx_bits m in
  (∀ a, ∃ v, map_address spec m a [] = Some v ∧ in_org spec v ∧
     to_address v + a mod 2 ^ tx_bits m = a mod 2 ^ (tx_bits m + total_bits (addr_bits m) order)) ∧
  if forallb pow2_check (count spec)
  then (∀ a v, 0 ≤ a < max_address m → map_address spec m a [] = Some v → to_address v + a mod 2 ^ tx_bits m = a) ∧
       (∀ w, in_org spec w → 0 ≤ to_address w < max_address m ∧ map_address spec m (to_address w) [] = Some w)
  else ∃ a, 2 ^ tx_bits m ≤ a < max_address m ∧ map_address spec m a [] = map_address spec m 0 [].
Proof.
  intros Hl Hm order to_address. pose proof (mem_reachable_inv spec pr l channels m Hl Hm) as Hinv.
  pose proof (λ a, map_address_org spec pr l channels m a Hinv) as Hmap. split; [exact Hmap|].
  destruct (capacity_ok spec pr l channels m Hinv) as (Ht&Hle&Hiff). fold order in Ht, Hle, Hiff.
  pose proof (mi_bits _ _ _ _ Hinv) as Hb. pose proof (mi_tx _ _ _ _ Hinv) as Htx.
  destruct (forallb pow2_check (count spec)) eqn:Hp.
  - rewrite <-(proj2 Hiff eq_refl). split.
    + intros a v Ha Hv. destruct (Hmap a) as (v'&Hv'&_&E). rewrite Hv in Hv'. injection Hv' as <-.
      fold order in E. by rewrite (Z.mod_small a _ Ha) in E.
    + intros w Hw. pose proof (in_org_bits spec pr l channels m w Hinv Hp Hw) as Hr.
      split; [|apply (map_address_join spec pr); try done; apply Hw].
      by apply (join_address_bound spec pr l channels).
  - assert (2 ^ (tx_bits m + total_bits (addr_bits m) order) ≠ max_address m) by (by intros E%Hiff).
    exists (2 ^ (tx_bits m + total_bits (addr_bits m) order)). split; [split; [apply Z.pow_le_mono_r; lia|lia]|].
    apply (map_address_cong spec pr l channels m); [done|]. fold order. by rewrite Z.mod_same, Z.mod_0_l by (apply Z.pow_nonzero; lia).
Qed.

(** C16: the whole memory is safe: a reachable memory has one controller for
    each channel, and the trace of every controller obeys all timing constraints
    of the standard, at most one command per cycle. *)
Theorem memory_traces_legal `{!MemLaws spec pr} l channels m :
  level_cast spec 0 = Some l → mem_reachable spec channels m →
  length (ctrls m) = channels ∧
  ∀ j c, ctrls m !! j = Some c →
    nid (info (channel c)) = Z.of_nat j ∧ legal_history spec (cmd_trace c).
Proof.
  intros Hl Hm. destruct (mem_reachable_inv spec pr l channels m Hl Hm) as [_ _ _ _ _ Hlen Hcs _ _]. split; [done|].
  intros j c Hj. pose proof (ctrl_reachable_inv spec pr l _ c Hl (Hcs j c Hj)) as Hinv. split; [eapply chan_id, Hinv|].
  apply (chan_legal _ _ _ _ _ _ _ (ci_chan _ _ _ _ _ Hinv)).
Qed.

(** C17: [send] hands the request to the controller of the channel that the
    address maps to, whatever the address, and that controller accepts it
    exactly when its queue has room.  The one abort is the range assertion of
    the statistics per core, which are updated for an accepted request:
    [send] aborts exactly when the queue has room and [coreid] is not one of
    the cores that the memory was built for.  Otherwise it answers whether
    there was room, and the number of requests in the memory grows by one
    exactly when there was. *)
Theorem send_returns `{!MemLaws spec pr} l channels m req :
  level_cast spec 0 = Some l → mem_reachable spec channels m →
  type req = READ ∨ type req = WRITE → addr_vec req = [] → is_first_command req = true →
  ∃ v ch c, map_address spec m (addr req) [] = Some v ∧ v !! 0%nat = Some ch ∧ ctrls m !! Z.to_nat ch = Some c ∧
    let b := qsize (queue_of (get_queue (type req)) c) <? qmax (queue_of (get_queue (type req)) c) in
    (send spec req m = None ↔ b = true ∧ ¬ 0 ≤ coreid req < Z.of_nat (mem_cores m)) ∧
    ∀ b' m', send spec req m = Some (b', m') →
      b' = b ∧ mem_reachable spec channels m' ∧ mem_cores m' = mem_cores m ∧
      pending_requests m' = pending_requests m + (if b then 1 else 0).
Proof.
  intros Hl Hm Hty Hv Hf. pose proof (mem_reachable_inv spec pr l channels m Hl Hm) as Hinv.
  destruct (send_ok spec pr l channels m req) as (v&ch&c&Hmap&Hch&Hc&Hok); try done. exists v, ch, c. split_and!; [done..|].
  cbv zeta in *. set (b := _ <? _) in *. rewrite <-in_range_true. destruct (b && negb _) eqn:E.
  - apply andb_prop in E as [-> ->%negb_true_iff]. rewrite Hok. done.
  - destruct Hok as (m'&Hs&_&Hn&Hp). rewrite Hs. split.
    + split; [done|]. intros [-> Hr]. apply not_true_is_false in Hr. by rewrite Hr in E.
    + intros b' m'' [= <- <-]. split_and!; try done. by eapply MReach_send.
Qed.

(** A cycle of a reachable memory aborts exactly when the refreshes of
    some channel are due and do not fit in its queue; otherwise every
    controller advances by one cycle.  (The cores of all the requests it can
    serve were in range when they were accepted.) *)
Theorem memory_tick_aborts_iff `{!MemLaws spec pr} l channels m :
  level_cast spec 0 = Some l → mem_reachable spec channels m →
  mem_tick spec m = None ↔
    Exists (λ c, nREFI spec ≤ ref_clk (refresh c) + 1 - refreshed (refresh c) ∧
                 qmax (otherq c) - qsize (otherq c) < Z.of_nat (child_count spec 0)) (ctrls m).
Proof.
  intros Hl Hm. pose proof (mem_reachable_inv spec pr l channels m Hl Hm) as Hinv.
  assert (mem_tick spec m = None ↔ Exists (λ c, tick spec c = None) (ctrls m)) as ->.
  { rewrite <-(tick_ctrls_None spec (ctrls m) ([], [])). unfold mem_tick, tick_ctrls. by destruct (foldM _ _ _) as [[]|]. }
  rewrite !Exists_exists. apply exist_proper. intros c.
  split; intros [Hin H]; (split; [done|]); apply list_elem_of_lookup in Hin as [j Hj];
    pose proof (known_tick_ok spec pr l channels m j c Hl Hinv Hj) as Hok; unfold due, room in Hok; simpl in Hok.
  - destruct (_ && _) eqn:E; [|by destruct Hok; congruence]. apply andb_prop in E. lia.
  - rewrite (proj2 (Z.leb_le _ _)), (proj2 (Z.ltb_lt _ _)) in Hok by lia. done.
Qed.

(** C29: the search for a physical page always ends and never fails its
    assertions: after any sequence of translations from fresh tables of [n]
    pages, the tables are consistent (the free counter is exact, every mapped
    page is in range and taken), and as long as no page had to be replaced no
    two virtual pages share a physical page. *)
Theorem page_tables_consistent n (calls : list (Z * Z * Z)) (m : Memory L C S) :
  0 < n → translation m = Translation_Random → physical_page_replacement (mstats m) = 0 →
  mpages m = mkPages (replicate (Z.to_nat n) (-1)) n ∅ →
  Forall (λ c, 0 ≤ fst (fst c) ∧ snd c ≠ -1) calls →
  ∃ m', foldM (λ m c, '(_, m') ← page_allocator (fst (fst c)) (snd (fst c)) (snd c) m; Some m') m calls = Some m' ∧
    pages_inv n (mpages m') ∧
    (physical_page_replacement (mstats m') = 0 → pages_injective (mpages m')).
Proof.
  intros Hn Htr Hrep Hp Hcalls.
  assert (pages_inv n (mpages m) ∧ 0 ≤ physical_page_replacement (mstats m) ∧
    (physical_page_replacement (mstats m) = 0 → pages_injective (mpages m))) as (Hinv&Hpos&Hinj).
  { rewrite Hp. split_and!; [|lia|by intros ? ? ? ? ?]. split; simpl; [rewrite length_replicate; lia| |done].
    unfold free_count. assert (∀ k, length (filter (λ x, x = -1) (replicate k (-1))) = k) as ->; [|lia].
    induction k as [|k IH]; [done|]. rewrite replicate_S, filter_cons_True by done. simpl. by rewrite IH. }
  clear Hrep Hp. revert m Htr Hinv Hpos Hinj. induction Hcalls as [|[[lr a] core] calls [Hlr Hcore] _ IH]; intros m Htr Hinv Hpos Hinj; simpl.
  { by exists m. }
  destruct (page_allocator_random n lr a core m) as (p&m1&Hm1&_&Hinv1&_&_&HR&_&Htr1); try done.
  simpl in *. rewrite Hm1; simpl. destruct (HR Hpos Hinj). apply IH; try done. congruence.
Qed.

(** A translated address keeps its offset in the page and lies within the
    [n] physical pages; from then on every address of the same virtual page of
    the core is translated into the same physical page, whatever the random
    numbers, and without changing the memory. *)
Theorem page_translation_stable n lrand a coreid (m : Memory L C S) :
  0 < n → translation m = Translation_Random → pages_inv n (mpages m) → 0 ≤ lrand → coreid ≠ -1 →
  ∃ p m', page_allocator lrand a coreid m = Some (p * 4096 + a mod 4096, m') ∧
    0 ≤ p < n ∧ pages_inv n (mpages m') ∧
    ∀ lrand' a', a' / 4096 = a / 4096 →
      page_allocator lrand' a' coreid m' = Some (p * 4096 + a' mod 4096, m').
Proof.
  intros Hn Htr Hinv Hl Hc. destruct (page_allocator_random n lrand a coreid m) as (p&m'&Hm&Hp&Hinv'&Hk&_&_&_&Htr'); try done.
  exists p, m'. rewrite page_address in Hm. split_and!; try done; try lia. intros lrand' a' Ha.
  unfold page_allocator. rewrite Htr', Htr. rewrite !Z.shiftr_div_pow2 in * by lia. change (2 ^ 12) with 4096 in *.
  rewrite Ha, Hk. simpl. by rewrite page_address.
Qed.

End Claims.

(** C30: [calc_log2] terminates for exactly the non-negative [int]s, with the
    integer logarithm (and 0 for 0); on a negative value its loop never ends. *)
Theorem calc_log2_terminates val :
  - 2 ^ 31 ≤ val < 2 ^ 31 →
  (0 ≤ val → calc_log2 val = Some (Z.log2 val)) ∧
  (val < 0 → ∀ fuel n, calc_log2_loop fuel val n = None).
Proof. intros Hv. split; [intros; by apply calc_log2_ok; lia|intros; by apply calc_log2_negative]. Qed.

Lemma calc_log2_terminates_witness : calc_log2 24576 = Some 14.
Proof. apply (calc_log2_terminates 24576); lia. Defined.

(** ** Witnesses: a DDR3 memory with one channel. *)
#[export] Instance ddr3_mem : MemLaws spec3 DDR3.proto.
Proof.
  split; [apply _|reflexivity|repeat constructor; vm_compute; done|vm_compute; done| |reflexivity|split; reflexivity].
  intros c Hc. vm_compute in Hc. simplify_eq. vm_compute. done.
Qed.

Definition mem3_dummy : Memory DDR3.Level DDR3.Command DDR3.State :=
  mkMemory RoBaRaCoCh Translation_Random (mkPages [] 0 ∅) [] [] 0 64 0 (mem_stats0 2 1).
Definition mem3 : Memory DDR3.Level DDR3.Command DDR3.State :=
  default mem3_dummy (populate_memory spec3 2 RoBaRaCoCh false Translation_None 64 1).

Lemma mem3_eq : populate_memory spec3 2 RoBaRaCoCh false Translation_None 64 1 = Some mem3.
Proof. unfold mem3. apply (Some_default mem3_dummy). vm_compute. reflexivity. Qed.

Lemma mem3_reachable : mem_reachable spec3 1 mem3.
Proof. eapply MReach_new; [|apply mem3_eq]. reflexivity. Qed.

(** ** A LPDDR4 memory with 6 Gb dies *)
Definition lpddr4 : LPDDR4.LPDDR4 :=
  LPDDR4.set_rank_number 1 (LPDDR4.set_channel_number 2
    (default (LPDDR4.mkLPDDR4 (LPDDR4.org_table LPDDR4.LPDDR4_6Gb_x16) (LPDDR4.speed_table LPDDR4.LPDDR4_1600) 0)
       (LPDDR4.new LPDDR4.LPDDR4_6Gb_x16 LPDDR4.LPDDR4_1600))).
Abbreviation spec4 := (LPDDR4.spec lpddr4).

#[export] Instance lpddr4_count : CountOK 5 (LPDDR4.count (LPDDR4.org_entry lpddr4)).
Proof. split; [done|]. repeat constructor; vm_compute; congruence. Qed.

#[export] Instance lpddr4_mem : MemLaws spec4 LPDDR4.proto.
Proof.
  split; [apply (LPDDR4_ctrl lpddr4); vm_compute; reflexivity|reflexivity
         |repeat constructor; vm_compute; done|vm_compute; done| |reflexivity|split; reflexivity].
  intros c Hc. vm_compute in Hc. simplify_eq. vm_compute. done.
Qed.

Definition mem4_dummy : Memory LPDDR4.Level LPDDR4.Command LPDDR4.State :=
  mkMemory RoBaRaCoCh Translation_None (mkPages [] 0 ∅) [] [1; 0; 3; 14; 6] 5 64 0 (mem_stats0 1 2).

Definition mem4 : Memory LPDDR4.Level LPDDR4.Command LPDDR4.State :=
  default mem4_dummy (populate_memory spec4 1 RoBaRaCoCh true Translation_None 64 2).

Lemma mem4_reachable : mem_reachable spec4 2 mem4.
Proof. eapply (MReach_new _ _ 1 RoBaRaCoCh true Translation_None 64); [reflexivity|]. unfold mem4. apply (Some_default mem4_dummy). vm_compute. reflexivity. Qed.

(** In an organisation of powers of two an address is recovered exactly; with
    6 Gb dies, two transactions below the capacity share their coordinates. *)
Lemma address_mapping_roundtrip_witness :
  (∃ v, map_address spec3 mem3 123456789 [] = Some v ∧ in_org spec3 v ∧
    join_levels (addr_bits mem3) (slice_order spec3 RoBaRaCoCh 5) v * 64 + 123456789 mod 64 = 123456789) ∧
  ∃ a, 2 ^ tx_bits mem4 ≤ a < max_address mem4 ∧ map_address spec4 mem4 a [] = map_address spec4 mem4 0 [].
Proof.
  split.
  - destruct (address_mapping_roundtrip spec3 DDR3.proto DDR3.Channel 1 mem3 eq_refl mem3_reachable) as [Hmap [Hex _]].
    destruct (Hmap 123456789) as (v&Hv&Ho&_). exists v. split_and!; [done|done|].
    apply (Hex 123456789 v); [vm_compute; split; [discriminate|reflexivity]|exact Hv].
  - destruct (address_mapping_roundtrip spec4 LPDDR4.proto LPDDR4.Channel 2 mem4 eq_refl mem4_reachable) as [_ Ha].
    exact Ha.
Defined.

Lemma memory_traces_legal_witness :
  length (ctrls mem3) = 1%nat ∧
  ∀ j c, ctrls mem3 !! j = Some c → nid (info (channel c)) = Z.of_nat j ∧ legal_history spec3 (cmd_trace c).
Proof.
  apply (memory_traces_legal spec3 DDR3.proto DDR3.Channel 1 mem3); [reflexivity|apply mem3_reachable].
Defined.

(** The memory has two cores: a request of core 1 is answered, a request of
    core 2 aborts. *)
Lemma send_returns_witness :
  (∃ b m', send spec3 (Request_addr 123456789 READ 1) mem3 = Some (b, m') ∧ mem_reachable spec3 1 m' ∧
    pending_requests m' = pending_requests mem3 + (if b then 1 else 0)) ∧
  send spec3 (Request_addr 123456789 READ 2) mem3 = None.
Proof.
  assert (mem_cores mem3 = 2%nat) as Hn by (vm_compute; reflexivity). split.
  - destruct (send_returns spec3 DDR3.proto DDR3.Channel 1 mem3 (Request_addr 123456789 READ 1) eq_refl mem3_reachable)
      as (v&ch&c&_&_&_&Ha&Hs); [by left|reflexivity|reflexivity|]. rewrite Hn in Ha.
    destruct (send spec3 (Request_addr 123456789 READ 1) mem3) as [[b m']|];
      [|destruct (proj1 Ha eq_refl) as [_ Hc]; destruct Hc; split; [discriminate|reflexivity]].
    destruct (Hs b m' eq_refl) as (->&Hm&_&Hp). eexists _, m'. split_and!; [reflexivity|exact Hm|exact Hp].
  - destruct (send_returns spec3 DDR3.proto DDR3.Channel 1 mem3 (Request_addr 123456789 READ 2) eq_refl mem3_reachable)
      as (v&ch&c&Hv&Hch&Hc&Ha&_); [by left|reflexivity|reflexivity|]. rewrite Hn in Ha. apply Ha.
    vm_compute in Hv. injection Hv as <-. injection Hch as <-. split; [|simpl; lia].
    enough (match ctrls mem3 !! 0%nat with Some c => qsize (readq c) <? qmax (readq c) | None => false end = true) as E;
      [change (ctrls mem3 !! 0%nat = Some c) in Hc; by rewrite Hc in E|vm_compute; reflexivity].
Defined.

Lemma memory_tick_aborts_iff_witness :
  mem_tick spec3 mem3 = None ↔
    Exists (λ c, nREFI spec3 ≤ ref_clk (refresh c) + 1 - refreshed (refresh c) ∧
                 qmax (otherq c) - qsize (otherq c) < Z.of_nat (child_count spec3 0)) (ctrls mem3).
Proof.
  apply (memory_tick_aborts_iff spec3 DDR3.proto DDR3.Channel 1 mem3); [reflexivity|apply mem3_reachable].
Defined.

(** A memory of four physical pages, and five pages asked for. *)
Definition mem3_pages : Memory DDR3.Level DDR3.Command DDR3.State :=
  set_mpages (mkPages (replicate 4 (-1)) 4 ∅) mem3_dummy.

Lemma page_tables_consistent_witness :
  ∃ m', foldM (λ m c, '(_, m') ← page_allocator (fst (fst c)) (snd (fst c)) (snd c) m; Some m') mem3_pages
          [(7, 0, 0); (3, 4096, 0); (3, 4096, 1); (1, 8192, 0); (2, 12288, 1)] = Some m' ∧
    pages_inv 4 (mpages m') ∧ (physical_page_replacement (mstats m') = 0 → pages_injective (mpages m')).
Proof.
  apply (page_tables_consistent 4 _ mem3_pages); [lia|reflexivity|reflexivity|reflexivity|].
  repeat constructor; simpl; lia.
Defined.

Lemma pages4_inv : pages_inv 4 (mpages mem3_pages).
Proof. split; [reflexivity|reflexivity|]. intros k p Hk. change (@empty (gmap (Z * Z) Z) _ !! k = Some p) in Hk. by rewrite lookup_empty in Hk. Qed.

Lemma page_translation_stable_witness :
  ∃ p m', page_allocator 7 5000 0 mem3_pages = Some (p * 4096 + 5000 mod 4096, m') ∧ 0 ≤ p < 4 ∧
    pages_inv 4 (mpages m') ∧
    ∀ lrand' a', a' / 4096 = 5000 / 4096 → page_allocator lrand' a' 0 m' = Some (p * 4096 + a' mod 4096, m').
Proof.
  apply (page_translation_stable 4 7 5000 0 mem3_pages); [lia|reflexivity|apply pages4_inv|lia|lia].
Defined.

(** A third of a 6 Gb die is never used: the row bits are the integer
    logarithm of the row count, so no address, however large, maps to one of
    the rows 16384 to 24575 that the die has, under either mapping. *)
Theorem lpddr4_rows_unreachable (m : Memory LPDDR4.Level LPDDR4.Command LPDDR4.State) a v :
  calc_addr_bits spec4 = Some (addr_bits m) → 0 ≤ tx_bits m → map_address spec4 m a [] = Some v →
  count spec4 !! level_int spec4 LPDDR4.Row = Some 24576 ∧
  ∃ r, v !! level_int spec4 LPDDR4.Row = Some r ∧ 0 ≤ r < 16384.
Proof.
  intros Hb Htx Hv. split; [reflexivity|].
  destruct (map_address_ok spec4 LPDDR4.proto m a Hb Htx) as (v'&Hv'&_&Hr&_). rewrite Hv in Hv'. injection Hv' as <-.
  apply (Hr 3%nat 14). assert (calc_addr_bits spec4 = Some [1; 0; 3; 14; 6]) as E by (vm_compute; reflexivity).
  rewrite Hb in E. by injection E as ->.
Qed.

Lemma lpddr4_rows_unreachable_witness :
  ∃ v r, map_address spec4 mem4_dummy (2 ^ 34 - 1) [] = Some v ∧ v !! 3%nat = Some r ∧ 0 ≤ r < 16384.
Proof.
  destruct (lpddr4_rows_unreachable mem4_dummy (2 ^ 34 - 1) [1; 0; 7; 16383; 63]) as [_ (r&Hr&Hb)].
  - vm_compute. reflexivity.
  - simpl. lia.
  - vm_compute. reflexivity.
  - exists [1; 0; 7; 16383; 63], r. split; [vm_compute; reflexivity|]. split; [exact Hr|exact Hb].
Defined.
