(* ===== verification/Packet.v ===== *)
(** * Packets of the HMC network ([ramulator/src/Packet.h], [ramulator/src/Packet.cpp])

    The request, response and flow control packets that travel between the host
    and the vaults.  A member a constructor leaves unset is 0 here; it is not
    read for a packet of that type. *)

From S2P Require Import Prelude Request.

Inductive PacketType := REQUEST | RESPONSE | NULLPACKET | TRET | RETRY | PktMAX.
Inductive PacketCommand :=
  | WR16 | WR32 | WR48 | WR64 | WR80 | WR96 | WR112 | WR128 | WR256
  | RD16 | RD32 | RD48 | RD64 | RD80 | RD96 | RD112 | RD128 | RD256 | PCmdMAX.

#[export] Instance PacketType_eq_dec : EqDecision PacketType.
Proof. solve_decision. Defined.
#[export] Instance PacketCommand_eq_dec : EqDecision PacketCommand.
Proof. solve_decision. Defined.

(** [int(cmd)] *)
Definition command_int (c : PacketCommand) : Z :=
  match c with
  | WR16 => 0 | WR32 => 1 | WR48 => 2 | WR64 => 3 | WR80 => 4 | WR96 => 5 | WR112 => 6 | WR128 => 7 | WR256 => 8
  | RD16 => 9 | RD32 => 10 | RD48 => 11 | RD64 => 12 | RD80 => 13 | RD96 => 14 | RD112 => 15 | RD128 => 16
  | RD256 => 17 | PCmdMAX => 18
  end.

(** [Packet::Datafield<ValueType>]; [valid()] compares from above only. *)
Record Datafield {A : Type} := mkField { value : A; bit : Z }.
Arguments Datafield : clear implicits.
Arguments mkField {A}.
Definition Datafield_valid {A} (to_long : A → Z) (f : Datafield A) : bool :=
  to_long (value f) <? Z.shiftl 1 (bit f).

Definition cub_bits : Z := 3.
Definition slid_bits : Z := 3.
Definition adrs_bits : Z := 34.
Definition tag_bits : Z := 11.
Definition lng_bits : Z := 5.
Definition cmd_bits : Z := 7.
Definition rtc_bits : Z := 3.

(** [Packet::Header] and [Packet::Tail] *)
Record Header := mkHeader {
  CUB : Datafield Z; ADRS : Datafield Z; SLID : Datafield Z; TAG : Datafield Z; LNG : Datafield Z;
  CMD : Datafield PacketCommand
}.
Record Tail := mkTail { RTC : Datafield Z; tail_SLID : Datafield Z }.

Record Packet := mkPacket {
  ptype : PacketType;
  header : Header;
  tail : Tail;
  payload_flits : Z;
  total_flits : Z;
  flow_control : bool;
  preq : Request
}.

Definition set_preq (x : Request) (p : Packet) : Packet :=
  mkPacket (ptype p) (header p) (tail p) (payload_flits p) (total_flits p) (flow_control p) x.
(** [packet.tail.RTC.value = x] *)
Definition set_rtc (x : Z) (p : Packet) : Packet :=
  mkPacket (ptype p) (header p) (mkTail (mkField x (bit (RTC (tail p)))) (tail_SLID (tail p)))
    (payload_flits p) (total_flits p) (flow_control p) (preq p).

Definition Field0 : Datafield Z := mkField 0 0.
(** The request of a packet that has none yet. *)
Definition Request0 : Request := Request_addr 0 READ (-1).

(** The three constructors. *)
Definition Packet_request (t : PacketType) (cub adrs tag lng slid : Z) (cmd : PacketCommand) : option Packet :=
  assert! bool_decide (t = REQUEST);
  Some (mkPacket t
    (mkHeader (mkField cub cub_bits) (mkField adrs adrs_bits) Field0 (mkField tag tag_bits)
      (mkField lng lng_bits) (mkField cmd cmd_bits))
    (mkTail (mkField 0 rtc_bits) (mkField slid slid_bits)) (lng - 1) lng false Request0).
Definition Packet_response (t : PacketType) (cub tag lng slid : Z) (cmd : PacketCommand) : option Packet :=
  assert! bool_decide (t = RESPONSE);
  Some (mkPacket t
    (mkHeader (mkField cub cub_bits) Field0 (mkField slid slid_bits) (mkField tag tag_bits)
      (mkField lng lng_bits) (mkField cmd cmd_bits))
    (mkTail (mkField 0 rtc_bits) Field0) (lng - 1) lng false Request0).
Definition Packet_tret (t : PacketType) (rtc : Z) : option Packet :=
  assert! bool_decide (t = TRET);
  Some (mkPacket t
    (mkHeader Field0 Field0 Field0 Field0 Field0 (mkField WR16 0))
    (mkTail (mkField rtc rtc_bits) Field0) 0 1 true Request0).

(** [write_cmd_map[lng]] and [read_cmd_map[lng]]: a missing key gets the first
    command. *)
Definition write_cmd_map (lng : Z) : PacketCommand :=
  match lng with
  | 1 => WR16 | 2 => WR32 | 3 => WR48 | 4 => WR64 | 5 => WR80 | 6 => WR96 | 7 => WR112 | 8 => WR128 | 16 => WR256
  | _ => WR16
  end.
Definition read_cmd_map (lng : Z) : PacketCommand :=
  match lng with
  | 1 => RD16 | 2 => RD32 | 3 => RD48 | 4 => RD64 | 5 => RD80 | 6 => RD96 | 7 => RD112 | 8 => RD128 | 16 => RD256
  | _ => WR16
  end.
