(* ===== verification/HmcController.v ===== *)
(** * The vault controller ([ramulator/src/HMC_Controller.h], the HMC part of [ramulator/src/Refresh.cpp])

    [Controller<HMC>]: one per vault.  Its queues, clock, device, scheduler and
    row table are those of [Controller<T>] ([vbase]); it adds the packets it is
    serving, the responses that wait for the crossbar, requests of several
    bursts, a refresh of the whole vault, and the PIM mode, in which the cores
    sit on the vaults: its queues are unbounded and a completed read is called
    back at once.  [None] is a failed assertion, and an access to a vector out
    of its range.  Left out: DRAMPower and the trace files, as in
    [Controller.v]. *)

From S2P Require Import Prelude Double Request Dram Scheduler Controller SpecHMC Packet.

Abbreviation BaseCtrl := (Controller HMC.Level HMC.Command HMC.State).

Record HmcCtrl := mkHCtrl {
  vbase : BaseCtrl;
  response_packets_buffer : list Packet;
  incoming_packets_buffer : gmap Z Packet;
  pim_mode_enabled : bool
}.
Definition set_vbase (x : BaseCtrl) (v : HmcCtrl) : HmcCtrl :=
  mkHCtrl x (response_packets_buffer v) (incoming_packets_buffer v) (pim_mode_enabled v).
Definition set_response (x : list Packet) (v : HmcCtrl) : HmcCtrl :=
  mkHCtrl (vbase v) x (incoming_packets_buffer v) (pim_mode_enabled v).
Definition set_incoming (x : gmap Z Packet) (v : HmcCtrl) : HmcCtrl :=
  mkHCtrl (vbase v) (response_packets_buffer v) x (pim_mode_enabled v).

Section Ops.
Variable o : HMC.HMC.
Abbreviation spec := (HMC.spec o).

(** ** The constructor *)

(** [Controller(configs, channel)] with [Refresh<HMC>(this)] and the options
    [no_DRAM_latency], [unlimit_bandwidth] and [pim_mode]. *)
Definition new_hmc_controller (core_num : nat) (no_latency unlimit pim : bool) (ch : DRAM HMC.Level HMC.Command HMC.State) :
    option HmcCtrl :=
  let c := set_refresh (mkRefresh 0 0 [0]) (new_controller core_num ch) in
  let c := if no_latency then set_scheduler (mkScheduler FRFCFS (cap (scheduler c))) (set_no_DRAM_latency true c) else c in
  let s := HMC.speed_entry o in
  if unlimit then
    assert! HMC.nBL s =? 0;
    assert! read_latency spec =? HMC.nCL s;
    assert! HMC.nCCDS s =? 1;
    assert! HMC.nCCDL s =? 1;
    Some (mkHCtrl c [] ∅ pim)
  else Some (mkHCtrl c [] ∅ pim).

(** ** Receiving requests *)

(** [enqueue(req)]: the queues are unbounded in PIM mode. *)
Definition hmc_enqueue (req : Request) (v : HmcCtrl) : bool * HmcCtrl :=
  let s := get_queue (type req) in
  let c := vbase v in
  if negb (pim_mode_enabled v) && (qmax (queue_of s c) =? qsize (queue_of s c)) then (false, v)
  else (true, set_vbase (accept req c) v).

(** [receive(packet)]: the packet is kept for its response, whether or not its
    request fits in the queue; the request inside [packet] is changed.  The
    caller drops a packet that is accepted, so what [enqueue] writes into its
    request is not returned. *)
Definition receive_packet (packet : Packet) (v : HmcCtrl) : option (bool * Packet * HmcCtrl) :=
  assert! bool_decide (ptype packet = REQUEST);
  let req := set_transaction_bytes (HMC.payload_flits o * 16) (set_burst_count (HMC.burst_count o) (preq packet)) in
  let packet := set_preq req packet in
  let v := set_incoming (<[reqid req := packet]> (incoming_packets_buffer v)) v in
  let '(ok, v) := hmc_enqueue req v in
  Some (ok, packet, v).

(** [form_response_packet(req)] *)
Definition form_response_packet (req : Request) (v : HmcCtrl) : option (Packet * HmcCtrl) :=
  req_packet ← incoming_packets_buffer v !! reqid req;
  let cub := value (CUB (header req_packet)) in
  let tag := value (TAG (header req_packet)) in
  let slid := value (tail_SLID (tail req_packet)) in
  let lng := if decide (type req = WRITE) then 1 else 1 + HMC.payload_flits o in
  let cmd := value (CMD (header req_packet)) in
  packet ← Packet_response RESPONSE cub tag lng slid cmd;
  let packet := set_preq req packet in
  assert! Datafield_valid id (CUB (header packet));
  assert! Datafield_valid id (TAG (header packet));
  assert! Datafield_valid id (SLID (header packet));
  assert! Datafield_valid command_int (CMD (header packet));
  Some (packet, set_incoming (delete (reqid req) (incoming_packets_buffer v)) v).

(** The response of [req] is put at the end of the buffer. *)
Definition respond (req : Request) (v : HmcCtrl) : option HmcCtrl :=
  '(packet, v) ← form_response_packet req v;
  Some (set_response (response_packets_buffer v ++ [packet]) v).

(** ** [Refresh<HMC>] *)

(** [refresh_target(ctrl, vault)] *)
Definition hmc_refresh_target (vault : Z) (v : HmcCtrl) : option HmcCtrl :=
  let addr_vec := <[0%nat := vault]> (replicate (level_MAX spec) (-1)) in
  let '(res, v) := hmc_enqueue (Request_addr_vec addr_vec REFRESH 0) v in
  assert! res;
  Some v.

(** [inject_refresh(b_ref_rank)] *)
Definition hmc_inject_refresh (b_ref_rank : bool) (v : HmcCtrl) : option HmcCtrl :=
  assert! b_ref_rank;
  v ← hmc_refresh_target (nid (info (channel (vbase v)))) v;
  let r := refresh (vbase v) in
  Some (set_vbase (set_refresh (mkRefresh (ref_clk r) (ref_clk r) (bank_ref_counters r)) (vbase v)) v).

(** [tick_ref()] *)
Definition hmc_tick_ref (v : HmcCtrl) : option HmcCtrl :=
  let r := refresh (vbase v) in
  let r := mkRefresh (ref_clk r + 1) (refreshed r) (bank_ref_counters r) in
  let v := set_vbase (set_refresh r (vbase v)) v in
  if nREFI spec <=? ref_clk r - refreshed r then hmc_inject_refresh true v else Some v.

(** ** [tick] *)

(** 1. Serve completed reads: the requests whose callbacks run. *)
Definition hmc_serve_pending (v : HmcCtrl) : option (list Request * HmcCtrl) :=
  let c := vbase v in
  match pending c with
  | [] => Some ([], v)
  | req :: rest =>
    if depart req <=? clk c then
      c ← if 1 <? depart req - arrive req then serving spec (addr_vec req) (-1) c else Some c;
      if pim_mode_enabled v then
        let req := set_depart_hmc (clk c) req in
        if is_rw (type req) then
          _ ← incoming_packets_buffer v !! reqid req;
          Some ([req], mkHCtrl (set_pending rest c) (response_packets_buffer v)
                         (delete (reqid req) (incoming_packets_buffer v)) (pim_mode_enabled v))
        else Some ([], set_vbase (set_pending (req :: rest) c) v)
      else
        v ← respond req (set_vbase c v);
        Some ([], set_vbase (set_pending rest (vbase v)) v)
    else Some ([], v)
  end.

(** Statistics on the first command of a request: the bytes are those of the
    whole request. *)
Definition hmc_first_stats (req : Request) (hit open : bool) (now : Z) (s : ctrl_stats) : option ctrl_stats :=
  match type req with
  | READ =>
    let s := set_queueing_latency_sum (queueing_latency_sum s + (now - arrive req)) s in
    s ← count_row_read req hit open s;
    Some (set_read_transaction_bytes (read_transaction_bytes s + transaction_bytes req) s)
  | WRITE =>
    s ← count_row_write req hit open s;
    Some (set_write_transaction_bytes (write_transaction_bytes s + transaction_bytes req) s)
  | _ => Some s
  end.

(** [if (req->is_first_command) ...] for the request at index [i]. *)
Definition hmc_first_command (s : QSel) (i : nat) (req : Request) (c : BaseCtrl) : option BaseCtrl :=
  if is_first_command req then
    let req' := set_is_first_command false req in
    let c := set_queue s (<[i := req']> (q (queue_of s c))) c in
    if is_rw (type req) then
      c ← serving spec (addr_vec req) 1 c;
      hit ← is_row_hit spec c req';
      open ← (if (hit : bool) then Some false else is_row_open spec c req');
      st ← hmc_first_stats req' hit open (clk c) (cstats c);
      Some (set_cstats st c)
    else Some c
  else Some c.

(** One burst of a request is done: [--req->burst_count], and the request
    leaves its queue with its last burst. *)
Definition hmc_complete (s : QSel) (i : nat) (req : Request) (v : HmcCtrl) : option HmcCtrl :=
  let req := if is_rw (type req) then set_burst_count (burst_count req - 1) req else req in
  let last := burst_count req =? 0 in
  let req := if bool_decide (type req = READ) && last
             then set_depart (clk (vbase v) + read_latency spec) req else req in
  let v := set_vbase (set_queue s (<[i := req]> (q (queue_of s (vbase v)))) (vbase v)) v in
  v ← match type req with
      | READ => Some (if last then set_vbase (set_pending (pending (vbase v) ++ [req]) (vbase v)) v else v)
      | WRITE =>
        if last then
          v ← respond req v;
          c ← serving spec (addr_vec req) (-1) (vbase v);
          Some (set_vbase c v)
        else Some v
      | _ => Some v
      end;
  Some (if last then set_vbase (set_queue s (delete i (q (queue_of s (vbase v)))) (vbase v)) v else v).

(** The command of the request at index [i], which is ready. *)
Definition hmc_issue_request (s : QSel) (i : nat) (req : Request) (v : HmcCtrl) : option HmcCtrl :=
  c ← hmc_first_command s i req (vbase v);
  cmd ← get_first_cmd spec c req;
  c ← issue_cmd spec cmd (addr_vec req) c;
  if decide (cmd ≠ translate spec (type req)) then Some (set_vbase c v)
  else
    req ← q (queue_of s c) !! i;
    hmc_complete s i req (set_vbase c v).

(** 4. Find the best command to schedule, if any. *)
Definition hmc_schedule (v : HmcCtrl) : option HmcCtrl :=
  let c := vbase v in
  let s := pick_queue c in
  '(head, t) ← get_head spec (view_of spec c) (scheduler c) (q (queue_of s c)) (rowtable c);
  let c := set_rowtable t c in
  ready ← match head with
          | None => Some None
          | Some i =>
            req ← q (queue_of s c) !! i;
            ready ← is_ready spec c req;
            Some (if (ready : bool) then Some (i, req) else None)
          end;
  match ready with
  | None =>
    if negb (no_DRAM_latency c) then
      let cmd := cmd_PRE spec in
      victim ← get_victim (view_of spec c) (rowpolicy c) cmd (rowtable c);
      if bool_decide (victim = []) then Some (set_vbase c v)
      else c ← issue_cmd spec cmd victim c; Some (set_vbase c v)
    else Some (set_vbase c v)
  | Some (i, req) => hmc_issue_request s i req (set_vbase c v)
  end.

(** [tick()] *)
Definition hmc_tick (v : HmcCtrl) : option (list Request * HmcCtrl) :=
  '(done, v) ← hmc_serve_pending (set_vbase (tick_clk (vbase v)) v);
  v ← hmc_tick_ref v;
  v ← hmc_schedule (set_vbase (switch_mode (vbase v)) v);
  Some (done, v).

End Ops.
