(* ===== verification/Link.v ===== *)
(** * Links and the crossbar ([ramulator/src/LogicLayer.h], [ramulator/src/LogicLayer.cpp])

    [LinkMaster], [LinkSlave], [Link], [Switch] and [LogicLayer]: packets enter
    a stack through the slave of a link, the crossbar moves them to the vaults
    and the responses to the master of a link, which sends them to the host
    under a token count.  [send_via_link] is a function on the state [H] of the
    host controller; [vault_ctrls] is passed to the switch and returned. *)

From S2P Require Import Prelude Double Request Dram Controller SpecHMC Packet HmcController Memory.

(** ** Data *)

Inductive LinkType := HOST_SOURCE_MODE | HOST | PASSTHRU.
#[export] Instance LinkType_eq_dec : EqDecision LinkType.
Proof. solve_decision. Defined.

Record LinkMaster := mkMaster {
  output_buffer : list Packet;
  master_buffer_max : Z;
  available_token_count : Z;
  master_clk : Z;
  next_packet_clk : Z
}.
Record LinkSlave := mkSlave {
  extracted_token_count : Z;
  input_buffer : list Packet;
  slave_buffer_max : Z
}.
Record Link := mkLink { link_type : LinkType; link_id : Z; slave : LinkSlave; master : LinkMaster }.

Definition set_slave (x : LinkSlave) (l : Link) : Link := mkLink (link_type l) (link_id l) x (master l).
Definition set_master (x : LinkMaster) (l : Link) : Link := mkLink (link_type l) (link_id l) (slave l) x.
Definition set_extracted (x : Z) (l : Link) : Link :=
  set_slave (mkSlave x (input_buffer (slave l)) (slave_buffer_max (slave l))) l.
Definition set_input (x : list Packet) (l : Link) : Link :=
  set_slave (mkSlave (extracted_token_count (slave l)) x (slave_buffer_max (slave l))) l.
Definition set_output (x : list Packet) (l : Link) : Link :=
  set_master (mkMaster x (master_buffer_max (master l)) (available_token_count (master l))
    (master_clk (master l)) (next_packet_clk (master l))) l.
Definition set_tokens (x : Z) (l : Link) : Link :=
  set_master (mkMaster (output_buffer (master l)) (master_buffer_max (master l)) x
    (master_clk (master l)) (next_packet_clk (master l))) l.
Definition set_master_clk (x : Z) (l : Link) : Link :=
  set_master (mkMaster (output_buffer (master l)) (master_buffer_max (master l)) (available_token_count (master l))
    x (next_packet_clk (master l))) l.
Definition set_next_packet_clk (x : Z) (l : Link) : Link :=
  set_master (mkMaster (output_buffer (master l)) (master_buffer_max (master l)) (available_token_count (master l))
    (master_clk (master l)) x) l.

(** [Link(configs, type, id, logic_layer, receive_from_link)] *)
Definition new_link (t : LinkType) (id : Z) : Link := mkLink t id (mkSlave 0 [] 32) (mkMaster [] 32 32 0 0).

(** [LinkMaster::available_space()] and [LinkSlave::available_space()] *)
Definition master_space (m : LinkMaster) : Z := master_buffer_max m - Z.of_nat (length (output_buffer m)).
Definition slave_space (s : LinkSlave) : Z := slave_buffer_max s - Z.of_nat (length (input_buffer s)).

(** [leftmostbit(val)]: the loop is that of [calc_log2]; it takes [log2 val]
    steps and one more, and does not end for a negative number. *)
Definition leftmostbit (val : Z) : option Z :=
  if val =? 0 then Some 0
  else n ← calc_log2_loop (S (Z.to_nat (Z.log2 val))) val 0; Some (Z.shiftl 1 n).

(** [Switch] and [LogicLayer]; there are no pass-through links. *)
Record LogicLayer := mkLayer { cub : Z; one_flit_cycles : double; xbar_clk : Z; host_links : list Link }.
Definition set_host_links (x : list Link) (y : LogicLayer) : LogicLayer :=
  mkLayer (cub y) (one_flit_cycles y) (xbar_clk y) x.

(** ** The master of a link *)
Section Master.
Context {H : Type}.
Variable send_via_link : Packet → H → option H.

(** The return token count of the next packet: it is taken from the slave. *)
Definition take_tokens (l : Link) : option (Z * Link) :=
  rtc ← leftmostbit (extracted_token_count (slave l));
  Some (rtc, set_extracted (extracted_token_count (slave l) - rtc) l).

(** [next_packet_clk = clk + ceil(cycles)] *)
Definition occupy (cycles : double) (l : Link) : option Link :=
  n ← d_ceil cycles;
  Some (set_next_packet_clk (master_clk (master l) + n) l).

(** [LinkMaster::send()]: the flow control packet, and the whole. *)
Definition send_flow_control (flit_cycles : double) (l : Link) (h : H) : option (Link * H) :=
  if 0 <? extracted_token_count (slave l) then
    '(rtc, l) ← take_tokens l;
    tret_packet ← Packet_tret TRET rtc;
    h ← send_via_link tret_packet h;
    l ← occupy (d_mul (d_int (total_flits tret_packet)) flit_cycles) l;
    Some (l, h)
  else l ← occupy flit_cycles l; Some (l, h).
Definition master_send (flit_cycles : double) (l : Link) (h : H) : option (Link * H) :=
  match output_buffer (master l) with
  | packet :: rest =>
    if total_flits packet <=? available_token_count (master l) then
      '(rtc, l) ← take_tokens (set_output rest l);
      let packet := set_rtc rtc packet in
      let l := if decide (link_type l ≠ HOST_SOURCE_MODE)
               then set_tokens (available_token_count (master l) - total_flits packet) l else l in
      h ← send_via_link packet h;
      l ← occupy (d_mul (d_int (total_flits packet)) flit_cycles) l;
      Some (l, h)
    else send_flow_control flit_cycles l h
  | [] => send_flow_control flit_cycles l h
  end.

(** [LinkMaster::tick()] *)
Definition master_tick (flit_cycles : double) (l : Link) (h : H) : option (Link * H) :=
  let l := set_master_clk (master_clk (master l) + 1) l in
  if next_packet_clk (master l) <=? master_clk (master l) then master_send flit_cycles l h else Some (l, h).

End Master.

(** [LinkSlave::receive(packet)] *)
Definition slave_receive (packet : Packet) (l : Link) : Link :=
  let l := set_tokens (available_token_count (master l) + value (RTC (tail packet))) l in
  if flow_control packet then l else set_input (input_buffer (slave l) ++ [packet]) l.

(** ** The crossbar *)
Section Crossbar.
Variable o : HMC.HMC.

(** From one link to a vault; [used] are the vaults that received a packet in
    this cycle.  The assertion for a packet of another stack states the branch's
    own condition, so it holds. *)
Definition link_to_vault (cub : Z) (l : Link) (used : gset Z) (vs : list HmcCtrl) :
    option (Link * gset Z * list HmcCtrl) :=
  match input_buffer (slave l) with
  | [] => Some (l, used, vs)
  | packet :: rest =>
    if value (CUB (header packet)) =? cub then
      vault_id ← addr_vec (preq packet) !! HMC.level_int HMC.Vault;
      if bool_decide (vault_id ∈ used) then Some (l, used, vs)
      else
        ctrl ← zlookup vs vault_id;
        '(ok, packet, ctrl) ← receive_packet o packet ctrl;
        let vs := <[Z.to_nat vault_id := ctrl]> vs in
        if (ok : bool) then
          Some (set_input rest (set_extracted (extracted_token_count (slave l) + total_flits packet) l),
                {[vault_id]} ∪ used, vs)
        else Some (set_input (packet :: rest) l, used, vs)
    else Some (l, used, vs)
  end.

(** The first loop of [Switch::tick]. *)
Fixpoint links_to_vaults (cub : Z) (ls : list Link) (used : gset Z) (vs : list HmcCtrl) :
    option (list Link * list HmcCtrl) :=
  match ls with
  | [] => Some ([], vs)
  | l :: ls =>
    '(l, used, vs) ← link_to_vault cub l used vs;
    '(ls, vs) ← links_to_vaults cub ls used vs;
    Some (l :: ls, vs)
  end.

(** From one vault to a link; [used] are the links that received a packet in
    this cycle. *)
Definition vault_to_link (v : HmcCtrl) (used : gset Z) (ls : list Link) : option (HmcCtrl * gset Z * list Link) :=
  match response_packets_buffer v with
  | [] => Some (v, used, ls)
  | packet :: rest =>
    let slid := value (SLID (header packet)) in
    l ← zlookup ls slid;
    assert! bool_decide (link_type l = HOST_SOURCE_MODE);
    if bool_decide (slid ∈ used) then Some (v, used, ls)
    else if total_flits packet <=? master_space (master l) then
      Some (set_response rest v, {[slid]} ∪ used,
            <[Z.to_nat slid := set_output (output_buffer (master l) ++ [packet]) l]> ls)
    else Some (v, used, ls)
  end.

(** The second loop of [Switch::tick]. *)
Fixpoint vaults_to_links (vs : list HmcCtrl) (used : gset Z) (ls : list Link) : option (list HmcCtrl * list Link) :=
  match vs with
  | [] => Some ([], ls)
  | v :: vs =>
    '(v, used, ls) ← vault_to_link v used ls;
    '(vs, ls) ← vaults_to_links vs used ls;
    Some (v :: vs, ls)
  end.

(** [Switch::tick()] *)
Definition switch_tick (y : LogicLayer) (vs : list HmcCtrl) : option (LogicLayer * list HmcCtrl) :=
  '(ls, vs) ← links_to_vaults (cub y) (host_links y) ∅ vs;
  '(vs, ls) ← vaults_to_links vs ∅ ls;
  Some (mkLayer (cub y) (one_flit_cycles y) (xbar_clk y + 1) ls, vs).

(** ** The logic layer *)

(** [LogicLayer(configs, cub, spec, vault_ctrls, mem, host_ctrl_recv)].  The
    parameter [cub] hides the member of that name, which no statement sets:
    the member is what the object's memory happened to hold, [uninit]. *)
Definition new_logic_layer (uninit cub host_links_num pass_thru_links_num : Z) : option LogicLayer :=
  assert! pass_thru_links_num =? 0;
  Some (mkLayer uninit
    (d_div (d_div (d_int 128) (d_mul (HMC.lane_speed o) (d_int (HMC.link_width o)))) (HMC.tCK o))
    0 (map (λ i : nat, new_link HOST_SOURCE_MODE (Z.of_nat i)) (seq 0 (Z.to_nat host_links_num)))).

(** The masters of the links, in order. *)
Fixpoint masters_tick {H} (recv : Packet → H → option H) (flit_cycles : double) (ls : list Link) (h : H) :
    option (list Link * H) :=
  match ls with
  | [] => Some ([], h)
  | l :: ls =>
    '(l, h) ← master_tick recv flit_cycles l h;
    '(ls, h) ← masters_tick recv flit_cycles ls h;
    Some (l :: ls, h)
  end.

(** [LogicLayer::tick()] *)
Definition layer_tick {H} (recv : Packet → H → option H) (y : LogicLayer) (vs : list HmcCtrl) (h : H) :
    option (LogicLayer * list HmcCtrl * H) :=
  '(ls, h) ← masters_tick recv (one_flit_cycles y) (host_links y) h;
  '(y, vs) ← switch_tick (set_host_links ls y) vs;
  Some (y, vs, h).

End Crossbar.
