(* ===== verification/HmcMemory.v ===== *)
(** * The HMC memory system ([ramulator/src/HMC_Memory.h], [start_run<HMC>] of [ramulator/src/Main.cpp])

    [Memory<HMC>]: the host controller, which turns requests into packets with
    a tag of their link, the logic layers of the stacks and the vaults.  With
    [pim_mode_enabled] a request goes to its vault directly.  A callback is
    returned as the request it is run on; [rand()] is an argument, as in
    [Memory.v]. *)

From S2P Require Import Prelude Double Request Dram Controller SpecHMC Packet HmcController Memory Link.

(** ** Data *)

(** [Memory<HMC>::Type] *)
Inductive HmcMapType := RoCoBaVa | RoBaCoVa | RoCoBaBgVa.
#[export] Instance HmcMapType_eq_dec : EqDecision HmcMapType.
Proof. solve_decision. Defined.

(** The statistics of the host controller, per core and per vault. *)
Record hmc_stats := mkHmcStats {
  h_dram_cycles : Z;
  h_read_requests : VectorStat;
  h_write_requests : VectorStat;
  h_active_cycles : Z;
  h_memory_footprint : Z;
  h_requests_per_channel : VectorStat;
  h_read_reqs_per_channel : VectorStat;
  h_page_replacement : Z;
  h_read_latency_sum : Z;
  h_request_packet_latency_sum : Z;
  h_response_packet_latency_sum : Z
}.
Definition hmc_stats0 (core_num vaults : nat) : hmc_stats :=
  let v := VectorStat_init core_num in
  let w := VectorStat_init vaults in
  mkHmcStats 0 v v 0 0 w w 0 0 0 0.

Record HmcMemory := mkHmcMemory {
  hclk : Z;
  hpim : bool;
  htype : HmcMapType;
  htranslation : Translation;
  hpages : pages;
  tags_pools : list (list Z);
  vault_ctrls : list HmcCtrl;
  logic_layers : list LogicLayer;
  h_addr_bits : list Z;
  requests_per_vault : list Z;
  h_tx_bits : Z;
  capacity_per_stack : Z;
  h_max_address : Z;
  mem_req_count : Z;
  hstats : hmc_stats
}.

Definition set_tags_pools (x : list (list Z)) (m : HmcMemory) : HmcMemory :=
  mkHmcMemory (hclk m) (hpim m) (htype m) (htranslation m) (hpages m) x (vault_ctrls m) (logic_layers m)
    (h_addr_bits m) (requests_per_vault m) (h_tx_bits m) (capacity_per_stack m) (h_max_address m)
    (mem_req_count m) (hstats m).
Definition set_vault_ctrls (x : list HmcCtrl) (m : HmcMemory) : HmcMemory :=
  mkHmcMemory (hclk m) (hpim m) (htype m) (htranslation m) (hpages m) (tags_pools m) x (logic_layers m)
    (h_addr_bits m) (requests_per_vault m) (h_tx_bits m) (capacity_per_stack m) (h_max_address m)
    (mem_req_count m) (hstats m).
Definition set_logic_layers (x : list LogicLayer) (m : HmcMemory) : HmcMemory :=
  mkHmcMemory (hclk m) (hpim m) (htype m) (htranslation m) (hpages m) (tags_pools m) (vault_ctrls m) x
    (h_addr_bits m) (requests_per_vault m) (h_tx_bits m) (capacity_per_stack m) (h_max_address m)
    (mem_req_count m) (hstats m).
Definition set_requests_per_vault (x : list Z) (m : HmcMemory) : HmcMemory :=
  mkHmcMemory (hclk m) (hpim m) (htype m) (htranslation m) (hpages m) (tags_pools m) (vault_ctrls m) (logic_layers m)
    (h_addr_bits m) x (h_tx_bits m) (capacity_per_stack m) (h_max_address m) (mem_req_count m) (hstats m).
Definition set_hpages (x : pages) (m : HmcMemory) : HmcMemory :=
  mkHmcMemory (hclk m) (hpim m) (htype m) (htranslation m) x (tags_pools m) (vault_ctrls m) (logic_layers m)
    (h_addr_bits m) (requests_per_vault m) (h_tx_bits m) (capacity_per_stack m) (h_max_address m)
    (mem_req_count m) (hstats m).
(** The clock, the number of requests and the statistics. *)
Definition set_counts (x n : Z) (st : hmc_stats) (m : HmcMemory) : HmcMemory :=
  mkHmcMemory x (hpim m) (htype m) (htranslation m) (hpages m) (tags_pools m) (vault_ctrls m) (logic_layers m)
    (h_addr_bits m) (requests_per_vault m) (h_tx_bits m) (capacity_per_stack m) (h_max_address m) n st.

(** [clear_higher_bits(addr, mask)] *)
Definition clear_higher_bits (a mask : Z) : Z := Z.land a mask.

Section Ops.
Variable o : HMC.HMC.
Abbreviation spec := (HMC.spec o).

(** ** The constructor *)

(** [Memory(configs, ctrls)]; [core_num] is [configs.get_core_num()], and
    [uninit i] is what the memory of the [i]th logic layer held before. *)
Definition new_hmc_memory (core_num : nat) (uninit : nat → Z) (ty : HmcMapType) (tr : Translation) (pim : bool)
    (stacks host_links pass_thru_links : Z) (vs : list HmcCtrl) : option HmcMemory :=
  sz0 ← count spec !! 0%nat;
  assert! pow2_check sz0;
  sz1 ← count spec !! 1%nat;
  assert! pow2_check sz1;
  let tx := Z.quot (prefetch_size spec * channel_width spec) 8 in
  tx_bits ← calc_log2 tx;
  assert! Z.shiftl 1 tx_bits =? tx;
  bits ← calc_addr_bits spec;
  let capacity := calc_max_address spec in
  let max_address := capacity * stacks in
  assert! 0 <? HMC.source_links o;
  let tags := replicate (Z.to_nat (HMC.source_links o)) (map Z.of_nat (seq 0 (Z.to_nat HMC.max_tags))) in
  layers ← mapM (λ i : nat, new_logic_layer o (uninit i) (Z.of_nat i) host_links pass_thru_links) (seq 0 (Z.to_nat stacks));
  Some (mkHmcMemory 0 pim ty tr (new_pages tr max_address) tags vs layers bits (replicate 32 0) tx_bits
          capacity max_address 0 (hmc_stats0 core_num (Z.to_nat sz0))).

(** [start_run<HMC>]: one controller per vault of every stack. *)
Definition start_hmc (core_num : nat) (uninit : nat → Z) (ty : HmcMapType) (tr : Translation) (no_latency unlimit pim : bool)
    (stacks host_links pass_thru_links : Z) : option HmcMemory :=
  v ← count spec !! HMC.level_int HMC.Vault;
  vs ← mapM (λ i : nat, d ← new_channel spec HMC.Vault (Z.of_nat i); new_hmc_controller o core_num no_latency unlimit pim d)
         (seq 0 (Z.to_nat (v * stacks)));
  new_hmc_memory core_num uninit ty tr pim stacks host_links pass_thru_links vs.

(** ** Address mapping *)

(** The slices [send] takes off the address, lowest first: the low bits of the
    column, the other levels, and the high bits of the column. *)
Definition hmc_coordinates (ty : HmcMapType) (bits : list Z) (max_block_col_bits a : Z) : option (list Z) :=
  b_va ← bits !! HMC.level_int HMC.Vault;
  b_bg ← bits !! HMC.level_int HMC.BankGroup;
  b_ba ← bits !! HMC.level_int HMC.Bank;
  b_ro ← bits !! HMC.level_int HMC.Row;
  b_co ← bits !! HMC.level_int HMC.Column;
  let b_msb := b_co - max_block_col_bits in
  let '(lo, a) := slice_lower_bits a max_block_col_bits in
  let '(va, a) := slice_lower_bits a b_va in
  match ty with
  | RoCoBaVa =>
    let '(ba, a) := slice_lower_bits a b_ba in
    let '(bg, a) := slice_lower_bits a b_bg in
    let '(msb, a) := slice_lower_bits a b_msb in
    let '(ro, _) := slice_lower_bits a b_ro in
    Some [va; bg; ba; ro; Z.lor lo (Z.shiftl msb max_block_col_bits)]
  | RoBaCoVa =>
    let '(msb, a) := slice_lower_bits a b_msb in
    let '(ba, a) := slice_lower_bits a b_ba in
    let '(bg, a) := slice_lower_bits a b_bg in
    let '(ro, _) := slice_lower_bits a b_ro in
    Some [va; bg; ba; ro; Z.lor lo (Z.shiftl msb max_block_col_bits)]
  | RoCoBaBgVa =>
    let '(bg, a) := slice_lower_bits a b_bg in
    let '(ba, a) := slice_lower_bits a b_ba in
    let '(msb, a) := slice_lower_bits a b_msb in
    let '(ro, _) := slice_lower_bits a b_ro in
    Some [va; bg; ba; ro; Z.lor lo (Z.shiftl msb max_block_col_bits)]
  end.

Definition hmc_map_address (m : HmcMemory) (a : Z) : option (list Z) :=
  hmc_coordinates (htype m) (h_addr_bits m) (HMC.flit_num_bits (HMC.maxblock_entry o) - h_tx_bits m)
    (clear_lower_bits a (h_tx_bits m)).

(** ** The host controller *)

(** [assign_tag(slid)] *)
Definition assign_tag (slid : Z) (pools : list (list Z)) : option (Z * list (list Z)) :=
  pool ← zlookup pools slid;
  match pool with
  | [] => Some (-1, pools)
  | tag :: pool => Some (tag, <[Z.to_nat slid := pool]> pools)
  end.

(** [form_request_packet(req)] *)
Definition form_request_packet (req : Request) (m : HmcMemory) : option (Packet * HmcMemory) :=
  let cub := Z.quot (addr req) (capacity_per_stack m) in
  let adrs := addr req in
  let a := clear_lower_bits (addr req) (HMC.flit_num_bits (HMC.maxblock_entry o)) in
  let slid := Z.rem a (HMC.source_links o) in
  '(tag, pools) ← assign_tag slid (tags_pools m);
  let lng := if decide (type req = READ) then 1 else 1 + HMC.payload_flits o in
  cmd ← match type req with
        | READ => Some (read_cmd_map lng)
        | WRITE => Some (write_cmd_map lng)
        | _ => None
        end;
  packet ← Packet_request REQUEST cub adrs tag lng slid cmd;
  let packet := set_preq req packet in
  assert! Datafield_valid id (CUB (header packet));
  assert! Datafield_valid id (ADRS (header packet));
  assert! Datafield_valid id (TAG (header packet));
  assert! Datafield_valid id (tail_SLID (tail packet));
  assert! Datafield_valid command_int (CMD (header packet));
  Some (packet, set_tags_pools pools m).

(** The statistics of an accepted request, and [++mem_req_count]. *)
Definition hmc_count (req : Request) (vault : Z) (m : HmcMemory) : option HmcMemory :=
  let st := hstats m in
  let rd := bool_decide (type req = READ) in
  let wr := bool_decide (type req = WRITE) in
  reads ← (if rd then bump (h_read_requests st) (coreid req) else Some (h_read_requests st));
  read_channels ← (if rd then bump (h_read_reqs_per_channel st) vault else Some (h_read_reqs_per_channel st));
  writes ← (if wr then bump (h_write_requests st) (coreid req) else Some (h_write_requests st));
  channels ← bump (h_requests_per_channel st) vault;
  Some (set_counts (hclk m) (mem_req_count m + 1)
    (mkHmcStats (h_dram_cycles st) reads writes (h_active_cycles st) (h_memory_footprint st) channels read_channels
      (h_page_replacement st) (h_read_latency_sum st) (h_request_packet_latency_sum st)
      (h_response_packet_latency_sum st)) m).

(** [send(req)]: the packet goes to its vault or to its link, ... *)
Definition hmc_route (req : Request) (vault : Z) (packet : Packet) (m : HmcMemory) : option (bool * HmcMemory) :=
  if hpim m then
    ctrl ← zlookup (vault_ctrls m) vault;
    '(_, _, ctrl) ← receive_packet o packet ctrl;
    m ← hmc_count req vault (set_vault_ctrls (<[Z.to_nat vault := ctrl]> (vault_ctrls m)) m);
    Some (true, m)
  else if value (TAG (header packet)) =? -1 then Some (false, m)
  else
    layer ← logic_layers m !! 0%nat;
    let slid := value (tail_SLID (tail packet)) in
    link ← zlookup (host_links layer) slid;
    if total_flits packet <=? slave_space (slave link) then
      let layer := set_host_links (<[Z.to_nat slid := slave_receive packet link]> (host_links layer)) layer in
      m ← hmc_count req vault (set_logic_layers (<[0%nat := layer]> (logic_layers m)) m);
      Some (true, m)
    else Some (false, m).

(** ... and the whole. *)
Definition hmc_send (req : Request) (m : HmcMemory) : option (bool * HmcMemory) :=
  let req := set_reqid (mem_req_count m) (set_initial_addr (addr req) req) in
  let req := set_addr (clear_higher_bits (addr req) (h_max_address m - 1)) req in
  v ← hmc_map_address m (addr req);
  let req := set_addr_vec v req in
  vault ← v !! HMC.level_int HMC.Vault;
  n ← zlookup (requests_per_vault m) vault;
  let m := set_requests_per_vault (<[Z.to_nat vault := n + 1]> (requests_per_vault m)) m in
  let req := set_arrive_hmc (hclk m) req in
  '(packet, m) ← form_request_packet req m;
  hmc_route req vault packet m.

(** The part of the host that a packet from a link changes: the tags, the
    statistics, and the requests called back so far. *)
Record Host := mkHost { host_tags : list (list Z); host_stats : hmc_stats; called : list Request }.

(** [receive_packets(packet)] at clock [x] *)
Definition receive_packets (x : Z) (packet : Packet) (h : Host) : option Host :=
  if flow_control packet then Some h
  else
    assert! bool_decide (ptype packet = RESPONSE);
    let slid := value (SLID (header packet)) in
    pool ← zlookup (host_tags h) slid;
    let tags := <[Z.to_nat slid := pool ++ [value (TAG (header packet))]]> (host_tags h) in
    let req := set_depart_hmc x (preq packet) in
    if decide (type req = READ) then
      let st := host_stats h in
      Some (mkHost tags
        (mkHmcStats (h_dram_cycles st) (h_read_requests st) (h_write_requests st) (h_active_cycles st)
          (h_memory_footprint st) (h_requests_per_channel st) (h_read_reqs_per_channel st) (h_page_replacement st)
          (h_read_latency_sum st + (depart_hmc req - arrive_hmc req))
          (h_request_packet_latency_sum st + (arrive req - arrive_hmc req))
          (h_response_packet_latency_sum st + (depart_hmc req - depart req)))
        (called h ++ [req]))
    else Some (mkHost tags (host_stats h) (called h)).

(** ** [tick] and the rest *)

Definition tick_vaults (vs : list HmcCtrl) : option (list Request * list HmcCtrl) :=
  foldM (λ acc v, '(done, v) ← hmc_tick o v; Some (fst acc ++ done, snd acc ++ [v])) ([], []) vs.

(** The logic layers, in order; each works on all vaults. *)
Fixpoint tick_layers (x : Z) (ys : list LogicLayer) (vs : list HmcCtrl) (h : Host) :
    option (list LogicLayer * list HmcCtrl * Host) :=
  match ys with
  | [] => Some ([], vs, h)
  | y :: ys =>
    '(y, vs, h) ← layer_tick o (receive_packets x) y vs h;
    '(ys, vs, h) ← tick_layers x ys vs h;
    Some (y :: ys, vs, h)
  end.

(** [is_active()] *)
Definition vault_active (v : HmcCtrl) : bool := is_active (vbase v).

(** [tick()]: the requests whose callbacks run, in order. *)
Definition hmc_mem_tick (m : HmcMemory) : option (list Request * HmcMemory) :=
  let x := hclk m + 1 in
  let st := hstats m in
  let active := existsb vault_active (vault_ctrls m) in
  '(done, vs) ← tick_vaults (vault_ctrls m);
  let st := mkHmcStats (h_dram_cycles st + 1) (h_read_requests st) (h_write_requests st)
    (if active then h_active_cycles st + 1 else h_active_cycles st) (h_memory_footprint st)
    (h_requests_per_channel st) (h_read_reqs_per_channel st) (h_page_replacement st) (h_read_latency_sum st)
    (h_request_packet_latency_sum st) (h_response_packet_latency_sum st) in
  '(ys, vs, h) ← tick_layers x (logic_layers m) vs (mkHost (tags_pools m) st done);
  Some (called h, set_counts x (mem_req_count m) (host_stats h)
    (set_tags_pools (host_tags h) (set_vault_ctrls vs (set_logic_layers ys m)))).

(** [pending_requests()] *)
Definition hmc_pending_requests (m : HmcMemory) : Z :=
  foldl (λ n v, n + ctrl_requests (vbase v)) 0 (vault_ctrls m).

(** [record_core(coreid)] is empty. *)
Definition hmc_record_core (coreid : Z) (m : HmcMemory) : HmcMemory := m.

(** [finish()]: the part that is not a ratio of statistics. *)
Definition hmc_finish (m : HmcMemory) : HmcMemory :=
  set_vault_ctrls (map (λ v, set_vbase (ctrl_finish (vbase v)) v) (vault_ctrls m)) m.

(** [page_allocator(addr, coreid)]: without translation no footprint is
    counted. *)
Definition hmc_count_page (replaced : bool) (st : hmc_stats) : hmc_stats :=
  mkHmcStats (h_dram_cycles st) (h_read_requests st) (h_write_requests st) (h_active_cycles st)
    (h_memory_footprint st + Z.shiftl 1 12) (h_requests_per_channel st) (h_read_reqs_per_channel st)
    (if replaced then h_page_replacement st + 1 else h_page_replacement st)
    (h_read_latency_sum st) (h_request_packet_latency_sum st) (h_response_packet_latency_sum st).
Definition hmc_page_allocator (lrand addr coreid : Z) (m : HmcMemory) : option (Z * HmcMemory) :=
  let t := hpages m in
  let target := (coreid, Z.shiftr addr 12) in
  match htranslation m with
  | Translation_None => Some (addr, m)
  | Translation_Random =>
    '(p, m) ← match page_translation t !! target with
              | Some p => Some (p, m)
              | None =>
                '(p, t') ← pick_page lrand coreid t;
                let t' := mkPages (free_physical_pages t') (free_physical_pages_remaining t')
                            (<[target := p]> (page_translation t')) in
                let replaced := free_physical_pages_remaining t =? 0 in
                Some (p, set_counts (hclk m) (mem_req_count m) (hmc_count_page replaced (hstats m)) (set_hpages t' m))
              end;
    Some (Z.lor (Z.shiftl p 12) (Z.land addr (Z.shiftl 1 12 - 1)), m)
  end.

End Ops.
