(* ===== verification/VaultInv.v ===== *)
(** * The invariant of a vault controller

    [vault_inv i h v]: the vault [v] with number [i] has issued the commands
    [h].  Its base controller satisfies the invariant of [ControllerTick] (with
    bounded queues outside PIM mode), the requests it holds have different
    numbers, and each has its packet.  This file proves that every phase of its
    cycle preserves it, and follows the packets through the vault. *)

From Stdlib Require Import Permutation.
From S2P Require Import Prelude Double Request Dram DramTiming BankProtocol Device BankMap Serving Standard.
From S2P Require Import Scheduler SchedulerTheorems Controller CtrlQueries ControllerInv ControllerTick ControllerReads.
From S2P Require Import SpecHMC Packet HmcController.

(** ** What a packet carries *)

(** What identifies a request on its way through the network: its number, its
    type, its address and its core. *)
Definition RKey : Type := Z * ReqType * Z * Z.
Definition rk (r : Request) : RKey := (reqid r, type r, addr r, coreid r).
Definition rk_id (k : RKey) : Z := k.1.1.1.
Definition rk_core (k : RKey) : Z := k.2.

(** An item in flight: its link, its tag and its request. *)
Definition Item : Type := Z * Z * RKey.
Definition request_item (p : Packet) : Item := (value (tail_SLID (tail p)), value (TAG (header p)), rk (preq p)).
Definition response_item (p : Packet) : Item := (value (SLID (header p)), value (TAG (header p)), rk (preq p)).

(** The item of a request that a vault holds: link and tag are those of the
    packet it arrived in. *)
Definition packet_ids (p : option Packet) : Z * Z :=
  match p with Some p => (value (tail_SLID (tail p)), value (TAG (header p))) | None => (0, 0) end.
Definition kitem (inc : gmap Z Packet) (k : RKey) : Item := (packet_ids (inc !! rk_id k), k).

(** The reads and writes of a controller. *)
Definition vreqs {L C S} (c : Controller L C S) : list Request := q (readq c) ++ q (writeq c) ++ pending c.
Definition vkeys {L C S} (c : Controller L C S) : list RKey := map rk (vreqs c).
Definition vault_items (v : HmcCtrl) : list Item := map (kitem (incoming_packets_buffer v)) (vkeys (vbase v)).

(** A packet whose fields are valid, for [n] links. *)
Definition fields_ok (n : Z) (p : Packet) : Prop :=
  value (CUB (header p)) < 8 ∧ value (TAG (header p)) < 2048 ∧ 0 ≤ value (tail_SLID (tail p)) < n.
Definition response_ok (n flits : Z) (p : Packet) : Prop :=
  ptype p = RESPONSE ∧ flow_control p = false ∧ 0 ≤ value (SLID (header p)) < n ∧
  (total_flits p = 1 ∨ total_flits p = 1 + flits).

Lemma kitem_ids inc k k' : rk_id k' = rk_id k → (kitem inc k').1 = (kitem inc k).1.
Proof. unfold kitem. by intros ->. Qed.

Lemma kitem_delete inc x ks : x ∉ map rk_id ks → map (kitem (delete x inc)) ks = map (kitem inc) ks.
Proof.
  induction ks as [|k ks IH]; [done|]. simpl. rewrite not_elem_of_cons. intros [Hx Hks].
  rewrite IH by done. unfold kitem. by rewrite lookup_delete_ne.
Qed.

Lemma kitem_insert inc x p ks : x ∉ map rk_id ks → map (kitem (<[x:=p]> inc)) ks = map (kitem inc) ks.
Proof.
  induction ks as [|k ks IH]; [done|]. simpl. rewrite not_elem_of_cons. intros [Hx Hks].
  rewrite IH by done. unfold kitem. by rewrite lookup_insert_ne.
Qed.

(** ** The requests through the phases of the base controller *)
Section Keys.
Context {L C S : Type} `{!EqDecision L, !EqDecision C, !EqDecision S}.
Variable spec : Spec L C S.

Lemma vkeys_accept req (c : Controller L C S) :
  is_rw (type req) = true → vkeys (accept req c) ≡ₚ rk req :: vkeys c.
Proof.
  intros Hrw. unfold accept, vkeys, vreqs. destruct (type req) eqn:E; try done; cbn [get_queue].
  - case_match; simpl.
    + rewrite removelast_last, !map_app. simpl. rewrite !(assoc_L (++)). by rewrite <-Permutation_cons_append.
    + rewrite !map_app, <-!(assoc_L (++)). simpl. by rewrite <-Permutation_middle.
  - rewrite bool_decide_eq_false_2 by (simpl; by rewrite E). simpl. rewrite !map_app, <-!(assoc_L (++)). simpl. by rewrite <-!Permutation_middle.
Qed.

Lemma vkeys_accept_other req (c : Controller L C S) :
  get_queue (type req) = OtherQ → vkeys (accept req c) = vkeys c.
Proof.
  intros E. unfold accept. rewrite E. assert (type req ≠ READ) by (intros E'; by rewrite E' in E).
  by rewrite bool_decide_eq_false_2.
Qed.

Lemma vkeys_queues (c c' : Controller L C S) :
  (∀ s, queue_of s c' = queue_of s c) → pending c' = pending c → vkeys c' = vkeys c.
Proof.
  intros Hq Hp. unfold vkeys, vreqs. pose proof (Hq ReadQ) as Hr. pose proof (Hq WriteQ) as Hw. simpl in *.
  by rewrite Hr, Hw, Hp.
Qed.

(** Replacing and deleting a request of a queue. *)
Lemma vkeys_insert s j r r' (c : Controller L C S) :
  q (queue_of s c) !! j = Some r → rk r' = rk r → vkeys (set_queue s (<[j:=r']> (q (queue_of s c))) c) = vkeys c.
Proof.
  intros Hj E. assert (∀ l : list Request, l !! j = Some r → map rk (<[j:=r']> l) = map rk l) as Hl.
  { intros l Hlj. apply list_eq. intros k. rewrite !list_lookup_fmap. destruct (decide (j = k)) as [<-|Hne].
    - rewrite list_lookup_insert_eq by eauto using lookup_lt_Some. by rewrite Hlj; simpl; rewrite E.
    - by rewrite list_lookup_insert_ne. }
  unfold vkeys, vreqs. destruct s; simpl in *; rewrite ?map_app; by rewrite ?Hl.
Qed.

Lemma vkeys_delete s j r (c : Controller L C S) :
  q (queue_of s c) !! j = Some r → s ≠ OtherQ →
  vkeys c ≡ₚ rk r :: vkeys (set_queue s (delete j (q (queue_of s c))) c).
Proof.
  intros Hj Hs. assert (∀ l : list Request, l !! j = Some r → map rk l ≡ₚ rk r :: map rk (delete j l)) as Hl.
  { intros l Hlj. pose proof (fmap_Permutation rk _ _ (delete_perm _ _ _ Hlj)) as Hp. by simpl in Hp. }
  unfold vkeys, vreqs. destruct s; simpl in *; [| |done]; rewrite !map_app, (Hl _ Hj); simpl; [done|].
  symmetry. apply Permutation_middle.
Qed.

Lemma vkeys_pending r (c : Controller L C S) :
  vkeys (set_pending (pending c ++ [r]) c) ≡ₚ rk r :: vkeys c.
Proof.
  unfold vkeys, vreqs. simpl. rewrite !map_app. simpl. rewrite !(assoc_L (++)). by rewrite <-Permutation_cons_append.
Qed.
End Keys.

(** ** The invariant *)
Section Vault.
(** The cube, and the number of cores that the statistics count. *)
Variables (o : HMC.HMC) (n : nat).
Context `{Hcount : !CountOK 5 (HMC.count (HMC.org_entry o))}.
Hypothesis Hlat : 1 < read_latency (HMC.spec o).
#[local] Instance vault_chan : ChanLaws (HMC.spec o) HMC.proto := HMC_chan o Hlat.

Abbreviation spec := (HMC.spec o).
Abbreviation pr := HMC.proto.
Abbreviation links := (HMC.source_links o).
Abbreviation base_inv v := (ctrl_core_inv spec pr (lim := negb (pim_mode_enabled v))).
Abbreviation hist := (list (event (C := HMC.Command))).

Record vault_inv (i : Z) (h : hist) (v : HmcCtrl) : Prop := {
  vi_base : base_inv v i h (vbase v);
  vi_ids : NoDup (map rk_id (vkeys (vbase v)));
  vi_packets k : k ∈ vkeys (vbase v) → ∃ p, incoming_packets_buffer v !! rk_id k = Some p ∧ fields_ok links p;
  vi_responses : Forall (response_ok links (HMC.payload_flits o)) (response_packets_buffer v);
  vi_sized : sized n (vbase v);
  vi_cores : Forall (λ k, 0 ≤ rk_core k < Z.of_nat n) (vkeys (vbase v))
}.

(** What keeps the vectors of the statistics at their size. *)
Lemma sized_by (c c' : BaseCtrl) : (cores_ok n (λ _, True) c → cores_ok n (λ _, True) c') → sized n c → sized n c'.
Proof. intros H. by rewrite !sized_any. Qed.

Hypothesis Hlinks : links ≤ 8.

(** *** Responses *)
Lemma respond_ok req v p :
  incoming_packets_buffer v !! reqid req = Some p → fields_ok links p →
  ∃ pk, respond o req v = Some (mkHCtrl (vbase v) (response_packets_buffer v ++ [pk])
                          (delete (reqid req) (incoming_packets_buffer v)) (pim_mode_enabled v)) ∧
    response_ok links (HMC.payload_flits o) pk ∧ preq pk = req ∧
    response_item pk = kitem (incoming_packets_buffer v) (rk req).
Proof.
  intros Hp (H1&H2&H3). unfold respond, form_response_packet. rewrite Hp; cbn [mbind option_bind].
  unfold Packet_response. rewrite bool_decide_true by done. cbn [mbind option_bind].
  unfold Datafield_valid. simpl. rewrite (proj2 (Z.ltb_lt _ 8)), (proj2 (Z.ltb_lt _ 2048)) by done.
  rewrite (proj2 (Z.ltb_lt _ 8)) by lia.
  assert (∀ c, (command_int c <? Z.shiftl 1 cmd_bits) = true) as -> by (intros []; reflexivity). simpl.
  eexists. split; [done|]. split_and!; [|done|].
  - unfold response_ok. simpl. split_and!; [done..|lia|lia|]. case_decide; auto.
  - unfold response_item, kitem, rk_id. simpl. by rewrite Hp.
Qed.

(** An item that leaves the vault. *)
Lemma items_take k ks inc :
  NoDup (map rk_id (k :: ks)) → map (kitem (delete (rk_id k) inc)) ks = map (kitem inc) ks.
Proof. intros [Hk _]%NoDup_cons. by apply kitem_delete. Qed.

Lemma vault_items_perm v ks : vkeys (vbase v) ≡ₚ ks → vault_items v ≡ₚ map (kitem (incoming_packets_buffer v)) ks.
Proof. intros H. unfold vault_items. by rewrite H. Qed.

(** The base controller changes and the keys are kept. *)
Lemma vault_base i h h' v c :
  vault_inv i h v → base_inv v i h' c → sized n c → vkeys c ≡ₚ vkeys (vbase v) →
  vault_inv i h' (set_vbase c v) ∧ vault_items (set_vbase c v) ≡ₚ vault_items v.
Proof.
  intros [H1 H2 H3 H4 H5 H6] Hc Hn Hk.
  split; [split|]; simpl; [done|by rewrite Hk|intros k; rewrite Hk; apply H3|done|done|by rewrite Hk|].
  unfold vault_items. simpl. by rewrite Hk.
Qed.

(** A request leaves the vault with its packet: to the response buffer, or (in
    PIM mode) to its callback. *)
Lemma vault_leave i h h' v c k resp :
  vault_inv i h v → base_inv v i h' c → sized n c → vkeys (vbase v) ≡ₚ k :: vkeys c →
  Forall (response_ok links (HMC.payload_flits o)) resp →
  let v' := mkHCtrl c (response_packets_buffer v ++ resp) (delete (rk_id k) (incoming_packets_buffer v)) (pim_mode_enabled v) in
  vault_inv i h' v' ∧ vault_items v ≡ₚ kitem (incoming_packets_buffer v) k :: vault_items v'.
Proof.
  intros [H1 H2 H3 H4 H5 H6] Hc Hn Hk Hresp. rewrite Hk in H2. split.
  - split; simpl; [done|by apply NoDup_cons in H2 as [_ ?]| |by apply Forall_app|done|rewrite Hk in H6; by apply Forall_cons in H6 as [_ ?]].
    intros k' Hk'. apply NoDup_cons in H2 as [Hnot _].
    rewrite lookup_delete_ne; [apply H3; rewrite Hk; by right|]. intros E. apply Hnot. rewrite E. by apply list_elem_of_fmap_2.
  - rewrite (vault_items_perm v _ Hk). simpl. unfold vault_items. simpl. by rewrite items_take.
Qed.

(** *** [receive(packet)] *)
Definition refuses (v : HmcCtrl) (r : Request) : bool :=
  negb (pim_mode_enabled v) && (qmax (queue_of (get_queue (type r)) (vbase v)) =? qsize (queue_of (get_queue (type r)) (vbase v))).

Lemma receive_packet_ok i h v p :
  vault_inv i h v → ptype p = REQUEST → fields_ok links p → is_rw (type (preq p)) = true →
  rw_addr spec i (addr_vec (preq p)) → is_first_command (preq p) = true → 0 ≤ coreid (preq p) < Z.of_nat n →
  rk_id (rk (preq p)) ∉ map rk_id (vkeys (vbase v)) →
  ∃ p' v', receive_packet o p v = Some (negb (refuses v (preq p)), p', v') ∧ vault_inv i h v' ∧
    ptype p' = ptype p ∧ header p' = header p ∧ tail p' = tail p ∧ total_flits p' = total_flits p ∧
    flow_control p' = flow_control p ∧
    rk (preq p') = rk (preq p) ∧ addr_vec (preq p') = addr_vec (preq p) ∧ is_first_command (preq p') = true ∧
    response_packets_buffer v' = response_packets_buffer v ∧ pim_mode_enabled v' = pim_mode_enabled v ∧
    vault_items v' ≡ₚ (if refuses v (preq p) then [] else [request_item p]) ++ vault_items v ∧
    (∀ x, x ≠ rk_id (rk (preq p)) → incoming_packets_buffer v' !! x = incoming_packets_buffer v !! x) ∧
    vkeys (vbase v') ≡ₚ (if refuses v (preq p) then [] else [rk (preq p)]) ++ vkeys (vbase v).
Proof.
  intros [H1 H2 H3 H4 H5 H6] Hty Hf Hrw Ha Hfirst Hcore Hid. unfold receive_packet. rewrite bool_decide_true by done.
  set (req := set_transaction_bytes _ _). set (p' := set_preq req p). cbn [mbind option_bind].
  set (v0 := set_incoming _ v). unfold hmc_enqueue. change (type req) with (type (preq p)).
  change (pim_mode_enabled v0) with (pim_mode_enabled v). change (vbase v0) with (vbase v).
  fold (refuses v (preq p)).
  assert (∀ k, k ∈ vkeys (vbase v) → incoming_packets_buffer v0 !! rk_id k = incoming_packets_buffer v !! rk_id k) as Hold.
  { intros k Hk. simpl. rewrite lookup_insert_ne; [done|]. intros E. apply Hid. unfold rk_id, rk in *. simpl in *.
    rewrite E. by apply (list_elem_of_fmap_2 rk_id). }
  assert (vault_items v0 = vault_items v) as Hitems by (by apply (kitem_insert _ (reqid req) p')).
  assert (∀ x, x ≠ rk_id (rk (preq p)) → incoming_packets_buffer v0 !! x = incoming_packets_buffer v !! x) as Hinc.
  { intros x Hx. simpl. by rewrite lookup_insert_ne. }
  destruct (refuses v (preq p)) eqn:Hr.
  - exists p', v0. split; [done|]. split_and!; try done; [|by rewrite Hitems].
    split; try done. intros k Hk. rewrite Hold by done. by apply H3.
  - exists p', (set_vbase (accept req (vbase v)) v0). split; [done|].
    assert (base_inv v i h (accept req (vbase v))) as Hacc.
    { apply accept_ok; [done| |done|].
      - unfold request_wf. change (type req) with (type (preq p)). change (addr_vec req) with (addr_vec (preq p)).
        by destruct (type (preq p)).
      - intros Hlim. pose proof (ci_size _ _ _ _ _ H1 (get_queue (type req)) Hlim). unfold refuses in Hr.
        rewrite Hlim in Hr. simpl in Hr. apply Z.eqb_neq in Hr. change (type req) with (type (preq p)) in *. lia. }
    assert (vkeys (accept req (vbase v)) ≡ₚ rk (preq p) :: vkeys (vbase v)) as Hk by (by apply (vkeys_accept req)).
    split_and!; try done.
    + split; [done| | |done|by apply (sized_by (vbase v)); [intros Hco; by apply cores_accept|]|].
      * simpl. rewrite Hk. simpl. by apply NoDup_cons.
      * intros k. simpl. rewrite Hk, elem_of_cons. intros [->|Hkk].
        -- exists p'. by rewrite lookup_insert_eq.
        -- pose proof (Hold _ Hkk) as E. simpl in E. rewrite E. by apply H3.
      * simpl. rewrite Hk. by constructor.
    + unfold vault_items at 1. simpl. rewrite Hk. simpl. rewrite <-Hitems. unfold kitem at 1, rk_id, rk. simpl.
      by rewrite lookup_insert_eq.
Qed.

(** *** 1. Completed reads *)

(** What the phases before the scheduler leave alone. *)
Definition frame (v v' : HmcCtrl) : Prop :=
  clk (vbase v') = clk (vbase v) ∧ (∀ s, queue_of s (vbase v') = queue_of s (vbase v)) ∧
  refresh (vbase v') = refresh (vbase v) ∧ pim_mode_enabled v' = pim_mode_enabled v.

Lemma serve_base i h v r rest :
  base_inv v i h (vbase v) → pending (vbase v) = r :: rest →
  ∃ c, (if 1 <? depart r - arrive r then serving spec (addr_vec r) (-1) (vbase v) else Some (vbase v)) = Some c ∧
    base_inv v i h (set_pending rest c) ∧ clk c = clk (vbase v) ∧ (∀ s, queue_of s c = queue_of s (vbase v)) ∧
    refresh c = refresh (vbase v) ∧ pending c = r :: rest ∧ (sized n (vbase v) → sized n c).
Proof.
  intros Hc Hp. set (c := vbase v) in *. pose proof (ci_pending _ _ _ _ _ Hc) as Hpend. rewrite Hp in Hpend.
  apply Forall_cons in Hpend as [[Hr Hwf] Hrest].
  destruct (1 <? depart r - arrive r) eqn:Hlat'.
  - destruct (serving_ok spec pr (lim := negb (pim_mode_enabled v)) i h c (addr_vec r) (begun (q (readq c)) ++ begun (q (writeq c)) ++ waiting rest) (-1))
      as (d'&Hu&Hch&_&Hs); [done|by apply (read_wf spec pr)|by right| |].
    { simpl. unfold started. rewrite Hp, waiting_cons, Hlat'. simpl. rewrite !(assoc_L (++)).
      by rewrite Permutation_middle. }
    exists (set_channel d' c). rewrite Hu. split_and!; try done. destruct Hc. by split.
  - exists c. split_and!; try done. apply inv_set_pending; [done|done|]. eapply serve_inv_perm; [|apply Hc].
    unfold started; simpl. by rewrite Hp, waiting_cons, Hlat'.
Qed.

Lemma hmc_serve_ok i h v :
  vault_inv i h v →
  ∃ done v' resp, hmc_serve_pending o v = Some (done, v') ∧ vault_inv i h v' ∧ frame v v' ∧
    response_packets_buffer v' = response_packets_buffer v ++ resp ∧
    vault_items v ≡ₚ map (kitem (incoming_packets_buffer v)) (map rk done) ++ map response_item resp ++ vault_items v' ∧
    Forall (λ r, type r = READ) done ∧ (pim_mode_enabled v = false → done = []).
Proof.
  intros Hv. pose proof (vi_base _ _ _ Hv) as Hc. unfold hmc_serve_pending.
  destruct (pending (vbase v)) as [|r rest] eqn:Hp; [exists [], v, []; by rewrite app_nil_r|].
  destruct (depart r <=? clk (vbase v)) eqn:Hd; [|exists [], v, []; by rewrite app_nil_r].
  destruct (serve_base i h v r rest Hc Hp) as (c&Hs&Hinv&Hclk&Hq&Href&Hpc&Hsz). rewrite Hs; cbn [mbind option_bind].
  pose proof (ci_pending _ _ _ _ _ Hc) as Hpend. rewrite Hp in Hpend. apply Forall_cons in Hpend as [[Hr _] _].
  assert (vkeys (vbase v) ≡ₚ rk r :: vkeys (set_pending rest c)) as Hk.
  { unfold vkeys, vreqs. pose proof (Hq ReadQ) as Hqr. pose proof (Hq WriteQ) as Hqw. simpl in *.
    rewrite Hqr, Hqw, Hp, !map_app. simpl. rewrite !(assoc_L (++)). symmetry. apply Permutation_middle. }
  destruct (vi_packets _ _ _ Hv (rk r)) as (p&Hin&Hf); [rewrite Hk; by left|].
  pose proof (λ resp, vault_leave i h h v (set_pending rest c) (rk r) resp Hv Hinv (Hsz (vi_sized _ _ _ Hv)) Hk) as Hleave.
  destruct (pim_mode_enabled v) eqn:Hpim.
  - simpl. rewrite Hr. simpl. change (reqid r) with (rk_id (rk r)). rewrite Hin; cbn [mbind option_bind].
    destruct (Hleave []) as [Hv' Hi]; [constructor|]. rewrite app_nil_r in Hv', Hi. eexists _, _, []. split; [done|].
    split_and!; try done; simpl; [by rewrite app_nil_r|by constructor].
  - destruct (respond_ok r (set_vbase c v) p Hin Hf) as (pk&->&Hok&_&Hit). cbn [mbind option_bind].
    destruct (Hleave [pk]) as [Hv' Hi]; [by constructor|]. eexists [], _, [pk]. split; [unfold set_vbase; simpl; rewrite Hpim; done|].
    split_and!; try done; simpl in *; by rewrite ?Hit.
Qed.

(** *** 2. Refresh *)

Definition vault_due (v : HmcCtrl) : bool := nREFI spec <=? ref_clk (refresh (vbase v)) + 1 - refreshed (refresh (vbase v)).
Definition vault_full (v : HmcCtrl) : bool :=
  negb (pim_mode_enabled v) && (qmax (otherq (vbase v)) =? qsize (otherq (vbase v))).

Lemma hmc_refresh_addr i : ref_addr spec pr i (<[0%nat := i]> (replicate (level_MAX spec) (-1))).
Proof.
  split_and!; try done.
  - split; [done|]. intros k x Hx Hk. rewrite list_lookup_insert_ne in Hx by lia.
    apply lookup_replicate in Hx as [-> Hlt].
    destruct (lookup_lt_is_Some_2 (count spec) k) as [y Hy]; [by rewrite (count_len (spec:=spec))|].
    rewrite Hy. simpl. pose proof (count_nonneg (spec:=spec)) as Hn. rewrite Forall_lookup in Hn.
    specialize (Hn _ _ Hy). simpl in Hn. lia.
  - split; [done|]. simpl. intros j Hj. lia.
Qed.

Lemma hmc_tick_ref_ok i h v :
  vault_inv i h v →
  if vault_due v && vault_full v then hmc_tick_ref o v = None
  else ∃ v', hmc_tick_ref o v = Some v' ∧ vault_inv i h v' ∧ clk (vbase v') = clk (vbase v) ∧
    pim_mode_enabled v' = pim_mode_enabled v ∧ response_packets_buffer v' = response_packets_buffer v ∧
    vault_items v' ≡ₚ vault_items v.
Proof.
  intros Hv. pose proof (vi_base _ _ _ Hv) as Hc. unfold hmc_tick_ref.
  set (c0 := set_refresh _ (vbase v)). fold (vault_due v).
  assert (base_inv v i h c0) as Hc0 by (by apply (inv_frame spec pr i h (vbase v))).
  destruct (vault_base i h h v c0 Hv Hc0) as [Hv0 Hi0]; [apply Hv|done|]. change (nREFI spec <=? _) with (vault_due v).
  destruct (vault_due v); simpl; [|by exists (set_vbase c0 v)].
  unfold hmc_inject_refresh, hmc_refresh_target. cbn [mbind option_bind].
  assert (nid (info (channel (vbase v))) = i) as -> by (eapply chan_id, Hc).
  unfold hmc_enqueue. change (type (Request_addr_vec _ _ _)) with REFRESH. cbn [get_queue queue_of].
  change (pim_mode_enabled (set_vbase c0 v)) with (pim_mode_enabled v).
  change (otherq (vbase (set_vbase c0 v))) with (otherq (vbase v)). fold (vault_full v).
  destruct (vault_full v) eqn:Hfull; [done|]. cbn [mbind option_bind].
  set (req := Request_addr_vec _ _ _). change (vbase (set_vbase c0 v)) with c0.
  assert (base_inv v i h (accept req c0)) as Hacc.
  { apply accept_ok; [done|exact (hmc_refresh_addr i)|done|]. intros Hlim.
    pose proof (ci_size _ _ _ _ _ Hc0 OtherQ Hlim). unfold vault_full in Hfull. rewrite Hlim in Hfull. simpl in *.
    apply Z.eqb_neq in Hfull. lia. }
  set (c1 := accept req c0) in *. set (c2 := set_refresh (mkRefresh (ref_clk (refresh c1)) (ref_clk (refresh c1)) (bank_ref_counters (refresh c1))) c1).
  assert (base_inv v i h c2) as Hc2 by (by apply (inv_frame spec pr i h c1)).
  destruct (vault_base i h h v c2 Hv Hc2) as [Hv2 Hi2]; [by apply (sized_by c0); [intros Hco; by apply cores_accept|apply Hv]|..].
  { unfold c2. rewrite (vkeys_queues c1) by done. unfold c1. by rewrite vkeys_accept_other. }
  exists (set_vbase c2 v). by split_and!.
Qed.

(** *** 4. Scheduling *)

(** Only the statistics differ from the base controller's first command. *)
Lemma hmc_first_stats_ok req hit open now st st' :
  Forall (has_length n) (core_vectors st) → first_stats spec req hit open now st = Some st' →
  ∃ st'', hmc_first_stats req hit open now st = Some st'' ∧ Forall (has_length n) (core_vectors st'').
Proof.
  intros Hn H. pose proof (first_stats_ok spec n req hit open now st Hn) as Hst. rewrite H in Hst.
  unfold first_stats, hmc_first_stats in *. destruct (type req); simplify_eq; try by eexists.
  - destruct (count_row_read _ _ _ _) as [s|]; simplify_eq/=. eexists. split; [done|].
    case_match; [|done]. by destruct Hst as (?&[= <-]&?).
  - destruct (count_row_write _ _ _ _) as [s|]; simplify_eq/=. eexists. split; [done|].
    case_match; [|done]. by destruct Hst as (?&[= <-]&?).
Qed.

Lemma hmc_first_command_stats s j req (c c' : BaseCtrl) :
  sized n c → q (queue_of s c) !! j = Some req → first_command spec s j req c = Some c' →
  ∃ st, hmc_first_command o s j req c = Some (set_cstats st c') ∧ sized n (set_cstats st c').
Proof.
  intros Hn Hj H. assert (sized n c') as Hn' by (by apply (sized_by c); [intros Hc; eapply cores_first_command|]).
  unfold first_command, hmc_first_command in *. case_match; [case_match|]; run_opt.
  - match goal with H : serving _ _ _ _ = Some ?x |- _ => rewrite H; rename x into c1; rename H into Hs end. simpl.
    match goal with H : is_row_hit _ _ _ = Some _ |- _ => rewrite H end. simpl.
    match goal with H : (if _ then _ else _) = Some _ |- _ => rewrite H end. simpl.
    match goal with H : first_stats _ _ _ _ _ _ = Some _ |- _ => apply hmc_first_stats_ok in H as (st&->&Hst) end.
    + simpl. exists st. split; [by destruct c1|]. split; [done|]. apply Hn'.
    + apply (sized_by c); [|done]. intros Hc. eapply cores_serving; [|done]. by eapply cores_insert.
  - eexists (cstats _). split; [f_equal; by destruct c, s|]. by destruct c, s.
  - exists (cstats c'). split; [f_equal; by destruct c'|]. by destruct c'.
Qed.

Lemma first_command_vkeys s j req (c c' : BaseCtrl) :
  first_command spec s j req c = Some c' → q (queue_of s c) !! j = Some req → vkeys c' = vkeys c.
Proof.
  unfold first_command. intros H Hj. case_match; [case_match|]; run_opt; [| |done].
  - match goal with H : serving _ _ _ _ = Some _ |- _ => apply serving_members in H as (Hq&Hp&_) end.
    change (vkeys (set_cstats ?st ?x)) with (vkeys x). rewrite (vkeys_queues _ _ Hq Hp). by eapply vkeys_insert.
  - by eapply vkeys_insert.
Qed.

Lemma complete_vkeys s j r (c c' : BaseCtrl) :
  complete spec s j r c = Some c' → q (queue_of s c) !! j = Some r → get_queue (type r) = s →
  vkeys c ≡ₚ (if decide (type r = WRITE) then [rk r] else []) ++ vkeys c'.
Proof.
  unfold complete. intros H Hj Hs. destruct (type r) eqn:E; simpl in Hs; subst s; simpl in H; run_opt; try done.
  - rewrite (vkeys_delete ReadQ j r c Hj) by done. symmetry.
    apply (vkeys_pending (set_depart (clk c + read_latency spec) r) (set_queue ReadQ (delete j (q (readq c))) c)).
  - match goal with H : serving _ _ _ _ = Some ?x |- _ => apply serving_members in H as (Hq&Hp&_); rename x into c1 end.
    rewrite (vkeys_delete WriteQ j r c Hj) by done. simpl. f_equiv.
    pose proof (Hq ReadQ) as Hr. pose proof (Hq WriteQ) as Hw. simpl in Hr, Hw. unfold vkeys, vreqs. simpl. by rewrite Hr, Hw, Hp.
Qed.

Lemma one_burst_rk r : rk (one_burst r) = rk r.
Proof. unfold one_burst. by destruct (is_rw (type r)). Qed.

Lemma hmc_complete_more s j r v :
  burst_count (one_burst r) ≠ 0 → hmc_complete o s j r v = Some (set_vbase (with_burst s j r (vbase v)) v).
Proof.
  intros Hb. unfold hmc_complete. fold (one_burst r). rewrite (proj2 (Z.eqb_neq _ _) Hb), andb_false_r.
  destruct (one_burst_frame r) as (_&->&_). fold (with_burst s j r (vbase v)). by destruct (type r).
Qed.

(** The last burst: the base controller completes the request. *)
Lemma hmc_complete_last s j r v c :
  burst_count (one_burst r) = 0 → type r ≠ WRITE → get_queue (type r) = s →
  complete spec s j (one_burst r) (with_burst s j r (vbase v)) = Some c →
  hmc_complete o s j r v = Some (set_vbase c v).
Proof.
  intros Hb Hw Hs. unfold hmc_complete, complete. fold (one_burst r). rewrite Hb, Z.eqb_refl, andb_true_r.
  destruct (one_burst_frame r) as (_&Et&_). rewrite Et. rewrite (decide_False (P := type r = WRITE)) by done.
  destruct (decide (type r = READ)) as [Hr|Hr].
  - rewrite bool_decide_true by done. simpl. rewrite Et, Hr. rewrite Hr in Hs. simpl in Hs. subst s. simpl.
    intros [= <-]. by rewrite !delete_insert_list.
  - rewrite bool_decide_false by done. rewrite Et. simpl. intros [= <-]. fold (with_burst s j r (vbase v)).
    by destruct (type r).
Qed.

Lemma hmc_complete_write j r v c p :
  burst_count (one_burst r) = 0 → type r = WRITE → incoming_packets_buffer v !! reqid r = Some p → fields_ok links p →
  complete spec WriteQ j (one_burst r) (with_burst WriteQ j r (vbase v)) = Some c →
  ∃ pk, hmc_complete o WriteQ j r v = Some (mkHCtrl c (response_packets_buffer v ++ [pk])
            (delete (reqid r) (incoming_packets_buffer v)) (pim_mode_enabled v)) ∧
    response_ok links (HMC.payload_flits o) pk ∧ response_item pk = kitem (incoming_packets_buffer v) (rk r).
Proof.
  intros Hb Hw Hp Hf. unfold hmc_complete, complete. fold (one_burst r). rewrite Hb, Z.eqb_refl, andb_true_r.
  pose proof (one_burst_rk r) as Ek. destruct (one_burst_frame r) as (_&Et&Ea&_). rewrite Et, Hw. simpl. rewrite Et, Hw. simpl. intros H. run_opt.
  match goal with H : serving _ _ _ _ = Some _ |- _ => rename H into Hs end.
  assert (reqid (one_burst r) = reqid r) as Eid by (unfold rk in Ek; by simplify_eq).
  match goal with |- context [respond o ?r1 ?v1] =>
    destruct (respond_ok r1 v1 p) as (pk&->&Hok&_&Hit); [by rewrite Eid|done|] end. rewrite Eid. simpl. rewrite Hs. simpl.
  exists pk. rewrite Hit, Ek. done.
Qed.

(** One burst of the request at index [j]. *)
Lemma hmc_complete_ok i h v s j r :
  vault_inv i h v → q (queue_of s (vbase v)) !! j = Some r → is_first_command r = false →
  ∃ v' resp, hmc_complete o s j r v = Some v' ∧ vault_inv i h v' ∧ clk (vbase v') = clk (vbase v) ∧
    pim_mode_enabled v' = pim_mode_enabled v ∧ response_packets_buffer v' = response_packets_buffer v ++ resp ∧
    vault_items v ≡ₚ map response_item resp ++ vault_items v'.
Proof.
  intros Hv Hj Hfirst. pose proof (vi_base _ _ _ Hv) as Hc. pose proof (queued_at spec pr _ _ _ _ _ _ Hc Hj) as Hqd.
  pose proof (one_burst_rk r) as Ek. destruct (one_burst_frame r) as (Ef&Et&Ea&Er). set (c1 := with_burst s j r (vbase v)).
  destruct (with_burst_ok spec pr i h (vbase v) s j r Hc Hj Hfirst) as [Hc1 Hj1]. fold c1 in Hc1, Hj1.
  assert (vkeys c1 = vkeys (vbase v)) as Hk1 by (by eapply vkeys_insert).
  assert (sized n c1) as Hn1.
  { apply (sized_by (vbase v)); [|apply Hv]. intros Hco. unfold c1, with_burst. eapply cores_insert; [done|done|done|].
    unfold rk in Ek. congruence. }
  destruct (decide (burst_count (one_burst r) = 0)) as [Hb|Hb].
  2:{ destruct (vault_base i h h v c1 Hv Hc1 Hn1) as [Hv1 Hi1]; [by rewrite Hk1|].
    eexists _, []. rewrite hmc_complete_more by done. split; [done|]. split_and!; try done; [by destruct s|by rewrite app_nil_r]. }
  destruct (complete_ok spec pr i h c1 s j (one_burst r) Hc1 Hj1) as (c2&Hcomp&Hc2&Hclk2); [congruence|].
  assert (get_queue (type r) = s) as Hs by apply Hqd.
  assert (sized n c2) as Hn2 by (apply (sized_by c1); [|done]; intros Hco; by eapply cores_complete).
  pose proof (complete_vkeys _ _ _ _ _ Hcomp Hj1) as Hk2. rewrite Et, Hk1, Ek in Hk2. specialize (Hk2 Hs).
  assert (clk c2 = clk (vbase v)) as Hclk by (rewrite Hclk2; by destruct s).
  destruct (decide (type r = WRITE)) as [Hw|Hw].
  - rewrite Hw in Hs. simpl in Hs. subst s.
    destruct (vi_packets _ _ _ Hv (rk r)) as (p&Hp&Hf); [rewrite Hk2; by left|].
    destruct (hmc_complete_write j r v c2 p Hb Hw Hp Hf Hcomp) as (pk&->&Hok&Hit).
    destruct (vault_leave i h h v c2 (rk r) [pk] Hv Hc2 Hn2 Hk2) as [Hv' Hi]; [by constructor|].
    eexists _, [pk]. split; [done|]. split_and!; try done. simpl in *. by rewrite Hit.
  - destruct (vault_base i h h v c2 Hv Hc2 Hn2) as [Hv' Hi]; [by rewrite Hk2|].
    eexists _, []. rewrite (hmc_complete_last s j r v c2) by done. split; [done|]. split_and!; try done. by rewrite app_nil_r.
Qed.

(** A queued read or write is of a known core. *)
Lemma vault_counted i h v s j req :
  vault_inv i h v → q (queue_of s (vbase v)) !! j = Some req → counted n req = true.
Proof.
  intros Hv Hj. unfold counted. destruct (is_rw (type req)) eqn:Hrw; [|by rewrite andb_false_r].
  apply orb_true_intro. right. apply in_range_true. pose proof (vi_cores _ _ _ Hv) as Hc. rewrite Forall_forall in Hc.
  apply (Hc (rk req)). unfold vkeys, vreqs. apply list_elem_of_fmap_2. rewrite !elem_of_app.
  destruct (queued_at spec pr _ _ _ _ _ _ (vi_base _ _ _ Hv) Hj) as (Hs&_).
  apply list_elem_of_lookup_2 in Hj. destruct (type req); try done; simpl in Hs; subst s; simpl in Hj; auto.
Qed.

Lemma hmc_issue_request_ok i h v s j req :
  vault_inv i h v → fresh h (vbase v) → q (queue_of s (vbase v)) !! j = Some req →
  is_ready spec (vbase v) req = Some true →
  ∃ v' resp e, hmc_issue_request o s j req v = Some v' ∧ vault_inv i (e :: h) v' ∧ clk (vbase v') = clk (vbase v) ∧
    pim_mode_enabled v' = pim_mode_enabled v ∧ response_packets_buffer v' = response_packets_buffer v ++ resp ∧
    vault_items v ≡ₚ map response_item resp ++ vault_items v'.
Proof.
  intros Hv Hf Hj Hready. pose proof (vi_base _ _ _ Hv) as Hc. pose proof (queued_at spec pr _ _ _ _ _ _ Hc Hj) as (_&Hwf&_).
  destruct (first_command_ok spec pr i h n (vbase v) s j req Hc (vi_sized _ _ _ Hv) Hj) as (c0&Hfc&Hc0&Hj0&Hb&Hclk).
  { by eapply vault_counted. }
  pose proof (first_command_vkeys _ _ _ _ _ Hfc Hj) as Hk0.
  destruct (hmc_first_command_stats _ _ _ _ _ (vi_sized _ _ _ Hv) Hj Hfc) as (st&Hst&Hn1). set (c1 := set_cstats st c0) in *.
  assert (base_inv v i h c1) as Hc1 by (by apply (inv_frame spec pr i h c0)).
  destruct (ready_after_first spec pr (lim := negb (pim_mode_enabled v)) i h (vbase v) c1 s j req) as (cmd&Hg&Hd1&_&Hr); [done..|].
  destruct (issue_ok spec pr (lim := negb (pim_mode_enabled v)) i h c1 cmd req) as (c2&Hi&Hc2&Hclk2&Hq2&Hp2);
    [done|unfold fresh in *; simpl; by rewrite Hclk|done..|].
  assert (vkeys c2 = vkeys (vbase v)) as Hk2 by (rewrite (vkeys_queues _ _ Hq2 Hp2); done).
  assert (sized n c2) as Hn2 by (apply (sized_by c1); [|done]; intros Hco; by eapply cores_issue_cmd).
  destruct (vault_base i h _ v c2 Hv Hc2 Hn2) as [Hv2 Hi2]; [by rewrite Hk2|].
  unfold hmc_issue_request. rewrite Hst; cbn [mbind option_bind]. rewrite Hg; cbn [mbind option_bind].
  rewrite Hi; cbn [mbind option_bind]. assert (clk c2 = clk (vbase v)) as Hclk' by (rewrite Hclk2; exact Hclk).
  case_decide; [exists (set_vbase c2 v), [], (cmd, addr_vec req, clk c1); split_and!; try done; by rewrite app_nil_r|].
  assert (q (queue_of s c2) !! j = Some (set_is_first_command false req)) as Hj2 by (rewrite Hq2; by destruct s).
  rewrite Hj2; cbn [mbind option_bind].
  destruct (hmc_complete_ok i _ (set_vbase c2 v) s j _ Hv2 Hj2) as (v'&resp&Hcomp&Hv'&Hclkv&Hpim&Hresp&Hit); [done|].
  exists v', resp, (cmd, addr_vec req, clk c1). split_and!; try done; [by rewrite Hclkv|by rewrite <-Hi2].
Qed.

Lemma set_vbase_id v : set_vbase (vbase v) v = v.
Proof. by destruct v. Qed.

Lemma hmc_schedule_ok i h v :
  vault_inv i h v → fresh h (vbase v) →
  ∃ v' h' resp, hmc_schedule o v = Some v' ∧ vault_inv i h' v' ∧ clk (vbase v') = clk (vbase v) ∧
    pim_mode_enabled v' = pim_mode_enabled v ∧ response_packets_buffer v' = response_packets_buffer v ++ resp ∧
    vault_items v ≡ₚ map response_item resp ++ vault_items v' ∧ (h' = h ∨ ∃ e, h' = e :: h).
Proof.
  intros Hv Hf. pose proof (vi_base _ _ _ Hv) as Hc. unfold hmc_schedule.
  destruct (head_ok spec pr i h (vbase v) (pick_queue (vbase v)) Hc) as (oj&Hh&Ho).
  rewrite Hh; cbn [mbind option_bind]. rewrite set_rowtable_id.
  assert (∃ v' h' resp, (if negb (no_DRAM_latency (vbase v)) then
      victim ← get_victim (view_of spec (vbase v)) (rowpolicy (vbase v)) (cmd_PRE spec) (rowtable (vbase v));
      if bool_decide (victim = []) then Some (set_vbase (vbase v) v)
      else c ← issue_cmd spec (cmd_PRE spec) victim (vbase v); Some (set_vbase c v)
      else Some (set_vbase (vbase v) v)) = Some v' ∧ vault_inv i h' v' ∧ clk (vbase v') = clk (vbase v) ∧
    pim_mode_enabled v' = pim_mode_enabled v ∧ response_packets_buffer v' = response_packets_buffer v ++ resp ∧
    vault_items v ≡ₚ map response_item resp ++ vault_items v' ∧ (h' = h ∨ ∃ e, h' = e :: h)) as Hidle.
  { rewrite (ci_real _ _ _ _ _ Hc); simpl. unfold get_victim. rewrite (ci_policy _ _ _ _ _ Hc); simpl.
    rewrite set_vbase_id. exists v, h, []. split_and!; auto. by rewrite app_nil_r. }
  destruct oj as [j|]; [|exact Hidle]. destruct Ho as [req Hj]. rewrite Hj; cbn [mbind option_bind].
  destruct (queue_answers spec pr i h (vbase v) (pick_queue (vbase v)) req Hc) as (ready&_&_&Hr&_);
    [by eapply list_elem_of_lookup_2|].
  rewrite Hr; cbn [mbind option_bind]. destruct ready; [|exact Hidle]. rewrite set_vbase_id.
  destruct (hmc_issue_request_ok i h v _ j req Hv Hf Hj Hr) as (v'&resp&e&H1&H2&H3&H4&H5&H6).
  exists v', (e :: h), resp. split_and!; eauto.
Qed.

(** *** The whole cycle *)

(** [tick] fails only when the refresh of the vault is due and its queue is
    full; every item that leaves the vault is in a response or (in PIM mode)
    called back. *)
Lemma hmc_tick_ok i h v :
  vault_inv i h v →
  if vault_due v && vault_full v then hmc_tick o v = None
  else ∃ done v' h' resp, hmc_tick o v = Some (done, v') ∧ vault_inv i h' v' ∧
    pim_mode_enabled v' = pim_mode_enabled v ∧ response_packets_buffer v' = response_packets_buffer v ++ resp ∧
    vault_items v ≡ₚ map (kitem (incoming_packets_buffer v)) (map rk done) ++ map response_item resp ++ vault_items v' ∧
    Forall (λ r, type r = READ) done ∧ (pim_mode_enabled v = false → done = []) ∧ (h' = h ∨ ∃ e, h' = e :: h).
Proof.
  intros Hv. pose proof (vi_base _ _ _ Hv) as Hc.
  destruct (tick_clk_ok spec pr i h (vbase v) Hc) as [Hc0 Hf].
  destruct (vault_base i h h v (tick_clk (vbase v)) Hv Hc0) as [Hv0 Hi0];
    [by apply (sized_by (vbase v)); [apply cores_tick_clk|apply Hv]|done|].
  destruct (hmc_serve_ok i h _ Hv0) as (done&v1&r1&Hs&Hv1&(Hclk1&Hq1&Href1&Hpim1)&Hr1&Hit1&Hdone&Hnil).
  unfold hmc_tick. rewrite Hs; cbn [mbind option_bind].
  pose proof (hmc_tick_ref_ok i h v1 Hv1) as Ht.
  assert (vault_due v1 = vault_due v) as Ed by (unfold vault_due; by rewrite Href1).
  assert (vault_full v1 = vault_full v) as Ef.
  { unfold vault_full. pose proof (Hq1 OtherQ) as Ho. simpl in Ho. by rewrite Ho, Hpim1. }
  rewrite Ed, Ef in Ht. destruct (vault_due v && vault_full v); [by rewrite Ht|].
  destruct Ht as (v2&->&Hv2&Hclk2&Hpim2&Hr2&Hit2). cbn [mbind option_bind].
  pose proof (vi_base _ _ _ Hv2) as Hb2. destruct (switch_mode_ok spec pr i h (vbase v2) Hb2) as [Hb3 Hclk3].
  destruct (vault_base i h h v2 (switch_mode (vbase v2)) Hv2 Hb3) as [Hv3 Hi3];
    [by apply (sized_by (vbase v2)); [apply cores_switch_mode|apply Hv2]|..].
  { rewrite (vkeys_queues (vbase v2) (switch_mode (vbase v2))); [done|intros s|]; unfold switch_mode; by repeat case_match. }
  destruct (hmc_schedule_ok i h _ Hv3) as (v4&h'&r4&->&Hv4&Hclk4&Hpim4&Hr4&Hit4&Hh).
  { unfold fresh in *. simpl. by rewrite Hclk3, Hclk2, Hclk1. }
  cbn [mbind option_bind]. exists done, v4, h', (r1 ++ r4). split_and!; try done.
  - rewrite Hpim4. simpl. rewrite Hpim2, Hpim1. done.
  - rewrite Hr4. simpl. rewrite Hr2, Hr1. simpl. by rewrite (assoc_L (++)).
  - rewrite <-Hi0, Hit1, map_app, <-(assoc_L (++)). f_equiv. f_equiv. by rewrite <-Hit2, <-Hi3, Hit4.
Qed.

End Vault.
