(* ===== verification/NetInv.v ===== *)
(** * The invariant of the network

    What the links of a logic layer hold, and that the masters of the links and
    the crossbar move packets without losing or duplicating one: the items in
    the links, in the vaults and delivered to the host stay the same up to
    order. *)

From Stdlib Require Import Permutation.
From S2P Require Import Prelude Double Request Dram DramTiming BankProtocol Device Standard Controller CtrlQueries ControllerTick.
From S2P Require Import SpecHMC Packet HmcController Memory MemoryMap Link HmcMemory VaultInv.

#[local] Arguments d_mul : simpl never.
#[local] Arguments d_int : simpl never.
#[local] Arguments d_ceil : simpl never.

(** ** Items *)
Definition item_id (x : Item) : Z := rk_id x.2.
Definition link_items (l : Link) : list Item :=
  map request_item (input_buffer (slave l)) ++ map response_item (output_buffer (master l)).
Definition vault_all (v : HmcCtrl) : list Item := vault_items v ++ map response_item (response_packets_buffer v).
Definition links_items (ls : list Link) : list Item := concat (map link_items ls).
Definition vaults_items (vs : list HmcCtrl) : list Item := concat (map vault_all vs).

Lemma vault_items_ids v : map item_id (vault_items v) = map rk_id (vkeys (vbase v)).
Proof. unfold vault_items. rewrite map_map. by apply map_ext. Qed.

Lemma vaults_items_lookup vs j v :
  vs !! j = Some v → vaults_items vs ≡ₚ vault_all v ++ vaults_items (delete j vs).
Proof.
  intros Hj. unfold vaults_items. rewrite (delete_take_drop vs j), <-(take_drop_middle vs j v Hj) at 1.
  rewrite !map_app, !concat_app. simpl. apply Permutation_app_swap_app.
Qed.

Lemma vaults_items_insert vs j v v' x y :
  vs !! j = Some v → x ++ vault_all v ≡ₚ y ++ vault_all v' →
  x ++ vaults_items vs ≡ₚ y ++ vaults_items (<[j:=v']> vs).
Proof.
  intros Hj H. rewrite (vaults_items_lookup vs j v Hj).
  rewrite (vaults_items_lookup (<[j:=v']> vs) j v') by (by apply list_lookup_insert_eq, (lookup_lt_Some _ _ v)).
  by rewrite delete_insert_list, !(assoc_L (++)), H.
Qed.

Lemma links_items_insert ls j l l' x y :
  ls !! j = Some l → x ++ link_items l ≡ₚ y ++ link_items l' →
  x ++ links_items ls ≡ₚ y ++ links_items (<[j:=l']> ls).
Proof.
  intros Hj H. unfold links_items. rewrite <-(take_drop_middle ls j l Hj) at 1.
  rewrite insert_take_drop by (by eapply lookup_lt_Some). rewrite !map_app, !concat_app. simpl.
  rewrite (Permutation_app_swap_app (concat _)), (Permutation_app_swap_app (concat (map link_items (take j ls)))).
  by rewrite !(assoc_L (++)), H.
Qed.

(** ** The host *)

(** The free tags with their links. *)
Definition pool_pairs (pools : list (list Z)) : list (Z * Z) :=
  concat (imap (λ s pool, map (pair (Z.of_nat s)) pool) pools).

Lemma concat_imap_insert {A B} (f : nat → A → list B) l j a a' x y :
  l !! j = Some a → x ++ f j a ≡ₚ y ++ f j a' →
  x ++ concat (imap f l) ≡ₚ y ++ concat (imap f (<[j:=a']> l)).
Proof.
  revert f j. induction l as [|b l IH]; intros f j Hj H; [done|]. destruct j as [|j]; simplify_eq/=.
  - by rewrite !(assoc_L (++)), H.
  - rewrite (Permutation_app_swap_app x), (Permutation_app_swap_app y). f_equiv. by apply (IH (f ∘ S)).
Qed.

Lemma pool_pairs_insert pools j pool pool' x y :
  pools !! j = Some pool → x ++ map (pair (Z.of_nat j)) pool ≡ₚ y ++ map (pair (Z.of_nat j)) pool' →
  x ++ pool_pairs pools ≡ₚ y ++ pool_pairs (<[j:=pool']> pools).
Proof. intros Hj H. by eapply (concat_imap_insert (λ s pool, map (pair (Z.of_nat s)) pool)). Qed.

(** Whether an item is a read, to be called back. *)
Definition is_read_key (k : RKey) : bool := bool_decide (k.1.1.2 = READ).

(** The vectors of the statistics. *)
Definition host_vectors (st : hmc_stats) : list VectorStat :=
  [h_read_requests st; h_write_requests st; h_requests_per_channel st; h_read_reqs_per_channel st].

(** The host after the items [ds] were delivered. *)
Definition delivered (ds : list Item) (h h' : Host) : Prop :=
  length (host_tags h') = length (host_tags h) ∧
  pool_pairs (host_tags h') ≡ₚ map fst ds ++ pool_pairs (host_tags h) ∧
  map rk (called h') = map rk (called h) ++ List.filter is_read_key (map snd ds) ∧
  host_vectors (host_stats h') = host_vectors (host_stats h).

Lemma delivered_nil h : delivered [] h h.
Proof. split_and!; [done..|by rewrite app_nil_r|done]. Qed.

Lemma delivered_app ds1 ds2 h1 h2 h3 : delivered ds1 h1 h2 → delivered ds2 h2 h3 → delivered (ds1 ++ ds2) h1 h3.
Proof.
  intros (L1&P1&C1&V1) (L2&P2&C2&V2). split_and!; [congruence| | |congruence].
  - rewrite P2, P1, map_app, <-(assoc_L (++)). apply Permutation_app_swap_app.
  - rewrite C2, C1, map_app, List.filter_app. by rewrite (assoc_L (++)).
Qed.

Section Net.
(** The cube, and the number of cores that the statistics count. *)
Variables (o : HMC.HMC) (cores : nat).
Context `{Hcount : !CountOK 5 (HMC.count (HMC.org_entry o))}.
Hypothesis Hlat : 1 < read_latency (HMC.spec o).

Abbreviation spec := (HMC.spec o).
Abbreviation links := (HMC.source_links o).
Abbreviation flits := (HMC.payload_flits o).
Hypothesis Hlinks : links ≤ 8.
Hypothesis Hflits : 0 ≤ flits.

Lemma receive_packets_ok x p h :
  response_ok links flits p → Z.of_nat (length (host_tags h)) = links →
  ∃ h', receive_packets x p h = Some h' ∧ delivered [response_item p] h h'.
Proof.
  intros (Hty&Hfc&Hs&_) Hlen. unfold receive_packets. rewrite Hfc, bool_decide_true by done. cbn [mbind option_bind].
  set (slid := value (SLID (header p))) in *. destruct (lookup_lt_is_Some_2 (host_tags h) (Z.to_nat slid)) as [pool Hp]; [lia|].
  rewrite zlookup_nat by lia. rewrite Hp; cbn [mbind option_bind].
  set (tags := <[_:=_]> (host_tags h)).
  assert (pool_pairs tags ≡ₚ [(slid, value (TAG (header p)))] ++ pool_pairs (host_tags h)) as Ht.
  { symmetry. apply (pool_pairs_insert (host_tags h) (Z.to_nat slid) pool _ _ [] Hp). rewrite Z2Nat.id by lia.
    rewrite map_app. simpl. by rewrite <-Permutation_cons_append. }
  assert (length tags = length (host_tags h)) as Hl by apply length_insert.
  assert (∀ r, is_read_key (rk r) = bool_decide (type r = READ)) as Hk by done.
  case_decide as E; eexists; (split; [done|]); split_and!; try done; simpl in *; rewrite Hk;
    [rewrite bool_decide_true by done; by rewrite map_app|rewrite bool_decide_false by done; by rewrite app_nil_r].
Qed.

(** ** Links *)

(** A request packet on its way to one of [nv] vaults. *)
Definition request_ok (nv : nat) (p : Packet) : Prop :=
  ptype p = REQUEST ∧ flow_control p = false ∧ fields_ok links p ∧ is_rw (type (preq p)) = true ∧
  is_first_command (preq p) = true ∧ 0 ≤ coreid (preq p) < Z.of_nat cores ∧ (total_flits p = 1 ∨ total_flits p = 1 + flits) ∧
  value (RTC (tail p)) = 0 ∧ ∃ i, addr_vec (preq p) !! 0%nat = Some (Z.of_nat i) ∧ (i < nv)%nat ∧ rw_addr spec (Z.of_nat i) (addr_vec (preq p)).

Record link_ok (nv : nat) (l : Link) : Prop := {
  lk_type : link_type l = HOST_SOURCE_MODE;
  lk_extracted : 0 ≤ extracted_token_count (slave l);
  lk_tokens : available_token_count (master l) = 32;
  lk_input : Forall (request_ok nv) (input_buffer (slave l));
  lk_output : Forall (response_ok links flits) (output_buffer (master l));
  lk_in_max : slave_buffer_max (slave l) = 32 ∧ Z.of_nat (length (input_buffer (slave l))) ≤ 32;
  lk_out_max : master_buffer_max (master l) = 32 ∧ Z.of_nat (length (output_buffer (master l))) ≤ 32
}.

(** [leftmostbit] is the largest power of two that is not larger. *)
Lemma leftmostbit_ok val : 0 ≤ val → ∃ r, leftmostbit val = Some r ∧ 0 ≤ r ≤ val ∧ (0 < val → val < 2 * r).
Proof.
  intros Hv. unfold leftmostbit. case_match eqn:E; [apply Z.eqb_eq in E; exists 0; split; [done|lia]|].
  apply Z.eqb_neq in E. pose proof (Z.log2_spec val ltac:(lia)) as Hs. pose proof (Z.log2_nonneg val).
  rewrite calc_log2_loop_ok; [|rewrite Nat2Z.inj_succ, Z2Nat.id by lia; split; [lia|apply Hs]|lia].
  simpl. eexists. split; [done|]. rewrite Z.shiftl_mul_pow2, Z.mul_1_l by lia. rewrite Z.pow_succ_r in Hs by lia.
  pose proof (Z.pow_nonneg 2 (Z.log2 val)). rewrite Z.add_0_l in *. lia.
Qed.

(** The link's cycles are numbers, not infinities or NaNs. *)
Definition cycles_ok (d : double) : Prop :=
  is_Some (d_ceil d) ∧ is_Some (d_ceil (d_mul (d_int 1) d)) ∧ is_Some (d_ceil (d_mul (d_int (1 + flits)) d)).

Lemma take_tokens_ok nv l :
  link_ok nv l → ∃ r l', take_tokens l = Some (r, l') ∧ link_ok nv l' ∧ input_buffer (slave l') = input_buffer (slave l) ∧
    master l' = master l ∧ link_type l' = link_type l.
Proof.
  intros [H1 H2 H3 H4 H5 H6 H7]. unfold take_tokens.
  destruct (leftmostbit_ok (extracted_token_count (slave l)) H2) as (r&->&Hr&_). simpl.
  eexists _, _. split; [done|]. split_and!; try done. split; try done. simpl. lia.
Qed.

Lemma occupy_ok nv d l :
  is_Some (d_ceil d) → link_ok nv l →
  ∃ l', occupy d l = Some l' ∧ link_ok nv l' ∧ link_items l' = link_items l.
Proof. intros [n Hn] [H1 H2 H3 H4 H5 H6 H7]. unfold occupy. rewrite Hn; simpl. eexists. split; [done|]. by split. Qed.

Lemma send_flow_control_ok nv x d l h :
  cycles_ok d → link_ok nv l →
  ∃ l', send_flow_control (receive_packets x) d l h = Some (l', h) ∧ link_ok nv l' ∧ link_items l' = link_items l.
Proof.
  intros (Hd&Hd1&_) Hl. unfold send_flow_control. case_match.
  - destruct (take_tokens_ok nv l Hl) as (r&l1&->&Hl1&Ei&Em&_). cbn [mbind option_bind].
    unfold Packet_tret. rewrite bool_decide_true by done. simpl.
    destruct (occupy_ok nv _ l1 Hd1 Hl1) as (l2&->&Hl2&E2). cbn [mbind option_bind]. exists l2. split_and!; try done.
    rewrite E2. unfold link_items. by rewrite Ei, Em.
  - destruct (occupy_ok nv _ l Hd Hl) as (l2&->&Hl2&E2). cbn [mbind option_bind]. eauto.
Qed.

Lemma master_tick_ok nv x d l h :
  cycles_ok d → link_ok nv l → Z.of_nat (length (host_tags h)) = links →
  ∃ l' h' ds, master_tick (receive_packets x) d l h = Some (l', h') ∧ link_ok nv l' ∧ delivered ds h h' ∧
    link_items l ≡ₚ ds ++ link_items l'.
Proof.
  intros Hd Hl Hlen. unfold master_tick. set (l0 := set_master_clk _ l).
  assert (link_ok nv l0) as Hl0 by (destruct Hl; by split).
  change (link_items l) with (link_items l0). case_match; [|exists l0, h, []; by eauto using delivered_nil].
  assert (∃ l' h' ds, send_flow_control (receive_packets x) d l0 h = Some (l', h') ∧ link_ok nv l' ∧ delivered ds h h' ∧
    link_items l0 ≡ₚ ds ++ link_items l') as Hfc.
  { destruct (send_flow_control_ok nv x d l0 h Hd Hl0) as (l'&Hs&Hl'&E). exists l', h, [].
    split_and!; [done|done|apply delivered_nil|by rewrite E]. }
  unfold master_send. destruct (output_buffer (master l0)) as [|p rest] eqn:Ho; [exact Hfc|]. case_match; [|exact Hfc].
  destruct (id Hl0) as [H1 H2 H3 H4 H5 H6 H7]. rewrite Ho in H5, H7. apply Forall_cons in H5 as [Hp Hrest].
  assert (link_ok nv (set_output rest l0)) as Hl1 by (split; try done; simpl in *; lia).
  destruct (take_tokens_ok nv _ Hl1) as (r&l2&->&Hl2&Ei&Em&Et). cbn [mbind option_bind].
  rewrite decide_False by (rewrite Et; auto).
  destruct (receive_packets_ok x (set_rtc r p) h) as (h'&->&Hdel); [exact Hp|done|]. cbn [mbind option_bind].
  change (total_flits (set_rtc r p)) with (total_flits p).
  destruct (occupy_ok nv (d_mul (d_int (total_flits p)) d) l2) as (l3&->&Hl3&E3); [|done|].
  { destruct Hd as (_&Hd1&Hd2). destruct Hp as (_&_&_&[-> | ->]); done. }
  cbn [mbind option_bind]. exists l3, h', [response_item p]. split_and!; try done. rewrite E3. unfold link_items. rewrite Ei, Em, Ho.
  simpl. symmetry. apply Permutation_middle.
Qed.

Lemma masters_tick_ok nv x d ls h :
  cycles_ok d → Forall (link_ok nv) ls → Z.of_nat (length (host_tags h)) = links →
  ∃ ls' h' ds, masters_tick (receive_packets x) d ls h = Some (ls', h') ∧ Forall (link_ok nv) ls' ∧
    length ls' = length ls ∧ delivered ds h h' ∧ links_items ls ≡ₚ ds ++ links_items ls'.
Proof.
  intros Hd Hls. revert h. induction Hls as [|l ls Hl Hls IH]; intros h Hh; [exists [], h, []; by eauto using delivered_nil|].
  simpl. destruct (master_tick_ok nv x d l h Hd Hl Hh) as (l'&h1&ds1&->&Hl'&Hd1&P1). cbn [mbind option_bind].
  destruct (IH h1) as (ls'&h2&ds2&->&Hls'&Hlen&Hd2&P2); [by destruct Hd1 as [-> _]|]. cbn [mbind option_bind].
  exists (l' :: ls'), h2, (ds1 ++ ds2). split_and!; [done|by constructor|simpl; lia|by eapply delivered_app|].
  unfold links_items in *. simpl. rewrite P1, P2, <-!(assoc_L (++)). f_equiv. apply Permutation_app_swap_app.
Qed.

(** ** The crossbar *)
Definition vaults_ok (pim : bool) (vs : list HmcCtrl) : Prop :=
  ∀ j v, vs !! j = Some v → pim_mode_enabled v = pim ∧ ∃ h, vault_inv o cores (Z.of_nat j) h v.

Lemma vaults_ok_insert pim vs j v h :
  vaults_ok pim vs → pim_mode_enabled v = pim → vault_inv o cores (Z.of_nat j) h v → vaults_ok pim (<[j:=v]> vs).
Proof.
  intros Hvs Hp Hv k w Hk. destruct (decide (k = j)) as [->|Hne].
  - destruct (lt_dec j (length vs)) as [Hlt|Hge]; [rewrite list_lookup_insert_eq in Hk by done; simplify_eq; eauto|].
    rewrite list_insert_ge in Hk by lia. eauto.
  - rewrite list_lookup_insert_ne in Hk by done. eauto.
Qed.

(** The number of a request on a link is not that of one in a vault. *)
Lemma fresh_id vs j v k xs :
  vs !! j = Some v → NoDup (map item_id (xs ++ vaults_items vs)) → k ∈ map item_id xs → k ∉ map rk_id (vkeys (vbase v)).
Proof.
  intros Hj Hnd Hk Hin. rewrite (vaults_items_lookup vs j v Hj) in Hnd. unfold vault_all in Hnd.
  rewrite !map_app, vault_items_ids in Hnd. apply NoDup_app in Hnd as (_&Hd&_). apply (Hd _ Hk).
  rewrite !elem_of_app. auto.
Qed.

Lemma link_to_vault_ok pim nv cub l used vs :
  link_ok nv l → vaults_ok pim vs → (nv ≤ length vs)%nat → NoDup (map item_id (link_items l ++ vaults_items vs)) →
  ∃ l' used' vs', link_to_vault o cub l used vs = Some (l', used', vs') ∧ link_ok nv l' ∧ vaults_ok pim vs' ∧
    length vs' = length vs ∧ link_items l ++ vaults_items vs ≡ₚ link_items l' ++ vaults_items vs'.
Proof.
  intros Hl Hvs Hnv Hnd. unfold link_to_vault. destruct (input_buffer (slave l)) as [|p rest] eqn:Hin; [by eexists _, _, _|].
  case_match; [|by eexists _, _, _]. destruct (id Hl) as [H1 H2 H3 H4 H5 H6 H7]. rewrite Hin in H4, H6.
  apply Forall_cons in H4 as [Hp Hrest]. destruct (id Hp) as (Hty&Hfc&Hf&Hrw&Hfirst&Hcore&Htot&Hrtc&i&Ha&Hi&Hrwa).
  change (HMC.level_int HMC.Vault) with 0%nat. rewrite Ha; cbn [mbind option_bind]. case_bool_decide; [by eexists _, _, _|].
  rewrite zlookup_nat, Nat2Z.id by lia. destruct (lookup_lt_is_Some_2 vs i) as [v Hv]; [lia|]. rewrite Hv; cbn [mbind option_bind].
  destruct (Hvs _ _ Hv) as [Hpim [h Hinv]].
  destruct (receive_packet_ok o cores (Z.of_nat i) h v p Hinv Hty Hf Hrw Hrwa Hfirst Hcore)
    as (p'&v'&->&Hinv'&E1&E2&E3&E4&E5&E6&E7&E8&E9&E10&Hit&_).
  { eapply fresh_id; [done|exact Hnd|]. unfold link_items. rewrite Hin. simpl. by left. }
  cbn [mbind option_bind]. assert (vaults_ok pim (<[i:=v']> vs)) as Hvs' by (eapply vaults_ok_insert; [done|congruence|done]).
  assert (vault_all v' ≡ₚ (if refuses v (preq p) then [] else [request_item p]) ++ vault_all v) as Hall.
  { unfold vault_all. rewrite E9, Hit. by rewrite (assoc_L (++)). }
  destruct (refuses v (preq p)); simpl; eexists _, _, _; (split; [done|]); rewrite length_insert; split_and!; try done.
  - split; try done. simpl. constructor; [|done]. unfold request_ok, fields_ok. rewrite E1, E2, E3, E4, E5, E7, E8.
    assert (type (preq p') = type (preq p)) as -> by (unfold rk in E6; congruence).
    assert (coreid (preq p') = coreid (preq p)) as -> by (unfold rk in E6; congruence). split_and!; try done; try apply Hf; try apply Hcore. eauto.
  - assert (request_item p' = request_item p) as E by (unfold request_item; by rewrite E2, E3, E6).
    unfold link_items. simpl. rewrite Hin, E. simpl. apply (vaults_items_insert vs i v v' (request_item p :: _) (request_item p :: _)); [done|].
    by rewrite Hall.
  - split; try done; simpl in *; [|lia]. destruct Htot as [Ht|Ht]; rewrite E4, Ht; lia.
  - unfold link_items. rewrite Hin. simpl.
    apply (vaults_items_insert vs i v v' (request_item p :: map request_item rest ++ map response_item (output_buffer (master l)))
      (map request_item rest ++ map response_item (output_buffer (master l)))); [done|].
    rewrite Hall. simpl. by rewrite Permutation_middle.
Qed.

Lemma NoDup_ids_perm (xs ys : list Item) : xs ≡ₚ ys → NoDup (map item_id xs) → NoDup (map item_id ys).
Proof. intros H. by rewrite H. Qed.

Lemma links_to_vaults_ok pim nv cub ls used vs :
  Forall (link_ok nv) ls → vaults_ok pim vs → (nv ≤ length vs)%nat → NoDup (map item_id (links_items ls ++ vaults_items vs)) →
  ∃ ls' vs', links_to_vaults o cub ls used vs = Some (ls', vs') ∧ Forall (link_ok nv) ls' ∧ vaults_ok pim vs' ∧
    length ls' = length ls ∧ length vs' = length vs ∧ links_items ls ++ vaults_items vs ≡ₚ links_items ls' ++ vaults_items vs'.
Proof.
  intros Hls. revert used vs. induction Hls as [|l ls Hl Hls IH]; intros used vs Hvs Hnv Hnd; [by exists [], vs|].
  simpl. assert (links_items (l :: ls) ++ vaults_items vs ≡ₚ links_items ls ++ link_items l ++ vaults_items vs) as E0.
  { unfold links_items. simpl. rewrite <-(assoc_L (++)). apply Permutation_app_swap_app. }
  eapply NoDup_ids_perm in Hnd; [|exact E0].
  destruct (link_to_vault_ok pim nv cub l used vs) as (l'&used'&vs'&->&Hl'&Hvs'&Hlen'&P1); [done..| |].
  { rewrite map_app in Hnd. by apply NoDup_app in Hnd as (_&_&?). }
  cbn [mbind option_bind]. destruct (IH used' vs') as (ls''&vs''&->&Hls''&Hvs''&L1&L2&P2); [done|lia| |].
  { rewrite P1 in Hnd. rewrite Permutation_app_swap_app, map_app in Hnd. by apply NoDup_app in Hnd as (_&_&?). }
  cbn [mbind option_bind]. exists (l' :: ls''), vs''. split_and!; [done|by constructor|done|simpl; lia|lia|].
  rewrite E0, P1, Permutation_app_swap_app, P2. unfold links_items. simpl. by rewrite <-(assoc_L (++)).
Qed.

Lemma vault_to_link_ok pim nv k v used ls :
  Forall (link_ok nv) ls → pim_mode_enabled v = pim → (∃ h, vault_inv o cores k h v) → Z.of_nat (length ls) = links →
  ∃ v' used' ls', vault_to_link v used ls = Some (v', used', ls') ∧ Forall (link_ok nv) ls' ∧
    pim_mode_enabled v' = pim ∧ (∃ h, vault_inv o cores k h v') ∧ length ls' = length ls ∧
    vault_all v ++ links_items ls ≡ₚ vault_all v' ++ links_items ls'.
Proof.
  intros Hls Hpim [h Hv] Hlen. unfold vault_to_link.
  destruct (response_packets_buffer v) as [|p rest] eqn:Hr; [exists v, used, ls; eauto 10|].
  destruct (id Hv) as [H1 H2 H3 H4 H5 H6]. rewrite Hr in H4. apply Forall_cons in H4 as [Hp Hrest].
  destruct (id Hp) as (_&_&Hs&Htot). set (slid := value (SLID (header p))) in *.
  destruct (lookup_lt_is_Some_2 ls (Z.to_nat slid)) as [l Hl]; [lia|].
  rewrite zlookup_nat by lia. rewrite Hl; cbn [mbind option_bind].
  rewrite Forall_lookup in Hls. pose proof (Hls _ _ Hl) as Hlk. destruct (id Hlk) as [L1 L2 L3 L4 L5 L6 L7].
  rewrite bool_decide_true by done. cbn [mbind option_bind]. rewrite <-Forall_lookup in Hls.
  case_bool_decide; [exists v, used, ls; eauto 10|].
  destruct (total_flits p <=? master_space (master l)) eqn:Hsp; [|exists v, used, ls; eauto 10].
  eexists _, _, _. split; [done|]. rewrite length_insert. split_and!; try done.
  - apply Forall_insert; [done|]. split; try done; simpl; [by apply Forall_app; split; [|constructor]|].
    apply Z.leb_le in Hsp. unfold master_space in Hsp. rewrite length_app. simpl. destruct L7 as [Lm Ll]. rewrite Lm in *.
    split; [done|]. destruct Htot as [Ht|Ht]; rewrite Ht in Hsp; lia.
  - exists h. by split.
  - apply (links_items_insert ls (Z.to_nat slid) l); [done|].
    unfold vault_all, link_items. simpl. rewrite Hr. simpl. change (vault_items (set_response rest v)) with (vault_items v).
    rewrite !map_app. simpl. rewrite <-!(assoc_L (++)), (assoc_L (++) (map request_item _)). f_equiv.
    rewrite (Permutation_app_comm _ [response_item p]). simpl. rewrite Permutation_middle. f_equiv.
Qed.

Lemma vaults_to_links_ok pim nv k vs used ls :
  (∀ j v, vs !! j = Some v → pim_mode_enabled v = pim ∧ ∃ h, vault_inv o cores (Z.of_nat (k + j)) h v) →
  Forall (link_ok nv) ls → Z.of_nat (length ls) = links →
  ∃ vs' ls', vaults_to_links vs used ls = Some (vs', ls') ∧ Forall (link_ok nv) ls' ∧
    (∀ j v, vs' !! j = Some v → pim_mode_enabled v = pim ∧ ∃ h, vault_inv o cores (Z.of_nat (k + j)) h v) ∧
    length vs' = length vs ∧ length ls' = length ls ∧ vaults_items vs ++ links_items ls ≡ₚ vaults_items vs' ++ links_items ls'.
Proof.
  revert k used ls. induction vs as [|v vs IH]; intros k used ls Hvs Hls Hlen; [by exists [], ls|]. simpl.
  destruct (Hvs 0%nat v eq_refl) as [Hpim Hv].
  destruct (vault_to_link_ok pim nv (Z.of_nat (k + 0)) v used ls) as (v'&used'&ls1&->&Hls1&Hpim'&Hv'&L1&P1); [done..|].
  cbn [mbind option_bind].
  destruct (IH (S k) used' ls1) as (vs'&ls2&->&Hls2&Hvs'&L2&L3&P2); [|done|lia|].
  { intros j w Hj. replace (S k + j)%nat with (k + S j)%nat by lia. by apply Hvs. }
  cbn [mbind option_bind]. exists (v' :: vs'), ls2. split_and!; [done|done| |simpl; lia|lia|].
  - intros [|j] w Hj; simplify_eq/=; [done|]. replace (k + S j)%nat with (S k + j)%nat by lia. by apply Hvs'.
  - unfold vaults_items in *. simpl. rewrite <-!(assoc_L (++)), (Permutation_app_swap_app (vault_all v)), P1.
    rewrite (Permutation_app_swap_app _ (vault_all v')). by rewrite P2.
Qed.

Lemma switch_tick_ok pim nv y vs :
  Forall (link_ok nv) (host_links y) → Z.of_nat (length (host_links y)) = links → vaults_ok pim vs → (nv ≤ length vs)%nat →
  NoDup (map item_id (links_items (host_links y) ++ vaults_items vs)) →
  ∃ y' vs', switch_tick o y vs = Some (y', vs') ∧ Forall (link_ok nv) (host_links y') ∧ one_flit_cycles y' = one_flit_cycles y ∧
    cub y' = cub y ∧ length (host_links y') = length (host_links y) ∧ vaults_ok pim vs' ∧ length vs' = length vs ∧
    links_items (host_links y) ++ vaults_items vs ≡ₚ links_items (host_links y') ++ vaults_items vs'.
Proof.
  intros Hls Hlen Hvs Hnv Hnd. unfold switch_tick.
  destruct (links_to_vaults_ok pim nv (cub y) (host_links y) ∅ vs) as (ls1&vs1&->&Hls1&Hvs1&L1&L2&P1); [done..|].
  cbn [mbind option_bind].
  destruct (vaults_to_links_ok pim nv 0 vs1 ∅ ls1) as (vs2&ls2&->&Hls2&Hvs2&L3&L4&P2); [exact Hvs1|done|lia|].
  cbn [mbind option_bind]. eexists _, vs2. split; [done|]. split_and!; try done; simpl; [lia|lia|].
  by rewrite P1, (Permutation_app_comm (links_items ls1)), P2, Permutation_app_comm.
Qed.

(** ** The logic layers *)
Record layer_ok (nv : nat) (y : LogicLayer) : Prop := {
  ly_links : Forall (link_ok nv) (host_links y);
  ly_length : Z.of_nat (length (host_links y)) = links;
  ly_cycles : cycles_ok (one_flit_cycles y)
}.
Definition layers_items (ys : list LogicLayer) : list Item := concat (map (λ y, links_items (host_links y)) ys).

Lemma layer_tick_ok pim nv x y vs h :
  layer_ok nv y → vaults_ok pim vs → (nv ≤ length vs)%nat → Z.of_nat (length (host_tags h)) = links →
  NoDup (map item_id (links_items (host_links y) ++ vaults_items vs)) →
  ∃ y' vs' h' ds, layer_tick o (receive_packets x) y vs h = Some (y', vs', h') ∧ layer_ok nv y' ∧ cub y' = cub y ∧
    vaults_ok pim vs' ∧ length vs' = length vs ∧ delivered ds h h' ∧
    links_items (host_links y) ++ vaults_items vs ≡ₚ ds ++ links_items (host_links y') ++ vaults_items vs'.
Proof.
  intros [Hls Hlen Hcyc] Hvs Hnv Hh Hnd. unfold layer_tick.
  destruct (masters_tick_ok nv x (one_flit_cycles y) (host_links y) h) as (ls1&h1&ds&->&Hls1&L1&Hd&P1); [done..|].
  cbn [mbind option_bind].
  destruct (switch_tick_ok pim nv (set_host_links ls1 y) vs) as (y2&vs2&->&Hls2&E1&E2&L2&Hvs2&L3&P2); simpl; try done; [lia| |].
  { rewrite P1, <-(assoc_L (++)), map_app in Hnd. by apply NoDup_app in Hnd as (_&_&?). }
  cbn [mbind option_bind]. exists y2, vs2, h1, ds. split_and!; try done.
  - split; [done|simpl in L2; lia|by rewrite E1].
  - rewrite P1, <-(assoc_L (++)). f_equiv. done.
Qed.

Lemma tick_layers_ok pim nv x ys vs h :
  Forall (layer_ok nv) ys → vaults_ok pim vs → (nv ≤ length vs)%nat → Z.of_nat (length (host_tags h)) = links →
  NoDup (map item_id (layers_items ys ++ vaults_items vs)) →
  ∃ ys' vs' h' ds, tick_layers o x ys vs h = Some (ys', vs', h') ∧ Forall (layer_ok nv) ys' ∧ map cub ys' = map cub ys ∧
    vaults_ok pim vs' ∧ length vs' = length vs ∧ delivered ds h h' ∧
    layers_items ys ++ vaults_items vs ≡ₚ ds ++ layers_items ys' ++ vaults_items vs'.
Proof.
  intros Hys. revert vs h. induction Hys as [|y ys Hy Hys IH]; intros vs h Hvs Hnv Hh Hnd.
  { exists [], vs, h, []. eauto 10 using delivered_nil. }
  simpl. unfold layers_items in *. simpl in *. set (A := links_items (host_links y)) in *. set (B := concat _) in *.
  assert ((A ++ B) ++ vaults_items vs ≡ₚ B ++ A ++ vaults_items vs) as E0.
  { rewrite <-(assoc_L (++)). apply Permutation_app_swap_app. }
  eapply NoDup_ids_perm in Hnd; [|exact E0].
  destruct (layer_tick_ok pim nv x y vs h) as (y1&vs1&h1&ds1&->&Hy1&C1&Hvs1&L1&Hd1&P1); [done..| |].
  { rewrite map_app in Hnd. by apply NoDup_app in Hnd as (_&_&?). }
  cbn [mbind option_bind]. set (A1 := links_items (host_links y1)) in *.
  destruct (IH vs1 h1) as (ys2&vs2&h2&ds2&->&Hys2&C2&Hvs2&L2&Hd2&P2); [done|lia|by destruct Hd1 as [-> _]| |].
  { fold A in P1. rewrite P1 in Hnd. rewrite (Permutation_app_swap_app ds1), (Permutation_app_swap_app A1) in Hnd.
    rewrite (Permutation_app_swap_app B), (Permutation_app_swap_app B) in Hnd.
    rewrite map_app in Hnd. apply NoDup_app in Hnd as (_&_&Hnd). rewrite map_app in Hnd. by apply NoDup_app in Hnd as (_&_&?). }
  cbn [mbind option_bind]. exists (y1 :: ys2), vs2, h2, (ds1 ++ ds2).
  split_and!; [done|by constructor|simpl; congruence|done|lia|by eapply delivered_app|]. simpl. fold A1.
  rewrite E0. fold A in P1. rewrite P1. rewrite (Permutation_app_swap_app B), (Permutation_app_swap_app B), P2.
  rewrite <-!(assoc_L (++)). f_equiv. rewrite (Permutation_app_swap_app A1). done.
Qed.

End Net.
