(* ===== verification/HmcMap.v ===== *)
(** * The configurations and the address mapping of the HMC memory

    [hmc_ok o stacks] lists, as a decidable check, what the memory needs of the
    cube [o]; [hmc_coordinates] is related to the slices of [MemoryMap], which
    gives its inverse and the ranges of the coordinates. *)

From S2P Require Import Prelude Double Request Dram DramTiming BankProtocol Standard Controller CtrlQueries.
From S2P Require Import SpecHMC Packet HmcController Memory MemoryMap Link HmcMemory NetInv.

#[local] Arguments Z.mul : simpl never.
#[local] Arguments Z.pow : simpl never.
#[local] Arguments d_mul : simpl never.
#[local] Arguments d_div : simpl never.
#[local] Arguments d_int : simpl never.
#[local] Arguments d_ceil : simpl never.

(** Masking. *)
Lemma land_range a b : 0 ≤ b → 0 ≤ Z.land a b ≤ b.
Proof.
  intros Hb. split; [apply Z.land_nonneg; auto|]. enough (0 ≤ b - Z.land a b) by lia.
  rewrite Z.sub_nocarry_ldiff; [apply Z.ldiff_nonneg; auto|].
  apply Z.bits_inj'. intros n Hn. rewrite Z.ldiff_spec, Z.land_spec, Z.bits_0. by destruct (Z.testbit a n), (Z.testbit b n).
Qed.

(** ** Configurations *)

(** The value [LogicLayer] computes for [one_flit_cycles]. *)
Definition flit_cycles (o : HMC.HMC) : double :=
  d_div (d_div (d_int 128) (d_mul (HMC.lane_speed o) (d_int (HMC.link_width o)))) (HMC.tCK o).

Definition is_number (d : double) : bool := match d_ceil d with Some _ => true | None => false end.

(** A cube of at most 32 vaults and 8 links, with at most 2^34 bytes in
    [stacks] stacks, and blocks of at least one and at most all columns of a
    row. *)
Definition hmc_ok (o : HMC.HMC) (stacks : Z) : bool :=
  match HMC.count (HMC.org_entry o) with
  | [va; bg; ba; ro; co] =>
    forallb (λ c, (0 <? c) && (c <? 2 ^ 31)) [va; bg; ba; ro; co] && (8 <=? co) && (va <=? 32) &&
    (5 <=? HMC.flit_num_bits (HMC.maxblock_entry o)) && (HMC.flit_num_bits (HMC.maxblock_entry o) - 5 <=? Z.log2 co - 3)
  | _ => false
  end &&
  (1 <? HMC.read_latency o) && (0 <? HMC.source_links o) && (HMC.source_links o <=? 8) && (0 <=? HMC.payload_flits o) &&
  (0 <? stacks) && (stacks <=? 8) && (calc_max_address (HMC.spec o) * stacks <=? 2 ^ 34) &&
  is_number (flit_cycles o) && is_number (d_mul (d_int 1) (flit_cycles o)) &&
  is_number (d_mul (d_int (1 + HMC.payload_flits o)) (flit_cycles o)).

Record hmc_config (o : HMC.HMC) (stacks va bg ba ro co : Z) : Prop := {
  hc_count : HMC.count (HMC.org_entry o) = [va; bg; ba; ro; co];
  hc_range : Forall (λ c, 0 < c < 2 ^ 31) [va; bg; ba; ro; co];
  hc_column : 8 ≤ co;
  hc_vaults : va ≤ 32;
  hc_block : 5 ≤ HMC.flit_num_bits (HMC.maxblock_entry o) ≤ Z.log2 co + 2;
  hc_latency : 1 < read_latency (HMC.spec o);
  hc_links : 0 < HMC.source_links o ≤ 8;
  hc_flits : 0 ≤ HMC.payload_flits o;
  hc_stacks : 0 < stacks ≤ 8;
  hc_size : calc_max_address (HMC.spec o) * stacks ≤ 2 ^ 34;
  hc_cycles : cycles_ok o (flit_cycles o)
}.

Lemma is_number_Some d : is_number d = true ↔ is_Some (d_ceil d).
Proof. unfold is_number. destruct (d_ceil d); split; eauto; [done|by intros [? [=]]]. Qed.

Lemma hmc_ok_config o stacks : hmc_ok o stacks = true → ∃ va bg ba ro co, hmc_config o stacks va bg ba ro co.
Proof.
  unfold hmc_ok. rewrite !andb_true_iff, !is_number_Some.
  intros [[[[[[[[[[H1 H2] H3] H4] H5] H6] H7] H8] H9] H10] H11].
  destruct (HMC.count (HMC.org_entry o)) as [|va [|bg [|ba [|ro [|co [|]]]]]] eqn:E; try done.
  rewrite !andb_true_iff in H1. destruct H1 as [[[[Hr Hco] Hva] Hb1] Hb2].
  apply Z.ltb_lt in H2, H3, H6. apply Z.leb_le in H4, H5, H7, H8, Hco, Hva, Hb1, Hb2.
  exists va, bg, ba, ro, co. split; try done; try lia.
  rewrite forallb_forall in Hr. apply Forall_forall. intros c Hc%list_elem_of_In. apply Hr in Hc. lia.
Qed.

Section Map.
Variables (o : HMC.HMC) (stacks va bg ba ro co : Z).
Hypothesis Hcfg : hmc_config o stacks va bg ba ro co.
Abbreviation spec := (HMC.spec o).

Lemma hmc_CountOK : CountOK 5 (HMC.count (HMC.org_entry o)).
Proof.
  split; rewrite (hc_count _ _ _ _ _ _ _ Hcfg); [done|]. eapply Forall_impl; [apply (hc_range _ _ _ _ _ _ _ Hcfg)|].
  simpl. lia.
Qed.

(** The bits of the levels. *)
Definition level_bits : list Z := [Z.log2 va; Z.log2 bg; Z.log2 ba; Z.log2 ro; Z.log2 co - 3].

Lemma hmc_addr_bits : calc_addr_bits spec = Some level_bits.
Proof.
  pose proof (hc_count _ _ _ _ _ _ _ Hcfg) as E. pose proof (hc_range _ _ _ _ _ _ _ Hcfg) as Hr.
  rewrite !Forall_cons in Hr. destruct Hr as (H1&H2&H3&H4&H5&_).
  unfold calc_addr_bits. change (count spec) with (HMC.count (HMC.org_entry o)). rewrite E. simpl.
  rewrite !calc_log2_ok by lia. simpl. change (calc_log2 (HMC.prefetch_size)) with (Some 3). simpl. done.
Qed.

(** ** The mapping as slices *)

(** The column is two levels: its low bits (4) and its high bits (5). *)
Definition six_order (ty : HmcMapType) : list nat :=
  match ty with
  | RoCoBaVa => [4; 0; 2; 1; 5; 3]
  | RoBaCoVa => [4; 0; 5; 2; 1; 3]
  | RoCoBaBgVa => [4; 0; 1; 2; 5; 3]
  end%nat.

Definition six_bits (k : Z) : list Z :=
  [Z.log2 va; Z.log2 bg; Z.log2 ba; Z.log2 ro; k; Z.log2 co - 3 - k].

(** The coordinates of the six levels, and those of the five. *)
Definition five (k : Z) (w : list Z) : option (list Z) :=
  match w with
  | [a; b; c; d; lo; msb] => Some [a; b; c; d; Z.lor lo (Z.shiftl msb k)]
  | _ => None
  end.

Lemma coordinates_slices ty k a :
  hmc_coordinates ty level_bits k a = w ← slice_levels (six_bits k) (six_order ty) a [0; 0; 0; 0; 0; 0]; five k w.
Proof. by destruct ty. Qed.

Lemma six_bits_nonneg k : 0 ≤ k ≤ Z.log2 co - 3 → Forall (λ b, 0 ≤ b) (six_bits k).
Proof. intros Hk. unfold six_bits. repeat constructor; try apply Z.log2_nonneg; lia. Qed.

Lemma six_order_perm ty : six_order ty ≡ₚ seq 0 6.
Proof. destruct ty; simpl; solve_Permutation. Qed.

Lemma elem_of_six ty i : i ∈ six_order ty ↔ (i < 6)%nat.
Proof. rewrite six_order_perm, elem_of_seq. lia. Qed.

Lemma six_NoDup ty : NoDup (six_order ty).
Proof. rewrite six_order_perm. apply NoDup_seq. Qed.

(** A coordinate of each level, and a column in two parts. *)
Definition six_range (k : Z) (w : list Z) : Prop :=
  length w = 6%nat ∧ ∀ i, (i < 6)%nat → ∃ x b, w !! i = Some x ∧ six_bits k !! i = Some b ∧ 0 ≤ x < 2 ^ b.

Lemma slices_ok ty k a :
  0 ≤ k ≤ Z.log2 co - 3 →
  ∃ w, slice_levels (six_bits k) (six_order ty) a [0; 0; 0; 0; 0; 0] = Some w ∧ six_range k w ∧
    join_levels (six_bits k) (six_order ty) w = a mod 2 ^ total_bits (six_bits k) (six_order ty).
Proof.
  intros Hk. destruct (slice_levels_ok (six_bits k) (six_bits_nonneg k Hk) (six_order ty) a [0; 0; 0; 0; 0; 0])
    as (w&Hw&Hlen&_&Hr&Hj); [apply six_NoDup|intros i Hi%elem_of_six; done|].
  exists w. split; [done|]. split; [split; [done|]|done]. intros i Hi. apply Hr. by apply elem_of_six.
Qed.

(** The parts of a column. *)
Lemma column_parts k lo msb :
  0 ≤ k → 0 ≤ lo < 2 ^ k → 0 ≤ msb →
  Z.lor lo (Z.shiftl msb k) = lo + 2 ^ k * msb ∧ Z.lor lo (Z.shiftl msb k) mod 2 ^ k = lo ∧ Z.lor lo (Z.shiftl msb k) / 2 ^ k = msb.
Proof.
  intros Hk Hlo Hm. assert (Z.lor lo (Z.shiftl msb k) = lo + 2 ^ k * msb) as E.
  { assert (Z.land lo (Z.shiftl msb k) = 0) as Hz.
    { apply Z.bits_inj'. intros n Hn. rewrite Z.land_spec, Z.bits_0. destruct (decide (n < k)).
      - rewrite Z.shiftl_spec_low by lia. apply andb_false_r.
      - rewrite <-(Z.mod_small lo (2 ^ k)) by lia. rewrite Z.mod_pow2_bits_high by lia. done. }
    rewrite <-Z.lxor_lor, <-Z.add_nocarry_lxor by done. rewrite Z.shiftl_mul_pow2 by lia. lia. }
  rewrite E. split; [done|]. rewrite (Z.add_comm lo), Z.mul_comm. split.
  - rewrite Z.add_comm, Z.mod_add by lia. apply Z.mod_small. lia.
  - rewrite Z.div_add_l by lia. rewrite Z.div_small by lia. lia.
Qed.

(** The abstract inverse: the address, in transactions, of coordinates. *)
Definition hmc_unmap (ty : HmcMapType) (k : Z) (v : list Z) : Z :=
  match v with
  | [a; b; c; d; col] => join_levels (six_bits k) (six_order ty) [a; b; c; d; col mod 2 ^ k; col / 2 ^ k]
  | _ => 0
  end.

(** The coordinates are inside the organisation. *)
Definition five_range (v : list Z) : Prop :=
  ∃ a b c d col, v = [a; b; c; d; col] ∧ 0 ≤ a < 2 ^ Z.log2 va ∧ 0 ≤ b < 2 ^ Z.log2 bg ∧ 0 ≤ c < 2 ^ Z.log2 ba ∧
    0 ≤ d < 2 ^ Z.log2 ro ∧ 0 ≤ col < 2 ^ (Z.log2 co - 3).

Lemma six_list k w : six_range k w → ∃ a b c d lo msb, w = [a; b; c; d; lo; msb] ∧ 0 ≤ a < 2 ^ Z.log2 va ∧
  0 ≤ b < 2 ^ Z.log2 bg ∧ 0 ≤ c < 2 ^ Z.log2 ba ∧ 0 ≤ d < 2 ^ Z.log2 ro ∧ 0 ≤ lo < 2 ^ k ∧ 0 ≤ msb < 2 ^ (Z.log2 co - 3 - k).
Proof.
  intros [Hlen Hr]. destruct w as [|a [|b [|c [|d [|lo [|msb [|]]]]]]]; try done. exists a, b, c, d, lo, msb. split; [done|].
  destruct (Hr 0%nat) as (?&?&?&?&?), (Hr 1%nat) as (?&?&?&?&?), (Hr 2%nat) as (?&?&?&?&?), (Hr 3%nat) as (?&?&?&?&?),
    (Hr 4%nat) as (?&?&?&?&?), (Hr 5%nat) as (?&?&?&?&?); try lia.
  unfold six_bits in *. simplify_eq/=. 
  auto 10.
Qed.

Lemma coordinates_ok ty k a :
  0 ≤ k ≤ Z.log2 co - 3 →
  ∃ v, hmc_coordinates ty level_bits k a = Some v ∧ five_range v ∧
    hmc_unmap ty k v = a mod 2 ^ total_bits (six_bits k) (six_order ty).
Proof.
  intros Hk. rewrite coordinates_slices. destruct (slices_ok ty k a Hk) as (w&->&Hw&Hj). cbn [mbind option_bind].
  destruct (six_list k w Hw) as (x0&x1&x2&x3&lo&msb&->&H0&H1&H2&H3&H4&H5). cbn [five].
  destruct (column_parts k lo msb) as (E1&E2&E3); [lia..|]. eexists. split; [done|]. split.
  - eexists _, _, _, _, _. split; [done|]. split_and!; try lia. rewrite E1.
    replace (Z.log2 co - 3) with (k + (Z.log2 co - 3 - k)) by lia. rewrite Z.pow_add_r by lia. nia.
  - unfold hmc_unmap. by rewrite E2, E3.
Qed.

Lemma coordinates_unmap ty k v :
  0 ≤ k ≤ Z.log2 co - 3 → five_range v → hmc_coordinates ty level_bits k (hmc_unmap ty k v) = Some v.
Proof.
  intros Hk (x0&x1&x2&x3&col&->&H0&H1&H2&H3&H4). rewrite coordinates_slices. unfold hmc_unmap.
  set (w := [x0; x1; x2; x3; col mod 2 ^ k; col / 2 ^ k]).
  assert (0 ≤ col mod 2 ^ k < 2 ^ k) as Hlo by (apply Z.mod_pos_bound; lia).
  assert (0 ≤ col / 2 ^ k < 2 ^ (Z.log2 co - 3 - k)) as Hmsb.
  { split; [apply Z.div_pos; lia|]. apply Z.div_lt_upper_bound; [lia|]. rewrite <-Z.pow_add_r by lia.
    replace (k + (Z.log2 co - 3 - k)) with (Z.log2 co - 3) by lia. lia. }
  assert (six_range k w) as Hw.
  { split; [done|]. intros i Hi. do 6 (destruct i as [|i]; [eexists _, _; split_and!; by auto||lia|]). lia. }
  destruct (slice_join (six_bits k) (six_bits_nonneg k Hk) (six_order ty) [0; 0; 0; 0; 0; 0] w)
    as (v'&->&Hlen&_&Hin); [apply six_NoDup|intros i Hi%elem_of_six; done|intros i Hi%elem_of_six; by apply Hw|].
  assert (v' = w) as ->.
  { apply list_eq_same_length with 6%nat; [done|done|]. intros i x y Hi Hx Hy.
    rewrite Hin in Hx by (by apply elem_of_six). congruence. }
  cbn [mbind option_bind five w]. destruct (column_parts k (col mod 2 ^ k) (col / 2 ^ k)) as (E&_); [lia..|]. rewrite E.
  do 5 f_equal. rewrite Z.add_comm. symmetry. f_equal. apply Z.div_mod. lia.
Qed.

Lemma six_total ty k : total_bits (six_bits k) (six_order ty) = Z.log2 va + Z.log2 bg + Z.log2 ba + Z.log2 ro + (Z.log2 co - 3).
Proof. destruct ty; unfold total_bits, six_bits; simpl; lia. Qed.

(** ** The address of a request *)
Lemma five_range_rw v : five_range v →
  ∃ i, v !! 0%nat = Some (Z.of_nat i) ∧ (i < Z.to_nat va)%nat ∧ rw_addr spec (Z.of_nat i) v.
Proof.
  intros (x0&x1&x2&x3&col&->&H0&H1&H2&H3&H4). pose proof (hc_range _ _ _ _ _ _ _ Hcfg) as Hr.
  rewrite !Forall_cons in Hr. destruct Hr as (R0&R1&R2&R3&R4&_).
  pose proof (Z.log2_spec va ltac:(lia)). pose proof (Z.log2_spec bg ltac:(lia)). pose proof (Z.log2_spec ba ltac:(lia)).
  pose proof (Z.log2_spec ro ltac:(lia)). pose proof (Z.log2_spec co ltac:(lia)).
  assert (2 ^ (Z.log2 co - 3) ≤ 2 ^ Z.log2 co) by (apply Z.pow_le_mono_r; lia).
  exists (Z.to_nat x0). rewrite Z2Nat.id by lia. split; [done|]. split; [lia|].
  pose proof (hc_count _ _ _ _ _ _ _ Hcfg) as E. unfold rw_addr, addr_ok, path_ok. change (count spec) with (HMC.count (HMC.org_entry o)).
  rewrite E. split_and!; try done.
  - intros i x Hi Hpos. do 5 (destruct i as [|i]; [simplify_eq/=; lia|]). done.
  - change (bank_idx spec) with 2%nat. intros i Hi. assert (i = 1 ∨ i = 2)%nat as [-> | ->] by lia; eexists; (split; [done|]); simpl; lia.
Qed.

Lemma hmc_map_address_ok m a :
  h_addr_bits m = level_bits → h_tx_bits m = 5 →
  ∃ v, hmc_map_address o m a = Some v ∧ five_range v ∧
    hmc_unmap (htype m) (HMC.flit_num_bits (HMC.maxblock_entry o) - 5) v =
      (a / 2 ^ 5) mod 2 ^ (Z.log2 va + Z.log2 bg + Z.log2 ba + Z.log2 ro + (Z.log2 co - 3)).
Proof.
  intros Hb Ht. pose proof (hc_block _ _ _ _ _ _ _ Hcfg). unfold hmc_map_address, clear_lower_bits. rewrite Hb, Ht.
  rewrite Z.shiftr_div_pow2 by lia.
  destruct (coordinates_ok (htype m) (HMC.flit_num_bits (HMC.maxblock_entry o) - 5) (a / 2 ^ 5)) as (v&Hv&Hr&Hj); [lia|].
  exists v. split; [done|]. split; [done|]. by rewrite Hj, six_total.
Qed.

End Map.
