(* ===== verification/HmcMemInv.v ===== *)
(** * The invariant of the HMC memory

    [hmc_reachable]: the memories that a run of the program can reach.  Every
    request in flight is one item on a link, in a vault or in a response; its
    tag is in no pool, and the vaults satisfy the invariant of [VaultInv]. *)

From Stdlib Require Import Permutation.
From S2P Require Import Prelude Double Request Dram DramTiming BankProtocol Device Standard Controller CtrlQueries ControllerInv ControllerTick.
From S2P Require Import SpecHMC Packet HmcController Memory MemoryMap Link HmcMemory VaultInv NetInv HmcMap.

#[local] Arguments Z.mul : simpl never.
#[local] Arguments Z.pow : simpl never.

(** The items in flight. *)
Definition hmc_flight (m : HmcMemory) : list Item := layers_items (logic_layers m) ++ vaults_items (vault_ctrls m).

(** All tags with their links. *)
Definition all_tags (o : HMC.HMC) : list (Z * Z) :=
  pool_pairs (replicate (Z.to_nat (HMC.source_links o)) (map Z.of_nat (seq 0 (Z.to_nat HMC.max_tags)))).

Section Reach.
Variables (o : HMC.HMC) (stacks : Z).

(** The memories of a run with [stacks] stacks and as many host links as the
    cube has, for any number of cores and whatever [cub] holds in the logic
    layers. *)
Inductive hmc_reachable : HmcMemory → Prop :=
| HReach_start n uninit ty tr unlimit pim m :
    start_hmc o n uninit ty tr false unlimit pim stacks (HMC.source_links o) 0 = Some m → hmc_reachable m
| HReach_send m req b m' :
    hmc_reachable m → type req = READ ∨ type req = WRITE → is_first_command req = true →
    hmc_send o req m = Some (b, m') → hmc_reachable m'
| HReach_tick m done m' : hmc_reachable m → hmc_mem_tick o m = Some (done, m') → hmc_reachable m'
| HReach_alloc m lrand a core x m' :
    hmc_reachable m → hmc_page_allocator lrand a core m = Some (x, m') → hmc_reachable m'.

Hypothesis Hok : hmc_ok o stacks = true.
Abbreviation spec := (HMC.spec o).
Abbreviation links := (HMC.source_links o).

(** The number of cores that the statistics count, and the sizes of their
    vectors. *)
Definition hmc_cores (m : HmcMemory) : nat := length (h_read_requests (hstats m)).
Definition hmc_stats_sized (n vaults : nat) (st : hmc_stats) : Prop :=
  Forall (has_length n) [h_read_requests st; h_write_requests st] ∧
  Forall (has_length vaults) [h_requests_per_channel st; h_read_reqs_per_channel st].

Record hmc_inv (va bg ba ro co : Z) (m : HmcMemory) : Prop := {
  hi_vaults : vaults_ok o (hmc_cores m) (hpim m) (vault_ctrls m);
  hi_number : (Z.to_nat va ≤ length (vault_ctrls m))%nat;
  hi_layers : Forall (layer_ok o (hmc_cores m) (Z.to_nat va)) (logic_layers m);
  hi_layer0 : is_Some (logic_layers m !! 0%nat);
  hi_pools : Z.of_nat (length (tags_pools m)) = links;
  hi_ids : NoDup (map item_id (hmc_flight m));
  hi_count : Forall (λ x, item_id x < mem_req_count m) (hmc_flight m);
  hi_tags : Forall (λ x, x.2 < 2048) (pool_pairs (tags_pools m) ++ map fst (hmc_flight m));
  hi_all : hpim m = false → ∃ lost, pool_pairs (tags_pools m) ++ map fst (hmc_flight m) ++ lost ≡ₚ all_tags o;
  hi_bits : h_addr_bits m = level_bits va bg ba ro co;
  hi_tx : h_tx_bits m = 5;
  hi_capacity : capacity_per_stack m = calc_max_address spec;
  hi_max : h_max_address m = calc_max_address spec * stacks;
  hi_per_vault : length (requests_per_vault m) = 32%nat;
  hi_stats : hmc_stats_sized (hmc_cores m) (Z.to_nat va) (hstats m)
}.

Section Config.
Variables va bg ba ro co : Z.
Hypothesis Hcfg : hmc_config o stacks va bg ba ro co.
#[local] Instance config_CountOK : CountOK 5 (HMC.count (HMC.org_entry o)) := hmc_CountOK o stacks va bg ba ro co Hcfg.
Abbreviation Hlat := (hc_latency _ _ _ _ _ _ _ Hcfg).
Abbreviation inv := (hmc_inv va bg ba ro co).

Lemma links_8 : links ≤ 8.
Proof. apply (hc_links _ _ _ _ _ _ _ Hcfg). Qed.

Lemma flits_0 : 0 ≤ HMC.payload_flits o.
Proof. apply (hc_flits _ _ _ _ _ _ _ Hcfg). Qed.

Lemma capacity_pos : 0 < calc_max_address spec.
Proof.
  unfold calc_max_address. change (count spec) with (HMC.count (HMC.org_entry o)). rewrite (hc_count _ _ _ _ _ _ _ Hcfg).
  pose proof (hc_range _ _ _ _ _ _ _ Hcfg) as Hr. rewrite !Forall_cons in Hr. destruct Hr as (R0&R1&R2&R3&R4&_).
  cbn [foldl]. change (Z.quot (channel_width spec) 8) with 4. repeat apply Z.mul_pos_pos; lia.
Qed.

(** ** The vaults *)
Lemma tick_vaults_ok cores pim k vs acc :
  (∀ j v, vs !! j = Some v → pim_mode_enabled v = pim ∧ ∃ h, vault_inv o cores (Z.of_nat (k + j)) h v) →
  if existsb (λ v, vault_due o v && vault_full v) vs
  then foldM (λ acc v, '(done, v) ← hmc_tick o v; Some (fst acc ++ done, snd acc ++ [v])) acc vs = None
  else ∃ done vs' ds, foldM (λ acc v, '(done, v) ← hmc_tick o v; Some (fst acc ++ done, snd acc ++ [v])) acc vs =
      Some (fst acc ++ done, snd acc ++ vs') ∧
    (∀ j v, vs' !! j = Some v → pim_mode_enabled v = pim ∧ ∃ h, vault_inv o cores (Z.of_nat (k + j)) h v) ∧
    length vs' = length vs ∧ vaults_items vs ≡ₚ ds ++ vaults_items vs' ∧ map rk done = map snd ds ∧
    Forall (λ r, type r = READ) done ∧ (pim = false → done = []).
Proof.
  revert k acc. induction vs as [|v vs IH]; intros k acc Hvs; simpl.
  { exists [], [], []. rewrite !app_nil_r. by destruct acc. }
  destruct (Hvs 0%nat v eq_refl) as [Hpim [h Hv]]. pose proof (hmc_tick_ok o cores Hlat links_8 _ h v Hv) as Ht.
  destruct (vault_due o v && vault_full v); [by rewrite Ht|]. cbn [orb].
  destruct Ht as (done1&v1&h1&resp&->&Hv1&Hp1&Hr1&Hi1&Hrd1&Hn1&_). cbn [mbind option_bind].
  specialize (IH (S k) (fst acc ++ done1, snd acc ++ [v1])). cbn [fst snd] in IH.
  assert (∀ j w, vs !! j = Some w → pim_mode_enabled w = pim ∧ ∃ h, vault_inv o cores (Z.of_nat (S k + j)) h w) as Hvs1.
  { intros j w Hj. replace (S k + j)%nat with (k + S j)%nat by lia. by apply Hvs. }
  specialize (IH Hvs1). destruct (existsb _ vs); [done|].
  destruct IH as (done2&vs2&ds2&E&Hvs2&L2&P2&K2&R2&N2). rewrite E.
  set (ds1 := map (kitem (incoming_packets_buffer v)) (map rk done1)) in *.
  exists (done1 ++ done2), (v1 :: vs2), (ds1 ++ ds2). rewrite <-!(assoc_L (++)). split_and!; [done| |simpl; lia| | | |].
  - intros [|j] w Hj; simplify_eq/=; [split; [congruence|eauto]|].
    replace (k + S j)%nat with (S k + j)%nat by lia. by apply Hvs2.
  - unfold vaults_items in *. simpl. rewrite P2.
    assert (vault_all v ≡ₚ ds1 ++ vault_all v1) as ->.
    { unfold vault_all. rewrite Hi1, Hr1, map_app, <-!(assoc_L (++)). f_equiv.
      rewrite (Permutation_app_comm (map response_item resp)), <-!(assoc_L (++)). done. }
    rewrite <-!(assoc_L (++)). f_equiv. apply Permutation_app_swap_app.
  - rewrite !map_app, K2. f_equal. unfold ds1. rewrite map_map. simpl. by rewrite map_id.
  - by apply Forall_app.
  - intros Hf. rewrite Hn1, N2 by congruence. done.
Qed.

(** ** [tick] *)
Definition refresh_overflow (m : HmcMemory) : bool := existsb (λ v, vault_due o v && vault_full v) (vault_ctrls m).

Lemma filter_read_all (ks : list RKey) (rs : list Request) :
  map rk rs = ks → Forall (λ r, type r = READ) rs → List.filter is_read_key ks = ks.
Proof.
  intros <-. induction 1 as [|r rs Hr _ IH]; [done|]. simpl. rewrite IH. unfold is_read_key, rk. simpl.
  by rewrite bool_decide_true.
Qed.

(** A cycle fails only when the refresh of a vault is due and its queue is
    full.  The items that leave the network are called back if they are reads,
    and outside PIM mode give their tags back. *)
Lemma hmc_mem_tick_ok m :
  inv m →
  if refresh_overflow m then hmc_mem_tick o m = None
  else ∃ done m' out, hmc_mem_tick o m = Some (done, m') ∧ inv m' ∧ hpim m' = hpim m ∧
    hmc_flight m ≡ₚ out ++ hmc_flight m' ∧ map rk done = List.filter is_read_key (map snd out) ∧
    (hpim m = false → pool_pairs (tags_pools m') ≡ₚ map fst out ++ pool_pairs (tags_pools m)) ∧
    mem_req_count m' = mem_req_count m ∧ hmc_cores m' = hmc_cores m.
Proof.
  intros [H1 H2 H3 H4 H5 H6 H7 H8 H9 H10 H11 H12 H13 H14 H15]. unfold hmc_mem_tick, tick_vaults, refresh_overflow.
  pose proof (tick_vaults_ok (hmc_cores m) (hpim m) 0 (vault_ctrls m) ([], []) H1) as Hv.
  destruct (existsb _ (vault_ctrls m)); [by rewrite Hv|].
  destruct Hv as (done1&vs1&ds1&->&Hvs1&L1&P1&K1&R1&N1). cbn [mbind option_bind app fst snd]. set (st := mkHmcStats _ _ _ _ _ _ _ _ _ _ _).
  assert (layers_items (logic_layers m) ++ vaults_items (vault_ctrls m) ≡ₚ
    ds1 ++ layers_items (logic_layers m) ++ vaults_items vs1) as P1' by (rewrite P1; apply Permutation_app_swap_app).
  destruct (tick_layers_ok o (hmc_cores m) flits_0 (hpim m) (Z.to_nat va) (hclk m + 1) (logic_layers m) vs1 (mkHost (tags_pools m) st done1))
    as (ys2&vs2&h2&ds2&->&Hys2&C2&Hvs2&L2&(T2&Q2&K2&V2)&P2); [done|exact Hvs1|lia|done| |].
  { eapply NoDup_ids_perm in H6; [|exact P1']. rewrite map_app in H6. by apply NoDup_app in H6 as (_&_&?). }
  cbn [mbind option_bind fst snd] in *. simpl in T2, Q2, K2. set (m' := set_counts _ _ _ _).
  injection V2 as V1 V2 V3 V4. assert (hmc_cores m' = hmc_cores m) as En by (unfold hmc_cores; simpl; by rewrite V1).
  assert (hmc_flight m ≡ₚ (ds1 ++ ds2) ++ hmc_flight m') as P.
  { unfold hmc_flight at 1. rewrite P1', P2. by rewrite <-(assoc_L (++)). }
  assert (map rk (called h2) = List.filter is_read_key (map snd (ds1 ++ ds2))) as Hdone.
  { rewrite K2, map_app, List.filter_app. f_equal. etrans; [exact K1|]. symmetry. exact (filter_read_all _ done1 K1 R1). }
  assert (hpim m = false → ds1 = []) as Hds1.
  { intros Hp. specialize (N1 Hp). subst done1. simpl in K1. by destruct ds1. }
  exists (called h2), m', (ds1 ++ ds2). split_and!; try done.
  - split; rewrite ?En; simpl; try done.
    + lia.
    + apply (f_equal (lookup 0%nat)) in C2. rewrite !list_lookup_fmap in C2. destruct H4 as [y0 H4]. rewrite H4 in C2.
      destruct (ys2 !! 0%nat); [by eexists|done].
    + by rewrite T2.
    + rewrite P, map_app in H6. by apply NoDup_app in H6 as (_&_&?).
    + rewrite P in H7. by apply Forall_app in H7 as [_ ?].
    + rewrite P, !map_app, !Forall_app in H8. destruct H8 as (Ht&(_&Ht2)&Hf). rewrite Q2, !Forall_app. auto.
    + intros Hp. destruct (H9 Hp) as [lost Hl]. exists lost. rewrite <-Hl, P, Q2, (Hds1 Hp), !map_app. simpl.
      rewrite <-!(assoc_L (++)). apply Permutation_app_swap_app.
    + unfold hmc_stats_sized in *. by rewrite V1, V2, V3, V4.
  - intros Hp. rewrite (Hds1 Hp). exact Q2.
Qed.

(** ** [send] *)

(** The link of an address. *)
Definition link_of (a : Z) : Z := Z.rem (Z.shiftr a (HMC.flit_num_bits (HMC.maxblock_entry o))) links.

Lemma link_of_range a : 0 ≤ a → 0 ≤ link_of a < links.
Proof.
  intros Ha. unfold link_of. pose proof (hc_links _ _ _ _ _ _ _ Hcfg). apply Z.rem_bound_pos; [|lia].
  by apply Z.shiftr_nonneg.
Qed.

Lemma assign_tag_ok slid pools :
  0 ≤ slid < Z.of_nat (length pools) →
  ∃ tag pools', assign_tag slid pools = Some (tag, pools') ∧ length pools' = length pools ∧
    ((pools !! Z.to_nat slid = Some [] ∧ tag = -1 ∧ pools' = pools) ∨
     (slid, tag) :: pool_pairs pools' ≡ₚ pool_pairs pools).
Proof.
  intros Hs. destruct (lookup_lt_is_Some_2 pools (Z.to_nat slid)) as [pool Hp]; [lia|]. unfold assign_tag.
  rewrite zlookup_nat, Hp by lia. cbn [mbind option_bind]. destruct pool as [|tag pool];
    [exists (-1), pools; split; [done|]; split; [done|]; by left|].
  eexists _, _. split; [done|]. split; [apply length_insert|]. right.
  symmetry. apply (pool_pairs_insert pools (Z.to_nat slid) (tag :: pool) pool [] [(slid, tag)] Hp).
  simpl. by rewrite Z2Nat.id by lia.
Qed.

Lemma form_request_ok m req :
  inv m → is_rw (type req) = true → 0 ≤ addr req < h_max_address m →
  ∃ packet pools', form_request_packet o req m = Some (packet, set_tags_pools pools' m) ∧
    length pools' = length (tags_pools m) ∧ fields_ok links packet ∧ ptype packet = REQUEST ∧
    flow_control packet = false ∧ total_flits packet = (if decide (type req = READ) then 1 else 1 + HMC.payload_flits o) ∧
    value (RTC (tail packet)) = 0 ∧ preq packet = req ∧ value (tail_SLID (tail packet)) = link_of (addr req) ∧
    value (CUB (header packet)) = addr req / calc_max_address spec ∧
    let tag := value (TAG (header packet)) in
    ((tags_pools m !! Z.to_nat (link_of (addr req)) = Some [] ∧ tag = -1 ∧ pools' = tags_pools m) ∨
     (link_of (addr req), tag) :: pool_pairs pools' ≡ₚ pool_pairs (tags_pools m)).
Proof.
  intros [_ _ _ _ H5 _ _ H8 _ _ _ H12 H13 _ _] Hrw Ha. pose proof (hc_links _ _ _ _ _ _ _ Hcfg) as Hln.
  pose proof (hc_stacks _ _ _ _ _ _ _ Hcfg). pose proof (hc_size _ _ _ _ _ _ _ Hcfg). pose proof capacity_pos as Hcap.
  unfold form_request_packet, clear_lower_bits. fold (link_of (addr req)).
  pose proof (link_of_range (addr req) ltac:(lia)) as Hslid.
  destruct (assign_tag_ok (link_of (addr req)) (tags_pools m)) as (tag&pools'&->&Hlen&Htag); [lia|]. cbn [mbind option_bind].
  assert (tag < 2048) as Htag8.
  { destruct Htag as [(_&->&_)|Hp]; [lia|]. apply Forall_app in H8 as [H8 _]. rewrite <-Hp in H8. by apply Forall_cons in H8 as [? _]. }
  assert (0 ≤ Z.quot (addr req) (capacity_per_stack m) < 8 ∧ Z.quot (addr req) (capacity_per_stack m) = addr req / calc_max_address spec) as [Hcub Ecub].
  { rewrite H12, Z.quot_div_nonneg by lia. split; [|done]. split; [apply Z.div_pos; lia|].
    apply Z.div_lt_upper_bound; [lia|]. nia. }
  assert (∃ cmd, match type req with READ => Some (read_cmd_map (if decide (type req = READ) then 1 else 1 + HMC.payload_flits o))
                 | WRITE => Some (write_cmd_map (if decide (type req = READ) then 1 else 1 + HMC.payload_flits o)) | _ => None end = Some cmd)
    as [cmd ->] by (destruct (type req); try done; eauto).
  cbn [mbind option_bind]. unfold Packet_request. rewrite bool_decide_true by done. cbn [mbind option_bind].
  unfold Datafield_valid. cbn [header CUB ADRS TAG SLID CMD tail tail_SLID value bit set_preq].
  change (Z.shiftl 1 cub_bits) with 8. change (Z.shiftl 1 adrs_bits) with (2 ^ 34).
  change (Z.shiftl 1 tag_bits) with 2048. change (Z.shiftl 1 slid_bits) with 8. unfold id.
  rewrite !(proj2 (Z.ltb_lt _ _)) by lia. cbn [mbind option_bind].
  assert ((command_int cmd <? Z.shiftl 1 cmd_bits) = true) as -> by (destruct cmd; reflexivity).
  eexists _, pools'. split; [done|]. simpl. unfold fields_ok. simpl. split_and!; try done; lia.
Qed.

(** The request as [send] puts it into its packet. *)
Definition sent_key (m : HmcMemory) (req : Request) : RKey :=
  (mem_req_count m, type req, Z.land (addr req) (h_max_address m - 1), coreid req).
Definition sent_link (m : HmcMemory) (req : Request) : Z := link_of (Z.land (addr req) (h_max_address m - 1)).

(** Whether [send] takes a request: in PIM mode always, otherwise when its link
    has a tag and space. *)
Definition request_flits (req : Request) : Z := if decide (type req = READ) then 1 else 1 + HMC.payload_flits o.
Definition has_tag (m : HmcMemory) (req : Request) : bool :=
  match tags_pools m !! Z.to_nat (sent_link m req) with Some (_ :: _) => true | _ => false end.
Definition has_space (m : HmcMemory) (req : Request) : bool :=
  match y ← logic_layers m !! 0%nat; host_links y !! Z.to_nat (sent_link m req) with
  | Some l => request_flits req <=? slave_space (slave l)
  | None => false
  end.
Definition accepts (m : HmcMemory) (req : Request) : bool := hpim m || has_tag m req && has_space m req.

(** What [send] does: outside PIM mode it refuses a request when its link has
    no tag, or no space (and then the tag is lost). *)
Inductive send_result (m : HmcMemory) (req : Request) : bool → HmcMemory → Prop :=
| Send_accept m' tag :
    hmc_flight m' ≡ₚ (sent_link m req, tag, sent_key m req) :: hmc_flight m →
    mem_req_count m' = mem_req_count m + 1 →
    ((sent_link m req, tag) :: pool_pairs (tags_pools m') ≡ₚ pool_pairs (tags_pools m) ∨
     hpim m = true ∧ tags_pools m !! Z.to_nat (sent_link m req) = Some [] ∧ tags_pools m' = tags_pools m) →
    send_result m req true m'
| Send_no_tag m' :
    hpim m = false → tags_pools m !! Z.to_nat (sent_link m req) = Some [] → tags_pools m' = tags_pools m →
    hmc_flight m' = hmc_flight m → mem_req_count m' = mem_req_count m → send_result m req false m'
| Send_no_space m' tag l y :
    hpim m = false → logic_layers m !! 0%nat = Some y → host_links y !! Z.to_nat (sent_link m req) = Some l →
    (slave_space (slave l) < if decide (type req = READ) then 1 else 1 + HMC.payload_flits o) →
    (sent_link m req, tag) :: pool_pairs (tags_pools m') ≡ₚ pool_pairs (tags_pools m) →
    hmc_flight m' = hmc_flight m → mem_req_count m' = mem_req_count m → send_result m req false m'.

(** The tags and numbers after a request was accepted. *)
Lemma inv_accept m m' slid tag k :
  inv m → hmc_flight m' ≡ₚ (slid, tag, k) :: hmc_flight m → rk_id k = mem_req_count m →
  mem_req_count m' = mem_req_count m + 1 → tag < 2048 →
  ((slid, tag) :: pool_pairs (tags_pools m') ≡ₚ pool_pairs (tags_pools m) ∨ hpim m = true ∧ tags_pools m' = tags_pools m) →
  NoDup (map item_id (hmc_flight m')) ∧ Forall (λ x, item_id x < mem_req_count m') (hmc_flight m') ∧
  Forall (λ x, x.2 < 2048) (pool_pairs (tags_pools m') ++ map fst (hmc_flight m')) ∧
  (hpim m = false → ∃ lost, pool_pairs (tags_pools m') ++ map fst (hmc_flight m') ++ lost ≡ₚ all_tags o).
Proof.
  intros Hm Hf Hk Hn Htag Hp. destruct Hm as [_ _ _ _ _ H6 H7 H8 H9 _ _ _ _ _ _]. split_and!.
  - rewrite Hf. simpl. apply NoDup_cons. split; [|done]. unfold item_id at 1. simpl. rewrite Hk.
    intros (x&E&Hx)%list_elem_of_fmap. rewrite Forall_forall in H7. specialize (H7 _ Hx). simpl in H7. lia.
  - rewrite Hf. constructor; [unfold item_id; simpl; lia|]. eapply Forall_impl; [exact H7|]. simpl. lia.
  - apply Forall_app in H8 as [Hp8 Hf8]. rewrite Hf. apply Forall_app. split; [|by constructor].
    destruct Hp as [Hp|[_ ->]]; [|done]. rewrite <-Hp in Hp8. by apply Forall_cons in Hp8 as [_ ?].
  - intros Hpim. destruct (H9 Hpim) as [lost Hl]. exists lost. destruct Hp as [Hp|[E _]]; [|congruence].
    rewrite <-Hl, <-Hp, Hf. simpl. symmetry. apply Permutation_middle.
Qed.

Lemma inv_requests m x : inv m → length x = 32%nat → inv (set_requests_per_vault x m).
Proof. intros []. by split. Qed.

Lemma tag_not_minus_one m slid tag x :
  inv m → hpim m = false → (slid, tag) :: x ≡ₚ pool_pairs (tags_pools m) → tag ≠ -1.
Proof.
  intros Hm Hpim Hp ->. destruct (hi_all _ _ _ _ _ _ Hm Hpim) as [lost Hl]. rewrite <-Hp in Hl.
  assert ((slid, -1) ∈ all_tags o) as Hin by (rewrite <-Hl; by left). revert Hin. unfold all_tags, pool_pairs.
  rewrite list_elem_of_In, in_concat. intros (l&Hl1&Hl2). apply list_elem_of_In, elem_of_lookup_imap in Hl1 as (j&pool&->&Hj).
  apply lookup_replicate in Hj as [-> _]. apply list_elem_of_In, list_elem_of_fmap in Hl2 as (t&[= _ <-]&Ht).
  apply list_elem_of_fmap in Ht as (n&Hn&_). lia.
Qed.

Lemma has_tag_pool m slid tag x :
  inv m → hpim m = false → 0 ≤ slid < links → (slid, tag) :: x ≡ₚ pool_pairs (tags_pools m) →
  ∃ t pool, tags_pools m !! Z.to_nat slid = Some (t :: pool).
Proof.
  intros Hm Hpim Hs Hp. assert ((slid, tag) ∈ pool_pairs (tags_pools m)) as Hin by (rewrite <-Hp; by left).
  revert Hin. unfold pool_pairs. rewrite list_elem_of_In, in_concat. intros (l&Hl1&Hl2).
  apply list_elem_of_In, elem_of_lookup_imap in Hl1 as (j&pool&->&Hj).
  apply list_elem_of_In, list_elem_of_fmap in Hl2 as (t&[= -> <-]&Ht). rewrite Nat2Z.id, Hj.
  destruct pool as [|t0 pool]; [by apply elem_of_nil in Ht|]. eauto.
Qed.

Lemma slave_receive_ok cores nv p l :
  link_ok o cores nv l → request_ok o cores nv p → (total_flits p <=? slave_space (slave l)) = true →
  link_ok o cores nv (slave_receive p l) ∧ link_items (slave_receive p l) ≡ₚ request_item p :: link_items l.
Proof.
  intros [H1 H2 H3 H4 H5 H6 H7] Hp Hsp. destruct (id Hp) as (_&Hfc&_&_&_&_&Ht&Hrtc&_). unfold slave_receive. rewrite Hfc, Hrtc.
  apply Z.leb_le in Hsp. unfold slave_space in Hsp. pose proof flits_0. split.
  - split; simpl; try done; [lia|by apply Forall_app; split; [|constructor]|].
    destruct H6 as [E Hl]. rewrite E in *. split; [done|]. rewrite length_app. simpl. destruct Ht as [Ht|Ht]; rewrite Ht in Hsp; lia.
  - unfold link_items. simpl. rewrite map_app. simpl. rewrite <-!(assoc_L (++)). simpl. symmetry. apply Permutation_middle.
Qed.

(** The request [send] puts into its packet. *)
Lemma sent_address_ok m req : inv m → 0 ≤ Z.land (addr req) (h_max_address m - 1) < h_max_address m.
Proof.
  intros Hm. pose proof capacity_pos. pose proof (hc_stacks _ _ _ _ _ _ _ Hcfg). pose proof (hi_max _ _ _ _ _ _ Hm) as E.
  assert (0 < h_max_address m) by (rewrite E; nia). pose proof (land_range (addr req) (h_max_address m - 1)). lia.
Qed.

(** The packet [send] makes for a request to vault [i], and the pools after it. *)
Record sent (m : HmcMemory) (req : Request) (i : nat) (p : Packet) (pools : list (list Z)) : Prop := {
  st_ok : in_range (hmc_cores m) (coreid req) = true → request_ok o (hmc_cores m) (Z.to_nat va) p;
  st_vault : addr_vec (preq p) !! 0%nat = Some (Z.of_nat i) ∧ rw_addr spec (Z.of_nat i) (addr_vec (preq p));
  st_range : (i < Z.to_nat va)%nat;
  st_key : rk (preq p) = sent_key m req;
  st_link : value (tail_SLID (tail p)) = sent_link m req;
  st_stack : value (CUB (header p)) = Z.land (addr req) (h_max_address m - 1) / calc_max_address spec;
  st_flits : total_flits p = if decide (type req = READ) then 1 else 1 + HMC.payload_flits o;
  st_pools : length pools = length (tags_pools m);
  st_tag : let tag := value (TAG (header p)) in
    (tags_pools m !! Z.to_nat (sent_link m req) = Some [] ∧ tag = -1 ∧ pools = tags_pools m) ∨
    (sent_link m req, tag) :: pool_pairs pools ≡ₚ pool_pairs (tags_pools m)
}.

Lemma sent_item m req i p pools :
  sent m req i p pools → request_item p = (sent_link m req, value (TAG (header p)), sent_key m req).
Proof. intros H. unfold request_item. by rewrite (st_link _ _ _ _ _ H), (st_key _ _ _ _ _ H). Qed.

Lemma hmc_send_sent m req :
  inv m → is_rw (type req) = true → is_first_command req = true →
  ∃ i p pools x, hmc_send o req m =
      hmc_route o (preq p) (Z.of_nat i) p (set_tags_pools pools (set_requests_per_vault x m)) ∧
    inv (set_requests_per_vault x m) ∧ sent m req i p pools.
Proof.
  intros Hm Hrw Hfirst. pose proof (sent_address_ok m req Hm) as Ha. unfold hmc_send, clear_higher_bits.
  set (req1 := set_addr _ _). change (addr req1) with (Z.land (addr req) (h_max_address m - 1)).
  destruct (hmc_map_address_ok o stacks va bg ba ro co Hcfg m (Z.land (addr req) (h_max_address m - 1)))
    as (v&->&Hv&_); [apply Hm|apply Hm|]. cbn [mbind option_bind].
  destruct (five_range_rw o stacks va bg ba ro co Hcfg v Hv) as (i&Hi&Hlt&Hrwa). change (HMC.level_int HMC.Vault) with 0%nat.
  rewrite Hi; cbn [mbind option_bind]. pose proof (hc_vaults _ _ _ _ _ _ _ Hcfg).
  destruct (lookup_lt_is_Some_2 (requests_per_vault m) i) as [n Hn]; [rewrite (hi_per_vault _ _ _ _ _ _ Hm); lia|].
  rewrite zlookup_nat, Nat2Z.id, Hn by lia. cbn [mbind option_bind].
  set (x := <[i:=n + 1]> (requests_per_vault m)). change (hclk (set_requests_per_vault x m)) with (hclk m). set (req2 := set_arrive_hmc _ _).
  assert (inv (set_requests_per_vault x m)) as Hm1.
  { apply inv_requests; [done|]. unfold x. by rewrite length_insert, (hi_per_vault _ _ _ _ _ _ Hm). }
  destruct (form_request_ok (set_requests_per_vault x m) req2 Hm1) as (p&pools&->&Hlen&Hf&Hty&Hfc&Htot&Hrtc&Hreq&Hslid&Hcub&Htag);
    [done|done|]. cbn [mbind option_bind]. exists i, p, pools, x. rewrite Hreq. split; [done|]. split; [done|].
  split; rewrite ?Hreq; try done.
  intros Hin%in_range_true. unfold request_ok. rewrite Hreq, Htot.
  split_and!; try done; try apply Hf; try apply Hin; [case_decide; auto|]. by exists i.
Qed.

(** A request with the next number is in no vault. *)
Lemma new_id_fresh m i w k :
  inv m → vault_ctrls m !! i = Some w → rk_id k = mem_req_count m → rk_id k ∉ map rk_id (vkeys (vbase w)).
Proof.
  intros Hm Hw Hk. rewrite <-vault_items_ids. intros (x&E&Hx)%list_elem_of_fmap.
  pose proof (hi_count _ _ _ _ _ _ Hm) as Hc. rewrite Forall_forall in Hc. specialize (Hc x). simpl in Hc.
  rewrite <-E, Hk in Hc. apply (Z.lt_irrefl (mem_req_count m)), Hc.
  unfold hmc_flight. apply elem_of_app. right. rewrite (vaults_items_lookup _ _ _ Hw). unfold vault_all. rewrite !elem_of_app. auto.
Qed.

(** The vectors of the statistics: [send] aborts for a core that has none. *)
Lemma hmc_count_ok cores vaults req i m :
  hmc_stats_sized cores vaults (hstats m) → (i < vaults)%nat → is_rw (type req) = true →
  if in_range cores (coreid req)
  then ∃ st, hmc_count req (Z.of_nat i) m = Some (set_counts (hclk m) (mem_req_count m + 1) st m) ∧
    hmc_stats_sized cores vaults st ∧ length (h_read_requests st) = length (h_read_requests (hstats m))
  else hmc_count req (Z.of_nat i) m = None.
Proof.
  intros [H1 H2] Hi Hrw. unfold hmc_stats_sized in *. rewrite !Forall_cons in H1. rewrite !Forall_cons in H2.
  destruct H1 as (A1&A2&_), H2 as (B1&B2&_).
  assert (in_range vaults (Z.of_nat i) = true) as Hin by (apply in_range_true; lia).
  pose proof (bump_ok vaults _ (Z.of_nat i) B1) as E1. pose proof (bump_ok vaults _ (Z.of_nat i) B2) as E2. rewrite Hin in E1, E2.
  destruct E1 as (w1&E1&L1), E2 as (w2&E2&L2). unfold hmc_count.
  pose proof (bump_ok cores _ (coreid req) A1) as E3. pose proof (bump_ok cores _ (coreid req) A2) as E4.
  destruct (type req); try done; simpl; rewrite ?E2; simpl.
  - destruct (in_range cores (coreid req)); [|by rewrite E3]. destruct E3 as (v&->&Lv). simpl. rewrite E1. simpl.
    eexists. split; [done|]. split; [by split; repeat constructor|]. unfold has_length in *. simpl. congruence.
  - destruct (in_range cores (coreid req)); [|by rewrite E4]. destruct E4 as (v&->&Lv). simpl. rewrite E1. simpl.
    eexists. split; [done|]. split; [by split; repeat constructor|done].
Qed.

Lemma sent_rw m req i p pools : sent m req i p pools → is_rw (type req) = true → is_rw (type (preq p)) = true.
Proof. intros Hp. pose proof (st_key _ _ _ _ _ Hp) as E. unfold rk, sent_key in E. by injection E as _ -> _ _. Qed.

Lemma sent_core m req i p pools : sent m req i p pools → coreid (preq p) = coreid req.
Proof. intros Hp. pose proof (st_key _ _ _ _ _ Hp) as E. unfold rk, sent_key in E. by injection E as _ _ _ ->. Qed.

(** In PIM mode the vault takes the packet. *)
Lemma route_pim_ok m req i p pools x :
  inv m → hpim m = true → length x = 32%nat → sent m req i p pools → is_rw (type req) = true →
  let route := hmc_route o (preq p) (Z.of_nat i) p (set_tags_pools pools (set_requests_per_vault x m)) in
  if in_range (hmc_cores m) (coreid req)
  then ∃ m', route = Some (true, m') ∧ inv m' ∧ send_result m req true m' ∧ hpim m' = hpim m ∧ hmc_cores m' = hmc_cores m
  else route = None.
Proof.
  intros Hm Hpim Hx Hp Hrw0 route. subst route. pose proof (sent_item _ _ _ _ _ Hp) as Hitem. unfold hmc_route. simpl. rewrite Hpim.
  pose proof (sent_rw _ _ _ _ _ Hp Hrw0) as Hrw. pose proof (sent_core _ _ _ _ _ Hp) as Hcore. pose proof (st_range _ _ _ _ _ Hp).
  pose proof (hi_vaults _ _ _ _ _ _ Hm) as Hvs. pose proof (hi_number _ _ _ _ _ _ Hm) as Hnum.
  rewrite zlookup_nat, Nat2Z.id by lia. destruct (lookup_lt_is_Some_2 (vault_ctrls m) i) as [w Hw]; [lia|].
  rewrite Hw; cbn [mbind option_bind]. destruct (Hvs _ _ Hw) as [Hpw [h Hinv]].
  assert (∀ vs, let m1 := set_vault_ctrls vs (set_tags_pools pools (set_requests_per_vault x m)) in
    if in_range (hmc_cores m) (coreid req)
    then ∃ st, hmc_count (preq p) (Z.of_nat i) m1 = Some (set_counts (hclk m1) (mem_req_count m1 + 1) st m1) ∧
      hmc_stats_sized (hmc_cores m) (Z.to_nat va) st ∧ length (h_read_requests st) = hmc_cores m
    else hmc_count (preq p) (Z.of_nat i) m1 = None) as Hcount.
  { intros vs m1. rewrite <-Hcore. by apply (hmc_count_ok _ _ (preq p) i m1 (hi_stats _ _ _ _ _ _ Hm)). }
  destruct (in_range (hmc_cores m) (coreid req)) eqn:Ein.
  2:{ destruct (receive_packet o p w) as [[[b p'] w']|]; [|done]. cbn [mbind option_bind]. by rewrite Hcount. }
  destruct (st_ok _ _ _ _ _ Hp Ein) as (Hty&_&Hf&_&Hfirst&Hknown&_).
  destruct (receive_packet_ok o _ (Z.of_nat i) h w p Hinv Hty Hf Hrw (proj2 (st_vault _ _ _ _ _ Hp)) Hfirst Hknown)
    as (p'&w'&->&Hinv'&_&_&_&_&_&_&_&_&Eresp&Epim&Hit&_).
  { eapply new_id_fresh; [done|done|]. by rewrite (st_key _ _ _ _ _ Hp). }
  assert (refuses w (preq p) = false) as Hrf by (unfold refuses; by rewrite Hpw, Hpim). rewrite Hrf in *. cbn [mbind option_bind negb].
  destruct (Hcount (<[i:=w']> (vault_ctrls m))) as (st&->&Hst&Hn). cbn [mbind option_bind]. set (m2 := set_counts _ _ _ _).
  assert (hmc_cores m2 = hmc_cores m) as En by done.
  assert (hmc_flight m2 ≡ₚ (sent_link m req, value (TAG (header p)), sent_key m req) :: hmc_flight m) as Hfl.
  { rewrite <-Hitem. unfold hmc_flight. simpl. rewrite Permutation_middle. f_equiv. symmetry.
    apply (vaults_items_insert (vault_ctrls m) i w w' [request_item p] []); [done|].
    unfold vault_all. rewrite Eresp, Hit. simpl. done. }
  pose proof (st_tag _ _ _ _ _ Hp) as Htag. pose proof (st_pools _ _ _ _ _ Hp) as Hlen.
  destruct (inv_accept m m2 _ _ _ Hm Hfl) as (I1&I2&I3&I4); [done|done|apply Hf| |].
  { destruct Htag as [(_&_&->)|Ht]; [by right|by left]. }
  exists m2. split; [done|]. split_and!; [| |done|done].
  - destruct Hm. split; rewrite ?En; simpl in *; try done; [|by rewrite length_insert|by rewrite Hlen].
    rewrite Hpim in *. eapply vaults_ok_insert; [done|congruence|done].
  - eapply Send_accept; [exact Hfl|done|]. destruct Htag as [(E&_&->)|Ht]; [by right|by left].
Qed.

(** Outside PIM mode: the tag is lost when the link has no space. *)
Lemma route_lost_ok m req tag pools x :
  inv m → hpim m = false → inv (set_requests_per_vault x m) → length pools = length (tags_pools m) →
  (sent_link m req, tag) :: pool_pairs pools ≡ₚ pool_pairs (tags_pools m) →
  inv (set_tags_pools pools (set_requests_per_vault x m)).
Proof.
  intros Hm Hpim Hm1 Hlen Hp. destruct Hm. split; simpl in *; try done; [by rewrite Hlen| | |by destruct Hm1].
  - apply Forall_app in hi_tags0 as [Hp8 Hf8]. apply Forall_app. split; [|done]. rewrite <-Hp in Hp8. by apply Forall_cons in Hp8 as [_ ?].
  - intros Hpf. destruct (hi_all0 Hpf) as [lost Hlost]. exists ((sent_link m req, tag) :: lost).
    change (hmc_flight (set_tags_pools _ _)) with (hmc_flight m). rewrite <-Hlost, <-Hp. simpl. by rewrite <-!Permutation_middle.
Qed.

(** Outside PIM mode: the packet goes to its link. *)
Lemma route_link_ok m req i p pools x y l :
  inv m → hpim m = false → length x = 32%nat → sent m req i p pools →
  (sent_link m req, value (TAG (header p))) :: pool_pairs pools ≡ₚ pool_pairs (tags_pools m) →
  logic_layers m !! 0%nat = Some y → host_links y !! Z.to_nat (sent_link m req) = Some l →
  (total_flits p <=? slave_space (slave l)) = true →
  in_range (hmc_cores m) (coreid req) = true →
  let y' := set_host_links (<[Z.to_nat (sent_link m req) := slave_receive p l]> (host_links y)) y in
  ∀ st, hmc_stats_sized (hmc_cores m) (Z.to_nat va) st → length (h_read_requests st) = hmc_cores m →
  let m' := set_counts (hclk m) (mem_req_count m + 1) st
    (set_logic_layers (<[0%nat := y']> (logic_layers m)) (set_tags_pools pools (set_requests_per_vault x m))) in
  inv m' ∧ send_result m req true m'.
Proof.
  intros Hm Hpim Hx Hp Htag Hy Hl Hsp Hin y' st Hst Hn m2. assert (hmc_cores m2 = hmc_cores m) as En by done. pose proof (sent_item _ _ _ _ _ Hp) as Hitem.
  pose proof (hi_layers _ _ _ _ _ _ Hm) as Hys. rewrite Forall_lookup in Hys. destruct (Hys _ _ Hy) as [Hls Hll Hcyc].
  pose proof Hls as Hlk. rewrite Forall_lookup in Hlk. specialize (Hlk _ _ Hl).
  destruct (slave_receive_ok _ _ p l Hlk (st_ok _ _ _ _ _ Hp Hin) Hsp) as [Hlk' Hli].
  assert (layers_items (<[0%nat:=y']> (logic_layers m)) ≡ₚ request_item p :: layers_items (logic_layers m)) as Hlay.
  { destruct (logic_layers m) as [|y0 ys]; simplify_eq/=. unfold layers_items. simpl.
    pose proof (links_items_insert (host_links y) _ l (slave_receive p l) [request_item p] [] Hl) as E. simpl in E.
    rewrite <-E; [done|]. by rewrite Hli. }
  assert (hmc_flight m2 ≡ₚ (sent_link m req, value (TAG (header p)), sent_key m req) :: hmc_flight m) as Hfl.
  { unfold hmc_flight. simpl. by rewrite Hlay, Hitem. }
  destruct (st_ok _ _ _ _ _ Hp Hin) as (_&_&Hf&_). pose proof (st_pools _ _ _ _ _ Hp) as Hlen.
  destruct (inv_accept m m2 _ _ _ Hm Hfl) as (I1&I2&I3&I4); [done|done|apply Hf|by left|]. split.
  - destruct Hm. split; rewrite ?En; simpl in *; rewrite ?Hpim in *; try done; [| |by rewrite Hlen].
    + apply Forall_insert; [done|]. split; simpl; [by apply Forall_insert|by rewrite length_insert|done].
    + destruct (logic_layers m) as [|y0 ys]; [done|]. by eexists.
  - eapply Send_accept; [exact Hfl|done|by left].
Qed.

(** Outside PIM mode: the packet goes to its link, if it has a tag and space. *)
Lemma route_net_ok m req i p pools x :
  inv m → hpim m = false → inv (set_requests_per_vault x m) → sent m req i p pools → is_rw (type req) = true →
  let route := hmc_route o (preq p) (Z.of_nat i) p (set_tags_pools pools (set_requests_per_vault x m)) in
  let b := has_tag m req && has_space m req in
  if b && negb (in_range (hmc_cores m) (coreid req)) then route = None
  else ∃ m', route = Some (b, m') ∧ inv m' ∧ send_result m req b m' ∧ hpim m' = false ∧ hmc_cores m' = hmc_cores m ∧
    (b = true → ∃ y l, logic_layers m !! 0%nat = Some y ∧ host_links y !! Z.to_nat (sent_link m req) = Some l ∧
      logic_layers m' = <[0%nat := set_host_links (<[Z.to_nat (sent_link m req) := slave_receive p l]> (host_links y)) y]> (logic_layers m)).
Proof.
  intros Hm Hpim Hm1 Hp Hrw0 route b. subst route b. unfold hmc_route, has_tag. simpl. rewrite Hpim. pose proof (st_pools _ _ _ _ _ Hp) as Hlen.
  destruct (st_tag _ _ _ _ _ Hp) as [(Hempty&Htag&Epools)|Htag].
  { rewrite Htag, Hempty. simpl. eexists. split; [done|].
    assert (inv (set_tags_pools pools (set_requests_per_vault x m))) as Hinv by (destruct Hm1; rewrite Epools; by split).
    split_and!; try done. by apply Send_no_tag. }
  rewrite (proj2 (Z.eqb_neq _ _)) by (by eapply tag_not_minus_one).
  assert (∃ t pool, tags_pools m !! Z.to_nat (sent_link m req) = Some (t :: pool)) as (t&pool&->) by (eapply has_tag_pool; [exact Hm|done| |exact Htag]; apply (link_of_range _ (proj1 (sent_address_ok m req Hm)))).
  pose proof (hi_layer0 _ _ _ _ _ _ Hm) as [y Ey]. unfold has_space. rewrite Ey; cbn [mbind option_bind andb].
  pose proof (hi_layers _ _ _ _ _ _ Hm) as Hys. rewrite Forall_lookup in Hys. destruct (Hys _ _ Ey) as [_ Hll _].
  rewrite (st_link _ _ _ _ _ Hp). pose proof (link_of_range _ (proj1 (sent_address_ok m req Hm))) as Hs. fold (sent_link m req) in Hs.
  destruct (lookup_lt_is_Some_2 (host_links y) (Z.to_nat (sent_link m req))) as [l Hl]; [lia|].
  rewrite zlookup_nat, Hl by lia. cbn [mbind option_bind]. rewrite (st_flits _ _ _ _ _ Hp). fold (request_flits req).
  destruct (request_flits req <=? slave_space (slave l)) eqn:Hsp; simpl.
  - match goal with |- context [hmc_count _ _ ?mm] =>
      pose proof (hmc_count_ok (hmc_cores m) (Z.to_nat va) (preq p) i mm (hi_stats _ _ _ _ _ _ Hm)
        (st_range _ _ _ _ _ Hp) (sent_rw _ _ _ _ _ Hp Hrw0)) as Hcount end.
    rewrite (sent_core _ _ _ _ _ Hp) in Hcount.
    destruct (in_range (hmc_cores m) (coreid req)) eqn:Ein; simpl; [|by rewrite Hcount]. destruct Hcount as (st&->&Hst&Hn). simpl.
    destruct (route_link_ok m req i p pools x y l Hm Hpim) with (st := st) as [H1 H2]; try done; [by destruct Hm1| |].
    { by rewrite (st_flits _ _ _ _ _ Hp). }
    eexists. split; [done|]. split_and!; [done|done|done|done|]. intros _. by exists y, l.
  - eexists. split; [done|]. split_and!; [by eapply route_lost_ok| |done|done|done].
    eapply Send_no_space; [done|done|exact Hl| |exact Htag|done|done]. by apply Z.leb_gt in Hsp.
Qed.

Lemma hmc_send_ok m req :
  inv m → is_rw (type req) = true → is_first_command req = true →
  let b := accepts m req in
  if b && negb (in_range (hmc_cores m) (coreid req)) then hmc_send o req m = None
  else ∃ m', hmc_send o req m = Some (b, m') ∧ inv m' ∧ send_result m req b m' ∧ hpim m' = hpim m ∧ hmc_cores m' = hmc_cores m.
Proof.
  intros Hm Hrw Hfirst b. subst b. unfold accepts.
  destruct (hmc_send_sent m req Hm Hrw Hfirst) as (i&p&pools&x&->&Hm1&Hp). destruct (hpim m) eqn:Hpim; cbn [orb andb].
  - pose proof (route_pim_ok m req i p pools x Hm Hpim) as H. destruct (in_range _ _); cbn [negb].
    + destruct H as (m'&->&?&?&?&?); [by destruct Hm1|done|done|]. exists m'. split_and!; try done; congruence.
    + apply H; [by destruct Hm1|done|done].
  - pose proof (route_net_ok m req i p pools x Hm Hpim Hm1 Hp Hrw) as H. cbv zeta in H. destruct (_ && negb _); [done|].
    destruct H as (m'&->&?&?&?&?&_). by exists m'.
Qed.

(** ** The constructor *)
Lemma new_vault_ok cores unlimit pim i d v :
  new_channel spec HMC.Vault i = Some d → new_hmc_controller o cores false unlimit pim d = Some v →
  vault_inv o cores i [] v ∧ pim_mode_enabled v = pim ∧ vault_all v = [].
Proof.
  intros Hd Hv. unfold new_hmc_controller in Hv. set (c := set_refresh _ _) in *.
  assert (v = mkHCtrl c [] ∅ pim) as -> by (destruct unlimit; run_opt; done).
  split; [|done]. split; simpl; [|constructor|intros k Hk; by apply elem_of_nil in Hk|constructor| |constructor].
  2:{ apply (sized_by cores (new_controller cores d)); [done|]. apply sized_any, cores_new. }
  apply (inv_frame spec HMC.proto i [] (new_controller cores d)); try done.
  by apply (new_controller_inv spec HMC.proto (CL := HMC_chan o Hlat) HMC.Vault).
Qed.

Lemma new_layer_ok cores nv u i y :
  new_logic_layer o u i links 0 = Some y → layer_ok o cores nv y ∧ cub y = u ∧ links_items (host_links y) = [].
Proof.
  unfold new_logic_layer. intros [= <-]. pose proof (hc_links _ _ _ _ _ _ _ Hcfg). split; [split|]; simpl.
  - apply Forall_forall. intros l (j&->&_)%list_elem_of_fmap. by split.
  - rewrite length_map, length_seq. lia.
  - apply (hc_cycles _ _ _ _ _ _ _ Hcfg).
  - split; [done|]. unfold links_items. rewrite map_map. induction (seq 0 _); simpl; [done|exact IHl].
Qed.

Lemma concat_nil {A B} (f : A → list B) l : (∀ x, x ∈ l → f x = []) → concat (map f l) = [].
Proof. intros H. induction l as [|x l IH]; simpl; [done|]. rewrite H by by left. apply IH. intros y Hy. apply H. by right. Qed.

Lemma all_tags_range : Forall (λ x, x.2 < 2048) (all_tags o).
Proof.
  apply Forall_forall. intros x. unfold all_tags, pool_pairs. rewrite list_elem_of_In, in_concat. intros (l&Hl1&Hl2).
  apply list_elem_of_In, elem_of_lookup_imap in Hl1 as (j&pool&->&Hj). apply lookup_replicate in Hj as [-> _].
  apply list_elem_of_In, list_elem_of_fmap in Hl2 as (t&->&Ht). apply list_elem_of_fmap in Ht as (n&->&Hn).
  apply elem_of_seq in Hn. change (Z.to_nat HMC.max_tags) with 2048%nat in Hn. simpl. lia.
Qed.

Lemma start_hmc_inv n uninit ty tr unlimit pim m :
  start_hmc o n uninit ty tr false unlimit pim stacks links 0 = Some m →
  inv m ∧ hmc_cores m = n ∧ map cub (logic_layers m) = map uninit (seq 0 (Z.to_nat stacks)).
Proof.
  intros H. pose proof (hc_stacks _ _ _ _ _ _ _ Hcfg) as Hst. pose proof (hc_links _ _ _ _ _ _ _ Hcfg) as Hln.
  unfold start_hmc in H. change (count spec) with (HMC.count (HMC.org_entry o)) in H.
  rewrite (hc_count _ _ _ _ _ _ _ Hcfg) in H. cbn [mbind option_bind lookup list_lookup HMC.level_int] in H. run_opt.
  match goal with H : mapM _ _ = Some ?x |- _ => apply mapM_Some_1 in H; rename H into Hm; rename x into vs end.
  unfold new_hmc_memory in H. rewrite (hmc_addr_bits o stacks va bg ba ro co Hcfg) in H. run_opt.
  match goal with H : mapM _ _ = Some ?x |- _ => apply mapM_Some_1 in H; rename H into Hy; rename x into ys end.
  match goal with H : calc_log2 _ = Some ?x |- _ => change (calc_log2 _) with (Some 5) in H; injection H as <- end.
  assert (∀ j v, vs !! j = Some v → vault_inv o n (Z.of_nat j) [] v ∧ pim_mode_enabled v = pim ∧ vault_all v = []) as Hvs.
  { intros j v Hj. destruct (Forall2_lookup_r _ _ _ _ _ Hm Hj) as (k&Hk&Hv). apply lookup_seq in Hk as [-> _].
    simpl in Hv. run_opt. by eapply new_vault_ok. }
  assert (∀ j y, ys !! j = Some y → layer_ok o n (Z.to_nat va) y ∧ cub y = uninit j ∧ links_items (host_links y) = []) as Hys.
  { intros j y Hj. destruct (Forall2_lookup_r _ _ _ _ _ Hy Hj) as (k&Hk&Hl). apply lookup_seq in Hk as [-> _]. by eapply new_layer_ok. }
  apply Forall2_length in Hm, Hy. rewrite length_seq in Hm, Hy.
  set (m := mkHmcMemory _ _ _ _ _ _ _ _ _ _ _ _ _ _ _).
  assert (hmc_flight m = []) as Hfl.
  { unfold hmc_flight, layers_items, vaults_items. simpl. rewrite !concat_nil; [done|intros z [j Hj]%list_elem_of_lookup..].
    - by apply (Hvs j).
    - by apply (Hys j). }
  assert (hmc_cores m = n) as En by apply length_replicate. split; [|split; [done|]].
  2:{ apply list_eq. intros j. change (logic_layers m) with ys. rewrite !list_lookup_fmap.
      destruct (ys !! j) as [y|] eqn:E; simpl.
      - destruct (Hys _ _ E) as (_&->&_). apply lookup_lt_Some in E. by rewrite lookup_seq_lt by lia.
      - apply lookup_ge_None in E. by rewrite lookup_seq_ge by lia. }
  split; rewrite ?Hfl, ?En; try done.
  - intros j v Hj. destruct (Hvs _ _ Hj) as (?&?&_). eauto.
  - simpl. rewrite <-Hm. nia.
  - apply Forall_lookup. intros j y Hj. by apply (Hys j).
  - change (logic_layers m) with ys. apply lookup_lt_is_Some_2. lia.
  - change (tags_pools m) with (replicate (Z.to_nat links) (map Z.of_nat (seq 0 (Z.to_nat HMC.max_tags)))).
    rewrite length_replicate. lia.
  - constructor.
  - rewrite app_nil_r. apply all_tags_range.
  - intros _. exists []. by rewrite !app_nil_r.
  - match goal with H : count spec !! 0%nat = Some ?x |- _ => assert (x = va) as -> by (change (count spec) with (HMC.count (HMC.org_entry o)) in H; rewrite (hc_count _ _ _ _ _ _ _ Hcfg) in H; by injection H) end.
    split; repeat constructor; apply length_replicate.
Qed.

Lemma hmc_alloc_inv m lrand a core x m' :
  inv m → hmc_page_allocator lrand a core m = Some (x, m') →
  inv m' ∧ hmc_flight m' = hmc_flight m ∧ tags_pools m' = tags_pools m ∧ hmc_cores m' = hmc_cores m.
Proof.
  intros Hm H. assert (m' = m ∨ ∃ t b, m' = set_counts (hclk m) (mem_req_count m) (hmc_count_page b (hstats m)) (set_hpages t m))
    as [->|(t&b&->)]; [|done|].
  - unfold hmc_page_allocator in H. destruct (htranslation m); [simplify_eq; auto|].
    apply bind_Some in H as ([p m1]&H1&H2). injection H2 as <- <-. case_match; [by simplify_eq; left|].
    destruct (pick_page _ _ _) as [[p' t']|]; simplify_eq/=. eauto.
  - split; [|done]. destruct Hm. by split.
Qed.

End Config.

(** Every reachable memory satisfies the invariant. *)
Lemma hmc_reachable_inv va bg ba ro co m :
  hmc_config o stacks va bg ba ro co → hmc_reachable m → hmc_inv va bg ba ro co m.
Proof.
  intros Hcfg. induction 1 as [n uninit ty tr unlimit pim m Hs|m req b m' _ IH Hty Hf Hs|m done m' _ IH Ht|m lrand a core x m' _ IH Ha].
  - by eapply start_hmc_inv.
  - pose proof (hmc_send_ok va bg ba ro co Hcfg m req IH) as Hok'. cbv zeta in Hok'. rewrite Hs in Hok'.
    destruct (_ && negb _); [by destruct Hty as [Hty|Hty]; rewrite Hty in Hok'; discriminate Hok'|].
    destruct Hok' as (m1&[= -> ->]&Hinv&_); [by destruct Hty as [-> | ->]|done|done].
  - pose proof (hmc_mem_tick_ok va bg ba ro co Hcfg m IH) as Htk. destruct (refresh_overflow m); [congruence|].
    destruct Htk as (done'&m1&out&Ht'&Hinv&_). rewrite Ht in Ht'. by simplify_eq.
  - by eapply hmc_alloc_inv.
Qed.

End Reach.
