(* ===== verification/ZsimMem.v ===== *)
(** * The memory hierarchy of zsim: requests, caches, the system
    ([zsim-ramulator/src/memory_hierarchy.h], [zsim-ramulator/src/coherence_ctrls.h])

    The caches of a simulation point to each other (parents, children, the state
    of the line a request is for).  They live in a store, [caches], and a pointer
    is an index into it; a [MESIState*] is the index of a cache and of one of its
    lines, or the local variable of the core that made the request.  The code
    runs on one thread here: locks are left out, and so are the event recorders
    of the contention simulation.

    A function that changes the store is a computation [M]: it returns a value
    and the new store, or [None] where the code fails an assertion, panics or
    indexes out of range. *)

From S2P Require Import Prelude.

(** ** Types *)

(** [uint32_t] *)
Definition u32 (x : Z) : Z := Z.land x 4294967295.

Inductive AccessType := GETS | GETX | PUTS | PUTX.
Inductive InvType := INV | INVX | FWD.
(** [I], [S], [E] and [M]. *)
Inductive MESIState := StI | StS | StE | StM.

#[global] Instance AccessType_eq_dec : EqDecision AccessType.
Proof. solve_decision. Defined.
#[global] Instance InvType_eq_dec : EqDecision InvType.
Proof. solve_decision. Defined.
#[global] Instance MESIState_eq_dec : EqDecision MESIState.
Proof. solve_decision. Defined.

Definition IsGet (t : AccessType) : bool := match t with GETS | GETX => true | _ => false end.

(** [Flag] and [FlagTrace] *)
Definition IFETCH : Z := 2.
Definition NOEXCL : Z := 4.
Definition NONINCLWB : Z := 8.
Definition PUTX_KEEPEXCL : Z := 16.
Definition PREFETCH : Z := 32.
Definition PREFETCH_TRACE : Z := 2.

(** [flags & f] *)
Definition flag_set (flags f : Z) : bool := negb (Z.land flags f =? 0).

(** [MESIState*] *)
Inductive StatePtr := Local | LineState (cache : nat) (lineId : Z).

Record MemReq := mkMemReq {
  lineAddr : Z; atype : AccessType; childId : Z; state : StatePtr; cycle : Z;
  initialState : MESIState; srcId : Z; flags : Z;
  previous_instructions : Z; coreId : Z; flagsTraces : Z; readAddr : Z
}.
Definition set_atype (t : AccessType) (r : MemReq) : MemReq :=
  mkMemReq (lineAddr r) t (childId r) (state r) (cycle r) (initialState r) (srcId r) (flags r)
    (previous_instructions r) (coreId r) (flagsTraces r) (readAddr r).

(** [InvReq], without the pointer to the flag its receivers raise: [invalidate]
    returns it. *)
Record InvReq := mkInvReq { inv_lineAddr : Z; itype : InvType; inv_cycle : Z; inv_srcId : Z }.

(** [offloadInfo] *)
Inductive msg_type := MEM_INSTR | INSTR_COUNT | OFFLOADING.
Record offloadInfo := mkOffload {
  msg : msg_type; ld_addr : Z; st_addr : Z; inter_instrs : Z; coreIdx : Z; off_thread : Z; content : Z
}.

(** [MemObject*] *)
Inductive MemObject := CacheObj (i : nat) | MemObj (j : nat).

#[global] Instance MemObject_eq_dec : EqDecision MemObject.
Proof. solve_decision. Defined.

(** ** Caches *)

(** [MESITopCC::Entry] *)
Definition MAX_CACHE_CHILDREN : nat := 256.
Record Entry := mkEntry { numSharers : Z; sharers : list bool; exclusive : bool }.
Definition clear : Entry := mkEntry 0 (replicate MAX_CACHE_CHILDREN false) false.
Definition isEmpty (e : Entry) : bool := numSharers e =? 0.
Definition isExclusive (e : Entry) : bool := (numSharers e =? 1) && exclusive e.

(** The profiling counters of [MESIBottomCC]. *)
Inductive Counter :=
  | profGETSHit | profGETSMiss | profGETXHit | profGETXMissIM | profGETXMissSM
  | profPUTS | profPUTX | profINV | profINVX | profFWD | profGETNextLevelLat | profGETNetLat.
#[global] Instance Counter_eq_dec : EqDecision Counter.
Proof. solve_decision. Defined.

(** What a [FilterCache] adds to [Cache]: an array with the line used last in
    each set. *)
Module FilterCache.
Record FilterEntry := mkFilterEntry { rdAddr : Z; wrAddr : Z; availCycle : Z }.
Record FilterCache := mkFilterCache {
  filterArray : list FilterEntry; setMask : Z; srcId : Z; reqFlags : Z; fGETSHit : Z; fGETXHit : Z
}.
Definition set_filterArray (x : list FilterEntry) (f : FilterCache) : FilterCache :=
  mkFilterCache x (setMask f) (srcId f) (reqFlags f) (fGETSHit f) (fGETXHit f).
Definition set_hits (gets getx : Z) (f : FilterCache) : FilterCache :=
  mkFilterCache (filterArray f) (setMask f) (srcId f) (reqFlags f) gets getx.

(** [clear], and the address [-1L] of no line. *)
Definition clear : FilterEntry := mkFilterEntry 0 0 0.
Definition NO_LINE : Z := 18446744073709551615.

(** The constructor, [setSourceId] and [setFlags]. *)
Definition new (numSets : Z) : FilterCache :=
  mkFilterCache (replicate (Z.to_nat numSets) clear) (u32 (numSets - 1)) 4294967295 0 0 0.
Definition setSourceId (id : Z) (f : FilterCache) : FilterCache :=
  mkFilterCache (filterArray f) (setMask f) id (reqFlags f) (fGETSHit f) (fGETXHit f).
Definition setFlags (flags : Z) (f : FilterCache) : FilterCache :=
  mkFilterCache (filterArray f) (setMask f) (srcId f) flags (fGETSHit f) (fGETXHit f).

(** [lineAddr & setMask], as an [uint32_t]. *)
Definition index (f : FilterCache) (lineAddr : Z) : Z := u32 (Z.land lineAddr (setMask f)).

(** What [invalidate] does to the array. *)
Definition drop (procMask lineAddr : Z) (f : FilterCache) : option FilterCache :=
  e ← zlookup (filterArray f) (index f lineAddr);
  if Z.lor (rdAddr e) procMask =? lineAddr then
    l ← upd_child (λ e, Some (mkFilterEntry NO_LINE NO_LINE (availCycle e))) (filterArray f) (index f lineAddr);
    Some (set_filterArray l f)
  else Some f.

(** What [replace] does to the array when the line has come. *)
Definition fill (vLineAddr idx : Z) (isLoad : bool) (respCycle : Z) (f : FilterCache) : option FilterCache :=
  l ← upd_child (λ e, Some (mkFilterEntry vLineAddr (if isLoad then NO_LINE else vLineAddr)
                              (if rdAddr e =? vLineAddr then availCycle e else respCycle))) (filterArray f) idx;
  Some (set_filterArray l f).

(** [contextSwitch] *)
Definition contextSwitch (f : FilterCache) : FilterCache := set_filterArray (map (λ _, clear) (filterArray f)) f.
End FilterCache.

(** A [Cache] with its coherence controller: a [MESITerminalCC] when [terminal],
    a [MESICC] otherwise.  [bcc] and [tcc] are the arrays of the two halves of
    the controller; [A] is the type of the cache array with its policy.  [l0] is
    what a [FilterCache] adds; [None] for other caches. *)
Record ZCache {A : Type} := mkZCache {
  terminal : bool;
  nonInclusiveHack : bool;
  selfId : Z;
  parents : list MemObject;
  parentRTTs : list Z;
  bcc : list MESIState;
  prof : Counter → Z;
  children : list nat;
  childrenRTTs : list Z;
  tcc : list Entry;
  array : A;
  accLat : Z;
  invLat : Z;
  l0 : option FilterCache.FilterCache
}.
Arguments ZCache : clear implicits.

Definition set_bcc {A} (x : list MESIState) (c : ZCache A) : ZCache A :=
  mkZCache A (terminal c) (nonInclusiveHack c) (selfId c) (parents c) (parentRTTs c) x (prof c)
    (children c) (childrenRTTs c) (tcc c) (array c) (accLat c) (invLat c) (l0 c).
Definition set_prof {A} (x : Counter → Z) (c : ZCache A) : ZCache A :=
  mkZCache A (terminal c) (nonInclusiveHack c) (selfId c) (parents c) (parentRTTs c) (bcc c) x
    (children c) (childrenRTTs c) (tcc c) (array c) (accLat c) (invLat c) (l0 c).
Definition set_tcc {A} (x : list Entry) (c : ZCache A) : ZCache A :=
  mkZCache A (terminal c) (nonInclusiveHack c) (selfId c) (parents c) (parentRTTs c) (bcc c) (prof c)
    (children c) (childrenRTTs c) x (array c) (accLat c) (invLat c) (l0 c).
Definition set_array {A} (x : A) (c : ZCache A) : ZCache A :=
  mkZCache A (terminal c) (nonInclusiveHack c) (selfId c) (parents c) (parentRTTs c) (bcc c) (prof c)
    (children c) (childrenRTTs c) (tcc c) x (accLat c) (invLat c) (l0 c).

Definition set_l0 {A} (x : option FilterCache.FilterCache) (c : ZCache A) : ZCache A :=
  mkZCache A (terminal c) (nonInclusiveHack c) (selfId c) (parents c) (parentRTTs c) (bcc c) (prof c)
    (children c) (childrenRTTs c) (tcc c) (array c) (accLat c) (invLat c) x.

(** [counter.inc(x)] *)
Definition inc {A} (k : Counter) (x : Z) (c : ZCache A) : ZCache A :=
  set_prof (λ k', if decide (k' = k) then prof c k' + x else prof c k') c.

(** ** The system: caches, memory controllers of type [D], the state variable of
    the core whose request is served, and [procMask] of the process that runs *)
Record Sys {A D : Type} := mkSys { caches : list (ZCache A); mems : list D; local_state : MESIState; procMask : Z }.
Arguments Sys : clear implicits.

(** ** Computations on the system *)
Definition M (T X : Type) : Type := T → option (X * T).

Section Monad.
Context {T : Type}.

Definition ret {X} (x : X) : M T X := λ s, Some (x, s).
Definition bind {X Y} (m : M T X) (f : X → M T Y) : M T Y := λ s, '(x, s) ← m s; f x s.
Definition fail {X} : M T X := λ _, None.
Definition lift {X} (o : option X) : M T X := λ s, x ← o; Some (x, s).
Definition assertM (b : bool) : M T unit := if b then ret tt else fail.
Definition gets {X} (f : T → X) : M T X := λ s, Some (f s, s).
Definition modify (f : T → option T) : M T unit := λ s, s ← f s; Some (tt, s).

End Monad.

Declare Scope zsim_scope.
Delimit Scope zsim_scope with zsim.
Global Open Scope zsim_scope.
Notation "x ⇐ m ; k" := (bind m (λ x, k)) (at level 20, m at level 100, k at level 200, right associativity) : zsim_scope.
Notation "' p ⇐ m ; k" := (bind m (λ p : _, k)) (at level 20, p pattern, m at level 100, k at level 200, right associativity) : zsim_scope.
Notation "m ;; k" := (bind m (λ _ : unit, k)) (at level 100, k at level 200, right associativity) : zsim_scope.

Section Store.
Context {A D : Type}.
Abbreviation sys := (Sys A D).

Definition set_caches (x : list (ZCache A)) (s : sys) : sys := mkSys A D x (mems s) (local_state s) (procMask s).
Definition set_mems (x : list D) (s : sys) : sys := mkSys A D (caches s) x (local_state s) (procMask s).
Definition set_local_state (x : MESIState) (s : sys) : sys := mkSys A D (caches s) (mems s) x (procMask s).

(** The cache at a pointer, and a change of it. *)
Definition cache (i : nat) : M sys (ZCache A) := c ⇐ gets (λ s, caches s !! i); lift c.
Definition upd_cache (i : nat) (f : ZCache A → option (ZCache A)) : M sys unit :=
  modify (λ s, c ← caches s !! i; c ← f c; Some (set_caches (<[i := c]> (caches s)) s)).

(** [array[lineId]] of the bottom controller and its update. *)
Definition bcc_state (i : nat) (lineId : Z) : M sys MESIState := c ⇐ cache i; lift (zlookup (bcc c) lineId).
Definition set_bcc_state (i : nat) (lineId : Z) (x : MESIState) : M sys unit :=
  upd_cache i (λ c, l ← upd_child (λ _, Some x) (bcc c) lineId; Some (set_bcc l c)).
Definition tcc_entry (i : nat) (lineId : Z) : M sys Entry := c ⇐ cache i; lift (zlookup (tcc c) lineId).
Definition upd_entry (i : nat) (lineId : Z) (f : Entry → option Entry) : M sys unit :=
  upd_cache i (λ c, l ← upd_child f (tcc c) lineId; Some (set_tcc l c)).
Definition count (i : nat) (k : Counter) (x : Z) : M sys unit := upd_cache i (λ c, Some (inc k x c)).

(** [*state] and [*state = x] *)
Definition read_state (p : StatePtr) : M sys MESIState :=
  match p with Local => gets local_state | LineState i lineId => bcc_state i lineId end.
Definition write_state (p : StatePtr) (x : MESIState) : M sys unit :=
  match p with Local => modify (λ s, Some (set_local_state x s)) | LineState i lineId => set_bcc_state i lineId x end.

End Store.
