(* ===== verification/ZsimRepl.v ===== *)
(** * Replacement policies of zsim ([zsim-ramulator/src/repl_policies.h])

    A policy sees its coherence controller as a [View]: the number of sharers of
    a line and whether it is valid.  [update], [replaced] and [rankCands] are the
    interface [ReplPolicy], with the candidates as a list of line identifiers;
    [LRU] is [LRUReplPolicy<sharersAware>].  [None] is an access out of the range of an array, or a
    failed assertion. *)

From S2P Require Import Prelude ZsimMem.

(** [uint64_t] *)
Definition u64 (x : Z) : Z := Z.land x 18446744073709551615.

(** [cc->numSharers] and [cc->isValid] *)
Record View := mkView { v_numSharers : Z → option Z; v_isValid : Z → option bool }.

(** [ReplPolicy] *)
Class ReplPolicy (P : Type) := {
  update : Z → MemReq → P → option P;
  replaced : Z → P → option P;
  rankCands : View → list Z → P → option (Z * P)
}.

(** What a cache array needs of its policy: for lines of the cache nothing fails,
    and the line to replace is one of the candidates. *)
Class ReplLaws (P : Type) `{!ReplPolicy P} := {
  repl_ok : Z → P → Prop;
  repl_update n p id req : repl_ok n p → 0 ≤ id < n → ∃ p', update id req p = Some p' ∧ repl_ok n p';
  repl_replaced n p id : repl_ok n p → 0 ≤ id < n → ∃ p', replaced id p = Some p' ∧ repl_ok n p';
  repl_rank n p v cs :
    repl_ok n p → cs ≠ [] → Forall (λ id, 0 ≤ id < n ∧ is_Some (v_numSharers v id) ∧ is_Some (v_isValid v id)) cs →
    ∃ id p', rankCands v cs p = Some (id, p') ∧ id ∈ cs ∧ repl_ok n p'
}.

Lemma upd_child_is_Some {A} (f : A → A) (l : list A) i :
  0 ≤ i < Z.of_nat (length l) → ∃ l', upd_child (λ x, Some (f x)) l i = Some l' ∧ length l' = length l.
Proof.
  intros H. destruct (lookup_lt_is_Some_2 l (Z.to_nat i)) as [x Hx]; [lia|]. rewrite upd_child_lookup.
  unfold zlookup. rewrite (proj2 (Z.ltb_ge _ 0)), Hx by lia. simpl. eexists. split; [done|]. by rewrite length_insert.
Qed.

Lemma zlookup_is_Some {A} (l : list A) i : 0 ≤ i < Z.of_nat (length l) → is_Some (zlookup l i).
Proof. intros H. unfold zlookup. rewrite (proj2 (Z.ltb_ge _ 0)) by lia. apply lookup_lt_is_Some_2. lia. Qed.

Lemma zlookup_range {A} (l : list A) i x : zlookup l i = Some x → 0 ≤ i < Z.of_nat (length l).
Proof. unfold zlookup. destruct (Z.ltb_spec i 0); [done|]. intros Hx%lookup_lt_Some. lia. Qed.

Lemma zlookup_set {A} (l : list A) i x j :
  0 ≤ i < Z.of_nat (length l) → zlookup (<[Z.to_nat i := x]> l) j = if decide (j = i) then Some x else zlookup l j.
Proof.
  intros Hi. unfold zlookup. destruct (Z.ltb_spec j 0); [case_decide; [lia|done]|]. case_decide as E.
  - subst j. apply list_lookup_insert_eq. lia.
  - by rewrite list_lookup_insert_ne by lia.
Qed.

Lemma upd_child_set {A} (f : A → option A) (l : list A) i x y :
  zlookup l i = Some x → f x = Some y → upd_child f l i = Some (<[Z.to_nat i := y]> l).
Proof. intros Hx Hy. rewrite upd_child_lookup, Hx. simpl. by rewrite Hy. Qed.

(** ** LRU *)
Module LRU.

Record LRU := mkLRU { sharersAware : bool; timestamp : Z; array : list Z }.

Definition new (sharersAware : bool) (numLines : Z) : LRU := mkLRU sharersAware 1 (replicate (Z.to_nat numLines) 0).

Definition update (id : Z) (req : MemReq) (p : LRU) : option LRU :=
  a ← upd_child (λ _, Some (timestamp p)) (array p) id; Some (mkLRU (sharersAware p) (timestamp p + 1) a).
Definition replaced (id : Z) (p : LRU) : option LRU :=
  a ← upd_child (λ _, Some 0) (array p) id; Some (mkLRU (sharersAware p) (timestamp p) a).

(** [score(id)] *)
Definition score (v : View) (p : LRU) (id : Z) : option Z :=
  n ← (if sharersAware p then v_numSharers v id else Some 0);
  ts ← zlookup (array p) id;
  valid ← v_isValid v id;
  Some (u64 (n * timestamp p + ts * (if (valid : bool) then 1 else 0))).

(** [rank(req, cands)]: the score is kept in a [uint32_t]. *)
Definition rank_step (v : View) (p : LRU) (best : Z * Z) (ci : Z) : option (Z * Z) :=
  let '(bestCand, bestScore) := best in
  s ← score v p ci;
  let s := u32 s in
  Some (if s <? bestScore then (ci, s) else (bestCand, bestScore)).
Definition rank (v : View) (cs : list Z) (p : LRU) : option (Z * LRU) :=
  '(bestCand, _) ← foldM (rank_step v p)
    (4294967295, 18446744073709551615) cs;
  Some (bestCand, p).

#[export] Instance LRU_policy : ReplPolicy LRU := {| ZsimRepl.update := update; ZsimRepl.replaced := replaced; rankCands := rank |}.

Lemma u32_range x : 0 ≤ u32 x < 4294967296.
Proof. unfold u32. change 4294967295 with (Z.ones 32). rewrite Z.land_ones by lia. apply Z.mod_pos_bound. lia. Qed.

(** The fold returns the first candidate with the least score. *)
Lemma rank_fold v p cs best s0 :
  Forall (λ id, is_Some (score v p id)) cs →
  ∃ b s, foldM (rank_step v p) (best, s0) cs = Some (b, s) ∧
    (b = best ∧ s = s0 ∨ b ∈ cs ∧ (u32 <$> score v p b) = Some s) ∧ s ≤ s0 ∧
    Forall (λ id, ∃ x, score v p id = Some x ∧ s ≤ u32 x) cs.
Proof.
  intros H. revert best s0. induction H as [|c cs [x Hx] _ IH]; intros best s0; cbn [foldM]; [exists best, s0; split_and!; auto with lia|].
  assert (rank_step v p (best, s0) c = Some (if u32 x <? s0 then (c, u32 x) else (best, s0))) as E by (unfold rank_step; by rewrite Hx).
  rewrite E; cbn [mbind option_bind]. destruct (Z.ltb_spec (u32 x) s0) as [Hlt|Hge].
  - destruct (IH c (u32 x)) as (b&s&->&Hb&Hs&Hall). exists b, s. split_and!; [done| |lia|].
    + right. destruct Hb as [[-> ->]|[Hin Hsc]]; [split; [by left|by rewrite Hx]|split; [by right|done]].
    + constructor; [eauto|done].
  - destruct (IH best s0) as (b&s&->&Hb&Hs&Hall). exists b, s. split_and!; [done| |done|constructor; [eexists; split; [done|lia]|done]].
    destruct Hb as [?|[Hin Hsc]]; [by left|right]. split; [by right|done].
Qed.

Definition ok (n : Z) (p : LRU) : Prop := Z.of_nat (length (array p)) = n.

#[export] Instance LRU_laws : ReplLaws LRU.
Proof.
  refine {| repl_ok := ok |}.
  - intros n p id req Hp Hid. simpl. unfold update. destruct (upd_child_is_Some (λ _, timestamp p) (array p) id) as (a&->&Ha); [unfold ok in Hp; lia|].
    eexists. split; [done|]. unfold ok in *. simpl. lia.
  - intros n p id Hp Hid. simpl. unfold replaced. destruct (upd_child_is_Some (λ _, 0) (array p) id) as (a&->&Ha); [unfold ok in Hp; lia|].
    eexists. split; [done|]. unfold ok in *. simpl. lia.
  - intros n p v cs Hp Hne H. simpl. unfold rank.
    assert (Forall (λ id, is_Some (score v p id)) cs) as Hsc.
    { eapply Forall_impl; [exact H|]. intros id (Hid&[m Hm]&[b Hb]). unfold score. simpl.
      destruct (zlookup_is_Some (array p) id) as [t Ht]; [unfold ok in Hp; lia|].
      rewrite Hm, Ht, Hb. destruct (sharersAware p); by eexists. }
    destruct (rank_fold v p cs 4294967295 18446744073709551615 Hsc) as (b&s&->&Hb&_&Hall). simpl.
    exists b, p. split_and!; [done| |done]. destruct Hb as [[-> ->]|[? _]]; [|done].
    destruct Hall as [|id l (x&_&Hx) _]; [done|]. pose proof (u32_range x). lia.
Defined.

End LRU.
