(* ===== verification/ZsimArray.v ===== *)
(** * Cache arrays of zsim ([zsim-ramulator/src/cache_arrays.h], [zsim-ramulator/src/cache_arrays.cpp])

    [CacheArray] is the interface of an array: [lookup], [preinsert] and
    [postinsert].  The policy is updated by [lookup] when the request is given
    ([updateReplacement]).  [ArrayLaws] is what the coherence controllers rely
    on; [SetAssoc] implements it over any policy with [ReplLaws].  Hash
    functions are fields of an array. *)

From S2P Require Import Prelude ZsimMem ZsimRepl.

Class CacheArray (A : Type) := {
  lookup : Z → option MemReq → A → option (Z * A);
  preinsert : View → Z → A → option (Z * Z * A);
  postinsert : Z → MemReq → Z → A → option A
}.

(** For an array of [n] lines: [find] is the line that holds an address, [tag]
    the address of a line, [reserved] what [preinsert] leaves for [postinsert],
    and [admits] the addresses the array can hold. *)
Class ArrayLaws (A : Type) `{!CacheArray A} := {
  admits : Z → Prop;
  array_ok : Z → A → Prop;
  find : A → Z → option Z;
  tag : A → Z → option Z;
  reserved : A → Z → Z → Prop;
  find_tag n a x id : array_ok n a → find a x = Some id → 0 ≤ id < n ∧ tag a id = Some x;
  lookup_ok n a x r :
    array_ok n a → admits x → ∃ a', lookup x r a = Some (default (-1) (find a x), a') ∧ array_ok n a' ∧
      (∀ y, find a' y = find a y) ∧ (∀ id, tag a' id = tag a id);
  lookup_none n a x : array_ok n a → admits x → lookup x None a = Some (default (-1) (find a x), a);
  preinsert_ok n a v x :
    array_ok n a → admits x → find a x = None →
    (∀ id, 0 ≤ id < n → is_Some (v_numSharers v id) ∧ is_Some (v_isValid v id)) →
    ∃ id wb a', preinsert v x a = Some (id, wb, a') ∧ 0 ≤ id < n ∧ tag a id = Some wb ∧ array_ok n a' ∧
      reserved a' x id ∧ (∀ y, find a' y = find a y) ∧ (∀ id, tag a' id = tag a id);
  postinsert_ok n a x req id :
    array_ok n a → admits x → find a x = None → 0 ≤ id < n → reserved a x id →
    ∃ a', postinsert x req id a = Some a' ∧ array_ok n a' ∧ find a' x = Some id ∧
      (∀ id', tag a' id' = if decide (id' = id) then Some x else tag a id') ∧
      (∀ y id', id' ≠ id → find a y = Some id' → find a' y = Some id')
}.

(** ** Set-associative arrays *)
Module SetAssoc.
Section SetAssoc.
Context {P : Type} `{!ReplPolicy P}.

Record SetAssoc := mkSetAssoc {
  array : list Z; rp : P; hf : Z → Z → Z; numLines : Z; numSets : Z; assoc : Z; setMask : Z
}.
Definition set_rp (x : P) (a : SetAssoc) : SetAssoc := mkSetAssoc (array a) x (hf a) (numLines a) (numSets a) (assoc a) (setMask a).
Definition set_tags (x : list Z) (a : SetAssoc) : SetAssoc := mkSetAssoc x (rp a) (hf a) (numLines a) (numSets a) (assoc a) (setMask a).

Definition isPow2 (x : Z) : bool := negb (x =? 0) && (Z.land x (x - 1) =? 0).

(** [SetAssocArray(numLines, assoc, rp, hf)] *)
Definition new (numLines assoc : Z) (rp : P) (hf : Z → Z → Z) : option SetAssoc :=
  assert! negb (assoc =? 0);
  let numSets := Z.quot numLines assoc in
  assert! isPow2 numSets;
  Some (mkSetAssoc (replicate (Z.to_nat numLines) 0) rp hf numLines numSets assoc (numSets - 1)).

(** The lines of a set: [first, ..., first + assoc - 1]. *)
Definition set_lines (lineAddr : Z) (a : SetAssoc) : list Z :=
  let set := u32 (Z.land (hf a 0 lineAddr) (setMask a)) in
  map (λ k, set * assoc a + Z.of_nat k) (seq 0 (Z.to_nat (assoc a))).

(** The first line of the set with the address, -1 if there is none. *)
Fixpoint scan (tags : list Z) (lineAddr : Z) (ids : list Z) : option Z :=
  match ids with
  | [] => Some (-1)
  | id :: ids => t ← zlookup tags id; if t =? lineAddr then Some id else scan tags lineAddr ids
  end.

Definition lookup (lineAddr : Z) (req : option MemReq) (a : SetAssoc) : option (Z * SetAssoc) :=
  id ← scan (array a) lineAddr (set_lines lineAddr a);
  match req with
  | Some req => if id =? -1 then Some (id, a) else p ← update id req (rp a); Some (id, set_rp p a)
  | None => Some (id, a)
  end.

Definition preinsert (v : View) (lineAddr : Z) (a : SetAssoc) : option (Z * Z * SetAssoc) :=
  '(candidate, p) ← rankCands v (set_lines lineAddr a) (rp a);
  wb ← zlookup (array a) candidate;
  Some (candidate, wb, set_rp p a).

Definition postinsert (lineAddr : Z) (req : MemReq) (candidate : Z) (a : SetAssoc) : option SetAssoc :=
  p ← replaced candidate (rp a);
  tags ← upd_child (λ _, Some lineAddr) (array a) candidate;
  p ← update candidate req p;
  Some (set_rp p (set_tags tags a)).

#[export] Instance SetAssoc_array : CacheArray SetAssoc :=
  {| ZsimArray.lookup := lookup; ZsimArray.preinsert := preinsert; ZsimArray.postinsert := postinsert |}.

(** *** Laws *)
Context `{!ReplLaws P}.

(** The sets lie inside the array, and tell the lines of a set which. *)
Definition ok (n : Z) (a : SetAssoc) : Prop :=
  n = numLines a ∧ Z.of_nat (length (array a)) = n ∧ repl_ok n (rp a) ∧ 0 < assoc a ∧ 0 < numSets a ∧
  setMask a = numSets a - 1 ∧ (∃ k, 0 ≤ k ≤ 32 ∧ numSets a = 2 ^ k) ∧ numSets a * assoc a ≤ n ∧
  (∀ x id, 0 ≤ hf a x id).

Definition set_of (lineAddr : Z) (a : SetAssoc) : Z := u32 (Z.land (hf a 0 lineAddr) (setMask a)).
Definition find (a : SetAssoc) (x : Z) : option Z :=
  id ← scan (array a) x (set_lines x a); if id =? -1 then None else Some id.

(** The constructor makes such arrays: the number of sets is a power of two. *)
Lemma isPow2_ok x : 0 < x → isPow2 x = true → x = 2 ^ Z.log2 x.
Proof.
  intros Hx H. unfold isPow2 in H. apply andb_true_iff in H as [_ H%Z.eqb_eq].
  destruct (Z.log2_spec x Hx) as [Hlo Hhi]. destruct (decide (x = 2 ^ Z.log2 x)) as [|Hne]; [done|].
  assert (Z.log2 (x - 1) = Z.log2 x) as Hl by (apply Z.log2_unique; [apply Z.log2_nonneg|lia]).
  pose proof (Z.pow_pos_nonneg 2 (Z.log2 x) ltac:(lia) (Z.log2_nonneg x)).
  assert (Z.testbit (Z.land x (x - 1)) (Z.log2 x) = true) as Hb.
  { rewrite Z.land_spec, (Z.bit_log2 x) by lia. rewrite <-Hl, Z.bit_log2 by lia. done. }
  by rewrite H, Z.bits_0 in Hb.
Qed.

Lemma new_ok n assoc p hf a :
  new n assoc p hf = Some a → 0 < assoc → 0 ≤ n < 2 ^ 32 → repl_ok n p → (∀ x id, 0 ≤ hf x id) → ok n a.
Proof.
  unfold new. intros H Ha Hn Hp Hh. destruct (negb _); [|done]. destruct (isPow2 _) eqn:E; [|done]. simplify_eq.
  rewrite Z.quot_div_nonneg in * by lia. assert (0 ≤ n `div` assoc) as H0 by (apply Z.div_pos; lia).
  assert (0 < n `div` assoc) as Hs.
  { destruct (decide (n `div` assoc = 0)) as [Hz|]; [|lia]. rewrite Hz in E. done. }
  unfold ok. simpl. split_and!; try done; [by rewrite length_replicate, Z2Nat.id by lia| |].
  - exists (Z.log2 (n `div` assoc)). split; [|by apply isPow2_ok]. split; [apply Z.log2_nonneg|].
    assert (Z.log2 (n `div` assoc) < 32) by (apply Z.log2_lt_pow2; [done|]; pose proof (Z.div_le_upper_bound n assoc n); nia). lia.
  - rewrite Z.mul_comm. by apply Z.mul_div_le.
Qed.

Lemma set_of_range n a x : ok n a → 0 ≤ set_of x a < numSets a.
Proof.
  intros (_&_&_&_&_&Hm&(k&Hk&Hp)&_&Hh). unfold set_of, u32. rewrite Hm, Hp.
  replace (2 ^ k - 1) with (Z.ones k) by (rewrite Z.ones_equiv; lia). change 4294967295 with (Z.ones 32). rewrite !Z.land_ones by lia.
  pose proof (Z.mod_pos_bound (hf a 0 x) (2 ^ k) ltac:(lia)).
  pose proof (Z.mod_pos_bound (hf a 0 x `mod` 2 ^ k) (2 ^ 32) ltac:(lia)).
  pose proof (Z.mod_le (hf a 0 x `mod` 2 ^ k) (2 ^ 32) ltac:(lia) ltac:(lia)). lia.
Qed.

Lemma elem_of_set_lines n a x id :
  ok n a → id ∈ set_lines x a ↔ set_of x a * assoc a ≤ id < set_of x a * assoc a + assoc a.
Proof.
  intros (_&_&_&Ha&_). unfold set_lines. fold (set_of x a). rewrite list_elem_of_fmap. split.
  - intros (k&->&Hk%elem_of_seq). lia.
  - intros H. exists (Z.to_nat (id - set_of x a * assoc a)). rewrite elem_of_seq. lia.
Qed.

Lemma set_lines_range n a x id : ok n a → id ∈ set_lines x a → 0 ≤ id < n.
Proof.
  intros Hok Hin. pose proof (set_of_range n a x Hok). apply (elem_of_set_lines n) in Hin; [|done].
  destruct Hok as (_&_&_&Ha&Hs&_&_&Hn&_). nia.
Qed.

(** The line [scan] finds: the first of the set with the address. *)
Lemma scan_ok tags x ids :
  Forall (λ id, is_Some (zlookup tags id)) ids → Forall (λ id, 0 ≤ id) ids →
  ∃ id, scan tags x ids = Some id ∧
    (id = -1 ∧ Forall (λ id, zlookup tags id ≠ Some x) ids ∨ id ∈ ids ∧ zlookup tags id = Some x).
Proof.
  induction 1 as [|id ids [t Ht] _ IH]; intros Hpos; cbn [scan]; [exists (-1); split; [done|by left]|].
  inversion_clear Hpos. rewrite Ht; cbn [mbind option_bind]. destruct (Z.eqb_spec t x) as [->|Hne].
  - exists id. split; [done|right]. split; [by left|done].
  - destruct IH as (i&->&Hi); [done|]. exists i. split; [done|]. destruct Hi as [[-> Hall]|[Hin Hi]]; [left|right].
    + split; [done|]. constructor; [congruence|done].
    + split; [by right|done].
Qed.

Lemma set_lines_tags n a x : ok n a → Forall (λ id, is_Some (zlookup (array a) id)) (set_lines x a) ∧ Forall (λ id, 0 ≤ id) (set_lines x a).
Proof.
  intros Hok. split; apply Forall_forall; intros id Hid; pose proof (set_lines_range n a x id Hok Hid); [|lia].
  apply zlookup_is_Some. destruct Hok as (_&Hl&_). lia.
Qed.

Lemma find_ok n a x :
  ok n a → scan (array a) x (set_lines x a) = Some (default (-1) (find a x)) ∧
    match find a x with
    | Some id => id ∈ set_lines x a ∧ zlookup (array a) id = Some x
    | None => Forall (λ id, zlookup (array a) id ≠ Some x) (set_lines x a)
    end.
Proof.
  intros Hok. destruct (set_lines_tags n a x Hok) as [H1 H2]. destruct (scan_ok _ x _ H1 H2) as (id&E&Hid).
  unfold find. rewrite E; cbn [mbind option_bind]. destruct Hid as [[-> Hall]|[Hin Hx]]; [by rewrite Z.eqb_refl|].
  pose proof (set_lines_range n a x id Hok Hin). by rewrite (proj2 (Z.eqb_neq id (-1))) by lia.
Qed.

Lemma ok_rp n a p : ok n a → repl_ok n p → ok n (set_rp p a).
Proof. intros (?&?&?&?&?&?&?&?&?) Hp. unfold ok. simpl. by split_and!. Qed.

(** Replacing the tag of a line that is not where the address was found. *)
Lemma scan_insert tags c x y ids id :
  0 ≤ c < Z.of_nat (length tags) → y ≠ x → id ≠ c → id ≠ -1 →
  scan tags y ids = Some id → scan (<[Z.to_nat c := x]> tags) y ids = Some id.
Proof.
  intros Hc Hxy Hid Hid1. induction ids as [|i ids IH]; cbn [scan]; [intros; simplify_eq|].
  intros H. apply bind_Some in H as (t&Ht&H).
  rewrite zlookup_set, Ht by done. destruct (decide (i = c)) as [->|Hne]; cbn [mbind option_bind].
  - rewrite (proj2 (Z.eqb_neq x y)) by congruence. destruct (Z.eqb_spec t y); [simplify_eq|by apply IH].
  - destruct (Z.eqb_spec t y); [done|by apply IH].
Qed.

Lemma postinsert_shape n a x req id :
  ok n a → 0 ≤ id < n →
  ∃ p, postinsert x req id a = Some (set_rp p (set_tags (<[Z.to_nat id := x]> (array a)) a)) ∧ repl_ok n p.
Proof.
  intros (Hn&Hl&Hp&_) Hid. unfold postinsert. destruct (repl_replaced n (rp a) id Hp Hid) as (p&->&Hp1). simpl.
  rewrite upd_child_lookup. destruct (zlookup_is_Some (array a) id) as [t Ht]; [lia|]. rewrite Ht; simpl.
  destruct (repl_update n p id req Hp1 Hid) as (p'&->&Hp'). simpl. by exists p'.
Qed.

#[export] Instance SetAssoc_laws : ArrayLaws SetAssoc.
Proof.
  refine {| admits := λ _, True; array_ok := ok; ZsimArray.find := find; tag := λ a id, zlookup (array a) id;
            reserved := λ a x id, id ∈ set_lines x a |}.
  - intros n a x id Hok Hf. destruct (find_ok n a x Hok) as [_ H]. rewrite Hf in H. destruct H as [Hin Hx].
    split; [by eapply set_lines_range|done].
  - intros n a x r Hok _. destruct (find_ok n a x Hok) as [Hs H]. simpl. unfold lookup. rewrite Hs; cbn [mbind option_bind].
    assert (∃ a', Some (default (-1) (find a x), a) = Some (default (-1) (find a x), a') ∧ ok n a' ∧
      (∀ y, find a' y = find a y) ∧ (∀ id, zlookup (array a') id = zlookup (array a) id)) as Hstay by by exists a.
    destruct r as [req|]; [|done]. destruct (find a x) as [id|]; simpl; [|by rewrite ?Z.eqb_refl].
    pose proof (set_lines_range n a x id Hok (proj1 H)) as Hid. rewrite (proj2 (Z.eqb_neq id (-1))) by lia.
    destruct (repl_update n (rp a) id req) as (p&->&Hp'); [apply Hok|done|]. simpl.
    exists (set_rp p a). split_and!; [done|by apply ok_rp|done|done].
  - intros n a x Hok _. simpl. unfold lookup. by rewrite (proj1 (find_ok n a x Hok)).
  - intros n a v x Hok _ Hf Hv. simpl. unfold preinsert. destruct (set_lines_tags n a x Hok) as [Ht _].
    assert (set_lines x a ≠ []) as Hne.
    { intros E. pose proof (set_of_range n a x Hok). assert (set_of x a * assoc a ∈ set_lines x a) as Hin.
      { apply (elem_of_set_lines n); [done|]. destruct Hok as (_&_&_&Ha&_). lia. }
      rewrite E in Hin. by apply elem_of_nil in Hin. }
    destruct (repl_rank n (rp a) v (set_lines x a)) as (id&p&->&Hin&Hp); [apply Hok|done| |].
    { apply Forall_forall. intros id Hid. split; [by eapply set_lines_range|]. apply Hv. by eapply set_lines_range. }
    simpl. rewrite Forall_forall in Ht. destruct (Ht id Hin) as [wb Hwb]. rewrite Hwb; simpl.
    exists id, wb, (set_rp p a). split_and!; try done; [by eapply set_lines_range..|by apply ok_rp].
  - intros n a x req id Hok _ Hf Hid Hres. destruct (postinsert_shape n a x req id Hok Hid) as (p&E&Hp). simpl. rewrite E.
    eexists. split; [done|]. set (a' := set_rp _ _). destruct Hok as (Hn&Hl&Hrest).
    assert (ok n a') as Hok'. { destruct Hrest as (?&?&?&?&?&?&?). unfold ok. simpl. rewrite length_insert. by split_and!. }
    split; [done|]. destruct (find_ok n a x (conj Hn (conj Hl Hrest))) as [_ Hno]. rewrite Hf in Hno.
    assert (∀ id', zlookup (array a') id' = if decide (id' = id) then Some x else zlookup (array a) id') as Htag.
    { intros id'. simpl. apply zlookup_set. lia. }
    split_and!; [|exact Htag|].
    + destruct (find_ok n a' x Hok') as [_ H]. destruct (find a' x) as [i|].
      * destruct H as [Hin Hx]. rewrite Htag in Hx. case_decide as Ei; [by subst|]. rewrite Forall_forall in Hno.
        by destruct (Hno i Hin).
      * rewrite Forall_forall in H. destruct (H id Hres). rewrite Htag. by rewrite decide_True.
    + intros y id' Hne Hy. destruct (decide (y = x)) as [->|Hyx]; [congruence|]. unfold find in Hy |- *.
      apply bind_Some in Hy as (i&Hi&Hy). destruct (Z.eqb_spec i (-1)); [done|]. simplify_eq.
      change (set_lines y a') with (set_lines y a). simpl.
      erewrite scan_insert; [|lia|exact Hyx|exact Hne|done|exact Hi]. simpl. by rewrite (proj2 (Z.eqb_neq _ _)).
Defined.

End SetAssoc.
Arguments SetAssoc : clear implicits.
End SetAssoc.
