(* ===== verification/ZsimZArray.v ===== *)
(** * The zcache array of zsim ([ZArray] of [zsim-ramulator/src/cache_arrays.h], [zsim-ramulator/src/cache_arrays.cpp])

    A skew-associative array: every way has its own hash function, and a line may
    move between its positions.  [preinsert] walks over the lines that could
    move, breadth first, and the policy picks a victim among them; [postinsert]
    moves the lines between the victim and the new line.  [ZArray_laws]: it keeps
    [ArrayLaws], over any policy with [ReplLaws], so the caches may use it.
    [None] is a failed assertion, a panic or an access out of range. *)

From S2P Require Import Prelude ZsimMem ZsimRepl ZsimArray.

Module ZArray.
Section ZArray.
Context {P : Type} `{!ReplPolicy P}.

(** ** Data *)
Record ZWalkInfo := mkWalk { pos : Z; lineId : Z; parentIdx : Z }.

(** [swapArray] has the positions up to [swapArrayLen]. *)
Record ZArray := mkZArray {
  array : list Z; lookupArray : list Z; rp : P; hf : Z → Z → Z; numLines : Z; numSets : Z; ways : Z; cands : Z; setMask : Z;
  swapArray : list Z; lastCandIdx : Z; statSwaps : Z
}.
Definition set_rp (x : P) (a : ZArray) : ZArray :=
  mkZArray (array a) (lookupArray a) x (hf a) (numLines a) (numSets a) (ways a) (cands a) (setMask a) (swapArray a) (lastCandIdx a) (statSwaps a).
Definition set_walk (p : P) (swaps : list Z) (last : Z) (a : ZArray) : ZArray :=
  mkZArray (array a) (lookupArray a) p (hf a) (numLines a) (numSets a) (ways a) (cands a) (setMask a) swaps last (statSwaps a).
Definition set_lines (p : P) (tags lines : list Z) (n : Z) (a : ZArray) : ZArray :=
  mkZArray tags lines p (hf a) (numLines a) (numSets a) (ways a) (cands a) (setMask a) (swapArray a) (lastCandIdx a) (statSwaps a + n).

(** [ZArray(numLines, ways, candidates, rp, hf)] *)
Definition new (numLines ways candidates : Z) (rp : P) (hf : Z → Z → Z) : option ZArray :=
  assert! 1 <? ways;
  assert! ways <=? candidates;
  assert! Z.rem numLines ways =? 0;
  let numSets := Z.quot numLines ways in
  assert! SetAssoc.isPow2 numSets;
  Some (mkZArray (replicate (Z.to_nat numLines) 0) (map Z.of_nat (seq 0 (Z.to_nat numLines))) rp hf numLines numSets ways candidates
          (numSets - 1) [] 0 0).

(** [w*numSets + (hf->hash(w, lineAddr) & setMask)] *)
Definition position (a : ZArray) (w lineAddr : Z) : Z := u32 (w * numSets a + Z.land (hf a w lineAddr) (setMask a)).

(** [0, ..., ways - 1] *)
Definition way_list (a : ZArray) : list Z := map Z.of_nat (seq 0 (Z.to_nat (ways a))).

(** ** Operations *)
(** The loop of [lookup], -1 when no way has the address. *)
Fixpoint scan (a : ZArray) (lineAddr : Z) (ws : list Z) : option Z :=
  match ws with
  | [] => Some (-1)
  | w :: ws =>
    id ← zlookup (lookupArray a) (position a w lineAddr);
    t ← zlookup (array a) id;
    if t =? lineAddr then Some id else scan a lineAddr ws
  end.

Definition lookup (lineAddr : Z) (req : option MemReq) (a : ZArray) : option (Z * ZArray) :=
  assert! negb (lineAddr =? 0);
  id ← scan a lineAddr (way_list a);
  match req with
  | Some req => if id =? -1 then Some (id, a) else p ← update id req (rp a); Some (id, set_rp p a)
  | None => Some (id, a)
  end.

(** The candidate at the position of an address in a way, and whether its line
    is in use. *)
Definition candidate (a : ZArray) (lineAddr parent w : Z) : option ZWalkInfo :=
  let pos := position a w lineAddr in
  id ← zlookup (lookupArray a) pos; Some (mkWalk pos id parent).
Definition in_use (a : ZArray) (c : ZWalkInfo) : option bool := t ← zlookup (array a) (lineId c); Some (negb (t =? 0)).

(** The loop that expands the fringe.  A child that is the line of its parent is
    overwritten by the next one. *)
Fixpoint expand (fuel : nat) (a : ZArray) (fringeStart : Z) (cs : list ZWalkInfo) (all_valid : bool) : option (list ZWalkInfo * bool) :=
  if negb ((Z.of_nat (length cs) <? cands a) && all_valid) then Some (cs, all_valid)
  else
    match fuel with
    | O => None
    | S fuel =>
      f ← zlookup cs fringeStart;
      fringeAddr ← zlookup (array a) (lineId f);
      assert! negb (fringeAddr =? 0);
      children ← mapM (candidate a fringeAddr fringeStart) (way_list a);
      valid ← mapM (in_use a) children;
      expand fuel a (fringeStart + 1) (cs ++ filter (λ c, lineId c ≠ lineId f) children) (all_valid && forallb id valid)
    end.

(** The first candidate with the line. *)
Fixpoint first_index (line : Z) (cs : list ZWalkInfo) : option Z :=
  match cs with
  | [] => None
  | c :: cs => if lineId c =? line then Some 0 else i ← first_index line cs; Some (i + 1)
  end.

(** The positions from a candidate to its seed. *)
Fixpoint walk_back (fuel : nat) (cs : list ZWalkInfo) (idx : Z) : option (list Z) :=
  if idx <? 0 then Some []
  else
    match fuel with
    | O => None
    | S fuel => c ← zlookup cs idx; rest ← walk_back fuel cs (parentIdx c); Some (pos c :: rest)
    end.

(** The size of [swapArray]. *)
Definition swap_size (a : ZArray) : Z := Z.quot (cands a) (ways a) + 2.

Definition preinsert (v : View) (lineAddr : Z) (a : ZArray) : option (Z * Z * ZArray) :=
  seeds ← mapM (candidate a lineAddr (-1)) (way_list a);
  valid ← mapM (in_use a) seeds;
  '(cs, all_valid) ← expand (Z.to_nat (cands a)) a 0 seeds (forallb id valid);
  assert! negb all_valid || (cands a <=? Z.of_nat (length cs));
  let cs := take (Z.to_nat (cands a)) cs in
  '(best, p) ← rankCands v (map lineId cs) (rp a);
  assert! best <? numLines a;
  minIdx ← first_index best cs;
  swaps ← walk_back (S (length cs)) cs minIdx;
  assert! Z.of_nat (length swaps) <=? swap_size a;
  wb ← zlookup (array a) best;
  Some (best, wb, set_walk p swaps minIdx a).

(** The swaps of [postinsert]. *)
Fixpoint shift (lines : list Z) (swaps : list Z) (line : Z) : option (list Z) :=
  match swaps with
  | [] => None
  | p :: [] => upd_child (λ _, Some line) lines p
  | p :: ((q :: _) as rest) => x ← zlookup lines q; lines ← upd_child (λ _, Some x) lines p; shift lines rest line
  end.

Definition postinsert (lineAddr : Z) (req : MemReq) (line : Z) (a : ZArray) : option ZArray :=
  first ← head (swapArray a);
  x ← zlookup (lookupArray a) first;
  assert! x =? line;
  lines ← shift (lookupArray a) (swapArray a) line;
  p ← replaced line (rp a);
  tags ← upd_child (λ _, Some lineAddr) (array a) line;
  p ← update line req p;
  Some (set_lines p tags lines (Z.of_nat (length (swapArray a)) - 1) a).

#[export] Instance ZArray_array : CacheArray ZArray :=
  {| ZsimArray.lookup := lookup; ZsimArray.preinsert := preinsert; ZsimArray.postinsert := postinsert |}.

(** ** Laws *)
Context `{!ReplLaws P}.

(** Every position has a line and no two have the same; a line in use is at a
    position of its address, and no other line has the address. *)
Record ok (n : Z) (a : ZArray) : Prop := {
  z_n : n = numLines a;
  z_array : Z.of_nat (length (array a)) = n;
  z_lookup : Z.of_nat (length (lookupArray a)) = n;
  z_rp : repl_ok n (rp a);
  z_ways : 1 < ways a ≤ cands a;
  z_sets : numSets a * ways a = n ∧ n < 2 ^ 32;
  z_mask : setMask a = numSets a - 1 ∧ ∃ k, 0 ≤ k ∧ numSets a = 2 ^ k;
  z_hf w x : 0 ≤ hf a w x;
  z_range p id : zlookup (lookupArray a) p = Some id → 0 ≤ id < n;
  z_inj p q id : zlookup (lookupArray a) p = Some id → zlookup (lookupArray a) q = Some id → p = q;
  z_placed id x : zlookup (array a) id = Some x → x ≠ 0 → ∃ w, 0 ≤ w < ways a ∧ zlookup (lookupArray a) (position a w x) = Some id;
  z_unique id id' x : zlookup (array a) id = Some x → zlookup (array a) id' = Some x → x ≠ 0 → id = id'
}.

Definition find (a : ZArray) (x : Z) : option Z :=
  if x =? 0 then None else id ← scan a x (way_list a); if id =? -1 then None else Some id.

Lemma elem_of_ways a w : w ∈ way_list a ↔ 0 ≤ w < ways a.
Proof.
  unfold way_list. rewrite list_elem_of_fmap. split.
  - intros (k&->&Hk%elem_of_seq). lia.
  - intros H. exists (Z.to_nat w). rewrite elem_of_seq. lia.
Qed.

Lemma position_range n a w x : ok n a → 0 ≤ w < ways a → numSets a * w ≤ position a w x < numSets a * w + numSets a ∧ 0 ≤ position a w x < n.
Proof.
  intros Hok Hw. destruct (z_sets _ _ Hok) as [Hs Hn]. destruct (z_mask _ _ Hok) as [Hm (k&Hk&Hp)].
  pose proof (Z.pow_pos_nonneg 2 k ltac:(lia) Hk). unfold position, u32.
  replace (setMask a) with (Z.ones k) by (rewrite Z.ones_equiv; lia). change 4294967295 with (Z.ones 32). rewrite !Z.land_ones by lia.
  pose proof (Z.mod_pos_bound (hf a w x) (2 ^ k) ltac:(lia)) as Hb. rewrite Hp in *.
  assert (w * 2 ^ k + hf a w x `mod` 2 ^ k < n) by nia. rewrite Z.mod_small by nia. nia.
Qed.

Lemma position_way n a w w' x y : ok n a → 0 ≤ w < ways a → 0 ≤ w' < ways a → position a w x = position a w' y → w = w'.
Proof.
  intros Hok Hw Hw' E. destruct (position_range n a w x Hok Hw) as [H1 _]. destruct (position_range n a w' y Hok Hw') as [H2 _].
  destruct (z_mask _ _ Hok) as [_ (k&Hk&Hp)]. pose proof (Z.pow_pos_nonneg 2 k ltac:(lia) Hk). rewrite E in H1. nia.
Qed.

(** The line at a position of an address. *)
Lemma position_line n a w x : ok n a → 0 ≤ w < ways a →
  ∃ id t, zlookup (lookupArray a) (position a w x) = Some id ∧ 0 ≤ id < n ∧ zlookup (array a) id = Some t.
Proof.
  intros Hok Hw. destruct (position_range n a w x Hok Hw) as [_ Hp].
  destruct (zlookup_is_Some (lookupArray a) (position a w x)) as [id Hid]; [by rewrite (z_lookup _ _ Hok)|].
  pose proof (z_range _ _ Hok _ _ Hid) as Hr. destruct (zlookup_is_Some (array a) id) as [t Ht]; [by rewrite (z_array _ _ Hok)|].
  by exists id, t.
Qed.

Lemma zscan_ok n a x ws : ok n a → Forall (λ w, 0 ≤ w < ways a) ws →
  ∃ id, scan a x ws = Some id ∧
    (id = -1 ∧ (∀ w l, w ∈ ws → zlookup (lookupArray a) (position a w x) = Some l → zlookup (array a) l ≠ Some x) ∨
     0 ≤ id < n ∧ zlookup (array a) id = Some x).
Proof.
  intros Hok. induction 1 as [|w ws Hw _ (id&E&IH)]; cbn [scan]; [exists (-1); split; [done|left]; split; [done|]; by intros w l ?%elem_of_nil|].
  destruct (position_line n a w x Hok Hw) as (l&t&Hl&Hr&Ht). rewrite Hl; cbn [mbind option_bind]. rewrite Ht; cbn [mbind option_bind].
  destruct (Z.eqb_spec t x) as [->|Hne]; [exists l; split; [done|by right]|]. rewrite E. exists id. split; [done|].
  destruct IH as [[-> IH]|IH]; [left|by right]. split; [done|]. intros w' l' [->|Hw']%elem_of_cons Hl'; [|by eapply IH]. congruence.
Qed.

(** Looking up an address finds the line that has it. *)
Lemma find_scan n a x : ok n a → x ≠ 0 → scan a x (way_list a) = Some (default (-1) (find a x)) ∧
  match find a x with Some id => zlookup (array a) id = Some x | None => ∀ id, zlookup (array a) id ≠ Some x end.
Proof.
  intros Hok Hx. destruct (zscan_ok n a x (way_list a) Hok) as (id&E&Hid).
  { apply Forall_forall. intros w. apply elem_of_ways. }
  unfold find. rewrite (proj2 (Z.eqb_neq x 0) Hx), E. cbn [mbind option_bind]. destruct Hid as [[-> Hno]|[Hr Ht]].
  - rewrite Z.eqb_refl. split; [done|]. intros id Hid. destruct (z_placed _ _ Hok id x Hid Hx) as (w&Hw&Hl).
    by apply (Hno w id); [apply elem_of_ways|..].
  - by rewrite (proj2 (Z.eqb_neq id (-1))) by lia.
Qed.

Lemma find_iff n a x id : ok n a → find a x = Some id ↔ x ≠ 0 ∧ zlookup (array a) id = Some x.
Proof.
  intros Hok. destruct (decide (x = 0)) as [->|Hx]; [unfold find; rewrite Z.eqb_refl; by split; [|intros []]|].
  destruct (find_scan n a x Hok Hx) as [_ H]. destruct (find a x) as [i|].
  - split; [by intros [= <-]|]. intros [_ Hid]. f_equal. by eapply z_unique.
  - split; [done|]. intros [_ Hid]. by apply H in Hid.
Qed.

(** *** The swaps *)
Lemma shift_ok swaps : ∀ lines line,
  swaps ≠ [] → NoDup swaps → Forall (λ p, 0 ≤ p < Z.of_nat (length lines)) swaps →
  ∃ lines', shift lines swaps line = Some lines' ∧ length lines' = length lines ∧
    (∀ p, p ∉ swaps → zlookup lines' p = zlookup lines p) ∧
    (∀ i p q, swaps !! i = Some p → swaps !! S i = Some q → zlookup lines' p = zlookup lines q) ∧
    (∀ p, last swaps = Some p → zlookup lines' p = Some line).
Proof.
  induction swaps as [|p rest IH]; intros lines line Hne Hnd Hall; [done|].
  inversion_clear Hall as [|? ? Hp Hrest]. apply NoDup_cons in Hnd as [Hnin Hnd].
  destruct (zlookup_is_Some lines p Hp) as [y Hy]. destruct rest as [|q rest].
  - cbn [shift]. erewrite upd_child_set by done. eexists. split; [done|]. split; [apply length_insert|]. split_and!.
    + intros p' Hp'. rewrite zlookup_set, decide_False; [done| |done]. intros ->. apply Hp'. by left.
    + intros [|i] p' q'; done.
    + intros p' [= <-]. by rewrite zlookup_set, decide_True.
  - inversion Hrest as [|? ? Hq _]; subst. destruct (zlookup_is_Some lines q Hq) as [x Hx]. 
    change (shift lines (p :: q :: rest) line) with (x ← zlookup lines q; lines ← upd_child (λ _, Some x) lines p; shift lines (q :: rest) line).
    rewrite Hx.
    cbn [mbind option_bind]. erewrite upd_child_set by done. cbn [mbind option_bind].
    set (lines1 := <[Z.to_nat p := x]> lines). destruct (IH lines1 line) as (lines'&->&Hlen&Hout&Hstep&Hlast); [done|done| |].
    { eapply Forall_impl; [exact Hrest|]. intros z Hz. unfold lines1. by rewrite length_insert. }
    assert (∀ z, z ≠ p → zlookup lines1 z = zlookup lines z) as H1.
    { intros z Hz. unfold lines1. by rewrite zlookup_set, decide_False. }
    exists lines'. split; [done|]. split; [by unfold lines1 in Hlen; rewrite length_insert in Hlen|]. split_and!.
    + intros p' Hp'. rewrite Hout by (intros ?; apply Hp'; by right). apply H1. intros ->. apply Hp'. by left.
    + intros [|i] p' q' Hp' Hq'.
      * injection Hp' as <-. injection Hq' as <-. rewrite Hout by done. unfold lines1. by rewrite zlookup_set, decide_True.
      * simpl in Hp', Hq'. rewrite (Hstep i p' q' Hp' Hq'). apply H1. intros ->. apply Hnin. right. by eapply list_elem_of_lookup_2.
    + intros p' Hp'. apply Hlast. done.
Qed.

(** What [preinsert] leaves for [postinsert]: the positions from the victim's to
    one of the new address, each a position of the line at the next. *)
Record reserved (a : ZArray) (x id : Z) : Prop := {
  r_head : ∃ p, head (swapArray a) = Some p ∧ zlookup (lookupArray a) p = Some id;
  r_nodup : NoDup (swapArray a);
  r_step i p q : swapArray a !! i = Some p → swapArray a !! S i = Some q →
    ∃ l y w, zlookup (lookupArray a) q = Some l ∧ zlookup (array a) l = Some y ∧ y ≠ 0 ∧ 0 ≤ w < ways a ∧ p = position a w y;
  r_last p : last (swapArray a) = Some p → ∃ w, 0 ≤ w < ways a ∧ p = position a w x
}.

Lemma swaps_range n a x id : ok n a → reserved a x id → Forall (λ p, 0 ≤ p < n) (swapArray a).
Proof.
  intros Hok Hr. apply Forall_forall. intros p (i&Hi)%list_elem_of_lookup. destruct (swapArray a !! S i) as [q|] eqn:Hq.
  - destruct (r_step _ _ _ Hr i p q Hi Hq) as (l&y&w&_&_&_&Hw&->). by apply (position_range n a w y Hok).
  - destruct (r_last _ _ _ Hr p) as (w&Hw&->); [|by apply (position_range n a w x Hok)].
    rewrite last_lookup. apply lookup_ge_None in Hq. pose proof (lookup_lt_Some _ _ _ Hi).
    by replace (pred (length (swapArray a))) with i by lia.
Qed.

(** Where the line of a position was before the swaps. *)
Definition before (swaps : list Z) (p q : Z) : Prop :=
  ((p ∉ swaps) ∧ q = p) ∨ (∃ i, swaps !! i = Some p ∧ swaps !! S i = Some q) ∨ (last swaps = Some p ∧ head swaps = Some q).

Lemma before_exists swaps p : ∃ q, before swaps p q.
Proof.
  destruct (decide (p ∈ swaps)) as [Hin|Hnin]; [|exists p; by left]. apply list_elem_of_lookup in Hin as [i Hi].
  destruct (swaps !! S i) as [q|] eqn:Hq; [exists q; right; left; eauto|].
  destruct swaps as [|q rest]; [done|]. exists q. right; right. split; [|done]. rewrite last_lookup.
  apply lookup_ge_None in Hq. pose proof (lookup_lt_Some _ _ _ Hi). by replace (pred (length (q :: rest))) with i by lia.
Qed.

Lemma before_inj swaps p p' q : NoDup swaps → before swaps p q → before swaps p' q → p = p'.
Proof.
  intros Hnd. assert (∀ i, swaps !! i = Some q → q ∈ swaps) as Hin by (intros i Hi; by eapply list_elem_of_lookup_2).
  assert (head swaps = Some q → swaps !! 0%nat = Some q) as Hhd by (by destruct swaps).
  intros [[Hp ->]|[(i&Hi&Hq)|[Hl Hq]]] [[Hp' E]|[(j&Hj&Hq')|[Hl' Hq']]]; subst; try done.
  - by destruct Hp; eapply Hin.
  - by destruct Hp; eapply (Hin 0%nat), Hhd.
  - by destruct Hp'; eapply Hin.
  - assert (S i = S j) by by eapply NoDup_lookup. congruence.
  - assert (S i = 0%nat) by (eapply NoDup_lookup; [done|done|by apply Hhd]). lia.
  - by destruct Hp'; eapply (Hin 0%nat), Hhd.
  - assert (S j = 0%nat) by (eapply NoDup_lookup; [done|done|by apply Hhd]). lia.
  - congruence.
Qed.

Lemma shift_before swaps (lines lines' : list Z) line p q :
  (∃ h, head swaps = Some h ∧ zlookup lines h = Some line) →
  (∀ p, p ∉ swaps → zlookup lines' p = zlookup lines p) →
  (∀ i p q, swaps !! i = Some p → swaps !! S i = Some q → zlookup lines' p = zlookup lines q) →
  (∀ p, last swaps = Some p → zlookup lines' p = Some line) →
  before swaps p q → zlookup lines' p = zlookup lines q.
Proof.
  intros (h&Hh&Hline) Hout Hstep Hlast [[Hp ->]|[(i&Hi&Hq)|[Hl Hq]]]; [by apply Hout|by eapply Hstep|].
  rewrite (Hlast p Hl). congruence.
Qed.

(** The tags after the insertion. *)
Lemma zpostinsert_shape n a x req id :
  ok n a → 0 ≤ id < n → reserved a x id →
  ∃ p lines, postinsert x req id a =
      Some (set_lines p (<[Z.to_nat id := x]> (array a)) lines (Z.of_nat (length (swapArray a)) - 1) a) ∧
    repl_ok n p ∧ length lines = length (lookupArray a) ∧
    (∀ i p q, swapArray a !! i = Some p → swapArray a !! S i = Some q → zlookup lines p = zlookup (lookupArray a) q) ∧
    (∀ p, last (swapArray a) = Some p → zlookup lines p = Some id) ∧
    (∀ p, p ∉ swapArray a → zlookup lines p = zlookup (lookupArray a) p).
Proof.
  intros Hok Hid Hr. destruct (r_head _ _ _ Hr) as (h&Hh&Hline). unfold postinsert. rewrite Hh; cbn [mbind option_bind].
  rewrite Hline; cbn [mbind option_bind]. rewrite Z.eqb_refl.
  destruct (shift_ok (swapArray a) (lookupArray a) id) as (lines&E&Hlen&Hout&Hstep&Hlast).
  { by destruct (swapArray a). }
  { apply Hr. }
  { rewrite (z_lookup _ _ Hok). by eapply swaps_range. }
  rewrite E; cbn [mbind option_bind]. destruct (repl_replaced n (rp a) id (z_rp _ _ Hok) Hid) as (p&->&Hp); cbn [mbind option_bind].
  destruct (zlookup_is_Some (array a) id) as [t Ht]; [by rewrite (z_array _ _ Hok)|]. erewrite upd_child_set by done. cbn [mbind option_bind].
  destruct (repl_update n p id req Hp Hid) as (p'&->&Hp'). cbn [mbind option_bind]. exists p', lines. by split_and!.
Qed.

(** The insertion keeps every line where it is found. *)
Lemma postinsert_placed n a x req id a' :
  ok n a → x ≠ 0 → find a x = None → 0 ≤ id < n → reserved a x id → postinsert x req id a = Some a' →
  ok n a' ∧ ∀ id', zlookup (array a') id' = if decide (id' = id) then Some x else zlookup (array a) id'.
Proof.
  intros Hok Hx Hf Hid Hr E. destruct (zpostinsert_shape n a x req id Hok Hid Hr) as (p&lines&E'&Hp&Hlen&Hstep&Hlast&Hout).
  rewrite E in E'. injection E' as ->. clear E. pose proof (r_head _ _ _ Hr) as Hhd.
  assert (∀ id', zlookup (<[Z.to_nat id := x]> (array a)) id' = if decide (id' = id) then Some x else zlookup (array a) id') as Htag.
  { intros id'. apply zlookup_set. by rewrite (z_array _ _ Hok). }
  assert (∀ l, zlookup (array a) l ≠ Some x) as Hno.
  { destruct (find_scan n a x Hok Hx) as [_ H]. by rewrite Hf in H. }
  assert (∀ p q, before (swapArray a) p q → zlookup lines p = zlookup (lookupArray a) q) as Hb.
  { intros p1 q1. by apply (shift_before _ _ _ id). }
  split; [|done]. split; cbn [array lookupArray rp hf numLines numSets ways cands setMask set_lines]; try apply Hok; try done.
  - rewrite length_insert. apply (z_array _ _ Hok).
  - rewrite Hlen. apply (z_lookup _ _ Hok).
  - intros p1 l Hl. destruct (before_exists (swapArray a) p1) as [q Hq]. rewrite (Hb p1 q Hq) in Hl. by eapply z_range.
  - intros p1 p2 l H1 H2. destruct (before_exists (swapArray a) p1) as [q1 Hq1]. destruct (before_exists (swapArray a) p2) as [q2 Hq2].
    rewrite (Hb _ _ Hq1) in H1. rewrite (Hb _ _ Hq2) in H2. assert (q1 = q2) as <- by by eapply z_inj.
    eapply before_inj; [apply (r_nodup _ _ _ Hr)|done..].
  - intros l y Hl Hy. rewrite Htag in Hl. change (position (set_lines _ _ _ _ _)) with (position a). case_decide as El.
    + subst l. injection Hl as <-. destruct (last (swapArray a)) as [p1|] eqn:Hla.
      * destruct (r_last _ _ _ Hr p1 Hla) as (w&Hw&->). exists w. split; [done|]. by apply Hlast.
      * apply last_None in Hla. rewrite Hla in Hhd. by destruct Hhd as (?&?&_).
    + destruct (z_placed _ _ Hok l y Hl Hy) as (w&Hw&Hpos). destruct (decide (position a w y ∈ swapArray a)) as [Hin|Hnin].
      2:{ exists w. split; [done|]. by rewrite Hout. }
      apply list_elem_of_lookup in Hin as [[|i] Hi].
      { destruct Hhd as (h&Hh&Hline). destruct (swapArray a) as [|h' r]; [done|]. injection Hi as ->. injection Hh as <-. congruence. }
      destruct (swapArray a !! i) as [p1|] eqn:Hi1.
      2:{ apply lookup_ge_None in Hi1. pose proof (lookup_lt_Some _ _ _ Hi). lia. }
      destruct (r_step _ _ _ Hr i p1 _ Hi1 Hi) as (l'&y'&w'&Hl'&Hy'&_&Hw'&->). assert (l' = l) as -> by congruence.
      assert (y' = y) as -> by congruence. exists w'. split; [done|]. by rewrite (Hstep i _ _ Hi1 Hi).
  - intros l l' y Hl Hl' Hy. rewrite Htag in Hl, Hl'. repeat case_decide; subst; [done|congruence|congruence|by eapply z_unique].
Qed.

(** *** The walk *)
Lemma zlookup_app_iff {A} (l k : list A) i x :
  zlookup (l ++ k) i = Some x ↔ zlookup l i = Some x ∨ (Z.of_nat (length l) ≤ i ∧ zlookup k (i - Z.of_nat (length l)) = Some x).
Proof.
  unfold zlookup. destruct (Z.ltb_spec i 0) as [Hi|Hi].
  - split; [done|]. intros [|[? H]]; [done|]. lia.
  - rewrite lookup_app_Some. split.
    + intros [H|[Hl H]]; [by left|right]. split; [lia|]. rewrite (proj2 (Z.ltb_ge _ 0)) by lia. rewrite <-H. f_equal. lia.
    + intros [H|[Hl H]]; [by left|right]. rewrite (proj2 (Z.ltb_ge _ 0)) in H by lia. split; [lia|]. rewrite <-H. f_equal. lia.
Qed.

Lemma elem_zlookup {A} (l : list A) x : x ∈ l ↔ ∃ i, zlookup l i = Some x.
Proof.
  rewrite list_elem_of_lookup. split.
  - intros [i Hi]. exists (Z.of_nat i). unfold zlookup. rewrite (proj2 (Z.ltb_ge _ 0)) by lia. by rewrite Nat2Z.id.
  - intros [i Hi]. unfold zlookup in Hi. destruct (i <? 0); [done|]. eauto.
Qed.

Lemma filter_fresh (cs : list ZWalkInfo) l : l ∉ map lineId cs → filter (λ c, lineId c ≠ l) cs = cs.
Proof.
  induction cs as [|c cs IH]; [done|]. intros [Hne Hnin]%not_elem_of_cons. rewrite filter_cons_True by auto. by rewrite IH.
Qed.
Lemma filter_ne_length (cs : list ZWalkInfo) l :
  NoDup (map lineId cs) → (length cs ≤ S (length (filter (λ c, lineId c ≠ l) cs)))%nat.
Proof.
  induction cs as [|c cs IH]; [simpl; lia|]. intros [Hnin Hnd]%NoDup_cons. destruct (decide (lineId c = l)) as [<-|Hc].
  - rewrite filter_cons_False by auto. rewrite filter_fresh by done. done.
  - rewrite filter_cons_True by done. simpl. specialize (IH Hnd). lia.
Qed.

Lemma elem_zlookup_singleton {A} (x y : A) i : zlookup [x] i = Some y → y = x.
Proof. intros H. assert (y ∈ [x]) as Hin by (apply elem_zlookup; eauto). by apply list_elem_of_singleton in Hin. Qed.

(** The candidates at the positions of an address. *)
Definition child (a : ZArray) (y parent : Z) (c : ZWalkInfo) : Prop :=
  parentIdx c = parent ∧ zlookup (lookupArray a) (pos c) = Some (lineId c) ∧ ∃ w, 0 ≤ w < ways a ∧ pos c = position a w y.

Lemma children_ok n a y parent :
  ok n a → ∃ cs, mapM (candidate a y parent) (way_list a) = Some cs ∧ Z.of_nat (length cs) = ways a ∧ NoDup (map lineId cs) ∧
    Forall (λ c, child a y parent c ∧ 0 ≤ lineId c < n) cs ∧
    (∀ w l, 0 ≤ w < ways a → zlookup (lookupArray a) (position a w y) = Some l → ∃ c, c ∈ cs ∧ lineId c = l).
Proof.
  intros Hok. destruct (mapM_is_Some_2 (candidate a y parent) (way_list a)) as [cs Hcs].
  { apply Forall_forall. intros w Hw%elem_of_ways. destruct (position_line n a w y Hok Hw) as (id&_&E&_). 
    unfold compose, candidate. rewrite E. by eexists. }
  exists cs. split; [done|]. pose proof (mapM_Some_1 _ _ _ Hcs) as H2.
  assert (∀ i c, cs !! i = Some c → 0 ≤ Z.of_nat i < ways a ∧ candidate a y parent (Z.of_nat i) = Some c) as Hi.
  { intros i c Hc. destruct (Forall2_lookup_r _ _ _ _ _ H2 Hc) as (w&Hw&E). unfold way_list in Hw. rewrite list_lookup_fmap in Hw.
    destruct (seq 0 (Z.to_nat (ways a)) !! i) as [k|] eqn:Hk; [|done]. apply lookup_seq in Hk as [-> Hlt]. injection Hw as <-. split; [lia|done]. }
  assert (∀ i c, cs !! i = Some c → child a y parent c ∧ pos c = position a (Z.of_nat i) y) as Hch.
  { intros i c Hc. destruct (Hi i c Hc) as [Hw E]. unfold candidate in E. apply bind_Some in E as (id&Eid&[= <-]). simpl.
    split; [|done]. split; [done|]. split; [done|]. by exists (Z.of_nat i). }
  split_and!.
  - rewrite <-(Forall2_length _ _ _ H2). unfold way_list. rewrite length_map, length_seq. pose proof (z_ways _ _ Hok). lia.
  - apply NoDup_alt. intros i j l Hl Hl'. rewrite list_lookup_fmap in Hl, Hl'. destruct (cs !! i) as [c|] eqn:Hc; [|done].
    destruct (cs !! j) as [d|] eqn:Hd; [|done]. injection Hl as <-. injection Hl' as E.
    destruct (Hch i c Hc) as [(_&Hp&_) Hpc]. destruct (Hch j d Hd) as [(_&Hp'&_) Hpd].
    assert (pos c = pos d) as Epos by (eapply z_inj; [done|exact Hp|by rewrite Hp', E]). rewrite Hpc, Hpd in Epos.
    apply (position_way n) in Epos; [lia|done|by eapply Hi|by eapply Hi].
  - apply Forall_lookup. intros i c Hc. destruct (Hch i c Hc) as [Hcc _]. split; [done|]. eapply z_range; [done|apply Hcc].
  - intros w l Hw Hl. assert (way_list a !! Z.to_nat w = Some w) as Hwl.
    { unfold way_list. rewrite list_lookup_fmap, lookup_seq_lt by lia. simpl. f_equal. lia. }
    destruct (Forall2_lookup_l _ _ _ _ _ H2 Hwl) as (c&Hc&E). exists c. split; [by eapply list_elem_of_lookup_2|].
    unfold candidate in E. cbv zeta in E. rewrite Hl in E. by injection E as <-.
Qed.

Lemma in_use_ok n a cs :
  ok n a → Forall (λ c, 0 ≤ lineId c < n) cs →
  ∃ vs, mapM (in_use a) cs = Some vs ∧
    (forallb id vs = true → Forall (λ c, ∃ y, zlookup (array a) (lineId c) = Some y ∧ y ≠ 0) cs).
Proof.
  intros Hok. induction 1 as [|c cs Hc _ (vs&E&IH)]; [by exists []|]. destruct (zlookup_is_Some (array a) (lineId c)) as [t Ht]; [by rewrite (z_array _ _ Hok)|].
  assert (in_use a c = Some (negb (t =? 0))) as Eu by (unfold in_use; by rewrite Ht).
  simpl. rewrite Eu; cbn [mbind option_bind]. rewrite E; cbn [mbind option_bind]. eexists. split; [done|].
  intros [Hu Hvs]%andb_prop. constructor; [|by apply IH]. exists t. split; [done|]. unfold id in Hu. by destruct (Z.eqb_spec t 0).
Qed.

(** The candidates found so far: seeds at the positions of [x], the others at
    positions of the line of their parent, in the order of their parents; the
    first [fringe] have all their children among them. *)
Record walk (a : ZArray) (x fringe : Z) (cs : list ZWalkInfo) (av : bool) : Prop := {
  wk_len : 0 ≤ fringe ∧ ways a + fringe * (ways a - 1) ≤ Z.of_nat (length cs);
  wk_line i c : zlookup cs i = Some c → zlookup (lookupArray a) (pos c) = Some (lineId c);
  wk_cand i c : zlookup cs i = Some c →
    (parentIdx c = -1 ∧ ∃ w, 0 ≤ w < ways a ∧ pos c = position a w x) ∨
    (0 ≤ parentIdx c < fringe ∧ ways a + parentIdx c * (ways a - 1) ≤ i ∧
     ∃ f y w, zlookup cs (parentIdx c) = Some f ∧ zlookup (array a) (lineId f) = Some y ∧ y ≠ 0 ∧
       0 ≤ w < ways a ∧ pos c = position a w y ∧ lineId c ≠ lineId f);
  wk_mono i j c d : zlookup cs i = Some c → zlookup cs j = Some d → i ≤ j → parentIdx c ≤ parentIdx d;
  wk_closed i f y w l : 0 ≤ i < fringe → zlookup cs i = Some f → zlookup (array a) (lineId f) = Some y → 0 ≤ w < ways a →
    zlookup (lookupArray a) (position a w y) = Some l → l ≠ lineId f → ∃ j d, zlookup cs j = Some d ∧ lineId d = l ∧ parentIdx d = i;
  wk_valid i c : av = true → zlookup cs i = Some c → ∃ y, zlookup (array a) (lineId c) = Some y ∧ y ≠ 0
}.

Lemma walk_seeds n a x :
  ok n a → ∃ cs vs, mapM (candidate a x (-1)) (way_list a) = Some cs ∧ mapM (in_use a) cs = Some vs ∧ walk a x 0 cs (forallb id vs).
Proof.
  intros Hok. destruct (children_ok n a x (-1) Hok) as (cs&E&Hlen&_&Hall&_).
  destruct (in_use_ok n a cs Hok) as (vs&Ev&Hvs); [by eapply Forall_impl; [exact Hall|]; intros ? []|].
  exists cs, vs. split; [done|]. split; [done|]. rewrite Forall_forall in Hall.
  assert (∀ i c, zlookup cs i = Some c → child a x (-1) c) as Hc by (intros i c Hi; apply Hall, elem_zlookup; eauto).
  split.
  - lia.
  - intros i c Hi. apply (Hc i c Hi).
  - intros i c Hi. left. destruct (Hc i c Hi) as (?&_&?). done.
  - intros i j c d Hi Hj _. destruct (Hc i c Hi) as [-> _]. by destruct (Hc j d Hj) as [-> _].
  - lia.
  - intros i c Hv Hi. specialize (Hvs Hv). rewrite Forall_forall in Hvs. apply Hvs, elem_zlookup. eauto.
Qed.

Lemma walk_step n a x fringe cs f y new vs :
  ok n a → walk a x fringe cs true → zlookup cs fringe = Some f → zlookup (array a) (lineId f) = Some y → y ≠ 0 →
  mapM (candidate a y fringe) (way_list a) = Some new → mapM (in_use a) new = Some vs →
  walk a x (fringe + 1) (cs ++ filter (λ c, lineId c ≠ lineId f) new) (forallb id vs).
Proof.
  intros Hok W Hf Hy Hy0 Hnew Hvs. destruct (children_ok n a y fringe Hok) as (new'&E&Hlen&Hnd&Hall&Hevery).
  assert (new' = new) as -> by congruence. clear E. destruct (in_use_ok n a new Hok) as (vs'&E&Hval); [by eapply Forall_impl; [exact Hall|]; intros ? []|].
  assert (vs' = vs) as -> by congruence. clear E. rewrite Forall_forall in Hall. set (kept := filter _ new).
  assert (∀ i c, zlookup kept i = Some c → child a y fringe c ∧ c ∈ new ∧ lineId c ≠ lineId f) as Hk.
  { intros i c Hi. assert (c ∈ kept) as Hin by (apply elem_zlookup; eauto). apply list_elem_of_filter in Hin as [Hne Hin]. by destruct (Hall c Hin). }
  destruct (wk_len _ _ _ _ _ W) as [H0 Hl]. pose proof (filter_ne_length new (lineId f) Hnd) as Hfl. fold kept in Hfl.
  assert (∀ i c, zlookup cs i = Some c → parentIdx c < fringe) as Hpar.
  { intros i c Hi. destruct (wk_cand _ _ _ _ _ W i c Hi) as [[-> _]|[? _]]; lia. }
  split.
  - rewrite length_app. lia.
  - intros i c [Hi|[_ Hi]]%zlookup_app_iff; [by eapply wk_line|]. apply (Hk _ _ Hi).
  - intros i c [Hi|[Hge Hi]]%zlookup_app_iff.
    + destruct (wk_cand _ _ _ _ _ W i c Hi) as [?|(Hp&Hi'&g&z&w&Hg&Hz)]; [by left|right]. split; [lia|]. split; [done|].
      exists g, z, w. split; [apply zlookup_app_iff; by left|done].
    + right. destruct (Hk _ _ Hi) as ((Hp&Hline&w&Hw&Hpos)&_&Hne). rewrite Hp. split; [lia|]. split; [lia|].
      exists f, y, w. split_and!; [apply zlookup_app_iff; by left|done|done|lia|lia|done|done].
  - intros i j c d Hc Hd Hij. apply zlookup_app_iff in Hc as [Hc|[Hge Hc]], Hd as [Hd|[Hge' Hd]].
    + by eapply (wk_mono _ _ _ _ _ W i j).
    + destruct (Hk _ _ Hd) as ((->&_)&_). specialize (Hpar _ _ Hc). lia.
    + apply zlookup_range in Hd. lia.
    + destruct (Hk _ _ Hc) as ((->&_)&_). by destruct (Hk _ _ Hd) as ((->&_)&_).
  - intros i g z w l Hi Hg Hz Hw Hline Hne. apply zlookup_app_iff in Hg as [Hg|[Hge Hg]].
    2:{ pose proof (z_ways _ _ Hok). nia. }
    destruct (decide (i = fringe)) as [->|Hif].
    + assert (g = f) as -> by congruence. assert (z = y) as -> by congruence. destruct (Hevery w l Hw Hline) as (c&Hc&<-).
      assert (c ∈ kept) as [j Hj]%elem_zlookup by (apply list_elem_of_filter; done). exists (Z.of_nat (length cs) + j), c.
      split; [|split; [done|apply (Hk j c Hj)]]. apply zlookup_app_iff. right. pose proof (zlookup_range _ _ _ Hj). split; [lia|].
      rewrite <-Hj. f_equal. lia.
    + destruct (wk_closed _ _ _ _ _ W i g z w l) as (j&d&Hj&Hd); [lia|done..|]. exists j, d. split; [apply zlookup_app_iff; by left|done].
  - intros i c Hv [Hi|[_ Hi]]%zlookup_app_iff; [by eapply wk_valid|]. specialize (Hval Hv). rewrite Forall_forall in Hval.
    apply Hval. apply (Hk _ _ Hi).
Qed.

(** The walk ends: every step adds a candidate. *)
Lemma expand_ok n a x fuel fringe cs av :
  ok n a → walk a x fringe cs av → cands a - Z.of_nat (length cs) ≤ Z.of_nat fuel →
  ∃ fringe' cs' av', expand fuel a fringe cs av = Some (cs', av') ∧ walk a x fringe' cs' av' ∧
    negb av' || (cands a <=? Z.of_nat (length cs')) = true.
Proof.
  intros Hok. revert fringe cs av. induction fuel as [|fuel IH]; intros fringe cs av W Hfuel.
  - assert (expand 0 a fringe cs av = Some (cs, av)) as E.
    { cbn [expand]. by rewrite (proj2 (Z.ltb_ge _ _)) by lia. }
    exists fringe, cs, av. split; [done|]. split; [done|]. rewrite (proj2 (Z.leb_le _ _)) by lia. apply orb_true_r.
  - cbn [expand]. destruct (Z.ltb_spec (Z.of_nat (length cs)) (cands a)) as [Hlt|Hge]; simpl.
    2:{ exists fringe, cs, av. split; [done|]. split; [done|]. rewrite (proj2 (Z.leb_le _ _)) by lia. apply orb_true_r. }
    destruct av; simpl; [|by exists fringe, cs, false].
    destruct (wk_len _ _ _ _ _ W) as [H0 Hl]. pose proof (z_ways _ _ Hok) as Hways.
    destruct (zlookup_is_Some cs fringe) as [f Hf]; [nia|]. rewrite Hf; cbn [mbind option_bind].
    destruct (wk_valid _ _ _ _ _ W fringe f eq_refl Hf) as (y&Hy&Hy0). rewrite Hy; cbn [mbind option_bind]. rewrite (proj2 (Z.eqb_neq y 0) Hy0). simpl.
    destruct (children_ok n a y fringe Hok) as (new&E&_&_&Hall&_). rewrite E; cbn [mbind option_bind].
    destruct (in_use_ok n a new Hok) as (vs&Ev&_); [by eapply Forall_impl; [exact Hall|]; intros ? []|]. rewrite Ev; cbn [mbind option_bind].
    pose proof (walk_step n a x fringe cs f y new vs Hok W Hf Hy Hy0 E Ev) as W'. apply IH; [done|].
    destruct (wk_len _ _ _ _ _ W') as [_ Hl']. destruct (children_ok n a y fringe Hok) as (new'&E'&Hlen&Hnd&_).
    assert (new' = new) as -> by congruence. pose proof (filter_ne_length new (lineId f) Hnd). rewrite length_app. lia.
Qed.

(** *** The path of the victim *)
(** The first candidate with its line. *)
Definition first_of (cs : list ZWalkInfo) (i : Z) (c : ZWalkInfo) : Prop :=
  zlookup cs i = Some c ∧ ∀ j d, zlookup cs j = Some d → j < i → lineId d ≠ lineId c.

Lemma first_index_ok line cs :
  line ∈ map lineId cs → ∃ i c, first_index line cs = Some i ∧ first_of cs i c ∧ lineId c = line.
Proof.
  induction cs as [|c cs IH]; [by intros ?%elem_of_nil|]. intros Hin. cbn [first_index]. destruct (Z.eqb_spec (lineId c) line) as [<-|Hne].
  - exists 0, c. split; [done|]. split; [|done]. split; [done|]. intros j d Hj Hlt. apply zlookup_range in Hj. lia.
  - apply elem_of_cons in Hin as [?|Hin]; [congruence|]. destruct (IH Hin) as (i&d&->&[Hi Hno]&<-). pose proof (zlookup_range _ _ _ Hi) as Hr.
    exists (i + 1), d. split; [done|]. split; [|done]. change (c :: cs) with ([c] ++ cs). split.
    + apply zlookup_app_iff. right. simpl. split; [lia|]. rewrite <-Hi. f_equal. lia.
    + intros j e [Hj|[Hge Hj]]%zlookup_app_iff Hlt.
      * apply elem_zlookup_singleton in Hj. congruence.
      * eapply Hno; [exact Hj|simpl; lia].
Qed.

(** The parent of a first candidate is one: an earlier one with its line would
    have had the same children. *)
Lemma parent_first a x fringe cs av i c :
  1 < ways a → walk a x fringe cs av → first_of cs i c → 0 ≤ parentIdx c →
  parentIdx c < i ∧ ways a + parentIdx c * (ways a - 1) ≤ i ∧
  ∃ f y w, first_of cs (parentIdx c) f ∧ zlookup (array a) (lineId f) = Some y ∧ y ≠ 0 ∧ 0 ≤ w < ways a ∧ pos c = position a w y.
Proof.
  intros H1 W [Hi Hno] Hp. destruct (wk_cand _ _ _ _ _ W i c Hi) as [[? _]|(Hpf&Hge&f&y&w&Hf&Hy&Hy0&Hw&Hpos&Hne)]; [lia|].
  split; [nia|]. split; [done|]. exists f, y, w. split_and!; try done; try lia. split; [done|]. intros j d Hj Hlt Heq.
  pose proof (zlookup_range _ _ _ Hj) as Hr. pose proof (wk_line _ _ _ _ _ W i c Hi) as Hl. rewrite Hpos in Hl.
  destruct (wk_closed _ _ _ _ _ W j d y w (lineId c)) as (k&e&Hk&He&Hpe); [lia|done|congruence|done|done|congruence|].
  destruct (decide (k < i)) as [Hki|Hki]; [by eapply Hno|]. pose proof (wk_mono _ _ _ _ _ W i k c e Hi Hk ltac:(lia)). lia.
Qed.

Lemma first_unique a x fringe cs av i j c d :
  walk a x fringe cs av → first_of cs i c → first_of cs j d → pos c = pos d → i = j.
Proof.
  intros W [Hi Hno] [Hj Hno'] Hpos. pose proof (wk_line _ _ _ _ _ W i c Hi) as H1. pose proof (wk_line _ _ _ _ _ W j d Hj) as H2.
  assert (lineId c = lineId d) as E by congruence. destruct (Z.lt_trichotomy i j) as [Hlt|[->|Hlt]]; [|done|].
  - by destruct (Hno' i c Hi Hlt).
  - by destruct (Hno j d Hj Hlt).
Qed.

(** The positions from a first candidate to its seed, and how many they are. *)
Lemma walk_back_ok n a x fringe cs av tk fuel : ∀ i c,
  ok n a → walk a x fringe cs av → (∀ j d, zlookup cs j = Some d → j < Z.of_nat (length tk) → zlookup tk j = Some d) →
  first_of cs i c → i < Z.of_nat (length tk) → i < Z.of_nat fuel →
  ∃ path, walk_back fuel tk i = Some path ∧ head path = Some (pos c) ∧ NoDup path ∧
    (∀ p, p ∈ path → ∃ j d, j ≤ i ∧ first_of cs j d ∧ p = pos d) ∧
    (∀ k p q, path !! k = Some p → path !! S k = Some q →
       ∃ l y w, zlookup (lookupArray a) q = Some l ∧ zlookup (array a) l = Some y ∧ y ≠ 0 ∧ 0 ≤ w < ways a ∧ p = position a w y) ∧
    (∀ p, last path = Some p → ∃ w, 0 ≤ w < ways a ∧ p = position a w x) ∧
    Z.of_nat (length path) * ways a ≤ i + ways a.
Proof.
  intros i c Hok W Htk. revert i c. induction fuel as [|fuel IH]; intros i c Hfirst Hlt Hfuel.
  { destruct Hfirst as [Hi%zlookup_range _]. lia. }
  pose proof (proj1 Hfirst) as Hi. pose proof (zlookup_range _ _ _ Hi) as Hr. cbn [walk_back]. rewrite (proj2 (Z.ltb_ge i 0)) by lia.
  rewrite (Htk i c Hi Hlt); cbn [mbind option_bind]. destruct (wk_cand _ _ _ _ _ W i c Hi) as [[Hp (w&Hw&Hpos)]|[Hp _]].
  - assert (walk_back fuel tk (parentIdx c) = Some []) as -> by (rewrite Hp; by destruct fuel). cbn [mbind option_bind].
    exists [pos c]. split; [done|]. split; [done|]. split; [apply NoDup_singleton|]. split_and!.
    + intros p ->%list_elem_of_singleton. exists i, c. split; [lia|done].
    + by intros [|k] p q.
    + intros p [= <-]. by exists w.
    + simpl. lia.
  - destruct (parent_first _ _ _ _ _ i c (proj1 (z_ways _ _ Hok)) W Hfirst ltac:(lia)) as (Hpi&Hge&f&y&w&Hff&Hy&Hy0&Hw&Hpos).
    destruct (IH (parentIdx c) f Hff ltac:(lia) ltac:(lia)) as (path&->&Hhd&Hnd&Hall&Hstep&Hlast&Hlen). cbn [mbind option_bind].
    destruct path as [|q path]; [done|]. injection Hhd as ->. exists (pos c :: pos f :: path). split; [done|]. split; [done|]. split_and!.
    + apply NoDup_cons. split; [|done]. intros Hin. destruct (Hall _ Hin) as (j&d&Hj&Hd&E).
      pose proof (first_unique _ _ _ _ _ _ _ _ _ W Hfirst Hd E). lia.
    + intros p [->|Hin]%elem_of_cons; [exists i, c; split; [lia|done]|]. destruct (Hall p Hin) as (j&d&Hj&?). exists j, d. split; [lia|done].
    + intros [|k] p q Hpk Hqk; [|by eapply Hstep]. injection Hpk as <-. injection Hqk as <-. exists (lineId f), y, w.
      split; [by eapply wk_line, Hff|done].
    + intros p Hla. by apply Hlast.
    + pose proof (z_ways _ _ Hok). cbn [length] in *. nia.
Qed.

(** *** The interface *)
Lemma ok_walk n a p swaps last : ok n a → repl_ok n p → ok n (set_walk p swaps last a).
Proof. intros [] Hp. by split. Qed.
Lemma zok_rp n a p : ok n a → repl_ok n p → ok n (set_rp p a).
Proof. intros [] Hp. by split. Qed.

Lemma find_same n a a' x : ok n a → ok n a' → array a' = array a → find a' x = find a x.
Proof.
  intros Hok Hok' Ha. apply option_eq. intros id. rewrite (find_iff n a' x id Hok'), (find_iff n a x id Hok). by rewrite Ha.
Qed.

Lemma preinsert_walk n a v x :
  ok n a → (∀ id, 0 ≤ id < n → is_Some (v_numSharers v id) ∧ is_Some (v_isValid v id)) →
  ∃ id wb p swaps last, preinsert v x a = Some (id, wb, set_walk p swaps last a) ∧ 0 ≤ id < n ∧ zlookup (array a) id = Some wb ∧
    repl_ok n p ∧ reserved (set_walk p swaps last a) x id ∧ Z.of_nat (length swaps) ≤ swap_size a.
Proof.
  intros Hok Hv. destruct (walk_seeds n a x Hok) as (seeds&vs&Es&Ev&W0). unfold preinsert. rewrite Es; cbn [mbind option_bind].
  rewrite Ev; cbn [mbind option_bind]. pose proof (z_ways _ _ Hok) as Hways.
  destruct (expand_ok n a x (Z.to_nat (cands a)) 0 seeds _ Hok W0) as (fringe&cs&av&->&W&Hend); [lia|]. cbn [mbind option_bind].
  rewrite Hend. set (tk := take (Z.to_nat (cands a)) cs).
  assert (∀ j d, zlookup cs j = Some d → j < Z.of_nat (length tk) → zlookup tk j = Some d) as Htk.
  { intros j d Hj Hlt. unfold zlookup in *. destruct (j <? 0); [done|]. unfold tk in *. rewrite length_take in Hlt. rewrite lookup_take_lt by lia. done. }
  assert (∀ j d, zlookup tk j = Some d → zlookup cs j = Some d) as Htk'.
  { intros j d Hj. unfold zlookup in *. destruct (j <? 0); [done|]. by apply lookup_take_Some in Hj as [? _]. }
  destruct (wk_len _ _ _ _ _ W) as [Hfr Hlen].
  destruct (repl_rank n (rp a) v (map lineId tk) (z_rp _ _ Hok)) as (best&p&->&Hin&Hp).
  { intros E%(f_equal length). rewrite length_map in E. unfold tk in E. rewrite length_take in E. simpl in E. nia. }
  { apply Forall_forall. intros id Hid. apply list_elem_of_fmap in Hid as (c&->&[j Hj]%elem_zlookup). apply Htk' in Hj.
    pose proof (z_range _ _ Hok _ _ (wk_line _ _ _ _ _ W j c Hj)) as Hr. split; [done|]. by apply Hv. }
  cbn [mbind option_bind]. destruct (first_index_ok best tk Hin) as (i&c&->&[Hi Hno]&Hbest).
  pose proof (zlookup_range _ _ _ Hi) as Hir. assert (first_of cs i c) as Hfirst.
  { split; [by apply Htk'|]. intros j d Hj Hlt. apply (Hno j d); [|done]. apply Htk; [done|lia]. }
  pose proof (z_range _ _ Hok _ _ (wk_line _ _ _ _ _ W i c (Htk' i c Hi))) as Hrange. rewrite Hbest in Hrange.
  rewrite (proj2 (Z.ltb_lt best (numLines a))) by (rewrite <-(z_n _ _ Hok); lia). cbn [mbind option_bind].
  destruct (walk_back_ok n a x fringe cs av tk (S (length tk)) i c Hok W Htk Hfirst ltac:(lia) ltac:(lia))
    as (path&->&Hhd&Hnd&Hall&Hstep&Hlast&Hcount). cbn [mbind option_bind].
  assert (Z.of_nat (length path) ≤ swap_size a) as Hsize.
  { unfold swap_size. rewrite Z.quot_div_nonneg by lia. unfold tk in Hir. rewrite length_take in Hir.
    pose proof (Z.div_mod (cands a) (ways a) ltac:(lia)). pose proof (Z.mod_pos_bound (cands a) (ways a) ltac:(lia)). nia. }
  rewrite (proj2 (Z.leb_le _ _) Hsize). destruct (zlookup_is_Some (array a) best) as [wb Hwb]; [by rewrite (z_array _ _ Hok)|].
  rewrite Hwb; cbn [mbind option_bind]. exists best, wb, p, path, i. split_and!; try done; try lia.
  split; simpl; [|done|exact Hstep|exact Hlast]. exists (pos c). split; [done|]. rewrite <-Hbest. by eapply wk_line, Htk'.
Qed.

#[export] Instance ZArray_laws : ArrayLaws ZArray.
Proof.
  refine {| admits := λ x, x ≠ 0; array_ok := ok; ZsimArray.find := find; tag := λ a id, zlookup (array a) id; ZsimArray.reserved := reserved |}.
  - intros n a x id Hok [_ Hx]%(find_iff n); [|done]. split; [|done]. rewrite <-(z_array _ _ Hok). by eapply zlookup_range.
  - intros n a x r Hok Hx. destruct (find_scan n a x Hok Hx) as [Hs H]. simpl. unfold lookup. rewrite (proj2 (Z.eqb_neq x 0) Hx), Hs. simpl.
    destruct r as [req|]; [|by exists a]. destruct (find a x) as [id|]; simpl; [|by exists a].
    assert (0 ≤ id < n) as Hid by (rewrite <-(z_array _ _ Hok); by eapply zlookup_range).
    rewrite (proj2 (Z.eqb_neq id (-1))) by lia. destruct (repl_update n (rp a) id req (z_rp _ _ Hok) Hid) as (p&->&Hp). simpl.
    exists (set_rp p a). pose proof (zok_rp n a p Hok Hp). split_and!; [done|done|intros y; by eapply find_same|done].
  - intros n a x Hok Hx. destruct (find_scan n a x Hok Hx) as [Hs _]. simpl. unfold lookup. by rewrite (proj2 (Z.eqb_neq x 0) Hx), Hs.
  - intros n a v x Hok Hx _ Hv. destruct (preinsert_walk n a v x Hok Hv) as (id&wb&p&swaps&last&E&Hid&Hwb&Hp&Hr&_). simpl. rewrite E.
    exists id, wb, (set_walk p swaps last a). pose proof (ok_walk n a p swaps last Hok Hp). split_and!; try done; try lia.
    intros y. by eapply find_same.
  - intros n a x req id Hok Hx Hf Hid Hr. destruct (zpostinsert_shape n a x req id Hok Hid Hr) as (p&lines&E&_). simpl. rewrite E.
    eexists. split; [done|]. destruct (postinsert_placed n a x req id _ Hok Hx Hf Hid Hr E) as [Hok' Htag]. split; [exact Hok'|].
    split_and!; [|exact Htag|].
    + apply (find_iff n); [exact Hok'|]. split; [done|]. rewrite Htag. by rewrite decide_True.
    + intros y id' Hne [Hy Ht]%(find_iff n); [|done]. apply (find_iff n); [exact Hok'|]. split; [done|]. rewrite Htag. by rewrite decide_False.
Defined.

(** The constructor makes such an array. *)
Lemma znew_ok n ways candidates p hf a :
  new n ways candidates p hf = Some a → 0 < n < 2 ^ 32 → repl_ok n p → (∀ w x, 0 ≤ hf w x) → ok n a.
Proof.
  unfold new. intros H Hn Hp Hh. destruct (Z.ltb_spec 1 ways); [|done]. destruct (Z.leb_spec ways candidates); [|done].
  destruct (Z.eqb_spec (Z.rem n ways) 0) as [Hrem|]; [|done]. destruct (SetAssoc.isPow2 _) eqn:E; [|done]. injection H as <-.
  rewrite Z.quot_div_nonneg in * by lia. rewrite Z.rem_mod_nonneg in Hrem by lia.
  pose proof (Z.div_mod n ways ltac:(lia)) as Hdiv. assert (0 < n `div` ways) as Hs by nia.
  assert (∀ p id, zlookup (map Z.of_nat (seq 0 (Z.to_nat n))) p = Some id → id = p ∧ 0 ≤ p < n) as Hid.
  { intros q id Hq. pose proof (zlookup_range _ _ _ Hq) as Hr. rewrite length_map, length_seq in Hr. unfold zlookup in Hq.
    rewrite (proj2 (Z.ltb_ge q 0)) in Hq by lia. rewrite list_lookup_fmap, lookup_seq_lt in Hq by lia. injection Hq as <-. lia. }
  assert (∀ id x, zlookup (replicate (Z.to_nat n) 0) id = Some x → x = 0) as Htag.
  { intros id x Hx. unfold zlookup in Hx. destruct (id <? 0); [done|]. by apply lookup_replicate in Hx as [-> _]. }
  split; simpl; try done.
  - rewrite length_replicate. lia.
  - rewrite length_map, length_seq. lia.
  - split; lia.
  - split; [done|]. exists (Z.log2 (n `div` ways)). split; [apply Z.log2_nonneg|]. by apply SetAssoc.isPow2_ok.
  - intros q id Hq. destruct (Hid q id Hq). lia.
  - intros q q' id Hq Hq'. destruct (Hid q id Hq), (Hid q' id Hq'). congruence.
  - intros id x Hx Hx0. by apply Htag in Hx.
  - intros id id' x Hx _ Hx0. by apply Htag in Hx.
Qed.

(** ** A finite map *)
(** A replacement: the line and the address that left it. *)
Definition insert_line (v : View) (x : Z) (req : MemReq) (a : ZArray) : option (Z * Z * ZArray) :=
  '(id, wb, a) ← preinsert v x a; a ← postinsert x req id a; Some (id, wb, a).

(** The policy can ask about every line. *)
Definition total (n : Z) (v : View) : Prop := ∀ id, 0 ≤ id < n → is_Some (v_numSharers v id) ∧ is_Some (v_isValid v id).

(** The contents of an array of [n] lines after lookups and replacements. *)
Inductive content (n : Z) : ZArray → gmap Z Z → Prop :=
  | content_new ways candidates p hf a :
      new n ways candidates p hf = Some a → 0 < n < 2 ^ 32 → repl_ok n p → (∀ w x, 0 ≤ hf w x) → content n a ∅
  | content_lookup a m x req id a' : content n a m → lookup x req a = Some (id, a') → content n a' m
  | content_insert a m v x req id wb a' :
      content n a m → x ≠ 0 → m !! x = None → total n v → insert_line v x req a = Some (id, wb, a') →
      content n a' (<[x := id]> (delete wb m)).

Definition holds (a : ZArray) (m : gmap Z Z) : Prop := ∀ x id, m !! x = Some id ↔ x ≠ 0 ∧ zlookup (array a) id = Some x.

Lemma holds_find n a m x : ok n a → holds a m → find a x = m !! x.
Proof. intros Hok Hm. apply option_eq. intros id. by rewrite (find_iff n a x id Hok), (Hm x id). Qed.

Lemma lookup_array x req (a a' : ZArray) id : lookup x req a = Some (id, a') → a' = a ∨ ∃ r p, req = Some r ∧ update id r (rp a) = Some p ∧ a' = set_rp p a ∧ id ≠ -1.
Proof.
  unfold lookup. destruct (negb _); [|done]. intros E. apply bind_Some in E as (i&_&E). destruct req as [r|]; [|injection E; auto].
  destruct (Z.eqb_spec i (-1)); [injection E; auto|]. apply bind_Some in E as (p&Hp&[= <- <-]). right. by exists r, p.
Qed.

Lemma zinsert_ok n a m v x req :
  ok n a → holds a m → x ≠ 0 → m !! x = None → total n v →
  ∃ id wb a', insert_line v x req a = Some (id, wb, a') ∧ 0 ≤ id < n ∧ zlookup (array a) id = Some wb ∧ ok n a' ∧
    holds a' (<[x := id]> (delete wb m)).
Proof.
  intros Hok Hm Hx Hmx Hv. assert (find a x = None) as Hf by (by rewrite (holds_find n a m)).
  destruct (preinsert_walk n a v x Hok Hv) as (id&wb&p&swaps&last&E&Hid&Hwb&Hp&Hr&_).
  pose proof (ok_walk n a p swaps last Hok Hp) as Hok1. set (a1 := set_walk p swaps last a) in *.
  destruct (zpostinsert_shape n a1 x req id Hok1 Hid Hr) as (p2&lines&E2&_).
  assert (find a1 x = None) as Hf1 by (rewrite <-Hf; by eapply find_same).
  destruct (postinsert_placed n a1 x req id _ Hok1 Hx Hf1 Hid Hr E2) as [Hok2 Htag].
  unfold insert_line. rewrite E; cbn [mbind option_bind]. rewrite E2; cbn [mbind option_bind]. eexists id, wb, _. split_and!; [done|lia|lia|done|exact Hok2|].
  intros y i. rewrite Htag. change (array a1) with (array a). destruct (decide (y = x)) as [->|Hyx].
  - rewrite lookup_insert_eq. case_decide as Ei; [subst; by split|]. split; [by intros [= ->]|]. intros [_ Hi].
    assert (m !! x = Some i) as Hc by (by apply Hm). congruence.
  - rewrite lookup_insert_ne by done. destruct (decide (y = wb)) as [->|Hyw].
    + rewrite lookup_delete_eq. split; [done|]. intros [Hy0 Hi]. case_decide as Ei; [congruence|].
      destruct Ei. by eapply (z_unique _ _ Hok).
    + rewrite lookup_delete_ne by done. rewrite (Hm y i). case_decide as Ei; [|done]. subst i. split; intros [? ?]; congruence.
Qed.

Lemma content_ok n a m : content n a m → ok n a ∧ holds a m.
Proof.
  induction 1 as [ways candidates p hf a E Hn Hp Hh|a m x req id a' _ [Hok Hm] E|a m v x req id wb a' _ [Hok Hm] Hx Hmx Hv E].
  - split; [by eapply znew_ok|]. intros x id. rewrite lookup_empty. split; [done|]. intros [Hx Hid]. unfold new in E.
    repeat (match type of E with (if ?b then _ else _) = _ => destruct b; [|done] end). injection E as <-. simpl in Hid.
    unfold zlookup in Hid. destruct (id <? 0); [done|]. by apply lookup_replicate in Hid as [-> _].
  - destruct (lookup_array x req a a' id E) as [->|(r&p&->&Hp&->&Hne)]; [done|]. split; [|exact Hm]. apply zok_rp; [done|].
    destruct (decide (x = 0)) as [->|Hx]; [by unfold lookup in E|]. destruct (find_scan n a x Hok Hx) as [Hs H].
    unfold lookup in E. rewrite (proj2 (Z.eqb_neq x 0) Hx), Hs in E. simpl in E. destruct (find a x) as [i|]; simpl in E; [|by injection E].
    assert (0 ≤ i < n) as Hi by (rewrite <-(z_array _ _ Hok); by eapply zlookup_range).
    rewrite (proj2 (Z.eqb_neq i (-1))) in E by lia. apply bind_Some in E as (q&Hq&E). injection E as <- Eq. 
    destruct (repl_update n (rp a) i r (z_rp _ _ Hok) Hi) as (q'&Hq'&Hok'). congruence.
  - destruct (zinsert_ok n a m v x req Hok Hm Hx Hmx Hv) as (id2&wb2&a2&E2&_&_&Hok2&Hm2). rewrite E in E2. by injection E2 as <- <- <-.
Qed.

(** C24: the zcache array is a finite map with room for its lines: after any
    sequence of lookups and replacements, a lookup finds the line of every
    address that was put in and not replaced since, and no other; a replacement
    returns (the walk ends, the swaps fit in their array, no assertion fails),
    puts the new address in a line, and takes away at most one address, the one
    it reports, whatever lines it moves; two addresses never share a line. *)
Theorem zarray_is_map n a m x v req :
  content n a m → x ≠ 0 → total n v →
  (∃ a', lookup x (Some req) a = Some (default (-1) (m !! x), a') ∧ content n a' m) ∧
  (m !! x = None → ∃ id wb a', insert_line v x req a = Some (id, wb, a') ∧ 0 ≤ id < n ∧ (wb = 0 ∨ m !! wb = Some id) ∧
     content n a' (<[x := id]> (delete wb m))) ∧
  (∀ y z id, m !! y = Some id → m !! z = Some id → y = z).
Proof.
  intros Hc Hx Hv. destruct (content_ok n a m Hc) as [Hok Hm]. split_and!.
  - destruct (@lookup_ok ZArray ZArray_array ZArray_laws n a x (Some req) Hok Hx) as (a'&E&_). simpl in E. rewrite (holds_find n a m x Hok Hm) in E.
    exists a'. split; [done|by eapply content_lookup].
  - intros Hmx. destruct (zinsert_ok n a m v x req Hok Hm Hx Hmx Hv) as (id&wb&a'&E&Hid&Hwb&_&_). exists id, wb, a'. split_and!; [done|lia|lia| |].
    + destruct (decide (wb = 0)); [by left|right]. by apply Hm.
    + by eapply content_insert.
  - intros y z id Hy Hz. apply Hm in Hy as [_ Hy]. apply Hm in Hz as [_ Hz]. congruence.
Qed.

End ZArray.
Arguments ZArray : clear implicits.
End ZArray.

(** ** Eight lines in two ways *)
Section Example.
Import ZArray.
#[local] Existing Instances LRU.LRU_policy LRU.LRU_laws.
Abbreviation zcache := (ZArray LRU.LRU).

Definition skew (w x : Z) : Z := if w =? 0 then Z.abs x else Z.abs x / 4.
Definition all_valid_view : View := mkView (λ _, Some 0) (λ _, Some true).
Definition load_of (x : Z) : MemReq := mkMemReq x GETS 0 Local 0 StI 0 0 0 0 0 0.
Definition empty_zcache : zcache := default (mkZArray [] [] (LRU.new false 0) skew 0 0 0 0 0 [] 0 0) (new 8 2 6 (LRU.new false 8) skew).

(** Addresses put into an array. *)
Fixpoint put_all (xs : list Z) (a : zcache) (m : gmap Z Z) : option (zcache * gmap Z Z) :=
  match xs with
  | [] => Some (a, m)
  | x :: xs =>
    if bool_decide (x ≠ 0 ∧ m !! x = None) then
      '(id, wb, a) ← insert_line all_valid_view x (load_of x) a; put_all xs a (<[x := id]> (delete wb m))
    else None
  end.

Lemma zview_total n : total n all_valid_view.
Proof. intros id _. split; by eexists. Qed.

Lemma put_all_content xs a m a' m' : content 8 a m → put_all xs a m = Some (a', m') → content 8 a' m'.
Proof.
  revert a m. induction xs as [|x xs IH]; intros a m Hc; simpl; [by intros [= <- <-]|].
  case_bool_decide as Hx; [|done]. intros E. apply bind_Some in E as ([[id wb] a1]&E1&E). eapply IH; [|exact E].
  eapply content_insert; [exact Hc|apply Hx|apply Hx|apply zview_total|exact E1].
Qed.

Definition filled : zcache * gmap Z Z := default (empty_zcache, ∅) (put_all [1; 2; 5; 6; 3; 9; 17] empty_zcache ∅).

Lemma filled_content : content 8 filled.1 filled.2.
Proof.
  apply (put_all_content [1; 2; 5; 6; 3; 9; 17] empty_zcache ∅).
  - apply (content_new 8 2 6 (LRU.new false 8) skew); [done|lia|done|]. intros w x. unfold skew. destruct (w =? 0); [lia|]. apply Z.div_pos; lia.
  - by vm_compute.
Qed.

(** Lines have moved; 2 makes room for 21. *)
Lemma zarray_is_map_witness :
  0 < statSwaps filled.1 ∧ filled.2 !! 9 = Some 6 ∧
  (∃ a', lookup 9 (Some (load_of 9)) filled.1 = Some (6, a')) ∧
  ∃ id wb a', insert_line all_valid_view 21 (load_of 21) filled.1 = Some (id, wb, a') ∧ content 8 a' (<[21 := id]> (delete wb filled.2)).
Proof.
  split; [by vm_compute|]. assert (filled.2 !! 9 = Some 6) as H9 by by vm_compute. split; [exact H9|]. split.
  - destruct (zarray_is_map 8 filled.1 filled.2 9 all_valid_view (load_of 9) filled_content ltac:(lia) (zview_total 8)) as ((a'&E&_)&_).
    rewrite H9 in E. exists a'. exact E.
  - destruct (zarray_is_map 8 filled.1 filled.2 21 all_valid_view (load_of 21) filled_content ltac:(lia) (zview_total 8)) as (_&Hins&_).
    destruct Hins as (id&wb&a'&E&_&_&Hc); [by vm_compute|]. exists id, wb, a'. split; [exact E|exact Hc].
Defined.

End Example.
