(* ===== verification/ZsimCoherence.v ===== *)
(** * Coherent caches of zsim ([zsim-ramulator/src/coherence_ctrls.h],
    [zsim-ramulator/src/coherence_ctrls.cpp], [zsim-ramulator/src/cache.cpp],
    [zsim-ramulator/src/filter_cache.h])

    A [Cache] with its coherence controller: the bottom half ([MESIBottomCC],
    functions [bcc_*]) keeps the state of the lines towards the parents, the top
    half ([MESITopCC], [tcc_*]) the sharers among the children.  An access goes up
    the hierarchy ([access]) and an invalidation down ([invalidate]); both take
    the number of levels that are left as fuel.  Virtual calls are branches on
    [terminal] ([MESITerminalCC] or [MESICC]) and on whether a cache has a filter
    ([FilterCache]).  [load] and [store] are what a core calls. *)

From S2P Require Import Prelude ZsimMem ZsimRepl ZsimArray.

(** A memory controller's [access]: the state it gives to the requester and the
    cycle of the response. *)
Class MemController (D : Type) := mem_access : MemReq → D → option (MESIState * Z * D).
(** Its [offload], when it has one. *)
Class MemOffload (D : Type) := mem_offload : offloadInfo → D → option D.

Section Ops.
Context {A D : Type} `{!CacheArray A} `{!MemController D}.
Abbreviation sys := (Sys A D).
Abbreviation comp := (M sys).

(** [getParentId(lineAddr)] *)
Definition getParentId (lineAddr : Z) (n : nat) : option Z :=
  let piece i := u32 (Z.land 65535 (Z.shiftr lineAddr (16 * i))) in
  assert! negb (Z.of_nat n =? 0);
  Some (Z.rem (Z.lxor (Z.lxor (Z.lxor (piece 0) (piece 1)) (piece 2)) (piece 3)) (Z.of_nat n)).

(** [CheckForMESIRace(type, state, initialState)]: whether to skip the access, and
    the type it becomes. *)
Definition CheckForMESIRace (t : AccessType) (s initialState : MESIState) : option (bool * AccessType) :=
  if decide (s = initialState) then Some (false, t)
  else
    match t with
    | PUTS | PUTX =>
      if decide (s = StI) then Some (true, t)
      else assert! bool_decide (s = StS); Some (false, PUTS)
    | GETX =>
      assert! bool_decide (initialState = StS);
      assert! bool_decide (s = StI);
      Some (false, t)
    | GETS => None
    end.

(** *** Invalidations *)

(** [MESIBottomCC::processInval]: whether a writeback is requested. *)
Definition bcc_processInval (i : nat) (lineId : Z) (t : InvType) : comp bool :=
  s ⇐ bcc_state i lineId;
  assertM (bool_decide (s ≠ StI));;
  match t with
  | INVX =>
    assertM (bool_decide (s = StE ∨ s = StM));;
    set_bcc_state i lineId StS;;
    count i profINVX 1;;
    ret (bool_decide (s = StM))
  | INV =>
    set_bcc_state i lineId StI;;
    count i profINV 1;;
    ret (bool_decide (s = StM))
  | FWD =>
    assertM (bool_decide (s = StS));;
    count i profFWD 1;;
    ret false
  end.

Definition set_sharer (x : bool) (c : Z) (e : Entry) : option Entry :=
  l ← upd_child (λ _, Some x) (sharers e) c; Some (mkEntry (numSharers e) l (exclusive e)).
Definition set_numSharers (x : Z) (e : Entry) : Entry := mkEntry x (sharers e) (exclusive e).
Definition set_exclusive (x : bool) (e : Entry) : Entry := mkEntry (numSharers e) (sharers e) x.

Section Sends.
(** [children[c]->invalidate(req)]: the cycle of the response and whether a
    writeback was requested. *)
Variable inv : nat → InvReq → comp (Z * bool).

(** The loop of [sendInvalidates] over the children [c, c + 1, ...]: the number
    of invalidations sent, the last response and whether a writeback was
    requested. *)
Fixpoint send_loop (i : nat) (lineId : Z) (req : InvReq) (cs : list nat) (c : Z) : comp (Z * Z * bool) :=
  match cs with
  | [] => ret (0, inv_cycle req, false)
  | child :: cs =>
    e ⇐ tcc_entry i lineId;
    shared ⇐ lift (zlookup (sharers e) c);
    if (shared : bool) then
      '(respCycle, wb) ⇐ inv child req;
      me ⇐ cache i;
      rtt ⇐ lift (zlookup (childrenRTTs me) c);
      (if decide (itype req = INV) then upd_entry i lineId (set_sharer false c) else ret tt);;
      '(sent, maxCycle, wb') ⇐ send_loop i lineId req cs (c + 1);
      ret (sent + 1, Z.max (respCycle + rtt) maxCycle, wb || wb')
    else send_loop i lineId req cs (c + 1)
  end.

(** [MESITopCC::sendInvalidates] *)
Definition sendInvalidates (i : nat) (lineAddr : Z) (lineId : Z) (t : InvType) (cycle srcId : Z) : comp (Z * bool) :=
  e ⇐ tcc_entry i lineId;
  if bool_decide (t = INVX) && negb (isExclusive e) then ret (cycle, false)
  else if isEmpty e then ret (cycle, false)
  else
    me ⇐ cache i;
    '(sentInvs, maxCycle, wb) ⇐ send_loop i lineId (mkInvReq lineAddr t cycle srcId) (children me) 0;
    e ⇐ tcc_entry i lineId;
    assertM (sentInvs =? numSharers e);;
    (if decide (t = INV) then upd_entry i lineId (λ e, Some (set_numSharers 0 e))
     else
       assertM (exclusive e);;
       assertM (numSharers e =? 1);;
       upd_entry i lineId (λ e, Some (set_exclusive false e)));;
    ret (maxCycle, wb).

(** [MESITopCC::processInval] *)
Definition tcc_processInval (i : nat) (lineAddr lineId : Z) (t : InvType) (cycle srcId : Z) : comp (Z * bool) :=
  match t with
  | FWD => me ⇐ cache i; assertM (negb (nonInclusiveHack me));; ret (cycle, false)
  | _ => sendInvalidates i lineAddr lineId t cycle srcId
  end.

(** [CC::processInv] *)
Definition cc_processInv (i : nat) (req : InvReq) (lineId cycle : Z) : comp (Z * bool) :=
  me ⇐ cache i;
  '(respCycle, wb) ⇐ (if terminal me then ret (cycle, false)
                      else tcc_processInval i (inv_lineAddr req) lineId (itype req) cycle (inv_srcId req));
  wb' ⇐ bcc_processInval i lineId (itype req);
  ret (respCycle, wb || wb').

(** [Cache::finishInvalidate] *)
Definition finishInvalidate (i : nat) (req : InvReq) : comp (Z * bool) :=
  me ⇐ cache i;
  '(lineId, a) ⇐ lift (lookup (inv_lineAddr req) None (array me));
  upd_cache i (λ c, Some (set_array a c));;
  assertM (negb (lineId =? -1));;
  cc_processInv i req lineId (inv_cycle req + invLat me).

(** [MESITopCC::processEviction] *)
Definition tcc_processEviction (i : nat) (wbLineAddr lineId cycle srcId : Z) : comp (Z * bool) :=
  me ⇐ cache i;
  if nonInclusiveHack me then upd_entry i lineId (λ _, Some clear);; ret (cycle, false)
  else sendInvalidates i wbLineAddr lineId INV cycle srcId.

(** [MESITopCC::processAccess] *)
Definition remove_sharer (i : nat) (lineId c : Z) : comp unit :=
  e ⇐ tcc_entry i lineId;
  shared ⇐ lift (zlookup (sharers e) c);
  assertM shared;;
  upd_entry i lineId (λ e, e ← set_sharer false c e; Some (set_numSharers (numSharers e - 1) e)).

Definition tcc_processAccess (i : nat) (lineAddr lineId : Z) (t : AccessType) (childId : Z) (haveExclusive : bool)
    (childState : StatePtr) (cycle srcId flags : Z) : comp (Z * bool) :=
  e ⇐ tcc_entry i lineId;
  match t with
  | PUTX =>
    assertM (isExclusive e);;
    if flag_set flags PUTX_KEEPEXCL then
      shared ⇐ lift (zlookup (sharers e) childId);
      assertM shared;;
      s ⇐ read_state childState;
      assertM (bool_decide (s = StM));;
      write_state childState StE;;
      ret (cycle, false)
    else
      remove_sharer i lineId childId;;
      write_state childState StI;;
      ret (cycle, false)
  | PUTS =>
    remove_sharer i lineId childId;;
    write_state childState StI;;
    ret (cycle, false)
  | GETS =>
    if isEmpty e && haveExclusive && negb (flag_set flags NOEXCL) then
      upd_entry i lineId (λ e, e ← set_sharer true childId e; Some (set_numSharers 1 (set_exclusive true e)));;
      write_state childState StE;;
      ret (cycle, false)
    else
      shared ⇐ lift (zlookup (sharers e) childId);
      assertM (negb shared);;
      '(respCycle, wb) ⇐ (if isExclusive e then sendInvalidates i lineAddr lineId INVX cycle srcId else ret (cycle, false));
      e ⇐ tcc_entry i lineId;
      assertM (negb (isExclusive e));;
      upd_entry i lineId (λ e, e ← set_sharer true childId e; Some (set_numSharers (numSharers e + 1) (set_exclusive false e)));;
      write_state childState StS;;
      ret (respCycle, wb)
  | GETX =>
    assertM haveExclusive;;
    shared ⇐ lift (zlookup (sharers e) childId);
    (if (shared : bool) then assertM (negb (isExclusive e));; remove_sharer i lineId childId else ret tt);;
    '(respCycle, wb) ⇐ sendInvalidates i lineAddr lineId INV cycle srcId;
    upd_entry i lineId (λ e, e ← set_sharer true childId e; Some (set_numSharers (numSharers e + 1) (set_exclusive true e)));;
    e ⇐ tcc_entry i lineId;
    assertM (numSharers e =? 1);;
    write_state childState StM;;
    ret (respCycle, wb)
  end.

End Sends.

(** What [FilterCache::invalidate] does before [finishInvalidate]. *)
Definition filter_invalidate (i : nat) (req : InvReq) : comp unit :=
  pm ⇐ gets procMask;
  upd_cache i (λ c, match l0 c with
                    | Some f => f ← FilterCache.drop pm (inv_lineAddr req) f; Some (set_l0 (Some f) c)
                    | None => Some c
                    end).

(** [Cache::invalidate] and [FilterCache::invalidate] *)
Fixpoint invalidate (fuel : nat) (i : nat) (req : InvReq) : comp (Z * bool) :=
  match fuel with
  | O => fail
  | S fuel => filter_invalidate i req;; finishInvalidate (invalidate fuel) i req
  end.

(** *** Accesses *)
Section Up.
Variable inv : nat → InvReq → comp (Z * bool).
(** [parents[p]->access(req)] *)
Variable up : MemObject → MemReq → comp Z.

Definition bcc_parent (i : nat) (lineAddr : Z) : comp (Z * MemObject) :=
  me ⇐ cache i;
  p ⇐ lift (getParentId lineAddr (length (parents me)));
  o ⇐ lift (zlookup (parents me) p);
  ret (p, o).

(** The request a bottom controller makes for one of its lines. *)
Definition bcc_request (i : nat) (me : ZCache A) (lineAddr lineId : Z) (t : AccessType) (s : MESIState)
    (cycle srcId flags previous_instructions coreId flagsTraces readAddr : Z) : MemReq :=
  mkMemReq lineAddr t (selfId me) (LineState i lineId) cycle s srcId flags previous_instructions coreId flagsTraces readAddr.

(** [MESIBottomCC::processEviction] *)
Definition bcc_processEviction (i : nat) (wbLineAddr lineId : Z) (lowerLevelWriteback : bool) (cycle : Z) (trigger : MemReq) : comp Z :=
  s ⇐ bcc_state i lineId;
  (if lowerLevelWriteback then
     assertM (bool_decide (s = StM ∨ s = StE));;
     set_bcc_state i lineId StM
   else ret tt);;
  s ⇐ bcc_state i lineId;
  me ⇐ cache i;
  respCycle ⇐
    (if decide (s = StI) then ret cycle
     else
       '(_, parent) ⇐ bcc_parent i wbLineAddr;
       up parent (bcc_request i me wbLineAddr lineId (if decide (s = StM) then PUTX else PUTS) s cycle
         (srcId trigger) 0 (previous_instructions trigger) (u32 (coreId trigger)) (flagsTraces trigger) (lineAddr trigger)));
  s ⇐ bcc_state i lineId;
  assertM (bool_decide (s = StI));;
  ret respCycle.

(** The part of [processAccess] that asks the parent for a line. *)
Definition fetch (i : nat) (lineId : Z) (t : AccessType) (s : MESIState) (cycle flags : Z) (req : MemReq) : comp Z :=
  me ⇐ cache i;
  '(parentId, parent) ⇐ bcc_parent i (lineAddr req);
  respCycle ⇐ up parent (bcc_request i me (lineAddr req) lineId t s cycle (srcId req) flags
    (previous_instructions req) (u32 (coreId req)) (flagsTraces req) 0);
  let nextLevelLat := u32 (respCycle - cycle) in
  netLat ⇐ lift (zlookup (parentRTTs me) parentId);
  count i profGETNextLevelLat nextLevelLat;;
  count i profGETNetLat netLat;;
  ret (cycle + u32 (nextLevelLat + netLat)).

(** [MESIBottomCC::processAccess] *)
Definition bcc_processAccess (i : nat) (lineId cycle flags : Z) (req : MemReq) : comp Z :=
  s ⇐ bcc_state i lineId;
  respCycle ⇐
    match atype req with
    | PUTS =>
      assertM (bool_decide (s ≠ StI));;
      count i profPUTS 1;;
      ret cycle
    | PUTX =>
      assertM (bool_decide (s = StM ∨ s = StE));;
      (if decide (s = StE) then set_bcc_state i lineId StM else ret tt);;
      count i profPUTX 1;;
      ret cycle
    | GETS =>
      if decide (s = StI) then
        r ⇐ fetch i lineId GETS s cycle flags req;
        count i profGETSMiss 1;;
        ret r
      else count i profGETSHit 1;; ret cycle
    | GETX =>
      r ⇐ (if decide (s = StI ∨ s = StS) then
             count i (if decide (s = StI) then profGETXMissIM else profGETXMissSM) 1;;
             fetch i lineId GETX s cycle flags req
           else
             (if decide (s = StE) then set_bcc_state i lineId StM else ret tt);;
             count i profGETXHit 1;;
             ret cycle);
      s ⇐ bcc_state i lineId;
      assertM (bool_decide (s = StM));;
      ret r
    end;
  assertM (cycle <=? respCycle);;
  ret respCycle.

(** [MESIBottomCC::processWritebackOnAccess] *)
Definition bcc_processWritebackOnAccess (i : nat) (lineId : Z) : comp unit :=
  s ⇐ bcc_state i lineId;
  assertM (bool_decide (s = StM ∨ s = StE));;
  if decide (s = StE) then set_bcc_state i lineId StM else ret tt.

(** [MESIBottomCC::processNonInclusiveWriteback] *)
Definition bcc_processNonInclusiveWriteback (i : nat) (cycle : Z) (req : MemReq) : comp Z :=
  me ⇐ cache i;
  assertM (nonInclusiveHack me);;
  '(_, parent) ⇐ bcc_parent i (lineAddr req);
  s ⇐ read_state (state req);
  up parent (mkMemReq (lineAddr req) (atype req) (selfId me) (state req) cycle s (srcId req)
    (Z.lor (flags req) NONINCLWB) (previous_instructions req) (u32 (coreId req)) (flagsTraces req) 0).

(** [CC::startAccess]: whether to skip the access, and the request, whose type
    may change. *)
Definition cc_startAccess (me : ZCache A) (req : MemReq) : comp (bool * MemReq) :=
  assertM (if terminal me then IsGet (atype req) else true);;
  s ⇐ read_state (state req);
  '(skip, t) ⇐ lift (CheckForMESIRace (atype req) s (initialState req));
  ret (skip, set_atype t req).

(** [CC::shouldAllocate]; [None] is a panic. *)
Definition cc_shouldAllocate (me : ZCache A) (req : MemReq) : option bool :=
  if terminal me then Some true
  else if IsGet (atype req) then Some true
  else assert! nonInclusiveHack me; Some false.

(** [CC::processEviction] *)
Definition cc_processEviction (i : nat) (trigger : MemReq) (wbLineAddr lineId cycle : Z) : comp Z :=
  me ⇐ cache i;
  '(evCycle, wb) ⇐ (if terminal me then ret (cycle, false) else tcc_processEviction inv i wbLineAddr lineId cycle (srcId trigger));
  bcc_processEviction i wbLineAddr lineId wb evCycle trigger.

Definition bcc_isValid (i : nat) (lineId : Z) : comp bool := s ⇐ bcc_state i lineId; ret (bool_decide (s ≠ StI)).
Definition bcc_isExclusive (i : nat) (lineId : Z) : comp bool := s ⇐ bcc_state i lineId; ret (bool_decide (s = StE ∨ s = StM)).

(** [MESICC::processAccess] for a line of the cache. *)
Definition cc_processLine (i : nat) (req : MemReq) (lineId cycle : Z) : comp Z :=
  let isPrefetch := flag_set (flags req) PREFETCH in
  assertM (negb isPrefetch || bool_decide (atype req = GETS));;
  let flags := Z.ldiff (flags req) PREFETCH in
  respCycle ⇐ bcc_processAccess i lineId cycle flags req;
  if isPrefetch then ret respCycle
  else
    haveExclusive ⇐ bcc_isExclusive i lineId;
    '(respCycle, wb) ⇐ tcc_processAccess inv i (lineAddr req) lineId (atype req) (childId req) haveExclusive (state req)
      respCycle (srcId req) flags;
    (if (wb : bool) then bcc_processWritebackOnAccess i lineId else ret tt);;
    ret respCycle.

(** [CC::processAccess] *)
Definition cc_processAccess (i : nat) (req : MemReq) (lineId cycle : Z) : comp Z :=
  me ⇐ cache i;
  if terminal me then
    assertM (negb (lineId =? -1));;
    bcc_processAccess i lineId cycle (flags req) req
  else
    bypass ⇐ (if lineId =? -1 then ret true
              else if IsGet (atype req) then ret false
              else valid ⇐ bcc_isValid i lineId; ret (negb valid));
    if (bypass : bool) then
      assertM (nonInclusiveHack me);;
      assertM (negb (IsGet (atype req)));;
      bcc_processNonInclusiveWriteback i cycle req
    else cc_processLine i req lineId cycle.

(** What the replacement policy sees: [numSharers] and [isValid]. *)
Definition view_of (me : ZCache A) : View :=
  mkView (λ id, if terminal me then Some 0 else numSharers <$> zlookup (tcc me) id)
         (λ id, (λ s, bool_decide (s ≠ StI)) <$> zlookup (bcc me) id).

(** Making room for a line: the line and its place. *)
Definition allocate (i : nat) (req : MemReq) (cycle : Z) : comp Z :=
  me ⇐ cache i;
  '((lineId, wbLineAddr), a) ⇐ lift (preinsert (view_of me) (lineAddr req) (array me));
  upd_cache i (λ c, Some (set_array a c));;
  _ ⇐ cc_processEviction i req wbLineAddr lineId cycle;
  upd_cache i (λ c, a ← postinsert (lineAddr req) req lineId (array c); Some (set_array a c));;
  ret lineId.

(** [Cache::access] *)
Definition cache_access (i : nat) (req : MemReq) : comp Z :=
  me ⇐ cache i;
  '(skip, req) ⇐ cc_startAccess me req;
  respCycle ⇐
    (if (skip : bool) then ret (cycle req)
     else
       '(lineId, a) ⇐ lift (lookup (lineAddr req) (if IsGet (atype req) then Some req else None) (array me));
       upd_cache i (λ c, Some (set_array a c));;
       let respCycle := cycle req + accLat me in
       lineId ⇐ (if lineId =? -1 then
                   alloc ⇐ lift (cc_shouldAllocate me req);
                   if (alloc : bool) then allocate i req respCycle else ret (-1)
                 else ret lineId);
       cc_processAccess i req lineId respCycle);
  assertM (cycle req <=? respCycle);;
  ret respCycle.

End Up.

(** [MemObject::access] *)
Fixpoint access (fuel : nat) (o : MemObject) (req : MemReq) : comp Z :=
  match fuel with
  | O => fail
  | S fuel =>
    match o with
    | CacheObj i => cache_access (invalidate fuel) (access fuel) i req
    | MemObj j =>
      d ⇐ gets (λ s, mems s !! j);
      d ⇐ lift d;
      '((s, respCycle), d) ⇐ lift (mem_access req d);
      modify (λ s, Some (set_mems (<[j := d]> (mems s)) s));;
      write_state (state req) s;;
      ret respCycle
    end
  end.

(** *** The accesses of a core: [FilterCache] *)
(** The request of a core that misses in its filter, and its access with
    [dummyState]: the first half of [replace]. *)
Definition core_request (lineAddr : Z) (isLoad : bool) (curCycle srcId reqFlags instrs : Z) : MemReq :=
  mkMemReq lineAddr (if isLoad then GETS else GETX) 0 Local curCycle StI srcId reqFlags instrs srcId 0 0.
Definition core_access (fuel : nat) (p : nat) (lineAddr : Z) (isLoad : bool) (curCycle srcId reqFlags instrs : Z) : comp Z :=
  modify (λ s, Some (set_local_state StI s));;
  access fuel (CacheObj p) (core_request lineAddr isLoad curCycle srcId reqFlags instrs).

Definition filter_of (p : nat) : comp FilterCache.FilterCache := c ⇐ cache p; lift (l0 c).
Definition upd_filter (p : nat) (g : FilterCache.FilterCache → option FilterCache.FilterCache) : comp unit :=
  upd_cache p (λ c, f ← l0 c; f ← g f; Some (set_l0 (Some f) c)).

(** [FilterCache::replace] *)
Definition replace (fuel : nat) (p : nat) (vLineAddr idx : Z) (isLoad : bool) (curCycle instrs : Z) : comp Z :=
  f ⇐ filter_of p;
  pm ⇐ gets procMask;
  respCycle ⇐ core_access fuel p (Z.lor pm vLineAddr) isLoad curCycle (FilterCache.srcId f) (FilterCache.reqFlags f) instrs;
  upd_filter p (FilterCache.fill vLineAddr idx isLoad respCycle);;
  ret respCycle.

(** [FilterCache::load] and [FilterCache::store] *)
Definition load (fuel : nat) (lineBits : Z) (p : nat) (vAddr curCycle instrs : Z) : comp Z :=
  f ⇐ filter_of p;
  let vLineAddr := Z.shiftr vAddr lineBits in
  let idx := FilterCache.index f vLineAddr in
  e ⇐ lift (zlookup (FilterCache.filterArray f) idx);
  if vLineAddr =? FilterCache.rdAddr e then
    upd_filter p (λ f, Some (FilterCache.set_hits (FilterCache.fGETSHit f + 1) (FilterCache.fGETXHit f) f));;
    ret (Z.max curCycle (FilterCache.availCycle e))
  else replace fuel p vLineAddr idx true curCycle instrs.
Definition store (fuel : nat) (lineBits : Z) (p : nat) (vAddr curCycle instrs : Z) : comp Z :=
  f ⇐ filter_of p;
  let vLineAddr := Z.shiftr vAddr lineBits in
  let idx := FilterCache.index f vLineAddr in
  e ⇐ lift (zlookup (FilterCache.filterArray f) idx);
  if vLineAddr =? FilterCache.wrAddr e then
    upd_filter p (λ f, Some (FilterCache.set_hits (FilterCache.fGETSHit f) (FilterCache.fGETXHit f + 1) f));;
    ret (Z.max curCycle (FilterCache.availCycle e))
  else replace fuel p vLineAddr idx false curCycle instrs.

(** [FilterCache::contextSwitch] *)
Definition contextSwitch (p : nat) : comp unit := upd_filter p (λ f, Some (FilterCache.contextSwitch f)).

(** *** Connections and messages *)
(** [setParents] and [MESIBottomCC::init]: the round trip to an object is given
    by the network, if there is one. *)
Definition setParents (childId : Z) (ps : list MemObject) (network : option (MemObject → Z)) (numLines : nat) (c : ZCache A) : ZCache A :=
  mkZCache A (terminal c) (nonInclusiveHack c) childId ps
    (map (λ o, match network with Some getRTT => getRTT o | None => 0 end) ps) (replicate numLines StI) (λ _, 0)
    (children c) (childrenRTTs c) (tcc c) (array c) (accLat c) (invLat c) (l0 c).

(** [setChildren] and [MESITopCC::init]; a terminal cache panics. *)
Definition setChildren (cs : list nat) (network : option (nat → Z)) (numLines : nat) (c : ZCache A) : option (ZCache A) :=
  assert! negb (terminal c);
  assert! (length cs <=? MAX_CACHE_CHILDREN)%nat;
  Some (mkZCache A (terminal c) (nonInclusiveHack c) (selfId c) (parents c) (parentRTTs c) (bcc c) (prof c) cs
          (map (λ o, match network with Some getRTT => getRTT o | None => 0 end) cs) (replicate numLines clear)
          (array c) (accLat c) (invLat c) (l0 c)).

(** [Cache::offload], [CC::offload] and [MESIBottomCC::offload]: the message goes
    up to the memory of its address. *)
Fixpoint offload `{!MemOffload D} (fuel : nat) (o : MemObject) (info : offloadInfo) : comp unit :=
  match fuel with
  | O => fail
  | S fuel =>
    match o with
    | CacheObj i =>
      '(_, parent) ⇐ bcc_parent i (if negb (st_addr info =? 0) then st_addr info else ld_addr info);
      offload fuel parent info
    | MemObj j =>
      d ⇐ gets (λ s, mems s !! j);
      d ⇐ lift d;
      d ⇐ lift (mem_offload info d);
      modify (λ s, Some (set_mems (<[j := d]> (mems s)) s))
    end
  end.

End Ops.
