(* ===== verification/ZsimInv.v ===== *)
(** * The invariant of a system of caches

    Total-correctness rules for the programs of [ZsimCoherence.v], how caches are
    linked, what holds between a cache and its children, and the
    representation of a system by the states of its lines. *)

From S2P Require Import Prelude ZsimMem ZsimRepl ZsimArray ZsimCoherence.

(** ** How the caches of a hierarchy are linked

    [Node] is the fixed part of a cache: its parents, its children and its place
    among them; [net_ok] says how a configuration may link them.  [runs] is
    total correctness of a computation. *)

(** ** Total correctness *)
Section Runs.
Context {T : Type}.

Definition runs {X} (m : M T X) (Q : X → T → Prop) (s : T) : Prop := ∃ x s', m s = Some (x, s') ∧ Q x s'.

Lemma runs_mono {X} (m : M T X) (Q Q' : X → T → Prop) s : runs m Q s → (∀ x s', Q x s' → Q' x s') → runs m Q' s.
Proof. intros (x&s'&E&H) HQ. exists x, s'. auto. Qed.
Lemma runs_ret {X} (x : X) (Q : X → T → Prop) s : Q x s → runs (ret x) Q s.
Proof. intros H. by exists x, s. Qed.
Lemma runs_bind {X Y} (m : M T X) (f : X → M T Y) Q s : runs m (λ x s, runs (f x) Q s) s → runs (bind m f) Q s.
Proof. intros (x&s'&E&y&s2&E'&H). exists y, s2. split; [|done]. unfold bind. rewrite E; simpl. done. Qed.
Lemma runs_assert b (Q : unit → T → Prop) s : b = true → Q tt s → runs (assertM b) Q s.
Proof. intros -> H. by apply runs_ret. Qed.
Lemma runs_lift {X} (o : option X) x (Q : X → T → Prop) s : o = Some x → Q x s → runs (lift o) Q s.
Proof. intros -> H. by exists x, s. Qed.

(** Where a computation starts with another. *)
Lemma runs_then {X Y} (m : M T X) (f : X → M T Y) (P : X → T → Prop) Q s :
  runs m P s → (∀ x s', P x s' → runs (f x) Q s') → runs (bind m f) Q s.
Proof. intros H HQ. apply runs_bind. by eapply runs_mono. Qed.
End Runs.

(** ** The fixed part of a system *)
Record Node := mkNode {
  nd_terminal : bool; nd_nih : bool; nd_self : Z; nd_parents : list MemObject; nd_parentRTTs : list Z;
  nd_children : list nat; nd_childrenRTTs : list Z; nd_accLat : Z; nd_invLat : Z; nd_lines : Z;
  nd_filter : option (Z * Z * Z)
}.
(** The mask, the source and the flags of a filter. *)
Definition filter_node (f : FilterCache.FilterCache) : Z * Z * Z :=
  (FilterCache.setMask f, FilterCache.srcId f, FilterCache.reqFlags f).
Definition node_of {A} (c : ZCache A) : Node :=
  mkNode (terminal c) (nonInclusiveHack c) (selfId c) (parents c) (parentRTTs c) (children c) (childrenRTTs c)
    (accLat c) (invLat c) (Z.of_nat (length (bcc c))) (filter_node <$> l0 c).

Section Net.
Variable net : list Node.
Variable lvl : nat → nat.

(** The parent of cache [i] for an address. *)
Definition parent_of (i : nat) (a : Z) : option MemObject :=
  n ← net !! i; p ← getParentId a (length (nd_parents n)); zlookup (nd_parents n) p.
(** All children of [p] ask [p] for the address. *)
Definition routed (p : nat) (a : Z) : Prop :=
  ∀ n k c, net !! p = Some n → nd_children n !! k = Some c → parent_of c a = Some (CacheObj p).

(** The levels [lvl] grow towards the memory; parents and children agree; the
    banks a cache is attached to all have the same children; and for every
    address there is one cache that asks the memory. *)
Record net_ok (mems : nat) : Prop := {
  net_incl i n : net !! i = Some n → nd_nih n = false;
  net_lat i n : net !! i = Some n → 0 ≤ nd_accLat n ∧ 0 ≤ nd_invLat n ∧
    Forall (λ x, 0 ≤ x) (nd_childrenRTTs n) ∧ length (nd_parentRTTs n) = length (nd_parents n) ∧
    length (nd_childrenRTTs n) = length (nd_children n);
  net_parent i n : net !! i = Some n → nd_parents n ≠ [];
  net_up i n p : net !! i = Some n → CacheObj p ∈ nd_parents n →
    ∃ np, net !! p = Some np ∧ nd_terminal np = false ∧ 0 ≤ nd_self n ∧ nd_children np !! Z.to_nat (nd_self n) = Some i;
  net_down p np k c : net !! p = Some np → nd_children np !! k = Some c →
    ∃ n, net !! c = Some n ∧ nd_self n = Z.of_nat k ∧ CacheObj p ∈ nd_parents n ∧ (lvl c < lvl p)%nat;
  net_mem i n j : net !! i = Some n → MemObj j ∈ nd_parents n → (j < mems)%nat;
  net_siblings p np k k' c c' n n' : net !! p = Some np → nd_children np !! k = Some c → nd_children np !! k' = Some c' →
    net !! c = Some n → net !! c' = Some n' → nd_parents n = nd_parents n';
  net_width i n : net !! i = Some n → (length (nd_children n) ≤ MAX_CACHE_CHILDREN)%nat;
  net_terminal i n : net !! i = Some n → nd_terminal n = true → nd_children n = [];
  net_root a i i' j j' : parent_of i a = Some (MemObj j) → parent_of i' a = Some (MemObj j') →
    routed i a → routed i' a → i = i'
}.

(** [j] is [i] or reaches it through its parents for the address. *)
Inductive below (a : Z) (i : nat) : nat → Prop :=
  | below_refl : below a i i
  | below_step j p : parent_of j a = Some (CacheObj p) → below a i p → below a i j.

Context {mems : nat} (Hnet : net_ok mems).

Lemma parent_elem i a o : parent_of i a = Some o → ∃ n, net !! i = Some n ∧ o ∈ nd_parents n.
Proof.
  unfold parent_of. intros H. apply bind_Some in H as (n&Hn&H). apply bind_Some in H as (p&_&H).
  exists n. split; [done|]. unfold zlookup in H. destruct (p <? 0); [done|]. by eapply list_elem_of_lookup_2.
Qed.

Lemma parent_lvl i a p : parent_of i a = Some (CacheObj p) → (lvl i < lvl p)%nat.
Proof.
  intros H. destruct (parent_elem i a _ H) as (n&Hn&Hp). destruct (net_up _ Hnet i n p Hn Hp) as (np&Hnp&_&_&Hc).
  destruct (net_down _ Hnet p np _ i Hnp Hc) as (_&_&_&_&Hl). done.
Qed.

Lemma below_lvl a i j : below a i j → (lvl j ≤ lvl i)%nat ∧ (j ≠ i → lvl j < lvl i)%nat.
Proof.
  induction 1 as [|j p Hp _ [IH _]]; [done|]. pose proof (parent_lvl _ _ _ Hp). lia.
Qed.

Lemma below_trans a i j k : below a i j → below a j k → below a i k.
Proof. intros H. induction 1; [done|]. by eapply below_step. Qed.

Lemma below_cases a i j : below a i j → j = i ∨ ∃ p, parent_of j a = Some (CacheObj p) ∧ below a i p.
Proof. destruct 1; eauto. Qed.

(** Two caches above another are above each other. *)
Lemma below_comparable a i i' j : below a i j → below a i' j → below a i i' ∨ below a i' i.
Proof.
  induction 1 as [|j p Hp H IH]; [by right|]. intros H'. destruct (below_cases _ _ _ H') as [->|(p'&Hp'&H2)].
  - left. by eapply below_step.
  - apply IH. congruence.
Qed.

Lemma siblings_disjoint a p i i' j :
  parent_of i a = Some (CacheObj p) → parent_of i' a = Some (CacheObj p) → i ≠ i' → below a i j → below a i' j → False.
Proof.
  intros Hi Hi' Hne H H'. destruct (below_comparable _ _ _ _ H H') as [Hb|Hb].
  - destruct (below_cases _ _ _ Hb) as [->|(q&Hq&Hb')]; [done|]. assert (q = p) as -> by congruence.
    pose proof (parent_lvl _ _ _ Hi). destruct (below_lvl _ _ _ Hb'). lia.
  - destruct (below_cases _ _ _ Hb) as [->|(q&Hq&Hb')]; [done|]. assert (q = p) as -> by congruence.
    pose proof (parent_lvl _ _ _ Hi'). destruct (below_lvl _ _ _ Hb'). lia.
Qed.

(** Being below is decidable: the levels are finite. *)
Lemma below_or_not a i j : below a i j ∨ ¬ below a i j.
Proof.
  remember (lvl i - lvl j)%nat as d eqn:Hd. revert j Hd. induction (lt_wf d) as [d _ IH]. intros j Hd.
  destruct (decide (j = i)) as [->|Hne]; [left; constructor|].
  destruct (parent_of j a) as [[p|k]|] eqn:Hp.
  - pose proof (parent_lvl _ _ _ Hp). destruct (decide (lvl p ≤ lvl i)%nat) as [Hle|Hgt].
    + destruct (IH (lvl i - lvl p)%nat ltac:(lia) p eq_refl) as [Hb|Hb]; [left; by eapply below_step|right].
      intros Hj. destruct (below_cases _ _ _ Hj) as [->|(q&Hq&Hb')]; [done|]. congruence.
    + right. intros Hj. destruct (below_cases _ _ _ Hj) as [->|(q&Hq&Hb')]; [done|]. assert (q = p) as -> by congruence.
      destruct (below_lvl _ _ _ Hb'). lia.
  - right. intros Hj. destruct (below_cases _ _ _ Hj) as [->|(q&Hq&_)]; [done|]. congruence.
  - right. intros Hj. destruct (below_cases _ _ _ Hj) as [->|(q&Hq&_)]; [done|]. congruence.
Qed.

Lemma parent_total i n a : net !! i = Some n → ∃ o, parent_of i a = Some o.
Proof.
  intros Hn. unfold parent_of. rewrite Hn; cbn [mbind option_bind]. pose proof (net_parent _ Hnet i n Hn) as Hne.
  assert (0 < length (nd_parents n))%nat as Hlen by (destruct (nd_parents n); simpl; [done|lia]).
  unfold getParentId. rewrite (proj2 (Z.eqb_neq (Z.of_nat (length (nd_parents n))) 0)) by lia. cbn [negb mbind option_bind].
  apply zlookup_is_Some. apply Z.rem_bound_pos; [|lia].
  assert (∀ i, 0 ≤ u32 (Z.land 65535 (Z.shiftr a (16 * i)))) as Hp.
  { intros k. unfold u32. apply Z.land_nonneg. by right. }
  rewrite !Z.lxor_nonneg. pose proof (Hp 0). pose proof (Hp 1). pose proof (Hp 2). pose proof (Hp 3). tauto.
Qed.

(** A parent for an address is the parent of all its children. *)
Lemma parent_routed i a p : parent_of i a = Some (CacheObj p) → routed p a.
Proof.
  intros H np k c Hnp Hc. destruct (parent_elem i a _ H) as (n&Hn&Hp).
  destruct (net_up _ Hnet i n p Hn Hp) as (np'&Hnp'&_&_&Hi). assert (np' = np) as -> by congruence.
  destruct (net_down _ Hnet p np k c Hnp Hc) as (nc&Hnc&_&_&_).
  pose proof (net_siblings _ Hnet p np _ _ _ _ _ _ Hnp Hi Hc Hn Hnc) as Es.
  unfold parent_of in *. rewrite Hn in H. rewrite Hnc. simpl in *. by rewrite <-Es.
Qed.

Lemma child_self i a p np n :
  parent_of i a = Some (CacheObj p) → net !! i = Some n → net !! p = Some np →
  nd_terminal np = false ∧ 0 ≤ nd_self n ∧ nd_children np !! Z.to_nat (nd_self n) = Some i.
Proof.
  intros H Hn Hnp. destruct (parent_elem i a _ H) as (n'&Hn'&Hp). assert (n' = n) as -> by congruence.
  destruct (net_up _ Hnet i n p Hn Hp) as (np'&Hnp'&?). assert (np' = np) as -> by congruence. done.
Qed.

End Net.

(** ** What a system of caches stores: states and sharers by address

    [rep s σ ε α] reads a system [s] as three functions: [σ i a] is the state
    cache [i] has for an address (invalid when the address is not in the array),
    [ε i a] its entry of sharers and [α i] its array.  The lemmas [runs_*] give
    the effect of the elementary operations of the controllers on these
    functions; the proofs about the protocol are then about functions only. *)

(** [f] with one value changed. *)
Definition put {X} (f : nat → Z → X) (i : nat) (a : Z) (x : X) : nat → Z → X :=
  λ j b, if decide (j = i ∧ b = a) then x else f j b.
Definition putA {X} (f : nat → X) (i : nat) (x : X) : nat → X := λ j, if decide (j = i) then x else f j.

Lemma put_eq {X} (f : nat → Z → X) i a x : put f i a x i a = x.
Proof. unfold put. by rewrite decide_True. Qed.
Lemma put_ne {X} (f : nat → Z → X) i a x j b : (j ≠ i ∨ b ≠ a) → put f i a x j b = f j b.
Proof. intros H. unfold put. rewrite decide_False; [done|]. intros [??]. tauto. Qed.
Lemma putA_eq {X} (f : nat → X) i x : putA f i x i = x.
Proof. unfold putA. by rewrite decide_True. Qed.
Lemma putA_ne {X} (f : nat → X) i x j : j ≠ i → putA f i x j = f j.
Proof. intros H. unfold putA. by rewrite decide_False. Qed.

(** No sharers. *)
Definition empty_entry (e : Entry) : Prop := numSharers e = 0 ∧ sharers e = replicate MAX_CACHE_CHILDREN false.
Lemma empty_clear : empty_entry clear.
Proof. done. Qed.

(** A filter has a power of two of entries. *)
Definition fits (f : FilterCache.FilterCache) : Prop :=
  ∃ k, 0 ≤ k ≤ 32 ∧ FilterCache.setMask f = 2 ^ k - 1 ∧ Z.of_nat (length (FilterCache.filterArray f)) = 2 ^ k.

Lemma fits_index f a : fits f → FilterCache.index f a = a `mod` (FilterCache.setMask f + 1) ∧
  0 ≤ FilterCache.index f a < Z.of_nat (length (FilterCache.filterArray f)).
Proof.
  intros (k&Hk&Hm&Hl). unfold FilterCache.index, u32. rewrite Hm, Hl.
  replace (2 ^ k - 1) with (Z.ones k) by (rewrite Z.ones_equiv; lia). change 4294967295 with (Z.ones 32). rewrite !Z.land_ones by lia.
  pose proof (Z.mod_pos_bound a (2 ^ k) ltac:(lia)). pose proof (Z.pow_le_mono_r 2 k 32 ltac:(lia) ltac:(lia)).
  rewrite (Z.mod_small (_ `mod` _)) by lia. replace (Z.ones k + 1) with (2 ^ k) by (rewrite Z.ones_equiv; lia). done.
Qed.

Section Rep.
Context {A D : Type} `{!CacheArray A} `{!ArrayLaws A}.
Abbreviation sys := (Sys A D).
Variable net : list Node.
(** What holds of the memory controllers. *)
Variable memory : list D → Prop.

(** The arrays of a cache fit together: a valid line is found at its address, an
    invalid one has no sharers, and a filter has an entry for every index. *)
Record cache_ok (c : ZCache A) : Prop := {
  ck_array : array_ok (Z.of_nat (length (bcc c))) (array c);
  ck_tcc : length (tcc c) = if terminal c then 0%nat else length (bcc c);
  ck_valid id x : zlookup (bcc c) id = Some x → x ≠ StI → ∃ a, find (array c) a = Some id;
  ck_empty id e : zlookup (tcc c) id = Some e → zlookup (bcc c) id = Some StI → empty_entry e;
  ck_filter f : l0 c = Some f → fits f
}.

Definition St1 (c : ZCache A) (a : Z) : MESIState := default StI (id ← find (array c) a; zlookup (bcc c) id).
Definition En1 (c : ZCache A) (a : Z) : Entry := default clear (id ← find (array c) a; zlookup (tcc c) id).

Record rep (s : sys) (σ : nat → Z → MESIState) (ε : nat → Z → Entry) (α : nat → option A) : Prop := {
  rep_net : node_of <$> caches s = net;
  rep_ok i c : caches s !! i = Some c → cache_ok c;
  rep_mems : memory (mems s);
  rep_st i c a : caches s !! i = Some c → St1 c a = σ i a;
  rep_en i c a : caches s !! i = Some c → En1 c a = ε i a;
  rep_arr i c : caches s !! i = Some c → α i = Some (array c)
}.

(** Line [id] of cache [i] is the line of the address. *)
Definition line (α : nat → option A) (i : nat) (id a : Z) : Prop := ∃ r, α i = Some r ∧ find r a = Some id.

Lemma rep_cache s σ ε α i n :
  rep s σ ε α → net !! i = Some n → ∃ c, caches s !! i = Some c ∧ node_of c = n.
Proof.
  intros Hr Hn. pose proof (rep_net _ _ _ _ Hr) as E. rewrite <-E, list_lookup_fmap in Hn. destruct (caches s !! i) as [c|]; [|done].
  injection Hn. eauto.
Qed.

Lemma rep_node s σ ε α i c : rep s σ ε α → caches s !! i = Some c → net !! i = Some (node_of c).
Proof. intros Hr Hc. rewrite <-(rep_net _ _ _ _ Hr), list_lookup_fmap, Hc. done. Qed.

(** A change of one cache. *)
Lemma rep_insert s σ ε α i c c' σ' ε' α' :
  rep s σ ε α → caches s !! i = Some c → node_of c' = node_of c → cache_ok c' →
  (∀ b, St1 c' b = σ' i b) → (∀ b, En1 c' b = ε' i b) → α' i = Some (array c') →
  (∀ j, j ≠ i → (∀ b, σ' j b = σ j b ∧ ε' j b = ε j b) ∧ α' j = α j) →
  rep (set_caches (<[i := c']> (caches s)) s) σ' ε' α'.
Proof.
  intros Hr Hc Hn Hok HS HE HA Ho. pose proof (lookup_lt_Some _ _ _ Hc) as Hlt.
  assert (∀ j d, caches (set_caches (<[i := c']> (caches s)) s) !! j = Some d →
    j = i ∧ d = c' ∨ j ≠ i ∧ caches s !! j = Some d) as Hcase.
  { intros j d. simpl. rewrite list_lookup_insert. case_decide as E; [intros; simplify_eq; left; by destruct E|].
    intros Hd. right. split; [|done]. intros ->. tauto. }
  split.
  - simpl. rewrite list_fmap_insert, Hn, (rep_net _ _ _ _ Hr). apply list_insert_id. by eapply rep_node.
  - intros j d Hd. destruct (Hcase j d Hd) as [[-> ->]|[_ Hd']]; [done|by eapply rep_ok].
  - exact (rep_mems _ _ _ _ Hr).
  - intros j d a Hd. destruct (Hcase j d Hd) as [[-> ->]|[Hne Hd']]; [done|].
    destruct (Ho j Hne) as [Hj _]. rewrite (proj1 (Hj a)). by eapply rep_st.
  - intros j d a Hd. destruct (Hcase j d Hd) as [[-> ->]|[Hne Hd']]; [done|].
    destruct (Ho j Hne) as [Hj _]. rewrite (proj2 (Hj a)). by eapply rep_en.
  - intros j d Hd. destruct (Hcase j d Hd) as [[-> ->]|[Hne Hd']]; [done|].
    destruct (Ho j Hne) as [_ ->]. by eapply rep_arr.
Qed.

(** Two addresses of one line are the same. *)
Lemma find_inj (c : ZCache A) a b id : cache_ok c → find (array c) a = Some id → find (array c) b = Some id → a = b.
Proof.
  intros Hok Ha Hb. destruct (find_tag _ _ _ _ (ck_array c Hok) Ha) as [_ H1].
  destruct (find_tag _ _ _ _ (ck_array c Hok) Hb) as [_ H2]. congruence.
Qed.

Lemma line_bcc s σ ε α i id a :
  rep s σ ε α → line α i id a → is_Some (net !! i) →
  ∃ c, caches s !! i = Some c ∧ cache_ok c ∧ find (array c) a = Some id ∧ zlookup (bcc c) id = Some (σ i a).
Proof.
  intros Hr (r&Ha&Hf) [n Hn]. destruct (rep_cache _ _ _ _ i n Hr Hn) as (c&Hc&_). pose proof (rep_ok _ _ _ _ Hr i c Hc) as Hok.
  rewrite (rep_arr _ _ _ _ Hr i c Hc) in Ha. injection Ha as <-. exists c. split_and!; [done..|].
  destruct (find_tag _ _ _ _ (ck_array c Hok) Hf) as [Hid _]. destruct (zlookup_is_Some _ _ Hid) as [x Hx].
  rewrite <-(rep_st _ _ _ _ Hr i c a Hc). unfold St1. rewrite Hf. simpl. by rewrite Hx.
Qed.

Lemma line_tcc s σ ε α i n id a :
  rep s σ ε α → line α i id a → net !! i = Some n → nd_terminal n = false →
  ∃ c, caches s !! i = Some c ∧ cache_ok c ∧ find (array c) a = Some id ∧ zlookup (tcc c) id = Some (ε i a).
Proof.
  intros Hr Hl Hn Ht. destruct (line_bcc _ _ _ _ _ _ _ Hr Hl) as (c&Hc&Hok&Hf&Hb); [by rewrite Hn|]. exists c. split_and!; [done..|].
  pose proof (rep_node _ _ _ _ i c Hr Hc) as Hn'. rewrite Hn in Hn'. injection Hn' as ->. simpl in Ht.
  pose proof (ck_tcc c Hok) as Hlen. rewrite Ht in Hlen. destruct (zlookup_is_Some (tcc c) id) as [e He].
  { rewrite Hlen. by eapply zlookup_range. }
  rewrite <-(rep_en _ _ _ _ Hr i c a Hc). unfold En1. rewrite Hf. simpl. by rewrite He.
Qed.

(** ** The elementary operations *)
Lemma runs_cache s σ ε α i n Q :
  rep s σ ε α → net !! i = Some n →
  (∀ c, caches s !! i = Some c → node_of c = n → cache_ok c → α i = Some (array c) → Q c s) → runs (cache i) Q s.
Proof.
  intros Hr Hn H. destruct (rep_cache _ _ _ _ i n Hr Hn) as (c&Hc&Hnc). exists c, s. split.
  - unfold cache, bind, gets, lift. simpl. by rewrite Hc.
  - apply H; [done..|by eapply rep_ok|by eapply rep_arr].
Qed.

Lemma runs_upd_cache s i c c' (f : ZCache A → option (ZCache A)) (Q : unit → sys → Prop) :
  caches s !! i = Some c → f c = Some c' → Q tt (set_caches (<[i := c']> (caches s)) s) → runs (upd_cache i f) Q s.
Proof.
  intros Hc Hf HQ. exists tt. eexists. split; [|exact HQ]. unfold upd_cache, modify. rewrite Hc. simpl. by rewrite Hf.
Qed.

Lemma runs_bcc_state s σ ε α i id a Q :
  rep s σ ε α → line α i id a → is_Some (net !! i) → Q (σ i a) s → runs (bcc_state i id) Q s.
Proof.
  intros Hr Hl [n Hn] HQ. destruct (line_bcc _ _ _ _ _ _ _ Hr Hl) as (c&Hc&Hok&Hf&Hb); [by rewrite Hn|].
  apply runs_bind. eapply runs_cache; [done..|]. intros c' Hc' _ _ _. assert (c' = c) as -> by congruence.
  by eapply runs_lift.
Qed.

Lemma runs_tcc_entry s σ ε α i n id a Q :
  rep s σ ε α → line α i id a → net !! i = Some n → nd_terminal n = false → Q (ε i a) s → runs (tcc_entry i id) Q s.
Proof.
  intros Hr Hl Hn Ht HQ. destruct (line_tcc _ _ _ _ _ _ _ _ Hr Hl Hn Ht) as (c&Hc&Hok&Hf&Hb).
  apply runs_bind. eapply runs_cache; [done..|]. intros c' Hc' _ _ _. assert (c' = c) as -> by congruence.
  by eapply runs_lift.
Qed.

Lemma runs_set_bcc_state s σ ε α i id a x (Q : unit → sys → Prop) :
  rep s σ ε α → line α i id a → is_Some (net !! i) → (x = StI → empty_entry (ε i a)) →
  (∀ s', local_state s' = local_state s → rep s' (put σ i a x) ε α → Q tt s') → runs (set_bcc_state i id x) Q s.
Proof.
  intros Hr Hl [n Hn] Hx HQ. destruct (line_bcc _ _ _ _ _ _ _ Hr Hl) as (c&Hc&Hok&Hf&Hb); [by rewrite Hn|].
  pose proof (zlookup_range _ _ _ Hb) as Hid.
  eapply runs_upd_cache; [exact Hc|by erewrite upd_child_set|]. apply HQ; [done|].
  set (c' := set_bcc _ c). assert (∀ b, St1 c' b = put σ i a x i b) as HS.
  { intros b. unfold St1. simpl. unfold put. destruct (decide (i = i ∧ b = a)) as [[_ ->]|Hne].
    - rewrite Hf. simpl. rewrite zlookup_set, decide_True; done.
    - rewrite <-(rep_st _ _ _ _ Hr i c b Hc). unfold St1. destruct (find (array c) b) as [id'|] eqn:Hf'; [|done]. simpl.
      rewrite zlookup_set, decide_False; [done| |done]. intros ->. destruct Hne. split; [done|by eapply find_inj]. }
  eapply rep_insert; [exact Hr|exact Hc|by unfold node_of; simpl; rewrite length_insert| |exact HS| | |].
  - split; simpl; rewrite ?length_insert; try apply Hok.
    + intros id' y. rewrite zlookup_set by done. case_decide; [subst; eauto|]. apply Hok.
    + intros id' e He. rewrite zlookup_set by done. case_decide; [subst|by apply Hok]. intros [= ->].
      specialize (Hx eq_refl). rewrite <-(rep_en _ _ _ _ Hr i c a Hc) in Hx. unfold En1 in Hx. rewrite Hf in Hx. simpl in Hx.
      by rewrite He in Hx.
  - intros b. by apply (rep_en _ _ _ _ Hr i c b Hc).
  - by apply (rep_arr _ _ _ _ Hr i c Hc).
  - intros j Hj. split; [|done]. intros b. split; [|done]. apply put_ne. by left.
Qed.

Lemma runs_upd_entry s σ ε α i n id a (f : Entry → option Entry) e (Q : unit → sys → Prop) :
  rep s σ ε α → line α i id a → net !! i = Some n → nd_terminal n = false → f (ε i a) = Some e →
  (σ i a = StI → empty_entry e) →
  (∀ s', local_state s' = local_state s → rep s' σ (put ε i a e) α → Q tt s') → runs (upd_entry i id f) Q s.
Proof.
  intros Hr Hl Hn Ht He Hx HQ. destruct (line_tcc _ _ _ _ _ _ _ _ Hr Hl Hn Ht) as (c&Hc&Hok&Hf&Hb).
  pose proof (zlookup_range _ _ _ Hb) as Hid.
  eapply runs_upd_cache; [exact Hc|by erewrite upd_child_set|]. apply HQ; [done|].
  set (c' := set_tcc _ c).
  eapply rep_insert; [exact Hr|exact Hc|done| | | | |].
  - split; simpl; rewrite ?length_insert; try apply Hok.
    intros id' e'. rewrite zlookup_set by done. case_decide; [subst|by apply Hok]. intros [= <-] Hi. apply Hx.
    rewrite <-(rep_st _ _ _ _ Hr i c a Hc). unfold St1. rewrite Hf. simpl. by rewrite Hi.
  - intros b. by apply (rep_st _ _ _ _ Hr i c b Hc).
  - intros b. unfold En1. simpl. unfold put. destruct (decide (i = i ∧ b = a)) as [[_ ->]|Hne].
    + rewrite Hf. simpl. rewrite zlookup_set, decide_True; done.
    + rewrite <-(rep_en _ _ _ _ Hr i c b Hc). unfold En1. destruct (find (array c) b) as [id'|] eqn:Hf'; [|done]. simpl.
      rewrite zlookup_set, decide_False; [done| |done]. intros ->. destruct Hne. split; [done|by eapply find_inj].
  - by apply (rep_arr _ _ _ _ Hr i c Hc).
  - intros j Hj. split; [|done]. intros b. split; [done|]. apply put_ne. by left.
Qed.

Lemma runs_count s σ ε α i k x (Q : unit → sys → Prop) :
  rep s σ ε α → is_Some (net !! i) →
  (∀ s', local_state s' = local_state s → rep s' σ ε α → Q tt s') → runs (count i k x) Q s.
Proof.
  intros Hr [n Hn] HQ. destruct (rep_cache _ _ _ _ i n Hr Hn) as (c&Hc&_).
  eapply runs_upd_cache; [exact Hc|done|]. apply HQ; [done|].
  eapply rep_insert; [exact Hr|exact Hc|done| | | | |done].
  - pose proof (rep_ok _ _ _ _ Hr i c Hc) as []. by split.
  - intros b. by apply (rep_st _ _ _ _ Hr i c b Hc).
  - intros b. by apply (rep_en _ _ _ _ Hr i c b Hc).
  - by apply (rep_arr _ _ _ _ Hr i c Hc).
Qed.

Lemma drop_fits pm a f : fits f → ∃ f', FilterCache.drop pm a f = Some f' ∧ fits f' ∧ filter_node f' = filter_node f.
Proof.
  intros Hf. destruct (fits_index f a Hf) as [_ Hi]. unfold FilterCache.drop.
  destruct (zlookup_is_Some _ _ Hi) as [e He]. rewrite He. simpl. destruct (_ =? a); [|by exists f].
  erewrite upd_child_set by done. simpl. eexists. split; [done|]. split; [|done].
  destruct Hf as (k&Hk&?&?). exists k. simpl. by rewrite length_insert.
Qed.

(** A change of a filter. *)
Lemma rep_filter s σ ε α i c f :
  rep s σ ε α → caches s !! i = Some c → (∀ f', f = Some f' → fits f') →
  filter_node <$> f = filter_node <$> l0 c →
  rep (set_caches (<[i := set_l0 f c]> (caches s)) s) σ ε α.
Proof.
  intros Hr Hc Hf Hn. eapply rep_insert; [exact Hr|exact Hc|unfold node_of; simpl; by rewrite Hn| | | | |done].
  - pose proof (rep_ok _ _ _ _ Hr i c Hc) as []. by split.
  - intros b. by apply (rep_st _ _ _ _ Hr i c b Hc).
  - intros b. by apply (rep_en _ _ _ _ Hr i c b Hc).
  - by apply (rep_arr _ _ _ _ Hr i c Hc).
Qed.

Lemma runs_filter_invalidate s σ ε α i req (Q : unit → sys → Prop) :
  rep s σ ε α → is_Some (net !! i) →
  (∀ s', local_state s' = local_state s → rep s' σ ε α → Q tt s') → runs (filter_invalidate i req) Q s.
Proof.
  intros Hr [n Hn] HQ. destruct (rep_cache _ _ _ _ i n Hr Hn) as (c&Hc&_). apply runs_bind. eexists _, s. split; [done|].
  pose proof (ck_filter c (rep_ok _ _ _ _ Hr i c Hc)) as Hf.
  assert (∃ c', match l0 c with
                | Some f => f ← FilterCache.drop (procMask s) (inv_lineAddr req) f; Some (set_l0 (Some f) c)
                | None => Some c
                end = Some c' ∧ rep (set_caches (<[i := c']> (caches s)) s) σ ε α) as (c'&E&Hr').
  { destruct (l0 c) as [f|] eqn:El.
    - destruct (drop_fits (procMask s) (inv_lineAddr req) f (Hf f eq_refl)) as (f'&->&Hf'&Hn'). simpl. eexists. split; [done|].
      apply rep_filter; [done|done|by intros ? [= <-]|]. rewrite El. simpl. by rewrite Hn'.
    - exists c. split; [done|]. rewrite list_insert_id by done. by destruct s. }
  eapply runs_upd_cache; [exact Hc|exact E|]. by apply HQ.
Qed.

Lemma runs_filter_of s σ ε α p n x (Q : FilterCache.FilterCache → sys → Prop) :
  rep s σ ε α → net !! p = Some n → nd_filter n = Some x →
  (∀ c f, caches s !! p = Some c → l0 c = Some f → filter_node f = x → fits f → Q f s) → runs (filter_of p) Q s.
Proof.
  intros Hr Hn Hx HQ. apply runs_bind. eapply runs_cache; [done..|]. intros c Hc Hnode Hok _. rewrite <-Hnode in Hx. simpl in Hx.
  destruct (l0 c) as [f|] eqn:El; [|done]. injection Hx as Hx. apply runs_lift with f; [done|].
  apply (HQ c f Hc El Hx). by apply (ck_filter c Hok).
Qed.

Lemma runs_upd_filter s σ ε α p c f f' g (Q : unit → sys → Prop) :
  rep s σ ε α → caches s !! p = Some c → l0 c = Some f → g f = Some f' → fits f' → filter_node f' = filter_node f →
  (∀ s', rep s' σ ε α → Q tt s') → runs (upd_filter p g) Q s.
Proof.
  intros Hr Hc Hl Hg Hf Hn HQ. eapply runs_upd_cache; [exact Hc|by rewrite Hl; simpl; rewrite Hg|].
  apply HQ, rep_filter; [done|done|by intros ? [= <-]|]. rewrite Hl. simpl. by rewrite Hn.
Qed.

Lemma fill_fits v idx isLoad r f :
  fits f → 0 ≤ idx < Z.of_nat (length (FilterCache.filterArray f)) →
  ∃ f', FilterCache.fill v idx isLoad r f = Some f' ∧ fits f' ∧ filter_node f' = filter_node f.
Proof.
  intros (k&Hk&?&?) Hi. unfold FilterCache.fill. destruct (zlookup_is_Some _ _ Hi) as [e He].
  erewrite upd_child_set by done. simpl. eexists. split; [done|]. split; [|done]. exists k. simpl. by rewrite length_insert.
Qed.

(** An array that finds the same lines. *)
Lemma runs_set_array s σ ε α i c r (Q : unit → sys → Prop) :
  rep s σ ε α → caches s !! i = Some c → array_ok (Z.of_nat (length (bcc c))) r →
  (∀ a, find r a = find (array c) a) →
  (∀ s', local_state s' = local_state s → rep s' σ ε (putA α i (Some r)) → Q tt s') →
  runs (upd_cache i (λ c, Some (set_array r c))) Q s.
Proof.
  intros Hr Hc Hok Hf HQ. eapply runs_upd_cache; [exact Hc|done|]. apply HQ; [done|].
  eapply rep_insert; [exact Hr|exact Hc|done| | | | |].
  - pose proof (rep_ok _ _ _ _ Hr i c Hc) as []. split; simpl; try done. intros id x Hx Hv.
    setoid_rewrite Hf. eauto.
  - intros b. rewrite <-(rep_st _ _ _ _ Hr i c b Hc). unfold St1. simpl. by rewrite Hf.
  - intros b. rewrite <-(rep_en _ _ _ _ Hr i c b Hc). unfold En1. simpl. by rewrite Hf.
  - apply putA_eq.
  - intros j Hj. split; [done|]. by apply putA_ne.
Qed.

(** *** An address takes the place of an invalid line *)
Lemma invalid_entry c id : cache_ok c → zlookup (bcc c) id = Some StI → empty_entry (default clear (zlookup (tcc c) id)).
Proof.
  intros Hok Hi. destruct (zlookup (tcc c) id) as [e|] eqn:He; [|done]. by eapply ck_empty.
Qed.

Section Replace.
Variables (c : ZCache A) (id x : Z) (r : A).
Hypothesis Hok : cache_ok c.
Hypothesis Hid : zlookup (bcc c) id = Some StI.
Hypothesis Hr : array_ok (Z.of_nat (length (bcc c))) r.
Hypothesis Hx : find r x = Some id.
Hypothesis Htag : ∀ id', tag r id' = if decide (id' = id) then Some x else tag (array c) id'.
Hypothesis Hold : ∀ y id', id' ≠ id → find (array c) y = Some id' → find r y = Some id'.

(** What the new array finds is found before, or invalid. *)
Lemma new_found y id' : find r y = Some id' → zlookup (bcc c) id' = Some StI ∨ id' ≠ id ∧ find (array c) y = Some id'.
Proof.
  intros Hf. destruct (find_tag _ _ _ _ Hr Hf) as [Hrange Ht]. destruct (decide (id' = id)) as [->|Hne]; [by left|].
  destruct (zlookup_is_Some _ _ Hrange) as [v Hv]. destruct (decide (v = StI)) as [->|Hval]; [by left|right].
  split; [done|]. destruct (ck_valid c Hok id' v Hv Hval) as [a0 Ha0]. destruct (find_tag _ _ _ _ (ck_array c Hok) Ha0) as [_ Ht0].
  rewrite Htag, decide_False in Ht by done. congruence.
Qed.

Lemma replace_St b : St1 (set_array r c) b = St1 c b.
Proof.
  unfold St1. simpl. destruct (find (array c) b) as [i1|] eqn:E1; simpl; [destruct (decide (i1 = id)) as [->|Hne]|].
  - rewrite Hid. simpl. destruct (find r b) as [i2|] eqn:E2; [|done]. simpl.
    destruct (new_found b i2 E2) as [->|[Hne H]]; [done|congruence].
  - by rewrite (Hold b i1 Hne E1).
  - destruct (find r b) as [i2|] eqn:E2; [|done]. simpl. destruct (new_found b i2 E2) as [->|[Hne H]]; [done|congruence].
Qed.

Lemma replace_En b : En1 (set_array r c) b = En1 c b ∨ empty_entry (En1 (set_array r c) b) ∧ empty_entry (En1 c b).
Proof.
  unfold En1. simpl. destruct (find (array c) b) as [i1|] eqn:E1; simpl; [destruct (decide (i1 = id)) as [->|Hne]|].
  - right. split; [|by apply invalid_entry]. destruct (find r b) as [i2|] eqn:E2; [|done]. simpl.
    destruct (new_found b i2 E2) as [H|[Hne H]]; [by apply invalid_entry|congruence].
  - left. by rewrite (Hold b i1 Hne E1).
  - right. split; [|done]. destruct (find r b) as [i2|] eqn:E2; [|done]. simpl.
    destruct (new_found b i2 E2) as [H|[Hne H]]; [by apply invalid_entry|congruence].
Qed.

Lemma replace_ok : cache_ok (set_array r c).
Proof.
  split; simpl; try apply Hok; [done|]. intros id' v Hv Hval. destruct (ck_valid c Hok id' v Hv Hval) as [a0 Ha0].
  exists a0. apply Hold; [|done]. intros ->. congruence.
Qed.
End Replace.

Lemma runs_postinsert s σ ε α i c id x req (Q : unit → sys → Prop) :
  rep s σ ε α → caches s !! i = Some c → zlookup (bcc c) id = Some StI → admits x → find (array c) x = None →
  reserved (array c) x id →
  (∀ s' ε' r, local_state s' = local_state s → rep s' σ ε' (putA α i (Some r)) → find r x = Some id →
    (∀ j b, ε' j b = ε j b ∨ empty_entry (ε' j b) ∧ empty_entry (ε j b)) → Q tt s') →
  runs (upd_cache i (λ c, a ← postinsert x req id (array c); Some (set_array a c))) Q s.
Proof.
  intros Hr Hc Hid Ha Hnone Hres HQ. pose proof (rep_ok _ _ _ _ Hr i c Hc) as Hok. pose proof (zlookup_range _ _ _ Hid) as Hrange.
  destruct (postinsert_ok _ (array c) x req id (ck_array c Hok) Ha Hnone Hrange Hres) as (r&Hp&Hr1&Hx&Htag&Hold).
  eapply runs_upd_cache; [exact Hc|by rewrite Hp|].
  apply (HQ _ (λ j b, if decide (j = i) then En1 (set_array r c) b else ε j b) r); [done| |done|].
  - eapply rep_insert; [exact Hr|exact Hc|done|by eapply replace_ok| | | |].
    + intros b. rewrite <-(rep_st _ _ _ _ Hr i c b Hc). by eapply replace_St.
    + intros b. by rewrite decide_True.
    + apply putA_eq.
    + intros j Hj. split; [|by apply putA_ne]. intros b. by rewrite decide_False.
  - intros j b. case_decide as E; [|by left]. subst j. rewrite <-(rep_en _ _ _ _ Hr i c b Hc). by eapply replace_En.
Qed.

(** A representation may be replaced by one with equal values. *)
Lemma rep_ext s σ ε α σ' ε' α' :
  rep s σ ε α → (∀ i a, σ' i a = σ i a) → (∀ i a, ε' i a = ε i a) → (∀ i, α' i = α i) → rep s σ' ε' α'.
Proof.
  intros Hr H1 H2 H3. split; try apply Hr; intros; rewrite ?H1, ?H2, ?H3; by eapply Hr.
Qed.

End Rep.
Arguments line : simpl never.
