(* ===== verification/ZsimDown.v ===== *)
(** * Invalidations

    The steps an invalidation takes at one cache, the loop that sends it to the
    children, and, by recursion over the levels, its effect on everything below
    a cache. *)

From S2P Require Import Prelude ZsimMem ZsimRepl ZsimArray ZsimCoherence ZsimInv.

(** ** Invalidations of zsim's caches

    [link_ok] relates the state of a line, its entry of sharers and the states
    its children have for the address; [links] says so for a cache of the system.
    An invalidation takes the address from the cache it is sent to and from
    everything below ([INV]), or leaves it there without exclusive rights
    ([INVX]): [eff]; [invalidate_runs] says so, and that nothing else changes. *)

Definition excl (x : MESIState) : Prop := x = StE ∨ x = StM.
#[global] Instance excl_dec x : Decision (excl x).
Proof. unfold excl. apply _. Defined.

(** The state a line has after an invalidation. *)
Definition eff (t : InvType) (x : MESIState) : MESIState :=
  match t, x with INV, _ => StI | INVX, StI => StI | INVX, _ => StS | FWD, _ => x end.

(** ** Sharers *)
Definition zcount (l : list bool) : Z := foldr (λ b n, (if (b : bool) then 1 else 0) + n) 0 l.

Lemma zcount_nonneg l : 0 ≤ zcount l.
Proof. induction l as [|[] l IH]; simpl; lia. Qed.
Lemma zcount_replicate n : zcount (replicate n false) = 0.
Proof. induction n; simpl; lia. Qed.
Lemma zcount_insert l k (b c : bool) :
  l !! k = Some b → zcount (<[k := c]> l) = zcount l - (if b then 1 else 0) + (if c then 1 else 0).
Proof. revert k. induction l as [|x l IH]; intros [|k] H; simpl in *; simplify_eq; [|rewrite (IH k) by done]; lia. Qed.
Lemma zcount_pos l k : l !! k = Some true → 1 ≤ zcount l.
Proof.
  intros H. pose proof (zcount_insert l k true false H). pose proof (zcount_nonneg (<[k := false]> l)). simpl in *. lia.
Qed.
Lemma zcount_two l k k' : l !! k = Some true → l !! k' = Some true → k ≠ k' → 2 ≤ zcount l.
Proof.
  intros H H' Hne. pose proof (zcount_insert l k true false H). simpl in *.
  assert (<[k := false]> l !! k' = Some true) as H2 by (by rewrite list_lookup_insert_ne). apply zcount_pos in H2. lia.
Qed.
Lemma zcount_zero l : zcount l = 0 → l = replicate (length l) false.
Proof.
  induction l as [|x l IH]; simpl; [done|]. pose proof (zcount_nonneg l). destruct x; [lia|]. intros H'. f_equal. apply IH. lia.
Qed.
Lemma no_true l : (∀ k, l !! k ≠ Some true) → l = replicate (length l) false.
Proof.
  intros H. apply list_eq. intros k. destruct (l !! k) as [[]|] eqn:E; [by destruct (H k)| |].
  - symmetry. apply lookup_replicate. split; [done|by eapply lookup_lt_Some].
  - symmetry. apply lookup_ge_None. rewrite length_replicate. by apply lookup_ge_None.
Qed.

(** A line's state, its entry and its children's states. *)
Record link_ok (ps : MESIState) (e : Entry) (cs : list MESIState) : Prop := {
  lk_len : length (sharers e) = MAX_CACHE_CHILDREN;
  lk_bit k : sharers e !! k = Some true ↔ ∃ x, cs !! k = Some x ∧ x ≠ StI;
  lk_num : numSharers e = zcount (sharers e);
  lk_one : exclusive e = true → numSharers e ≤ 1;
  lk_excl k x : cs !! k = Some x → excl x → isExclusive e = true ∧ excl ps;
  lk_shared k x : cs !! k = Some x → isExclusive e = true → x ≠ StI → excl x;
  lk_incl k x : cs !! k = Some x → x ≠ StI → ps ≠ StI
}.

Lemma excl_valid x : excl x → x ≠ StI.
Proof. by intros [->| ->]. Qed.

Lemma isExclusive_1 e : isExclusive e = true → numSharers e = 1 ∧ exclusive e = true.
Proof. unfold isExclusive. rewrite andb_true_iff, Z.eqb_eq. done. Qed.

(** No sharers: no child holds the line. *)
Lemma link_empty ps e cs : link_ok ps e cs → numSharers e = 0 → empty_entry e ∧ ∀ k x, cs !! k = Some x → x = StI.
Proof.
  intros H H0. rewrite (lk_num _ _ _ H) in H0. split.
  - split; [by rewrite (lk_num _ _ _ H)|]. rewrite <-(lk_len _ _ _ H). by apply zcount_zero.
  - intros k x Hx. destruct (decide (x = StI)) as [|Hne]; [done|].
    assert (sharers e !! k = Some true) as Hk%zcount_pos by (apply (lk_bit _ _ _ H); eauto). lia.
Qed.

Lemma empty_isExclusive e : empty_entry e → isExclusive e = false.
Proof. intros [H _]. unfold isExclusive. by rewrite H. Qed.

Lemma empty_bit e k : empty_entry e → sharers e !! k ≠ Some true.
Proof. intros [_ ->] Hk. by apply lookup_replicate in Hk as [? _]. Qed.

Lemma link_none ps e cs : empty_entry e → (∀ k x, cs !! k = Some x → x = StI) → link_ok ps e cs.
Proof.
  intros He Hcs. split.
  - by rewrite (proj2 He).
  - intros k. split; [by intros Hk%(empty_bit e k He)|]. intros (x&Hx&Hn). by apply Hcs in Hx.
  - rewrite (proj1 He), (proj2 He). by rewrite zcount_replicate.
  - intros _. rewrite (proj1 He). lia.
  - intros k x ->%Hcs []%excl_valid. done.
  - intros k x _. by rewrite (empty_isExclusive e He).
  - intros k x ->%Hcs. done.
Qed.

Lemma link_unused ps e cs : link_ok ps e cs → (∀ k x, cs !! k = Some x → x = StI) → empty_entry e.
Proof.
  intros H Hcs. assert (sharers e = replicate MAX_CACHE_CHILDREN false) as Hs.
  { rewrite <-(lk_len _ _ _ H). apply no_true. intros k Hk. apply (lk_bit _ _ _ H) in Hk as (x&Hx&Hne). by apply Hcs in Hx. }
  split; [|done]. by rewrite (lk_num _ _ _ H), Hs, zcount_replicate.
Qed.

(** The children lose their exclusive rights. *)
Lemma link_downgrade ps ps' e e' cs cs' :
  link_ok ps e cs → (ps ≠ StI → ps' ≠ StI) → sharers e' = sharers e → numSharers e' = numSharers e → isExclusive e' = false →
  (exclusive e' = true → exclusive e = true) →
  (∀ k, cs' !! k = eff INVX <$> cs !! k) → link_ok ps' e' cs'.
Proof.
  intros H Hps Hs Hn He Hone Hcs.
  assert (∀ k x', cs' !! k = Some x' → ∃ x, cs !! k = Some x ∧ x' = eff INVX x) as Hk.
  { intros k x'. rewrite Hcs. destruct (cs !! k) as [x|]; [|done]. intros [= <-]. eauto. }
  assert (∀ x, eff INVX x ≠ StI ↔ x ≠ StI) as Heff by (by intros []).
  split.
  - rewrite Hs. apply (lk_len _ _ _ H).
  - intros k. rewrite Hs, (lk_bit _ _ _ H). split.
    + intros (x&Hx&Hne). exists (eff INVX x). rewrite Hcs, Hx. split; [done|]. by apply Heff.
    + intros (x'&Hx'&Hne). destruct (Hk k x' Hx') as (x&Hx&->). exists x. split; [done|]. by apply Heff.
  - rewrite Hs, Hn. apply (lk_num _ _ _ H).
  - intros Hx. rewrite Hn. by apply (lk_one _ _ _ H), Hone.
  - intros k x' Hx' Hex. destruct (Hk k x' Hx') as (x&_&->). by destruct x, Hex.
  - intros k x' _. by rewrite He.
  - intros k x' Hx' Hne. destruct (Hk k x' Hx') as (x&Hx&->). apply Hps. eapply (lk_incl _ _ _ H); [done|]. by apply Heff.
Qed.

(** Only the parent's state changes. *)
Lemma link_parent ps ps' e cs :
  link_ok ps e cs → (excl ps → excl ps') → (ps ≠ StI → ps' ≠ StI) → link_ok ps' e cs.
Proof.
  intros H Hx Hv. split; try apply H.
  - intros k x Hk He. destruct (lk_excl _ _ _ H k x Hk He). auto.
  - intros k x Hk Hne. apply Hv. by eapply (lk_incl _ _ _ H).
Qed.

(** A child loses the line. *)
Lemma link_remove ps e cs k x :
  link_ok ps e cs → cs !! k = Some x → x ≠ StI →
  link_ok ps (mkEntry (numSharers e - 1) (<[k := false]> (sharers e)) (exclusive e)) (<[k := StI]> cs).
Proof.
  intros H Hx Hne. assert (sharers e !! k = Some true) as Hk by (apply (lk_bit _ _ _ H); eauto).
  pose proof (lookup_lt_Some _ _ _ Hk). pose proof (lookup_lt_Some _ _ _ Hx).
  assert (∀ k' y, <[k:=StI]> cs !! k' = Some y → y ≠ StI → k' ≠ k ∧ cs !! k' = Some y) as Hcs.
  { intros k' y. destruct (decide (k' = k)) as [->|Hkk]; [by rewrite list_lookup_insert_eq by done; intros [= <-]|].
    by rewrite list_lookup_insert_ne by done. }
  split; simpl.
  - rewrite length_insert. apply (lk_len _ _ _ H).
  - intros k'. destruct (decide (k' = k)) as [->|Hkk].
    + rewrite !list_lookup_insert_eq by done. split; [done|]. by intros (y&[= <-]&?).
    + rewrite !list_lookup_insert_ne by done. apply (lk_bit _ _ _ H).
  - rewrite (zcount_insert _ _ true), (lk_num _ _ _ H) by done. lia.
  - intros He. pose proof (lk_one _ _ _ H He). lia.
  - intros k' y Hy Hex. destruct (Hcs k' y Hy (excl_valid _ Hex)) as [Hkk Hy'].
    destruct (lk_excl _ _ _ H k' y Hy' Hex) as [[Hn _]%isExclusive_1 _].
    assert (sharers e !! k' = Some true) as Hk' by (apply (lk_bit _ _ _ H); exists y; split; [done|by apply excl_valid]).
    pose proof (zcount_two _ _ _ Hk Hk' ltac:(done)). rewrite (lk_num _ _ _ H) in Hn. lia.
  - intros k' y Hy [Hn He]%isExclusive_1. simpl in *. pose proof (lk_one _ _ _ H He). lia.
  - intros k' y Hy Hyn. destruct (Hcs k' y Hy Hyn) as [_ Hy']. by eapply (lk_incl _ _ _ H).
Qed.

Lemma insert_bit e cs k x ps :
  link_ok ps e cs → (k < length cs)%nat → (k < MAX_CACHE_CHILDREN)%nat → x ≠ StI →
  ∀ k', <[k := true]> (sharers e) !! k' = Some true ↔ ∃ y, <[k := x]> cs !! k' = Some y ∧ y ≠ StI.
Proof.
  intros H Hk Hk' Hx k'. rewrite <-(lk_len _ _ _ H) in Hk'. destruct (decide (k' = k)) as [->|Hkk].
  - rewrite !list_lookup_insert_eq by done. naive_solver.
  - rewrite !list_lookup_insert_ne by done. apply (lk_bit _ _ _ H).
Qed.

(** A child gets the line, alone and with exclusive rights. *)
Lemma link_add_exclusive ps e cs k x :
  link_ok ps e cs → numSharers e = 0 → excl ps → excl x → (k < length cs)%nat → (k < MAX_CACHE_CHILDREN)%nat →
  link_ok ps (mkEntry 1 (<[k := true]> (sharers e)) true) (<[k := x]> cs).
Proof.
  intros H H0 Hps Hx Hk Hk'. destruct (link_empty _ _ _ H H0) as [He Hcs].
  assert (∀ k' y, <[k:=x]> cs !! k' = Some y → y ≠ StI → excl y) as Hy.
  { intros k' y. destruct (decide (k' = k)) as [->|Hkk]; [by rewrite list_lookup_insert_eq by done; intros [= <-]|].
    rewrite list_lookup_insert_ne by done. by intros ->%Hcs. }
  split; simpl; try done.
  - rewrite length_insert. apply (lk_len _ _ _ H).
  - intros k1. apply (insert_bit e cs k x ps H); [done..|by apply excl_valid].
  - rewrite (zcount_insert _ _ false); [rewrite (proj2 He), zcount_replicate; lia|]. rewrite (proj2 He). by apply lookup_replicate.
  - intros k1 y Hyk _. by apply (Hy k1).
  - intros k' y _ _. by apply excl_valid.
Qed.

(** A child gets the line, shared. *)
Lemma link_add_shared ps e cs k :
  link_ok ps e cs → isExclusive e = false → ps ≠ StI → cs !! k = Some StI → (k < MAX_CACHE_CHILDREN)%nat →
  link_ok ps (mkEntry (numSharers e + 1) (<[k := true]> (sharers e)) false) (<[k := StS]> cs).
Proof.
  intros H He Hps Hk Hk'. pose proof (lookup_lt_Some _ _ _ Hk) as Hlt. split; simpl; try done.
  - rewrite length_insert. apply (lk_len _ _ _ H).
  - intros k1. by apply (insert_bit e cs k StS ps H).
  - rewrite (lk_num _ _ _ H). destruct (lookup_lt_is_Some_2 (sharers e) k) as [[] Hb]; [by rewrite (lk_len _ _ _ H)| |].
    + destruct (proj1 (lk_bit _ _ _ H k) Hb) as (x&Hx&?). congruence.
    + rewrite (zcount_insert _ _ false) by done. lia.
  - intros k' y. destruct (decide (k' = k)) as [->|Hkk].
    + rewrite list_lookup_insert_eq by done. by intros [= <-] [].
    + rewrite list_lookup_insert_ne by done. intros Hy Hex. destruct (lk_excl _ _ _ H k' y Hy Hex) as [Hx _]. congruence.
  - intros k' y _ [_ ?]%isExclusive_1. done.
Qed.

(** A child's state changes without a change of its rights. *)
Lemma link_same_rights ps e cs k x y :
  link_ok ps e cs → cs !! k = Some x → x ≠ StI → y ≠ StI → (excl y ↔ excl x) → link_ok ps e (<[k := y]> cs).
Proof.
  intros H Hx Hxn Hyn Hr. pose proof (lookup_lt_Some _ _ _ Hx) as Hlt.
  assert (∀ k' z, <[k:=y]> cs !! k' = Some z → ∃ z', cs !! k' = Some z' ∧ (excl z ↔ excl z') ∧ (z ≠ StI ↔ z' ≠ StI)) as Hcs.
  { intros k' z. destruct (decide (k' = k)) as [->|Hkk]; [rewrite list_lookup_insert_eq by done; intros [= <-]; by exists x|].
    rewrite list_lookup_insert_ne by done. by exists z. }
  split; try apply H.
  - intros k'. rewrite (lk_bit _ _ _ H). destruct (decide (k' = k)) as [->|Hkk].
    + rewrite list_lookup_insert_eq by done. naive_solver.
    + by rewrite list_lookup_insert_ne by done.
  - intros k' z (z'&Hz'&Hzx&_)%Hcs Hz. by apply (lk_excl _ _ _ H k' z' Hz'), Hzx.
  - intros k' z (z'&Hz'&Hzx&Hzn)%Hcs He Hz. by apply Hzx, (lk_shared _ _ _ H k' z' Hz' He), Hzn.
  - intros k' z (z'&Hz'&_&Hzn)%Hcs Hz. by apply (lk_incl _ _ _ H k' z' Hz'), Hzn.
Qed.

(** Entries without sharers are as good as each other. *)
Lemma link_empty_entry ps e e' cs : link_ok ps e cs → empty_entry e → empty_entry e' → link_ok ps e' cs.
Proof. intros H [H0 _] He'. apply link_none; [done|]. by apply (link_empty _ _ _ H H0). Qed.

Section Links.
Variable net : list Node.
Variable lvl : nat → nat.
Context {nm : nat} (Hnet : net_ok net lvl nm).

(** The states the children of [p] have for an address, those that ask [p] for it. *)
Definition children_of (p : nat) : list nat := default [] (nd_children <$> net !! p).
Definition kids (σ : nat → Z → MESIState) (p : nat) (a : Z) : list MESIState :=
  (λ c, if decide (parent_of net c a = Some (CacheObj p)) then σ c a else StI) <$> children_of p.
Definition links (σ : nat → Z → MESIState) (ε : nat → Z → Entry) (p : nat) (a : Z) : Prop :=
  link_ok (σ p a) (ε p a) (kids σ p a).

Lemma kids_lookup σ p a k x :
  kids σ p a !! k = Some x ↔
  ∃ c, children_of p !! k = Some c ∧ x = if decide (parent_of net c a = Some (CacheObj p)) then σ c a else StI.
Proof.
  unfold kids. rewrite list_lookup_fmap. destruct (children_of p !! k) as [c|]; simpl; [|naive_solver].
  split; [intros [= <-]; eauto|]. by intros (c'&[= <-]&->).
Qed.

(** A child is in the list of its parent. *)
Lemma child_index c p a : parent_of net c a = Some (CacheObj p) → ∃ k n, net !! c = Some n ∧ nd_self n = Z.of_nat k ∧ children_of p !! k = Some c.
Proof.
  intros H. destruct (parent_elem net c a _ H) as (n&Hn&Hp). destruct (net_up _ _ _ Hnet c n p Hn Hp) as (np&Hnp&_&Hs&Hc).
  exists (Z.to_nat (nd_self n)), n. rewrite Z2Nat.id by done. split_and!; [done..|]. unfold children_of. by rewrite Hnp.
Qed.

Lemma kid_of σ c p a :
  parent_of net c a = Some (CacheObj p) → ∃ k, children_of p !! k = Some c ∧ kids σ p a !! k = Some (σ c a).
Proof.
  intros H. destruct (child_index c p a H) as (k&n&_&_&Hk). exists k. split; [done|].
  apply kids_lookup. exists c. split; [done|]. by rewrite decide_True.
Qed.

Lemma kid_valid σ p a k x :
  kids σ p a !! k = Some x → x ≠ StI →
  ∃ c, children_of p !! k = Some c ∧ parent_of net c a = Some (CacheObj p) ∧ x = σ c a.
Proof. rewrite kids_lookup. intros (c&Hc&->) Hne. case_decide; [|done]. eauto. Qed.

Lemma child_lvl p k c : children_of p !! k = Some c → (lvl c < lvl p)%nat.
Proof.
  unfold children_of. destruct (net !! p) as [np|] eqn:Hnp; [|done]. simpl. intros Hc.
  by destruct (net_down _ _ _ Hnet p np k c Hnp Hc) as (?&?&?&?&?).
Qed.

Lemma child_unique p k k' c : children_of p !! k = Some c → children_of p !! k' = Some c → k = k'.
Proof.
  unfold children_of. destruct (net !! p) as [np|] eqn:Hnp; [|done]. simpl. intros Hc Hc'.
  destruct (net_down _ _ _ Hnet p np k c Hnp Hc) as (n&Hn&E&_). destruct (net_down _ _ _ Hnet p np k' c Hnp Hc') as (n'&Hn'&E'&_).
  simplify_eq. rewrite E in E'. lia.
Qed.

(** Everything below a cache and not the cache is below one of its children. *)
Lemma below_child a i j : below net a i j → j ≠ i → ∃ c, parent_of net c a = Some (CacheObj i) ∧ below net a c j.
Proof.
  induction 1 as [|j p Hp H IH]; [done|]. intros _. destruct (decide (p = i)) as [->|Hne].
  - exists j. split; [done|constructor].
  - destruct (IH Hne) as (c&Hc&Hb). exists c. split; [done|]. by eapply below_step.
Qed.

Lemma kids_ext σ σ' p a : (∀ c, parent_of net c a = Some (CacheObj p) → σ' c a = σ c a) → kids σ' p a = kids σ p a.
Proof. intros H. apply list_fmap_ext. intros k c _. case_decide as Hc; [by apply H|done]. Qed.

Lemma links_frame σ ε σ' ε' p a :
  links σ ε p a → (∀ j, below net a p j → σ' j a = σ j a) → ε' p a = ε p a → links σ' ε' p a.
Proof.
  unfold links. intros H Hs He. rewrite He, (Hs p) by constructor. rewrite (kids_ext σ σ'); [done|].
  intros c Hc. apply Hs. eapply below_step; [done|constructor].
Qed.

Lemma below_valid σ ε a i j :
  (∀ j, below net a i j → links σ ε j a) → below net a i j →
  (σ j a ≠ StI → σ i a ≠ StI) ∧ (excl (σ j a) → excl (σ i a)).
Proof.
  intros Hl. induction 1 as [|j p Hp H [IHv IHx]]; [done|]. destruct (kid_of σ j p a Hp) as (k&_&Hk).
  pose proof (Hl p H) as L. split.
  - intros Hv. apply IHv. by eapply (lk_incl _ _ _ L).
  - intros Hx. apply IHx. by eapply (lk_excl _ _ _ L).
Qed.

End Links.

(** ** The loop of [sendInvalidates] and [invalidate]

    [invals inv L]: sending an invalidation with [inv] to a cache below level
    [L] takes effect on all that is below it.  The loop over the children keeps
    this contract one level up, which gives [invalidate_runs] by induction on
    the levels. *)

Section Sends.
Context {A D : Type} `{!CacheArray A} `{!ArrayLaws A}.
Abbreviation sys := (Sys A D).
Variable net : list Node.
Variable lvl : nat → nat.
Context {nm : nat} (Hnet : net_ok net lvl nm).
Variable memory : list D → Prop.
Abbreviation rep := (rep net memory).
Abbreviation below := (below net).
Abbreviation links := (links net).
Abbreviation children_of := (children_of net).
Abbreviation parent_of := (parent_of net).

Definition inv_pre (t : InvType) (i : nat) (a : Z) (σ : nat → Z → MESIState) (ε : nat → Z → Entry) : Prop :=
  σ i a ≠ StI ∧ (t = INVX → excl (σ i a)) ∧ ∀ j, below a i j → links σ ε j a.

Definition inv_post (t : InvType) (i : nat) (a : Z) (σ : nat → Z → MESIState) (ε : nat → Z → Entry)
    (σ' : nat → Z → MESIState) (ε' : nat → Z → Entry) : Prop :=
  (∀ j b, ¬ (b = a ∧ below a i j) → σ' j b = σ j b ∧ ε' j b = ε j b) ∧
  (∀ j, below a i j → σ' j a = eff t (σ j a) ∧ links σ' ε' j a).

Definition invals (inv : nat → InvReq → M sys (Z * bool)) (L : nat) : Prop :=
  ∀ i s σ ε α req, (lvl i < L)%nat → is_Some (net !! i) → rep s σ ε α → admits (inv_lineAddr req) → itype req ≠ FWD →
    inv_pre (itype req) i (inv_lineAddr req) σ ε →
    runs (inv i req) (λ r s', ∃ σ' ε', rep s' σ' ε' α ∧ local_state s' = local_state s ∧ inv_cycle req ≤ r.1 ∧
      (r.2 = true → excl (σ i (inv_lineAddr req))) ∧ inv_post (itype req) i (inv_lineAddr req) σ ε σ' ε') s.

(** The caches below the children from [m] on that the bits [B] mark. *)
Definition reach (i : nat) (a : Z) (B : list bool) (m j : nat) : Prop :=
  ∃ k c, (m ≤ k)%nat ∧ B !! k = Some true ∧ children_of i !! k = Some c ∧ parent_of c a = Some (CacheObj i) ∧ below a c j.
Definition ready (t : InvType) (i : nat) (a : Z) (σ : nat → Z → MESIState) (ε : nat → Z → Entry) (B : list bool) (m : nat) : Prop :=
  ∀ k, (m ≤ k)%nat → B !! k = Some true →
    ∃ c, children_of i !! k = Some c ∧ parent_of c a = Some (CacheObj i) ∧ inv_pre t c a σ ε.

Lemma reach_skip i a B m j : B !! m ≠ Some true → reach i a B m j ↔ reach i a B (S m) j.
Proof.
  intros Hm. split; intros (k&c&Hk&HB&?).
  - exists k, c. split; [|done]. destruct (decide (k = m)) as [->|]; [done|lia].
  - exists k, c. split; [lia|done].
Qed.

Lemma reach_bits i a B B' m j : (∀ k, (m ≤ k)%nat → B' !! k = B !! k) → reach i a B m j ↔ reach i a B' m j.
Proof.
  intros H. split; intros (k&c&Hk&HB&?); exists k, c; (split; [done|]); rewrite ?H in * by done; rewrite <-?H in * by done; done.
Qed.

Lemma reach_lvl i a B m j : reach i a B m j → below a i j ∧ j ≠ i.
Proof.
  intros (k&c&_&_&Hc&Hp&Hb). split; [eapply below_trans; [|done]; eapply below_step; [done|constructor]|].
  intros ->. pose proof (child_lvl net lvl Hnet i k c Hc). destruct (below_lvl net lvl Hnet _ _ _ Hb). lia.
Qed.

(** Nothing is below two children. *)
Lemma other_child i a k k' c c' j :
  children_of i !! k = Some c → parent_of c a = Some (CacheObj i) → children_of i !! k' = Some c' →
  parent_of c' a = Some (CacheObj i) → k ≠ k' → below a c j → ¬ below a c' j.
Proof.
  intros Hc Hp Hc' Hp' Hk Hb Hb'. eapply (siblings_disjoint net lvl Hnet a i c c' j); try done.
  intros ->. by apply Hk, (child_unique net lvl Hnet i k k' c').
Qed.

Lemma reach_disjoint i a B m j k c :
  (k < m)%nat → children_of i !! k = Some c → parent_of c a = Some (CacheObj i) → below a c j → ¬ reach i a B m j.
Proof.
  intros Hk Hc Hp Hb (k'&c'&Hk'&_&Hc'&Hp'&Hb'). eapply (other_child i a k k'); [done..|lia|done|done].
Qed.

Lemma inv_pre_frame t i a σ ε σ' ε' :
  inv_pre t i a σ ε → (∀ j, below a i j → σ' j a = σ j a ∧ ε' j a = ε j a) → inv_pre t i a σ' ε'.
Proof.
  intros (H1&H2&H3) Hf. unfold inv_pre. rewrite (proj1 (Hf i (below_refl _ _ _))). split_and!; [done..|].
  intros j Hj. eapply links_frame; [by apply H3| |by apply Hf]. intros j' Hj'. apply Hf. by eapply below_trans.
Qed.

Section Loop.
Variable inv : nat → InvReq → M sys (Z * bool).
Variables (i : nat) (n : Node).
Hypothesis Hn : net !! i = Some n.
Hypothesis Hinv : invals inv (lvl i).
Hypothesis Hterm : nd_terminal n = false.

Lemma Hchildren : children_of i = nd_children n.
Proof. unfold children_of. by rewrite Hn. Qed.

(** What the loop leaves from child [m] on. *)
Record loop_post (t : InvType) (a : Z) (B : list bool) (m : nat) (σ : nat → Z → MESIState) (ε : nat → Z → Entry)
    (σ' : nat → Z → MESIState) (ε' : nat → Z → Entry) : Prop := {
  lp_num : numSharers (ε' i a) = numSharers (ε i a);
  lp_exclusive : exclusive (ε' i a) = exclusive (ε i a);
  lp_bits k : sharers (ε' i a) !! k = if decide (t = INV ∧ (m ≤ k)%nat) then (λ _, false) <$> B !! k else B !! k;
  lp_self : σ' i a = σ i a;
  lp_frame j b : ¬ (b = a ∧ (j = i ∨ reach i a B m j)) → σ' j b = σ j b ∧ ε' j b = ε j b;
  lp_eff j : reach i a B m j → σ' j a = eff t (σ j a) ∧ links σ' ε' j a
}.

Lemma loop_skip t a B m σ ε σ' ε' :
  sharers (ε i a) = B → B !! m = Some false → loop_post t a B (S m) σ ε σ' ε' → loop_post t a B m σ ε σ' ε'.
Proof.
  intros HB Hm []. split; try done.
  - intros k. rewrite lp_bits0. destruct (decide (k = m)) as [->|Hne].
    + rewrite Hm. simpl. repeat case_decide; done.
    + apply decide_ext. split; intros []; (split; [done|lia]).
  - intros j b Hj. apply lp_frame0. rewrite <-(reach_skip i a B m j) by congruence. done.
  - intros j Hj. apply lp_eff0. rewrite <-(reach_skip i a B m j) by congruence. done.
Qed.

Definition dropped (t : InvType) (m : nat) (e : Entry) : Entry :=
  if decide (t = INV) then mkEntry (numSharers e) (<[m := false]> (sharers e)) (exclusive e) else e.

Lemma dropped_bits t m e k : (S m ≤ k)%nat → sharers (dropped t m e) !! k = sharers e !! k.
Proof. intros H. unfold dropped. case_decide; [|done]. simpl. by rewrite list_lookup_insert_ne by lia. Qed.

(** One child, then the rest. *)
Lemma loop_send t a B m c σ ε σ1 ε1 σ2 ε2 σ' ε' :
  sharers (ε i a) = B → B !! m = Some true → children_of i !! m = Some c → parent_of c a = Some (CacheObj i) →
  inv_post t c a σ ε σ1 ε1 → σ2 = σ1 → ε2 = put ε1 i a (dropped t m (ε i a)) →
  loop_post t a (sharers (ε2 i a)) (S m) σ2 ε2 σ' ε' → loop_post t a B m σ ε σ' ε'.
Proof.
  intros HB Hm Hc Hp [Hf1 He1] -> -> []. rewrite put_eq in *.
  assert (Hreach : ∀ j, reach i a B (S m) j ↔ reach i a (sharers (dropped t m (ε i a))) (S m) j).
  { intros j. apply reach_bits. intros k Hk. rewrite dropped_bits by done. by rewrite HB. }
  assert (Hci : ∀ j, below a c j → j ≠ i).
  { intros j Hb ->. pose proof (child_lvl net lvl Hnet i m c Hc). destruct (below_lvl net lvl Hnet _ _ _ Hb). lia. }
  assert (Hsplit : ∀ j, reach i a B m j ↔ below a c j ∨ reach i a B (S m) j).
  { intros j. split.
    - intros (k&c'&Hk&HB'&Hc'&Hp'&Hb). destruct (decide (k = m)) as [->|]; [left; congruence|right].
      exists k, c'. split; [lia|done].
    - intros [Hb|(k&c'&Hk&?)]; [by exists m, c|]. exists k, c'. split; [lia|done]. }
  assert (Hself : σ1 i a = σ i a).
  { apply Hf1. intros [_ Hb]. by eapply Hci. }
  split.
  - rewrite lp_num0. unfold dropped. by case_decide.
  - rewrite lp_exclusive0. unfold dropped. by case_decide.
  - intros k. rewrite lp_bits0. destruct (decide (S m ≤ k)%nat) as [Hk|Hk].
    + rewrite dropped_bits by done. rewrite HB. apply decide_ext. split; intros []; (split; [done|lia]).
    + rewrite (decide_False (P := t = INV ∧ (S m ≤ k)%nat)) by tauto. unfold dropped. case_decide as Ht; simpl.
      * destruct (decide (k = m)) as [->|Hne].
        -- rewrite decide_True by done. rewrite HB, Hm. simpl. apply list_lookup_insert_eq. by eapply lookup_lt_Some.
        -- rewrite decide_False by lia. rewrite list_lookup_insert_ne by done. by rewrite HB.
      * rewrite ?decide_False by tauto. by rewrite HB.
  - by rewrite lp_self0.
  - intros j b Hj. rewrite Hsplit in Hj. destruct (lp_frame0 j b) as [E1 E2]; [rewrite <-Hreach; tauto|].
    rewrite E1, E2, put_ne by (destruct (decide (j = i)); [right|]; tauto). apply Hf1. tauto.
  - intros j [Hb|Hr]%Hsplit.
    + assert (∀ j, below a c j → σ' j a = σ1 j a ∧ ε' j a = ε1 j a) as Hsame.
      { intros j' Hb'. destruct (lp_frame0 j' a) as [E1 E2].
        - rewrite <-Hreach. intros [_ [->|Hr]]; [by eapply Hci|]. by eapply (reach_disjoint i a B (S m) j' m c); [lia|..].
        - rewrite E1, E2, put_ne by (left; by apply Hci). done. }
      destruct (He1 j Hb) as [E L]. rewrite (proj1 (Hsame j Hb)). split; [done|].
      eapply links_frame; [exact L| |by apply Hsame]. intros j' Hj'. apply Hsame. by eapply below_trans.
    + destruct (lp_eff0 j) as [E Lk]; [by apply Hreach|]. split; [|done]. rewrite E. f_equal. apply Hf1.
      intros [_ Hb]. by eapply (reach_disjoint i a B (S m) j m c); [lia|..].
Qed.

(** No bit of the children from [m] on is set once the loop has passed the
    last child. *)
Lemma ready_end t a σ ε B m :
  drop m (nd_children n) = [] → ready t i a σ ε B m → ∀ k, (m ≤ k)%nat → B !! k ≠ Some true.
Proof.
  intros Hd Hrd k Hk HB. destruct (Hrd k Hk HB) as (c&Hc&_). rewrite Hchildren in Hc.
  assert (drop m (nd_children n) !! (k - m)%nat = Some c) as Hc' by (rewrite lookup_drop; by replace (m + (k - m))%nat with k by lia).
  by rewrite Hd in Hc'.
Qed.

Lemma loop_none t a m σ ε :
  (∀ k, (m ≤ k)%nat → sharers (ε i a) !! k ≠ Some true) → loop_post t a (sharers (ε i a)) m σ ε σ ε.
Proof.
  intros Hno. split; try done.
  - intros k. case_decide as Hk; [|done]. destruct (sharers (ε i a) !! k) as [[]|] eqn:E; [|done..]. by destruct (Hno k (proj2 Hk)).
  - intros j (k&c&Hk&HB&_). by destruct (Hno k Hk).
Qed.

(** The other children are as they were when one has been invalidated. *)
Lemma ready_next t a m c σ ε σ1 ε1 :
  children_of i !! m = Some c → parent_of c a = Some (CacheObj i) → inv_post t c a σ ε σ1 ε1 →
  ready t i a σ ε (sharers (ε i a)) m →
  ready t i a σ1 (put ε1 i a (dropped t m (ε i a))) (sharers (dropped t m (ε i a))) (S m).
Proof.
  intros Hc Hp Hpost Hrd k Hk HB. rewrite dropped_bits in HB by done. destruct (Hrd k) as (c'&Hc2&Hp2&Hpre2); [lia|done|].
  exists c'. split_and!; [done..|]. eapply inv_pre_frame; [exact Hpre2|]. intros j Hj.
  assert (¬ below a c j) as Hnb by (eapply (other_child i a k m); [done..|lia|done]).
  rewrite put_ne; [apply (proj1 Hpost); tauto|]. left. intros ->.
  pose proof (below_lvl _ _ Hnet _ _ _ Hj) as [? _]. pose proof (child_lvl net lvl Hnet i k c' Hc2). lia.
Qed.

(** The parent is outside the tree of its child. *)
Lemma parent_kept t a m c σ ε σ1 ε1 :
  children_of i !! m = Some c → inv_post t c a σ ε σ1 ε1 → σ1 i a = σ i a ∧ ε1 i a = ε i a.
Proof.
  intros Hc Hpost. apply (proj1 Hpost). intros [_ Hb]. pose proof (below_lvl _ _ Hnet _ _ _ Hb).
  pose proof (child_lvl net lvl Hnet i m c Hc). lia.
Qed.

(** The bit of an invalidated child is cleared, on [INV] only. *)
Lemma drop_bit_runs t id a m σ ε1 α e s :
  rep s σ ε1 α → line α i id a → σ i a ≠ StI → ε1 i a = e → sharers e !! m = Some true → t ≠ FWD →
  runs (if decide (t = INV) then upd_entry i id (set_sharer false (Z.of_nat m)) else ret tt)
    (λ _ s', local_state s' = local_state s ∧ rep s' σ (put ε1 i a (dropped t m e)) α) s.
Proof.
  intros Hr Hl Hv He Hb Ht. unfold dropped. destruct (decide (t = INV)).
  - eapply runs_upd_entry; [done..| | |by intros].
    + rewrite He. unfold set_sharer. erewrite upd_child_set; [|rewrite zlookup_nat, Nat2Z.id by lia; exact Hb|done].
      rewrite Nat2Z.id. done.
    + intros E. congruence.
  - apply runs_ret. split; [done|]. eapply rep_ext; [exact Hr|done| |done]. intros j x. unfold put. case_decide as E; [|done].
    by destruct E as [-> ->].
Qed.

(** The latency of the link to a child. *)
Lemma runs_rtt m c s σ ε α {B} (k : Z → M sys B) (Q : B → sys → Prop) :
  rep s σ ε α → nd_children n !! m = Some c → (∀ rtt, 0 ≤ rtt → runs (k rtt) Q s) →
  runs (me ⇐ cache i; rtt ⇐ lift (zlookup (childrenRTTs me) (Z.of_nat m)); k rtt) Q s.
Proof.
  intros Hr Hc Hk. apply runs_bind. eapply runs_cache; [done..|]. intros me _ Hme _ _.
  pose proof (net_lat _ _ _ Hnet i n Hn) as (_&_&Hrtt&_&Hrl). rewrite <-Hme in Hrtt, Hrl, Hc. simpl in Hrtt, Hrl, Hc.
  destruct (lookup_lt_is_Some_2 (childrenRTTs me) m) as [rtt Hrttm]; [rewrite Hrl; by eapply lookup_lt_Some|].
  rewrite Forall_lookup in Hrtt.
  apply runs_bind. eapply runs_lift; [rewrite zlookup_nat, Nat2Z.id by lia; exact Hrttm|]. by eapply Hk, Hrtt.
Qed.

(** The loop over the children [cs] that follow [m]. *)
Lemma send_loop_runs id req cs m s σ ε α :
  rep s σ ε α → line α i id (inv_lineAddr req) → admits (inv_lineAddr req) → itype req ≠ FWD →
  (length (sharers (ε i (inv_lineAddr req))) = MAX_CACHE_CHILDREN) →
  σ i (inv_lineAddr req) ≠ StI →
  drop m (nd_children n) = cs → ready (itype req) i (inv_lineAddr req) σ ε (sharers (ε i (inv_lineAddr req))) m →
  runs (send_loop inv i id req cs (Z.of_nat m))
    (λ r s', ∃ σ' ε', rep s' σ' ε' α ∧ local_state s' = local_state s ∧ inv_cycle req ≤ r.1.2 ∧
      r.1.1 = zcount (drop m (sharers (ε i (inv_lineAddr req)))) ∧
      (r.2 = true → ∃ k c, (m ≤ k)%nat ∧ sharers (ε i (inv_lineAddr req)) !! k = Some true ∧ children_of i !! k = Some c ∧
         parent_of c (inv_lineAddr req) = Some (CacheObj i) ∧ excl (σ c (inv_lineAddr req))) ∧
      loop_post (itype req) (inv_lineAddr req) (sharers (ε i (inv_lineAddr req))) m σ ε σ' ε') s.
Proof.
  set (a := inv_lineAddr req). intros Hr Hl Ha Ht Hlen Hv. revert m s σ ε Hr Hlen Hv.
  induction cs as [|c cs IH]; intros m s σ ε Hr Hlen Hv Hd Hrd.
  - pose proof (ready_end _ _ _ _ _ _ Hd Hrd) as Hno. apply runs_ret. exists σ, ε. simpl.
    split_and!; [done|done|done| |done|by apply loop_none].
    rewrite (no_true (drop m _)); [by rewrite zcount_replicate|]. intros k. rewrite lookup_drop. apply Hno. lia.
  - assert (nd_children n !! m = Some c) as Hc.
    { replace m with (m + 0)%nat by lia. by rewrite <-lookup_drop, Hd. }
    assert (drop (S m) (nd_children n) = cs) as Hd'.
    { replace (S m) with (m + 1)%nat by lia. by rewrite <-drop_drop, Hd. }
    cbn [send_loop]. apply runs_bind. eapply runs_tcc_entry; [done..|].
    pose proof (lookup_lt_Some _ _ _ Hc). pose proof (net_width _ _ _ Hnet i n Hn).
    destruct (lookup_lt_is_Some_2 (sharers (ε i a)) m) as [b Hb]; [lia|].
    apply runs_bind. eapply runs_lift; [rewrite zlookup_nat, Nat2Z.id by lia; exact Hb|].
    replace (Z.of_nat m + 1) with (Z.of_nat (S m)) by lia. assert (Hcnt : zcount (drop m (sharers (ε i a))) = (if b then 1 else 0) + zcount (drop (S m) (sharers (ε i a)))).
    { by rewrite (drop_S _ _ _ Hb). }
    destruct b.
    + pose proof (net_down _ _ _ Hnet i n m c Hn Hc) as (nc&Hnc&_). rewrite <-Hchildren in Hc. destruct (Hrd m) as (c'&Hc'&Hp&Hpre); [done..|]. assert (c' = c) as -> by congruence.
      eapply runs_then; [eapply (Hinv c); [by apply (child_lvl net lvl Hnet i m)|done..]|].
      intros [r wb] s1 (σ1&ε1&Hr1&Hl1&Hcyc&Hwb&Hpost). simpl in Hcyc, Hwb. fold a in Hpost, Hwb.
      destruct (parent_kept _ _ _ _ _ _ _ _ Hc Hpost) as [Hk1 Hk2]. pose proof Hc as Hcn. rewrite Hchildren in Hcn.
      eapply runs_rtt; [done..|]. intros rtt Hrtt.
      eapply runs_then; [apply (drop_bit_runs (itype req) id a m σ1 ε1 α (ε i a)); [exact Hr1|exact Hl|by rewrite Hk1|exact Hk2|exact Hb|exact Ht]|].
      intros [] s2 [Hl2 Hr2].
      eapply runs_then.
      { apply (IH (S m) s2); [exact Hr2| | |done|].
        - rewrite put_eq. unfold dropped. case_decide; [|done]. simpl. by rewrite length_insert.
        - by rewrite Hk1.
        - rewrite put_eq. by eapply ready_next. }
      intros [[sent mx] wb'] s3 (σ'&ε'&Hr3&Hl3&Hmx&Hsent&Hwb'&Hlp). simpl in Hmx, Hsent, Hwb'. rewrite put_eq in Hsent, Hwb'.
      apply runs_ret. exists σ', ε'. simpl. split_and!; [done|congruence|lia| | |].
      * rewrite Hcnt, Hsent. unfold dropped. case_decide; [|lia]. simpl. rewrite drop_insert_lt by lia. lia.
      * intros Hor. destruct wb; [by exists m, c; split_and!; [..|apply Hwb]|]. simpl in Hor.
        destruct (Hwb' Hor) as (k&c2&Hk&HB&Hc2&Hp2&Hx). rewrite dropped_bits in HB by done. exists k, c2. split_and!; [lia|done..|].
        rewrite <-(proj1 (proj1 Hpost c2 a ltac:(intros [_ Hb2]; eapply (other_child i a m k); [done..|lia|done|constructor]))). done.
      * by eapply loop_send.
    + eapply runs_mono.
      { apply (IH (S m) s σ ε); [done..|]. intros k Hk. apply Hrd. lia. }
      intros r s' (σ'&ε'&?&?&?&Hs&Hw&Hlp). exists σ', ε'. split_and!; [done|done|done|lia| |by eapply loop_skip].
      intros Hx. destruct (Hw Hx) as (k&c'&?&?). exists k, c'. split; [lia|done].
Qed.

(** ** [sendInvalidates] *)
Record send_post (t : InvType) (a : Z) (σ : nat → Z → MESIState) (ε : nat → Z → Entry)
    (σ' : nat → Z → MESIState) (ε' : nat → Z → Entry) : Prop := {
  sp_entry : if decide (t = INV) then empty_entry (ε' i a)
             else sharers (ε' i a) = sharers (ε i a) ∧ numSharers (ε' i a) = numSharers (ε i a) ∧ isExclusive (ε' i a) = false ∧
               (exclusive (ε' i a) = true → exclusive (ε i a) = true);
  sp_self : σ' i a = σ i a;
  sp_frame j b : ¬ (b = a ∧ (j = i ∨ reach i a (sharers (ε i a)) 0 j)) → σ' j b = σ j b ∧ ε' j b = ε j b;
  sp_eff j : (t = INVX → isExclusive (ε i a) = true) → reach i a (sharers (ε i a)) 0 j → σ' j a = eff t (σ j a) ∧ links σ' ε' j a;
  sp_skip j b : t = INVX → isExclusive (ε i a) = false → σ' j b = σ j b ∧ ε' j b = ε j b
}.

(** The entry after the loop. *)
Definition emptied (t : InvType) (e : Entry) : Entry := if decide (t = INV) then set_numSharers 0 e else set_exclusive false e.

Lemma loop_send_post t a σ ε σ' ε' :
  t ≠ FWD → length (sharers (ε i a)) = MAX_CACHE_CHILDREN → (t = INVX → isExclusive (ε i a) = true) →
  loop_post t a (sharers (ε i a)) 0 σ ε σ' ε' → send_post t a σ ε σ' (put ε' i a (emptied t (ε' i a))).
Proof.
  intros Ht Hlen Hx []. assert (∀ j, reach i a (sharers (ε i a)) 0 j → j ≠ i) as Hne by (intros j Hj; by eapply reach_lvl).
  split; [|done| | |].
  - rewrite put_eq. unfold emptied. case_decide as E.
    + split; [done|]. change (sharers (ε' i a) = replicate MAX_CACHE_CHILDREN false). apply list_eq. intros k. rewrite lp_bits0, decide_True by (split; [done|lia]).
      rewrite <-Hlen. destruct (sharers (ε i a) !! k) as [x|] eqn:Ek; simpl.
      * symmetry. apply lookup_replicate. split; [done|by eapply lookup_lt_Some].
      * symmetry. apply lookup_ge_None. rewrite length_replicate. by apply lookup_ge_None.
    + unfold isExclusive. simpl. rewrite andb_false_r. split_and!; [|done..]. apply list_eq. intros k.
      rewrite lp_bits0, decide_False by (by intros [? _]). done.
  - intros j b Hj. rewrite put_ne; [by apply lp_frame0|]. destruct (decide (j = i)); [right|left]; tauto.
  - intros j _ Hj. destruct (lp_eff0 j Hj) as [E L]. split; [done|]. eapply links_frame; [exact L|done|].
    apply put_ne. left. by apply Hne.
  - intros j b -> He. by rewrite Hx in He.
Qed.

Lemma sendInvalidates_runs id t a cyc src s σ ε α :
  rep s σ ε α → line α i id a → admits a → t ≠ FWD → σ i a ≠ StI →
  length (sharers (ε i a)) = MAX_CACHE_CHILDREN → numSharers (ε i a) = zcount (sharers (ε i a)) →
  ((t = INVX → isExclusive (ε i a) = true) → ready t i a σ ε (sharers (ε i a)) 0) →
  runs (sendInvalidates inv i a id t cyc src)
    (λ r s', ∃ σ' ε', rep s' σ' ε' α ∧ local_state s' = local_state s ∧ cyc ≤ r.1 ∧
      (r.2 = true → ∃ k c, sharers (ε i a) !! k = Some true ∧ children_of i !! k = Some c ∧
         parent_of c a = Some (CacheObj i) ∧ excl (σ c a)) ∧
      send_post t a σ ε σ' ε') s.
Proof.
  intros Hr Hl Ha Ht Hv Hlen Hnum Hrd. unfold sendInvalidates. apply runs_bind. eapply runs_tcc_entry; [done..|].
  destruct (bool_decide (t = INVX) && negb (isExclusive (ε i a))) eqn:Eskip.
  { apply andb_true_iff in Eskip as [->%bool_decide_eq_true Hne%negb_true_iff]. apply runs_ret. exists σ, ε.
    split_and!; [done|done|simpl; lia|done|]. split; try done. intros j Hx. by rewrite Hx in Hne. }
  assert (t = INVX → isExclusive (ε i a) = true) as Hx.
  { intros ->. rewrite bool_decide_true in Eskip by done. by destruct (isExclusive (ε i a)). }
  specialize (Hrd Hx). unfold isEmpty. destruct (Z.eqb_spec (numSharers (ε i a)) 0) as [H0|H0].
  { assert (empty_entry (ε i a)) as He.
    { split; [done|]. rewrite <-Hlen. apply zcount_zero. lia. }
    assert (∀ j, ¬ reach i a (sharers (ε i a)) 0 j) as Hno by (intros j (k&c&_&HB%(empty_bit _ k He)&_); done).
    apply runs_ret. exists σ, ε. split_and!; [done|done|simpl; lia|done|]. split; try done.
    - destruct (decide (t = INV)) as [_|Et]; [exact He|]. destruct t; try done. specialize (Hx eq_refl). apply isExclusive_1 in Hx. lia.
    - intros j _ Hj. by apply Hno in Hj. }
  apply runs_bind. eapply runs_cache; [done..|]. intros me _ Hme _ _.
  eapply runs_then.
  { apply (send_loop_runs id (mkInvReq a t cyc src) (children me) 0 s σ ε α); try done. by rewrite <-Hme. }
  intros [[sent mx] wb] s1 (σ'&ε'&Hr1&Hl1&Hmx&Hsent&Hwb&Hlp). cbn [fst snd inv_lineAddr itype inv_cycle] in *.
  apply runs_bind. eapply runs_tcc_entry; [done..|]. pose proof (lp_num _ _ _ _ _ _ _ _ Hlp) as Enum.
  apply runs_bind, runs_assert; [apply Z.eqb_eq; rewrite Hsent, drop_0, Enum; lia|].
  pose proof (lp_self _ _ _ _ _ _ _ _ Hlp) as Eself.
  eapply runs_then with (P := λ _ s2, local_state s2 = local_state s1 ∧ rep s2 σ' (put ε' i a (emptied t (ε' i a))) α).
  - unfold emptied. destruct (decide (t = INV)) as [->|Hne].
    + eapply runs_upd_entry; [done..|intros E; congruence|by intros].
    + assert (t = INVX) as -> by (by destruct t). destruct (isExclusive_1 _ (Hx eq_refl)) as [H1 H2].
      apply runs_bind, runs_assert; [by rewrite (lp_exclusive _ _ _ _ _ _ _ _ Hlp)|].
      apply runs_bind, runs_assert; [by rewrite Enum; apply Z.eqb_eq|].
      eapply runs_upd_entry; [done..|intros E; congruence|by intros].
  - intros [] s2 [Hl2 Hr2]. apply runs_ret. eexists _, _. split_and!; [exact Hr2|congruence|done| |by apply loop_send_post].
    intros Ewb. destruct (Hwb Ewb) as (k&c&_&?). eauto.
Qed.

End Loop.
End Sends.

(** ** [Cache::invalidate] keeps its contract

    [invalidate_runs]: with as much fuel as levels, an invalidation returns and
    has exactly the effect [inv_post]. *)

Section Down.
Context {A D : Type} `{!CacheArray A} `{!ArrayLaws A}.
Abbreviation sys := (Sys A D).
Variable net : list Node.
Variable lvl : nat → nat.
Context {nm : nat} (Hnet : net_ok net lvl nm).
Variable memory : list D → Prop.
Abbreviation rep := (rep net memory).
Abbreviation below := (below net).
Abbreviation links := (links net).
Abbreviation kids := (kids net).
Abbreviation children_of := (children_of net).
Abbreviation parent_of := (parent_of net).

Lemma below_strict a i j : below a i j → parent_of i a ≠ Some (CacheObj j).
Proof.
  intros Hb Hp. pose proof (parent_lvl net lvl Hnet _ _ _ Hp). destruct (below_lvl net lvl Hnet _ _ _ Hb). lia.
Qed.

Lemma kids_put_self σ i a x : kids (put σ i a x) i a = kids σ i a.
Proof.
  apply kids_ext. intros c Hc. apply put_ne. left. intros ->. by apply (below_strict a i i (below_refl _ _ _)).
Qed.

Lemma ready_links t i a σ ε :
  (∀ j, below a i j → links σ ε j a) → (t = INVX → isExclusive (ε i a) = true) →
  ready net t i a σ ε (sharers (ε i a)) 0.
Proof.
  intros Hl Hx k _ Hk. pose proof (Hl i (below_refl _ _ _)) as L. pose proof (proj1 (lk_bit _ _ _ L k) Hk) as (x&Hkx&Hne).
  destruct (kid_valid net _ _ _ _ _ Hkx Hne) as (c&Hc&Hp&->). exists c. split_and!; [done..|]. split_and!; [done| |].
  - intros Ht. by eapply (lk_shared _ _ _ L k); [|apply Hx|].
  - intros j Hj. apply Hl. eapply below_trans; [|done]. eapply below_step; [done|constructor].
Qed.

Section Send.
Variables (t : InvType) (i : nat) (a : Z).
Variables (σ : nat → Z → MESIState) (ε : nat → Z → Entry) (σ' : nat → Z → MESIState) (ε' : nat → Z → Entry).
Hypothesis Hlinks : ∀ j, below a i j → links σ ε j a.
Hypothesis Ht : t ≠ FWD.
Hypothesis Hpost : send_post net i t a σ ε σ' ε'.

(** Below children that do not share the line nothing changes, and there is
    nothing to change. *)
Lemma eff_unshared c j :
  parent_of c a = Some (CacheObj i) → below a c j → (∀ k, children_of i !! k = Some c → sharers (ε i a) !! k ≠ Some true) →
  σ j a = StI ∧ ¬ reach net i a (sharers (ε i a)) 0 j.
Proof.
  intros Hp Hb Hno. destruct (kid_of net lvl Hnet σ c i a Hp) as (k&Hc&Hk).
  assert (σ c a = StI) as Hc0.
  { destruct (decide (σ c a = StI)) as [|Hne]; [done|]. destruct (Hno k Hc). apply (lk_bit _ _ _ (Hlinks i (below_refl _ _ _))). eauto. }
  split.
  - destruct (decide (σ j a = StI)) as [|Hne]; [done|]. destruct (below_valid net lvl Hnet σ ε a c j) as [Hv _]; [|done|by apply Hv in Hne].
    intros j' Hj'. apply Hlinks. eapply below_trans; [|done]. eapply below_step; [done|constructor].
  - intros (k'&c'&_&HB&Hc'&Hp'&Hb'). destruct (decide (k' = k)) as [->|Hk'].
    + by destruct (Hno k Hc).
    + eapply (other_child net lvl Hnet i a k k' c c' j); done.
Qed.

Lemma send_below j : below a i j → j ≠ i → σ' j a = eff t (σ j a) ∧ links σ' ε' j a.
Proof.
  intros Hb Hne. destruct (below_child net a i j Hb Hne) as (c&Hp&Hbc).
  assert (∀ j', below a c j' → below a i j' ∧ j' ≠ i) as Hdown.
  { intros j' Hj'. split; [eapply below_trans; [|done]; eapply below_step; [done|constructor]|].
    intros ->. by apply (below_strict a c i Hj'). }
  destruct (decide (t = INVX ∧ isExclusive (ε i a) = false)) as [[-> Hx]|Hx].
  - assert (∀ j b, σ' j b = σ j b ∧ ε' j b = ε j b) as Hs by (intros; exact (sp_skip _ _ _ _ _ _ _ _ Hpost _ _ eq_refl Hx)).
    rewrite (proj1 (Hs j a)). split; [|eapply links_frame; [by apply Hlinks|intros; apply Hs|apply Hs]].
    assert (¬ excl (σ j a)) as Hn; [|destruct (σ j a); try done; destruct Hn; solve [by left | by right]].
    intros Hex. destruct (kid_of net lvl Hnet σ c i a Hp) as (k&_&Hk). pose proof (Hlinks i (below_refl _ _ _)) as L.
    destruct (lk_excl _ _ _ L k _ Hk) as [Hx' _]; [|by rewrite Hx in Hx'].
    eapply (below_valid net lvl Hnet σ ε a c j); [|done..]. intros j' Hj'. by apply Hlinks, Hdown.
  - destruct (child_index net lvl Hnet c i a Hp) as (k&_&_&_&Hc). destruct (decide (sharers (ε i a) !! k = Some true)) as [HB|Hno].
    + apply (sp_eff _ _ _ _ _ _ _ _ Hpost); [intros ->; destruct (isExclusive (ε i a)); [done|by destruct Hx]|].
      exists k, c. split; [lia|done].
    + assert (∀ j', below a c j' → σ j' a = StI ∧ ¬ reach net i a (sharers (ε i a)) 0 j') as Hun.
      { intros j' Hj'. apply (eff_unshared c j' Hp Hj'). intros k' Hk'. by rewrite (child_unique net lvl Hnet i k' k c Hk' Hc). }
      assert (∀ j', below a c j' → σ' j' a = σ j' a ∧ ε' j' a = ε j' a) as Hs.
      { intros j' Hj'. apply (sp_frame _ _ _ _ _ _ _ _ Hpost). intros [_ [->|Hr]]; [by apply (Hdown _ Hj')|by apply (Hun _ Hj')]. }
      rewrite (proj1 (Hs j Hbc)), (proj1 (Hun j Hbc)). split; [by destruct t|].
      eapply links_frame; [by apply Hlinks| |by apply Hs]. intros j' Hj'. apply Hs. by eapply below_trans.
Qed.

(** Below a child that is not marked nothing changes. *)
Lemma send_off c k j :
  children_of i !! k = Some c → parent_of c a = Some (CacheObj i) → sharers (ε i a) !! k ≠ Some true → below a c j →
  σ' j a = σ j a ∧ ε' j a = ε j a.
Proof.
  intros Hc Hp HB Hb. apply (sp_frame _ _ _ _ _ _ _ _ Hpost). intros [_ [->|(k'&c'&_&HB'&Hc'&Hp'&Hb')]].
  - by apply (below_strict a c i Hb).
  - destruct (decide (k' = k)) as [->|Hk]; [done|]. by eapply (other_child net lvl Hnet i a k k' c c' j).
Qed.

Lemma send_outside j b : ¬ (b = a ∧ below a i j) → σ' j b = σ j b ∧ ε' j b = ε j b.
Proof.
  intros H. apply (sp_frame _ _ _ _ _ _ _ _ Hpost). intros [-> [->|Hr]]; apply H; (split; [done|]); [constructor|].
  by eapply reach_lvl.
Qed.

Lemma send_kids k : kids σ' i a !! k = eff t <$> kids σ i a !! k.
Proof.
  unfold kids, ZsimDown.kids. rewrite !list_lookup_fmap. destruct (children_of i !! k) as [c|] eqn:Hc; [|done]. simpl. f_equal.
  case_decide as Hp; [|by destruct t]. destruct (send_below c) as [E _]; [eapply below_step; [done|constructor]| |done].
  intros ->. by apply (below_strict a i i (below_refl _ _ _)).
Qed.

(** The line afterwards, with whatever state its cache gives it. *)
Lemma send_link ps : (t = INVX → σ i a ≠ StI → ps ≠ StI) → link_ok ps (ε' i a) (kids σ' i a).
Proof.
  intros Hps. pose proof (sp_entry _ _ _ _ _ _ _ _ Hpost) as He. pose proof send_kids as Hk. destruct (decide (t = INV)) as [E|Hne].
  - apply link_none; [done|]. intros k x. rewrite Hk, E. destruct (kids σ i a !! k); [|done]. simpl. by intros [= <-].
  - destruct He as (H1&H2&H3&H4). assert (t = INVX) as E by (clear -Ht Hne; by destruct t). rewrite E in Hps, Hk.
    eapply link_downgrade; [by apply (Hlinks i (below_refl _ _ _))|by auto|done|done|done|done|exact Hk].
Qed.

End Send.

(** ** A cache invalidates a line *)
Lemma runs_processInval s σ ε α i id a t (Q : bool → sys → Prop) :
  rep s σ ε α → line α i id a → is_Some (net !! i) → t ≠ FWD → σ i a ≠ StI → (t = INVX → excl (σ i a)) →
  (t = INV → empty_entry (ε i a)) →
  (∀ s', local_state s' = local_state s → rep s' (put σ i a (eff t (σ i a))) ε α → Q (bool_decide (σ i a = StM)) s') →
  runs (bcc_processInval i id t) Q s.
Proof.
  intros Hr Hl Hn Ht Hv Hx He HQ. unfold bcc_processInval. apply runs_bind. eapply runs_bcc_state; [done..|].
  apply runs_bind, runs_assert; [by apply bool_decide_eq_true|]. destruct t; [| |done].
  - apply runs_bind. eapply runs_set_bcc_state; [done..|by auto|]. intros s1 Hl1 Hr1.
    apply runs_bind. eapply runs_count; [done..|]. intros s2 Hl2 Hr2. apply runs_ret. apply HQ; [congruence|].
    by destruct (σ i a).
  - specialize (Hx eq_refl). apply runs_bind, runs_assert; [by apply bool_decide_eq_true|].
    apply runs_bind. eapply runs_set_bcc_state; [done..|]. intros s1 Hl1 Hr1.
    apply runs_bind. eapply runs_count; [done..|]. intros s2 Hl2 Hr2. apply runs_ret. apply HQ; [congruence|].
    by destruct (σ i a).
Qed.

Lemma terminal_entry s σ ε α i n a : rep s σ ε α → net !! i = Some n → nd_terminal n = true → ε i a = clear.
Proof.
  intros Hr Hn Ht. destruct (rep_cache _ _ _ _ _ _ _ _ Hr Hn) as (c&Hc&<-). pose proof (rep_ok _ _ _ _ _ _ Hr i c Hc) as Hok.
  rewrite <-(rep_en _ _ _ _ _ _ Hr i c a Hc). unfold En1. destruct (find (array c) a) as [id|]; [|done]. simpl.
  simpl in Ht. pose proof (ck_tcc c Hok) as Hlen. rewrite Ht in Hlen. apply nil_length_inv in Hlen. rewrite Hlen.
  unfold zlookup. by destruct (id <? 0).
Qed.

Lemma terminal_children i n : net !! i = Some n → nd_terminal n = true → children_of i = [].
Proof. intros Hn Ht. unfold children_of, ZsimDown.children_of. rewrite Hn. simpl. by eapply (net_terminal _ _ _ Hnet). Qed.

Lemma valid_line s σ ε α i a : rep s σ ε α → is_Some (net !! i) → σ i a ≠ StI → ∃ id, line α i id a.
Proof.
  intros Hr [n Hn] Hv. destruct (rep_cache _ _ _ _ _ _ _ _ Hr Hn) as (c&Hc&_). rewrite <-(rep_st _ _ _ _ _ _ Hr i c a Hc) in Hv.
  unfold St1 in Hv. destruct (find (array c) a) as [id|] eqn:Hf; [|done]. exists id, (array c). split; [|done]. by eapply rep_arr.
Qed.

(** The effect below a terminal: only its own line. *)
Lemma terminal_post t i n a σ ε :
  net !! i = Some n → nd_terminal n = true → t ≠ FWD → links σ ε i a → (t = INV → empty_entry (ε i a)) →
  inv_post net t i a σ ε (put σ i a (eff t (σ i a))) ε.
Proof.
  intros Hn Hterm Ht L He.
  assert (∀ j, below a i j → j = i) as Honly.
  { intros j Hb. destruct (decide (j = i)) as [|Hne]; [done|]. destruct (below_child net a i j Hb Hne) as (c&Hp&_).
    destruct (child_index net lvl Hnet c i a Hp) as (k&_&_&_&Hc). by rewrite (terminal_children i n Hn Hterm) in Hc. }
  split.
  - intros j b Hj. split; [|done]. apply put_ne. destruct (decide (j = i)) as [->|]; [right|by left]. intros ->. apply Hj. by split; [|constructor].
  - intros j ->%Honly. rewrite put_eq. split; [done|]. unfold links, ZsimDown.links in *. rewrite put_eq, kids_put_self.
    assert (kids σ i a = []) as Hk by (unfold kids, ZsimDown.kids; by rewrite (terminal_children i n Hn Hterm)).
    rewrite Hk in *. split; try apply L; try done.
Qed.

Lemma cc_processInv_runs inv i id req cyc s σ ε α :
  invals net lvl memory inv (lvl i) → is_Some (net !! i) → rep s σ ε α → line α i id (inv_lineAddr req) → admits (inv_lineAddr req) →
  itype req ≠ FWD → inv_pre net (itype req) i (inv_lineAddr req) σ ε → inv_cycle req ≤ cyc →
  runs (cc_processInv inv i req id cyc) (λ r s', ∃ σ' ε', rep s' σ' ε' α ∧ local_state s' = local_state s ∧ inv_cycle req ≤ r.1 ∧
    (r.2 = true → excl (σ i (inv_lineAddr req))) ∧ inv_post net (itype req) i (inv_lineAddr req) σ ε σ' ε') s.
Proof.
  set (a := inv_lineAddr req). set (t := itype req). intros Hinv [n Hn] Hr Hl Ha Ht (Hv&Hx&Hlk) Hcyc. unfold cc_processInv.
  pose proof (Hlk i (below_refl _ _ _)) as L. assert (is_Some (net !! i)) as Hn' by (by rewrite Hn).
  apply runs_bind. eapply runs_cache; [done..|]. intros me _ Hme _ _. assert (terminal me = nd_terminal n) as -> by (by rewrite <-Hme).
  destruct (nd_terminal n) eqn:Hterm.
  - apply runs_bind, runs_ret. pose proof (terminal_entry s σ ε α i n a Hr Hn Hterm) as He.
    apply runs_bind. eapply runs_processInval; [done..|by rewrite He|]. intros s1 Hl1 Hr1. apply runs_ret.
    eexists _, _. split_and!; [exact Hr1|done|done| |apply (terminal_post t i n a); try done; by rewrite He].
    simpl. intros Hwb%bool_decide_eq_true. by right.
  - eapply runs_then.
    { assert (tcc_processInval inv i a id t cyc (inv_srcId req) = sendInvalidates inv i a id t cyc (inv_srcId req)) as E by (by destruct t).
      fold a t. rewrite E.
      eapply (sendInvalidates_runs net lvl Hnet memory inv i n Hn Hinv Hterm); try done; [apply L|apply L|].
      intros Hx'. by apply ready_links. }
    intros [r wb] s1 (σ'&ε'&Hr1&Hl1&Hc1&Hwb&Hpost). simpl in Hc1, Hwb. pose proof (sp_self _ _ _ _ _ _ _ _ Hpost) as Es.
    apply runs_bind. eapply runs_processInval; [done..|by rewrite Es|by rewrite Es| |].
    { intros Et. pose proof (sp_entry _ _ _ _ _ _ _ _ Hpost) as He. by rewrite decide_True in He. }
    intros s2 Hl2 Hr2. apply runs_ret. rewrite Es in *. eexists _, _. split_and!; [exact Hr2|congruence|simpl; lia| |].
    + simpl. intros [->|Hm%bool_decide_eq_true]%orb_true_iff; [|by right]. destruct (Hwb eq_refl) as (k&c&_&Hc&Hp&Hxc).
      destruct (kid_of net lvl Hnet σ c i a Hp) as (k'&_&Hk). by eapply (lk_excl _ _ _ L).
    + split.
      * intros j b Hj. rewrite put_ne; [by apply (send_outside t i a σ ε σ' ε' Hpost)|]. destruct (decide (j = i)) as [->|]; [right|by left].
        intros ->. apply Hj. by split; [|constructor].
      * intros j Hb. destruct (decide (j = i)) as [->|Hne].
        -- rewrite put_eq. split; [done|]. unfold links, ZsimDown.links. rewrite put_eq, kids_put_self. 
           apply (send_link t i a σ ε σ' ε' Hlk Ht Hpost). fold t. intros ->. clear. by destruct (σ i a).
        -- destruct (send_below t i a σ ε σ' ε' Hlk Ht Hpost j Hb Hne) as [E Lj]. rewrite put_ne by (by left). split; [done|].
           eapply links_frame; [exact Lj| |done]. intros j' Hj'. apply put_ne. left. intros ->. 
           pose proof (below_lvl net lvl Hnet _ _ _ Hj') as [? _]. pose proof (below_lvl net lvl Hnet _ _ _ Hb) as [_ Hlt]. specialize (Hlt Hne). lia.
Qed.

Lemma finishInvalidate_runs inv i req s σ ε α :
  invals net lvl memory inv (lvl i) → is_Some (net !! i) → rep s σ ε α → admits (inv_lineAddr req) →
  itype req ≠ FWD → inv_pre net (itype req) i (inv_lineAddr req) σ ε →
  runs (finishInvalidate inv i req) (λ r s', ∃ σ' ε', rep s' σ' ε' α ∧ local_state s' = local_state s ∧ inv_cycle req ≤ r.1 ∧
    (r.2 = true → excl (σ i (inv_lineAddr req))) ∧ inv_post net (itype req) i (inv_lineAddr req) σ ε σ' ε') s.
Proof.
  intros Hinv Hn Hr Ha Ht Hpre. destruct Hn as [n Hn]. assert (is_Some (net !! i)) as Hn' by (by rewrite Hn).
  destruct (valid_line s σ ε α i (inv_lineAddr req) Hr Hn' (proj1 Hpre)) as [id Hl]. unfold finishInvalidate.
  apply runs_bind. eapply runs_cache; [done..|]. intros me Hme Hnode Hok Hα.
  destruct Hl as (r0&Hα'&Hf). assert (r0 = array me) as -> by congruence.
  apply runs_bind. eapply runs_lift; [by eapply lookup_none; [apply Hok|]|]. rewrite Hf. simpl.
  apply runs_bind. eapply runs_set_array; [done|done|apply Hok|done|]. intros s1 Hl1 Hr1.
  destruct (find_tag _ _ _ _ (ck_array _ Hok) Hf) as [Hid _].
  apply runs_bind, runs_assert; [by rewrite (proj2 (Z.eqb_neq id (-1))) by lia|].
  assert (rep s1 σ ε α) as Hr1'.
  { eapply rep_ext; [exact Hr1|done..|]. intros j. unfold putA. case_decide; [by subst|done]. }
  eapply runs_mono; [eapply (cc_processInv_runs inv i id req); try done; [by exists (array me)|]|].
  - pose proof (net_lat _ _ _ Hnet i n Hn) as (_&Hlat&_). rewrite <-Hnode in Hlat. simpl in Hlat. lia.
  - intros r s2 (σ'&ε'&?&?&?). exists σ', ε'. split_and!; [done|congruence|tauto..].
Qed.

(** Enough levels: the invalidation returns. *)
Lemma invalidate_runs fuel : invals net lvl memory (invalidate fuel) fuel.
Proof.
  induction fuel as [|fuel IH]; intros i s σ ε α req Hlt Hn Hr Ha Ht Hpre; [lia|].
  cbn [invalidate]. apply runs_bind. apply (runs_filter_invalidate net memory s σ ε α); [done|done|]. intros s1 Hloc Hr1.
  eapply runs_mono.
  - apply (finishInvalidate_runs (invalidate fuel) i req s1 σ ε α); try done. intros j s' σ' ε' α' req' Hj. apply IH. lia.
  - intros r s2 (σ'&ε'&H1&H2&H3). exists σ', ε'. split_and!; [done|congruence|apply H3..].
Qed.

End Down.
