(* ===== verification/ZsimGrant.v ===== *)
(** * Granting a line to a child

    The invariant of the whole tree, and what a parent does with a child's
    request when it holds the line itself: it grants the rights and keeps the
    invariant. *)

From S2P Require Import Prelude ZsimMem ZsimRepl ZsimArray ZsimCoherence ZsimInv ZsimDown.

(** ** The coherence invariant of zsim's caches and the steps that keep it

    [coh]: the links of every cache hold, and a valid line belongs to an address
    the cache is asked for.  The steps of the protocol - a state that changes
    without a change of rights, a child that gets or gives back a line, the
    invalidations of a line's sharers - keep it.  [coh_single_writer] is what it
    is for: two caches can hold a line, one of them with exclusive rights, only
    if one is above the other. *)

Section Coh.
Variable net : list Node.
Variable lvl : nat → nat.
Context {nm : nat} (Hnet : net_ok net lvl nm).
(** The addresses the arrays can hold. *)
Variable admitted : Z → Prop.
Abbreviation below := (below net).
Abbreviation links := (links net).
Abbreviation kids := (kids net).
Abbreviation children_of := (children_of net).
Abbreviation parent_of := (parent_of net).

Record coh (σ : nat → Z → MESIState) (ε : nat → Z → Entry) : Prop := {
  coh_links p a : is_Some (net !! p) → links σ ε p a;
  coh_routed p a : is_Some (net !! p) → σ p a ≠ StI → routed net p a ∧ admitted a
}.

Lemma parent_some i a o : parent_of i a = Some o → is_Some (net !! i).
Proof. intros H. destruct (parent_elem net i a o H) as (n&->&_). done. Qed.

Lemma parent_net i a p : parent_of i a = Some (CacheObj p) → is_Some (net !! p).
Proof.
  intros H. destruct (parent_elem net i a _ H) as (n&Hn&Hp). destruct (net_up _ _ _ Hnet i n p Hn Hp) as (np&->&_). done.
Qed.

Lemma below_net a i j : is_Some (net !! i) → below a i j → is_Some (net !! j).
Proof. intros Hi. destruct 1 as [|j p Hp _]; [done|by eapply parent_some]. Qed.

Lemma coh_below σ ε a i j : coh σ ε → is_Some (net !! i) → below a i j → links σ ε j a.
Proof. intros H Hi Hb. apply (coh_links _ _ H). by eapply below_net. Qed.

Lemma kids_put_child σ p ch k a x :
  parent_of ch a = Some (CacheObj p) → children_of p !! k = Some ch → kids (put σ ch a x) p a = <[k := x]> (kids σ p a).
Proof.
  intros Hp Hk. apply list_eq. intros k'. unfold ZsimDown.kids. destruct (decide (k' = k)) as [->|Hne].
  - rewrite list_lookup_insert_eq by (rewrite length_fmap; by eapply lookup_lt_Some).
    rewrite list_lookup_fmap, Hk. simpl. by rewrite decide_True, put_eq.
  - rewrite list_lookup_insert_ne by done. rewrite !list_lookup_fmap. destruct (children_of p !! k') as [c|] eqn:Hc; [|done]. simpl.
    rewrite put_ne; [done|]. left. intros ->. by apply Hne, (child_unique net lvl Hnet p k' k ch).
Qed.

Lemma kids_put_other σ q b ch a x : parent_of ch a ≠ Some (CacheObj q) ∨ b ≠ a → kids (put σ ch a x) q b = kids σ q b.
Proof.
  intros H. apply kids_ext. intros c Hc. destruct (decide (c = ch ∧ b = a)) as [[-> ->]|Hne]; [by destruct H|].
  apply put_ne. destruct (decide (c = ch)); [right|left]; tauto.
Qed.

(** The state of one cache and the entry of its parent change. *)
Lemma coh_put_child σ ε p ch k a x e :
  (∀ q b, is_Some (net !! q) → ¬ (b = a ∧ (q = p ∨ q = ch)) → links σ ε q b) →
  (∀ q b, is_Some (net !! q) → σ q b ≠ StI → routed net q b ∧ admitted b) →
  parent_of ch a = Some (CacheObj p) → children_of p !! k = Some ch →
  link_ok (σ p a) e (<[k := x]> (kids σ p a)) → link_ok x (ε ch a) (kids σ ch a) →
  (x ≠ StI → routed net ch a ∧ admitted a) →
  coh (put σ ch a x) (put ε p a e).
Proof.
  intros Hl Hv Hp Hk Lp Lc Hx. assert (Hne : p ≠ ch).
  { intros ->. by apply (below_strict net lvl Hnet a ch ch (below_refl _ _ _)). }
  split.
  - intros q b Hq. unfold ZsimDown.links. destruct (decide (b = a)) as [->|Hba].
    + destruct (decide (q = p)) as [->|Hqp].
      * rewrite put_eq, put_ne by (by left). by rewrite (kids_put_child σ p ch k).
      * rewrite (put_ne ε) by (by left). rewrite kids_put_other by (left; congruence).
        destruct (decide (q = ch)) as [->|Hqc]; [by rewrite put_eq|]. rewrite put_ne by (by left). apply Hl; [done|tauto].
    + rewrite !put_ne by (by right). rewrite kids_put_other by (by right). apply Hl; [done|tauto].
  - intros q b Hq. unfold put. case_decide as E; [destruct E as [-> ->]; done|by apply Hv].
Qed.

(** A cache whose parent is the memory. *)
Lemma coh_put_root σ ε ch a x :
  coh σ ε → is_Some (net !! ch) → (∀ p, parent_of ch a ≠ Some (CacheObj p)) → link_ok x (ε ch a) (kids σ ch a) →
  (x ≠ StI → routed net ch a ∧ admitted a) → coh (put σ ch a x) ε.
Proof.
  intros [Hl Hv] Hch Hp Lc Hx. split.
  - intros q b Hq. unfold ZsimDown.links. destruct (decide (b = a)) as [->|Hba].
    + rewrite kids_put_other by (by left). destruct (decide (q = ch)) as [->|Hqc]; [by rewrite put_eq|].
      rewrite put_ne by (by left). by apply Hl.
    + rewrite put_ne by (by right). rewrite kids_put_other by (by right). by apply Hl.
  - intros q b Hq. unfold put. case_decide as E; [destruct E as [-> ->]; done|by apply Hv].
Qed.

Lemma parent_cases ch a : (∃ p, parent_of ch a = Some (CacheObj p)) ∨ (∀ p, parent_of ch a ≠ Some (CacheObj p)).
Proof. destruct (parent_of ch a) as [[p|j]|]; [left; by exists p|by right..]. Qed.

(** The rights of a cache stay what they are. *)
Lemma coh_same_rights σ ε ch a y :
  coh σ ε → is_Some (net !! ch) → σ ch a ≠ StI → y ≠ StI → (excl y ↔ excl (σ ch a)) → coh (put σ ch a y) ε.
Proof.
  intros H Hch Hv Hy Hr. pose proof (coh_links _ _ H) as Hl. pose proof (coh_routed _ _ H) as Hro.
  assert (link_ok y (ε ch a) (kids σ ch a)) as Lc.
  { eapply link_parent; [by apply Hl|tauto|done]. }
  destruct (parent_cases ch a) as [[p Hp]|Hp].
  - destruct (kid_of net lvl Hnet σ ch p a Hp) as (k&Hk&Hkid).
    assert (coh (put σ ch a y) (put ε p a (ε p a))) as [Hl' Hv'].
    { eapply coh_put_child; try done; [by intros; apply Hl| |by intros; apply Hro].
      eapply link_same_rights; [apply Hl; by eapply parent_net|done..]. }
    split; [|done]. intros q b Hq. specialize (Hl' q b Hq). unfold ZsimDown.links in *.
    enough (put ε p a (ε p a) q b = ε q b) as <- by done. unfold put. case_decide as E; [by destruct E as [-> ->]|done].
  - by apply coh_put_root; [..|by intros; apply Hro].
Qed.

(** What is not below a cache does not see the changes below it. *)
Lemma links_outside σ ε σ' ε' i a q b :
  (∀ j c, ¬ (c = a ∧ below a i j) → σ' j c = σ j c ∧ ε' j c = ε j c) → σ' i a = σ i a →
  ¬ (b = a ∧ below a i q) → links σ ε q b → links σ' ε' q b.
Proof.
  intros Hf Hi Hq H. unfold ZsimDown.links. destruct (Hf q b Hq) as [-> ->]. rewrite (kids_ext net σ σ'); [done|].
  intros c Hc. destruct (decide (b = a)) as [->|Hba]; [|apply Hf; tauto].
  destruct (decide (c = i)) as [->|Hci]; [done|]. apply Hf. intros [_ Hb]. apply Hq. split; [done|].
  destruct (below_cases net _ _ _ Hb) as [->|(p&Hp&Hb')]; [done|]. congruence.
Qed.

(** The invalidations of the sharers of a line keep the invariant. *)
Lemma coh_send t i a σ ε σ' ε' :
  coh σ ε → is_Some (net !! i) → t ≠ FWD → send_post net i t a σ ε σ' ε' → coh σ' ε'.
Proof.
  intros H Hi Ht Hp. assert (∀ j, below a i j → links σ ε j a) as Hl by (intros j Hb; by eapply coh_below).
  assert (∀ j c, ¬ (c = a ∧ below a i j) → σ' j c = σ j c ∧ ε' j c = ε j c) as Hf.
  { intros j c Hj. by apply (send_outside net lvl Hnet t i a σ ε σ' ε' Hp). }
  assert (∀ j, below a i j → j ≠ i → σ' j a = eff t (σ j a) ∧ links σ' ε' j a) as Hb.
  { intros j Hj Hne. by apply (send_below net lvl Hnet t i a σ ε σ' ε' Hl Ht Hp). }
  pose proof (sp_self _ _ _ _ _ _ _ _ Hp) as Hs.
  assert (∀ b, b = a ∨ b ≠ a) as Hdec by (intros b; destruct (decide (b = a)); auto).
  split.
  - intros q b Hq. destruct (below_or_not net lvl Hnet a i q) as [Hbq|Hnb]; [destruct (Hdec b) as [->|Hne]|].
    + destruct (decide (q = i)) as [->|Hqi]; [|by apply Hb]. unfold ZsimDown.links. rewrite Hs.
      by apply (send_link net lvl Hnet t i a σ ε σ' ε' Hl Ht Hp).
    + eapply links_outside; [exact Hf|done|tauto|by apply (coh_links _ _ H)].
    + eapply links_outside; [exact Hf|done|tauto|by apply (coh_links _ _ H)].
  - intros q b Hq Hv. apply (coh_routed _ _ H q b Hq). intros E. apply Hv.
    destruct (below_or_not net lvl Hnet a i q) as [Hbq|Hnb]; [destruct (Hdec b) as [->|Hne]|].
    + destruct (decide (q = i)) as [->|Hqi]; [by rewrite Hs|]. rewrite (proj1 (Hb q Hbq Hqi)), E. by destruct t.
    + rewrite (proj1 (Hf q b ltac:(tauto))). done.
    + rewrite (proj1 (Hf q b ltac:(tauto))). done.
Qed.

(** *** Single writer, multiple readers *)
(** The top of the chain of a valid line asks the memory. *)
Lemma chain_root σ ε a j :
  coh σ ε → is_Some (net !! j) → σ j a ≠ StI →
  ∃ r k, below a r j ∧ parent_of r a = Some (MemObj k) ∧ is_Some (net !! r) ∧ σ r a ≠ StI.
Proof.
  intros H. remember (list_max (lvl <$> seq 0 (length net)) - lvl j)%nat as d eqn:Hd. revert j Hd.
  induction (lt_wf d) as [d _ IH]. intros j Hd Hj Hv. destruct Hj as [n Hn].
  destruct (parent_total net lvl Hnet j n a Hn) as [[p|k] Hp].
  - destruct (kid_of net lvl Hnet σ j p a Hp) as (i&_&Hk). pose proof (parent_net j a p Hp) as Hpn.
    assert (σ p a ≠ StI) as Hvp by (by eapply (lk_incl _ _ _ (coh_links _ _ H p a Hpn))).
    pose proof (parent_lvl net lvl Hnet _ _ _ Hp) as Hlt.
    assert (lvl p ≤ list_max (lvl <$> seq 0 (length net)))%nat as Hmax.
    { pose proof (proj1 (list_max_le (lvl <$> seq 0 (length net)) _) (Nat.le_refl _)) as Hall. rewrite Forall_forall in Hall.
      apply Hall. apply list_elem_of_fmap. exists p. split; [done|]. apply elem_of_seq. destruct Hpn as [np Hnp%lookup_lt_Some]. lia. }
    destruct (IH (list_max (lvl <$> seq 0 (length net)) - lvl p)%nat ltac:(lia) p eq_refl Hpn Hvp) as (r&k&Hb&Hr&Hrn&Hrv).
    exists r, k. split_and!; [|done..]. eapply below_trans; [exact Hb|]. eapply below_step; [done|constructor].
  - exists j, k. split_and!; [constructor|done|by rewrite Hn|done].
Qed.

(** Below a common cache, an exclusive holder and another one are above each
    other. *)
Lemma below_single σ ε a r i j :
  coh σ ε → is_Some (net !! r) → below a r i → below a r j → excl (σ i a) → σ j a ≠ StI → below a i j ∨ below a j i.
Proof.
  intros H Hr Hi. revert j. induction Hi as [|i p Hp Hb IH]; [by left|]. intros j Hj Hx Hv.
  assert (is_Some (net !! p)) as Hpn by (by eapply parent_net).
  pose proof (coh_links _ _ H p a Hpn) as L. destruct (kid_of net lvl Hnet σ i p a Hp) as (k&Hki&Hk).
  destruct (lk_excl _ _ _ L k _ Hk Hx) as [Hex Hxp].
  destruct (IH j Hj Hxp Hv) as [Hpj|Hjp]; [|right; by eapply below_step].
  destruct (decide (j = p)) as [->|Hne]; [right; eapply below_step; [done|constructor]|].
  destruct (below_child net a p j Hpj Hne) as (c&Hc&Hcj). destruct (kid_of net lvl Hnet σ c p a Hc) as (k'&Hkc&Hk').
  assert (σ c a ≠ StI) as Hcv.
  { eapply (below_valid net lvl Hnet σ ε a c j); [|exact Hcj|done]. intros j' Hj'. eapply coh_below; [done| |exact Hj']. by eapply parent_some. }
  assert (k' = k) as ->.
  { destruct (decide (k' = k)) as [|Hkk]; [done|]. apply isExclusive_1 in Hex as [Hn _]. rewrite (lk_num _ _ _ L) in Hn.
    assert (sharers (ε p a) !! k = Some true) as H1 by (apply (lk_bit _ _ _ L); exists (σ i a); split; [done|by apply excl_valid]).
    assert (sharers (ε p a) !! k' = Some true) as H2 by (apply (lk_bit _ _ _ L); eauto).
    pose proof (zcount_two _ _ _ H1 H2 ltac:(done)). lia. }
  assert (c = i) as -> by congruence. by left.
Qed.

Lemma coh_single_writer σ ε a i j :
  coh σ ε → is_Some (net !! i) → is_Some (net !! j) → excl (σ i a) → σ j a ≠ StI → below a i j ∨ below a j i.
Proof.
  intros H Hi Hj Hx Hv. destruct (chain_root σ ε a i H Hi (excl_valid _ Hx)) as (r&k&Hri&Hrp&Hrn&Hrv).
  destruct (chain_root σ ε a j H Hj Hv) as (r'&k'&Hrj&Hrp'&Hrn'&Hrv').
  assert (r' = r) as ->.
  { eapply (net_root _ _ _ Hnet a r' r); [done|done| |]; by apply (coh_routed _ _ H). }
  by eapply below_single.
Qed.

End Coh.

(** ** What a cache does for a child: [MESITopCC::processAccess]

    For each type of request: the children are invalidated or downgraded as it
    takes, the child gets the state it asked for or gives its line back, and the
    coherence invariant holds again. *)

(** What a requester may ask for in its state, and what it gets. *)
Definition asks (t : AccessType) (fl : Z) (x : MESIState) (e : Entry) : Prop :=
  match t with
  | GETS => x = StI
  | GETX => (x = StI ∨ x = StS) ∧ flag_set fl PREFETCH = false
  | PUTS => (x = StS ∨ x = StE) ∧ empty_entry e ∧ fl = 0
  | PUTX => x = StM ∧ empty_entry e ∧ fl = 0
  end.
Definition gives (t : AccessType) (fl : Z) (x : MESIState) : Prop :=
  match t with
  | GETS => x = StS ∨ x = StE ∨ flag_set fl PREFETCH = true ∧ x = StI
  | GETX => x = StM
  | PUTS | PUTX => x = StI
  end.

Lemma set_sharer_ok x k e :
  (k < length (sharers e))%nat → set_sharer x (Z.of_nat k) e = Some (mkEntry (numSharers e) (<[k := x]> (sharers e)) (exclusive e)).
Proof.
  intros H. destruct (lookup_lt_is_Some_2 _ _ H) as [b Hb]. unfold set_sharer.
  erewrite upd_child_set; [|rewrite zlookup_nat, Nat2Z.id by lia; exact Hb|done]. by rewrite Nat2Z.id.
Qed.

Section Grant.
Context {A D : Type} `{!CacheArray A} `{!ArrayLaws A}.
Abbreviation sys := (Sys A D).
Variable net : list Node.
Variable lvl : nat → nat.
Context {nm : nat} (Hnet : net_ok net lvl nm).
Variable memory : list D → Prop.
Abbreviation rep := (rep net memory).
Abbreviation below := (below net).
Abbreviation links := (links net).
Abbreviation kids := (kids net).
Abbreviation children_of := (children_of net).
Abbreviation parent_of := (parent_of net).
Abbreviation coh := (coh net admits).

Variable inv : nat → InvReq → M sys (Z * bool).
Variables (p : nat) (n : Node) (id a : Z).
Hypothesis Hn : net !! p = Some n.
Hypothesis Hterm : nd_terminal n = false.
Hypothesis Hinv : invals net lvl memory inv (lvl p).
(** The requester, with its number among the children. *)
Variables (ch k : nat) (idc : Z).
Hypothesis Hch : parent_of ch a = Some (CacheObj p).
Hypothesis Hk : children_of p !! k = Some ch.

Variables (s : sys) (σ : nat → Z → MESIState) (ε : nat → Z → Entry) (α : nat → option A).
Hypothesis Hr : rep s σ ε α.
Hypothesis Hc : coh σ ε.
Hypothesis Hl : line α p id a.
Hypothesis Hlc : line α ch idc a.

(** The result of [processAccess]: the child has the state [y], what is below it
    is as before, and a writeback comes from below an exclusive line. *)
Definition grant_post (y : MESIState) (cyc : Z) (r : Z * bool) (s' : sys) : Prop :=
  ∃ σ' ε', rep s' σ' ε' α ∧ coh σ' ε' ∧ cyc ≤ r.1 ∧ (r.2 = true → excl (σ' p a)) ∧ σ' ch a = y ∧
    (∀ j, below a ch j → j ≠ ch → σ' j a = σ j a).

Lemma Hp_net : is_Some (net !! p).
Proof. by rewrite Hn. Qed.
Lemma Hch_net : is_Some (net !! ch).
Proof. by eapply parent_some. Qed.
Lemma Hpch : p ≠ ch.
Proof. intros E. apply (below_strict net lvl Hnet a ch p); [|done]. rewrite E. constructor. Qed.
Lemma Hkid : kids σ p a !! k = Some (σ ch a).
Proof. unfold kids, ZsimDown.kids. rewrite list_lookup_fmap, Hk. simpl. by rewrite decide_True. Qed.
Lemma Hwidth : (k < MAX_CACHE_CHILDREN)%nat.
Proof.
  pose proof (lookup_lt_Some _ _ _ Hk) as H. unfold children_of, ZsimDown.children_of in H. rewrite Hn in H. simpl in H.
  pose proof (net_width _ _ _ Hnet p n Hn). lia.
Qed.
Lemma Hrouted : routed net ch a ∨ σ ch a = StI.
Proof.
  destruct (decide (σ ch a = StI)) as [|Hv]; [by right|left]. by apply (coh_routed _ _ _ _ Hc ch a Hch_net).
Qed.

(** The child's state and the parent's entry are written. *)
Lemma runs_give s1 σ1 ε1 e x (Q : unit → sys → Prop) :
  rep s1 σ1 (put ε1 p a e) α → (x = StI → empty_entry (ε1 ch a)) →
  (∀ s', rep s' (put σ1 ch a x) (put ε1 p a e) α → Q tt s') → runs (write_state (LineState ch idc) x) Q s1.
Proof.
  intros Hr1 Hx HQ. eapply runs_set_bcc_state; [exact Hr1|done|apply Hch_net| |by auto].
  intros E. rewrite put_ne by (left; intros E'; by apply Hpch). auto.
Qed.

Definition removed (e : Entry) : Entry := mkEntry (numSharers e - 1) (<[k := false]> (sharers e)) (exclusive e).

Lemma runs_remove_sharer s1 σ1 (Q : unit → sys → Prop) :
  rep s1 σ1 ε α → σ1 p a ≠ StI → sharers (ε p a) !! k = Some true →
  (∀ s', rep s' σ1 (put ε p a (removed (ε p a))) α → Q tt s') → runs (remove_sharer p id (Z.of_nat k)) Q s1.
Proof.
  intros Hr1 Hv Hb HQ. unfold remove_sharer. apply runs_bind. eapply runs_tcc_entry; [done..|].
  apply runs_bind. eapply runs_lift; [rewrite zlookup_nat, Nat2Z.id by lia; exact Hb|].
  apply runs_bind, runs_assert; [done|]. 
  eapply (runs_upd_entry _ _ _ _ _ _ _ _ _ _ _ (removed (ε p a))); [done..| |done|intros s2 _; apply HQ].
  rewrite set_sharer_ok by (by eapply lookup_lt_Some). done.
Qed.

(** *** Writebacks *)
Lemma grant_put t have cyc src fl :
  t = PUTS ∨ t = PUTX ∧ σ ch a = StM ∧ fl = 0 → σ ch a ≠ StI → empty_entry (ε ch a) →
  runs (tcc_processAccess inv p a id t (Z.of_nat k) have (LineState ch idc) cyc src fl) (grant_post StI cyc) s.
Proof.
  intros Ht Hv He. pose proof (coh_links _ _ _ _ Hc p a Hp_net) as L. pose proof Hkid as Hki.
  assert (sharers (ε p a) !! k = Some true) as Hb by (apply (lk_bit _ _ _ L); eauto).
  assert (σ p a ≠ StI) as Hpv by (by eapply (lk_incl _ _ _ L)).
  assert (runs (remove_sharer p id (Z.of_nat k);; write_state (LineState ch idc) StI;; ret (cyc, false)) (grant_post StI cyc) s) as Hmain.
  { apply runs_bind. eapply runs_remove_sharer; [done..|]. intros s1 Hr1. apply runs_bind.
    eapply runs_give; [exact Hr1|done|]. intros s2 Hr2. apply runs_ret. eexists _, _. split_and!; [exact Hr2| |simpl; lia|done| |].
    - eapply (coh_put_child net lvl Hnet admits σ ε p ch k); try done.
      + intros q b Hq _. by apply (coh_links _ _ _ _ Hc).
      + apply (coh_routed _ _ _ _ Hc).
      + by eapply link_remove.
      + pose proof (coh_links _ _ _ _ Hc ch a Hch_net) as Lc. apply link_none; [done|]. by apply (link_empty _ _ _ Lc), He.
    - apply put_eq.
    - intros j _ Hj. apply put_ne. by left. }
  unfold tcc_processAccess. apply runs_bind. eapply runs_tcc_entry; [done..|]. destruct Ht as [->|(->&Hm&->)]; [done|].
  apply runs_bind, runs_assert; [|done]. eapply (lk_excl _ _ _ L); [exact Hki|]. rewrite Hm. by right.
Qed.

(** *** Reads *)
Lemma grant_exclusive cyc :
  numSharers (ε p a) = 0 → excl (σ p a) → σ ch a = StI → routed net ch a ∧ admits a →
  runs (upd_entry p id (λ e, e ← set_sharer true (Z.of_nat k) e; Some (set_numSharers 1 (set_exclusive true e)));;
        write_state (LineState ch idc) StE;; ret (cyc, false)) (grant_post StE cyc) s.
Proof.
  intros H0 Hx Hi Hro. pose proof (coh_links _ _ _ _ Hc p a Hp_net) as L. pose proof Hwidth as Hw.
  apply runs_bind. eapply runs_upd_entry; [exact Hr|done|done|done| | |].
  { rewrite set_sharer_ok by (rewrite (lk_len _ _ _ L); exact Hw). cbn [mbind option_bind]. done. }
  { intros E. by destruct (excl_valid _ Hx). }
  intros s1 _ Hr1. apply runs_bind. eapply runs_give; [exact Hr1|done|]. intros s2 Hr2. apply runs_ret.
  eexists _, _. split_and!; [exact Hr2| |simpl; lia|done|apply put_eq|].
  - eapply (coh_put_child net lvl Hnet admits σ ε p ch k); try done.
    + intros q b Hq _. by apply (coh_links _ _ _ _ Hc).
    + apply (coh_routed _ _ _ _ Hc).
    + apply (link_add_exclusive (σ p a) (ε p a)); [done|done|done|by left|by eapply lookup_lt_Some, Hkid|exact Hw].
    + eapply link_parent; [by apply (coh_links _ _ _ _ Hc ch a Hch_net)|by left|done].
  - intros j _ Hj. apply put_ne. by left.
Qed.

(** The child gets the line, shared, when no other has it alone. *)
Lemma grant_shared s1 σ1 ε1 r wb cyc :
  rep s1 σ1 ε1 α → coh σ1 ε1 → isExclusive (ε1 p a) = false → σ1 p a ≠ StI → σ1 ch a = StI → routed net ch a ∧ admits a →
  cyc ≤ r → (wb = true → excl (σ1 p a)) → (∀ j, below a ch j → j ≠ ch → σ1 j a = σ j a) →
  runs (e ⇐ tcc_entry p id; assertM (negb (isExclusive e));;
        upd_entry p id (λ e, e ← set_sharer true (Z.of_nat k) e; Some (set_numSharers (numSharers e + 1) (set_exclusive false e)));;
        write_state (LineState ch idc) StS;; ret (r, wb)) (grant_post StS cyc) s1.
Proof.
  intros Hr1 Hc1 Hx Hpv Hi Hro Hcyc Hwb Hb. pose proof (coh_links _ _ _ _ Hc1 p a Hp_net) as L. pose proof Hwidth as Hw.
  apply runs_bind. eapply runs_tcc_entry; [done..|]. apply runs_bind, runs_assert; [by rewrite Hx|].
  apply runs_bind. eapply runs_upd_entry; [exact Hr1|done|done|done| |done|].
  { rewrite set_sharer_ok by (rewrite (lk_len _ _ _ L); exact Hw). cbn [mbind option_bind]. done. }
  intros s2 _ Hr2. apply runs_bind. eapply runs_give; [exact Hr2|done|]. intros s3 Hr3. apply runs_ret.
  eexists _, _. split_and!; [exact Hr3| |done| |apply put_eq|].
  - eapply (coh_put_child net lvl Hnet admits σ1 ε1 p ch k); try done.
    + intros q b Hq _. by apply (coh_links _ _ _ _ Hc1).
    + apply (coh_routed _ _ _ _ Hc1).
    + apply (link_add_shared (σ1 p a) (ε1 p a)); try done. unfold kids, ZsimDown.kids. rewrite list_lookup_fmap, Hk. simpl. rewrite decide_True by done.
      by rewrite Hi.
    + eapply link_parent; [by apply (coh_links _ _ _ _ Hc1 ch a Hch_net)| |done]. rewrite Hi. by intros [].
  - simpl. rewrite put_ne by (left; apply Hpch). done.
  - intros j Hj Hne. rewrite put_ne by (by left). by apply Hb.
Qed.

Lemma grant_GETS cyc src fl :
  σ p a ≠ StI → σ ch a = StI → routed net ch a ∧ admits a →
  runs (tcc_processAccess inv p a id GETS (Z.of_nat k) (bool_decide (excl (σ p a))) (LineState ch idc) cyc src fl)
    (λ r s', grant_post StS cyc r s' ∨ grant_post StE cyc r s') s.
Proof.
  intros Hpv Hi Hro. pose proof (coh_links _ _ _ _ Hc p a Hp_net) as L. pose proof Hkid as Hki. pose proof Hwidth as Hw.
  unfold tcc_processAccess. apply runs_bind. eapply runs_tcc_entry; [done..|].
  destruct (isEmpty (ε p a) && bool_decide (excl (σ p a)) && negb (flag_set fl NOEXCL)) eqn:E.
  { rewrite !andb_true_iff in E. destruct E as [[E1%Z.eqb_eq E2%bool_decide_eq_true] _].
    eapply runs_mono; [by apply grant_exclusive|by right]. }
  assert (sharers (ε p a) !! k = Some false) as Hb.
  { destruct (lookup_lt_is_Some_2 (sharers (ε p a)) k) as [[] Hb]; [by rewrite (lk_len _ _ _ L)| |done].
    destruct (proj1 (lk_bit _ _ _ L k) Hb) as (x&Hx&Hne). congruence. }
  apply runs_bind. eapply runs_lift; [rewrite zlookup_nat, Nat2Z.id by lia; exact Hb|].
  apply runs_bind, runs_assert; [done|]. destruct (isExclusive (ε p a)) eqn:Hx.
  - eapply runs_then.
    { apply (sendInvalidates_runs net lvl Hnet memory inv p n Hn Hinv Hterm id INVX a cyc src s σ ε α); try done; [apply Hro|apply L|apply L|].
      intros _. apply ready_links; [|done]. intros j Hj. eapply coh_below; [done|apply Hp_net|done]. }
    intros [r wb] s1 (σ1&ε1&Hr1&_&Hcyc&Hwb&Hpost). simpl in Hcyc, Hwb.
    assert (∀ j, below a ch j → σ1 j a = σ j a) as Hoff.
    { intros j Hj. eapply (send_off net lvl Hnet INVX p a σ ε σ1 ε1 Hpost ch k j); try done. by rewrite Hb. }
    pose proof (sp_self _ _ _ _ _ _ _ _ Hpost) as Hself. pose proof (sp_entry _ _ _ _ _ _ _ _ Hpost) as (_&_&Hx1&_).
    eapply runs_mono with (Q := grant_post StS cyc); [|by intros; left]. apply (grant_shared s1 σ1 ε1); try done.
    + by apply (coh_send net lvl Hnet admits INVX p a σ ε).
    + by rewrite Hself.
    + rewrite Hoff; [done|constructor].
    + intros Ew. rewrite Hself. destruct (Hwb Ew) as (k'&c&_&Hkc&Hpc&Hxc). destruct (kid_of net lvl Hnet σ c p a Hpc) as (k2&_&Hk2).
      by eapply (lk_excl _ _ _ L).
    + intros j Hj _. by apply Hoff.
  - apply runs_bind, runs_ret. eapply runs_mono with (Q := grant_post StS cyc); [|by intros; left].
    apply (grant_shared s σ ε); try done; lia.
Qed.

(** *** Writes *)
(** [INV] has been sent to the other children that hold the line, while the
    bit of the requester was clear. *)
Section OthersLost.
Variables (σ2 : nat → Z → MESIState) (ε1 ε2 : nat → Z → Entry) (e1 : Entry).
Hypothesis Hε : ∀ q b, ¬ (q = p ∧ b = a) → ε1 q b = ε q b.
Hypothesis He : ε1 p a = e1.
Hypothesis Hb : sharers e1 !! k ≠ Some true.
Hypothesis Hbits : ∀ k', k' ≠ k → sharers e1 !! k' = sharers (ε p a) !! k'.
Hypothesis Hpost : send_post net p INV a σ ε1 σ2 ε2.

Lemma off_kept j c k' :
  children_of p !! k' = Some c → parent_of c a = Some (CacheObj p) → sharers e1 !! k' ≠ Some true → below a c j →
  σ2 j a = σ j a ∧ ε2 j a = ε j a.
Proof.
  intros Hkc Hpc Hnon Hj. destruct (send_off net lvl Hnet INV p a σ ε1 σ2 ε2 Hpost c k' j Hkc Hpc) as [E1 E2]; [by rewrite He|done|].
  rewrite E1, E2. split; [done|]. apply Hε. intros [-> _]. by apply (below_strict net lvl Hnet a c p Hj).
Qed.

Lemma requester_kept j : below a ch j → σ2 j a = σ j a ∧ ε2 j a = ε j a.
Proof. by apply (off_kept j ch k). Qed.

Lemma outside_kept j c : ¬ (c = a ∧ below a p j) → σ2 j c = σ j c ∧ ε2 j c = ε j c.
Proof.
  intros Hj. destruct (send_outside net lvl Hnet INV p a σ ε1 σ2 ε2 Hpost j c Hj) as [E1 E2].
  rewrite E1, E2. split; [done|]. apply Hε. intros [-> ->]. apply Hj. split; [done|constructor].
Qed.

(** Nothing below another child holds the line. *)
Lemma others_lost c k' j :
  k' ≠ k → children_of p !! k' = Some c → parent_of c a = Some (CacheObj p) → below a c j → σ2 j a = StI ∧ links σ2 ε2 j a.
Proof.
  intros Hkk Hkc Hpc Hj. assert (is_Some (net !! c)) as Hcn by (by eapply parent_some).
  destruct (decide (sharers e1 !! k' = Some true)) as [Hon|Hnon].
  { destruct (sp_eff _ _ _ _ _ _ _ _ Hpost j) as [E1 E2]; [done| |by rewrite E1]. exists k', c. rewrite He. split; [lia|done]. }
  assert (∀ j', below a c j' → σ2 j' a = σ j' a ∧ ε2 j' a = ε j' a) as Hsame by (intros j' Hj'; by apply (off_kept j' c k')).
  split.
  - assert (σ c a = StI) as Hci.
    { destruct (decide (σ c a = StI)) as [|Hne]; [done|]. destruct Hnon. rewrite Hbits by done.
      apply (lk_bit _ _ _ (coh_links _ _ _ _ Hc p a Hp_net)). exists (σ c a). split; [|done].
      unfold kids, ZsimDown.kids. rewrite list_lookup_fmap, Hkc. simpl. by rewrite decide_True. }
    rewrite (proj1 (Hsame j Hj)). destruct (decide (σ j a = StI)) as [|Hne]; [done|].
    destruct (below_valid net lvl Hnet σ ε a c j) as [Hv _]; [|done|by destruct (Hv Hne)]. intros j' Hj'. by eapply coh_below.
  - eapply links_frame; [eapply coh_below; [exact Hc|exact Hcn|exact Hj]| |by apply Hsame].
    intros j' Hj'. apply Hsame. by eapply below_trans.
Qed.

(** A cache of the tree under [p] is [p] itself, under the requester, or has
    lost the line. *)
Lemma others_cases q :
  below a p q → q = p ∨ below a ch q ∨ (σ2 q a = StI ∧ links σ2 ε2 q a).
Proof.
  intros Hbq. destruct (decide (q = p)) as [->|Hqp]; [by left|right].
  destruct (below_child net a p q Hbq Hqp) as (c&Hpc&Hcq). destruct (decide (c = ch)) as [->|Hcc]; [by left|right].
  destruct (child_index net lvl Hnet c p a Hpc) as (k'&_&_&_&Hkc). apply (others_lost c k' q); [|done..]. intros ->. congruence.
Qed.

Lemma others_links q b : is_Some (net !! q) → ¬ (b = a ∧ (q = p ∨ q = ch)) → links σ2 ε2 q b.
Proof.
  intros Hq Hne. destruct (decide (b = a)) as [->|Hba]; [destruct (below_or_not net lvl Hnet a p q) as [Hbq|Hnb]|].
  - destruct (others_cases q Hbq) as [->|[Hcq|[_ HL]]]; [tauto| |done].
    eapply links_frame; [by apply (coh_links _ _ _ _ Hc q a Hq)| |by apply requester_kept].
    intros j Hj. apply requester_kept. by eapply below_trans.
  - apply (links_outside net admits σ ε σ2 ε2 p a q a);
      [by apply outside_kept|by apply (sp_self _ _ _ _ _ _ _ _ Hpost)|tauto|by apply (coh_links _ _ _ _ Hc)].
  - apply (links_outside net admits σ ε σ2 ε2 p a q b);
      [by apply outside_kept|by apply (sp_self _ _ _ _ _ _ _ _ Hpost)|tauto|by apply (coh_links _ _ _ _ Hc)].
Qed.

(** No copy has appeared. *)
Lemma others_no_new q b : σ2 q b ≠ StI → σ q b ≠ StI.
Proof.
  intros Hv E. apply Hv. destruct (decide (b = a)) as [->|Hba]; [|by rewrite (proj1 (outside_kept q b ltac:(tauto)))].
  destruct (below_or_not net lvl Hnet a p q) as [Hbq|Hnb]; [|by rewrite (proj1 (outside_kept q a ltac:(tauto)))].
  destruct (others_cases q Hbq) as [->|[Hcq|[HI _]]]; [|by rewrite (proj1 (requester_kept q Hcq))|done].
  by rewrite (sp_self _ _ _ _ _ _ _ _ Hpost).
Qed.

Lemma width_kids : (k < length (kids σ2 p a))%nat.
Proof. unfold kids, ZsimDown.kids. rewrite length_fmap. by eapply lookup_lt_Some. Qed.

(** The entry that names the requester alone. *)
Lemma alone_links : excl (σ p a) →
  link_ok (σ2 p a) (mkEntry 1 (<[k := true]> (sharers (ε2 p a))) true) (<[k := StM]> (kids σ2 p a)).
Proof.
  intros Hx. pose proof (sp_entry _ _ _ _ _ _ _ _ Hpost) as Hempty. simpl in Hempty. pose proof Hwidth as Hw. pose proof width_kids.
  rewrite <-(list_insert_insert_eq (kids σ2 p a) k StM StI). apply link_add_exclusive; rewrite ?length_insert; try done.
  - apply link_none; [done|]. intros k' x. destruct (decide (k' = k)) as [->|Hkk].
    + rewrite list_lookup_insert_eq by done. by intros [= <-].
    + rewrite list_lookup_insert_ne by done. intros (c&Hkc&->)%kids_lookup. case_decide as Hpc; [|done].
      eapply (others_lost c k' c); [done..|constructor].
  - apply Hempty.
  - by rewrite (sp_self _ _ _ _ _ _ _ _ Hpost).
  - by right.
Qed.

(** After the others lost the line the child gets it alone. *)
Lemma grant_modified :
  excl (σ p a) → routed net ch a ∧ admits a →
  coh (put σ2 ch a StM) (put ε2 p a (mkEntry 1 (<[k := true]> (sharers (ε2 p a))) true)) ∧
  (∀ j, below a ch j → σ2 j a = σ j a).
Proof.
  intros Hx Hro. split; [|intros j Hj; by apply requester_kept].
  eapply (coh_put_child net lvl Hnet admits σ2 ε2 p ch k); try done.
  - by apply others_links.
  - intros q b Hq Hv. by apply (coh_routed _ _ _ _ Hc q b Hq), others_no_new.
  - by apply alone_links.
  - rewrite (proj2 (requester_kept ch (below_refl _ _ _))), (kids_ext net σ σ2).
    + eapply link_parent; [by apply (coh_links _ _ _ _ Hc ch a Hch_net)|by right|done].
    + intros c Hcc. apply requester_kept. eapply below_step; [done|constructor].
Qed.
End OthersLost.

(** The requester gives up a copy it had. *)
Lemma drop_own b :
  sharers (ε p a) !! k = Some b → σ p a ≠ StI → ¬ excl (σ ch a) →
  runs (if (b : bool) then assertM (negb (isExclusive (ε p a)));; remove_sharer p id (Z.of_nat k) else ret tt)
    (λ _ s1, ∃ e1, rep s1 σ (put ε p a e1) α ∧ sharers e1 !! k = Some false ∧
      (∀ k', k' ≠ k → sharers e1 !! k' = sharers (ε p a) !! k') ∧ length (sharers e1) = MAX_CACHE_CHILDREN ∧
      numSharers e1 = zcount (sharers e1)) s.
Proof.
  intros Hb Hpv Hnx. pose proof (coh_links _ _ _ _ Hc p a Hp_net) as L. destruct b.
  - apply runs_bind, runs_assert.
    { apply negb_true_iff. destruct (isExclusive (ε p a)) eqn:E; [|done]. destruct (proj1 (lk_bit _ _ _ L k) Hb) as (x&Hx&Hne).
      destruct Hnx. eapply (lk_shared _ _ _ L); [exact Hkid|done|]. rewrite Hkid in Hx. by injection Hx as <-. }
    eapply runs_remove_sharer; [done..|]. intros s1 Hr1. eexists. split; [exact Hr1|]. simpl.
    split_and!.
    + apply list_lookup_insert_eq. by eapply lookup_lt_Some.
    + intros k' Hk'. by apply list_lookup_insert_ne.
    + rewrite length_insert. apply (lk_len _ _ _ L).
    + rewrite (zcount_insert _ _ true) by done. rewrite (lk_num _ _ _ L). lia.
  - apply runs_ret. exists (ε p a). split_and!; [|done|done|apply L|apply L].
    eapply rep_ext; [exact Hr|done| |done]. intros j c. unfold put. case_decide as E; [by destruct E as [-> ->]|done].
Qed.

Lemma grant_GETX cyc src fl :
  σ p a = StM → ¬ excl (σ ch a) → routed net ch a ∧ admits a →
  runs (tcc_processAccess inv p a id GETX (Z.of_nat k) true (LineState ch idc) cyc src fl) (grant_post StM cyc) s.
Proof.
  intros Hm Hnx Hro. assert (σ p a ≠ StI) as Hpv by congruence. assert (excl (σ p a)) as Hpx by (by right).
  pose proof (coh_links _ _ _ _ Hc p a Hp_net) as L. pose proof Hwidth as Hw.
  assert (Hbelow : ∀ j, below a p j → links σ ε j a) by (intros j Hj; eapply coh_below; [done|apply Hp_net|done]).
  unfold tcc_processAccess. apply runs_bind. eapply runs_tcc_entry; [done..|]. apply runs_bind, runs_assert; [done|].
  destruct (lookup_lt_is_Some_2 (sharers (ε p a)) k) as [b Hb]; [by rewrite (lk_len _ _ _ L)|].
  apply runs_bind. eapply runs_lift; [rewrite zlookup_nat, Nat2Z.id by lia; exact Hb|].
  eapply runs_then; [by apply drop_own|]. intros [] s1 (e1&Hr1&Hb1&Hbits&Hlen&Hnum).
  eapply runs_then.
  { apply (sendInvalidates_runs net lvl Hnet memory inv p n Hn Hinv Hterm id INV a cyc src s1 σ (put ε p a e1) α); try done;
      rewrite ?put_eq; try done; [apply Hro|].
    intros _ k' _ Hk'. assert (k' ≠ k) as Hne by congruence. rewrite Hbits in Hk' by done.
    destruct (ready_links net INV p a σ ε Hbelow ltac:(done) k') as (c&Hkc&Hpc&Hpre); [lia|done|].
    exists c. split_and!; [done..|]. eapply inv_pre_frame; [exact Hpre|]. intros j Hj. split; [done|]. apply put_ne. left.
    intros ->. by apply (below_strict net lvl Hnet a c p Hj). }
  intros [r wb] s2 (σ2&ε2&Hr2&_&Hcyc&_&Hpost). simpl in Hcyc.
  destruct (grant_modified σ2 (put ε p a e1) ε2 e1) as [Hcoh Hsame]; try done.
  { intros q c Hq. apply put_ne. destruct (decide (q = p)); [right|left]; tauto. }
  { apply put_eq. }
  { by rewrite Hb1. }
  pose proof (sp_self _ _ _ _ _ _ _ _ Hpost) as Hself. pose proof (sp_entry _ _ _ _ _ _ _ _ Hpost) as Hempty. simpl in Hempty.
  assert (set_numSharers (numSharers (mkEntry (numSharers (ε2 p a)) (<[k:=true]> (sharers (ε2 p a))) (exclusive (ε2 p a))) + 1)
    (set_exclusive true (mkEntry (numSharers (ε2 p a)) (<[k:=true]> (sharers (ε2 p a))) (exclusive (ε2 p a)))) =
    mkEntry 1 (<[k:=true]> (sharers (ε2 p a))) true) as Ee.
  { unfold set_numSharers, set_exclusive. simpl. by rewrite (proj1 Hempty). }
  apply runs_bind. eapply runs_upd_entry; [exact Hr2|done|done|done| |congruence|].
  { rewrite set_sharer_ok by (rewrite (proj2 Hempty), length_replicate; exact Hw). cbn [mbind option_bind]. by rewrite Ee. }
  intros s3 _ Hr3. apply runs_bind. eapply runs_tcc_entry; [done..|]. rewrite put_eq.
  apply runs_bind, runs_assert; [done|]. apply runs_bind. eapply runs_give; [exact Hr3|done|]. intros s4 Hr4.
  apply runs_ret. eexists _, _. split_and!; [exact Hr4|exact Hcoh|done| |apply put_eq|].
  - intros _. rewrite put_ne by (left; apply Hpch). by rewrite Hself.
  - intros j Hj Hne. rewrite put_ne by (by left). by apply Hsame.
Qed.

End Grant.
