(* ===== verification/ZsimAccess.v ===== *)
(** * An access at one cache

    What a cache needs of a memory controller ([MemLaws]); how it obtains a line
    from its parent; and the whole access, with the eviction of a victim. *)

From S2P Require Import Prelude ZsimMem ZsimRepl ZsimArray ZsimCoherence ZsimInv ZsimDown ZsimGrant.

(** ** The bottom of a cache: fetching and evicting lines

    [ups up ch]: what [up] does for a request of cache [ch] to its parent,
    [up_post].  On top of it: [bcc_processAccess], evictions, the allocation of a
    line. *)

(** The state a memory controller gives. *)
Definition grant (t : AccessType) (fl : Z) : MESIState :=
  match t with PUTS | PUTX => StI | GETS => if flag_set fl NOEXCL then StS else StE | GETX => StM end.

(** What the caches rely on: a request of a known core is served, with that state
    and not before its cycle. *)
Class MemLaws (D : Type) `{!MemController D} := {
  mem_ok : D → Prop;
  mem_core : Z → Prop;
  mem_core_u32 c : mem_core c → mem_core (u32 c);
  mem_access_ok req d :
    mem_ok d → mem_core (coreId req) → (atype req = GETX → flag_set (flags req) PREFETCH = false) →
    ∃ r d', mem_access req d = Some (grant (atype req) (flags req), r, d') ∧ mem_ok d' ∧ cycle req ≤ r
}.

Section Fetch.
Context {A D : Type} `{!CacheArray A} `{!ArrayLaws A} `{!MemController D} `{!MemLaws D}.
Abbreviation sys := (Sys A D).
Variable net : list Node.
Variable lvl : nat → nat.
Context {nm : nat} (Hnet : net_ok net lvl nm).

Definition memory (ds : list D) : Prop := length ds = nm ∧ Forall mem_ok ds.
Abbreviation rep := (rep net memory).
Abbreviation below := (below net).
Abbreviation links := (links net).
Abbreviation kids := (kids net).
Abbreviation children_of := (children_of net).
Abbreviation parent_of := (parent_of net).
Abbreviation coh := (coh net admits).

Definition up_post (ch : nat) (a : Z) (t : AccessType) (fl : Z) (σ : nat → Z → MESIState) (α : nat → option A) (cyc : Z)
    (r : Z) (s' : sys) : Prop :=
  ∃ σ' ε' α', rep s' σ' ε' α' ∧ coh σ' ε' ∧ cyc ≤ r ∧ (∀ j, (lvl j ≤ lvl ch)%nat → α' j = α j) ∧
    gives t fl (σ' ch a) ∧ (∀ j, below a ch j → j ≠ ch → σ' j a = σ j a).

Definition ups (up : MemObject → MemReq → M sys Z) (ch : nat) : Prop :=
  ∀ n o id req s σ ε α,
    net !! ch = Some n → parent_of ch (lineAddr req) = Some o → rep s σ ε α → coh σ ε → line α ch id (lineAddr req) →
    routed net ch (lineAddr req) → admits (lineAddr req) → mem_core (coreId req) →
    state req = LineState ch id → childId req = nd_self n → initialState req = σ ch (lineAddr req) →
    asks (atype req) (flags req) (σ ch (lineAddr req)) (ε ch (lineAddr req)) →
    runs (up o req) (up_post ch (lineAddr req) (atype req) (flags req) σ α (cycle req)) s.

Section Bottom.
Variable inv : nat → InvReq → M sys (Z * bool).
Variable up : MemObject → MemReq → M sys Z.
Variables (p : nat) (n : Node).
Hypothesis Hn : net !! p = Some n.
Hypothesis Hinv : invals net lvl memory inv (lvl p).
Hypothesis Hup : ups up p.

Lemma p_net : is_Some (net !! p).
Proof. by rewrite Hn. Qed.

Lemma bcc_parent_runs s σ ε α a (Q : Z * MemObject → sys → Prop) :
  rep s σ ε α →
  (∀ k o, parent_of p a = Some o → is_Some (zlookup (nd_parentRTTs n) k) → Q (k, o) s) → runs (bcc_parent p a) Q s.
Proof.
  intros Hr HQ. destruct (parent_total net lvl Hnet p n a Hn) as [o Ho]. pose proof Ho as Hp. unfold parent_of, ZsimInv.parent_of in Hp.
  rewrite Hn in Hp; cbn [mbind option_bind] in Hp. apply bind_Some in Hp as (k&Hk&Hz).
  unfold bcc_parent. apply runs_bind. eapply runs_cache; [done..|]. intros me _ Hme _ _.
  assert (parents me = nd_parents n) as -> by (by rewrite <-Hme).
  apply runs_bind. eapply runs_lift; [exact Hk|]. apply runs_bind. eapply runs_lift; [exact Hz|]. apply runs_ret.
  apply HQ; [done|]. apply zlookup_is_Some. rewrite (proj1 (proj2 (proj2 (proj2 (net_lat _ _ _ Hnet p n Hn))))). by eapply zlookup_range.
Qed.

Lemma u32_nonneg x : 0 ≤ u32 x.
Proof. unfold u32. apply Z.land_nonneg. by right. Qed.

Lemma fetch_runs id t fl cyc req s σ ε α :
  rep s σ ε α → coh σ ε → line α p id (lineAddr req) → routed net p (lineAddr req) → admits (lineAddr req) → mem_core (coreId req) →
  asks t fl (σ p (lineAddr req)) (ε p (lineAddr req)) →
  runs (fetch up p id t (σ p (lineAddr req)) cyc fl req) (up_post p (lineAddr req) t fl σ α cyc) s.
Proof.
  intros Hr Hc Hl Hro Ha Hco Hask. unfold fetch. apply runs_bind. eapply runs_cache; [done..|]. intros me _ Hme _ _.
  apply runs_bind. eapply bcc_parent_runs; [done|]. intros k o Ho [rtt Hrtt].
  eapply runs_then.
  { eapply (Hup n o id (bcc_request p me (lineAddr req) id t (σ p (lineAddr req)) cyc (srcId req) fl (previous_instructions req)
      (u32 (coreId req)) (flagsTraces req) 0)); try done; [by apply mem_core_u32|by rewrite <-Hme]. }
  intros r s1 (σ'&ε'&α'&Hr1&Hc1&Hcyc&Hα&Hg&Hb). simpl in *.
  apply runs_bind. eapply runs_lift; [by rewrite <-Hme in Hrtt|].
  apply runs_bind. eapply runs_count; [exact Hr1|apply p_net|]. intros s2 _ Hr2.
  apply runs_bind. eapply runs_count; [exact Hr2|apply p_net|]. intros s3 _ Hr3. apply runs_ret.
  exists σ', ε', α'. split_and!; [done|done| |done..]. pose proof (u32_nonneg (u32 (r - cyc) + rtt)). lia.
Qed.

(** What [processAccess] leaves in the cache. *)
Definition served (t : AccessType) (fl : Z) (x : MESIState) : Prop :=
  match t with
  | GETS => x ≠ StI ∨ flag_set fl PREFETCH = true
  | GETX => x = StM
  | PUTS => x ≠ StI
  | PUTX => excl x
  end.
Definition acc_post (a : Z) (t : AccessType) (fl : Z) (σ : nat → Z → MESIState) (α : nat → option A) (cyc : Z) (r : Z) (s' : sys) : Prop :=
  ∃ σ' ε' α', rep s' σ' ε' α' ∧ coh σ' ε' ∧ cyc ≤ r ∧ (∀ j, (lvl j ≤ lvl p)%nat → α' j = α j) ∧
    served t fl (σ' p a) ∧ (∀ j, below a p j → j ≠ p → σ' j a = σ j a).
Definition may (t : AccessType) (fl : Z) (x : MESIState) : Prop :=
  match t with GETS => True | GETX => flag_set fl PREFETCH = false | PUTS => x ≠ StI | PUTX => excl x end.

(** A line with exclusive rights becomes modified. *)
Lemma runs_upgrade s σ ε α id a (Q : unit → sys → Prop) :
  rep s σ ε α → coh σ ε → line α p id a → excl (σ p a) →
  (∀ s', rep s' (put σ p a StM) ε α → coh (put σ p a StM) ε → Q tt s') →
  runs (if decide (σ p a = StE) then set_bcc_state p id StM else ret tt) Q s.
Proof.
  intros Hr Hc Hl Hx HQ.
  assert (coh (put σ p a StM) ε) as Hc'.
  { apply (coh_same_rights net lvl Hnet); [done|apply p_net|by apply excl_valid|done|]. split; [done|by right]. }
  case_decide as E.
  - eapply runs_set_bcc_state; [done..|apply p_net|done|auto].
  - apply runs_ret. apply HQ; [|done]. eapply rep_ext; [exact Hr| |done..]. intros j b. unfold put. case_decide as Ej; [|done].
    destruct Ej as [-> ->]. destruct Hx; congruence.
Qed.

Lemma acc_post_same s σ ε α a t fl cyc :
  rep s σ ε α → coh σ ε → served t fl (σ p a) → acc_post a t fl σ α cyc cyc s.
Proof. intros Hr Hc Hs. exists σ, ε, α. split_and!; try done; lia. Qed.

Lemma acc_post_upgraded s σ ε α a t fl cyc :
  rep s (put σ p a StM) ε α → coh (put σ p a StM) ε → served t fl StM → acc_post a t fl σ α cyc cyc s.
Proof.
  intros Hr Hc Hs. eexists _, _, _. split_and!; [exact Hr|exact Hc|lia|done|by rewrite put_eq|].
  intros j _ Hj. apply put_ne. by left.
Qed.

Lemma acc_post_up s σ α a t fl cyc r :
  up_post p a t fl σ α cyc r s → IsGet t = true → acc_post a t fl σ α cyc r s.
Proof.
  intros (σ'&ε'&α'&Hr&Hc&Hcyc&Hα&Hg&Hb) Ht. exists σ', ε', α'. split_and!; try done. destruct t; try done. simpl in *.
  destruct Hg as [->|[->|[? _]]]; [by left|by left|by right].
Qed.

(** Counting does not change what holds. *)
Lemma acc_post_count s a t fl σ α cyc r k x (Q : unit → sys → Prop) :
  acc_post a t fl σ α cyc r s → (∀ s', acc_post a t fl σ α cyc r s' → Q tt s') → runs (count p k x) Q s.
Proof.
  intros (σ'&ε'&α'&Hr&H) HQ. eapply runs_count; [exact Hr|apply p_net|]. intros s' _ Hr'. apply HQ. exists σ', ε', α'. done.
Qed.

Lemma bcc_processAccess_runs id fl cyc req s σ ε α :
  rep s σ ε α → coh σ ε → line α p id (lineAddr req) → routed net p (lineAddr req) → admits (lineAddr req) → mem_core (coreId req) →
  may (atype req) fl (σ p (lineAddr req)) →
  runs (bcc_processAccess up p id cyc fl req) (acc_post (lineAddr req) (atype req) fl σ α cyc) s.
Proof.
  set (a := lineAddr req). intros Hr Hc Hl Hro Ha Hco Hm. unfold bcc_processAccess. fold a.
  apply runs_bind. eapply runs_bcc_state; [done..|apply p_net|].
  eapply runs_then with (P := λ r s', acc_post a (atype req) fl σ α cyc r s').
  2:{ intros r s1 H. apply runs_bind, runs_assert; [|by apply runs_ret]. destruct H as (?&?&?&_&_&H&_). by apply Z.leb_le. }
  destruct (atype req) eqn:Et; simpl in Hm.
  - destruct (decide (σ p a = StI)) as [Hi|Hv].
    + eapply runs_then; [by eapply fetch_runs|]. intros r s1 H%acc_post_up; [|done].
      apply runs_bind. eapply acc_post_count; [exact H|]. intros s2 H2. by apply runs_ret.
    + apply runs_bind. eapply acc_post_count; [apply (acc_post_same s σ ε α a GETS fl cyc); [done..|by left]|]. intros s2 H2. by apply runs_ret.
  - eapply runs_then with (P := λ r s', acc_post a GETX fl σ α cyc r s').
    + destruct (decide (σ p a = StI ∨ σ p a = StS)) as [Hlow|Hhigh].
      * apply runs_bind. eapply runs_count; [done|apply p_net|]. intros s1 _ Hr1.
        eapply runs_mono; [by eapply fetch_runs|]. intros r s2 H. by apply acc_post_up.
      * assert (excl (σ p a)) as Hx by (unfold excl; destruct (σ p a); tauto).
        apply runs_bind. eapply runs_upgrade; [done..|]. intros s1 Hr1 Hc1.
        apply runs_bind. eapply runs_count; [exact Hr1|apply p_net|]. intros s2 _ Hr2. apply runs_ret.
        by eapply acc_post_upgraded.
    + intros r s1 H. pose proof H as (σ'&ε'&α'&Hr1&_&_&Hα&Hs&_).
      apply runs_bind. eapply runs_bcc_state; [exact Hr1| |apply p_net|].
      { destruct Hl as (c&Hl1&Hl2). exists c. rewrite Hα by lia. done. }
      simpl in Hs. rewrite Hs. apply runs_bind, runs_assert; [done|]. by apply runs_ret.
  - apply runs_bind, runs_assert; [by apply bool_decide_eq_true|]. apply runs_bind.
    eapply acc_post_count; [by apply (acc_post_same s σ ε α a PUTS fl cyc)|]. intros s2 H2. by apply runs_ret.
  - apply runs_bind, runs_assert; [apply bool_decide_eq_true; unfold excl in Hm; tauto|]. apply runs_bind.
    eapply runs_upgrade; [done..|]. intros s1 Hr1 Hc1. apply runs_bind.
    eapply acc_post_count; [apply (acc_post_upgraded s1 σ ε α a PUTX fl cyc); [done..|by right]|]. intros s2 H2. by apply runs_ret.
Qed.

End Bottom.
End Fetch.

(** ** Evictions, allocations and accesses

    A cache serves a request: it finds the line or makes room for it, asks its
    parent when it must, and gives the child its state.  [access_runs]: with
    enough levels, requests return and keep the coherence invariant. *)

Section Access.
Context {A D : Type} `{!CacheArray A} `{!ArrayLaws A} `{!MemController D} `{!MemLaws D}.
Abbreviation sys := (Sys A D).
Variable net : list Node.
Variable lvl : nat → nat.
Context {nm : nat} (Hnet : net_ok net lvl nm).
Abbreviation rep := (rep net (memory (nm := nm))).
Abbreviation below := (below net).
Abbreviation links := (links net).
Abbreviation kids := (kids net).
Abbreviation children_of := (children_of net).
Abbreviation parent_of := (parent_of net).
Abbreviation coh := (coh net admits).
Abbreviation memory := (memory (nm := nm)).

(** Entries without sharers may differ. *)
Lemma coh_entries σ ε ε' :
  coh σ ε → (∀ j b, ε' j b = ε j b ∨ empty_entry (ε' j b) ∧ empty_entry (ε j b)) → coh σ ε'.
Proof.
  intros H He. split; [|apply H]. intros q b Hq. pose proof (coh_links _ _ _ _ H q b Hq) as L. unfold ZsimDown.links in *.
  destruct (He q b) as [->|[H1 H2]]; [done|]. by eapply link_empty_entry.
Qed.

Lemma line_same α α' i id a : α' i = α i → line α i id a → line α' i id a.
Proof. intros E (r&H1&H2). exists r. by rewrite E. Qed.

Lemma not_found s σ ε α i r a : rep s σ ε α → is_Some (net !! i) → α i = Some r → find r a = None → σ i a = StI.
Proof.
  intros Hr [n Hn] Ha Hf. destruct (rep_cache _ _ _ _ _ _ _ _ Hr Hn) as (c&Hc&_). rewrite <-(rep_st _ _ _ _ _ _ Hr i c a Hc).
  rewrite (rep_arr _ _ _ _ _ _ Hr i c Hc) in Ha. injection Ha as <-. unfold St1. by rewrite Hf.
Qed.

(** An invalid line has nothing valid below. *)
Lemma below_invalid σ ε i a j : coh σ ε → is_Some (net !! i) → σ i a = StI → below a i j → σ j a = StI.
Proof.
  intros H Hi Hv Hb. destruct (decide (σ j a = StI)) as [|Hne]; [done|].
  destruct (below_valid net lvl Hnet σ ε a i j) as [Hvv _]; [by intros j' Hj'; eapply coh_below|done|]. by destruct (Hvv Hne).
Qed.

Section Cache.
Variable inv : nat → InvReq → M sys (Z * bool).
Variable up : MemObject → MemReq → M sys Z.
Variables (p : nat) (n : Node).
Hypothesis Hn : net !! p = Some n.
Hypothesis Hinv : invals net lvl memory inv (lvl p).
Hypothesis Hup : ups net lvl (nm := nm) up p.

Lemma here : is_Some (net !! p).
Proof. by rewrite Hn. Qed.

(** *** Evictions *)
Definition evicted (id : Z) (α : nat → option A) (s' : sys) : Prop :=
  ∃ σ' ε' α', rep s' σ' ε' α' ∧ coh σ' ε' ∧ (∀ j, (lvl j ≤ lvl p)%nat → α' j = α j) ∧
    (∀ c, caches s' !! p = Some c → zlookup (bcc c) id = Some StI).

Lemma runs_raw_state s σ ε α id c (Q : MESIState → sys → Prop) x :
  rep s σ ε α → caches s !! p = Some c → zlookup (bcc c) id = Some x → Q x s → runs (bcc_state p id) Q s.
Proof.
  intros Hr Hc Hx HQ. unfold bcc_state. apply runs_bind. eapply runs_cache; [done..|]. intros c' Hc' _ _ _.
  assert (c' = c) as -> by congruence. by eapply runs_lift.
Qed.

Lemma evict_invalid s σ ε α trigger wbAddr id cyc c :
  rep s σ ε α → coh σ ε → caches s !! p = Some c → zlookup (bcc c) id = Some StI →
  runs (cc_processEviction inv up p trigger wbAddr id cyc) (λ _ s', evicted id α s') s.
Proof.
  intros Hr Hc Hcc Hid. unfold cc_processEviction. pose proof (rep_ok _ _ _ _ _ _ Hr p c Hcc) as Hok.
  pose proof (rep_node _ _ _ _ _ _ p c Hr Hcc) as Hnode. pose proof (net_incl _ _ _ Hnet p _ Hnode) as Hincl. simpl in Hincl.
  assert (∀ f (Q : Z → sys → Prop), (runs (f c) Q s) → runs (c ⇐ cache p; f c) Q s) as Hcache.
  { intros f Q H. apply runs_bind. eapply runs_cache; [done..|]. intros c' Hc' _ _ _. by assert (c' = c) as -> by congruence. }
  apply Hcache. eapply runs_then with (P := λ r s', s' = s ∧ r.2 = false).
  - destruct (terminal c) eqn:Hterm; [by apply runs_ret|]. unfold tcc_processEviction.
    apply runs_bind. eapply runs_cache; [done..|]. intros c' Hc' _ _ _. assert (c' = c) as -> by congruence.
    rewrite Hincl. unfold sendInvalidates, tcc_entry. pose proof (zlookup_range _ _ _ Hid) as Hrange.
    destruct (zlookup_is_Some (tcc c) id) as [e He]; [by rewrite (ck_tcc c Hok), Hterm|].
    pose proof (ck_empty c Hok id e He Hid) as [H0 _].
    apply runs_bind, runs_bind. eapply runs_cache; [done..|]. intros c' Hc'' _ _ _. assert (c' = c) as -> by congruence.
    eapply runs_lift; [done|]. simpl. unfold isEmpty. rewrite H0. by apply runs_ret.
  - intros [r wb] s1 [-> Hwb]. simpl in Hwb. subst wb. unfold bcc_processEviction.
    apply runs_bind. eapply runs_raw_state; [done..|]. apply runs_bind, runs_ret.
    apply runs_bind. eapply runs_raw_state; [done..|]. apply Hcache. simpl. apply runs_bind, runs_ret.
    apply runs_bind. eapply runs_raw_state; [done..|]. apply runs_bind, runs_assert; [done|]. apply runs_ret.
    exists σ, ε, α. split_and!; try done. intros c' Hc'. by assert (c' = c) as -> by congruence.
Qed.

(** The own half: the line goes to the parent. *)
Lemma evict_up s σ ε α trigger b id wb cyc :
  rep s σ ε α → coh σ ε → line α p id b → σ p b ≠ StI → mem_core (coreId trigger) → empty_entry (ε p b) →
  (wb = true → excl (σ p b)) →
  runs (bcc_processEviction up p b id wb cyc trigger) (λ _ s', evicted id α s') s.
Proof.
  intros Hr Hc Hl Hv Hco He Hwb. unfold bcc_processEviction. apply runs_bind. eapply runs_bcc_state; [done..|apply here|].
  eapply runs_then with (P := λ _ s1, ∃ x, rep s1 (put σ p b x) ε α ∧ coh (put σ p b x) ε ∧ x ≠ StI).
  { destruct wb.
    - specialize (Hwb eq_refl). apply runs_bind, runs_assert; [apply bool_decide_eq_true; unfold excl in Hwb; tauto|].
      eapply runs_set_bcc_state; [done..|apply here|done|]. intros s1 _ Hr1. exists StM. split_and!; [done| |done].
      apply (coh_same_rights net lvl Hnet); [done|apply here|done..|]. split; [done|by right].
    - apply runs_ret. exists (σ p b). split_and!; [|apply (coh_same_rights net lvl Hnet); [done|apply here|done..]|done].
      eapply rep_ext; [exact Hr| |done..]. intros j c. unfold put. case_decide as E; [by destruct E as [-> ->]|done]. }
  intros [] s1 (x&Hr1&Hc1&Hx). apply runs_bind. eapply runs_bcc_state; [exact Hr1|done|apply here|]. rewrite put_eq.
  apply runs_bind. eapply runs_cache; [exact Hr1|exact Hn|]. intros me _ Hme _ _.
  destruct (decide (x = StI)) as [|_]; [done|].
  destruct (coh_routed _ _ _ _ Hc1 p b here) as [Hro Ha]; [by rewrite put_eq|].
  eapply runs_then with (P := λ _ s2, ∃ r, up_post net lvl (nm := nm) p b (if decide (x = StM) then PUTX else PUTS) 0 (put σ p b x) α cyc r s2).
  { apply runs_bind. eapply (bcc_parent_runs net lvl Hnet p n Hn); [exact Hr1|]. intros k o Ho _.
    eapply runs_mono.
    - eapply (Hup n o id (bcc_request p me b id (if decide (x = StM) then PUTX else PUTS) x cyc (srcId trigger) 0
        (previous_instructions trigger) (u32 (coreId trigger)) (flagsTraces trigger) (lineAddr trigger))); try done.
      + by apply mem_core_u32.
      + by rewrite <-Hme.
      + simpl. by rewrite put_eq.
      + simpl. rewrite put_eq. case_decide as Em; [done|]. split_and!; [destruct x; try done; [by left|by right]|done..].
    - intros r s2 H. by exists r. }
  intros r s2 (r'&σ'&ε'&α'&Hr2&Hc2&_&Hα&Hg&_).
  assert (σ' p b = StI) as Hi by (destruct (decide (x = StM)); exact Hg).
  assert (line α' p id b) as Hl' by (eapply line_same; [by apply Hα|done]).
  apply runs_bind. eapply runs_bcc_state; [exact Hr2|exact Hl'|apply here|]. rewrite Hi.
  apply runs_bind, runs_assert; [done|]. apply runs_ret. exists σ', ε', α'. split_and!; try done.
  intros c Hcc. destruct (line_bcc _ _ _ _ _ _ _ _ _ Hr2 Hl' here) as (c'&Hc'&_&_&Hz). assert (c' = c) as -> by congruence.
  by rewrite <-Hi.
Qed.

Lemma evict_valid s σ ε α trigger b id cyc :
  rep s σ ε α → coh σ ε → line α p id b → σ p b ≠ StI → mem_core (coreId trigger) →
  runs (cc_processEviction inv up p trigger b id cyc) (λ _ s', evicted id α s') s.
Proof.
  intros Hr Hc Hl Hv Hco. unfold cc_processEviction. apply runs_bind. eapply runs_cache; [done..|]. intros me Hme0 Hme _ _.
  pose proof (coh_links _ _ _ _ Hc p b here) as L. destruct (coh_routed _ _ _ _ Hc p b here Hv) as [_ Ha].
  assert (terminal me = nd_terminal n) as -> by (by rewrite <-Hme). destruct (nd_terminal n) eqn:Hterm.
  - apply runs_bind, runs_ret. apply (evict_up s σ ε α); try done.
    by rewrite (terminal_entry _ _ _ _ _ _ p n b Hr Hn Hterm).
  - assert (Hbelow : ∀ j, below b p j → links σ ε j b) by (intros j Hj; eapply coh_below; [done|apply here|done]).
    eapply runs_then.
    + unfold tcc_processEviction. apply runs_bind. eapply runs_cache; [done..|]. intros me' _ Hme' _ _.
      assert (nonInclusiveHack me' = false) as ->.
      { pose proof (net_incl _ _ _ Hnet p n Hn) as H. by rewrite <-Hme' in H. }
      eapply (sendInvalidates_runs net lvl Hnet memory inv p n Hn Hinv Hterm id INV b); try done; [apply L|apply L|].
      intros _. by apply ready_links.
    + intros [r wb] s1 (σ1&ε1&Hr1&_&_&Hwb&Hpost). simpl in Hwb.
      pose proof (sp_self _ _ _ _ _ _ _ _ Hpost) as Hself. pose proof (sp_entry _ _ _ _ _ _ _ _ Hpost) as Hempty. simpl in Hempty.
      apply (evict_up s1 σ1 ε1 α); try done; [|by rewrite Hself|].
      * by apply (coh_send net lvl Hnet admits INV p b σ ε).
      * intros Ew. rewrite Hself. destruct (Hwb Ew) as (k&c&_&_&Hpc&Hxc). destruct (kid_of net lvl Hnet σ c p b Hpc) as (k'&_&Hk').
        by eapply (lk_excl _ _ _ L).
Qed.

(** *** Making room *)
Definition located (a : Z) (σ : nat → Z → MESIState) (α : nat → option A) (lid : Z) (s' : sys) : Prop :=
  ∃ σ' ε' α', rep s' σ' ε' α' ∧ coh σ' ε' ∧ line α' p lid a ∧ lid ≠ -1 ∧
    (∀ j, (lvl j ≤ lvl p)%nat → j ≠ p → α' j = α j) ∧ (∀ j, below a p j → σ' j a = σ j a).

Lemma view_total c : cache_ok c → ∀ id, 0 ≤ id < Z.of_nat (length (bcc c)) →
  is_Some (v_numSharers (view_of c) id) ∧ is_Some (v_isValid (view_of c) id).
Proof.
  intros Hok id Hid. simpl. split.
  - destruct (terminal c) eqn:Ht; [done|]. destruct (zlookup_is_Some (tcc c) id) as [e ->]; [by rewrite (ck_tcc c Hok), Ht|done].
  - by destruct (zlookup_is_Some (bcc c) id) as [x ->].
Qed.

Lemma allocate_runs s σ ε α r req cyc :
  rep s σ ε α → coh σ ε → α p = Some r → find r (lineAddr req) = None → admits (lineAddr req) → mem_core (coreId req) →
  runs (allocate inv up p req cyc) (located (lineAddr req) σ α) s.
Proof.
  set (x := lineAddr req). intros Hr Hc Hα Hf Ha Hco. unfold allocate. fold x.
  apply runs_bind. eapply runs_cache; [done..|]. intros me Hme _ Hok Hα'. assert (r = array me) as -> by congruence.
  destruct (preinsert_ok _ (array me) (view_of me) x (ck_array me Hok) Ha Hf (view_total me Hok))
    as (id&wb&a1&Hpre&Hid&Htag&Hok1&Hres&Hfind&_).
  apply runs_bind. eapply runs_lift; [exact Hpre|]. apply runs_bind.
  eapply runs_set_array; [done|done|done|done|]. intros s1 _ Hr1.
  eapply runs_then with (P := λ _ s2, evicted id (putA α p (Some a1)) s2).
  - destruct (rep_cache _ _ _ _ _ _ _ _ Hr1 Hn) as (c1&Hc1&_). pose proof (rep_ok _ _ _ _ _ _ Hr1 p c1 Hc1) as Hokc1.
    pose proof (rep_arr _ _ _ _ _ _ Hr1 p c1 Hc1) as Harr. rewrite putA_eq in Harr. injection Harr as Harr.
    pose proof (rep_node _ _ _ _ _ _ p c1 Hr1 Hc1) as Hn1. rewrite (rep_node _ _ _ _ _ _ p me Hr Hme) in Hn1.
    assert (length (bcc c1) = length (bcc me)) as Hlen by (injection Hn1; lia).
    destruct (zlookup_is_Some (bcc c1) id) as [v Hv]; [by rewrite Hlen|].
    destruct (decide (v = StI)) as [->|Hval]; [by eapply evict_invalid|].
    destruct (ck_valid c1 Hokc1 id v Hv Hval) as [b Hb].
    assert (b = wb) as ->.
    { rewrite <-Harr, Hfind in Hb. destruct (find_tag _ _ _ _ (ck_array me Hok) Hb) as [_ Hb']. congruence. }
    assert (line (putA α p (Some a1)) p id wb) as Hl by (exists a1; split; [apply putA_eq|by rewrite Harr]).
    assert (σ p wb = v) as Hs.
    { rewrite <-(rep_st _ _ _ _ _ _ Hr1 p c1 wb Hc1). unfold St1. rewrite Hb. simpl. by rewrite Hv. }
    apply (evict_valid s1 σ ε); try done. congruence.
  - intros _ s2 (σ2&ε2&α2&Hr2&Hc2&Hα2&Hinvalid). destruct (rep_cache _ _ _ _ _ _ _ _ Hr2 Hn) as (c2&Hcc2&_).
    pose proof (rep_arr _ _ _ _ _ _ Hr2 p c2 Hcc2) as Harr. rewrite Hα2, putA_eq in Harr by done. injection Harr as Harr.
    assert (σ2 p x = StI) as Hsx.
    { eapply (not_found s2 σ2 ε2 α2 p a1); [done|apply here|by rewrite Hα2, putA_eq|by rewrite Hfind]. }
    apply runs_bind. eapply runs_postinsert; [exact Hr2|exact Hcc2|by apply Hinvalid|done|by rewrite <-Harr, Hfind|by rewrite <-Harr|].
    intros s3 ε3 r3 _ Hr3 Hf3 He3. apply runs_ret. exists σ2, ε3, (putA α2 p (Some r3)). split_and!.
    + done.
    + by eapply coh_entries.
    + exists r3. split; [apply putA_eq|done].
    + lia.
    + intros j Hj Hne. rewrite putA_ne, Hα2, putA_ne by done. done.
    + intros j Hj. rewrite (below_invalid σ2 ε2 p x j Hc2 here Hsx Hj). symmetry. eapply (below_invalid σ ε p x j Hc here); [|done].
      exact (not_found s σ ε α p (array me) x Hr here Hα' Hf).
Qed.

(** The first half of [Cache::access]: the line of the request. *)
Lemma locate_runs s σ ε α req cyc :
  rep s σ ε α → coh σ ε → admits (lineAddr req) → mem_core (coreId req) →
  (IsGet (atype req) = true ∨ σ p (lineAddr req) ≠ StI) →
  ∀ me (f : Z → M sys Z) Q, caches s !! p = Some me → node_of me = n →
  (∀ lid s', located (lineAddr req) σ α lid s' → runs (f lid) Q s') →
  runs ('(lineId, a) ⇐ lift (lookup (lineAddr req) (if IsGet (atype req) then Some req else None) (array me));
        upd_cache p (λ c, Some (set_array a c));;
        lineId ⇐ (if lineId =? -1 then
                    alloc ⇐ lift (cc_shouldAllocate me req);
                    if (alloc : bool) then allocate inv up p req cyc else ret (-1)
                  else ret lineId);
        f lineId) Q s.
Proof.
  set (x := lineAddr req). intros Hr Hc Ha Hco Hget me f Q Hme Hnode HQ. pose proof (rep_ok _ _ _ _ _ _ Hr p me Hme) as Hok.
  destruct (lookup_ok _ (array me) x (if IsGet (atype req) then Some req else None) (ck_array me Hok) Ha) as (a1&El&Hok1&Hf1&_).
  apply runs_bind. eapply runs_lift; [exact El|]. apply runs_bind. eapply runs_set_array; [done..|]. intros s1 _ Hr1.
  assert (Hkeep : ∀ j, j ≠ p → putA α p (Some a1) j = α j) by (intros; by apply putA_ne).
  eapply runs_then; [|exact HQ].
  destruct (find (array me) x) as [id|] eqn:Hf; simpl.
  - destruct (find_tag _ _ _ _ (ck_array me Hok) Hf) as [Hid _]. rewrite (proj2 (Z.eqb_neq id (-1))) by lia.
    apply runs_ret. exists σ, ε, (putA α p (Some a1)). split_and!; try done; [|lia|by intros; apply Hkeep].
    exists a1. split; [apply putA_eq|]. by rewrite Hf1.
  - assert (σ p x = StI) as Hx by exact (not_found s σ ε α p (array me) x Hr here (rep_arr _ _ _ _ _ _ Hr p me Hme) Hf).
    assert (IsGet (atype req) = true) as Hg by tauto.
    apply runs_bind. eapply runs_lift.
    { unfold cc_shouldAllocate. rewrite Hg. instantiate (1 := true). by destruct (terminal me). }
    eapply runs_mono.
    { eapply (allocate_runs s1 σ ε (putA α p (Some a1)) a1); try done; [apply putA_eq|by rewrite Hf1]. }
    intros lid s2 (σ2&ε2&α2&H1&H2&H3&H4&H5&H6). exists σ2, ε2, α2. split_and!; try done.
    intros j Hj Hne. rewrite H5, Hkeep by done. done.
Qed.

(** *** A request of a child *)
Section Child.
Variables (ch : nat) (nc : Node) (idc : Z) (req : MemReq).
Let a := lineAddr req.
Hypothesis Hnc : net !! ch = Some nc.
Hypothesis Hch : parent_of ch a = Some (CacheObj p).
Hypothesis Hstate : state req = LineState ch idc.
Hypothesis Hchild : childId req = nd_self nc.
Hypothesis Hcore : mem_core (coreId req).
Hypothesis Ha : admits a.
Hypothesis Hro : routed net ch a.

Lemma child_facts : nd_terminal n = false ∧ (lvl ch < lvl p)%nat ∧
  ∃ k, children_of p !! k = Some ch ∧ nd_self nc = Z.of_nat k.
Proof.
  destruct (child_self net lvl Hnet ch a p n nc Hch Hnc Hn) as (Ht&Hs&Hk). split; [done|]. split; [by eapply parent_lvl|].
  exists (Z.to_nat (nd_self nc)). rewrite Z2Nat.id by done. split; [|done]. unfold children_of, ZsimDown.children_of. by rewrite Hn.
Qed.

Lemma ch_below : below a p ch ∧ ch ≠ p.
Proof.
  split; [eapply below_step; [exact Hch|constructor]|]. intros E. destruct child_facts as (_&Hlt&_). rewrite E in Hlt. lia.
Qed.

Lemma no_prefetch f : flag_set (Z.ldiff f PREFETCH) PREFETCH = false.
Proof.
  unfold flag_set, PREFETCH. replace (Z.land (Z.ldiff f 32) 32) with 0; [done|]. symmetry. apply Z.bits_inj'. intros i Hi.
  rewrite Z.land_spec, Z.ldiff_spec, Z.bits_0. by destruct (Z.testbit f i), (Z.testbit 32 i).
Qed.

Lemma writeback_runs s σ ε α lid (wb : bool) (Q : unit → sys → Prop) :
  rep s σ ε α → coh σ ε → line α p lid a → (wb = true → excl (σ p a)) →
  (∀ s' σ', rep s' σ' ε α → coh σ' ε → (∀ j, j ≠ p → σ' j a = σ j a) → Q tt s') →
  runs (if wb then bcc_processWritebackOnAccess p lid else ret tt) Q s.
Proof.
  intros Hr Hc Hl Hwb HQ. destruct wb; [|apply runs_ret; by eapply HQ]. specialize (Hwb eq_refl).
  unfold bcc_processWritebackOnAccess. apply runs_bind. eapply runs_bcc_state; [done..|apply here|].
  apply runs_bind, runs_assert; [apply bool_decide_eq_true; unfold excl in Hwb; tauto|].
  eapply runs_upgrade; [done..|]. intros s1 Hr1 Hc1. eapply HQ; [done..|]. intros j Hj. apply put_ne. by left.
Qed.

(** The top half, from the state the bottom half leaves. *)
Lemma grant_runs s σ ε α lid cyc fl :
  rep s σ ε α → coh σ ε → line α p lid a → line α ch idc a →
  served (atype req) fl (σ p a) → flag_set fl PREFETCH = false →
  asks (atype req) fl (σ ch a) (ε ch a) →
  runs (tcc_processAccess inv p a lid (atype req) (childId req) (bool_decide (excl (σ p a))) (LineState ch idc) cyc (srcId req) fl)
    (λ r s', ∃ σ' ε', rep s' σ' ε' α ∧ coh σ' ε' ∧ cyc ≤ r.1 ∧ (r.2 = true → excl (σ' p a)) ∧
      gives (atype req) fl (σ' ch a) ∧ (∀ j, below a ch j → j ≠ ch → σ' j a = σ j a)) s.
Proof.
  intros Hr Hc Hl Hlc Hs Hpf Hask. destruct child_facts as (Hterm&Hlt&k&Hk&Hself). rewrite Hchild, Hself.
  pose proof (conj Hro Ha) as Hroa. destruct (atype req) eqn:Et; simpl in Hs, Hask.
  - eapply runs_mono.
    + eapply (grant_GETS net lvl Hnet memory inv p n lid a Hn Hterm Hinv ch k idc Hch Hk s σ ε α Hr Hc Hl Hlc); [|done..].
      destruct Hs as [?|Hs]; [done|]. by rewrite Hpf in Hs.
    + intros r s' [(σ'&ε'&?&?&?&?&Hy&?)|(σ'&ε'&?&?&?&?&Hy&?)]; exists σ', ε'; split_and!; try done; [by left|by right; left].
  - rewrite bool_decide_true by (rewrite Hs; by right). eapply runs_mono.
    + eapply (grant_GETX net lvl Hnet memory inv p n lid a Hn Hterm Hinv ch k idc Hch Hk s σ ε α Hr Hc Hl Hlc); [done| |done].
      destruct Hask as [[-> | ->] _]; by intros [].
    + intros r s' (σ'&ε'&?&?&?&?&?&?). by exists σ', ε'.
  - destruct Hask as (Hx&He&_). eapply runs_mono.
    + eapply (grant_put net lvl Hnet memory inv p n lid a Hn Hterm ch k idc Hch Hk s σ ε α Hr Hc Hl Hlc); [by left| |done].
      by destruct Hx as [-> | ->].
    + intros r s' (σ'&ε'&?&?&?&?&?&?). by exists σ', ε'.
  - destruct Hask as (Hx&He&Hfl). eapply runs_mono.
    + eapply (grant_put net lvl Hnet memory inv p n lid a Hn Hterm ch k idc Hch Hk s σ ε α Hr Hc Hl Hlc); [by right| |done].
      by rewrite Hx.
    + intros r s' (σ'&ε'&?&?&?&?&?&?). by exists σ', ε'.
Qed.

(** Asking again in a state with the same lines below. *)
Lemma asks_same t fl σ ε σ1 ε1 :
  coh σ ε → coh σ1 ε1 → (∀ j, below a ch j → σ1 j a = σ j a) → asks t fl (σ ch a) (ε ch a) → asks t fl (σ1 ch a) (ε1 ch a).
Proof.
  intros Hc Hc1 Hs. rewrite (Hs ch) by constructor. assert (is_Some (net !! ch)) as Hcn by (by rewrite Hnc).
  assert (empty_entry (ε ch a) → empty_entry (ε1 ch a)) as He.
  { intros He. pose proof (coh_links _ _ _ _ Hc ch a Hcn) as L. pose proof (coh_links _ _ _ _ Hc1 ch a Hcn) as L1.
    eapply link_unused; [exact L1|]. rewrite (kids_ext net σ σ1); [by apply (link_empty _ _ _ L), He|].
    intros c Hcc. apply Hs. eapply below_step; [done|constructor]. }
  destruct t; simpl; tauto.
Qed.

Lemma processLine_runs s σ ε α lid cyc :
  rep s σ ε α → coh σ ε → line α p lid a → line α ch idc a → routed net p a →
  (IsGet (atype req) = true ∨ σ p a ≠ StI) → asks (atype req) (flags req) (σ ch a) (ε ch a) →
  runs (cc_processLine inv up p req lid cyc) (λ r s', ∃ σ' ε' α', rep s' σ' ε' α' ∧ coh σ' ε' ∧ cyc ≤ r ∧
    (∀ j, (lvl j ≤ lvl ch)%nat → α' j = α j) ∧ gives (atype req) (flags req) (σ' ch a) ∧
    (∀ j, below a ch j → j ≠ ch → σ' j a = σ j a)) s.
Proof.
  intros Hr Hc Hl Hlc Hrp Hget Hask. destruct child_facts as (Hterm&Hlt&k&Hk&Hself). destruct ch_below as [Hbc Hcp].
  pose proof (coh_links _ _ _ _ Hc p a here) as L. destruct (kid_of net lvl Hnet σ ch p a Hch) as (k'&_&Hkid).
  unfold cc_processLine. apply runs_bind, runs_assert.
  { destruct (flag_set (flags req) PREFETCH) eqn:E; [|done]. simpl. apply bool_decide_eq_true. destruct (atype req); [done|..]; simpl in Hask.
    - destruct Hask as [_ Hf]. congruence.
    - destruct Hask as (_&_&Hf). rewrite Hf in E. done.
    - destruct Hask as (_&_&Hf). rewrite Hf in E. done. }
  assert (Hask' : asks (atype req) (Z.ldiff (flags req) PREFETCH) (σ ch a) (ε ch a)).
  { destruct (atype req); simpl in *; [done| | |].
    - split; [apply Hask|apply no_prefetch].
    - destruct Hask as (?&?&Hf). rewrite Hf. done.
    - destruct Hask as (?&?&Hf). rewrite Hf. done. }
  eapply runs_then.
  { eapply (bcc_processAccess_runs net lvl Hnet up p n Hn Hup lid (Z.ldiff (flags req) PREFETCH) cyc req s σ ε α); try done.
    destruct (atype req) eqn:Et; simpl; [done|apply no_prefetch| |].
    - by destruct Hget.
    - simpl in Hask. destruct Hask as (Hm&_&_). eapply (lk_excl _ _ _ L); [exact Hkid|]. rewrite Hm. by right. }
  intros r s1 (σ1&ε1&α1&Hr1&Hc1&Hcyc&Hα1&Hs1&Hb1). fold a in Hs1, Hb1.
  assert (Hsame : ∀ j, below a ch j → σ1 j a = σ j a).
  { intros j Hj. apply Hb1; [by eapply below_trans|]. intros ->. by apply (below_strict net lvl Hnet a ch p Hj). }
  destruct (flag_set (flags req) PREFETCH) eqn:Epf.
  { apply runs_ret. exists σ1, ε1, α1. split_and!; try done.
    - intros j Hj. apply Hα1. lia.
    - rewrite (Hsame ch) by constructor. destruct (atype req); simpl in *.
      + right; right. done.
      + destruct Hask. congruence.
      + destruct Hask as (_&_&Hf). rewrite Hf in Epf. done.
      + destruct Hask as (_&_&Hf). rewrite Hf in Epf. done.
    - intros j Hj _. by apply Hsame. }
  assert (line α1 p lid a) as Hl1 by (eapply line_same; [by apply Hα1|done]).
  assert (line α1 ch idc a) as Hlc1 by (eapply line_same; [apply Hα1; lia|done]).
  apply runs_bind. unfold bcc_isExclusive. apply runs_bind. eapply runs_bcc_state; [exact Hr1|exact Hl1|apply here|]. apply runs_ret.
  rewrite Hstate. eapply runs_then.
  { eapply (grant_runs s1 σ1 ε1 α1); try done; [apply no_prefetch|]. by apply (asks_same _ _ σ ε). }
  intros [r2 wb] s2 (σ2&ε2&Hr2&Hc2&Hcyc2&Hwb&Hg&Hb2). simpl in Hcyc2, Hwb.
  apply runs_bind. eapply writeback_runs; [exact Hr2|exact Hc2|exact Hl1|done|]. intros s3 σ3 Hr3 Hc3 Hs3. apply runs_ret.
  exists σ3, ε2, α1. split_and!; [done|done|lia| | |].
  - intros j Hj. apply Hα1. lia.
  - rewrite Hs3 by done. destruct (atype req); try done. simpl in *. rewrite no_prefetch in Hg. naive_solver.
  - intros j Hj Hne. rewrite Hs3, Hb2 by (done || (intros ->; by apply (below_strict net lvl Hnet a ch p Hj))). by apply Hsame.
Qed.

Lemma child_access_runs s σ ε α :
  rep s σ ε α → coh σ ε → line α ch idc a → initialState req = σ ch a → asks (atype req) (flags req) (σ ch a) (ε ch a) →
  runs (cache_access inv up p req) (up_post net lvl (nm := nm) ch a (atype req) (flags req) σ α (cycle req)) s.
Proof.
  intros Hr Hc Hlc Hinit Hask. destruct child_facts as (Hterm&Hlt&k&Hk&Hself). destruct ch_below as [Hbc Hcp].
  assert (is_Some (net !! ch)) as Hcn by (by rewrite Hnc).
  pose proof (coh_links _ _ _ _ Hc p a here) as L. destruct (kid_of net lvl Hnet σ ch p a Hch) as (k'&_&Hkid).
  pose proof (parent_routed net lvl Hnet ch a p Hch) as Hrp.
  unfold cache_access. apply runs_bind. eapply runs_cache; [done..|]. intros me Hme Hnode _ _.
  assert (terminal me = false) as Ht by (by rewrite <-Hterm, <-Hnode).
  eapply runs_then with (P := λ r s', s' = s ∧ r = (false, req)).
  { unfold cc_startAccess. apply runs_bind, runs_assert; [by rewrite Ht|]. apply runs_bind. rewrite Hstate.
    eapply runs_bcc_state; [done..|]. apply runs_bind. eapply runs_lift.
    { unfold CheckForMESIRace. rewrite decide_True by done. reflexivity. }
    apply runs_ret. split; [done|]. by destruct req. }
  intros [skip req'] s0 [-> [= -> ->]].
  assert (IsGet (atype req) = true ∨ σ p a ≠ StI) as Hget.
  { destruct (atype req); simpl in *; [by left|by left|right..]; eapply (lk_incl _ _ _ L); try exact Hkid.
    - by destruct Hask as [[-> | ->] _].
    - by destruct Hask as [-> _]. }
  eapply runs_then with (P := λ r s', up_post net lvl (nm := nm) ch a (atype req) (flags req) σ α (cycle req) r s').
  2:{ intros r s' H. apply runs_bind, runs_assert; [|by apply runs_ret]. destruct H as (?&?&?&_&_&H&_). by apply Z.leb_le. }
  eapply (locate_runs s σ ε α req); [done..|]. intros lid s1 (σ1&ε1&α1&Hr1&Hc1&Hl1&Hlid&Hα1&Hb1). fold a in Hl1, Hb1.
  assert (line α1 ch idc a) as Hlc1 by (eapply line_same; [apply Hα1; [lia|done]|done]).
  assert (σ1 p a = σ p a) as Hsp by (apply Hb1; constructor).
  assert (∀ j, below a ch j → σ1 j a = σ j a) as Hsame by (intros j Hj; apply Hb1; by eapply below_trans).
  unfold cc_processAccess. apply runs_bind. eapply runs_cache; [exact Hr1|exact Hn|]. intros me1 _ Hnode1 _ _.
  assert (terminal me1 = false) as -> by (by rewrite <-Hterm, <-Hnode1).
  eapply runs_then with (P := λ b s', s' = s1 ∧ b = false).
  { rewrite (proj2 (Z.eqb_neq lid (-1))) by done. destruct (IsGet (atype req)) eqn:Eg; [by apply runs_ret|].
    destruct Hget as [|Hv]; [done|]. apply runs_bind. unfold bcc_isValid. apply runs_bind.
    eapply runs_bcc_state; [exact Hr1|exact Hl1|apply here|]. apply runs_ret, runs_ret. split; [done|].
    rewrite Hsp, bool_decide_true by done. done. }
  intros b s2 [-> ->].
  eapply runs_mono.
  { eapply (processLine_runs s1 σ1 ε1 α1); try done.
    - by rewrite Hsp.
    - by apply (asks_same _ _ σ ε). }
  pose proof (net_lat _ _ _ Hnet p n Hn) as (Hlat&_). rewrite <-Hnode in Hlat. simpl in Hlat.
  intros r s3 (σ3&ε3&α3&Hr3&Hc3&Hcyc&Hα3&Hg&Hb3). exists σ3, ε3, α3. split_and!; [done|done|lia| |done|].
  - intros j Hj. rewrite Hα3 by done. apply Hα1; [lia|]. intros ->. lia.
  - intros j Hj Hne. rewrite Hb3 by done. by apply Hsame.
Qed.
End Child.

End Cache.
End Access.
