(* ===== verification/Window.v ===== *)
(** * The instruction window of a core ([ramulator/src/Processor.h], [Processor.cpp])

    [class Window]: a ring buffer of the instructions in flight, in program
    order; an entry is ready when its instruction can retire.  The second half
    of the file is its abstraction, the list of the entries from the oldest to
    the youngest, and the effect of each operation on that list. *)

From S2P Require Import Prelude.

(** ** Data *)

Record Window := mkWindow {
  ipc : Z;
  depth : Z;
  load : Z;
  head : Z;
  tail : Z;
  ready_list : list bool;
  addr_list : list Z
}.

(** [Window() : ready_list(depth), addr_list(depth, -1)] *)
Definition new_window_of (ipc depth : Z) : Window :=
  mkWindow ipc depth 0 0 0 (replicate (Z.to_nat depth) false) (replicate (Z.to_nat depth) (-1)).
Definition new_window : Window := new_window_of 4 128.

(** [v.at(i) = x]: an index out of range throws. *)
Definition at_set {A} (v : list A) (i : Z) (x : A) : option (list A) :=
  _ ← zlookup v i; Some (<[Z.to_nat i := x]> v).

(** ** Operations *)

Definition is_full (w : Window) : bool := load w =? depth w.
Definition is_empty (w : Window) : bool := load w =? 0.

(** [insert(ready, addr)] *)
Definition insert (ready : bool) (addr : Z) (w : Window) : option Window :=
  assert! load w <=? depth w;
  rl ← at_set (ready_list w) (head w) ready;
  al ← at_set (addr_list w) (head w) addr;
  assert! negb (depth w =? 0);
  Some (mkWindow (ipc w) (depth w) (load w + 1) (Z.rem (head w + 1) (depth w)) (tail w) rl al).

(** The loop of [retire()]; each iteration retires one instruction, so [ipc]
    iterations and one more test are enough. *)
Fixpoint retire_loop (fuel : nat) (retired : Z) (w : Window) : option (Z * Window) :=
  match fuel with
  | O => None
  | S fuel =>
    if (0 <? load w) && (retired <? ipc w) then
      r ← zlookup (ready_list w) (tail w);
      if negb r then Some (retired, w) else
      assert! negb (depth w =? 0);
      retire_loop fuel (retired + 1)
        (mkWindow (ipc w) (depth w) (load w - 1) (head w) (Z.rem (tail w + 1) (depth w)) (ready_list w) (addr_list w))
    else Some (retired, w)
  end.

Definition retire (w : Window) : option (Z * Window) :=
  assert! load w <=? depth w;
  if load w =? 0 then Some (0, w) else retire_loop (S (Z.to_nat (ipc w))) 0 w.

(** One iteration of the loop of [set_ready(addr, mask)]. *)
Definition set_ready_at (addr mask i : Z) (w : Window) : option Window :=
  assert! negb (depth w =? 0);
  let index := Z.rem (tail w + i) (depth w) in
  a ← zlookup (addr_list w) index;
  if negb (Z.land a mask =? Z.land addr mask) then Some w else
  rl ← at_set (ready_list w) index true;
  Some (mkWindow (ipc w) (depth w) (load w) (head w) (tail w) rl (addr_list w)).

Definition set_ready (addr mask : Z) (w : Window) : option Window :=
  if load w =? 0 then Some w else
  foldM (λ w i, set_ready_at addr mask (Z.of_nat i) w) w (seq 0 (Z.to_nat (load w))).

(** ** The abstraction: a bounded queue *)

(** The index of the [i]-th oldest entry, the entry, and the queue. *)
Definition slot (w : Window) (i : nat) : nat := Z.to_nat ((tail w + Z.of_nat i) mod depth w).
Definition entry (w : Window) (i : nat) : bool * Z :=
  (default false (ready_list w !! slot w i), default (-1) (addr_list w !! slot w i)).
Definition contents (w : Window) : list (bool * Z) := map (entry w) (seq 0 (Z.to_nat (load w))).

#[local] Arguments entry : simpl never.
#[local] Arguments slot : simpl never.

Record window_wf (w : Window) : Prop := {
  ww_depth : 0 < depth w;
  ww_load : 0 ≤ load w ≤ depth w;
  ww_tail : 0 ≤ tail w < depth w;
  ww_head : head w = (tail w + load w) mod depth w;
  ww_ready : length (ready_list w) = Z.to_nat (depth w);
  ww_addr : length (addr_list w) = Z.to_nat (depth w)
}.

(** The operations on the queue. *)
Fixpoint ready_prefix (l : list (bool * Z)) : nat :=
  match l with (true, _) :: l => S (ready_prefix l) | _ => 0 end.
Definition q_retire (n : Z) (l : list (bool * Z)) : Z * list (bool * Z) :=
  let k := Nat.min (Z.to_nat n) (ready_prefix l) in (Z.of_nat k, drop k l).
Definition q_set_ready (addr mask : Z) (l : list (bool * Z)) : list (bool * Z) :=
  map (λ e, (fst e || (Z.land (snd e) mask =? Z.land addr mask), snd e)) l.

(** ** The ring and the queue *)

Lemma slot_lt w i : window_wf w → (slot w i < Z.to_nat (depth w))%nat.
Proof. intros [Hd _ _ _ _ _]. unfold slot. pose proof (Z.mod_pos_bound (tail w + Z.of_nat i) (depth w) Hd). lia. Qed.

Lemma slot_inj w i j :
  window_wf w → Z.of_nat i < depth w → Z.of_nat j < depth w → slot w i = slot w j → i = j.
Proof.
  intros [Hd _ Ht _ _ _] Hi Hj. unfold slot. intros E.
  assert ((tail w + Z.of_nat i) mod depth w = (tail w + Z.of_nat j) mod depth w) as E'.
  { pose proof (Z.mod_pos_bound (tail w + Z.of_nat i) (depth w) Hd).
    pose proof (Z.mod_pos_bound (tail w + Z.of_nat j) (depth w) Hd). lia. }
  pose proof (Z.div_mod (tail w + Z.of_nat i) (depth w)). pose proof (Z.div_mod (tail w + Z.of_nat j) (depth w)).
  assert ((tail w + Z.of_nat i) / depth w = (tail w + Z.of_nat j) / depth w) by nia. nia.
Qed.

Lemma slot_lookup w i :
  window_wf w → ready_list w !! slot w i = Some (fst (entry w i)) ∧ addr_list w !! slot w i = Some (snd (entry w i)).
Proof.
  intros Hw. pose proof (slot_lt w i Hw). destruct Hw as [_ _ _ _ Hr Ha]. unfold entry; simpl.
  destruct (lookup_lt_is_Some_2 (ready_list w) (slot w i)) as [r ->]; [lia|].
  destruct (lookup_lt_is_Some_2 (addr_list w) (slot w i)) as [a ->]; [lia|]. done.
Qed.

(** An index of the source is the slot of a position. *)
Lemma slot_index w i (x : Z) :
  window_wf w → x = (tail w + Z.of_nat i) mod depth w →
  zlookup (ready_list w) x = Some (fst (entry w i)) ∧ zlookup (addr_list w) x = Some (snd (entry w i)).
Proof.
  intros Hw ->. pose proof (ww_depth w Hw). pose proof (Z.mod_pos_bound (tail w + Z.of_nat i) (depth w)).
  destruct (slot_lookup w i Hw). unfold zlookup. case_match; [lia|done].
Qed.

Lemma at_set_Some {A} (v : list A) i x y : zlookup v i = Some y → at_set v i x = Some (<[Z.to_nat i := x]> v).
Proof. unfold at_set. by intros ->. Qed.

Lemma contents_length w : window_wf w → length (contents w) = Z.to_nat (load w).
Proof. intros _. unfold contents. by rewrite length_map, length_seq. Qed.

Lemma contents_ext w w' :
  load w = load w' → (∀ i, (i < Z.to_nat (load w))%nat → entry w i = entry w' i) → contents w = contents w'.
Proof.
  intros Hl He. unfold contents. rewrite <-Hl. apply map_ext_in. intros i Hi%in_seq. apply He. lia.
Qed.

(** *** [insert] appends an entry. *)
Lemma insert_ok ready addr w :
  window_wf w → is_full w = false →
  ∃ w', insert ready addr w = Some w' ∧ window_wf w' ∧ contents w' = contents w ++ [(ready, addr)] ∧
    ipc w' = ipc w ∧ depth w' = depth w.
Proof.
  intros Hw Hf. pose proof Hw as [Hd Hl Ht Hh Hr Ha]. unfold is_full in Hf. apply Z.eqb_neq in Hf.
  destruct (slot_index w (Z.to_nat (load w)) (head w) Hw) as [E1 E2]; [rewrite Z2Nat.id by lia; done|].
  assert (Hh0 : 0 ≤ head w < depth w) by (rewrite Hh; apply Z.mod_pos_bound; lia).
  unfold insert. rewrite (proj2 (Z.leb_le _ _)) by lia.
  rewrite (at_set_Some _ _ ready _ E1), (at_set_Some _ _ addr _ E2); simpl.
  rewrite (proj2 (Z.eqb_neq _ _)) by lia; simpl. eexists. split; [done|].
  assert (Hs : Z.to_nat (head w) = slot w (Z.to_nat (load w))) by (unfold slot; rewrite Hh, Z2Nat.id by lia; done).
  split_and!; try done.
  - split; simpl; try (rewrite length_insert); try lia.
    rewrite Z.rem_mod_nonneg by lia. rewrite Hh, Zdiv.Zplus_mod_idemp_l. f_equal. lia.
  - unfold contents; simpl. rewrite Z2Nat.inj_add by lia. rewrite (seq_app (Z.to_nat (load w)) 1), map_app; simpl. f_equal.
    + apply map_ext_in. intros i Hi%in_seq. unfold entry; simpl. change (slot (mkWindow _ _ _ _ _ _ _) i) with (slot w i).
      assert (slot w i ≠ Z.to_nat (head w)) by (rewrite Hs; intros E%slot_inj; try done; lia).
      by rewrite !list_lookup_insert_ne by done.
    + unfold entry; simpl. change (slot (mkWindow _ _ _ _ _ _ _) _) with (slot w (Z.to_nat (load w))). rewrite Hs.
      pose proof (slot_lt w (Z.to_nat (load w)) Hw). by rewrite !list_lookup_insert_eq by lia.
Qed.

(** *** [retire] removes the ready entries at the front, at most [ipc]. *)
Lemma contents_cons w :
  window_wf w → 0 < load w →
  contents w = entry w 0 :: contents (mkWindow (ipc w) (depth w) (load w - 1) (head w)
                                       (Z.rem (tail w + 1) (depth w)) (ready_list w) (addr_list w)).
Proof.
  intros Hw Hl. unfold contents; simpl. replace (Z.to_nat (load w)) with (S (Z.to_nat (load w - 1))) by lia.
  simpl. f_equal. rewrite <-seq_shift, map_map. apply map_ext. intros i. unfold entry; simpl.
  assert (slot (mkWindow (ipc w) (depth w) (load w - 1) (head w) (Z.rem (tail w + 1) (depth w)) (ready_list w) (addr_list w)) i
    = slot w (S i)) as ->; [|done].
  pose proof (ww_depth w Hw). pose proof (ww_tail w Hw). unfold slot; simpl.
  rewrite Z.rem_mod_nonneg by lia. rewrite Zdiv.Zplus_mod_idemp_l. do 2 f_equal. lia.
Qed.

Lemma retire_step_wf w :
  window_wf w → 0 < load w →
  window_wf (mkWindow (ipc w) (depth w) (load w - 1) (head w) (Z.rem (tail w + 1) (depth w)) (ready_list w) (addr_list w)).
Proof.
  intros [Hd Hl Ht Hh Hr Ha] Hpos. split; simpl; try lia; rewrite Z.rem_mod_nonneg by lia.
  - apply Z.mod_pos_bound; lia.
  - rewrite Zdiv.Zplus_mod_idemp_l, Hh. f_equal. lia.
Qed.

Lemma retire_loop_ok fuel retired w :
  window_wf w → 0 ≤ retired ≤ ipc w → (Z.to_nat (ipc w - retired) < fuel)%nat →
  ∃ w', let r := q_retire (ipc w - retired) (contents w) in
    retire_loop fuel retired w = Some (retired + fst r, w') ∧ window_wf w' ∧ contents w' = snd r ∧
    ipc w' = ipc w ∧ depth w' = depth w.
Proof.
  revert retired w. induction fuel as [|fuel IH]; intros retired w Hw Hret Hfuel; [lia|]; simpl.
  destruct (Z.ltb_spec 0 (load w)) as [Hl|Hl]; simpl.
  2:{ exists w. assert (contents w = []) as -> by (unfold contents; by replace (Z.to_nat (load w)) with 0%nat by lia).
      unfold q_retire; simpl. rewrite Nat.min_0_r. simpl. rewrite Z.add_0_r. done. }
  destruct (Z.ltb_spec retired (ipc w)) as [Hi|Hi].
  2:{ exists w. replace (ipc w - retired) with 0 by lia. unfold q_retire; simpl. rewrite Z.add_0_r, drop_0. done. }
  pose proof (ww_depth w Hw). pose proof (ww_tail w Hw).
  destruct (slot_index w 0 (tail w) Hw) as [E _]; [rewrite Z.add_0_r, Z.mod_small by lia; done|].
  rewrite E. rewrite (contents_cons w Hw Hl). destruct (entry w 0) as [[] a] eqn:Ee; simpl.
  2:{ exists w. unfold q_retire; simpl. rewrite Nat.min_0_r. simpl. rewrite Z.add_0_r, (contents_cons w Hw Hl), Ee. done. }
  rewrite (proj2 (Z.eqb_neq _ _)) by lia; simpl.
  set (w1 := mkWindow _ _ _ _ _ _ _).
  destruct (IH (retired + 1) w1) as (w'&Hr&Hw'&Hc&Hip&Hdp); [by apply retire_step_wf|simpl; lia|simpl; lia|].
  exists w'. simpl in *. rewrite Hr. unfold q_retire in *; simpl in *.
  replace (Z.to_nat (ipc w - retired)) with (S (Z.to_nat (ipc w - (retired + 1)))) by lia. simpl.
  split_and!; try done. do 2 f_equal. lia.
Qed.

Lemma retire_ok w :
  window_wf w → 0 ≤ ipc w →
  ∃ w', let r := q_retire (ipc w) (contents w) in
    retire w = Some (fst r, w') ∧ window_wf w' ∧ contents w' = snd r ∧ ipc w' = ipc w ∧ depth w' = depth w.
Proof.
  intros Hw Hi. pose proof (ww_load w Hw). unfold retire. rewrite (proj2 (Z.leb_le _ _)) by lia.
  destruct (Z.eqb_spec (load w) 0) as [E|_].
  - exists w. assert (contents w = []) as -> by (unfold contents; by rewrite E). unfold q_retire; simpl. by rewrite Nat.min_0_r.
  - destruct (retire_loop_ok (S (Z.to_nat (ipc w))) 0 w) as (w'&Hr&?); [done|lia|lia|].
    exists w'. rewrite Z.sub_0_r in *. by rewrite Hr.
Qed.

(** *** [set_ready] wakes the entries of a block. *)
Lemma set_ready_ok addr mask w :
  window_wf w →
  ∃ w', set_ready addr mask w = Some w' ∧ window_wf w' ∧ contents w' = q_set_ready addr mask (contents w) ∧
    ipc w' = ipc w ∧ depth w' = depth w ∧ load w' = load w.
Proof.
  intros Hw. pose proof Hw as [Hd Hl Ht Hh Hr Ha]. unfold set_ready.
  destruct (Z.eqb_spec (load w) 0) as [E|_].
  { exists w. split_and!; try done. unfold contents. by rewrite E. }
  set (hit := λ e : bool * Z, (fst e || (Z.land (snd e) mask =? Z.land addr mask), snd e)).
  destruct (foldM_ok (λ w i, set_ready_at addr mask (Z.of_nat i) w)
    (λ n x, window_wf x ∧ ipc x = ipc w ∧ depth x = depth w ∧ load x = load w ∧ tail x = tail w ∧
       ∀ j, (j < Z.to_nat (load w))%nat → entry x j = if decide (j < n)%nat then hit (entry w j) else entry w j)
    w (seq 0 (Z.to_nat (load w)))) as (w'&Hf&Hw'&Hi&Hdp&Hld&Htl&He).
  - split_and!; try done.
  - intros i b x [-> Hi]%lookup_seq (Hx&Hix&Hdx&Hlx&Htx&Hex). simpl. unfold set_ready_at.
    rewrite (proj2 (Z.eqb_neq (depth x) 0)) by lia; simpl. rewrite Hdx, Htx, Z.rem_mod_nonneg by lia.
    destruct (slot_index x i ((tail w + Z.of_nat i) mod depth w) Hx) as [E1 E2]; [by rewrite Hdx, Htx|].
    rewrite E2; cbn [mbind option_bind]. assert (Hei : entry x i = entry w i) by (rewrite Hex by done; case_decide; [lia|done]).
    rewrite Hei in E1 |- *. destruct (Z.eqb_spec (Z.land (snd (entry w i)) mask) (Z.land addr mask)) as [Em|Em]; simpl.
    + rewrite (at_set_Some _ _ true _ E1); simpl. eexists. split; [done|].
      assert (Hs : Z.to_nat ((tail w + Z.of_nat i) mod depth w) = slot x i) by (unfold slot; by rewrite Hdx, Htx).
      rewrite Hs. split_and!; simpl; try done.
      { destruct Hx. split; simpl; try done; [lia|by rewrite <-Hdx, <-Htx|rewrite length_insert; lia|lia]. }
      intros j Hj. unfold entry at 1; simpl.
      assert (slot (mkWindow (ipc x) (depth w) (load x) (head x) (tail w) (<[slot x i:=true]> (ready_list x)) (addr_list x)) j = slot x j)
        as -> by (unfold slot; simpl; by rewrite Hdx, Htx).
      destruct (slot_lookup x j Hx) as [F1 F2]. rewrite F2. simpl.
      destruct (decide (j = i)) as [->|Hne].
      * rewrite list_lookup_insert_eq by (pose proof (slot_lt x i Hx); destruct Hx; lia). simpl.
        case_decide; [|lia]. unfold hit. rewrite Em, Z.eqb_refl, orb_true_r, <-Hei. done.
      * rewrite list_lookup_insert_ne by (intros ?%slot_inj; try done; lia). rewrite F1.
        change (entry x j = if decide (j < S i)%nat then hit (entry w j) else entry w j). rewrite Hex by done. repeat case_decide; try done; lia.
    + exists x. split_and!; try done. intros j Hj. rewrite Hex by done.
      destruct (decide (j = i)) as [->|]; repeat case_decide; try done; try lia.
      unfold hit. rewrite (proj2 (Z.eqb_neq _ _)) by done. rewrite orb_false_r. by destruct (entry w i).
  - exists w'. rewrite length_seq in He. split_and!; try done. unfold q_set_ready, contents. rewrite map_map, Hld.
    apply map_ext_in. intros i Hin%in_seq. rewrite He by lia. case_decide; [done|lia].
Qed.

Lemma new_window_wf ipc depth : 0 < depth → window_wf (new_window_of ipc depth).
Proof. intros Hd. split; simpl; rewrite ?length_replicate; try lia. by rewrite Z.mod_0_l by lia. Qed.
