(* ===== verification/Cache.v ===== *)
(** * Caches ([ramulator/src/Cache.h], [Cache.cpp])

    [Cache] and [CacheSystem].  The caches point at each other
    ([lower_cache], [higher_cache]) and at the nodes of their lists
    ([mshr_entries]), so they live in a store: a pointer to a cache is its
    index, an iterator into a set is the set and the identity of the node.
    Following a null pointer or an iterator whose node was erased is [None].

    Recursions along the hierarchy carry fuel: a step to a higher cache goes to
    a smaller level and a step to the lower cache to a larger one, so the number
    of levels is enough. *)

From S2P Require Import Prelude Request Memory.

(** ** Data *)

(** [Cache::Level] *)
Inductive Level := L1 | L2 | L3 | LMAX.
#[export] Instance Level_eq_dec : EqDecision Level.
Proof. solve_decision. Defined.
Definition level_index (l : Level) : nat := match l with L1 => 0 | L2 => 1 | L3 => 2 | LMAX => 3 end.
Definition cache_fuel : nat := 4.

(** [Cache::Line], with the identity of its list node. *)
Record Line := mkLine {
  lid : nat;
  laddr : Z;
  ltag : Z;
  lock : bool;
  dirty : bool
}.
#[export] Instance Line_eq_dec : EqDecision Line.
Proof. solve_decision. Defined.

(** [std::list<Line>::iterator] *)
Definition line_it : Type := Z * nat.

Record cache_stats := mkCacheStats {
  cache_read_miss : Z;
  cache_write_miss : Z;
  cache_total_miss : Z;
  cache_eviction : Z;
  cache_read_access : Z;
  cache_write_access : Z;
  cache_total_access : Z;
  cache_mshr_hit : Z;
  cache_mshr_unavailable : Z;
  cache_set_unavailable : Z
}.
Definition cache_stats0 : cache_stats := mkCacheStats 0 0 0 0 0 0 0 0 0 0.

(** [class Cache] *)
Record Cache := mkCache {
  clevel : Level;
  latency : list Z;
  latency_each : list Z;
  higher_cache : list nat;
  lower_cache : option nat;
  is_first_level : bool;
  is_last_level : bool;
  csize : Z;
  assoc : Z;
  block_num : Z;
  index_mask : Z;
  block_size : Z;
  index_offset : Z;
  tag_offset : Z;
  mshr_entry_num : Z;
  mshr_entries : list (Z * line_it);
  cache_lines : gmap Z (list Line);
  castats : cache_stats
}.

(** The caches and the [CacheSystem] they share. *)
Record Caches := mkCaches {
  store : list Cache;
  wait_list : list (Z * Request);
  hit_list : list (Z * Request);
  sclk : Z;
  first_level : Level;
  last_level : Level;
  next_lid : nat
}.

(** Field updates. *)
Definition set_lines (x : gmap Z (list Line)) (c : Cache) : Cache :=
  mkCache (clevel c) (latency c) (latency_each c) (higher_cache c) (lower_cache c) (is_first_level c)
    (is_last_level c) (csize c) (assoc c) (block_num c) (index_mask c) (block_size c) (index_offset c)
    (tag_offset c) (mshr_entry_num c) (mshr_entries c) x (castats c).
Definition set_mshr (x : list (Z * line_it)) (c : Cache) : Cache :=
  mkCache (clevel c) (latency c) (latency_each c) (higher_cache c) (lower_cache c) (is_first_level c)
    (is_last_level c) (csize c) (assoc c) (block_num c) (index_mask c) (block_size c) (index_offset c)
    (tag_offset c) (mshr_entry_num c) x (cache_lines c) (castats c).
Definition set_castats (x : cache_stats) (c : Cache) : Cache :=
  mkCache (clevel c) (latency c) (latency_each c) (higher_cache c) (lower_cache c) (is_first_level c)
    (is_last_level c) (csize c) (assoc c) (block_num c) (index_mask c) (block_size c) (index_offset c)
    (tag_offset c) (mshr_entry_num c) (mshr_entries c) (cache_lines c) x.
Definition set_links (hi : list nat) (lo : option nat) (c : Cache) : Cache :=
  mkCache (clevel c) (latency c) (latency_each c) hi lo (is_first_level c)
    (is_last_level c) (csize c) (assoc c) (block_num c) (index_mask c) (block_size c) (index_offset c)
    (tag_offset c) (mshr_entry_num c) (mshr_entries c) (cache_lines c) (castats c).
Definition set_store (x : list Cache) (s : Caches) : Caches :=
  mkCaches x (wait_list s) (hit_list s) (sclk s) (first_level s) (last_level s) (next_lid s).
Definition set_wait_list (x : list (Z * Request)) (s : Caches) : Caches :=
  mkCaches (store s) x (hit_list s) (sclk s) (first_level s) (last_level s) (next_lid s).
Definition set_hit_list (x : list (Z * Request)) (s : Caches) : Caches :=
  mkCaches (store s) (wait_list s) x (sclk s) (first_level s) (last_level s) (next_lid s).
Definition set_sclk (x : Z) (s : Caches) : Caches :=
  mkCaches (store s) (wait_list s) (hit_list s) x (first_level s) (last_level s) (next_lid s).

(** [new list node]: the identity of the next one. *)
Definition fresh_lid (s : Caches) : nat * Caches :=
  (next_lid s, mkCaches (store s) (wait_list s) (hit_list s) (sclk s) (first_level s) (last_level s) (S (next_lid s))).

Definition put_cache (i : nat) (c : Cache) (s : Caches) : Caches := set_store (<[i := c]> (store s)) s.

(** ** Constructors *)

(** [CacheSystem(configs, send_memory)]: whatever the configuration asked for,
    the last two assignments make L1 the first and the last level. *)
Definition new_cachesystem (has_core_caches has_l3_cache : bool) : Caches :=
  mkCaches [] [] [] 0 L1 L1 0.

(** The conversion of a [long] to [int], and of an [int] to [unsigned]. *)
Definition to_int (x : Z) : Z := (x + 2 ^ 31) mod 2 ^ 32 - 2 ^ 31.
Definition to_uint (x : Z) : Z := x mod 2 ^ 32.

(** [Cache(size, assoc, block_size, mshr_entry_num, level, cachesys, pim_mode)];
    [calc_log2] is the function of [Memory], repeated in [Cache.h]. *)
Definition new_cache (size assoc block_size mshr_entry_num : Z) (level : Level) (s : Caches) (pim_mode : bool) :
    option Cache :=
  assert! pow2_check size;
  assert! pow2_check block_size;
  assert! pow2_check assoc;
  assert! block_size <=? size;
  assert! negb (block_size * assoc =? 0);
  let block_num := Z.quot size (block_size * assoc) in
  offset ← calc_log2 block_size;
  sets ← calc_log2 block_num;
  Some (mkCache level
    (if pim_mode then [4; 4 + 0; 4 + 0 + 31] else [4; 4 + 12; 4 + 12 + 31])
    (if pim_mode then [4; 0; 31] else [4; 12; 31])
    [] None (bool_decide (level = first_level s)) (bool_decide (level = last_level s))
    size assoc block_num (to_uint (block_num - 1)) block_size offset (sets + offset) mshr_entry_num
    [] ∅ cache_stats0).

(** [caches.emplace_back(new Cache(...))]: the pointer of the new cache. *)
Definition add_cache (size assoc block_size mshr_entry_num : Z) (level : Level) (pim_mode : bool) (s : Caches) :
    option (nat * Caches) :=
  c ← new_cache size assoc block_size mshr_entry_num level s pim_mode;
  Some (length (store s), set_store (store s ++ [c]) s).

(** [i->concatlower(lower)] *)
Definition concatlower (i lower : nat) (s : Caches) : option Caches :=
  c ← store s !! i;
  let s := put_cache i (set_links (higher_cache c) (Some lower) c) s in
  d ← store s !! lower;
  Some (put_cache lower (set_links (higher_cache d ++ [i]) (lower_cache d) d) s).

(** ** Addresses, sets and lines *)

Definition get_index (c : Cache) (addr : Z) : Z :=
  to_int (Z.land (Z.shiftr addr (index_offset c)) (index_mask c)).
Definition get_tag (c : Cache) (addr : Z) : Z := Z.shiftr addr (tag_offset c).
Definition align (c : Cache) (addr : Z) : Z := Z.land addr (Z.lnot (block_size c - 1)).

(** [get_lines(addr)] creates the set when it is not there. *)
Definition lines_of (c : Cache) (addr : Z) : list Line := default [] (cache_lines c !! get_index c addr).
Definition put_lines (addr : Z) (ls : list Line) (c : Cache) : Cache :=
  set_lines (<[get_index c addr := ls]> (cache_lines c)) c.
Definition get_lines (c : Cache) (addr : Z) : list Line * Cache :=
  (lines_of c addr, put_lines addr (lines_of c addr) c).

(** [find_if(lines.begin(), lines.end(), [..](Line l) { return l.tag == get_tag(addr); })] *)
Definition find_line (c : Cache) (addr : Z) (ls : list Line) : option (nat * Line) :=
  list_find (λ l, ltag l = get_tag c addr) ls.

Definition is_hit (c : Cache) (ls : list Line) (addr : Z) : bool * option (nat * Line) :=
  let pos := find_line c addr ls in
  (match pos with None => false | Some (_, l) => negb (lock l) end, pos).

Definition all_sets_locked (c : Cache) (ls : list Line) : bool :=
  if Z.of_nat (length ls) <? assoc c then false else forallb lock ls.

Definition need_eviction (c : Cache) (ls : list Line) (addr : Z) : option bool :=
  match find_line c addr ls with
  | Some _ => None
  | None => Some (negb (Z.of_nat (length ls) <? assoc c))
  end.

(** [hit_mshr(addr)]: the position of the entry. *)
Definition hit_mshr (c : Cache) (addr : Z) : option (nat * (Z * line_it)) :=
  list_find (λ e, align c (fst e) = align c addr) (mshr_entries c).

(** Assignment through an iterator. *)
Definition upd_line (it : line_it) (f : Line → Line) (c : Cache) : option Cache :=
  ls ← cache_lines c !! fst it;
  '(k, l) ← list_find (λ l, lid l = snd it) ls;
  Some (set_lines (<[fst it := <[k := f l]> ls]> (cache_lines c)) c).
Definition set_dirty (b : bool) (l : Line) : Line := mkLine (lid l) (laddr l) (ltag l) (lock l) b.
Definition set_lock (b : bool) (l : Line) : Line := mkLine (lid l) (laddr l) (ltag l) b (dirty l).

(** ** Statistics *)

Definition count_access (w : bool) (c : Cache) : Cache :=
  let t := castats c in
  set_castats (mkCacheStats (cache_read_miss t) (cache_write_miss t) (cache_total_miss t) (cache_eviction t)
    (if w then cache_read_access t else cache_read_access t + 1)
    (if w then cache_write_access t + 1 else cache_write_access t) (cache_total_access t + 1)
    (cache_mshr_hit t) (cache_mshr_unavailable t) (cache_set_unavailable t)) c.
Definition count_miss (w : bool) (c : Cache) : Cache :=
  let t := castats c in
  set_castats (mkCacheStats (if w then cache_read_miss t else cache_read_miss t + 1)
    (if w then cache_write_miss t + 1 else cache_write_miss t) (cache_total_miss t + 1) (cache_eviction t)
    (cache_read_access t) (cache_write_access t) (cache_total_access t)
    (cache_mshr_hit t) (cache_mshr_unavailable t) (cache_set_unavailable t)) c.
Definition count_eviction (c : Cache) : Cache :=
  let t := castats c in
  set_castats (mkCacheStats (cache_read_miss t) (cache_write_miss t) (cache_total_miss t) (cache_eviction t + 1)
    (cache_read_access t) (cache_write_access t) (cache_total_access t)
    (cache_mshr_hit t) (cache_mshr_unavailable t) (cache_set_unavailable t)) c.
Definition count_mshr_hit (c : Cache) : Cache :=
  let t := castats c in
  set_castats (mkCacheStats (cache_read_miss t) (cache_write_miss t) (cache_total_miss t) (cache_eviction t)
    (cache_read_access t) (cache_write_access t) (cache_total_access t)
    (cache_mshr_hit t + 1) (cache_mshr_unavailable t) (cache_set_unavailable t)) c.
Definition count_mshr_unavailable (c : Cache) : Cache :=
  let t := castats c in
  set_castats (mkCacheStats (cache_read_miss t) (cache_write_miss t) (cache_total_miss t) (cache_eviction t)
    (cache_read_access t) (cache_write_access t) (cache_total_access t)
    (cache_mshr_hit t) (cache_mshr_unavailable t + 1) (cache_set_unavailable t)) c.
Definition count_set_unavailable (c : Cache) : Cache :=
  let t := castats c in
  set_castats (mkCacheStats (cache_read_miss t) (cache_write_miss t) (cache_total_miss t) (cache_eviction t)
    (cache_read_access t) (cache_write_access t) (cache_total_access t)
    (cache_mshr_hit t) (cache_mshr_unavailable t) (cache_set_unavailable t + 1)) c.

(** ** The hierarchy *)

(** [check_unlock(addr)]: the line is unlocked here and in every higher cache. *)
Fixpoint check_unlock (fuel : nat) (s : Caches) (i : nat) (addr : Z) : option bool :=
  match fuel with
  | O => None
  | S fuel =>
    c ← store s !! i;
    match cache_lines c !! get_index c addr with
    | None => Some true
    | Some ls =>
      match find_line c addr ls with
      | None => Some true
      | Some (_, l) =>
        if is_first_level c then Some (negb (lock l)) else
        foldM (λ check hc, if negb check then Some check else check_unlock fuel s hc (laddr l))
          (negb (lock l)) (higher_cache c)
      end
    end
  end.

(** [evictline(addr, dirty)]: a line evicted by the level above. *)
Definition evictline (i : nat) (addr : Z) (d : bool) (s : Caches) : option Caches :=
  c ← store s !! i;
  ls ← cache_lines c !! get_index c addr;
  '(k, l) ← find_line c addr ls;
  let '(n, s) := fresh_lid s in
  let ls := delete k (ls ++ [mkLine n addr (get_tag c addr) false (d || dirty l)]) in
  Some (put_cache i (put_lines addr ls c) s).

(** [invalidate(addr)]: the latency, and whether this or a higher level had a
    newer version.  The source reads [line->dirty] after [lines.erase(line)];
    the value taken here is the one the erased node had. *)
Fixpoint invalidate (fuel : nat) (i : nat) (addr : Z) (s : Caches) : option ((Z * bool) * Caches) :=
  match fuel with
  | O => None
  | S fuel =>
    c ← store s !! i;
    delay ← latency_each c !! level_index (clevel c);
    let '(ls, c) := get_lines c addr in
    let s := put_cache i c s in
    if (length ls =? 0)%nat then Some ((0, false), s) else
    match find_line c addr ls with
    | None => Some ((delay, false), s)
    | Some (k, l) =>
      assert! negb (lock l);
      let s := put_cache i (put_lines addr (delete k ls) c) s in
      if (length (higher_cache c) =? 0)%nat then Some ((delay, dirty l), s) else
      '(max_delay, d, s) ← foldM (λ (acc : Z * bool * Caches) (hc : nat),
          let '(max_delay, d, s) := acc in
          '((t, newer), s) ← invalidate fuel hc addr s;
          Some (Z.max max_delay (if (newer : bool) then delay + t * 2 else delay + t), d || dirty l || newer, s))
        (delay, false, s) (higher_cache c);
      Some ((max_delay, d), s)
    end
  end.

(** [evict(lines, victim)] for the victim [l] of the set of [addr]. *)
Definition evict (i : nat) (addr : Z) (l : Line) (s : Caches) : option Caches :=
  c ← store s !! i;
  let c := count_eviction c in
  let s := put_cache i c s in
  lat ← latency c !! level_index (clevel c);
  each ← latency_each c !! level_index (clevel c);
  '(invalidate_time, d, s) ← foldM (λ (acc : Z * bool * Caches) (hc : nat),
      let '(time, d, s) := acc in
      '((t, newer), s) ← invalidate cache_fuel hc (laddr l) s;
      Some (Z.max time (t + (if (newer : bool) then each else 0)), d || newer || dirty l, s))
    (0, dirty l, s) (higher_cache c);
  s ← (if negb (is_last_level c) then
         lower ← lower_cache c;
         evictline lower (laddr l) d s
       else if (d : bool) then
         let write_req := Request_addr (laddr l) WRITE 0 in
         Some (set_wait_list (wait_list s ++ [(sclk s + invalidate_time + lat, write_req)]) s)
       else Some s);
  c ← store s !! i;
  let ls := lines_of c addr in
  '(k, _) ← list_find (λ x, lid x = lid l) ls;
  Some (put_cache i (put_lines addr (delete k ls) c) s).

(** The victim: the first line unlocked here and above. *)
Fixpoint find_victim (s : Caches) (c : Cache) (ls : list Line) : option (option Line) :=
  match ls with
  | [] => Some None
  | l :: ls =>
    check ← (if is_first_level c then Some (negb (lock l)) else
             foldM (λ check hc, if negb check then Some check
                                else check_unlock cache_fuel s hc (laddr l))
               (negb (lock l)) (higher_cache c));
    if (check : bool) then Some (Some l) else find_victim s c ls
  end.

(** [allocate_line(lines, addr)]: the new line, or nothing when every line of
    the set is locked at some level. *)
Definition allocate_line (i : nat) (addr : Z) (s : Caches) : option (option line_it * Caches) :=
  c ← store s !! i;
  b ← need_eviction c (lines_of c addr) addr;
  let append (s : Caches) : option (option line_it * Caches) :=
    c ← store s !! i;
    let '(n, s) := fresh_lid s in
    let ls := lines_of c addr ++ [mkLine n addr (get_tag c addr) true false] in
    Some (Some (get_index c addr, n), put_cache i (put_lines addr ls c) s) in
  if (b : bool) then
    v ← find_victim s c (lines_of c addr);
    match v with
    | None => Some (None, s)
    | Some l => s ← evict i addr l s; append s
    end
  else append s.

(** A hit on the [k]-th line [l] of the set: the line becomes the youngest. *)
Definition send_hit (i : nat) (w : bool) (lat : Z) (req : Request) (c : Cache) (ls : list Line) (k : nat) (l : Line)
    (s : Caches) : Caches :=
  let '(n, s) := fresh_lid s in
  let ls := delete k (ls ++ [mkLine n (addr req) (get_tag c (addr req)) false (dirty l || w)]) in
  let s := put_cache i (put_lines (addr req) ls c) s in
  set_hit_list (hit_list s ++ [(sclk s + lat, req)]) s.

(** The end of a miss: a new line and a new entry of the MSHR, and the request
    goes on to the next level, whose answer is dropped. *)
Definition send_new (send_lower : nat → Request → Caches → option (bool * Caches))
    (i : nat) (w : bool) (lat : Z) (req : Request) (s : Caches) : option (bool * Caches) :=
  '(newline, s) ← allocate_line i (addr req) s;
  match newline with
  | None => Some (false, s)
  | Some it =>
    c ← store s !! i;
    c ← upd_line it (set_dirty w) c;
    let s := put_cache i (set_mshr (mshr_entries c ++ [(addr req, it)]) c) s in
    if negb (is_last_level c) then
      lower ← lower_cache c;
      '(_, s) ← send_lower lower req s;
      Some (true, s)
    else Some (true, set_wait_list (wait_list s ++ [(sclk s + lat, req)]) s)
  end.

(** A miss, after the request became a read. *)
Definition send_miss (send_lower : nat → Request → Caches → option (bool * Caches))
    (i : nat) (w : bool) (lat : Z) (req : Request) (c : Cache) (ls : list Line) (s : Caches) : option (bool * Caches) :=
  match hit_mshr c (addr req) with
  | Some (_, (_, it)) =>
    c ← upd_line it (λ l, set_dirty (w || dirty l) l) (count_mshr_hit c);
    Some (true, put_cache i c s)
  | None =>
    if Z.of_nat (length (mshr_entries c)) =? mshr_entry_num c then
      Some (false, put_cache i (count_mshr_unavailable c) s)
    else if all_sets_locked c ls then
      Some (false, put_cache i (count_set_unavailable c) s)
    else send_new send_lower i w lat req (put_cache i c s)
  end.

(** [send(req)] *)
Fixpoint cache_send (fuel : nat) (i : nat) (req : Request) (s : Caches) : option (bool * Caches) :=
  match fuel with
  | O => None
  | S fuel =>
    c ← store s !! i;
    let w := bool_decide (type req = WRITE) in
    assert! bool_decide (type req = WRITE ∨ type req = READ);
    let c := count_access w c in
    lat ← latency c !! level_index (clevel c);
    let '(ls, c) := get_lines c (addr req) in
    match is_hit c ls (addr req) with
    | (true, Some (k, l)) => Some (true, send_hit i w lat req c ls k l s)
    | _ => send_miss (cache_send fuel) i w lat (set_type READ req) (count_miss w c) ls s
    end
  end.

(** [callback(req)]: the block arrived. *)
Fixpoint callback (fuel : nat) (i : nat) (req : Request) (s : Caches) : option Caches :=
  match fuel with
  | O => None
  | S fuel =>
    c ← store s !! i;
    s ← match hit_mshr c (addr req) with
        | Some (k, (_, it)) =>
          c ← upd_line it (set_lock false) c;
          Some (put_cache i (set_mshr (delete k (mshr_entries c)) c) s)
        | None => Some s
        end;
    foldM (λ s hc, callback fuel hc req s) s (higher_cache c)
  end.

(** ** [CacheSystem::tick] *)

Section Tick.
(** The memory the misses are sent to. *)
Context {M : Type} (send_memory : Request → M → option (bool * M)).

(** The loop over [wait_list]: it stops at the first request that is not due,
    and a request the memory refuses stays. *)
Fixpoint send_waiting (clk : Z) (l : list (Z * Request)) (m : M) : option (list (Z * Request) * M) :=
  match l with
  | [] => Some ([], m)
  | (t, req) :: l' =>
    if clk <? t then Some (l, m) else
    '(ok, m) ← send_memory req m;
    '(rest, m) ← send_waiting clk l' m;
    Some (if (ok : bool) then rest else (t, req) :: rest, m)
  end.

(** [tick()]: the callbacks of the hits that are due run in order, on the
    returned requests; they do not touch [hit_list]. *)
Definition cs_tick (s : Caches) (m : M) : option (list Request * Caches * M) :=
  let s := set_sclk (sclk s + 1) s in
  '(rest, m) ← send_waiting (sclk s) (wait_list s) m;
  let due := filter (λ e, fst e ≤ sclk s) (hit_list s) in
  let s := set_hit_list (filter (λ e, ¬ fst e ≤ sclk s) (hit_list s)) (set_wait_list rest s) in
  Some (map snd due, s, m).
End Tick.

(** Fuel for [send] and [callback]. *)
Definition csend (i : nat) (req : Request) (s : Caches) : option (bool * Caches) :=
  cache_send cache_fuel i req s.
Definition ccallback (i : nat) (req : Request) (s : Caches) : option Caches :=
  callback cache_fuel i req s.
