(* ===== verification/CacheInv.v ===== *)
(** * The caches refine a non-blocking LRU cache

    The specification ([acache]) forgets list nodes, iterators and addresses: a
    set is a list of blocks from the least to the most recently used, each
    locked while its data is on its way, and the outstanding misses are a list
    of blocks.  The invariant [cache_ok] ties the concrete cache to it. *)

From S2P Require Import Prelude Request Memory MemoryMap Cache.

(** ** The specification *)

Record aline := mkA { ablock : Z; alock : bool; adirty : bool }.
Record acache := mkACache { a_set : Z → list aline; a_out : list Z }.

(** Two cache states are the same when all their sets are. *)
#[export] Instance acache_equiv : Equiv acache := λ x y, (∀ i, a_set x i = a_set y i) ∧ a_out x = a_out y.
#[export] Instance acache_equivalence : Equivalence (≡@{acache}).
Proof.
  split; [by intros x|intros x y [H1 H2]; split; [by intros i|done]|].
  intros x y z [H1 H2] [H3 H4]. split; [intros i; by rewrite H1|congruence].
Qed.

Inductive outcome := Hit | Merged | Refused | Missed (writeback : option Z).

Definition a_put (i : Z) (ls : list aline) (a : acache) : acache :=
  mkACache (λ j, if decide (j = i) then ls else a_set a j) (a_out a).

(** A read or write of block [b] in a cache of [n] sets of [ways] lines with at
    most [limit] outstanding misses. *)
Definition a_send (ways limit n b : Z) (w : bool) (a : acache) : outcome * acache :=
  let i := b mod n in
  let ls := a_set a i in
  match list_find (λ l, ablock l = b) ls with
  | Some (k, l) =>
    if alock l then (Merged, a_put i (<[k := mkA b true (w || adirty l)]> ls) a)
    else (Hit, a_put i (delete k ls ++ [mkA b false (adirty l || w)]) a)
  | None =>
    if Z.of_nat (length (a_out a)) =? limit then (Refused, a)
    else if Z.of_nat (length ls) <? ways then
      (Missed None, mkACache (a_set (a_put i (ls ++ [mkA b true w]) a)) (a_out a ++ [b]))
    else
      match list_find (λ l, alock l = false) ls with
      | None => (Refused, a)
      | Some (k, v) =>
        (Missed (if adirty v then Some (ablock v) else None),
         mkACache (a_set (a_put i (delete k ls ++ [mkA b true w]) a)) (a_out a ++ [b]))
      end
  end.

(** The data of block [b] arrives. *)
Definition a_unlock (b : Z) (l : aline) : aline := if decide (ablock l = b) then mkA b false (adirty l) else l.
Definition a_callback (n b : Z) (a : acache) : acache :=
  match list_find (λ x, x = b) (a_out a) with
  | None => a
  | Some (k, _) => mkACache (a_set (a_put (b mod n) (map (a_unlock b) (a_set a (b mod n))) a)) (delete k (a_out a))
  end.

#[export] Instance a_put_proper i ls : Proper ((≡) ==> (≡)) (a_put i ls).
Proof. intros x y [H1 H2]. split; [intros j; simpl; by case_decide|done]. Qed.

#[export] Instance a_callback_proper n b : Proper ((≡) ==> (≡)) (a_callback n b).
Proof.
  intros x y [H1 H2]. unfold a_callback. rewrite H2. destruct (list_find _ _) as [[k z]|]; [|done].
  split; [intros j; simpl; rewrite !H1; by case_decide|done].
Qed.

(** ** Geometry *)

Definition block (c : Cache) (a : Z) : Z := Z.shiftr a (index_offset c).

Record geometry (c : Cache) : Prop := {
  ge_off : 0 ≤ index_offset c;
  ge_size : block_size c = 2 ^ index_offset c;
  ge_num : ∃ k, 0 ≤ k ≤ 31 ∧ block_num c = 2 ^ k ∧ tag_offset c = k + index_offset c ∧ index_mask c = 2 ^ k - 1;
  ge_assoc : 0 < assoc c
}.

Lemma block_num_pos c : geometry c → 0 < block_num c.
Proof. intros [_ _ (k&?&->&_) _]. by apply Z.pow_pos_nonneg; lia. Qed.

Lemma get_index_block c a : geometry c → get_index c a = block c a mod block_num c.
Proof.
  intros [Ho _ (k&Hk&Hn&_&Hm) _]. unfold get_index, block. rewrite Hm, Hn.
  replace (2 ^ k - 1) with (Z.ones k) by (rewrite Z.ones_equiv; lia). rewrite Z.land_ones by lia.
  pose proof (Z.mod_pos_bound (Z.shiftr a (index_offset c)) (2 ^ k) (Z.pow_pos_nonneg 2 k ltac:(lia) ltac:(lia))).
  pose proof (Z.pow_le_mono_r 2 k 31 ltac:(lia) ltac:(lia)).
  unfold to_int. rewrite Z.mod_small; lia.
Qed.

Lemma get_tag_block c a : geometry c → get_tag c a = block c a / block_num c.
Proof.
  intros [Ho _ (k&Hk&Hn&Ht&_) _]. unfold get_tag, block. rewrite Ht, Hn, Z.add_comm, <-Z.shiftr_shiftr by lia.
  by rewrite Z.shiftr_div_pow2 by lia.
Qed.

Lemma align_block c a b : geometry c → align c a = align c b ↔ block c a = block c b.
Proof.
  intros [Ho Hs _ _]. unfold align, block. rewrite Hs.
  assert (∀ x, Z.land x (Z.lnot (2 ^ index_offset c - 1)) = Z.shiftr x (index_offset c) * 2 ^ index_offset c) as E.
  { intros x. replace (2 ^ index_offset c - 1) with (Z.ones (index_offset c)) by (rewrite Z.ones_equiv; lia).
    rewrite <-Z.ldiff_land, Z.ldiff_ones_r, Z.shiftl_mul_pow2 by lia. done. }
  rewrite !E. split; [|by intros ->]. intros H. apply Z.mul_reg_r in H; [done|]. apply Z.pow_nonzero; lia.
Qed.

(** ** The invariant of a cache *)

Definition lkey (l : Line) : nat * Z * Z := (lid l, laddr l, ltag l).
Definition aline_of (c : Cache) (l : Line) : aline := mkA (block c (laddr l)) (lock l) (dirty l).
Definition abs (c : Cache) : acache :=
  mkACache (λ i, map (aline_of c) (default [] (cache_lines c !! i))) (map (λ e, block c (fst e)) (mshr_entries c)).

(** A set: at most [assoc] lines, no block twice, every line in its own set,
    and list nodes allocated before [next]. *)
Record set_ok (next : nat) (c : Cache) (i : Z) (ls : list Line) : Prop := {
  so_len : Z.of_nat (length ls) ≤ assoc c;
  so_block : NoDup (map (λ l, block c (laddr l)) ls);
  so_lid : NoDup (map lid ls);
  so_line : Forall (λ l, block c (laddr l) mod block_num c = i ∧ ltag l = get_tag c (laddr l) ∧ (lid l < next)%nat) ls
}.

(** An entry of the MSHR points to the locked line of its block. *)
Definition entry_ok (c : Cache) (e : Z * line_it) : Prop :=
  fst (snd e) = block c (fst e) mod block_num c ∧
  ∃ ls l, cache_lines c !! fst (snd e) = Some ls ∧ l ∈ ls ∧ lid l = snd (snd e) ∧ lock l = true ∧
          block c (laddr l) = block c (fst e).

Record cache_ok (next : nat) (c : Cache) : Prop := {
  co_geom : geometry c;
  co_sets : ∀ i ls, cache_lines c !! i = Some ls → set_ok next c i ls;
  co_entries : Forall (entry_ok c) (mshr_entries c);
  co_nodup : NoDup (map (λ e, block c (fst e)) (mshr_entries c));
  co_room : Z.of_nat (length (mshr_entries c)) ≤ mshr_entry_num c;
  co_locked : ∀ i ls l, cache_lines c !! i = Some ls → l ∈ ls → lock l = true →
              block c (laddr l) ∈ map (λ e, block c (fst e)) (mshr_entries c)
}.

(** ** Sets *)

Lemma find_line_abs c next a ls :
  geometry c → set_ok next c (get_index c a) ls →
  list_find (λ l, ablock l = block c a) (map (aline_of c) ls) = prod_map id (aline_of c) <$> find_line c a ls.
Proof.
  intros Hg Hs. unfold find_line. pose proof (so_line _ _ _ _ Hs) as Hl. clear Hs.
  induction Hl as [|l ls (Hi&Ht&_) _ IH]; [done|]; simpl. rewrite IH.
  assert (block c (laddr l) = block c a ↔ ltag l = get_tag c a) as E.
  { rewrite Ht, !get_tag_block by done. rewrite get_index_block in Hi by done. split; [by intros ->|intros Hd].
    rewrite (Z.div_mod (block c (laddr l)) (block_num c)), (Z.div_mod (block c a) (block_num c)), Hd, Hi; [done|..];
      pose proof (block_num_pos c Hg); lia. }
  clear IH Hi Ht Hg.
  destruct (decide (block c (laddr l) = block c a)), (decide (ltag l = get_tag c a)); simpl; try tauto.
  by destruct (list_find _ ls) as [[]|].
Qed.

Lemma hit_mshr_abs c a :
  geometry c →
  list_find (λ x, x = block c a) (a_out (abs c)) = prod_map id (λ e, block c (fst e)) <$> hit_mshr c a.
Proof.
  intros Hg. unfold hit_mshr, abs; simpl. induction (mshr_entries c) as [|e es IH]; [done|]; simpl. rewrite IH.
  pose proof (align_block c (fst e) a Hg).
  destruct (decide (block c (fst e) = block c a)), (decide (align c (fst e) = align c a)); simpl; try tauto. by destruct (list_find _ es) as [[]|].
Qed.

Lemma set_ok_nil next c i : geometry c → set_ok next c i [].
Proof. intros Hg. pose proof (ge_assoc c Hg). split; simpl; try constructor. lia. Qed.

Lemma set_ok_mono next next' c i ls : (next ≤ next')%nat → set_ok next c i ls → set_ok next' c i ls.
Proof.
  intros Hn [? ? ? Hl]. split; try done. eapply Forall_impl; [exact Hl|]. simpl. intros l (?&?&?). split_and!; try done. lia.
Qed.

(** A set with fewer lines, or with other flags. *)
Lemma set_ok_sublist next c i ls ls' :
  map lkey ls' `sublist_of` map lkey ls → set_ok next c i ls → set_ok next c i ls'.
Proof.
  intros Hsub [Hl Hb Hi Hf].
  assert (∀ (B : Type) (f : nat * Z * Z → B), map (f ∘ lkey) ls' `sublist_of` map (f ∘ lkey) ls) as Hm.
  { intros B f. replace (map (f ∘ lkey) ls') with (f <$> map lkey ls') by (unfold fmap; by rewrite map_map).
    replace (map (f ∘ lkey) ls) with (f <$> map lkey ls) by (unfold fmap; by rewrite map_map).
    clear -Hsub. induction Hsub; simpl; by constructor. }
  split.
  - apply sublist_length in Hsub. rewrite !length_map in Hsub. lia.
  - eapply sublist_NoDup; [exact Hb|exact (Hm _ (λ k, block c (snd (fst k))))].
  - eapply sublist_NoDup; [exact Hi|exact (Hm _ (λ k, fst (fst k)))].
  - rewrite Forall_forall in *. intros l Hl'.
    assert (lkey l ∈ map lkey ls) as Hk by (eapply elem_of_sublist; [|done]; apply list_elem_of_fmap; eauto).
    apply list_elem_of_fmap in Hk as (l0&Hk&Hl0). unfold lkey in Hk. injection Hk as -> -> ->. by apply Hf.
Qed.

(** A new line at the end. *)
Lemma set_ok_snoc next c i ls a w d :
  geometry c → set_ok next c i ls → Z.of_nat (length ls) < assoc c → i = get_index c a →
  (∀ l, l ∈ ls → block c (laddr l) ≠ block c a) →
  set_ok (S next) c i (ls ++ [mkLine next a (get_tag c a) w d]).
Proof.
  intros Hg [Hl Hb Hi Hf] Hroom -> Hnew. split.
  - rewrite length_app; simpl. lia.
  - rewrite map_app. apply NoDup_app. split_and!; [done| |apply NoDup_singleton].
    intros x (l&->&Hin)%list_elem_of_fmap ?%list_elem_of_singleton. by eapply Hnew.
  - rewrite map_app. apply NoDup_app. split_and!; [done| |apply NoDup_singleton].
    intros x (l&->&Hin)%list_elem_of_fmap E%list_elem_of_singleton. simpl in E.
    rewrite Forall_forall in Hf. destruct (Hf l Hin) as (_&_&?). lia.
  - apply Forall_app. split; [|constructor; [|done]].
    + eapply Forall_impl; [exact Hf|]. simpl. intros l (?&?&?). split_and!; try done. lia.
    + simpl. rewrite get_index_block by done. split_and!; [done|done|lia].
Qed.

(** The lines of a set without one of them do not contain its block. *)
Lemma set_ok_delete next c i ls k l :
  set_ok next c i ls → ls !! k = Some l →
  set_ok next c i (delete k ls) ∧ Z.of_nat (length (delete k ls)) < assoc c ∧
  ∀ x, x ∈ delete k ls → block c (laddr x) ≠ block c (laddr l).
Proof.
  intros Hs Hk. split; [eapply set_ok_sublist; [|done]; rewrite map_delete; apply sublist_delete|].
  destruct Hs as [Hl Hb _ _]. split.
  - rewrite length_delete by eauto. pose proof (lookup_lt_Some _ _ _ Hk). lia.
  - intros x Hx E. eapply (NoDup_delete_notin _ k _ Hb); [by rewrite lookup_map, Hk|].
    rewrite <-map_delete. apply list_elem_of_fmap. exists x. done.
Qed.

(** ** Changes that keep the configuration of a cache *)

Definition same_config (c c' : Cache) : Prop :=
  ∃ ls ms st, c' = set_castats st (set_mshr ms (set_lines ls c)).

#[export] Instance same_config_preorder : PreOrder same_config.
Proof.
  split; [intros c; exists (cache_lines c), (mshr_entries c), (castats c); by destruct c|].
  intros c c' c'' (?&?&?&->) (ls&ms&st&->). by exists ls, ms, st.
Qed.

Lemma same_config_lines x c : same_config c (set_lines x c).
Proof. by exists x, (mshr_entries c), (castats c). Qed.
Lemma same_config_mshr x c : same_config c (set_mshr x c).
Proof. by exists (cache_lines c), x, (castats c). Qed.
Lemma same_config_castats x c : same_config c (set_castats x c).
Proof. by exists (cache_lines c), (mshr_entries c), x. Qed.
#[export] Hint Resolve same_config_lines same_config_mshr same_config_castats : ram.

Lemma set_ok_same next c c' i ls : same_config c c' → set_ok next c i ls → set_ok next c' i ls.
Proof. intros (?&?&?&->) [? ? ? ?]. by split. Qed.

Lemma geometry_same c c' : same_config c c' → geometry c → geometry c'.
Proof. intros (?&?&?&->) [? ? ? ?]. by split. Qed.

(** Statistics do not matter. *)
Lemma cache_ok_castats next st c : cache_ok next c → cache_ok next (set_castats st c).
Proof.
  intros [? Hs ? ? ? ?]. split; try done; [by eapply geometry_same; [apply same_config_castats|]|].
  intros i ls Hi. eapply set_ok_same; [apply same_config_castats|]. by apply Hs.
Qed.

Definition locked (ls : list Line) : list (nat * Z * Z) := map lkey (filter (λ l, lock l = true) ls).

Lemma elem_of_locked k ls : k ∈ locked ls ↔ ∃ l, l ∈ ls ∧ lock l = true ∧ lkey l = k.
Proof.
  unfold locked. rewrite list_elem_of_fmap. split; [intros (l&->&[? ?]%list_elem_of_filter)|intros (l&?&?&<-)]; eauto.
  exists l. split; [done|]. by apply list_elem_of_filter.
Qed.

(** The entries keep their lines when the locked lines of a set survive. *)
Lemma entry_ok_put c a ls' e :
  (∀ k, k ∈ locked (lines_of c a) → k ∈ locked ls') → entry_ok c e → entry_ok (put_lines a ls' c) e.
Proof.
  intros Hk [Hidx (ls&l&Hls&Hin&Hid&Hlock&Hb)]. split; [done|]. simpl.
  destruct (decide (fst (snd e) = get_index c a)) as [E|E]; [|exists ls, l; by rewrite lookup_insert_ne].
  assert (lkey l ∈ locked ls') as (l'&Hin'&Hlock'&[= Hlid Haddr _])%elem_of_locked.
  { apply Hk, elem_of_locked. exists l. unfold lines_of. by rewrite <-E, Hls. }
  exists ls', l'. rewrite E, lookup_insert_eq. split_and!; try done; [congruence|].
  change (block c (laddr l') = block c (fst e)). congruence.
Qed.

Lemma locked_block next c a l :
  cache_ok next c → lkey l ∈ locked (lines_of c a) → block c (laddr l) ∈ map (λ e, block c (fst e)) (mshr_entries c).
Proof.
  intros Hc (l0&Hin&Hlock&[= _ <- _])%elem_of_locked. unfold lines_of in Hin.
  destruct (cache_lines c !! get_index c a) as [ls|] eqn:E; [|by apply not_elem_of_nil in Hin]. by eapply co_locked.
Qed.

(** A set that changes without locking or unlocking a line. *)
Lemma cache_ok_put next next' c a ls' :
  cache_ok next c → (next ≤ next')%nat → set_ok next' c (get_index c a) ls' →
  (∀ k, k ∈ locked ls' ↔ k ∈ locked (lines_of c a)) → cache_ok next' (put_lines a ls' c).
Proof.
  intros Hc Hnext Hset Hk. split; try apply Hc.
  - eapply geometry_same; [apply same_config_lines|apply Hc].
  - intros i ls. simpl. intros [[<- <-]|[? Hi]]%lookup_insert_Some; (eapply set_ok_same; [apply same_config_lines|]); [done|].
    eapply set_ok_mono; [done|by eapply co_sets].
  - eapply Forall_impl; [apply Hc|]. intros e. apply entry_ok_put. intros k. apply Hk.
  - intros i ls l. simpl. intros [[<- <-]|[? Hi]]%lookup_insert_Some Hin Hlock; [|by eapply (co_locked _ _ Hc)].
    apply (locked_block next c a l Hc), Hk, elem_of_locked. by exists l.
Qed.

(** A miss: a locked line with its entry. *)
Lemma cache_ok_miss next next' c a ls l :
  cache_ok next c → (next ≤ next')%nat →
  set_ok next' c (get_index c a) (ls ++ [l]) → (∀ k, k ∈ locked ls ↔ k ∈ locked (lines_of c a)) →
  lock l = true → block c (laddr l) = block c a →
  block c a ∉ a_out (abs c) → Z.of_nat (length (mshr_entries c)) < mshr_entry_num c →
  cache_ok next' (set_mshr (mshr_entries c ++ [(a, (get_index c a, lid l))]) (put_lines a (ls ++ [l]) c)).
Proof.
  intros Hc Hnext Hset Hk Hlock Hb Hnew Hroom.
  assert (∀ x ms, same_config c (set_mshr ms (set_lines x c))) as Hsame
    by (intros; etrans; [apply same_config_lines|apply same_config_mshr]).
  split.
  - eapply geometry_same; [apply Hsame|apply Hc].
  - intros i ls0. simpl. intros [[<- <-]|[? Hi]]%lookup_insert_Some; (eapply set_ok_same; [apply Hsame|]); [done|].
    eapply set_ok_mono; [done|by eapply co_sets].
  - simpl. apply Forall_app. split; [|apply Forall_singleton].
    + eapply Forall_impl; [apply Hc|]. intros e He. apply (entry_ok_put c a (ls ++ [l]) e); [|done].
      intros k (l0&Hin&?)%Hk%elem_of_locked. apply elem_of_locked. exists l0. split; [|done]. apply elem_of_app. by left.
    + split; simpl; [exact (get_index_block c a (co_geom _ _ Hc))|]. exists (ls ++ [l]), l.
      rewrite lookup_insert_eq. split_and!; try done. apply elem_of_app. right. by apply list_elem_of_singleton.
  - simpl. rewrite map_app. apply NoDup_app. split_and!; [apply Hc| |apply NoDup_singleton].
    intros x Hx E%list_elem_of_singleton. apply Hnew. subst x. exact Hx.
  - simpl. rewrite length_app; simpl. lia.
  - intros i ls0 l0. simpl. rewrite map_app, elem_of_app. intros [[<- <-]|[? Hi]]%lookup_insert_Some Hin Hlk; [|left; by eapply (co_locked _ _ Hc)].
    apply elem_of_app in Hin as [Hin|E%list_elem_of_singleton]; [left|right; subst l0; apply list_elem_of_singleton; exact Hb].
    apply (locked_block next c a l0 Hc), Hk, elem_of_locked. by exists l0.
Qed.

(** ** Assignments through an entry of the MSHR *)

Lemma upd_line_entry next c e :
  cache_ok next c → e ∈ mshr_entries c →
  ∃ ls k l, cache_lines c !! get_index c (fst e) = Some ls ∧ ls !! k = Some l ∧ lock l = true ∧
    block c (laddr l) = block c (fst e) ∧
    ∀ f, upd_line (snd e) f c = Some (put_lines (fst e) (<[k := f l]> ls) c).
Proof.
  intros Hc He. pose proof (proj1 (Forall_forall _ _) (co_entries _ _ Hc) e He) as [Hidx (ls&l&Hls&Hin&Hid&Hlock&Hb)].
  pose proof (so_lid _ _ _ _ (co_sets _ _ Hc _ _ Hls)) as Hnd. apply list_elem_of_lookup in Hin as [k Hk].
  exists ls, k, l. rewrite get_index_block, <-Hidx by apply Hc. split_and!; try done. intros f.
  unfold upd_line, put_lines. rewrite Hls; simpl. rewrite get_index_block, <-Hidx by apply Hc.
  destruct (list_find (λ l0, lid l0 = snd (snd e)) ls) as [[k' l']|] eqn:Hf.
  - apply list_find_Some in Hf as (Hk'&Hid'&_). simpl.
    assert (k' = k) as ->; [|rewrite Hk in Hk'; by injection Hk' as <-].
    eapply (NoDup_lookup (map lid ls) k' k (lid l)); [done|rewrite lookup_map, Hk'|rewrite lookup_map, Hk]; simpl; congruence.
  - exfalso. apply list_find_None in Hf. rewrite Forall_forall in Hf. eapply Hf; [by eapply list_elem_of_lookup_2|done].
Qed.

Lemma map_lkey_insert k l l' ls : ls !! k = Some l → lkey l' = lkey l → map lkey (<[k:=l']> ls) = map lkey ls.
Proof. intros Hk E. rewrite map_insert, E. apply list_insert_id. by rewrite lookup_map, Hk. Qed.

Lemma set_ok_insert next c i k l l' ls :
  set_ok next c i ls → ls !! k = Some l → lkey l' = lkey l → set_ok next c i (<[k:=l']> ls).
Proof. intros Hs Hk E. eapply set_ok_sublist; [|done]. by erewrite map_lkey_insert. Qed.

(** Two lines of a set with the same block are the same line. *)
Lemma set_ok_block next c i ls k k' l l' :
  set_ok next c i ls → ls !! k = Some l → ls !! k' = Some l' → block c (laddr l) = block c (laddr l') → k = k'.
Proof.
  intros Hs Hk Hk' E. eapply (NoDup_lookup _ _ _ (block c (laddr l)) (so_block _ _ _ _ Hs));
    rewrite lookup_map; [by rewrite Hk|by rewrite Hk', E].
Qed.

Lemma abs_put c a ls : abs (put_lines a ls c) ≡ a_put (get_index c a) (map (aline_of c) ls) (abs c).
Proof.
  split; [|done]. intros i. simpl. case_decide as E; [by rewrite E, lookup_insert_eq|by rewrite lookup_insert_ne].
Qed.

Lemma map_unlock next c i ls k l :
  set_ok next c i ls → ls !! k = Some l →
  map (a_unlock (block c (laddr l))) (map (aline_of c) ls) = map (aline_of c) (<[k := set_lock false l]> ls).
Proof.
  intros Hs Hk. rewrite map_map. apply list_eq. intros j. rewrite map_insert.
  destruct (decide (j = k)) as [->|Hne].
  - rewrite list_lookup_insert_eq by (rewrite length_map; by eapply lookup_lt_Some). rewrite lookup_map, Hk; simpl.
    unfold a_unlock. by rewrite decide_True by done.
  - rewrite list_lookup_insert_ne by done. rewrite !lookup_map. destruct (ls !! j) as [l'|] eqn:Hj; [|done]. simpl.
    unfold a_unlock. rewrite decide_False; [done|]. simpl. intros E. apply Hne. by eapply set_ok_block.
Qed.

(** The data of an entry arrives. *)
Lemma cache_ok_unlock next c j e ls k l :
  cache_ok next c → mshr_entries c !! j = Some e → cache_lines c !! get_index c (fst e) = Some ls →
  ls !! k = Some l → lock l = true → block c (laddr l) = block c (fst e) →
  cache_ok next (set_mshr (delete j (mshr_entries c)) (put_lines (fst e) (<[k := set_lock false l]> ls) c)).
Proof.
  intros Hc Hj Hls Hk Hlock Hb.
  assert (∀ x ms, same_config c (set_mshr ms (set_lines x c))) as Hsame
    by (intros; etrans; [apply same_config_lines|apply same_config_mshr]).
  pose proof (co_sets _ _ Hc _ _ Hls) as Hset.
  assert (∀ i ls0 l0, cache_lines c !! i = Some ls0 → l0 ∈ ls0 → block c (laddr l0) ≠ block c (fst e) →
    ∃ ls', (<[get_index c (fst e) := <[k := set_lock false l]> ls]> (cache_lines c)) !! i = Some ls' ∧ l0 ∈ ls') as Hother.
  { intros i ls0 l0 Hi Hin Hne. destruct (decide (i = get_index c (fst e))) as [->|]; [|exists ls0; by rewrite lookup_insert_ne].
    rewrite lookup_insert_eq. simplify_eq. eexists. split; [done|]. apply list_elem_of_lookup in Hin as [k0 Hk0].
    apply list_elem_of_lookup. exists k0. rewrite list_lookup_insert_ne; [done|]. intros ->. simplify_eq. }
  split.
  - eapply geometry_same; [apply Hsame|apply Hc].
  - intros i ls0. simpl. intros [[<- <-]|[? Hi]]%lookup_insert_Some; (eapply set_ok_same; [apply Hsame|]);
      [by eapply set_ok_insert|by eapply co_sets].
  - simpl. apply Forall_forall. intros e' He'. 
    assert (block c (fst e') ≠ block c (fst e)) as Hne.
    { intros E. pose proof (co_nodup _ _ Hc) as Hnd.
      eapply (NoDup_delete_notin _ j (block c (fst e)) Hnd);
        [by rewrite lookup_map, Hj|].
      rewrite <-map_delete. apply list_elem_of_fmap. by exists e'. }
    assert (e' ∈ mshr_entries c) as Hin' by (by eapply elem_of_sublist, sublist_delete).
    pose proof (proj1 (Forall_forall _ _) (co_entries _ _ Hc) e' Hin') as [Hidx (ls0&l0&Hls0&Hin0&Hid&Hlk&Hb0)].
    split; [done|]. simpl. destruct (Hother _ _ _ Hls0 Hin0) as (ls'&?&?); [congruence|]. by exists ls', l0.
  - simpl. rewrite map_delete. eapply sublist_NoDup; [apply Hc|]. apply sublist_delete.
  - simpl. pose proof (co_room _ _ Hc). rewrite length_delete by eauto. lia.
  - intros i ls0 l0. simpl. intros Hi Hin Hlk. apply list_elem_of_lookup in Hin as [k0 Hk0].
    assert (∃ ls1, cache_lines c !! i = Some ls1 ∧ l0 ∈ ls1 ∧ block c (laddr l0) ≠ block c (fst e)) as (ls1&Hls1&Hin1&Hne).
    { apply lookup_insert_Some in Hi as [[<- <-]|[Hne Hi]].
      - apply list_lookup_insert_Some in Hk0 as [(->&<-&_)|[Hne Hk0]]; [done|]. exists ls. split_and!; [done|by eapply list_elem_of_lookup_2|].
        rewrite <-Hb. intros E. apply Hne. symmetry. by eapply set_ok_block.
      - exists ls0. split_and!; [done|by eapply list_elem_of_lookup_2|]. intros E. apply Hne.
        destruct (proj1 (Forall_forall _ _) (so_line _ _ _ _ (co_sets _ _ Hc _ _ Hi)) l0) as (<-&_); [by eapply list_elem_of_lookup_2|].
        rewrite E. by eapply get_index_block, co_geom. }
    pose proof (co_locked _ _ Hc _ _ _ Hls1 Hin1 Hlk) as Hm. apply list_elem_of_lookup in Hm as [j' Hj'].
    rewrite map_delete. apply (elem_of_delete_ne _ _ j'); [done|]. intros ->. apply Hne.
    rewrite lookup_map, Hj in Hj'. by simplify_eq/=.
Qed.

(** ** [send] implements the specification *)

#[export] Instance a_send_proper ways limit n b w :
  Proper ((≡) ==> prod_relation (=) (≡)) (a_send ways limit n b w).
Proof.
  intros x y [H1 H2]. unfold a_send. rewrite <-!H1, <-H2.
  assert (∀ j ls, a_put j ls x ≡ a_put j ls y) as Hp by (intros; by apply a_put_proper).
  destruct (list_find _ _) as [[k l]|]; [destruct (alock l); split; [done|apply Hp|done|apply Hp]|].
  destruct (_ =? _); [by split|]. destruct (_ <? _); [split; [done|]|].
  { split; [intros j; apply (proj1 (Hp _ _))|simpl; congruence]. }
  destruct (list_find _ _) as [[k l]|]; [|by split]. split; [done|].
  split; [intros j; apply (proj1 (Hp _ _))|simpl; congruence].
Qed.

(** A cache that is the first and the last level: it talks to the memory. *)
Record single_level (lat : Z) (c : Cache) : Prop := {
  sl_first : is_first_level c = true;
  sl_last : is_last_level c = true;
  sl_higher : higher_cache c = [];
  sl_lat : latency c !! level_index (clevel c) = Some lat;
  sl_each : is_Some (latency_each c !! level_index (clevel c))
}.

Lemma single_level_same lat c c' : same_config c c' → single_level lat c → single_level lat c'.
Proof. intros (?&?&?&->) [? ? ? ? ?]. by split. Qed.

Lemma block_same c c' a : same_config c c' → block c' a = block c a.
Proof. by intros (?&?&?&->). Qed.

Lemma lines_of_ok next c a : cache_ok next c → set_ok next c (get_index c a) (lines_of c a).
Proof.
  intros Hc. unfold lines_of. destruct (cache_lines c !! get_index c a) as [ls|] eqn:E; simpl; [by eapply co_sets|].
  apply set_ok_nil, Hc.
Qed.

Lemma abs_lines c a : geometry c → a_set (abs c) (block c a mod block_num c) = map (aline_of c) (lines_of c a).
Proof. intros Hg. unfold lines_of. by rewrite get_index_block. Qed.

(** Looking a set up changes nothing. *)
Lemma get_lines_ok next c a st :
  cache_ok next c →
  let c1 := set_castats st (put_lines a (lines_of c a) c) in
  cache_ok next c1 ∧ same_config c c1 ∧ abs c1 ≡ abs c ∧ lines_of c1 a = lines_of c a.
Proof.
  intros Hc c1. split_and!.
  - apply cache_ok_castats. eapply cache_ok_put; [done|done|by apply lines_of_ok|done].
  - etrans; [apply same_config_lines|apply same_config_castats].
  - split; [|done]. intros i. simpl. destruct (decide (i = get_index c a)) as [->|]; [by rewrite lookup_insert_eq|by rewrite lookup_insert_ne].
  - unfold lines_of at 1. unfold c1. simpl. change (get_index _ a) with (get_index c a). by rewrite lookup_insert_eq.
Qed.

(** The unlocked line that a hit moves or an eviction removes. *)
Lemma locked_delete ls k l x : ls !! k = Some l → lock l = false → x ∈ locked (delete k ls) ↔ x ∈ locked ls.
Proof.
  intros Hk Hl. rewrite !elem_of_locked. split; intros (y&Hy&Hlock&E).
  - exists y. split; [|done]. eapply elem_of_sublist; [done|apply sublist_delete].
  - exists y. split; [|done]. apply list_elem_of_lookup in Hy as [j Hj]. eapply elem_of_delete_ne; [done|].
    intros ->. congruence.
Qed.

Lemma locked_snoc ls l x : lock l = false → x ∈ locked (ls ++ [l]) ↔ x ∈ locked ls.
Proof.
  intros Hl. rewrite !elem_of_locked. split; intros (y&Hy&Hlock&E); [|exists y; split; [|done]; apply elem_of_app; by left].
  apply elem_of_app in Hy as [Hy|Hy%list_elem_of_singleton]; [by exists y|congruence].
Qed.

Lemma locked_insert ls k l l' x :
  ls !! k = Some l → lkey l' = lkey l → lock l' = lock l → x ∈ locked (<[k:=l']> ls) ↔ x ∈ locked ls.
Proof.
  intros Hk Hkey Hlock. rewrite !elem_of_locked. split; intros (y&Hy&Hl&E).
  - apply list_elem_of_lookup in Hy as [j Hj]. apply list_lookup_insert_Some in Hj as [(->&<-&_)|[_ Hj]].
    + exists l. split; [by eapply list_elem_of_lookup_2|]. split; congruence.
    + exists y. split; [by eapply list_elem_of_lookup_2|done].
  - apply list_elem_of_lookup in Hy as [j Hj]. destruct (decide (j = k)) as [->|Hne].
    + exists l'. rewrite Hk in Hj. injection Hj as Hj. split; [|split; congruence]. apply list_elem_of_lookup. exists k.
      apply list_lookup_insert_eq. by eapply lookup_lt_Some.
    + exists y. split; [|done]. apply list_elem_of_lookup. exists j. by rewrite list_lookup_insert_ne.
Qed.

(** A hit. *)
Lemma hit_ok next c a k l d :
  cache_ok next c → lines_of c a !! k = Some l → lock l = false → block c (laddr l) = block c a →
  let ls := delete k (lines_of c a) ++ [mkLine next a (get_tag c a) false d] in
  cache_ok (S next) (put_lines a ls c) ∧
  map (aline_of c) ls = delete k (map (aline_of c) (lines_of c a)) ++ [mkA (block c a) false d].
Proof.
  intros Hc Hk Hl Hb ls. pose proof (lines_of_ok next c a Hc) as Hs. split.
  - eapply cache_ok_put; [done|lia| |].
    + destruct (set_ok_delete _ _ _ _ _ _ Hs Hk) as (Hd&Hlen&Hne).
      apply set_ok_snoc; try done; [apply Hc|]. intros x Hx. rewrite <-Hb. by apply Hne.
    + intros x. unfold ls. rewrite locked_snoc by done. by eapply locked_delete.
  - unfold ls. by rewrite map_app, map_delete.
Qed.

Lemma find_line_Some next c a k l :
  cache_ok next c → find_line c a (lines_of c a) = Some (k, l) →
  lines_of c a !! k = Some l ∧ block c (laddr l) = block c a.
Proof.
  intros Hc Hf. pose proof (find_line_abs c next a (lines_of c a) (co_geom _ _ Hc) (lines_of_ok _ _ a Hc)) as E.
  rewrite Hf in E. simpl in E. apply list_find_Some in E as (_&E&_). apply list_find_Some in Hf as (?&_). done.
Qed.

(** A block is outstanding exactly when its line is there and locked. *)
Lemma outstanding_locked next c a :
  cache_ok next c →
  block c a ∈ a_out (abs c) ↔ ∃ k l, find_line c a (lines_of c a) = Some (k, l) ∧ lock l = true.
Proof.
  intros Hc. pose proof (find_line_abs c next a (lines_of c a) (co_geom _ _ Hc) (lines_of_ok _ _ a Hc)) as E. split.
  - simpl. intros (e&Hb&He)%list_elem_of_fmap. destruct (upd_line_entry next c e Hc He) as (ls&k&l&Hls&Hk&Hlock&Hbl&_).
    assert (get_index c (fst e) = get_index c a) as Hi by (rewrite !get_index_block by apply Hc; by rewrite Hb).
    assert (lines_of c a = ls) as <- by (unfold lines_of; by rewrite <-Hi, Hls).
    destruct (find_line c a (lines_of c a)) as [[k' l']|] eqn:Hf.
    + exists k', l'. split; [done|]. apply (find_line_Some next) in Hf as [Hk' Hb']; [|done].
      assert (k' = k) as -> by (eapply set_ok_block; [by apply (lines_of_ok next c a)|done..|congruence]).
      congruence.
    + exfalso. simpl in E. apply list_find_None in E. rewrite Forall_forall in E.
      apply (E (aline_of c l)); [|simpl; congruence]. apply list_elem_of_fmap. exists l. split; [done|by eapply list_elem_of_lookup_2].
  - intros (k&l&Hf&Hlock). apply (find_line_Some next) in Hf as [Hk Hb]; [|done].
    simpl. rewrite <-Hb. eapply locked_block; [done|]. apply elem_of_locked. exists l. split; [by eapply list_elem_of_lookup_2|done].
Qed.

Lemma put_cache_lookup i c c' s : store s !! i = Some c → store (put_cache i c' s) !! i = Some c'.
Proof. intros H. simpl. apply list_lookup_insert_eq. by eapply lookup_lt_Some. Qed.

Lemma put_cache_twice i c c' s : put_cache i c (put_cache i c' s) = put_cache i c s.
Proof. unfold put_cache, set_store; simpl. by rewrite list_insert_insert_eq. Qed.

(** The new line of a miss. *)
Lemma append_ok next c a ls w :
  cache_ok next c → set_ok next c (get_index c a) ls → Z.of_nat (length ls) < assoc c →
  (∀ x, x ∈ ls → block c (laddr x) ≠ block c a) → (∀ k, k ∈ locked ls ↔ k ∈ locked (lines_of c a)) →
  block c a ∉ a_out (abs c) → Z.of_nat (length (mshr_entries c)) < mshr_entry_num c →
  let new d := mkLine next a (get_tag c a) true d in
  let c' := set_mshr (mshr_entries c ++ [(a, (get_index c a, next))]) (put_lines a (ls ++ [new w]) c) in
  upd_line (get_index c a, next) (set_dirty w) (put_lines a (ls ++ [new false]) c) = Some (put_lines a (ls ++ [new w]) c) ∧
  cache_ok (S next) c' ∧
  abs c' ≡ mkACache (a_set (a_put (get_index c a) (map (aline_of c) ls ++ [mkA (block c a) true w]) (abs c)))
                    (a_out (abs c) ++ [block c a]).
Proof.
  intros Hc Hs Hlen Hnew Hk Hout Hroom new c'. split_and!.
  - unfold upd_line; simpl. rewrite lookup_insert_eq; simpl. rewrite list_find_app_r.
    2:{ apply list_find_None. eapply Forall_impl; [apply Hs|]. simpl. intros l (_&_&?). lia. }
    simpl. rewrite decide_True by done. simpl.
    unfold put_lines, set_lines; simpl. f_equal. f_equal. change (get_index _ a) with (get_index c a).
    rewrite insert_insert_eq. f_equal. rewrite insert_app_r_alt by lia. by rewrite Nat.sub_diag.
  - eapply (cache_ok_miss next (S next) c a ls (new w)); try done; [lia|].
    apply set_ok_snoc; try done. apply Hc.
  - split.
    + intros j. simpl. case_decide as E; [rewrite E, lookup_insert_eq|by rewrite lookup_insert_ne]. simpl. by rewrite map_app.
    + simpl. by rewrite map_app.
Qed.

(** The victim of a first-level cache is the first unlocked line of the set. *)
Lemma find_victim_ok s c ls :
  is_first_level c = true → find_victim s c ls = Some (snd <$> list_find (λ l, lock l = false) ls).
Proof.
  intros Hf. induction ls as [|l ls IH]; [done|]. simpl. rewrite Hf; simpl. rewrite IH.
  destruct (lock l); simpl; [|done]. by destruct (list_find _ ls) as [[]|].
Qed.

Lemma list_find_lock c ls :
  list_find (λ l, alock l = false) (map (aline_of c) ls) = prod_map id (aline_of c) <$> list_find (λ l, lock l = false) ls.
Proof. apply list_find_fmap. Qed.

Lemma all_locked_find ls : forallb lock ls = bool_decide (list_find (λ l, lock l = false) ls = None).
Proof.
  induction ls as [|l ls IH]; [done|]; simpl. rewrite IH. destruct (lock l); simpl; [|done].
  by destruct (list_find _ ls) as [[]|].
Qed.

Definition writeback (s : Caches) (lat : Z) (l : Line) : list (Z * Request) :=
  if dirty l then [(sclk s + lat, Request_addr (laddr l) WRITE 0)] else [].

Lemma evict_ok next lat s i c a k l :
  store s !! i = Some c → cache_ok next c → single_level lat c → lines_of c a !! k = Some l →
  evict i a l s = Some (put_cache i (put_lines a (delete k (lines_of c a)) (count_eviction c))
                          (set_wait_list (wait_list s ++ writeback s lat l) s)).
Proof.
  intros Hi Hc Hsl Hk. destruct Hsl as [Hf Hl Hh Hlat [each Heach]]. unfold evict.
  rewrite Hi; simpl. rewrite Hlat; simpl. rewrite Heach; simpl. rewrite Hh; simpl. rewrite Hl; simpl.
  assert (list_find (λ x, lid x = lid l) (lines_of c a) = Some (k, l)) as Hfind.
  { destruct (list_find _ _) as [[k' l']|] eqn:E.
    - apply list_find_Some in E as (Hk'&Hid&_). assert (k' = k) as ->; [|congruence].
      eapply (NoDup_lookup (map lid (lines_of c a)) k' k (lid l)); [by eapply so_lid, lines_of_ok|..]; rewrite lookup_map;
        [rewrite Hk'|rewrite Hk]; simpl; congruence.
    - apply list_find_None in E. rewrite Forall_forall in E. exfalso. eapply E; [by eapply list_elem_of_lookup_2|done]. }
  assert (∀ x, (c0 ← store (set_wait_list x (put_cache i (count_eviction c) s)) !! i;
     '(k, _) ← list_find (λ x, lid x = lid l) (lines_of c0 a);
     Some (put_cache i (put_lines a (delete k (lines_of c0 a)) c0) (set_wait_list x (put_cache i (count_eviction c) s)))) =
     Some (put_cache i (put_lines a (delete k (lines_of c a)) (count_eviction c)) (set_wait_list x s))) as H.
  { intros x. simpl. rewrite list_lookup_insert_eq by (by eapply lookup_lt_Some). simpl.
    change (lines_of (count_eviction c) a) with (lines_of c a). rewrite Hfind; simpl.
    unfold put_cache, set_store, set_wait_list; simpl. by rewrite list_insert_insert_eq. }
  unfold writeback. destruct (dirty l); simpl; [rewrite Z.add_0_r; apply H|].
  rewrite app_nil_r. rewrite <-(H (wait_list s)). by destruct s.
Qed.

(** What the outcomes mean for the lists of the cache system. *)
Definition send_effect (lat : Z) (c : Cache) (req : Request) (out : outcome) (ok : bool) (s s' : Caches) : Prop :=
  match out with
  | Hit => ok = true ∧ hit_list s' = hit_list s ++ [(sclk s + lat, req)] ∧ wait_list s' = wait_list s
  | Merged => ok = true ∧ hit_list s' = hit_list s ∧ wait_list s' = wait_list s
  | Refused => ok = false ∧ hit_list s' = hit_list s ∧ wait_list s' = wait_list s
  | Missed wb =>
    ok = true ∧ hit_list s' = hit_list s ∧ ∃ v,
      wait_list s' = wait_list s ++
        (if wb is Some _ then [(sclk s + lat, Request_addr v WRITE 0)] else []) ++ [(sclk s + lat, set_type READ req)] ∧
      if wb is Some b then block c v = b else True
  end.

Record send_post (lat : Z) (i : nat) (c : Cache) (req : Request) (s : Caches) (ok : bool) (s' : Caches) : Prop := {
  sp_clk : sclk s' = sclk s;
  sp_next : (next_lid s ≤ next_lid s')%nat;
  sp_levels : first_level s' = first_level s ∧ last_level s' = last_level s;
  sp_cache : ∃ c', store s' = <[i := c']> (store s) ∧ cache_ok (next_lid s') c' ∧ same_config c c' ∧
    let r := a_send (assoc c) (mshr_entry_num c) (block_num c) (block c (addr req))
               (bool_decide (type req = WRITE)) (abs c) in
    abs c' ≡ snd r ∧ send_effect lat c req (fst r) ok s s'
}.

(** The result does not depend on empty sets and statistics. *)
Lemma send_post_same lat i c c1 req s ok s' :
  same_config c c1 → abs c1 ≡ abs c → send_post lat i c1 req s ok s' → send_post lat i c req s ok s'.
Proof.
  intros Hsame Habs [? ? ? (c'&Hs&Hc'&Hsame'&Ha&He)]. split; try done.
  exists c'. split_and!; try done; [by etrans|]. destruct Hsame as (ls&ms&st&->). simpl in *.
  destruct (a_send_proper (assoc c) (mshr_entry_num c) (block_num c) (block c (addr req)) (bool_decide (type req = WRITE))
    _ _ Habs) as [E1 E2]. split; [by rewrite Ha|]. rewrite <-E1. exact He.
Qed.

(** *** The cases of [send] on a cache that talks to the memory *)

Lemma send_hit_ok lat s i c req k l :
  cache_ok (next_lid s) c → find_line c (addr req) (lines_of c (addr req)) = Some (k, l) → lock l = false →
  send_post lat i c req s true (send_hit i (bool_decide (type req = WRITE)) lat req c (lines_of c (addr req)) k l s).
Proof.
  intros Hc Hf Hlock. set (w := bool_decide (type req = WRITE)). set (a := addr req) in *.
  pose proof (find_line_Some _ _ _ _ _ Hc Hf) as [Hk Hb].
  destruct (hit_ok _ c a k l (dirty l || w) Hc Hk Hlock Hb) as [Hc' Habs].
  unfold send_hit; simpl. split; simpl; [done|lia|done|]. fold a.
  rewrite delete_app_lt by (by eapply lookup_lt_Some).
  eexists. split; [done|]. split; [exact Hc'|]. split; [apply same_config_lines|].
  unfold a_send. rewrite abs_lines by apply Hc. fold a.
  rewrite (find_line_abs c _ a _ (co_geom _ _ Hc) (lines_of_ok _ _ a Hc)), Hf. simpl. rewrite Hlock. simpl.
  split; [|done]. rewrite abs_put, Habs, get_index_block by apply Hc. done.
Qed.

Lemma merged_ok next c a e w k l :
  cache_ok next c → e ∈ mshr_entries c → block c (fst e) = block c a →
  find_line c a (lines_of c a) = Some (k, l) →
  ∃ c', upd_line (snd e) (λ l, set_dirty (w || dirty l) l) c = Some c' ∧ cache_ok next c' ∧ same_config c c' ∧ lock l = true ∧
    abs c' ≡ a_put (get_index c a) (<[k := mkA (block c a) true (w || dirty l)]> (map (aline_of c) (lines_of c a))) (abs c).
Proof.
  intros Hc He Hb Hf. destruct (upd_line_entry next c e Hc He) as (ls&k'&l'&Hls&Hk'&Hlock&Hbl&Hupd).
  pose proof (find_line_Some _ _ _ _ _ Hc Hf) as [Hk Hbk].
  assert (get_index c (fst e) = get_index c a) as Hi by (rewrite !get_index_block by apply Hc; by rewrite Hb).
  assert (lines_of c a = ls) as El by (unfold lines_of; by rewrite <-Hi, Hls).
  assert (k' = k) as ->.
  { eapply set_ok_block; [by apply (lines_of_ok next c a)|by rewrite El|done|congruence]. }
  assert (l' = l) as -> by congruence.
  assert (put_lines (fst e) (<[k := set_dirty (w || dirty l) l]> ls) c = put_lines a (<[k := set_dirty (w || dirty l) l]> (lines_of c a)) c)
    as Heq by (unfold put_lines; by rewrite Hi, El).
  eexists. split; [rewrite Hupd; simpl; by rewrite Heq|]. split_and!; [|apply same_config_lines|done|].
  - eapply cache_ok_put; [done|done| |].
    + by eapply set_ok_insert; [apply lines_of_ok| |].
    + intros x. by eapply locked_insert.
  - rewrite abs_put, map_insert. replace (aline_of c (set_dirty (w || dirty l) l)) with (mkA (block c a) true (w || dirty l)); [done|].
    unfold aline_of; simpl. congruence.
Qed.

(** A set after its victim left. *)
Lemma evicted_ok next c a k v :
  cache_ok next c → lines_of c a !! k = Some v → lock v = false →
  let c' := put_lines a (delete k (lines_of c a)) (count_eviction c) in
  cache_ok next c' ∧ same_config c c' ∧ lines_of c' a = delete k (lines_of c a) ∧
  abs c' ≡ a_put (get_index c a) (delete k (map (aline_of c) (lines_of c a))) (abs c).
Proof.
  intros Hc Hk Hv c'. pose proof (lines_of_ok _ _ a Hc) as Hset. split_and!.
  - eapply cache_ok_put; [by apply cache_ok_castats|done| |].
    + eapply set_ok_same; [apply same_config_castats|]. by eapply set_ok_delete.
    + intros x. by eapply locked_delete.
  - etrans; [apply same_config_castats|apply same_config_lines].
  - unfold lines_of at 1, c'; simpl. change (get_index _ a) with (get_index c a). by rewrite lookup_insert_eq.
  - unfold c'. rewrite abs_put. by rewrite map_delete.
Qed.

(** The end of a miss, for a set with room or an unlocked line. *)
Lemma send_new_ok lat sl w i req c s :
  store s !! i = Some c → cache_ok (next_lid s) c → single_level lat c → type req = READ →
  find_line c (addr req) (lines_of c (addr req)) = None →
  Z.of_nat (length (mshr_entries c)) < mshr_entry_num c → all_sets_locked c (lines_of c (addr req)) = false →
  ∃ s' c' wb, send_new sl i w lat req s = Some (true, s') ∧ sclk s' = sclk s ∧ (next_lid s ≤ next_lid s')%nat ∧
    (first_level s' = first_level s ∧ last_level s' = last_level s) ∧
    store s' = <[i := c']> (store s) ∧ cache_ok (next_lid s') c' ∧ same_config c c' ∧
    let r := a_send (assoc c) (mshr_entry_num c) (block_num c) (block c (addr req)) w (abs c) in
    fst r = Missed wb ∧ abs c' ≡ snd r ∧ send_effect lat c req (Missed wb) true s s'.
Proof.
  intros Hi Hc Hsl Hty Hf Hroom Hfree. set (a := addr req) in *.
  pose proof (lines_of_ok _ _ a Hc) as Hset.
  assert (block c a ∉ a_out (abs c)) as Hout.
  { intros Hin%(outstanding_locked _ _ _ Hc). destruct Hin as (?&?&?&_). congruence. }
  assert (∀ x, x ∈ lines_of c a → block c (laddr x) ≠ block c a) as Hnew.
  { pose proof (find_line_abs c _ a _ (co_geom _ _ Hc) Hset) as E. rewrite Hf in E. apply list_find_None in E.
    rewrite Forall_forall in E. intros x Hx. apply (E (aline_of c x)). apply list_elem_of_fmap. by exists x. }
  assert (set_type READ req = req) as Hreq by (unfold set_type; rewrite <-Hty; by destruct req).
  unfold send_new, allocate_line. fold a. rewrite Hi; simpl. unfold need_eviction. rewrite Hf; simpl.
  unfold a_send. rewrite abs_lines by apply Hc. rewrite (find_line_abs c _ a _ (co_geom _ _ Hc) Hset), Hf; simpl.
  rewrite length_map, (proj2 (Z.eqb_neq _ _)) by lia. rewrite length_map.
  unfold all_sets_locked in Hfree.
  destruct (Z.ltb_spec (Z.of_nat (length (lines_of c a))) (assoc c)) as [Hlen|Hlen]; simpl.
  - rewrite list_lookup_insert_eq by (by eapply lookup_lt_Some). simpl.
    destruct (append_ok _ c a (lines_of c a) w Hc Hset Hlen Hnew) as (Hu&Hc'&Habs); try done.
    rewrite Hu; simpl. rewrite (sl_last _ _ Hsl); simpl. eexists _, _, None. split; [done|]. simpl.
    split_and!; try done; [lia|by rewrite list_insert_insert_eq|..].
    + etrans; [apply same_config_lines|apply same_config_mshr].
    + rewrite Habs, get_index_block by apply Hc. by split.
    + exists 0. by rewrite Hreq.
  - rewrite find_victim_ok by apply Hsl. rewrite all_locked_find in Hfree. apply bool_decide_eq_false in Hfree.
    rewrite list_find_lock. destruct (list_find (λ l, lock l = false) (lines_of c a)) as [[k v]|] eqn:Hv; [|done].
    apply list_find_Some in Hv as (Hk&Hlock&_). simpl.
    rewrite (evict_ok (next_lid s) lat _ _ c _ k v) by done. simpl.
    rewrite list_lookup_insert_eq by (by eapply lookup_lt_Some). simpl.
    destruct (evicted_ok _ c a k v Hc Hk Hlock) as (Hc2&Hsame&Hl2&Habs2).
    destruct (set_ok_delete _ _ _ _ _ _ Hset Hk) as (Hset2&Hlen2&_).
    set (c2 := put_lines a (delete k (lines_of c a)) (count_eviction c)) in *.
    change (count_eviction c) with (set_castats (castats (count_eviction c)) c) in *.
    destruct (append_ok _ c2 a (delete k (lines_of c a)) w Hc2) as (Hu&Hc'&Habs).
    { by eapply set_ok_same. }
    { exact Hlen2. }
    { intros x Hx. apply Hnew. eapply elem_of_sublist; [done|apply sublist_delete]. }
    { by rewrite Hl2. }
    { exact Hout. }
    { exact Hroom. }
    rewrite Hl2, list_lookup_insert_eq by (rewrite length_insert; by eapply lookup_lt_Some). simpl.
    rewrite Hu; simpl. rewrite (sl_last _ _ Hsl); simpl.
    eexists _, _, (if dirty v then Some (block c (laddr v)) else None). split; [done|]. simpl.
    split_and!; try done; [lia|by rewrite !list_insert_insert_eq|..].
    + etrans; [exact Hsame|]. etrans; [apply same_config_lines|apply same_config_mshr].
    + rewrite Habs. split; [|done]. intros j. unfold a_put; cbn [a_set].
      change (get_index c2 a) with (get_index c a). rewrite (get_index_block c a (co_geom _ _ Hc)).
      case_decide as E; [by rewrite map_delete|]. rewrite (proj1 Habs2 j); simpl.
      by rewrite (get_index_block c a (co_geom _ _ Hc)), decide_False by done.
    + exists (laddr v). unfold writeback. rewrite Hreq, <-app_assoc. by destruct (dirty v).
Qed.

Lemma send_miss_ok lat sl i c req s :
  (i < length (store s))%nat → cache_ok (next_lid s) c → single_level lat c →
  fst (is_hit c (lines_of c (addr req)) (addr req)) = false →
  ∃ ok s', send_miss sl i (bool_decide (type req = WRITE)) lat (set_type READ req) c (lines_of c (addr req)) s = Some (ok, s') ∧
    send_post lat i c req s ok s'.
Proof.
  intros Hi Hc Hsl Hmiss. set (w := bool_decide (type req = WRITE)). set (a := addr req) in *.
  pose proof (find_line_abs c _ a _ (co_geom _ _ Hc) (lines_of_ok _ _ a Hc)) as Ef.
  pose proof (outstanding_locked _ c a Hc) as Hout. pose proof (hit_mshr_abs c a (co_geom _ _ Hc)) as Em.
  unfold send_miss, is_hit in *. change (addr (set_type READ req)) with a.
  destruct (hit_mshr c a) as [[j [x it]]|] eqn:Hm.
  - assert (block c a ∈ a_out (abs c)) as (k&l&Hf&Hlock)%Hout.
    { apply list_find_Some in Em as (Hj&<-&_). by eapply list_elem_of_lookup_2. }
    apply list_find_Some in Em as (_&Hb&_). apply list_find_Some in Hm as (Hj&_&_).
    destruct (merged_ok (next_lid s) (count_mshr_hit c) a (x, it) w k l) as (c'&Hu&Hc'&Hsame&_&Habs); try done.
    { by apply cache_ok_castats. } { by eapply list_elem_of_lookup_2. }
    simpl in Hu. rewrite Hu; simpl. eexists _, _. split; [done|]. split; simpl; try done. exists c'.
    split; [done|]. split; [exact Hc'|]. split; [exact Hsame|]. unfold a_send. fold a w. rewrite abs_lines, Ef, Hf by apply Hc; simpl. rewrite Hlock; simpl.
    rewrite <-(get_index_block c a (co_geom _ _ Hc)). split; [exact Habs|done].
  - assert (find_line c a (lines_of c a) = None) as Hf.
    { destruct (find_line c a (lines_of c a)) as [[k l]|] eqn:Hf; [|done]. exfalso. simpl in Hmiss. apply negb_false_iff in Hmiss.
      assert (block c a ∈ a_out (abs c)) as Hin by (apply Hout; eauto). simpl in Em. apply list_find_None in Em.
      rewrite Forall_forall in Em. by eapply Em. }
    pose proof (eq_refl (a_send (assoc c) (mshr_entry_num c) (block_num c) (block c a) w (abs c))) as Ea.
    unfold a_send in Ea at 2. rewrite abs_lines, Ef, Hf in Ea by apply Hc; simpl in Ea. rewrite !length_map in Ea.
    assert (∀ st, a_send (assoc c) (mshr_entry_num c) (block_num c) (block c a) w (abs c) = (Refused, abs c) →
      send_post lat i c req s false (put_cache i (set_castats st c) s)) as Hrefuse.
    { intros st E. split; simpl; try done. exists (set_castats st c). split_and!; [done|by apply cache_ok_castats|apply same_config_castats|..];
        fold a w; by rewrite E. }
    destruct (Z.eqb_spec (Z.of_nat (length (mshr_entries c))) (mshr_entry_num c)) as [Hfull|Hfull].
    { eexists _, _. split; [done|]. by apply Hrefuse. }
    destruct (all_sets_locked c (lines_of c a)) eqn:Hall.
    + eexists _, _. split; [done|]. apply Hrefuse. rewrite Ea. unfold all_sets_locked in Hall.
      destruct (_ <? _); [done|]. rewrite all_locked_find in Hall. apply bool_decide_eq_true in Hall.
      by rewrite list_find_lock, Hall.
    + pose proof (co_room _ _ Hc).
      destruct (send_new_ok lat sl w i (set_type READ req) c (put_cache i c s)) as (s'&c'&wb&Hs&Hclk&Hnx&Hlv&Hst&Hc'&Hsame&Hr);
        try done; simpl in *; [by apply list_lookup_insert_eq|lia|].
      fold a in Hr. destruct Hr as (Hr1&Hr2&Hr3). eexists _, _. split; [exact Hs|]. split; try done.
      exists c'. rewrite Hst, list_insert_insert_eq.
      split; [done|]. split; [exact Hc'|]. split; [exact Hsame|]. fold a w. cbn zeta. rewrite Hr1. split; [exact Hr2|exact Hr3].
Qed.

(** [send]: the outcome, the new state of the cache and the requests that
    leave it are those of the specification. *)
Lemma csend_ok lat s i c req :
  store s !! i = Some c → cache_ok (next_lid s) c → single_level lat c → type req = READ ∨ type req = WRITE →
  ∃ ok s', csend i req s = Some (ok, s') ∧ send_post lat i c req s ok s'.
Proof.
  intros Hi Hc Hsl Hty. unfold csend. change cache_fuel with (S 3). generalize 3%nat as fuel. intros fuel. cbn [cache_send].
  rewrite Hi; cbn [mbind option_bind]. rewrite (bool_decide_eq_true_2 (type req = WRITE ∨ type req = READ)) by tauto.
  set (w := bool_decide (type req = WRITE)). set (a := addr req).
  change (latency (count_access w c)) with (latency c). change (clevel (count_access w c)) with (clevel c).
  rewrite (sl_lat _ _ Hsl); cbn [mbind option_bind]. unfold get_lines.
  change (lines_of (count_access w c) a) with (lines_of c a).
  destruct (get_lines_ok _ c a (castats (count_access w c)) Hc) as (Hc1&Hsame1&Habs1&Hl1).
  change (put_lines a (lines_of c a) (count_access w c)) with (set_castats (castats (count_access w c)) (put_lines a (lines_of c a) c)).
  set (c1 := set_castats _ _) in *. rewrite <-Hl1.
  destruct (is_hit c1 (lines_of c1 a) a) as [hit pos] eqn:Hhit.
  assert (hit = true → ∃ k l, pos = Some (k, l) ∧ find_line c1 a (lines_of c1 a) = Some (k, l) ∧ lock l = false) as Hpos.
  { unfold is_hit in Hhit. intros ->. destruct (find_line c1 a (lines_of c1 a)) as [[k l]|]; [|by injection Hhit].
    injection Hhit as Hlk <-. apply negb_true_iff in Hlk. by exists k, l. }
  destruct hit.
  - destruct (Hpos eq_refl) as (k&l&->&Hf&Hlk). eexists _, _. split; [done|].
    eapply send_post_same; [exact Hsame1|exact Habs1|]. by apply send_hit_ok.
  - assert (Hc2 : cache_ok (next_lid s) (count_miss w c1)) by (by apply cache_ok_castats).
    destruct (send_miss_ok lat (cache_send fuel) i (count_miss w c1) req s) as (ok&s'&Hs&Hp).
    { by eapply lookup_lt_Some. } { done. }
    { eapply single_level_same; [|exact Hsl]. etrans; [exact Hsame1|apply same_config_castats]. }
    { change (fst (is_hit c1 (lines_of c1 a) a) = false). by rewrite Hhit. }
    eexists _, _. split; [exact Hs|]. eapply send_post_same; [exact Hsame1|exact Habs1|].
    eapply send_post_same; [apply same_config_castats| |exact Hp]. done.
Qed.

(** ** [callback] implements the specification *)

Definition called_back (a : Z) (c c' : Cache) : Prop :=
  same_config c c' ∧ abs c' ≡ a_callback (block_num c) (block c a) (abs c).

Lemma unlock_ok next c a k x it :
  cache_ok next c → hit_mshr c a = Some (k, (x, it)) →
  ∃ c1, upd_line it (set_lock false) c = Some c1 ∧
    let c' := set_mshr (delete k (mshr_entries c1)) c1 in cache_ok next c' ∧ called_back a c c'.
Proof.
  intros Hc Hm. pose proof (hit_mshr_abs c a (co_geom _ _ Hc)) as Em. rewrite Hm in Em; simpl in Em.
  apply list_find_Some in Hm as (Hj&_&_). pose proof (proj1 (list_find_Some _ _ _ _) Em) as (_&Hb&_).
  destruct (upd_line_entry next c (x, it) Hc) as (ls&k'&l&Hls&Hk&Hlock&Hbl&Hu); [by eapply list_elem_of_lookup_2|].
  simpl in *. eexists. split; [apply Hu|]. split.
  - by apply (cache_ok_unlock next c k (x, it) ls k' l).
  - split; [etrans; [apply same_config_lines|apply same_config_mshr]|].
    unfold a_callback. change (a_out (abs c)) with (map (λ e, block c (fst e)) (mshr_entries c)). rewrite Em.
    split; [|simpl; by rewrite map_delete].
    intros i. simpl. rewrite <-Hb. rewrite <-(get_index_block c x (co_geom _ _ Hc)).
    case_decide as E; [rewrite E, lookup_insert_eq|by rewrite lookup_insert_ne]. simpl. rewrite Hls. simpl.
    rewrite <-Hbl. exact (eq_sym (map_unlock next c _ ls k' l (co_sets _ _ Hc _ _ Hls) Hk)).
Qed.

(** [callback] on a cache without higher caches. *)
Lemma callback_ok fuel s i c req :
  store s !! i = Some c → cache_ok (next_lid s) c → higher_cache c = [] →
  ∃ c', callback (S fuel) i req s = Some (put_cache i c' s) ∧ cache_ok (next_lid s) c' ∧ called_back (addr req) c c'.
Proof.
  intros Hi Hc Hh. cbn [callback]. rewrite Hi; cbn [mbind option_bind]. rewrite Hh.
  destruct (hit_mshr c (addr req)) as [[k [x it]]|] eqn:Hm.
  - destruct (unlock_ok _ _ _ _ _ _ Hc Hm) as (c1&Hu&Hc'&Hcb). rewrite Hu; simpl. by eexists.
  - exists c. simpl. unfold put_cache. rewrite list_insert_id by done. split; [by destruct s|]. split; [done|].
    split; [reflexivity|]. unfold a_callback. pose proof (hit_mshr_abs c (addr req) (co_geom _ _ Hc)) as Em.
    rewrite Hm in Em. by rewrite Em.
Qed.

(** [callback] on a cache that has no miss outstanding goes on to the higher ones. *)
Lemma callback_higher fuel s i c req :
  store s !! i = Some c → mshr_entries c = [] →
  callback (S fuel) i req s = foldM (λ s hc, callback fuel hc req s) s (higher_cache c).
Proof. intros Hi Hm. cbn [callback]. rewrite Hi; cbn [mbind option_bind]. unfold hit_mshr. by rewrite Hm. Qed.
