(* ===== verification/Trace.v ===== *)
(** * Trace files ([class Trace] of [ramulator/src/Processor.h], [Processor.cpp])

    The four readers of [Trace], over a model of the standard library they use:
    [std::getline] on an input stream, [std::stoul] and [std::stoi] (an
    exception is [None]), [find_first_not_of], [substr] and [operator>>] into a
    string.  A text is a list of characters. *)

From Stdlib Require Import Ascii.
From S2P Require Import Prelude Request.

Open Scope char_scope.
Open Scope Z_scope.

Abbreviation text := (list ascii).

(** ** The standard library *)

Definition newline : ascii := "010".
Definition blank : ascii := " ".
Definition is_space (c : ascii) : bool :=
  let n := Z.of_N (N_of_ascii c) in (n =? 32) || ((9 <=? n) && (n <=? 13)).

(** *** Input streams *)
Record stream := mkStream {
  contents : text;   (* the whole file *)
  rest : text;       (* what is still to be read *)
  eofbit : bool;
  failbit : bool
}.
Definition open_stream (t : text) : stream := mkStream t t false false.

(** The text up to the first newline, and what follows it when there is one. *)
Fixpoint split_line (l : text) : text * option text :=
  match l with
  | [] => ([], None)
  | c :: l => if Ascii.eqb c newline then ([], Some l) else let '(x, r) := split_line l in (c :: x, r)
  end.

(** [getline(file, line)], where [line] holds [prev]: on a stream that is not
    good the text is left alone. *)
Definition getline_into (prev : text) (f : stream) : text * stream :=
  if eofbit f || failbit f then (prev, mkStream (contents f) (rest f) (eofbit f) true) else
  match split_line (rest f) with
  | (x, Some r) => (x, mkStream (contents f) r false false)
  | (x, None) => (x, mkStream (contents f) [] true (bool_decide (x = [])))
  end.
Definition getline (f : stream) : text * stream := getline_into [] f.

(** [file.clear(); file.seekg(0, file.beg)] *)
Definition rewind (f : stream) : stream := open_stream (contents f).

(** *** Numbers *)
Definition digit_val (c : ascii) : Z :=
  let n := Z.of_N (N_of_ascii c) in
  if (48 <=? n) && (n <=? 57) then n - 48
  else if (97 <=? n) && (n <=? 122) then n - 87
  else if (65 <=? n) && (n <=? 90) then n - 55
  else 99.
Definition is_digit (base : Z) (c : ascii) : bool := digit_val c <? base.

(** The value of the longest prefix of digits, and its length. *)
Fixpoint read_digits (base acc : Z) (n : nat) (l : text) : Z * nat :=
  match l with
  | [] => (acc, n)
  | c :: l => if is_digit base c then read_digits base (acc * base + digit_val c) (S n) l else (acc, n)
  end.

Fixpoint skip_spaces (l : text) : nat * text :=
  match l with
  | c :: l' => if is_space c then let '(n, r) := skip_spaces l' in (S n, r) else (0%nat, l)
  | [] => (0%nat, [])
  end.

Definition read_sign (l : text) : bool * nat * text :=
  match l with
  | "-" :: l => (true, 1%nat, l)
  | "+" :: l => (false, 1%nat, l)
  | _ => (false, 0%nat, l)
  end.

(** The prefix of the base: [0x] when a digit follows, [0] for octal when the
    base is to be found. *)
Definition read_base (base : Z) (l : text) : Z * nat * text :=
  let dflt := if base =? 0 then 10 else base in
  match l with
  | "0" :: (x :: c :: l') =>
    if ((base =? 0) || (base =? 16)) && (Ascii.eqb x "x" || Ascii.eqb x "X") && is_digit 16 c then (16, 2%nat, c :: l')
    else (if base =? 0 then 8 else base, 0%nat, l)
  | "0" :: _ => (if base =? 0 then 8 else base, 0%nat, l)
  | _ => (dflt, 0%nat, l)
  end.

(** The sign, the magnitude and the number of characters used, of [strtoul] and
    [strtol]; [None] when there is no number. *)
Definition parse_number (base : Z) (l : text) : option (bool * Z * nat) :=
  let '(n1, l) := skip_spaces l in
  let '(neg, n2, l) := read_sign l in
  let '(b, n3, l) := read_base base l in
  let '(m, n4) := read_digits b 0 0 l in
  if (n4 =? 0)%nat then None else Some (neg, m, (n1 + n2 + n3 + n4)%nat).

(** [std::stoul(l, &pos, base)] *)
Definition stoul (base : Z) (l : text) : option (Z * nat) :=
  '(neg, m, n) ← parse_number base l;
  if 2 ^ 64 <=? m then None else Some (if (neg : bool) then (2 ^ 64 - m) mod 2 ^ 64 else m, n).

(** [std::stoi(l, nullptr, base)] *)
Definition stoi (base : Z) (l : text) : option Z :=
  '(neg, m, _) ← parse_number base l;
  let x := if (neg : bool) then - m else m in
  if (- 2 ^ 31 <=? x) && (x <? 2 ^ 31) then Some x else None.

(** Conversions to [long], [int] and [unsigned]. *)
Definition as_long (x : Z) : Z := (x + 2 ^ 63) mod 2 ^ 64 - 2 ^ 63.
Definition as_int (x : Z) : Z := (x + 2 ^ 31) mod 2 ^ 32 - 2 ^ 31.
Definition as_unsigned (x : Z) : Z := x mod 2 ^ 32.

(** *** Strings *)

(** [line.find_first_not_of(' ', pos)] *)
Fixpoint skip_blanks (n : nat) (l : text) : option nat :=
  match l with
  | [] => None
  | c :: l => if Ascii.eqb c blank then skip_blanks (S n) l else Some n
  end.
Definition find_first_not_of_blank (l : text) (pos : nat) : option nat := skip_blanks pos (drop pos l).

(** [line.substr(pos)] *)
Definition substr (l : text) (pos : nat) : option text := if (pos <=? length l)%nat then Some (drop pos l) else None.

(** [split_str]: the words of a line. *)
Fixpoint words (word : text) (l : text) : list text :=
  match l with
  | [] => match word with [] => [] | _ => [reverse word] end
  | c :: l =>
    if is_space c then match word with [] => words [] l | _ => reverse word :: words [] l end
    else words (c :: word) l
  end.
Definition split_str (l : text) : list text := words [] l.

(** ** [class Trace] *)

Record Trace := mkTrace {
  file : stream;
  instructions : list Z;
  trace_limit_insts : Z;
  trace_pim_mode : bool
}.
Definition set_file (x : stream) (t : Trace) : Trace := mkTrace x (instructions t) (trace_limit_insts t) (trace_pim_mode t).
Definition set_instructions (x : list Z) (t : Trace) : Trace := mkTrace (file t) x (trace_limit_insts t) (trace_pim_mode t).

(** [init_trace(trace_fname)] for a file that exists, with its text. *)
Definition MAX_NUMBER_CORES : nat := 256.
Definition init_trace (txt : text) (pim : bool) : Trace :=
  mkTrace (open_stream txt) (replicate MAX_NUMBER_CORES 0) 0 pim.

(** What a reader leaves in its reference arguments; a reader that returns
    [false] leaves them alone. *)
Record trace_rec := mkRec { tr_bubbles : Z; tr_addr : Z; tr_type : ReqType }.

(** The type letter of the [filtered] and DRAM formats at a position. *)
Definition read_type (l : text) (pos : option nat) : option ReqType :=
  match pos with
  | None => Some READ
  | Some p =>
    c ← l !! p;
    if Ascii.eqb c "R" then Some READ else if Ascii.eqb c "W" then Some WRITE else None
  end.

(** One line of format 1: bubbles, an address and a type. *)
Definition parse_unfiltered (l : text) : option trace_rec :=
  '(bubbles, pos) ← stoul 10 l;
  pos ← find_first_not_of_blank l (pos + 1);
  sub ← substr l pos;
  '(a, fin) ← stoul 0 sub;
  ty ← read_type l (find_first_not_of_blank l (pos + fin));
  Some (mkRec (as_long bubbles) (as_long a) ty).

(** [get_unfiltered_request] *)
Definition get_unfiltered_request (t : Trace) : option (option trace_rec * Trace) :=
  let '(l, f) := getline (file t) in
  let t := set_file f t in
  if eofbit f then Some (None, if trace_pim_mode t then t else set_file (rewind f) t)
  else r ← parse_unfiltered l; Some (Some r, t).

(** [get_filtered_request]: the function's static variables, shared by all
    traces, and one line: bubbles, a read address and perhaps a write address. *)
Record filtered_statics := mkStatics { has_write : bool; write_addr : Z }.

Definition parse_filtered (l : text) : option (trace_rec * filtered_statics) :=
  '(bubbles, pos) ← stoul 10 l;
  pos ← find_first_not_of_blank l (pos + 1);
  sub ← substr l pos;
  '(a, fin) ← stoul 0 sub;
  let r := mkRec (as_long bubbles) (as_long a) READ in
  match find_first_not_of_blank l (pos + fin) with
  | None => Some (r, mkStatics false 0)
  | Some pos =>
    sub ← substr l pos;
    '(wa, _) ← stoul 0 sub;
    Some (r, mkStatics true (as_long wa))
  end.

Definition get_filtered_request (st : filtered_statics) (t : Trace) : option (option trace_rec * filtered_statics * Trace) :=
  if has_write st then Some (Some (mkRec 0 (write_addr st) WRITE), mkStatics false (write_addr st), t) else
  let '(l, f) := getline (file t) in
  if eofbit f || (length l =? 0)%nat then
    let f := if trace_pim_mode t then f else rewind f in
    if trace_limit_insts t =? 0 then Some (None, mkStatics false (write_addr st), set_file f t)
    else
      let '(l, f) := getline_into l f in
      '(r, st') ← parse_filtered l;
      Some (Some r, if has_write st' then st' else mkStatics false (write_addr st), set_file f t)
  else
    '(r, st') ← parse_filtered l;
    Some (Some r, if has_write st' then st' else mkStatics false (write_addr st), set_file f t).

(** [get_dramtrace_request]: an address in hexadecimal and a type. *)
Definition parse_dramtrace (l : text) : option (Z * ReqType) :=
  '(a, pos) ← stoul 16 l;
  ty ← read_type l (find_first_not_of_blank l (pos + 1));
  Some (as_long a, ty).

Definition get_dramtrace_request (t : Trace) : option (option (Z * ReqType) * Trace) :=
  let '(l, f) := getline (file t) in
  let t := set_file f t in
  if eofbit f then Some (None, t) else r ← parse_dramtrace l; Some (Some r, t).

(** [get_pisa_request]: thread, processor, cycle, type, address and size; the
    bubbles are the cycles since the processor's last line. *)
Definition get_pisa_request (t : Trace) : option (option (trace_rec * Z) * Trace) :=
  let '(l, f) := getline (file t) in
  let t := set_file f t in
  if failbit f || (length l =? 0)%nat then Some (None, t) else
  let split := split_str l in
  thread ← split !! 0%nat ≫= stoi 10;
  processor ← split !! 1%nat ≫= stoi 10;
  cycle ← split !! 2%nat ≫= stoi 10;
  past ← zlookup (instructions t) (as_unsigned processor);
  let nInstructions := as_int (as_unsigned (as_unsigned cycle - as_unsigned past)) in
  let t := set_instructions (<[Z.to_nat (as_unsigned processor) := cycle]> (instructions t)) t in
  ty ← split !! 3%nat;
  a ← split !! 4%nat ≫= stoul 16;
  size ← split !! 5%nat ≫= stoi 10;
  Some (Some (mkRec (as_unsigned nInstructions) (as_long (fst a)) (if bool_decide (ty = ["L"]) then READ else WRITE),
              as_unsigned size), t).

(** [get_zsim_request]: the arguments passed by reference are [r] and
    [cpu_id].  A line that is not understood sets the address to -1, and
    leaves the others as they were. *)
Definition is_type_word (x : text) : bool :=
  bool_decide (x = ["L"]) || bool_decide (x = ["S"]) || bool_decide (x = ["P"]) || bool_decide (x = ["I"]).

Definition type_position (split : list text) : nat :=
  match list_find (λ x, is_type_word x = true) split with Some (k, _) => k | None => 0%nat end.

Definition set_bad_addr (r : trace_rec) : trace_rec := mkRec (tr_bubbles r) (-1) (tr_type r).

(** The body of the [try]; [None] is an exception. *)
Definition parse_zsim (split : list text) (r : trace_rec) (cpu_id : Z) : option (trace_rec * Z) :=
  let p := type_position split in
  if (3 <=? p)%nat && (p + 1 <? length split)%nat then
    thread ← split !! (p - 3)%nat ≫= stoi 10;
    processor ← split !! (p - 2)%nat ≫= stoi 10;
    if 512 <? as_unsigned processor then Some (set_bad_addr r, cpu_id) else
    w ← split !! (p - 1)%nat;
    cycle ← (if bool_decide (w = ["-"]) then Some 0 else stoi 10 w);
    ty ← split !! p;
    a ← split !! (p + 1)%nat ≫= stoul 10;
    Some (mkRec (as_unsigned cycle) (as_long (fst a))
            (if bool_decide (ty = ["L"]) then READ else if bool_decide (ty = ["S"]) then WRITE
             else if bool_decide (ty = ["I"]) then INSTRUCTION else tr_type r),
          as_unsigned processor)
  else Some (set_bad_addr r, cpu_id).

Definition get_zsim_request (r : trace_rec) (cpu_id : Z) (t : Trace) : bool * trace_rec * Z * Trace :=
  let '(l, f) := getline (file t) in
  let t := set_file f t in
  if failbit f || (length l =? 0)%nat then (false, r, cpu_id, t) else
  let split := split_str l in
  if (length split <? 5)%nat then (true, set_bad_addr r, cpu_id, t) else
  match parse_zsim split r cpu_id with
  | Some (r, cpu_id) => (true, r, cpu_id, t)
  | None => (true, set_bad_addr r, cpu_id, t)
  end.

(** The loop [while (more_reqs) { ...; more_reqs = trace.get_unfiltered_request(...); }] of
    the processor's constructor: the records it distributes to the cores, or an
    exception of the reader; [OutOfFuel] when the loop is still running. *)
Inductive loop_result :=
  | OutOfFuel
  | Raised
  | Finished (rs : list trace_rec) (t : Trace).

Fixpoint read_trace (fuel : nat) (t : Trace) : loop_result :=
  match fuel with
  | O => OutOfFuel
  | S fuel =>
    match get_unfiltered_request t with
    | None => Raised
    | Some (None, t) => Finished [] t
    | Some (Some r, t) => match read_trace fuel t with Finished rs t => Finished (r :: rs) t | x => x end
    end
  end.
