(* ===== verification/TraceTheorems.v ===== *)
(** * Theorems on trace files

    The constructor's loop over a trace of format 1 ends on every file: with the
    records of its finished lines, or with an exception.  A trace written one
    record on a line is read back record by record. *)

From Stdlib Require Import Ascii.
From S2P Require Import Prelude Request Trace.

Open Scope Z_scope.

(** ** Writing a trace *)

Definition digit (d : Z) : ascii := ascii_of_N (Z.to_N (48 + d)).
Fixpoint dec_aux (fuel : nat) (n : Z) (l : text) : text :=
  match fuel with
  | O => l
  | S fuel => let l := digit (n mod 10) :: l in if n <? 10 then l else dec_aux fuel (n / 10) l
  end.
Definition dec (n : Z) (l : text) : text := dec_aux 20 n l.

Definition type_letter (t : ReqType) : ascii := match t with WRITE => "W"%char | _ => "R"%char end.

(** A line, without and with its end. *)
Definition print_line (r : trace_rec) : text :=
  dec (tr_bubbles r) (blank :: dec (tr_addr r) [blank; type_letter (tr_type r)]).
Definition print_trace (rs : list trace_rec) : text := concat (map (λ r, print_line r ++ [newline]) rs).

Record printable (r : trace_rec) : Prop := {
  pr_bubbles : 0 ≤ tr_bubbles r < 2 ^ 63;
  pr_addr : 0 ≤ tr_addr r < 2 ^ 63;
  pr_type : tr_type r = READ ∨ tr_type r = WRITE
}.

(** ** Digits *)

Lemma digit_cases (P : Z → Prop) d :
  0 ≤ d < 10 → P 0 → P 1 → P 2 → P 3 → P 4 → P 5 → P 6 → P 7 → P 8 → P 9 → P d.
Proof.
  intros Hd. intros. assert (d = 0 ∨ d = 1 ∨ d = 2 ∨ d = 3 ∨ d = 4 ∨ d = 5 ∨ d = 6 ∨ d = 7 ∨ d = 8 ∨ d = 9) as Hc by lia.
  by destruct Hc as [->|[->|[->|[->|[->|[->|[->|[->|[->| ->]]]]]]]]].
Qed.

Lemma digit_ok d : 0 ≤ d < 10 →
  digit_val (digit d) = d ∧ is_space (digit d) = false ∧ Ascii.eqb (digit d) newline = false ∧
  Ascii.eqb (digit d) blank = false ∧ read_sign [digit d] = (false, 0%nat, [digit d]).
Proof. intros Hd. pattern d. apply digit_cases; [done|..]; vm_compute; split_and!; reflexivity. Qed.

(** A number is a non-empty list of digits. *)
Lemma dec_aux_digits fuel n l :
  0 ≤ n < 10 ^ Z.of_nat fuel → (0 < fuel)%nat →
  ∃ ds, dec_aux fuel n l = ds ++ l ∧ ds ≠ [] ∧ Forall (λ c, ∃ d, c = digit d ∧ 0 ≤ d < 10) ds ∧
    (∀ acc k, read_digits 10 acc k (ds ++ l) = read_digits 10 (acc * 10 ^ Z.of_nat (length ds) + n) (k + length ds) l) ∧
    (n ≠ 0 → ∃ d ds', ds = digit d :: ds' ∧ 0 < d < 10).
Proof.
  revert n l. induction fuel as [|fuel IH]; intros n l Hn Hf; [lia|]. simpl.
  pose proof (Z.mod_pos_bound n 10 ltac:(lia)) as Hm.
  assert (∀ acc k r, read_digits 10 acc k (digit (n mod 10) :: r) = read_digits 10 (acc * 10 + n mod 10) (S k) r) as Hd.
  { intros acc k r. simpl. destruct (digit_ok (n mod 10) Hm) as (Hv&_). unfold is_digit. rewrite Hv, (proj2 (Z.ltb_lt _ _)); [done|lia]. }
  destruct (Z.ltb_spec n 10).
  - exists [digit (n mod 10)]. split_and!; [done|done|constructor; [by exists (n mod 10)|done]| |].
    + intros acc k. simpl app. rewrite Hd. rewrite Z.mod_small by lia. simpl length. f_equal; lia.
    + intros Hz. exists (n mod 10), []. rewrite Z.mod_small by lia. split; [done|lia].
  - rewrite Nat2Z.inj_succ, Z.pow_succ_r in Hn by lia.
    assert (0 < fuel)%nat by (destruct fuel; [simpl in Hn; lia|lia]).
    destruct (IH (n / 10) (digit (n mod 10) :: l)) as (ds&Hds&Hne&Hall&Hr&Hnz); [|done|].
    { split; [apply Z.div_pos; lia|]. apply Z.div_lt_upper_bound; lia. }
    exists (ds ++ [digit (n mod 10)]). rewrite <-app_assoc. split_and!; [done| | | |].
    + by destruct ds.
    + apply Forall_app. split; [done|]. constructor; [by exists (n mod 10)|done].
    + intros acc k. rewrite Hr. rewrite Hd, length_app; simpl length. f_equal; [|lia].
      rewrite Nat2Z.inj_add, Z.pow_add_r by lia. change (10 ^ Z.of_nat 1) with 10.
      pose proof (Z.div_mod n 10). lia.
    + intros _. destruct Hnz as (d&ds'&->&Hd0); [|by exists d, (ds' ++ [digit (n mod 10)])].
      assert (0 < n / 10); [|lia]. apply Z.div_str_pos. lia.
Qed.

Lemma dec_digits n l :
  0 ≤ n < 2 ^ 64 →
  ∃ ds, dec n l = ds ++ l ∧ ds ≠ [] ∧ Forall (λ c, ∃ d, c = digit d ∧ 0 ≤ d < 10) ds ∧
    (∀ acc k, read_digits 10 acc k (ds ++ l) = read_digits 10 (acc * 10 ^ Z.of_nat (length ds) + n) (k + length ds) l) ∧
    (n ≠ 0 → ∃ d ds', ds = digit d :: ds' ∧ 0 < d < 10).
Proof. intros Hn. apply dec_aux_digits; [|lia]. split; [lia|]. etrans; [apply Hn|]. by vm_compute. Qed.

Lemma read_digits_stop base acc k l : read_digits base acc k (blank :: l) = (acc, k) ∨ 99 < base.
Proof. destruct (Z.lt_ge_cases 99 base); [by right|left]. simpl. unfold is_digit. change (digit_val blank) with 99. case_match; [lia|done]. Qed.

Lemma digits_start ds l :
  ds ≠ [] → Forall (λ c, ∃ d, c = digit d ∧ 0 ≤ d < 10) ds →
  skip_spaces (ds ++ l) = (0%nat, ds ++ l) ∧ read_sign (ds ++ l) = (false, 0%nat, ds ++ l) ∧
  read_base 10 (ds ++ l) = (10, 0%nat, ds ++ l).
Proof.
  intros Hne Hall. destruct ds as [|c ds]; [done|]. apply Forall_cons in Hall as [(d&->&Hd) _].
  destruct (digit_ok d Hd) as (_&Hs&_&_&_). simpl app. split_and!; [simpl; by rewrite Hs| |].
  - clear Hs Hne. pattern d. apply digit_cases; [done|..]; reflexivity.
  - clear Hs Hne. pattern d. apply digit_cases; [done|..]; try reflexivity. by destruct (ds ++ l) as [|x [|c r]].
Qed.

(** A number followed by a blank is read, in base 10 or with the base to be found. *)
Lemma stoul_dec base n l :
  base = 10 ∨ base = 0 → 0 ≤ n < 2 ^ 63 →
  ∃ k, stoul base (dec n (blank :: l)) = Some (n, k) ∧ drop k (dec n (blank :: l)) = blank :: l ∧
       (k ≤ length (dec n (blank :: l)))%nat.
Proof.
  intros Hbase Hn. destruct (dec_digits n (blank :: l)) as (ds&E&Hne&Hall&Hr&Hnz); [lia|].
  destruct (digits_start ds (blank :: l) Hne Hall) as (Hs&Hsg&Hb). exists (length ds). rewrite E.
  split_and!; [|by rewrite drop_app_length|rewrite length_app; lia].
  assert (∀ b, read_digits b 0 0 (ds ++ blank :: l) = (n, length ds) → read_base base (ds ++ blank :: l) = (b, 0%nat, ds ++ blank :: l) →
    stoul base (ds ++ blank :: l) = Some (n, length ds)) as Hgo.
  { intros b Hd Hb'. unfold stoul, parse_number. rewrite Hs, Hsg, Hb', Hd. simpl.
    destruct ds; [done|]. simpl. rewrite (proj2 (Z.leb_gt _ _)) by lia. done. }
  assert (read_digits 10 0 0 (ds ++ blank :: l) = (n, length ds)) as H10.
  { rewrite Hr. destruct (read_digits_stop 10 (0 * 10 ^ Z.of_nat (length ds) + n) (0 + length ds) l) as [->|]; [|lia]. f_equal. }
  destruct Hbase as [->| ->]; [by eapply Hgo|].
  destruct (decide (n = 0)) as [->|Hn0].
  - assert (ds = ["0"%char]) as ->.
    { change (dec 0 (blank :: l)) with (["0"%char] ++ blank :: l) in E. by apply app_inv_tail in E. }
    apply (Hgo 8); [done|]. by destruct l.
  - destruct (Hnz Hn0) as (d&ds'&->&Hd). apply (Hgo 10); [done|]. clear -Hd.
    assert (0 ≤ d < 10) as Hd' by lia. revert Hd. pattern d. apply digit_cases; [done|..]; intros; try done. lia.
Qed.

Lemma as_long_id x : - 2 ^ 63 ≤ x < 2 ^ 63 → as_long x = x.
Proof. intros Hx. unfold as_long. rewrite Z.mod_small; lia. Qed.

(** [find_first_not_of(' ', pos)] in front of a number. *)
Lemma skip_blanks_digits k ds l :
  ds ≠ [] → Forall (λ c, ∃ d, c = digit d ∧ 0 ≤ d < 10) ds → skip_blanks k (ds ++ l) = Some k.
Proof.
  intros Hne Hall. destruct ds as [|c ds]; [done|]. apply Forall_cons in Hall as [(d&->&Hd) _].
  destruct (digit_ok d Hd) as (_&_&_&Hb&_). simpl. by rewrite Hb.
Qed.

(** A printed line is parsed back. *)
Lemma parse_print r : printable r → parse_unfiltered (print_line r) = Some r.
Proof.
  intros [Hb Ha Ht]. destruct r as [b a t]; simpl in *. unfold parse_unfiltered, print_line; simpl.
  set (tail := [blank; type_letter t]).
  destruct (stoul_dec 10 b (dec a tail)) as (k1&H1&Hd1&Hl1); [by left|done|]. rewrite H1; simpl.
  destruct (dec_digits a tail) as (ds&E&Hne&Hall&_); [lia|].
  assert (find_first_not_of_blank (dec b (blank :: dec a tail)) (k1 + 1) = Some (k1 + 1)%nat) as Hf1.
  { unfold find_first_not_of_blank. rewrite <-drop_drop, Hd1. simpl. rewrite E. by apply skip_blanks_digits. }
  rewrite Hf1; simpl.
  assert (substr (dec b (blank :: dec a tail)) (k1 + 1) = Some (dec a tail)) as Hsub.
  { unfold substr. assert (length (drop k1 (dec b (blank :: dec a tail))) = S (length (dec a tail))) as Hlen by by rewrite Hd1.
    rewrite length_drop in Hlen. rewrite (proj2 (Nat.leb_le _ _)) by lia. by rewrite <-drop_drop, Hd1. }
  rewrite Hsub; simpl. destruct (stoul_dec 0 a [type_letter t]) as (k2&H2&Hd2&Hl2); [by right|done|].
  fold tail in H2, Hd2, Hl2. rewrite H2; simpl.
  assert (drop (k1 + 1 + k2) (dec b (blank :: dec a tail)) = tail) as Hd3.
  { rewrite <-drop_drop, <-drop_drop, Hd1. simpl. exact Hd2. }
  assert (find_first_not_of_blank (dec b (blank :: dec a tail)) (k1 + 1 + k2) = Some (S (k1 + 1 + k2))) as Hf2.
  { unfold find_first_not_of_blank. rewrite Hd3. unfold tail. by destruct Ht as [->| ->]. }
  rewrite Hf2. simpl read_type. 
  assert (dec b (blank :: dec a tail) !! S (k1 + 1 + k2) = Some (type_letter t)) as Hlk.
  { replace (S (k1 + 1 + k2)) with (k1 + 1 + k2 + 1)%nat by lia. rewrite <-lookup_drop, Hd3. done. }
  unfold read_type. rewrite Hlk. rewrite !as_long_id by lia. by destruct Ht as [->| ->].
Qed.

(** ** Reading a whole file *)

Lemma split_line_app l r : Forall (λ c, Ascii.eqb c newline = false) l → split_line (l ++ newline :: r) = (l, Some r).
Proof. intros Hl. induction Hl as [|c l Hc _ IH]; [done|]. simpl. by rewrite Hc, IH. Qed.

Lemma print_line_newline r : printable r → Forall (λ c, Ascii.eqb c newline = false) (print_line r).
Proof.
  intros [Hb Ha Ht].
  assert (∀ ds, Forall (λ c, ∃ d, c = digit d ∧ 0 ≤ d < 10) ds → Forall (λ c, Ascii.eqb c newline = false) ds) as Hds.
  { intros ds H. eapply Forall_impl; [exact H|]. intros c (d&->&Hd). by destruct (digit_ok d Hd) as (_&_&?&_). }
  unfold print_line. destruct (dec_digits (tr_addr r) [blank; type_letter (tr_type r)]) as (ds&->&_&Hd&_); [lia|].
  destruct (dec_digits (tr_bubbles r) (blank :: ds ++ [blank; type_letter (tr_type r)])) as (ds'&->&_&Hd'&_); [lia|].
  apply Forall_app. split; [by apply Hds|]. constructor; [done|]. apply Forall_app. split; [by apply Hds|].
  repeat constructor. by destruct Ht as [->| ->].
Qed.

(** The lines of a text that are ended by a newline. *)
Fixpoint full_lines (l : text) : list text :=
  match l with
  | [] => []
  | c :: l => if Ascii.eqb c newline then [] :: full_lines l else match full_lines l with [] => [] | x :: xs => (c :: x) :: xs end
  end.

Lemma split_line_full l :
  match split_line l with
  | (x, Some r) => full_lines l = x :: full_lines r ∧ (length r < length l)%nat
  | (_, None) => full_lines l = []
  end.
Proof.
  induction l as [|c l IH]; [done|]. simpl. destruct (Ascii.eqb c newline); [split; [done|lia]|].
  destruct (split_line l) as [x [r|]]; [destruct IH as [-> ?]|by rewrite IH]. split; [done|lia].
Qed.

Lemma full_lines_app l r : Forall (λ c, Ascii.eqb c newline = false) l → full_lines (l ++ newline :: r) = l :: full_lines r.
Proof. intros Hl. induction Hl as [|c l Hc _ IH]; [done|]. simpl. by rewrite Hc, IH. Qed.

(** A printed trace consists of its lines, and they are parsed back. *)
Lemma parse_trace rs : Forall printable rs → mapM parse_unfiltered (full_lines (print_trace rs)) = Some rs.
Proof.
  induction 1 as [|r rs Hr _ IH]; [done|]. unfold print_trace in *. simpl. rewrite <-app_assoc. simpl.
  rewrite full_lines_app by (by apply print_line_newline). cbn [mapM]. rewrite parse_print by done. cbn [mbind option_bind].
  by rewrite IH.
Qed.

(** What the constructor leaves of a trace it has read to the end. *)
Definition after_reading (t t' : Trace) : Prop :=
  if trace_pim_mode t then eofbit (file t') = true ∧ rest (file t') = [] else t' = set_file (rewind (file t)) t.

Lemma get_unfiltered_eof t : eofbit (file t) = true → ∃ t', get_unfiltered_request t = Some (None, t').
Proof. intros He. unfold get_unfiltered_request, getline, getline_into. rewrite He. simpl. eauto. Qed.

Lemma read_trace_lines fuel t :
  eofbit (file t) = false → failbit (file t) = false → (length (rest (file t)) < fuel)%nat →
  match mapM parse_unfiltered (full_lines (rest (file t))) with
  | Some rs => ∃ t', read_trace fuel t = Finished rs t' ∧ after_reading t t'
  | None => read_trace fuel t = Raised
  end.
Proof.
  revert t. induction fuel as [|fuel IH]; intros [[all l e b] ins lim pim]; simpl; intros -> -> Hf; [lia|].
  unfold get_unfiltered_request, getline, getline_into. cbn [file eofbit failbit orb rest].
  pose proof (split_line_full l) as Hl. destruct (split_line l) as [x [r|]]; cbn [contents eofbit].
  - destruct Hl as [-> Hr]. cbn [mapM]. destruct (parse_unfiltered x) as [y|]; cbn [mbind option_bind]; [|done].
    specialize (IH (mkTrace (mkStream all r false false) ins lim pim) eq_refl eq_refl). simpl in IH.
    destruct (mapM parse_unfiltered (full_lines r)) as [rs|]; cbn [mbind option_bind];
      [destruct IH as (t'&E&Ht)|specialize (IH ltac:(lia))]; [lia|exists t'|]; unfold set_file; simpl in *; [by rewrite E|by rewrite IH].
  - rewrite Hl. eexists. split; [done|]. unfold after_reading. by destruct pim.
Qed.

(** C35: the constructor's loop over a trace file of format 1 terminates on
    every file.  Within one more iteration than the file has characters it has
    raised the exception of a line that is no record, when there is one among
    the lines ended by a newline, and otherwise it has finished with the records
    of these lines in order (a last line without a newline is not read),
    leaving the file at its end in PIM mode and rewound to its beginning
    otherwise.  Trace files round-trip: the records read from a file of printed
    records are the printed ones. *)
Theorem trace_roundtrip (rs : list trace_rec) (pim : bool) :
  Forall printable rs →
  (∃ t', read_trace (S (length (print_trace rs))) (init_trace (print_trace rs) pim) = Finished rs t') ∧
  ∀ txt fuel, (length txt < fuel)%nat →
    match mapM parse_unfiltered (full_lines txt) with
    | Some rs => ∃ t', read_trace fuel (init_trace txt pim) = Finished rs t' ∧
        (if pim then ∀ fuel', (0 < fuel')%nat → ∃ t'', read_trace fuel' t' = Finished [] t'' else t' = init_trace txt pim)
    | None => read_trace fuel (init_trace txt pim) = Raised
    end.
Proof.
  intros Hrs. split.
  - pose proof (read_trace_lines (S (length (print_trace rs))) (init_trace (print_trace rs) pim) eq_refl eq_refl) as H.
    cbn [rest file init_trace open_stream] in H. rewrite parse_trace in H by done. destruct H as (t'&H&_); [lia|]. by exists t'.
  - intros txt fuel Hf. pose proof (read_trace_lines fuel (init_trace txt pim) eq_refl eq_refl Hf) as H.
    cbn [rest file init_trace open_stream] in H. destruct (mapM parse_unfiltered (full_lines txt)) as [rs'|]; [|done].
    destruct H as (t'&H&Ha). exists t'. split; [done|]. unfold after_reading in Ha. destruct pim; [|done]. destruct Ha as [He _].
    intros [|fuel'] Hf'; [lia|]. destruct (get_unfiltered_eof t' He) as [t'' E]. exists t''. simpl. by rewrite E.
Qed.

(** The round trip, a file with a bad line, and one with an unfinished line. *)
Lemma trace_roundtrip_witness :
  let rs := [mkRec 3 4096 READ; mkRec 0 0 WRITE; mkRec 120 18446744073709551 READ] in
  Forall printable rs ∧
  (∃ t', read_trace (S (length (print_trace rs))) (init_trace (print_trace rs) true) = Finished rs t') ∧
  read_trace 9 (init_trace ["1"; " "; "7"; newline; "x"; newline]%char true) = Raised ∧
  ∃ t', read_trace 9 (init_trace ["1"; " "; "7"; newline; "x"]%char true) = Finished [mkRec 1 7 READ] t'.
Proof.
  intros rs. assert (Forall printable rs) as H.
  { unfold rs. repeat (apply Forall_cons; split); try done; split; simpl; try lia; auto. }
  destruct (trace_roundtrip rs true H) as [Hr Ht]. split_and!; [exact H|exact Hr|..].
  - exact (Ht ["1"; " "; "7"; newline; "x"; newline]%char 9%nat ltac:(simpl; lia)).
  - destruct (Ht ["1"; " "; "7"; newline; "x"]%char 9%nat ltac:(simpl; lia)) as (t'&E&_). by exists t'.
Defined.
