(* ===== verification/ZsimMemCtrl.v ===== *)
(** * Memory controllers of zsim ([zsim-ramulator/src/mem_ctrls.h], [zsim-ramulator/src/mem_ctrls.cpp])

    [SimpleMemory] answers after a fixed latency.  [MemoryTraces], the
    controller that writes the traces for Ramulator, does too, and appends a
    line to its file for every request that is not an instruction fetch:
    the thread, the core, the number of instructions since the last line of the
    core, the type and the address of the line of the cache.  Both keep
    [MemLaws].  Numbers are printed by [dec]. *)

From Stdlib Require Import Ascii.
From S2P Require Import Prelude Request Trace TraceTheorems ZsimMem ZsimRepl ZsimArray ZsimCoherence ZsimInv ZsimAccess.

(** ** [SimpleMemory] *)
Module SimpleMemory.

Record SimpleMemory := mkSimpleMemory { latency : Z }.

Definition access (req : MemReq) (d : SimpleMemory) : option (MESIState * Z * SimpleMemory) :=
  let s := match atype req with
           | PUTS | PUTX => StI
           | GETS => if flag_set (flags req) NOEXCL then StS else StE
           | GETX => StM
           end in
  let respCycle := cycle req + latency d in
  assert! (cycle req <? respCycle);
  Some (s, respCycle, d).

#[export] Instance SimpleMemory_controller : MemController SimpleMemory := access.

(** [offload] is not supported: nothing happens. *)
Definition offload (info : offloadInfo) (d : SimpleMemory) : option SimpleMemory := Some d.
#[export] Instance SimpleMemory_offload : MemOffload SimpleMemory := offload.

#[export] Instance SimpleMemory_laws : MemLaws SimpleMemory.
Proof.
  refine {| mem_ok := λ d, 0 < latency d; mem_core := λ _, True |}; [done|].
  intros req d Hd _ _. unfold mem_access, SimpleMemory_controller, access.
  rewrite (proj2 (Z.ltb_lt _ _)) by lia. exists (cycle req + latency d), d. split_and!; [|done|lia]. by destruct (atype req).
Defined.

End SimpleMemory.

(** ** [MemoryTraces] *)
Module MemoryTraces.

Definition MAX_CORES : Z := 1024.

(** The letter of a line. *)
Inductive LineType := TL | TS | TP.
Definition letter (t : LineType) : ascii := match t with TL => "L" | TS => "S" | TP => "P" end%char.

(** A line of the trace. *)
Record TraceLine := mkLine { tl_thread : Z; tl_core : Z; tl_instrs : Z; tl_type : LineType; tl_addr : Z }.
Definition print_tline (l : TraceLine) : text :=
  dec (tl_thread l) (blank :: dec (tl_core l) (blank :: dec (tl_instrs l)
    (blank :: letter (tl_type l) :: blank :: dec (tl_addr l) [newline]))).

Record MemoryTraces := mkMemoryTraces {
  latency : Z; tracefile : text; print_trace : Z; previous_instr : list Z; substract : list Z; threadIdx : list Z;
  total_instructions : Z
}.

(** The constructor; nothing initialises [threadIdx]. *)
Definition new (latency : Z) (only_offload : bool) (threadIdx : list Z) : MemoryTraces :=
  mkMemoryTraces latency [] (if only_offload then 0 else 1) (replicate 1024 0) (replicate 1024 0) threadIdx 0.

Definition is_prefetch (req : MemReq) : bool :=
  flag_set (flagsTraces req) PREFETCH_TRACE || flag_set (flags req) PREFETCH.

(** The part of [access] under [print_trace], for a request of the type that is
    printed as [t]. *)
Definition log (t : LineType) (req : MemReq) (d : MemoryTraces) : option MemoryTraces :=
  if print_trace d =? 0 then Some d
  else if flag_set (flags req) IFETCH then Some d
  else
    let core := coreId req in
    sub ← zlookup (substract d) core;
    let sub := if is_prefetch req then sub else sub + 1 in
    prev ← zlookup (previous_instr d) core;
    let pinstr := as_long prev in
    let '(sub, pinstr) := if pinstr - sub <=? 0 then (sub - pinstr, 0) else (0, pinstr - sub) in
    thread ← zlookup (threadIdx d) core;
    subs ← upd_child (λ _, Some sub) (substract d) core;
    prevs ← upd_child (λ _, Some 0) (previous_instr d) core;
    Some (mkMemoryTraces (latency d)
            (tracefile d ++ print_tline (mkLine thread core pinstr (if is_prefetch req then TP else t) (lineAddr req)))
            (print_trace d) prevs subs (threadIdx d) (total_instructions d)).

Definition access (req : MemReq) (d : MemoryTraces) : option (MESIState * Z * MemoryTraces) :=
  assert! (coreId req <=? MAX_CORES);
  '(s, d) ← match atype req with
            | PUTX | PUTS => Some (StI, d)
            | GETS => d ← log TL req d; Some (if flag_set (flags req) NOEXCL then StS else StE, d)
            | GETX => d ← log TS req d; Some (StM, d)
            end;
  let respCycle := cycle req + latency d in
  assert! (cycle req <? respCycle);
  Some (s, respCycle, d).

Definition offload (o : offloadInfo) (d : MemoryTraces) : option MemoryTraces :=
  match msg o with
  | OFFLOADING =>
    Some (mkMemoryTraces (latency d) (tracefile d) (as_int (content o)) (previous_instr d) (substract d) (threadIdx d) (total_instructions d))
  | INSTR_COUNT =>
    prevs ← upd_child (λ x, Some (u64 (x + inter_instrs o))) (previous_instr d) (coreIdx o);
    threads ← upd_child (λ _, Some (off_thread o)) (threadIdx d) (coreIdx o);
    Some (mkMemoryTraces (latency d) (tracefile d) (print_trace d) prevs (substract d) threads (u64 (total_instructions d + inter_instrs o)))
  | MEM_INSTR => Some d
  end.

#[export] Instance MemoryTraces_controller : MemController MemoryTraces := access.
#[export] Instance MemoryTraces_offload : MemOffload MemoryTraces := offload.

(** *** The controller serves the caches *)
Record ok (d : MemoryTraces) : Prop := {
  ok_latency : 0 < latency d;
  ok_prev : length (previous_instr d) = 1024%nat;
  ok_sub : length (substract d) = 1024%nat;
  ok_thread : length (threadIdx d) = 1024%nat
}.

Lemma upd_child_length {A} (f : A → option A) l i l' : upd_child f l i = Some l' → length l' = length l.
Proof.
  rewrite upd_child_lookup. intros H. apply bind_Some in H as (x&_&H). apply bind_Some in H as (y&_&H). simplify_eq.
  apply length_insert.
Qed.

Lemma log_ok t req d : ok d → 0 ≤ coreId req < MAX_CORES → ∃ d', log t req d = Some d' ∧ ok d' ∧ latency d' = latency d.
Proof.
  intros Hok Hc. pose proof Hok as [Hl Hp Hs Ht]. unfold log, MAX_CORES in *. destruct (_ =? 0); [by exists d|]. destruct (flag_set _ IFETCH); [by exists d|].
  destruct (zlookup_is_Some (substract d) (coreId req)) as [sub Es]; [lia|]. rewrite Es; cbn [mbind option_bind].
  destruct (zlookup_is_Some (previous_instr d) (coreId req)) as [prev Ep]; [lia|]. rewrite Ep; cbn [mbind option_bind].
  destruct (if _ <=? 0 then _ else _) as [sub' pinstr].
  destruct (zlookup_is_Some (threadIdx d) (coreId req)) as [th Et]; [lia|]. rewrite Et; cbn [mbind option_bind].
  destruct (upd_child_is_Some (λ _, sub') (substract d) (coreId req)) as (subs&->&H1); [lia|].
  destruct (upd_child_is_Some (λ _, 0) (previous_instr d) (coreId req)) as (prevs&->&H2); [lia|]. cbn [mbind option_bind].
  eexists. split; [done|]. split; [|done]. split; simpl; [done|lia..].
Qed.

#[export] Instance MemoryTraces_laws : MemLaws MemoryTraces.
Proof.
  refine {| mem_ok := ok; mem_core := λ c, 0 ≤ c < MAX_CORES |}.
  - intros c Hc. unfold u32, MAX_CORES in *. change 4294967295 with (Z.ones 32). rewrite Z.land_ones, Z.mod_small by lia. done.
  - intros req d Hok Hc _. unfold mem_access, MemoryTraces_controller, access. rewrite (proj2 (Z.leb_le _ _)) by lia.
    pose proof (ok_latency d Hok).
    assert (∃ d', (match atype req with
            | PUTX | PUTS => Some (StI, d)
            | GETS => d ← log TL req d; Some (if flag_set (flags req) NOEXCL then StS else StE, d)
            | GETX => d ← log TS req d; Some (StM, d)
            end) = Some (grant (atype req) (flags req), d') ∧ ok d' ∧ latency d' = latency d) as (d'&->&Hok'&Hlat).
    { destruct (atype req); [| |by exists d|by exists d].
      - destruct (log_ok TL req d Hok Hc) as (d'&->&?). by exists d'.
      - destruct (log_ok TS req d Hok Hc) as (d'&->&?). by exists d'. }
    cbn [mbind option_bind]. rewrite Hlat, (proj2 (Z.ltb_lt _ _)) by lia. exists (cycle req + latency d), d'. split_and!; [done|done|lia].
Defined.

End MemoryTraces.
