(* ===== verification/ZsimTrace.v ===== *)
(** * From zsim to Ramulator: the trace file

    [zsim_trace_roundtrip]: what Ramulator's reader of zsim traces makes of what
    [MemoryTraces] prints, and on which lines the two agree.  [memory_traces_account]: the lines of a core
    account for the instructions it reported. *)

From Stdlib Require Import Ascii.
From S2P Require Import Prelude Request Trace TraceTheorems ZsimMem ZsimRepl ZsimArray ZsimCoherence ZsimInv ZsimAccess ZsimMemCtrl.
Import MemoryTraces.

(** ** Words and numbers *)
Lemma dec_aux_app fuel n l r : dec_aux fuel n (l ++ r) = dec_aux fuel n l ++ r.
Proof.
  revert n l. induction fuel as [|fuel IH]; intros n l; [done|]. simpl. destruct (n <? 10); [done|].
  by rewrite <-IH.
Qed.
Lemma dec_app n r : dec n r = dec n [] ++ r.
Proof. unfold dec. by rewrite <-dec_aux_app. Qed.

Lemma dec_word n :
  0 ≤ n < 2 ^ 64 → dec n [] ≠ [] ∧ Forall (λ c, is_space c = false ∧ Ascii.eqb c newline = false) (dec n []) ∧
    parse_number 10 (dec n []) = Some (false, n, length (dec n [])).
Proof.
  intros Hn. destruct (dec_digits n [] Hn) as (ds&E&Hne&Hall&Hr&_). destruct (digits_start ds [] Hne Hall) as (Hs&Hsg&Hb).
  rewrite app_nil_r in *. rewrite E. split; [done|]. split.
  - eapply Forall_impl; [exact Hall|]. intros c (d&->&Hd). destruct (digit_ok d Hd) as (_&H1&H2&_). done.
  - unfold parse_number. rewrite Hs, Hsg, Hb, Hr. simpl. destruct ds; [done|]. simpl. by rewrite Z.add_0_l.
Qed.

Lemma stoul_word n : 0 ≤ n < 2 ^ 64 → stoul 10 (dec n []) = Some (n, length (dec n [])).
Proof.
  intros Hn. destruct (dec_word n Hn) as (_&_&E). unfold stoul. rewrite E. simpl. by rewrite (proj2 (Z.leb_gt _ _)) by lia.
Qed.
Lemma stoi_word n : 0 ≤ n < 2 ^ 64 → stoi 10 (dec n []) = if n <? 2 ^ 31 then Some n else None.
Proof.
  intros Hn. destruct (dec_word n Hn) as (_&_&E). unfold stoi. rewrite E. cbn [mbind option_bind].
  by rewrite (proj2 (Z.leb_le _ _)) by lia.
Qed.

Lemma words_word w acc l :
  Forall (λ c, is_space c = false) w → w ≠ [] ∨ acc ≠ [] → words acc (w ++ blank :: l) = (reverse acc ++ w) :: words [] l.
Proof.
  intros Hw. revert acc. induction Hw as [|c w Hc _ IH]; intros acc Hne; simpl.
  - destruct acc as [|x acc]; [by destruct Hne|]. by rewrite app_nil_r.
  - rewrite Hc, IH by (by right). by rewrite reverse_cons, <-app_assoc.
Qed.
Lemma words_last w acc : Forall (λ c, is_space c = false) w → w ≠ [] ∨ acc ≠ [] → words acc w = [reverse acc ++ w].
Proof.
  intros Hw. revert acc. induction Hw as [|c w Hc _ IH]; intros acc Hne; simpl.
  - destruct acc as [|x acc]; [by destruct Hne|]. by rewrite app_nil_r.
  - rewrite Hc, IH by (by right). by rewrite reverse_cons, <-app_assoc.
Qed.

(** ** A line *)
(** What the fields of a line hold: unsigned 64-bit numbers. *)
Record printed (l : TraceLine) : Prop := {
  pl_thread : 0 ≤ tl_thread l < 2 ^ 64;
  pl_core : 0 ≤ tl_core l < 2 ^ 64;
  pl_instrs : 0 ≤ tl_instrs l < 2 ^ 64;
  pl_addr : 0 ≤ tl_addr l < 2 ^ 64
}.

(** The lines the reader takes: [std::stoi] is for [int]s, and a processor is at
    most 512. *)
Definition accepted (l : TraceLine) : bool :=
  (tl_thread l <? 2 ^ 31) && (tl_core l <=? 512) && (tl_instrs l <? 2 ^ 31).

(** An accepted line whose address a [long] holds. *)
Record readable (l : TraceLine) : Prop := {
  rd_printed : printed l;
  rd_accepted : accepted l = true;
  rd_addr : tl_addr l < 2 ^ 63
}.

Definition line_words (l : TraceLine) : list text :=
  [dec (tl_thread l) []; dec (tl_core l) []; dec (tl_instrs l) []; [letter (tl_type l)]; dec (tl_addr l) []].

(** The line without its end. *)
Definition line_text (l : TraceLine) : text :=
  dec (tl_thread l) (blank :: dec (tl_core l) (blank :: dec (tl_instrs l) (blank :: letter (tl_type l) :: blank :: dec (tl_addr l) []))).

Lemma print_line_text l : print_tline l = line_text l ++ [newline].
Proof.
  unfold print_tline, line_text. rewrite (dec_app (tl_addr l) [newline]), !app_comm_cons. unfold dec at 3.
  rewrite dec_aux_app, !app_comm_cons. unfold dec at 2. rewrite dec_aux_app, !app_comm_cons. unfold dec at 1.
  by rewrite dec_aux_app.
Qed.

Lemma line_split l : printed l → split_str (line_text l) = line_words l.
Proof.
  intros [Ht Hc Hi Ha]. unfold split_str, line_text, line_words.
  assert (∀ n, 0 ≤ n < 2 ^ 64 → dec n [] ≠ [] ∧ Forall (λ c, is_space c = false) (dec n [])) as Hw.
  { intros n Hn. destruct (dec_word n Hn) as (?&H&_). split; [done|]. eapply Forall_impl; [exact H|]. by intros c []. }
  destruct (Hw (tl_thread l)) as [H1 H1']; [lia|]. destruct (Hw (tl_core l)) as [H2 H2']; [lia|].
  destruct (Hw (tl_instrs l)) as [H3 H3']; [lia|]. destruct (Hw (tl_addr l)) as [H4 H4']; [lia|].
  rewrite (dec_app (tl_thread l)), (words_word _ [] _ H1' (or_introl H1)). apply (f_equal (cons _)).
  rewrite (dec_app (tl_core l)), (words_word _ [] _ H2' (or_introl H2)). apply (f_equal (cons _)).
  rewrite (dec_app (tl_instrs l)), (words_word _ [] _ H3' (or_introl H3)). apply (f_equal (cons _)).
  change (letter (tl_type l) :: blank :: dec (tl_addr l) []) with ([letter (tl_type l)] ++ blank :: dec (tl_addr l) []).
  rewrite words_word; [|by destruct (tl_type l); repeat constructor|by left]. apply (f_equal (cons _)).
  exact (words_last _ [] H4' (or_introl H4)).
Qed.

Lemma dec_not_type n : 0 ≤ n < 2 ^ 64 → is_type_word (dec n []) = false.
Proof.
  intros Hn. destruct (dec_digits n [] Hn) as (ds&E&Hne&Hall&_). rewrite app_nil_r in E. rewrite E.
  destruct ds as [|c ds]; [done|]. inversion_clear Hall as [|? ? (d&->&Hd) _].
  unfold is_type_word. pattern d. apply digit_cases; [done|..]; by destruct ds.
Qed.

(** The type the reader gives to a line after one of type [ty]. *)
Definition heard_type (ty : ReqType) (t : LineType) : ReqType := match t with TL => READ | TS => WRITE | TP => ty end.

(** The arguments of the reader after a line. *)
Definition hear (l : TraceLine) (r : trace_rec) (cpu : Z) : trace_rec * Z :=
  if accepted l then (mkRec (tl_instrs l) (as_long (tl_addr l)) (heard_type (tr_type r) (tl_type l)), tl_core l)
  else (set_bad_addr r, cpu).

Lemma parse_line l r cpu :
  printed l → default (set_bad_addr r, cpu) (parse_zsim (line_words l) r cpu) = hear l r cpu.
Proof.
  intros [Ht Hc Hi Ha]. unfold parse_zsim, hear, accepted.
  assert (type_position (line_words l) = 3%nat) as ->.
  { unfold type_position, line_words. cbn [list_find]. rewrite !dec_not_type by lia. by destruct (tl_type l). }
  change ((3 <=? 3)%nat && (3 + 1 <? length (line_words l))%nat) with true. cbn [Nat.sub Nat.add].
  change (line_words l !! 0%nat) with (Some (dec (tl_thread l) [])). change (line_words l !! 1%nat) with (Some (dec (tl_core l) [])).
  change (line_words l !! 2%nat) with (Some (dec (tl_instrs l) [])). change (line_words l !! 3%nat) with (Some [letter (tl_type l)]).
  change (line_words l !! 4%nat) with (Some (dec (tl_addr l) [])). cbn [mbind option_bind].
  rewrite (stoi_word (tl_thread l)), (stoi_word (tl_core l)) by done.
  destruct (Z.ltb_spec (tl_thread l) (2 ^ 31)); cbn [mbind option_bind andb]; [|done].
  destruct (Z.leb_spec (tl_core l) 512); cbn [andb].
  2: { destruct (Z.ltb_spec (tl_core l) (2 ^ 31)); cbn [mbind option_bind]; [|done].
       unfold as_unsigned. rewrite Z.mod_small by lia. by rewrite (proj2 (Z.ltb_lt _ _)) by lia. }
  rewrite (proj2 (Z.ltb_lt (tl_core l) (2 ^ 31))) by lia. cbn [mbind option_bind]. unfold as_unsigned.
  rewrite (Z.mod_small (tl_core l)), (proj2 (Z.ltb_ge _ _)) by lia.
  assert (dec (tl_instrs l) [] ≠ ["-"%char]) as Hdash.
  { intros E. destruct (dec_word (tl_instrs l) Hi) as (_&_&Hs). by rewrite E in Hs. }
  rewrite (bool_decide_false (dec (tl_instrs l) [] = ["-"%char]) Hdash). rewrite stoi_word by done.
  destruct (Z.ltb_spec (tl_instrs l) (2 ^ 31)); cbn [mbind option_bind]; [|done]. rewrite stoul_word by lia.
  cbn [mbind option_bind default fst]. rewrite (Z.mod_small (tl_instrs l)) by lia. by destruct (tl_type l).
Qed.

Lemma line_newline l : printed l → Forall (λ c, Ascii.eqb c newline = false) (line_text l).
Proof.
  intros [Ht Hc Hi Ha]. unfold line_text.
  assert (∀ n, 0 ≤ n < 2 ^ 64 → Forall (λ c, Ascii.eqb c newline = false) (dec n [])) as Hw.
  { intros n Hn. destruct (dec_word n Hn) as (_&H&_). eapply Forall_impl; [exact H|]. by intros c []. }
  rewrite dec_app, Forall_app. split; [apply Hw; lia|]. constructor; [done|].
  rewrite dec_app, Forall_app. split; [apply Hw; lia|]. constructor; [done|].
  rewrite dec_app, Forall_app. split; [apply Hw; lia|]. constructor; [done|].
  constructor; [by destruct (tl_type l)|]. constructor; [done|]. apply Hw. lia.
Qed.

(** ** The file *)
Definition print_tlines (ls : list TraceLine) : text := concat (map print_tline ls).

(** The loop of Ramulator over its file: the requests with their cores. *)
Fixpoint zsim_records (fuel : nat) (r : trace_rec) (cpu : Z) (t : Trace) : list (trace_rec * Z) :=
  match fuel with
  | O => []
  | S fuel =>
    let '(more, r, cpu, t) := get_zsim_request r cpu t in
    if (more : bool) then (r, cpu) :: zsim_records fuel r cpu t else []
  end.

(** The requests as lines are heard one after the other. *)
Fixpoint heard (r : trace_rec) (cpu : Z) (ls : list TraceLine) : list (trace_rec * Z) :=
  match ls with
  | [] => []
  | l :: ls => let '(r, cpu) := hear l r cpu in (r, cpu) :: heard r cpu ls
  end.

(** The requests the lines stand for. *)
Fixpoint meant (ty : ReqType) (ls : list TraceLine) : list (trace_rec * Z) :=
  match ls with
  | [] => []
  | l :: ls => let ty := heard_type ty (tl_type l) in (mkRec (tl_instrs l) (tl_addr l) ty, tl_core l) :: meant ty ls
  end.

Lemma heard_meant r cpu ls : Forall readable ls → heard r cpu ls = meant (tr_type r) ls.
Proof.
  intros Hls. revert r cpu. induction Hls as [|l ls [[_ _ _ Ha] Hok Hlt] _ IH]; intros r cpu; [done|].
  cbn [heard meant]. unfold hear. rewrite Hok, as_long_id by lia. by rewrite IH.
Qed.

Lemma read_line r cpu l ls all ins lim pim :
  printed l →
  get_zsim_request r cpu (mkTrace (mkStream all (print_tlines (l :: ls)) false false) ins lim pim) =
  (true, fst (hear l r cpu), snd (hear l r cpu), mkTrace (mkStream all (print_tlines ls) false false) ins lim pim).
Proof.
  intros Hl. unfold get_zsim_request, getline, getline_into. cbn [failbit file rest eofbit orb]. unfold print_tlines. simpl map. simpl concat.
  rewrite print_line_text, <-app_assoc. simpl app. rewrite split_line_app by (by apply line_newline). cbn [failbit].
  assert (length (line_text l) ≠ 0%nat) as Hlen.
  { unfold line_text. rewrite dec_app, length_app. simpl. lia. }
  rewrite (proj2 (Nat.eqb_neq _ _) Hlen). cbn [orb]. rewrite line_split by done.
  change (length (line_words l) <? 5)%nat with false. cbn [failbit andb]. rewrite <-(parse_line l r cpu Hl).
  by destruct (parse_zsim (line_words l) r cpu) as [[r' c']|].
Qed.

(** A request that is logged prints one line, with its core. *)
Lemma log_prints t req d d' :
  log t req d = Some d' → print_trace d ≠ 0 → flag_set (flags req) IFETCH = false →
  ∃ l, tracefile d' = tracefile d ++ print_tline l ∧ tl_core l = coreId req ∧ tl_addr l = lineAddr req.
Proof.
  unfold log. intros H Hp Hf. rewrite (proj2 (Z.eqb_neq _ _) Hp), Hf in H.
  apply bind_Some in H as (sub&_&H). apply bind_Some in H as (prev&_&H). destruct (if _ <=? 0 then _ else _) as [s p].
  apply bind_Some in H as (th&_&H). apply bind_Some in H as (subs&_&H). apply bind_Some in H as (prevs&_&H). simplify_eq.
  by eexists.
Qed.

(** C25: the trace file joins the two simulators.  Of a file of lines as
    [MemoryTraces] prints them (any unsigned 64-bit numbers in the fields), the
    reader of zsim traces returns one request for each line, in order, and
    stops after the last.  When every line is readable (thread and instructions
    below [2^31], core at most 512, address below [2^63]) these are the number
    of instructions, the address and the core that were written, where loads
    become reads and stores writes, but a prefetch gets the type of the request
    before it.  In any other file an address is read as a [long], and a line
    with a larger thread, core or count only gives the address -1 and leaves
    the rest of the request of the line before it.  The two programs do
    disagree on such a line: every logged access of a core above 512, which
    [MemoryTraces] admits, prints one. *)
Theorem zsim_trace_roundtrip (ls : list TraceLine) (r : trace_rec) (cpu : Z) (pim : bool) :
  Forall printed ls →
  zsim_records (S (length ls)) r cpu (init_trace (print_tlines ls) pim) = heard r cpu ls ∧
  (Forall readable ls → zsim_records (S (length ls)) r cpu (init_trace (print_tlines ls) pim) = meant (tr_type r) ls) ∧
  ∀ t req d d', log t req d = Some d' → print_trace d ≠ 0 → flag_set (flags req) IFETCH = false → 512 < coreId req →
    ∃ l, tracefile d' = tracefile d ++ print_tline l ∧ tl_core l = coreId req ∧ tl_addr l = lineAddr req ∧
      ∀ r cpu, hear l r cpu = (set_bad_addr r, cpu).
Proof.
  intros Hls.
  assert (zsim_records (S (length ls)) r cpu (init_trace (print_tlines ls) pim) = heard r cpu ls) as E.
  { unfold init_trace, open_stream. generalize (print_tlines ls) at 1 as all. intros all.
    revert r cpu. induction Hls as [|l ls Hl _ IH]; intros r cpu; [done|].
    cbn [length zsim_records]. rewrite read_line by done. cbn [heard]. destruct (hear l r cpu) as [r' cpu']. f_equal. apply IH. }
  split; [done|]. split; [intros Hr; rewrite E; by apply heard_meant|].
  intros t req d d' Hlog Hp Hf Hc. destruct (log_prints t req d d' Hlog Hp Hf) as (l&Ht&Hl&Ha). exists l. split_and!; [done..|].
  intros r' c'. unfold hear, accepted. rewrite Hl, (proj2 (Z.leb_gt _ _)) by lia. by rewrite andb_false_r.
Qed.

Lemma zsim_trace_roundtrip_witness :
  let ls := [mkLine 0 3 17 TL 4660; mkLine 1 2 0 TP 99; mkLine 0 3 5 TS 4661] in
  let far := mkLine 0 600 4 TL 77 in
  Forall readable ls ∧ Forall printed (ls ++ [far]) ∧
  zsim_records 4 (mkRec 0 0 WRITE) 0 (init_trace (print_tlines ls) false) =
    [(mkRec 17 4660 READ, 3); (mkRec 0 99 READ, 2); (mkRec 5 4661 WRITE, 3)] ∧
  zsim_records 5 (mkRec 0 0 WRITE) 0 (init_trace (print_tlines (ls ++ [far])) false) =
    [(mkRec 17 4660 READ, 3); (mkRec 0 99 READ, 2); (mkRec 5 4661 WRITE, 3); (mkRec 5 (-1) WRITE, 3)] ∧
  ∃ d l, log TL (mkMemReq 77 GETS 0 Local 100 StI 600 0 0 600 0 0) (new 50 false (replicate 1024 0)) = Some d ∧
    tracefile d = print_tline l ∧ tl_core l = 600 ∧ hear l (mkRec 5 4661 WRITE) 3 = (mkRec 5 (-1) WRITE, 3).
Proof.
  intros ls far.
  assert (Forall readable ls) as H.
  { unfold ls. repeat (apply Forall_cons; split); try done; split; try done; split; simpl; lia. }
  assert (Forall printed (ls ++ [far])) as H'.
  { apply Forall_app. split; [eapply Forall_impl; [exact H|]; by intros ? []|]. constructor; [|done]. split; simpl; lia. }
  pose proof H' as [Hp _]%Forall_app.
  destruct (zsim_trace_roundtrip ls (mkRec 0 0 WRITE) 0 false Hp) as (_&E&Hlog).
  destruct (zsim_trace_roundtrip (ls ++ [far]) (mkRec 0 0 WRITE) 0 false H') as (E'&_&_).
  split_and!; [done|done|exact (E H)|exact E'|].
  destruct (log TL (mkMemReq 77 GETS 0 Local 100 StI 600 0 0 600 0 0) (new 50 false (replicate 1024 0))) as [d|] eqn:Ed; [|by vm_compute in Ed].
  destruct (Hlog TL _ _ d Ed) as (l&Ht&Hc&_&Hh); [done|done|done|]. exists d, l. split_and!; [done|exact Ht|exact Hc|apply Hh].
Defined.

(** ** The instructions of a core *)
(** What the controller is told: accesses and messages. *)
Inductive Traffic := Acc (req : MemReq) | Off (o : offloadInfo).
Definition serve (e : Traffic) (d : MemoryTraces) : option MemoryTraces :=
  match e with Acc req => '(_, d) ← access req d; Some d | Off o => offload o d end.
Definition serve_all (es : list Traffic) (d : MemoryTraces) : option MemoryTraces := foldM (λ d e, serve e d) d es.

Definition reports (o : offloadInfo) : Z := match msg o with INSTR_COUNT => inter_instrs o | _ => 0 end.
Definition reported (core : Z) (es : list Traffic) : Z :=
  foldr (λ e n, match e with Off o => if decide (coreIdx o = core) then reports o else 0 | _ => 0 end + n) 0 es.
(** The instructions a line stands for: those between, and its own. *)
Definition line_instrs (core : Z) (l : TraceLine) : Z :=
  if decide (tl_core l = core) then tl_instrs l + match tl_type l with TP => 0 | _ => 1 end else 0.
Definition lines_instrs (core : Z) (ls : list TraceLine) : Z := foldr (λ l n, line_instrs core l + n) 0 ls.

(** The instructions a core reported that no line accounts for yet; negative
    when more lines were written than instructions reported. *)
Definition pending (core : Z) (d : MemoryTraces) : Z :=
  default 0 (zlookup (previous_instr d) core) - default 0 (zlookup (substract d) core).

Lemma upd_child_zlookup {X} (f : X → option X) l i l' :
  upd_child f l i = Some l' →
  ∃ x y, zlookup l i = Some x ∧ f x = Some y ∧ ∀ j, zlookup l' j = if decide (j = i) then Some y else zlookup l j.
Proof.
  rewrite upd_child_lookup. intros H. apply bind_Some in H as (x&Hx&H). apply bind_Some in H as (y&Hy&H). simplify_eq.
  exists x, y. split_and!; [done..|]. intros j. apply zlookup_set. by eapply zlookup_range.
Qed.

Lemma print_tlines_app ls ls' : print_tlines (ls ++ ls') = print_tlines ls ++ print_tlines ls'.
Proof. unfold print_tlines. by rewrite map_app, concat_app. Qed.
Lemma lines_instrs_app core ls ls' : lines_instrs core (ls ++ ls') = lines_instrs core ls + lines_instrs core ls'.
Proof. induction ls as [|l ls IH]; simpl; lia. Qed.

(** The counts of all cores are what fits in an [int64_t]. *)
Definition counts_below (m : Z) (d : MemoryTraces) : Prop := ∀ c x, zlookup (previous_instr d) c = Some x → 0 ≤ x ≤ m.

Lemma log_account t req d d' m :
  t ≠ TP → log t req d = Some d' → counts_below m d → m < 2 ^ 63 →
  ∃ ls, tracefile d' = tracefile d ++ print_tlines ls ∧ counts_below m d' ∧ ∀ c, lines_instrs c ls + pending c d' = pending c d.
Proof.
  intros Ht H Hb Hm. unfold log in H.
  assert (Hsame : d' = d → ∃ ls, tracefile d' = tracefile d ++ print_tlines ls ∧ counts_below m d' ∧
    ∀ c, lines_instrs c ls + pending c d' = pending c d) by (intros ->; exists []; split_and!; [by rewrite app_nil_r|done|done]).
  destruct (_ =? 0); [simplify_eq; by apply Hsame|]. destruct (flag_set _ IFETCH); [simplify_eq; by apply Hsame|]. clear Hsame.
  apply bind_Some in H as (sub&Hsub&H). apply bind_Some in H as (prev&Hprev&H). pose proof (Hb _ _ Hprev) as Hpr.
  rewrite (as_long_id prev) in H by lia. set (w := if is_prefetch req then 0 else 1).
  assert ((if is_prefetch req then sub else sub + 1) = sub + w) as E by (unfold w; destruct (is_prefetch req); lia). rewrite E in H.
  destruct (if prev - (sub + w) <=? 0 then _ else _) as [sub' pinstr] eqn:Ep.
  assert (pinstr - sub' = prev - (sub + w)) as Hacc by (destruct (prev - (sub + w) <=? 0); simplify_eq; lia).
  apply bind_Some in H as (th&Hth&H). apply bind_Some in H as (subs&Hs&H). apply bind_Some in H as (prevs&Hp&H). simplify_eq.
  destruct (upd_child_zlookup _ _ _ _ Hs) as (x1&y1&_&[= <-]&Hs'). destruct (upd_child_zlookup _ _ _ _ Hp) as (x2&y2&_&[= <-]&Hp').
  eexists [_]. split_and!; [by unfold print_tlines; simpl; rewrite app_nil_r| |].
  - intros c x. simpl. rewrite Hp'. case_decide; [intros [= <-]; lia|by apply Hb].
  - intros c. unfold pending. simpl. rewrite Hs', Hp'. unfold line_instrs. simpl. destruct (decide (c = coreId req)) as [->|Hne].
    + rewrite decide_True, Hprev, Hsub by done. simpl. unfold w in *. destruct (is_prefetch req); [|destruct t; try done]; lia.
    + rewrite decide_False by done. lia.
Qed.

Lemma access_account req s r d d' m :
  access req d = Some (s, r, d') → counts_below m d → m < 2 ^ 63 →
  ∃ ls, tracefile d' = tracefile d ++ print_tlines ls ∧ counts_below m d' ∧ ∀ c, lines_instrs c ls + pending c d' = pending c d.
Proof.
  unfold access. intros H Hb Hm. destruct (_ <=? MAX_CORES); [|done].
  assert (Hsame : ∃ ls, tracefile d = tracefile d ++ print_tlines ls ∧ counts_below m d ∧ ∀ c, lines_instrs c ls + pending c d = pending c d)
    by (exists []; split_and!; [by rewrite app_nil_r|done|done]).
  apply bind_Some in H as ([s1 d1]&H1&H). destruct (_ <? _); [|done]. simplify_eq.
  destruct (atype req); [..|by simplify_eq|by simplify_eq]; apply bind_Some in H1 as (d2&H1&E1); simplify_eq.
  - by apply (log_account TL req d d' m).
  - by apply (log_account TS req d d' m).
Qed.

Lemma offload_account o d d' m :
  offload o d = Some d' → 0 ≤ inter_instrs o → counts_below m d → m + reports o < 2 ^ 63 →
  tracefile d' = tracefile d ∧ counts_below (m + reports o) d' ∧
  ∀ c, pending c d' = pending c d + if decide (coreIdx o = c) then reports o else 0.
Proof.
  intros H Hi Hb Hm. unfold offload, reports in *. destruct (msg o).
  - simplify_eq. split_and!; [done|intros c x Hx; pose proof (Hb c x Hx); lia|]. intros c. case_decide; lia.
  - apply bind_Some in H as (prevs&Hp&H). apply bind_Some in H as (ths&Ht&H). simplify_eq.
    destruct (upd_child_zlookup _ _ _ _ Hp) as (x&y&Hx&[= <-]&Hp'). pose proof (Hb _ _ Hx) as Hx'.
    assert (u64 (x + inter_instrs o) = x + inter_instrs o) as Eu.
    { unfold u64. change 18446744073709551615 with (Z.ones 64). rewrite Z.land_ones, Z.mod_small by lia. done. }
    rewrite Eu in Hp'. split_and!; [done| |].
    + intros c z. simpl. rewrite Hp'. case_decide; [intros [= <-]; lia|]. intros Hz. pose proof (Hb c z Hz). lia.
    + intros c. unfold pending. simpl. rewrite Hp'. destruct (decide (c = coreIdx o)) as [->|Hne].
      * rewrite decide_True, Hx by done. simpl. lia.
      * rewrite decide_False by done. lia.
  - simplify_eq. split_and!; [done|intros c x Hx; pose proof (Hb c x Hx); lia|]. intros c. unfold pending. simpl. case_decide; lia.
Qed.

Definition total_reports (es : list Traffic) : Z := foldr (λ e n, match e with Off o => reports o | _ => 0 end + n) 0 es.
Definition counted (e : Traffic) : Prop := match e with Off o => 0 ≤ inter_instrs o | Acc _ => True end.

Lemma total_reports_nonneg es : Forall counted es → 0 ≤ total_reports es.
Proof.
  induction 1 as [|e es He _ IH]; [done|]. simpl. destruct e as [req|o]; [lia|]. simpl in He. unfold reports. destruct (msg o); lia.
Qed.

Lemma serve_all_account es d d' m :
  serve_all es d = Some d' → Forall counted es → counts_below m d → m + total_reports es < 2 ^ 63 →
  ∃ ls, tracefile d' = tracefile d ++ print_tlines ls ∧ ∀ c, lines_instrs c ls + pending c d' = pending c d + reported c es.
Proof.
  unfold serve_all. revert d m. induction es as [|e es IH]; intros d m H Hc Hb Hm; cbn [foldM] in H.
  - simplify_eq. exists []. split; [by rewrite app_nil_r|]. intros c. simpl. lia.
  - apply bind_Some in H as (d1&H1&H). apply Forall_cons in Hc as [He Hc]. pose proof (total_reports_nonneg es Hc). destruct e as [req|o].
    + simpl in H1, Hm. apply bind_Some in H1 as ([[s r] d2]&H1&?). simplify_eq.
      destruct (access_account req s r d d1 m H1 Hb) as (l1&E1&Hb1&Ha1); [lia|].
      destruct (IH d1 m H Hc Hb1) as (l2&E2&Ha2); [lia|]. exists (l1 ++ l2).
      split; [by rewrite E2, E1, print_tlines_app, app_assoc|]. intros c. rewrite lines_instrs_app. specialize (Ha1 c). specialize (Ha2 c). simpl. lia.
    + simpl in H1, Hm, He. destruct (offload_account o d d1 m H1 He Hb) as (E1&Hb1&Ha1); [lia|].
      destruct (IH d1 (m + reports o) H Hc Hb1) as (l2&E2&Ha2); [lia|]. exists l2.
      split; [by rewrite E2, E1|]. intros c. specialize (Ha1 c). specialize (Ha2 c). simpl. lia.
Qed.

(** C26: the trace accounts for the instructions the cores report: after any
    sequence of accesses and messages the file consists of lines, and for every
    core the instructions its lines stand for (those between them and the
    memory instructions themselves) and the pending count of the controller sum
    to the instructions the core reported. *)
Theorem memory_traces_account (lat : Z) (only_offload : bool) (threads : list Z) (es : list Traffic) (d : MemoryTraces) :
  serve_all es (new lat only_offload threads) = Some d → Forall counted es → total_reports es < 2 ^ 63 →
  ∃ ls, tracefile d = print_tlines ls ∧ ∀ core, lines_instrs core ls + pending core d = reported core es.
Proof.
  intros H Hc Hm.
  assert (∀ c x, zlookup (replicate 1024 0) c = Some x → x = 0) as Hz.
  { intros c x. unfold zlookup. destruct (c <? 0); [done|]. by intros [-> _]%lookup_replicate. }
  destruct (serve_all_account es (new lat only_offload threads) d 0 H Hc) as (ls&E&Ha); [|done|].
  { intros c x Hx%Hz. lia. }
  exists ls. split; [done|]. intros core. rewrite Ha. unfold pending, new. simpl previous_instr. simpl substract.
  destruct (zlookup (replicate 1024 0) core) as [x|] eqn:Hx; [apply Hz in Hx; subst x|]; simpl; lia.
Qed.

Definition sample_traffic : list Traffic :=
  let req t a := Acc (mkMemReq a t 0 Local 100 StI 1 0 0 1 0 0) in
  [Off (mkOffload INSTR_COUNT 64 0 20 1 7 0); req GETS 4660; Off (mkOffload INSTR_COUNT 64 0 5 1 7 0); req GETX 4661; req PUTX 9].

Lemma memory_traces_account_witness :
  ∃ d, serve_all sample_traffic (new 50 false (replicate 1024 0)) = Some d ∧
    (∃ ls, tracefile d = print_tlines ls ∧ ∀ core, lines_instrs core ls + pending core d = reported core sample_traffic) ∧
    tracefile d = print_tlines [mkLine 7 1 19 TL 4660; mkLine 7 1 4 TS 4661].
Proof.
  destruct (serve_all sample_traffic (new 50 false (replicate 1024 0))) as [d|] eqn:E; [|by vm_compute in E].
  exists d. split; [done|]. split.
  - apply (memory_traces_account 50 false (replicate 1024 0) sample_traffic d E); [|by vm_compute].
    unfold sample_traffic. repeat (apply Forall_cons; split); simpl; try done; lia.
  - assert (tracefile <$> serve_all sample_traffic (new 50 false (replicate 1024 0)) =
      Some (print_tlines [mkLine 7 1 19 TL 4660; mkLine 7 1 4 TS 4661])) as Hv by by vm_compute.
    rewrite E in Hv. by injection Hv.
Defined.
