(* ===== verification/ZsimTheorems.v ===== *)
(** * The caches of zsim are coherent

    The core's accesses to a hierarchy of caches, from a system with empty
    caches: they return, the core gets the rights it asked for, and in every
    state that can be reached no two caches hold a line against each other. *)

From S2P Require Import Prelude ZsimMem ZsimRepl ZsimArray ZsimCoherence ZsimInv ZsimDown ZsimGrant ZsimAccess ZsimMemCtrl.

Section Theorems.
Context {A D : Type} `{!CacheArray A} `{!ArrayLaws A} `{!MemController D} `{!MemLaws D}.
Abbreviation sys := (Sys A D).

(** The state a cache has for an address. *)
Definition state_of (s : sys) (i : nat) (a : Z) : MESIState := match caches s !! i with Some c => St1 c a | None => StI end.

Section Hierarchy.
Variable net : list Node.
Variable lvl : nat → nat.
(** A bound of the levels. *)
Variable H : nat.
Context {nm : nat} (Hnet : net_ok net lvl nm).
Hypothesis HH : ∀ i, is_Some (net !! i) → (lvl i < H)%nat.
Abbreviation memory := (memory (nm := nm)).
Abbreviation rep := (rep net memory).
Abbreviation coh := (coh net admits).

(** *** Requests to a parent *)
Lemma rep_set_mems s σ ε α ds : rep s σ ε α → memory ds → rep (set_mems ds s) σ ε α.
Proof. intros [] Hm. by split. Qed.

Lemma mem_runs fuel ch n j id req s σ ε α :
  net !! ch = Some n → parent_of net ch (lineAddr req) = Some (MemObj j) → rep s σ ε α → coh σ ε →
  line α ch id (lineAddr req) → routed net ch (lineAddr req) → admits (lineAddr req) → mem_core (coreId req) →
  state req = LineState ch id → asks (atype req) (flags req) (σ ch (lineAddr req)) (ε ch (lineAddr req)) →
  runs (access (S fuel) (MemObj j) req) (up_post net lvl (nm := nm) ch (lineAddr req) (atype req) (flags req) σ α (cycle req)) s.
Proof.
  set (a := lineAddr req). intros Hn Hp Hr Hc Hl Hro Ha Hco Hst Hask. assert (is_Some (net !! ch)) as Hcn by (by rewrite Hn).
  destruct (parent_elem net ch a _ Hp) as (n'&Hn'&Hin). assert (n' = n) as -> by congruence.
  pose proof (net_mem _ _ _ Hnet ch n j Hn Hin) as Hj. destruct (rep_mems _ _ _ _ _ _ Hr) as [Hlen Hmem].
  destruct (lookup_lt_is_Some_2 (mems s) j) as [d Hd]; [lia|]. rewrite Forall_lookup in Hmem.
  destruct (mem_access_ok req d) as (r&d'&Ed&Hd'&Hcyc); [by eapply Hmem|done| |].
  { intros Et. rewrite Et in Hask. apply Hask. }
  cbn [access]. apply runs_bind. eexists _, s. split; [reflexivity|]. rewrite Hd.
  apply runs_bind. eapply runs_lift; [done|]. apply runs_bind. eapply runs_lift; [exact Ed|].
  apply runs_bind. eexists tt, _. split; [reflexivity|]. apply runs_bind. rewrite Hst.
  pose proof (coh_links _ _ _ _ Hc ch a Hcn) as L.
  eapply runs_set_bcc_state; [apply rep_set_mems; [exact Hr|]|done|done| |].
  { split; [by rewrite length_insert|]. apply Forall_insert; [by apply Forall_lookup|done]. }
  { destruct (atype req); simpl in *; try tauto; [by case_match|done]. }
  intros s1 _ Hr1. apply runs_ret. eexists _, _, _. split_and!; [exact Hr1| |done|done| |].
  - apply (coh_put_root net (nm := nm) admits); [done|done|intros p Hp'; fold a in Hp; congruence| |done].
    destruct (atype req); simpl in *.
    + eapply link_parent; [exact L| |by destruct (flag_set _ _)]. rewrite Hask. by intros [].
    + eapply link_parent; [exact L|by right|done].
    + apply link_none; [tauto|]. by apply (link_empty _ _ _ L), (proj1 (proj1 (proj2 Hask))).
    + apply link_none; [tauto|]. by apply (link_empty _ _ _ L), (proj1 (proj1 (proj2 Hask))).
  - rewrite put_eq. destruct (atype req); simpl; try done. destruct (flag_set _ _); [by left|by right; left].
  - intros i _ Hi. apply put_ne. by left.
Qed.

(** With twice as many levels as there are left, a request to the parent is
    served. *)
Lemma access_ups fuel ch : (2 * H ≤ fuel + lvl ch + 1)%nat → ups net lvl (nm := nm) (access fuel) ch.
Proof.
  revert ch. induction fuel as [|fuel IH]; intros ch Hf n o id req s σ ε α Hn Hp Hr Hc Hl Hro Ha Hco Hst Hch Hinit Hask.
  - pose proof (HH ch ltac:(by rewrite Hn)). lia.
  - destruct o as [p|j]; [|by eapply mem_runs]. cbn [access].
    pose proof (parent_lvl net lvl Hnet _ _ _ Hp) as Hlt. pose proof (parent_net net lvl Hnet _ _ _ Hp) as [np Hnp].
    pose proof (HH p ltac:(by rewrite Hnp)).
    eapply (child_access_runs net lvl Hnet (invalidate fuel) (access fuel) p np Hnp); try done.
    + intros i s' σ' ε' α' req' Hi. apply (invalidate_runs net lvl Hnet memory fuel). lia.
    + apply IH. lia.
Qed.

(** *** A core's access *)
Definition legal (p : nat) (a : Z) (isLoad : bool) (core fl : Z) : Prop :=
  (∃ n, net !! p = Some n ∧ nd_terminal n = true) ∧ admits a ∧ mem_core core ∧ (isLoad = true ∨ flag_set fl PREFETCH = false).

Lemma core_access_runs fuel p a isLoad cyc core fl instrs s σ ε α :
  (2 * H ≤ fuel)%nat → legal p a isLoad core fl → rep s σ ε α → coh σ ε →
  runs (core_access fuel p a isLoad cyc core fl instrs)
    (λ r s', ∃ σ' ε' α', rep s' σ' ε' α' ∧ coh σ' ε' ∧ cyc ≤ r ∧ served (if isLoad then GETS else GETX) fl (σ' p a)) s.
Proof.
  intros Hf ((n&Hn&Hterm)&Ha&Hco&Hpf) Hr Hc. assert (is_Some (net !! p)) as Hpn by (by rewrite Hn). pose proof (HH p Hpn) as HHp.
  unfold core_access. apply runs_bind. eexists tt, _. split; [reflexivity|].
  set (s0 := set_local_state StI s). assert (rep s0 σ ε α) as Hr0 by (destruct Hr; by split).
  destruct fuel as [|fuel]; [lia|]. cbn [access]. set (req := core_request a isLoad cyc core fl instrs).
  assert (ups net lvl (nm := nm) (access fuel) p) as Hup by (apply access_ups; lia).
  assert (invals net lvl memory (invalidate fuel) (lvl p)) as Hinv.
  { intros i s' σ' ε' α' req' Hi. apply (invalidate_runs net lvl Hnet memory fuel). lia. }
  assert (IsGet (atype req) = true) as Hg by (by destruct isLoad).
  unfold cache_access. apply runs_bind. eapply runs_cache; [done..|]. intros me Hme Hnode _ _.
  assert (terminal me = true) as Ht by (by rewrite <-Hterm, <-Hnode).
  eapply runs_then with (P := λ r s', s' = s0 ∧ r = (false, req)).
  { unfold cc_startAccess. apply runs_bind, runs_assert; [by rewrite Ht|]. apply runs_bind. eexists _, s0. split; [reflexivity|].
    apply runs_bind. eapply runs_lift; [reflexivity|]. apply runs_ret. split; [done|]. by destruct isLoad. }
  intros [skip req'] s1 [-> [= -> ->]].
  eapply runs_then with (P := λ r s', ∃ σ' ε' α', rep s' σ' ε' α' ∧ coh σ' ε' ∧ cyc ≤ r ∧ served (atype req) fl (σ' p a)).
  2:{ intros r s' (σ'&ε'&α'&?&?&?&Hs). apply runs_bind, runs_assert; [by apply Z.leb_le|]. apply runs_ret.
      exists σ', ε', α'. split_and!; done. }
  eapply (locate_runs net lvl Hnet (invalidate fuel) (access fuel) p n Hn Hinv Hup s0 σ ε α req); [done..|by left|done|done|].
  intros lid s1 (σ1&ε1&α1&Hr1&Hc1&Hl1&Hlid&Hα1&Hb1).
  unfold cc_processAccess. apply runs_bind. eapply runs_cache; [exact Hr1|exact Hn|]. intros me1 _ Hnode1 _ _.
  assert (terminal me1 = true) as -> by (by rewrite <-Hterm, <-Hnode1).
  apply runs_bind, runs_assert; [by rewrite (proj2 (Z.eqb_neq lid (-1)))|].
  eapply runs_mono.
  { eapply (bcc_processAccess_runs net lvl Hnet (access fuel) p n Hn Hup lid fl _ req s1 σ1 ε1 α1); try done.
    - intros n' k c Hn' Hc'. assert (n' = n) as -> by congruence. by rewrite (net_terminal _ _ _ Hnet p n Hn Hterm) in Hc'.
    - destruct isLoad; [done|]. simpl. by destruct Hpf. }
  intros r s2 (σ2&ε2&α2&?&?&Hcyc&_&Hs&_). exists σ2, ε2, α2. split_and!; try done.
  pose proof (net_lat _ _ _ Hnet p n Hn) as (Hlat&_). rewrite <-Hnode in Hlat. simpl in *. lia.
Qed.

(** *** Loads and stores through a filter *)
(** The core at [p] has a filter with mask, source and flags [x]. *)
Definition filtered (p : nat) (a : Z) (isLoad : bool) (x : Z * Z * Z) : Prop :=
  (∃ n, net !! p = Some n ∧ nd_filter n = Some x) ∧ legal p a isLoad x.1.2 x.2.

(** Another process runs. *)
Definition run_process (pm : Z) (s : sys) : sys := mkSys A D (caches s) (mems s) (local_state s) pm.
Lemma rep_process s pm σ ε α : rep s σ ε α → rep (run_process pm s) σ ε α.
Proof. intros []. by split. Qed.

(** After an operation the hierarchy is coherent, and it ended after it began. *)
Definition sound (cyc : Z) (r : Z) (s : sys) : Prop := (∃ σ ε α, rep s σ ε α ∧ coh σ ε) ∧ cyc ≤ r.

Lemma replace_runs fuel p v idx isLoad cyc instrs x s σ ε α :
  (2 * H ≤ fuel)%nat → filtered p (Z.lor (procMask s) v) isLoad x → 0 ≤ idx ≤ x.1.1 → rep s σ ε α → coh σ ε →
  runs (replace fuel p v idx isLoad cyc instrs) (sound cyc) s.
Proof.
  intros Hf ((n&Hn&Hx)&Hl) Hidx Hr Hc. apply runs_bind. eapply runs_filter_of; [done..|]. intros c f _ _ <- _.
  apply runs_bind. eexists _, s. split; [done|]. eapply runs_then; [by eapply core_access_runs|].
  intros r s' (σ'&ε'&α'&Hr'&Hc'&Hcyc&_).
  destruct (rep_cache _ _ _ _ _ _ _ _ Hr' Hn) as (c'&Hcc&Hnode). rewrite <-Hnode in Hx. simpl in Hx.
  destruct (l0 c') as [f'|] eqn:El; [|done]. injection Hx as E1 E2 E3.
  pose proof (ck_filter _ (rep_ok _ _ _ _ _ _ Hr' p c' Hcc) f' El) as Hfit.
  destruct (fill_fits v idx isLoad r f' Hfit) as (f2&E&Hf2&Hn2).
  { destruct Hfit as (k&_&Hm&->). simpl in Hidx. lia. }
  apply runs_bind. eapply runs_upd_filter; [exact Hr'|exact Hcc|exact El|exact E|exact Hf2|exact Hn2|].
  intros s2 Hr2. apply runs_ret. split; [by exists σ', ε', α'|done].
Qed.

Lemma load_runs fuel bits p vAddr cyc instrs x s σ ε α :
  (2 * H ≤ fuel)%nat → filtered p (Z.lor (procMask s) (Z.shiftr vAddr bits)) true x → rep s σ ε α → coh σ ε →
  runs (load fuel bits p vAddr cyc instrs) (sound cyc) s.
Proof.
  intros Hf Hl Hr Hc. pose proof Hl as ((n&Hn&Hx)&_). apply runs_bind. eapply runs_filter_of; [done..|].
  intros c f Hcc El Hfx Hfit. destruct (fits_index f (Z.shiftr vAddr bits) Hfit) as [_ Hi].
  destruct (zlookup_is_Some _ _ Hi) as [e He]. cbv zeta. apply runs_bind. eapply runs_lift; [exact He|].
  destruct (_ =? FilterCache.rdAddr e).
  - apply runs_bind. eapply runs_upd_filter; [exact Hr|exact Hcc|exact El|done|exact Hfit|done|].
    intros s' Hr'. apply runs_ret. split; [by exists σ, ε, α|lia].
  - eapply replace_runs; [done..| |done|done]. rewrite <-Hfx. simpl. destruct Hfit as (k&_&->&Hlen). lia.
Qed.

Lemma store_runs fuel bits p vAddr cyc instrs x s σ ε α :
  (2 * H ≤ fuel)%nat → filtered p (Z.lor (procMask s) (Z.shiftr vAddr bits)) false x → rep s σ ε α → coh σ ε →
  runs (store fuel bits p vAddr cyc instrs) (sound cyc) s.
Proof.
  intros Hf Hl Hr Hc. pose proof Hl as ((n&Hn&Hx)&_). apply runs_bind. eapply runs_filter_of; [done..|].
  intros c f Hcc El Hfx Hfit. destruct (fits_index f (Z.shiftr vAddr bits) Hfit) as [_ Hi].
  destruct (zlookup_is_Some _ _ Hi) as [e He]. cbv zeta. apply runs_bind. eapply runs_lift; [exact He|].
  destruct (_ =? FilterCache.wrAddr e).
  - apply runs_bind. eapply runs_upd_filter; [exact Hr|exact Hcc|exact El|done|exact Hfit|done|].
    intros s' Hr'. apply runs_ret. split; [by exists σ, ε, α|lia].
  - eapply replace_runs; [done..| |done|done]. rewrite <-Hfx. simpl. destruct Hfit as (k&_&->&Hlen). lia.
Qed.

Lemma switch_runs p n x s σ ε α :
  net !! p = Some n → nd_filter n = Some x → rep s σ ε α → runs (contextSwitch p) (λ _ s', rep s' σ ε α) s.
Proof.
  intros Hn Hx Hr. destruct (rep_cache _ _ _ _ _ _ _ _ Hr Hn) as (c&Hcc&Hnode). rewrite <-Hnode in Hx. simpl in Hx.
  destruct (l0 c) as [f|] eqn:El; [|done]. pose proof (ck_filter _ (rep_ok _ _ _ _ _ _ Hr p c Hcc) f El) as (k&?&?&?).
  eapply runs_upd_filter; [exact Hr|exact Hcc|exact El|done| |done|by intros s']. exists k. simpl. by rewrite length_map.
Qed.

(** *** Reachable states *)
(** A system of empty caches. *)
Record fresh (s : sys) : Prop := {
  fr_net : node_of <$> caches s = net;
  fr_mems : memory (mems s);
  fr_cache i c : caches s !! i = Some c →
    array_ok (Z.of_nat (length (bcc c))) (array c) ∧ bcc c = replicate (length (bcc c)) StI ∧
    tcc c = replicate (if terminal c then 0%nat else length (bcc c)) clear;
  fr_filter i c f : caches s !! i = Some c → l0 c = Some f → fits f
}.

Inductive reachable (s0 : sys) : sys → Prop :=
  | reachable_start : reachable s0 s0
  | reachable_access s fuel p a isLoad cyc core fl instrs r s' :
      reachable s0 s → legal p a isLoad core fl → (2 * H ≤ fuel)%nat →
      core_access fuel p a isLoad cyc core fl instrs s = Some (r, s') → reachable s0 s'
  | reachable_load s fuel bits p vAddr cyc instrs x r s' :
      reachable s0 s → filtered p (Z.lor (procMask s) (Z.shiftr vAddr bits)) true x → (2 * H ≤ fuel)%nat →
      load fuel bits p vAddr cyc instrs s = Some (r, s') → reachable s0 s'
  | reachable_store s fuel bits p vAddr cyc instrs x r s' :
      reachable s0 s → filtered p (Z.lor (procMask s) (Z.shiftr vAddr bits)) false x → (2 * H ≤ fuel)%nat →
      store fuel bits p vAddr cyc instrs s = Some (r, s') → reachable s0 s'
  | reachable_switch s p n x s' :
      reachable s0 s → net !! p = Some n → nd_filter n = Some x → contextSwitch p s = Some (tt, s') → reachable s0 s'
  | reachable_process s pm : reachable s0 s → reachable s0 (run_process pm s).

Lemma replicate_zlookup {X} (x : X) m id y : zlookup (replicate m x) id = Some y → y = x.
Proof. unfold zlookup. destruct (id <? 0); [done|]. by intros [-> _]%lookup_replicate. Qed.

Lemma fresh_rep s : fresh s → ∃ α, rep s (λ _ _, StI) (λ _ _, clear) α ∧ coh (λ _ _, StI) (λ _ _, clear).
Proof.
  intros Hf. exists (λ i, array <$> caches s !! i). split.
  - assert (∀ i c, caches s !! i = Some c → (∀ id x, zlookup (bcc c) id = Some x → x = StI) ∧
      (∀ id e, zlookup (tcc c) id = Some e → e = clear)) as Hz.
    { intros i c Hc. destruct (fr_cache s Hf i c Hc) as (_&->&->). split; intros ??; by apply replicate_zlookup. }
    split; try apply Hf.
    + intros i c Hc. destruct (fr_cache s Hf i c Hc) as (Ha&_&Ht). destruct (Hz i c Hc) as [Hz1 Hz2].
      split; [done| | | |intros f; by apply (fr_filter s Hf i)].
      * by rewrite Ht, length_replicate.
      * intros id x Hx%Hz1. done.
      * intros id e ->%Hz2 _. apply empty_clear.
    + intros i c a Hc. destruct (Hz i c Hc) as [Hz1 _]. unfold St1. destruct (find _ _) as [id|]; [|done]. simpl.
      destruct (zlookup (bcc c) id) as [x|] eqn:E; [|done]. by apply Hz1 in E.
    + intros i c a Hc. destruct (Hz i c Hc) as [_ Hz2]. unfold En1. destruct (find _ _) as [id|]; [|done]. simpl.
      destruct (zlookup (tcc c) id) as [x|] eqn:E; [|done]. by apply Hz2 in E.
    + intros i c Hc. by rewrite Hc.
  - split; [|done]. intros p a _. apply link_none; [apply empty_clear|]. intros k x (c&_&->)%kids_lookup. by case_decide.
Qed.

Lemma reachable_rep s0 s : fresh s0 → reachable s0 s → ∃ σ ε α, rep s σ ε α ∧ coh σ ε.
Proof.
  intros Hf. assert (∀ s (m : M sys Z) cyc r s', runs m (sound cyc) s → m s = Some (r, s') → ∃ σ ε α, rep s' σ ε α ∧ coh σ ε) as Hs.
  { intros s1 m cyc r s2 (r'&s3&E'&Hs&_) E. rewrite E in E'. by injection E' as <- <-. }
  induction 1 as [|s fuel p a isLoad cyc core fl instrs r s' _ (σ&ε&α&Hr&Hc) Hl Hfu E
    |s fuel bits p vAddr cyc instrs x r s' _ (σ&ε&α&Hr&Hc) Hl Hfu E
    |s fuel bits p vAddr cyc instrs x r s' _ (σ&ε&α&Hr&Hc) Hl Hfu E
    |s p n x s' _ (σ&ε&α&Hr&Hc) Hn Hx E
    |s pm _ (σ&ε&α&Hr&Hc)].
  - destruct (fresh_rep s0 Hf) as (α&?&?). eauto.
  - destruct (core_access_runs fuel p a isLoad cyc core fl instrs s σ ε α Hfu Hl Hr Hc) as (r'&s2&E'&σ'&ε'&α'&?&?&_).
    rewrite E in E'. injection E' as <- <-. eauto.
  - eapply Hs; [by eapply load_runs|exact E].
  - eapply Hs; [by eapply store_runs|exact E].
  - destruct (switch_runs p n x s σ ε α Hn Hx Hr) as ([]&s2&E'&Hr'). rewrite E in E'. injection E' as <-. eauto.
  - exists σ, ε, α. split; [by apply rep_process|done].
Qed.

Lemma rep_state_of s σ ε α i a : rep s σ ε α → is_Some (net !! i) → state_of s i a = σ i a.
Proof.
  intros Hr [n Hn]. destruct (rep_cache _ _ _ _ _ _ _ _ Hr Hn) as (c&Hc&_). unfold state_of. rewrite Hc. by eapply rep_st.
Qed.

Lemma outside_invalid s σ ε α i a : rep s σ ε α → state_of s i a ≠ StI → is_Some (net !! i).
Proof.
  intros Hr. unfold state_of. destruct (caches s !! i) as [c|] eqn:Hc; [|done]. intros _. by rewrite (rep_node _ _ _ _ _ _ i c Hr Hc).
Qed.

(** Terminal caches are not above others. *)
Lemma terminal_below p n a j : net !! p = Some n → nd_terminal n = true → below net a p j → j = p.
Proof.
  intros Hn Ht Hb. destruct (decide (j = p)) as [|Hne]; [done|]. destruct (below_child net a p j Hb Hne) as (c&Hp&_).
  destruct (child_index net lvl Hnet c p a Hp) as (k&_&_&_&Hk). by rewrite (terminal_children net lvl Hnet p n Hn Ht) in Hk.
Qed.

(** C20: the accesses of the cores succeed, whatever was accessed before: with
    enough levels of recursion an access returns (no assertion of the coherence
    controllers fails and no index is out of range), not before its cycle; a
    load that is not a prefetch leaves the line valid in the first-level cache,
    and a store leaves it modified there and in no other first-level cache. *)
Theorem zsim_access_granted s0 s p a isLoad core fl fuel cyc instrs :
  fresh s0 → reachable s0 s → legal p a isLoad core fl → (2 * H ≤ fuel)%nat →
  ∃ r s', core_access fuel p a isLoad cyc core fl instrs s = Some (r, s') ∧ cyc ≤ r ∧
    (isLoad = true → flag_set fl PREFETCH = false → state_of s' p a ≠ StI) ∧
    (isLoad = false → state_of s' p a = StM ∧
       ∀ j n, j ≠ p → net !! j = Some n → nd_terminal n = true → state_of s' j a = StI).
Proof.
  intros Hf Hre Hl Hfu. destruct (reachable_rep s0 s Hf Hre) as (σ&ε&α&Hr&Hc).
  destruct (core_access_runs fuel p a isLoad cyc core fl instrs s σ ε α Hfu Hl Hr Hc) as (r&s'&E&σ'&ε'&α'&Hr'&Hc'&Hcyc&Hs).
  destruct Hl as ((n&Hn&Ht)&_). assert (is_Some (net !! p)) as Hpn by (by rewrite Hn). exists r, s'. rewrite (rep_state_of s' σ' ε' α' p a Hr' Hpn). split_and!; [done|done| |].
  - intros -> Hpf. simpl in Hs. destruct Hs as [|Hs]; [done|congruence].
  - intros ->. simpl in Hs. split; [done|]. intros j nj Hj Hnj Htj. assert (is_Some (net !! j)) as Hjn by (by rewrite Hnj).
    rewrite (rep_state_of s' σ' ε' α' j a Hr' Hjn). destruct (decide (σ' j a = StI)) as [|Hv]; [done|]. destruct Hj.
    destruct (coh_single_writer net lvl Hnet admits σ' ε' a p j Hc' Hpn Hjn) as [Hb|Hb]; [rewrite Hs; by right|done| |].
    + by eapply terminal_below.
    + symmetry. by eapply terminal_below.
Qed.

(** C21: coherence, single writer or multiple readers: in every state the
    accesses of the cores can reach, if a cache holds a line with exclusive
    rights then every other cache that holds it is above it or below it; two
    first-level caches never hold a line one of them may write. *)
Theorem zsim_single_writer s0 s i j a :
  fresh s0 → reachable s0 s → excl (state_of s i a) → state_of s j a ≠ StI →
  (below net a i j ∨ below net a j i) ∧
  (∀ n n', net !! i = Some n → net !! j = Some n' → nd_terminal n = true → nd_terminal n' = true → i = j).
Proof.
  intros Hf Hre Hx Hv. destruct (reachable_rep s0 s Hf Hre) as (σ&ε&α&Hr&Hc).
  pose proof (outside_invalid s σ ε α i a Hr (excl_valid _ Hx)) as Hi. pose proof (outside_invalid s σ ε α j a Hr Hv) as Hj.
  rewrite (rep_state_of s σ ε α i a Hr Hi) in Hx. rewrite (rep_state_of s σ ε α j a Hr Hj) in Hv.
  pose proof (coh_single_writer net lvl Hnet admits σ ε a i j Hc Hi Hj Hx Hv) as Hb. split; [done|].
  intros n n' Hn Hn' Ht Ht'. destruct Hb as [Hb|Hb]; [symmetry; by eapply terminal_below|by eapply terminal_below].
Qed.

(** The entry of sharers of an address. *)
Definition entry_of (s : sys) (i : nat) (a : Z) : Entry := match caches s !! i with Some c => En1 c a | None => clear end.

(** C22: inclusion and an exact directory: in every reachable state the sharers a
    cache notes for a line are exactly the children that hold it, counted by
    [numSharers]; a child's line is in its parent, which has exclusive rights if
    the child has, and notes it as the only sharer then. *)
Theorem zsim_directory_exact s0 s p n a :
  fresh s0 → reachable s0 s → net !! p = Some n →
  numSharers (entry_of s p a) = zcount (sharers (entry_of s p a)) ∧
  ∀ k c, nd_children n !! k = Some c → parent_of net c a = Some (CacheObj p) →
    (sharers (entry_of s p a) !! k = Some true ↔ state_of s c a ≠ StI) ∧
    (state_of s c a ≠ StI → state_of s p a ≠ StI) ∧
    (excl (state_of s c a) → excl (state_of s p a) ∧ isExclusive (entry_of s p a) = true).
Proof.
  intros Hf Hre Hn. destruct (reachable_rep s0 s Hf Hre) as (σ&ε&α&Hr&Hc). assert (is_Some (net !! p)) as Hp by (by rewrite Hn).
  destruct (rep_cache _ _ _ _ _ _ _ _ Hr Hn) as (cp&Hcp&_).
  assert (entry_of s p a = ε p a) as -> by (unfold entry_of; rewrite Hcp; by eapply rep_en).
  pose proof (coh_links _ _ _ _ Hc p a Hp) as L. split; [apply L|]. intros k c Hk Hpar.
  assert (is_Some (net !! c)) as Hcn by (by eapply parent_some). rewrite (rep_state_of s σ ε α c a Hr Hcn), (rep_state_of s σ ε α p a Hr Hp).
  assert (kids net σ p a !! k = Some (σ c a)) as Hkid.
  { apply kids_lookup. exists c. split; [unfold children_of; by rewrite Hn|]. by rewrite decide_True. }
  split_and!.
  - rewrite (lk_bit _ _ _ L). split; [intros (x&Hx&?); congruence|eauto].
  - intros Hv. by eapply (lk_incl _ _ _ L).
  - intros Hx. destruct (lk_excl _ _ _ L k _ Hkid Hx). done.
Qed.

End Hierarchy.
End Theorems.

(** ** A system: two first-level caches, a second level, a memory *)
Module Example_system.
Import SetAssoc LRU SimpleMemory.
Abbreviation asys := (Sys (SetAssoc LRU) SimpleMemory).

(** Four lines of two ways, eight for the second level. *)
Definition set_array_of (n : Z) : SetAssoc LRU :=
  default (mkSetAssoc [] (LRU.new false 0) (λ _ x, Z.abs x) 0 0 0 0) (SetAssoc.new n 2 (LRU.new false n) (λ _ x, Z.abs x)).
Definition empty_cache (terminal : bool) (self : Z) (parents : list MemObject) (children : list nat) (n : Z) : ZCache (SetAssoc LRU) :=
  mkZCache (SetAssoc LRU) terminal false self parents [3] (replicate (Z.to_nat n) StI) (λ _, 0) children (map (λ _, 3) children)
    (replicate (if terminal then 0%nat else Z.to_nat n) clear) (set_array_of n) 4 2
    (if terminal then Some (FilterCache.setSourceId self (FilterCache.new (n `quot` 2))) else None).
Definition system : asys :=
  mkSys _ _ [empty_cache true 0 [CacheObj 2] [] 4; empty_cache true 1 [CacheObj 2] [] 4; empty_cache false 0 [MemObj 0] [0%nat; 1%nat] 8]
    [mkSimpleMemory 100] StI 0.
Definition sys_net : list Node := node_of <$> caches system.
Definition sys_lvl (i : nat) : nat := if decide (i = 2%nat) then 1 else 0.

Lemma sys_cases i n : sys_net !! i = Some n → i = 0%nat ∨ i = 1%nat ∨ i = 2%nat.
Proof. destruct i as [|[|[|i]]]; auto. by intros Hn%lookup_lt_Some; simpl in Hn; lia. Qed.

Lemma sys_net_ok : net_ok sys_net sys_lvl 1.
Proof.
  split.
  - intros i n Hn. destruct (sys_cases i n Hn) as [->|[->| ->]]; by injection Hn as <-.
  - intros i n Hn. destruct (sys_cases i n Hn) as [->|[->| ->]]; injection Hn as <-; simpl; split_and!; try lia; try done; repeat constructor; lia.
  - intros i n Hn. destruct (sys_cases i n Hn) as [->|[->| ->]]; by injection Hn as <-.
  - intros i n p Hn Hp. destruct (sys_cases i n Hn) as [->|[->| ->]]; injection Hn as <-; simpl in Hp; apply list_elem_of_singleton in Hp; simplify_eq.
    + by eexists.
    + by eexists.
  - intros p np k c Hnp Hc. destruct (sys_cases p np Hnp) as [->|[->| ->]]; injection Hnp as <-; simpl in Hc; [done|done|].
    destruct k as [|[|k]]; simpl in Hc; simplify_eq; (eexists; split; [reflexivity|]; simpl; split_and!; [done|by left|vm_compute; lia]).
  - intros i n j Hn Hj. destruct (sys_cases i n Hn) as [->|[->| ->]]; injection Hn as <-; simpl in Hj; apply list_elem_of_singleton in Hj; simplify_eq. lia.
  - intros p np k k' c c' n n' Hnp Hc Hc' Hn Hn'. destruct (sys_cases p np Hnp) as [->|[->| ->]]; injection Hnp as <-; simpl in Hc, Hc'; [done|done|].
    destruct k as [|[|k]], k' as [|[|k']]; simpl in Hc, Hc'; try done; injection Hc as <-; injection Hc' as <-; injection Hn as <-; injection Hn' as <-; done.
  - intros i n Hn. destruct (sys_cases i n Hn) as [->|[->| ->]]; injection Hn as <-; simpl; unfold MAX_CACHE_CHILDREN; lia.
  - intros i n Hn Ht. destruct (sys_cases i n Hn) as [->|[->| ->]]; by injection Hn as <-.
  - intros a i i' j j' Hi Hi' _ _.
    destruct (parent_elem sys_net i a _ Hi) as (n&Hn&Hin). destruct (parent_elem sys_net i' a _ Hi') as (n'&Hn'&Hin').
    destruct (sys_cases i n Hn) as [->|[->| ->]]; injection Hn as <-; simpl in Hin; apply list_elem_of_singleton in Hin; simplify_eq.
    destruct (sys_cases i' n' Hn') as [->|[->| ->]]; injection Hn' as <-; simpl in Hin'; apply list_elem_of_singleton in Hin'; by simplify_eq.
Qed.

Lemma sys_levels i : is_Some (sys_net !! i) → (sys_lvl i < 2)%nat.
Proof. intros [n Hn]. destruct (sys_cases i n Hn) as [->|[->| ->]]; vm_compute; lia. Qed.

Lemma sys_array_ok n : n = 4 ∨ n = 8 → SetAssoc.ok n (set_array_of n).
Proof.
  intros Hn. apply (SetAssoc.new_ok n 2 (LRU.new false n) (λ _ x, Z.abs x)); [by destruct Hn as [-> | ->]|done|lia| |].
  - destruct Hn as [-> | ->]; done.
  - intros x id. apply Z.abs_nonneg.
Qed.

Lemma system_fresh : fresh sys_net (nm := 1) system.
Proof.
  assert (∀ i c, caches system !! i = Some c → i = 0%nat ∨ i = 1%nat ∨ i = 2%nat) as Hi.
  { intros i c Hc. apply (sys_cases i (node_of c)). unfold sys_net. by rewrite list_lookup_fmap, Hc. }
  split; [done|split; [done|by repeat constructor]| |].
  - intros i c Hc. destruct (Hi i c Hc) as [->|[->| ->]]; injection Hc as <-; (split; [apply sys_array_ok; auto|done]).
  - intros i c f Hc Hf. destruct (Hi i c Hc) as [->|[->| ->]]; injection Hc as <-; simplify_eq/=; by exists 1.
Qed.

Lemma system_legal p isLoad a : p = 0%nat ∨ p = 1%nat → legal sys_net p a isLoad 0 0.
Proof. intros Hp. split_and!; [|done|done|by right]. destruct Hp as [-> | ->]; by eexists. Qed.

(** Both cores load a line, then the first stores to it. *)
Definition after (s : asys) (p : nat) (isLoad : bool) : asys :=
  snd (default (0, s) (core_access 4 p 5 isLoad 10 0 0 0 s)).
Definition shared_state : asys := after (after system 0 true) 1 true.
Definition owned_state : asys := after shared_state 0 false.

Lemma after_reachable s p isLoad :
  p = 0%nat ∨ p = 1%nat → reachable sys_net 2 system s → is_Some (core_access 4 p 5 isLoad 10 0 0 0 s) →
  reachable sys_net 2 system (after s p isLoad).
Proof.
  intros Hp Hs [[r s'] E]. unfold after. rewrite E. eapply (reachable_access sys_net 2 system s 4 p 5 isLoad 10 0 0 0); [done| |lia|exact E].
  by apply system_legal.
Qed.

Lemma shared_reachable : reachable sys_net 2 system shared_state.
Proof.
  apply after_reachable; [by right| |vm_compute; eauto]. apply after_reachable; [by left|constructor|vm_compute; eauto].
Qed.
Lemma owned_reachable : reachable sys_net 2 system owned_state.
Proof. apply after_reachable; [by left|apply shared_reachable|vm_compute; eauto]. Qed.

(** The second core takes the line from the first. *)
Lemma zsim_access_granted_witness :
  state_of owned_state 0 5 = StM ∧
  ∃ r s', core_access 4 1 5 false 20 0 0 0 owned_state = Some (r, s') ∧ 20 ≤ r ∧ state_of s' 1 5 = StM ∧ state_of s' 0 5 = StI.
Proof.
  split; [by vm_compute|].
  destruct (zsim_access_granted sys_net sys_lvl 2 sys_net_ok sys_levels system owned_state 1 5 false 0 0 4 20 0
    system_fresh owned_reachable (system_legal 1 false 5 (or_intror eq_refl)) (le_n 4)) as (r&s'&E&Hr&_&Hst).
  destruct (Hst eq_refl) as [H1 H2]. exists r, s'. split_and!; [exact E|exact Hr|exact H1|]. by apply (H2 0%nat (node_of (empty_cache true 0 [CacheObj 2] [] 4))).
Defined.

Lemma zsim_single_writer_witness :
  state_of owned_state 0 5 = StM ∧ (below sys_net 5 0 2 ∨ below sys_net 5 2 0).
Proof.
  assert (state_of owned_state 0 5 = StM) as Hm by by vm_compute. split; [exact Hm|].
  apply (zsim_single_writer sys_net sys_lvl 2 sys_net_ok sys_levels system owned_state 0 2 5 system_fresh owned_reachable).
  - rewrite Hm. by right.
  - by vm_compute.
Defined.

Lemma zsim_directory_exact_witness :
  sharers (entry_of shared_state 2 5) !! 1%nat = Some true ∧ state_of shared_state 1 5 = StS.
Proof.
  assert (state_of shared_state 1 5 = StS) as Hs by by vm_compute. split; [|exact Hs].
  apply (proj2 (zsim_directory_exact sys_net sys_lvl 2 sys_net_ok sys_levels system shared_state 2
    (node_of (empty_cache false 0 [MemObj 0] [0%nat; 1%nat] 8)) 5 system_fresh shared_reachable eq_refl) 1%nat 1%nat eq_refl eq_refl).
  by rewrite Hs.
Defined.

End Example_system.
