(* ===== verification/ZsimFilter.v ===== *)
(** * The filters of the first-level caches are sound

    A [FilterCache] answers loads and stores from an array of its own, without
    asking the cache behind it.  [kpost] is partial correctness of the
    operations of [ZsimCoherence.v]: what they may do to a first-level cache
    while they serve another one.  They take a line from it, or its rights, only
    together with the entry of the filter ([ckeeps]).  With the theorems on the
    hierarchy this shows that an answer of a filter is one the cache would
    give. *)

From S2P Require Import Prelude ZsimMem ZsimRepl ZsimArray ZsimCoherence ZsimInv ZsimDown ZsimGrant ZsimAccess ZsimMemCtrl ZsimTheorems.
Import FilterCache.
#[local] Existing Instances SetAssoc.SetAssoc_array SetAssoc.SetAssoc_laws.

Section Keeps.
Context {P D : Type} `{!ReplPolicy P} `{!ReplLaws P} `{!MemController D}.
Abbreviation arr := (SetAssoc.SetAssoc P).
Abbreviation sys := (Sys arr D).
Variable net : list Node.
Variable lvl : nat → nat.
Context {nm : nat} (Hnet : net_ok net lvl nm).

(** The filter of a cache has the address. *)
Definition holds (pm : Z) (c : ZCache arr) (a : Z) : Prop :=
  ∃ f e, l0 c = Some f ∧ zlookup (filterArray f) (index f a) = Some e ∧ rdAddr e ≠ NO_LINE ∧ Z.lor (rdAddr e) pm = a.

(** A filter loses entries only. *)
Definition fkeeps (o o' : option FilterCache) : Prop :=
  match o, o' with
  | Some f, Some f' => filter_node f' = filter_node f ∧
      ∀ i e', zlookup (filterArray f') i = Some e' →
        zlookup (filterArray f) i = Some e' ∨ rdAddr e' = NO_LINE ∧ wrAddr e' = NO_LINE
  | None, None => True
  | _, _ => False
  end.

Lemma fkeeps_refl o : fkeeps o o.
Proof. destruct o; simpl; auto. Qed.
Lemma fkeeps_trans o o' o'' : fkeeps o o' → fkeeps o' o'' → fkeeps o o''.
Proof.
  destruct o as [f|], o' as [f'|], o'' as [f''|]; simpl; try tauto. intros [E H] [E' H']. split; [congruence|].
  intros i e [He|He]%H'; [by apply H|by right].
Qed.

Lemma holds_keeps pm c c' a : fkeeps (l0 c) (l0 c') → holds pm c' a → holds pm c a.
Proof.
  intros Hk (f'&e&Hf'&He&Hne&Ha). rewrite Hf' in Hk. destruct (l0 c) as [f|] eqn:Hf; [|done]. destruct Hk as [E Hk].
  exists f, e. split_and!; try done. unfold index in *. injection E as Em _ _. rewrite Em in He. by destruct (Hk _ _ He) as [|[]].
Qed.

(** Arrays of the same sets. *)
Definition geo (a' a : arr) : Prop :=
  SetAssoc.hf a' = SetAssoc.hf a ∧ SetAssoc.setMask a' = SetAssoc.setMask a ∧ SetAssoc.assoc a' = SetAssoc.assoc a.
Lemma geo_trans a1 a2 a3 : geo a1 a2 → geo a2 a3 → geo a1 a3.
Proof. unfold geo. intuition congruence. Qed.
Lemma geo_lines x a' a : geo a' a → SetAssoc.set_lines x a' = SetAssoc.set_lines x a.
Proof. unfold SetAssoc.set_lines. by intros (->&->&->). Qed.

(** What happens to a first-level cache; the lines in [X] may change. *)
Record ckeeps (X : Z → Prop) (pm : Z) (c c' : ZCache arr) : Prop := {
  kp_filter : fkeeps (l0 c) (l0 c');
  kp_array n : array_ok n (array c) → array_ok n (array c') ∧ geo (array c') (array c);
  kp_find a : find (array c') a = find (array c) a;
  kp_line a id : find (array c) a = Some id → ¬ X id → zlookup (bcc c') id = zlookup (bcc c) id ∨ ¬ holds pm c' a
}.

Lemma ckeeps_refl X pm c : ckeeps X pm c c.
Proof. split; [apply fkeeps_refl|done|done|auto]. Qed.

Lemma ckeeps_trans X pm c1 c2 c3 : ckeeps X pm c1 c2 → ckeeps X pm c2 c3 → ckeeps X pm c1 c3.
Proof.
  intros H1 H2. split.
  - eapply fkeeps_trans; [apply H1|apply H2].
  - intros n Hn. destruct (kp_array _ _ _ _ H1 n Hn) as (Hn'&Hg). destruct (kp_array _ _ _ _ H2 n Hn') as [? Hg'].
    split; [done|by eapply geo_trans].
  - intros a. by rewrite (kp_find _ _ _ _ H2), (kp_find _ _ _ _ H1).
  - intros a id Hf Hx. destruct (kp_line _ _ _ _ H1 a id Hf Hx) as [<-|Hb].
    + apply (kp_line _ _ _ _ H2 a id); [by rewrite (kp_find _ _ _ _ H1)|done].
    + right. contradict Hb. eapply holds_keeps; [apply H2|done].
Qed.

(** The same arrays and filter. *)
Lemma ckeeps_same X pm c c' :
  l0 c' = l0 c → array c' = array c → (∀ id, ¬ X id → zlookup (bcc c') id = zlookup (bcc c) id) → ckeeps X pm c c'.
Proof. intros El Ea Hb. split; rewrite ?El, ?Ea; [apply fkeeps_refl|done|done|]. intros a id Hf Hx. auto. Qed.

(** Systems. *)
Record sysok (s : sys) : Prop := {
  so_net : node_of <$> caches s = net;
  so_array i c : caches s !! i = Some c → terminal c = true → array_ok (Z.of_nat (length (bcc c))) (array c)
}.

Abbreviation lines := (nat → Z → Prop).
Record keeps (X : lines) (s s' : sys) : Prop := {
  ks_mask : procMask s' = procMask s;
  ks_net : node_of <$> caches s' = node_of <$> caches s;
  ks_cache i c c' : caches s !! i = Some c → caches s' !! i = Some c' → terminal c = true → ckeeps (X i) (procMask s) c c'
}.

Lemma node_fields (s s' : sys) i (c' : ZCache arr) :
  node_of <$> caches s' = node_of <$> caches s → caches s' !! i = Some c' → ∃ c, caches s !! i = Some c ∧ node_of c' = node_of c.
Proof.
  intros E Hc. assert ((node_of <$> caches s) !! i = Some (node_of c')) as H by (by rewrite <-E, list_lookup_fmap, Hc).
  rewrite list_lookup_fmap in H. destruct (caches s !! i) as [c|]; [|done]. exists c. split; [done|]. simpl in H. congruence.
Qed.

Lemma keeps_refl X s : keeps X s s.
Proof. split; [done..|]. intros i c c' Hc Hc' _. simplify_eq. apply ckeeps_refl. Qed.

Lemma keeps_trans X s1 s2 s3 : keeps X s1 s2 → keeps X s2 s3 → keeps X s1 s3.
Proof.
  intros H1 H2. split; [by rewrite (ks_mask _ _ _ H2), (ks_mask _ _ _ H1)|by rewrite (ks_net _ _ _ H2), (ks_net _ _ _ H1)|].
  intros i c c'' Hc Hc'' Ht. destruct (node_fields s2 s3 i c'' (ks_net _ _ _ H2) Hc'') as (c'&Hc'&_).
  destruct (node_fields s1 s2 i c' (ks_net _ _ _ H1) Hc') as (d&Hd&E). assert (d = c) as -> by congruence.
  eapply ckeeps_trans; [by apply (ks_cache _ _ _ H1 i c c')|]. rewrite <-(ks_mask _ _ _ H1).
  apply (ks_cache _ _ _ H2 i c' c''); [done..|]. injection E as Et. congruence.
Qed.

Lemma keeps_sysok X s s' : keeps X s s' → sysok s → sysok s'.
Proof.
  intros H [Hn Ha]. split; [by rewrite (ks_net _ _ _ H)|]. intros i c' Hc' Ht.
  destruct (node_fields s s' i c' (ks_net _ _ _ H) Hc') as (c&Hc&E). injection E as Et _ _ _ _ _ _ _ _ Hl _.
  rewrite Et in Ht. replace (length (bcc c')) with (length (bcc c)) by lia.
  apply (kp_array _ _ _ _ (ks_cache _ _ _ H i c c' Hc Hc' Ht)). by apply (Ha i).
Qed.

Lemma keeps_mono (X Y : lines) s s' : (∀ i c id, caches s !! i = Some c → terminal c = true → X i id → Y i id) → keeps X s s' → keeps Y s s'.
Proof.
  intros HXY H. split; [apply H..|]. intros i c c' Hc Hc' Ht. destruct (ks_cache _ _ _ H i c c' Hc Hc' Ht) as [Hf Ha Hfi Hl].
  split; [done..|]. intros a id Hfd Hx. apply Hl; [done|]. intros HX. by eapply Hx, HXY.
Qed.

(** ** Partial correctness *)
Definition kpost (X : lines) {T} (m : M sys T) (Q : T → Prop) : Prop :=
  ∀ s r s', sysok s → m s = Some (r, s') → keeps X s s' ∧ Q r.
Definition any {T} : T → Prop := λ _, True.

Lemma kp_bind X {T U} (m : M sys T) (k : T → M sys U) Q R :
  kpost X m Q → (∀ r, Q r → kpost X (k r) R) → kpost X (bind m k) R.
Proof.
  intros Hm Hk s r s' Hs E. unfold bind in E. apply bind_Some in E as ([x s1]&E1&E2).
  destruct (Hm s x s1 Hs E1) as [K1 HQ]. destruct (Hk x HQ s1 r s' (keeps_sysok _ _ _ K1 Hs) E2) as [K2 HR].
  split; [by eapply keeps_trans|done].
Qed.
Lemma kp_post X {T} (m : M sys T) (Q R : T → Prop) : kpost X m Q → (∀ r, Q r → R r) → kpost X m R.
Proof. intros H HQ s r s' Hs E. destruct (H s r s' Hs E). auto. Qed.
Lemma kp_mono (X Y : lines) {T} (m : M sys T) Q :
  (∀ i n id, net !! i = Some n → nd_terminal n = true → X i id → Y i id) → kpost X m Q → kpost Y m Q.
Proof.
  intros HXY H s r s' Hs E. destruct (H s r s' Hs E) as [K HQ]. split; [|done]. eapply keeps_mono; [|done].
  intros i c id Hc Ht. apply (HXY i (node_of c)); [|done]. by rewrite <-(so_net s Hs), list_lookup_fmap, Hc.
Qed.
Lemma kp_ret X {T} (x : T) (Q : T → Prop) : Q x → kpost X (ret x) Q.
Proof. intros HQ s r s' _ [= <- <-]. split; [apply keeps_refl|done]. Qed.
Lemma kp_lift X {T} (o : option T) : kpost X (lift o) (λ x, o = Some x).
Proof. intros s r s' _ E. unfold lift in E. destruct o; [|done]. injection E as <- <-. split; [apply keeps_refl|done]. Qed.
Lemma kp_fail X {T} Q : kpost X (fail : M sys T) Q.
Proof. by intros s r s' _ E. Qed.
Lemma kp_assert X b : kpost X (assertM b) (λ _, b = true).
Proof. destruct b; [by apply kp_ret|apply kp_fail]. Qed.
Lemma kp_gets X {T} (f : sys → T) : kpost X (gets f) any.
Proof. intros s r s' _ [= <- <-]. split; [apply keeps_refl|done]. Qed.
Lemma kp_cache X i : kpost X (cache i) (λ c, net !! i = Some (node_of c)).
Proof.
  intros s r s' Hs E. unfold cache, bind, gets, lift in E. simpl in E. destruct (caches s !! i) as [c|] eqn:Hc; [|done].
  injection E as <- <-. split; [apply keeps_refl|]. by rewrite <-(so_net s Hs), list_lookup_fmap, Hc.
Qed.

(** A change of one cache that keeps its place in the system. *)
Lemma kp_upd X i (f : ZCache arr → option (ZCache arr)) :
  (∀ c c', f c = Some c' → node_of c' = node_of c) →
  (∀ pm c c', f c = Some c' → terminal c = true → array_ok (Z.of_nat (length (bcc c))) (array c) → net !! i = Some (node_of c) → ckeeps (X i) pm c c') →
  kpost X (upd_cache i f) any.
Proof.
  intros Hn Hk s r s' Hs E. split; [|done]. unfold upd_cache, modify in E. apply bind_Some in E as (s1&E&[= <- <-]).
  apply bind_Some in E as (c&Hc&E). apply bind_Some in E as (c'&Hf&[= <-]). pose proof (lookup_lt_Some _ _ _ Hc) as Hlt.
  assert (net !! i = Some (node_of c)) as Hni by (by rewrite <-(so_net s Hs), list_lookup_fmap, Hc).
  split; [done| |].
  - simpl. rewrite list_fmap_insert, (Hn _ _ Hf). apply list_insert_id. by rewrite list_lookup_fmap, Hc.
  - simpl. intros j d d' Hd Hd' Ht. rewrite list_lookup_insert in Hd'. case_decide as Ej.
    + destruct Ej as [-> _]. simplify_eq. apply Hk; [done|done|by eapply (so_array s Hs)|done].
    + simplify_eq. apply ckeeps_refl.
Qed.

(** A cache that is not of the first level. *)
Definition upper (i : nat) : Prop := ∀ n, net !! i = Some n → nd_terminal n = false.

Lemma kp_upd_upper X i (f : ZCache arr → option (ZCache arr)) :
  upper i → (∀ c c', f c = Some c' → node_of c' = node_of c) → kpost X (upd_cache i f) any.
Proof. intros Hu Hn. apply kp_upd; [done|]. intros pm c c' _ Ht _ Hni. specialize (Hu _ Hni). simpl in Hu. congruence. Qed.

Lemma kp_bcc_state X i id : kpost X (bcc_state (D := D) i id) any.
Proof. eapply kp_bind; [apply kp_cache|]. intros c _. eapply kp_post; [apply kp_lift|done]. Qed.
Lemma kp_tcc_entry X i id : kpost X (tcc_entry (D := D) i id) any.
Proof. eapply kp_bind; [apply kp_cache|]. intros c _. eapply kp_post; [apply kp_lift|done]. Qed.

Lemma kp_count X i k x : kpost X (count i k x) any.
Proof.
  apply kp_upd; [by intros c c' [= <-]|]. intros pm c c' [= <-] _ _ _. by apply ckeeps_same.
Qed.
Lemma kp_upd_entry X i id f : kpost X (upd_entry i id f) any.
Proof.
  apply kp_upd.
  - intros c c' E. apply bind_Some in E as (l&_&[= <-]). done.
  - intros pm c c' E _ _ _. apply bind_Some in E as (l&_&[= <-]). by apply ckeeps_same.
Qed.
Lemma kp_set_bcc_state (X : lines) i id x : (∀ n, net !! i = Some n → nd_terminal n = true → X i id) → kpost X (set_bcc_state i id x) any.
Proof.
  intros HX. apply kp_upd.
  - intros c c' E. apply bind_Some in E as (l&El&[= <-]). unfold node_of. simpl. by rewrite (MemoryTraces.upd_child_length _ _ _ _ El).
  - intros pm c c' E Ht _ Hni. apply bind_Some in E as (l&El&[= <-]). apply ckeeps_same; [done..|]. simpl. intros id' Hid'.
    specialize (HX _ Hni Ht). rewrite upd_child_lookup in El. apply bind_Some in El as (y&Hy&[= <-]).
    rewrite zlookup_set by (by eapply zlookup_range). case_decide; [by subst|done].
Qed.
Lemma kp_write_state X p x : (∀ i id n, p = LineState i id → net !! i = Some n → nd_terminal n = true → X i id) → kpost X (write_state p x) any.
Proof.
  intros HX. destruct p as [|i id]; simpl.
  - intros s r s' _ [= <- <-]. split; [|done]. split; [done..|]. simpl. intros j c c' Hc Hc' _. simplify_eq. apply ckeeps_refl.
  - apply kp_set_bcc_state. intros n. by apply HX.
Qed.
Lemma kp_read_state X p : kpost X (read_state (D := D) p) any.
Proof. destruct p; [apply kp_gets|apply kp_bcc_state]. Qed.

(** The object a pointer to a parent may be, and the lines a pointer to a state
    may name. *)
Definition upobj (o : MemObject) : Prop := ∀ p, o = CacheObj p → upper p.
Definition covers (X : lines) (p : StatePtr) : Prop :=
  ∀ i id n, p = LineState i id → net !! i = Some n → nd_terminal n = true → X i id.

Lemma covers_upper X i id : upper i → covers X (LineState i id).
Proof. intros Hu j id' n [= <- <-] Hn Ht. specialize (Hu n Hn). congruence. Qed.

Lemma kp_bcc_parent X i a : kpost X (bcc_parent (D := D) i a) (λ r, upobj r.2).
Proof.
  eapply kp_bind; [apply kp_cache|]. intros me Hn. eapply kp_bind; [apply kp_lift|]. intros q _.
  eapply kp_bind; [apply kp_lift|]. intros o Ho. apply kp_ret. intros p Ep n Hp. simpl in Ep. subst o.
  destruct (net_up _ _ _ Hnet i (node_of me) p Hn) as (np&Hnp&Ht&_).
  { simpl. unfold zlookup in Ho. destruct (q <? 0); [done|]. by eapply list_elem_of_lookup_2. }
  congruence.
Qed.

Create HintDb kp.
(** Runs through a computation; what is left are the steps without a rule. *)
Ltac kp_base :=
  first [ apply kp_cache | apply kp_bcc_state | apply kp_tcc_entry | apply kp_count | apply kp_upd_entry | apply kp_bcc_parent
        | apply kp_gets | apply kp_assert | apply kp_lift | apply kp_read_state | solve [eauto 3 with kp] ].
Ltac kp :=
  lazymatch goal with
  | |- kpost _ (bind _ _) _ =>
    first [eapply kp_bind; [solve [kp_base]|] | eapply (kp_bind _ _ _ any); [kp|]]; intros; kp
  | |- kpost _ (ret _) _ => apply kp_ret; try exact I
  | |- kpost _ fail _ => apply kp_fail
  | |- kpost _ (match ?x with _ => _ end) _ => destruct x eqn:?; kp
  | |- _ => try solve [eapply kp_post; [kp_base|done]]
  end.

(** *** Invalidations *)
Section Down.
Variable inv : nat → InvReq → M sys (Z * bool).
Hypothesis Hinv : ∀ X j req, kpost X (inv j req) any.

Lemma kp_send_loop X i id req cs c : kpost X (send_loop inv i id req cs c) any.
Proof. revert c. induction cs as [|child cs IH]; intros c; cbn [send_loop]; kp.
Qed.
Hint Resolve kp_send_loop : kp.

Lemma kp_sendInvalidates X i a id t cyc src : kpost X (sendInvalidates inv i a id t cyc src) any.
Proof. unfold sendInvalidates. kp. Qed.
Hint Resolve kp_sendInvalidates : kp.

Lemma kp_bcc_processInval (X : lines) i id t : (∀ n, net !! i = Some n → nd_terminal n = true → X i id) → kpost X (bcc_processInval (D := D) i id t) any.
Proof. intros HX. unfold bcc_processInval. pose proof (kp_set_bcc_state X i id) as Hs. kp. Qed.

Lemma kp_finishInvalidate X i req : upper i → kpost X (finishInvalidate inv i req) any.
Proof.
  intros Hu. assert (∀ id, ∀ n, net !! i = Some n → nd_terminal n = true → X i id) as HX.
  { intros id n Hn Ht. specialize (Hu n Hn). congruence. }
  unfold finishInvalidate, cc_processInv, tcc_processInval. pose proof kp_bcc_processInval. kp.
  apply kp_upd_upper; [done|]. by intros c c' [= <-].
Qed.

(** A first-level cache gives up a line. *)
Definition only (i : nat) (id : Z) : lines := λ j id', j = i ∧ id' = id.

Lemma bind_inv {S T U} (m : M S T) (k : T → M S U) s r s' :
  bind m k s = Some (r, s') → ∃ x s1, m s = Some (x, s1) ∧ k x s1 = Some (r, s').
Proof. unfold bind. intros E. apply bind_Some in E as ([x s1]&?&?). eauto. Qed.

Lemma cache_inv i (s : sys) c s' : cache i s = Some (c, s') → s' = s ∧ caches s !! i = Some c.
Proof. unfold cache, bind, gets, lift. simpl. destruct (caches s !! i); [|done]. by intros [= <- <-]. Qed.
Lemma lift_inv {S T} (o : option T) (s : S) x s' : lift o s = Some (x, s') → o = Some x ∧ s' = s.
Proof. unfold lift. destruct o; [|done]. by intros [= <- <-]. Qed.
Lemma assert_inv {S} b (s : S) x s' : assertM b s = Some (x, s') → b = true ∧ s' = s.
Proof. destruct b; [|done]. by intros [= <- <-]. Qed.
Lemma upd_inv i f (s : sys) x s' :
  upd_cache i f s = Some (x, s') → ∃ c c', caches s !! i = Some c ∧ f c = Some c' ∧ s' = set_caches (<[i := c']> (caches s)) s.
Proof.
  unfold upd_cache, modify. intros E. apply bind_Some in E as (s1&E&[= <- <-]).
  apply bind_Some in E as (c&Hc&E). apply bind_Some in E as (c'&Hf&[= <-]). eauto.
Qed.

Lemma set_array_id i (s : sys) c : caches s !! i = Some c → set_caches (<[i := set_array (array c) c]> (caches s)) s = s.
Proof. intros Hc. assert (set_array (array c) c = c) as -> by (by destruct c). rewrite list_insert_id by done. by destruct s. Qed.

(** The operations that leave the array of [i] alone. *)
Definition same_array (i : nat) {T} (m : M sys T) : Prop :=
  ∀ s r s' c, caches s !! i = Some c → m s = Some (r, s') → ∃ c', caches s' !! i = Some c' ∧ array c' = array c.
Lemma sa_bind i {T U} (m : M sys T) (k : T → M sys U) : same_array i m → (∀ x, same_array i (k x)) → same_array i (bind m k).
Proof.
  intros Hm Hk s r s' c Hc E. apply bind_inv in E as (x&s1&E1&E2). destruct (Hm _ _ _ _ Hc E1) as (c1&Hc1&<-). by eapply Hk.
Qed.
Lemma sa_pure i {T} (m : M sys T) : (∀ s r s', m s = Some (r, s') → s' = s) → same_array i m.
Proof. intros H s r s' c Hc ->%H. eauto. Qed.
Lemma sa_upd i j f : (∀ c c', f c = Some c' → array c' = array c) → same_array i (upd_cache j f).
Proof.
  intros Hf s r s' c Hc E. apply upd_inv in E as (d&d'&Hd&E&->). simpl. destruct (decide (j = i)) as [->|Hne].
  - exists d'. rewrite list_lookup_insert_eq by (by eapply lookup_lt_Some). split; [done|]. apply Hf in E. congruence.
  - exists c. by rewrite list_lookup_insert_ne.
Qed.

Lemma sa_processInval i id t : same_array i (bcc_processInval (D := D) i id t).
Proof.
  assert (∀ x, same_array i (ret (T := sys) (X := bool) x)) as Hret by (intros x; apply sa_pure; by intros ??? [= <- <-]).
  assert (∀ b, same_array i (assertM b)) as Has by (intros b; apply sa_pure; intros ???; by destruct b; [intros [= <- <-]|]).
  assert (∀ x, same_array i (set_bcc_state i id x)) as Hset.
  { intros x. apply sa_upd. intros c c' E. by apply bind_Some in E as (l&_&[= <-]). }
  assert (∀ k x, same_array i (count i k x)) as Hcount by (intros; apply sa_upd; by intros ?? [= <-]).
  unfold bcc_processInval. apply sa_bind.
  { apply sa_pure. intros s r s' E. unfold bcc_state in E. apply bind_inv in E as (c&s1&E1&E2).
    apply cache_inv in E1 as [-> _]. by apply lift_inv in E2 as [_ ->]. }
  intros x. apply sa_bind; [done|]. intros _. destruct t; repeat (apply sa_bind; [done|intros ?]); done.
Qed.

Lemma finish_first i req s r s' c :
  sysok s → caches s !! i = Some c → terminal c = true → finishInvalidate inv i req s = Some (r, s') →
  ∃ id c', find (array c) (inv_lineAddr req) = Some id ∧ keeps (only i id) s s' ∧ caches s' !! i = Some c' ∧ array c' = array c.
Proof.
  intros Hs Hc Ht E. unfold finishInvalidate in E. apply bind_inv in E as (c1&s1&E1&E). apply cache_inv in E1 as [-> Hc1].
  assert (c1 = c) as -> by congruence.
  apply bind_inv in E as ([id a]&s1&E1&E). apply lift_inv in E1 as [E1 ->].
  rewrite (lookup_none _ _ (inv_lineAddr req) (so_array s Hs i c Hc Ht)) in E1 by done. injection E1 as <- <-.
  apply bind_inv in E as ([]&s1&E1&E). apply upd_inv in E1 as (c2&c3&Hc2&[= <-]&->). assert (c2 = c) as -> by congruence.
  rewrite set_array_id in E by done. apply bind_inv in E as ([]&s1&E1&E). apply assert_inv in E1 as [Hne ->].
  destruct (SetAssoc.find (array c) (inv_lineAddr req)) as [id|] eqn:Ef; [|by simpl in Hne]. simpl in E.
  unfold cc_processInv in E. apply bind_inv in E as (c1&s1&E1&E). apply cache_inv in E1 as [-> Hc3].
  assert (c1 = c) as -> by congruence. rewrite Ht in E. apply bind_inv in E as (x&s1&[= <- <-]&E).
  apply bind_inv in E as (wb&s1&E1&E). injection E as <- <-.
  destruct (sa_processInval i id (itype req) s wb s1 c Hc E1) as (c'&Hc'&Ha). exists id, c'. split_and!; [done| |done..].
  by apply (kp_bcc_processInval (only i id) i id (itype req) (λ n _ _, conj eq_refl eq_refl) s wb s1 Hs).
Qed.

Lemma filter_first i req s s' x :
  sysok s → filter_invalidate i req s = Some (x, s') →
  keeps (λ _ _, False) s s' ∧ ∃ c, caches s' !! i = Some c ∧ ¬ holds (procMask s) c (inv_lineAddr req).
Proof.
  intros Hs E. unfold filter_invalidate in E. apply bind_inv in E as (pm&s1&[= <- <-]&E). set (a := inv_lineAddr req) in *.
  apply upd_inv in E as (c&c'&Hc&Hf&->). pose proof (lookup_lt_Some _ _ _ Hc) as Hlt.
  assert (node_of c' = node_of c ∧ ckeeps (λ _, False) (procMask s) c c' ∧ ¬ holds (procMask s) c' a) as (Hn&Hk&Hh).
  { destruct (l0 c) as [f|] eqn:El.
    2:{ injection Hf as <-. split_and!; [done|apply ckeeps_refl|]. intros (f&e&Hf&_). congruence. }
    apply bind_Some in Hf as (f'&Hd&[= <-]). unfold drop in Hd. apply bind_Some in Hd as (e&He&Hd).
    pose proof (zlookup_range _ _ _ He) as Hrange. destruct (Z.eqb_spec (Z.lor (rdAddr e) (procMask s)) a) as [Ea|Ea].
    - apply bind_Some in Hd as (l&Hl&[= <-]). erewrite upd_child_set in Hl by done. injection Hl as <-. split_and!.
      + unfold node_of. simpl. by rewrite El.
      + split; [|done|done|auto]. simpl. rewrite El. split; [done|]. intros j e' He'. simpl in He'.
        rewrite zlookup_set in He' by done. case_decide; [by simplify_eq; right|by left].
      + intros (f2&e2&[= <-]&He2&Hne&_). simpl in He2. unfold index in *. simpl in He2.
        rewrite zlookup_set, decide_True in He2 by done. by simplify_eq.
    - injection Hd as <-. split_and!.
      + unfold node_of. simpl. by rewrite El.
      + split; [|done|done|auto]. simpl. rewrite El. split; [done|]. intros j e' He'. by left.
      + intros (f2&e2&[= <-]&He2&Hne&Ha). congruence. }
  split; [split|].
  - done.
  - simpl. rewrite list_fmap_insert, Hn. apply list_insert_id. by rewrite list_lookup_fmap, Hc.
  - simpl. intros j d d' Hd Hd' _. rewrite list_lookup_insert in Hd'. case_decide as Ej.
    + destruct Ej as [-> _]. by simplify_eq.
    + simplify_eq. apply ckeeps_refl.
  - exists c'. split; [|done]. simpl. by apply list_lookup_insert_eq.
Qed.

(** A line that leaves a first-level cache leaves its filter first. *)
Lemma kp_invalidate_step X i req : kpost X (filter_invalidate i req;; finishInvalidate inv i req) any.
Proof.
  intros s r s' Hs E. split; [|done]. apply (keeps_mono (λ _ _, False)); [done|].
  apply bind_inv in E as (x&s1&E1&E). destruct (filter_first i req s s1 x Hs E1) as (K1&c1&Hc1&Hh).
  pose proof (keeps_sysok _ _ _ K1 Hs) as Hs1. eapply keeps_trans; [exact K1|]. destruct (terminal c1) eqn:Ht.
  - destruct (finish_first i req _ r s' c1 Hs1 Hc1 Ht E) as (id&c2&Hid&K2&Hc2&Ha).
    split; [apply K2..|]. intros j d d' Hd Hd' Htd. pose proof (ks_cache _ _ _ K2 j d d' Hd Hd' Htd) as K.
    destruct (decide (j = i)) as [->|Hji]; simplify_eq.
    + split; [apply K..|]. intros b id' Hb _. destruct (decide (id' = id)) as [->|Hne].
      * right. destruct (find_tag _ _ _ _ (so_array _ Hs1 i _ Hc1 Ht) Hb) as [_ Htb].
        destruct (find_tag _ _ _ _ (so_array _ Hs1 i _ Hc1 Ht) Hid) as [_ Hta]. assert (b = inv_lineAddr req) as -> by congruence.
        contradict Hh. rewrite (ks_mask _ _ _ K1) in Hh. eapply holds_keeps; [apply K|done].
      * apply (kp_line _ _ _ _ K b id' Hb). by intros [_ ?].
    + split; [apply K..|]. intros b id' Hb _. apply K; [done|]. by intros [? _].
  - apply (kp_finishInvalidate (λ _ _, False) i req) in E; [apply E| |done]. intros n Hn.
    assert (net !! i = Some (node_of c1)) as Hn' by (by rewrite <-(so_net _ Hs1), list_lookup_fmap, Hc1).
    rewrite Hn in Hn'. by injection Hn' as ->.
Qed.

End Down.

Lemma kp_invalidate fuel X i req : kpost X (invalidate fuel i req) any.
Proof.
  revert X i req. induction fuel as [|fuel IH]; intros X i req; cbn [invalidate]; [apply kp_fail|]. by apply kp_invalidate_step.
Qed.

(** *** Accesses *)
(** The line may change. *)
Definition mine (X : lines) (i : nat) (id : Z) : Prop := ∀ n, net !! i = Some n → nd_terminal n = true → X i id.

Lemma upper_mine X i id : upper i → mine X i id.
Proof. intros Hu n Hn Ht. specialize (Hu n Hn). congruence. Qed.
Lemma mine_covers X i id : mine X i id → covers X (LineState i id).
Proof. intros HX j id' n [= <- <-]. apply HX. Qed.
Lemma only_mine i id : mine (only i id) i id.
Proof. by intros n _ _. Qed.
Hint Resolve upper_mine mine_covers only_mine : kp.

Section Up.
Variable inv : nat → InvReq → M sys (Z * bool).
Hypothesis Hinv : ∀ X j req, kpost X (inv j req) any.
Variable up : MemObject → MemReq → M sys Z.
Hypothesis Hup : ∀ X o req, upobj o → covers X (state req) → kpost X (up o req) any.

Lemma kp_set_line X i id x : mine X i id → kpost X (set_bcc_state i id x) any.
Proof. apply kp_set_bcc_state. Qed.
Hint Resolve kp_set_line kp_write_state kp_sendInvalidates : kp.

Lemma kp_bcc_processEviction X i wb id lw cyc trig : mine X i id → kpost X (bcc_processEviction up i wb id lw cyc trig) any.
Proof.
  intros HX. unfold bcc_processEviction. kp. eapply kp_post; [apply Hup; [done|by apply mine_covers]|done].
Qed.
Lemma kp_fetch X i id t x cyc fl req : mine X i id → kpost X (fetch up i id t x cyc fl req) any.
Proof.
  intros HX. unfold fetch. kp. apply Hup; [done|by apply mine_covers].
Qed.
Hint Resolve kp_fetch : kp.
Lemma kp_bcc_processAccess X i id cyc fl req : mine X i id → kpost X (bcc_processAccess up i id cyc fl req) any.
Proof. intros HX. unfold bcc_processAccess. kp. Qed.
Hint Resolve kp_bcc_processEviction kp_bcc_processAccess : kp.

Lemma kp_remove_sharer X i id c : kpost X (remove_sharer (D := D) i id c) any.
Proof. unfold remove_sharer. kp. Qed.
Hint Resolve kp_remove_sharer : kp.

Lemma kp_tcc_processAccess (X : lines) i a id t ch ex p cyc src fl : covers X p → kpost X (tcc_processAccess inv i a id t ch ex p cyc src fl) any.
Proof. intros HX. pose proof (kp_write_state X p) as Hw. unfold tcc_processAccess. kp. Qed.
Hint Resolve kp_tcc_processAccess : kp.

Lemma kp_cc_processEviction X i trig wb id cyc : mine X i id → kpost X (cc_processEviction inv up i trig wb id cyc) any.
Proof. intros HX. unfold cc_processEviction, tcc_processEviction. kp. Qed.
Hint Resolve kp_cc_processEviction : kp.

Lemma kp_writeback X i id : mine X i id → kpost X (bcc_processWritebackOnAccess (D := D) i id) any.
Proof. intros HX. unfold bcc_processWritebackOnAccess. kp. Qed.
Lemma kp_noninclusive (X : lines) i cyc req : covers X (state req) → kpost X (bcc_processNonInclusiveWriteback up i cyc req) any.
Proof. intros HX. unfold bcc_processNonInclusiveWriteback. kp. Qed.
Hint Resolve kp_writeback kp_noninclusive : kp.

Lemma kp_cc_processLine (X : lines) i req id cyc : upper i → covers X (state req) → kpost X (cc_processLine inv up i req id cyc) any.
Proof. intros Hu HX. pose proof (upper_mine X i id Hu) as Hm. unfold cc_processLine, bcc_isExclusive. kp. Qed.
Hint Resolve kp_cc_processLine : kp.
Lemma kp_cc_processAccess (X : lines) i req id cyc : upper i → covers X (state req) → kpost X (cc_processAccess inv up i req id cyc) any.
Proof. intros Hu HX. pose proof (upper_mine X i id Hu) as Hm. unfold cc_processAccess, bcc_isValid. kp. Qed.
Hint Resolve kp_cc_processAccess : kp.

Lemma kp_set_array X i a : upper i → kpost X (upd_cache i (λ c, Some (set_array a c))) any.
Proof. intros Hu. apply kp_upd_upper; [done|]. by intros c c' [= <-]. Qed.
Hint Resolve kp_set_array : kp.
Lemma kp_allocate X i req cyc : upper i → kpost X (allocate inv up i req cyc) any.
Proof.
  intros Hu. pose proof (λ id, upper_mine X i id Hu) as Hm. unfold allocate. kp.
  apply kp_upd_upper; [done|]. intros c c' E. by apply bind_Some in E as (a&_&[= <-]).
Qed.
Hint Resolve kp_allocate : kp.

Lemma kp_startAccess X (me : ZCache arr) req :
  kpost X (cc_startAccess (D := D) me req) (λ r, state r.2 = state req ∧ lineAddr r.2 = lineAddr req).
Proof.
  unfold cc_startAccess. eapply kp_bind; [apply kp_assert|]. intros _ _. eapply kp_bind; [apply kp_read_state|]. intros x _.
  eapply kp_bind; [apply kp_lift|]. intros [skip t] _. by apply kp_ret.
Qed.

Lemma kp_cache_access (X : lines) i req : upper i → covers X (state req) → kpost X (cache_access inv up i req) any.
Proof.
  intros Hu HX. unfold cache_access. eapply kp_bind; [apply kp_cache|]. intros me _.
  eapply kp_bind; [apply kp_startAccess|]. intros [skip req'] [Hst _]. simpl in Hst. rewrite <-Hst in HX. kp.
Qed.

End Up.

Lemma kp_access fuel (X : lines) o req : upobj o → covers X (state req) → kpost X (access fuel o req) any.
Proof.
  revert X o req. induction fuel as [|fuel IH]; intros X o req Ho HX; cbn [access]; [apply kp_fail|]. destruct o as [i|j].
  - apply kp_cache_access; [intros Y k r; apply kp_invalidate|exact IH|by apply Ho|done].
  - pose proof (kp_write_state X (state req)) as Hw. kp. intros s x s' _ [= <- <-]. split; [|done].
    split; [done..|]. simpl. intros i c c' Hc Hc' _. simplify_eq. apply ckeeps_refl.
Qed.
(** ** An access at a first-level cache *)
(** It puts an address in place of another, in line [id]. *)
Record moves (id : Z) (pm : Z) (c c' : ZCache arr) : Prop := {
  mv_filter : fkeeps (l0 c) (l0 c');
  mv_array n : array_ok n (array c) → array_ok n (array c') ∧ geo (array c') (array c);
  mv_line a id' : find (array c) a = Some id' → id' ≠ id →
    find (array c') a = Some id' ∧ (zlookup (bcc c') id' = zlookup (bcc c) id' ∨ ¬ holds pm c' a)
}.

Lemma moves_keeps (X : Z → Prop) id pm c c' : (∀ x, X x → x = id) → ckeeps X pm c c' → moves id pm c c'.
Proof.
  intros HX K. split; [apply K..|]. intros a id' Hf Hne. rewrite (kp_find _ _ _ _ K). split; [done|].
  apply (kp_line _ _ _ _ K a id' Hf). auto.
Qed.
Lemma moves_trans id pm c1 c2 c3 : moves id pm c1 c2 → moves id pm c2 c3 → moves id pm c1 c3.
Proof.
  intros H1 H2. split.
  - eapply fkeeps_trans; [apply H1|apply H2].
  - intros n Hn. destruct (mv_array _ _ _ _ H1 n Hn) as (Hn'&Hg). destruct (mv_array _ _ _ _ H2 n Hn') as [? Hg'].
    split; [done|by eapply geo_trans].
  - intros a id' Hf Hx. destruct (mv_line _ _ _ _ H1 a id' Hf Hx) as [Hf' Hb].
    destruct (mv_line _ _ _ _ H2 a id' Hf' Hx) as [Hf'' Hb']. split; [done|].
    destruct Hb as [<-|Hb]; [done|]. right. contradict Hb. eapply holds_keeps; [apply H2|done].
Qed.

Record moved (p : nat) (id : Z) (s s' : sys) : Prop := {
  md_mask : procMask s' = procMask s;
  md_net : node_of <$> caches s' = node_of <$> caches s;
  md_self c c' : caches s !! p = Some c → caches s' !! p = Some c' → terminal c = true → moves id (procMask s) c c';
  md_other i c c' : i ≠ p → caches s !! i = Some c → caches s' !! i = Some c' → terminal c = true →
    ckeeps (λ _, False) (procMask s) c c'
}.

Lemma moved_keeps p id s s' : keeps (only p id) s s' → moved p id s s'.
Proof.
  intros K. split; [apply K..| |].
  - intros c c' Hc Hc' Ht. eapply moves_keeps; [|by eapply (ks_cache _ _ _ K)]. by intros x [_ ?].
  - intros i c c' Hi Hc Hc' Ht. destruct (ks_cache _ _ _ K i c c' Hc Hc' Ht) as [H1 H2 H3 H4]. split; [done..|].
    intros a id' Hf _. apply H4; [done|]. by intros [? _].
Qed.
Lemma moved_trans p id s1 s2 s3 : moved p id s1 s2 → moved p id s2 s3 → moved p id s1 s3.
Proof.
  intros H1 H2. split; [by rewrite (md_mask _ _ _ _ H2), (md_mask _ _ _ _ H1)|by rewrite (md_net _ _ _ _ H2), (md_net _ _ _ _ H1)| |].
  - intros c c'' Hc Hc'' Ht. destruct (node_fields s2 s3 p c'' (md_net _ _ _ _ H2) Hc'') as (c'&Hc'&_).
    destruct (node_fields s1 s2 p c' (md_net _ _ _ _ H1) Hc') as (d&Hd&E). assert (d = c) as -> by congruence.
    eapply moves_trans; [by apply (md_self _ _ _ _ H1)|]. rewrite <-(md_mask _ _ _ _ H1).
    apply (md_self _ _ _ _ H2); [done..|]. injection E as Et. congruence.
  - intros i c c'' Hi Hc Hc'' Ht. destruct (node_fields s2 s3 i c'' (md_net _ _ _ _ H2) Hc'') as (c'&Hc'&_).
    destruct (node_fields s1 s2 i c' (md_net _ _ _ _ H1) Hc') as (d&Hd&E). assert (d = c) as -> by congruence.
    eapply ckeeps_trans; [by apply (md_other _ _ _ _ H1 i)|]. rewrite <-(md_mask _ _ _ _ H1).
    apply (md_other _ _ _ _ H2 i); [done..|]. injection E as Et. congruence.
Qed.

Lemma moved_sysok p id s s' : moved p id s s' → sysok s → sysok s'.
Proof.
  intros H [Hn Ha]. split; [by rewrite (md_net _ _ _ _ H)|]. intros i c' Hc' Ht.
  destruct (node_fields s s' i c' (md_net _ _ _ _ H) Hc') as (c&Hc&E). injection E as Et _ _ _ _ _ _ _ _ Hl _.
  rewrite Et in Ht. replace (length (bcc c')) with (length (bcc c)) by lia. destruct (decide (i = p)) as [->|Hi].
  - apply (mv_array _ _ _ _ (md_self _ _ _ _ H c c' Hc Hc' Ht)). by apply (Ha p).
  - apply (kp_array _ _ _ _ (md_other _ _ _ _ H i c c' Hi Hc Hc' Ht)). by apply (Ha i).
Qed.

(** The array of the cache changes, its lines are found where they were. *)
Lemma keeps_set_array s p c a' :
  sysok s → caches s !! p = Some c → terminal c = true → array_ok (Z.of_nat (length (bcc c))) a' → geo a' (array c) →
  (∀ x, find a' x = find (array c) x) →
  keeps (λ _ _, False) s (set_caches (<[p := set_array a' c]> (caches s)) s).
Proof.
  intros Hs Hc Ht Ha Hg Hf. pose proof (lookup_lt_Some _ _ _ Hc) as Hlt. split; [done| |].
  - simpl. rewrite list_fmap_insert. apply list_insert_id. by rewrite list_lookup_fmap, Hc.
  - simpl. intros j d d' Hd Hd' _. rewrite list_lookup_insert in Hd'. case_decide as Ej.
    + destruct Ej as [<- _]. assert (d = c) as -> by congruence. injection Hd' as <-.
      split; [apply fkeeps_refl| |done|by left]. intros n Hn. split; [|done].
      destruct Hn as [-> _]. simpl. pose proof (so_array s Hs _ _ Hc Ht) as [<- _]. done.
    + simplify_eq. apply ckeeps_refl.
Qed.

Lemma lookup_geo x r (a a' : arr) id : lookup x r a = Some (id, a') → geo a' a.
Proof.
  simpl. unfold SetAssoc.lookup. intros E. apply bind_Some in E as (i&_&E). destruct r as [r|]; [|by injection E as _ <-].
  destruct (i =? -1); [by injection E as _ <-|]. by apply bind_Some in E as (q&_&[= _ <-]).
Qed.
Lemma preinsert_geo v x (a a' : arr) id wb : preinsert v x a = Some (id, wb, a') → geo a' a.
Proof.
  simpl. unfold SetAssoc.preinsert. intros E. apply bind_Some in E as ([i q]&_&E). by apply bind_Some in E as (w&_&[= _ _ <-]).
Qed.
Lemma postinsert_geo x req id (a a' : arr) : postinsert x req id a = Some a' → geo a' a.
Proof.
  simpl. unfold SetAssoc.postinsert. intros E. apply bind_Some in E as (q&_&E). apply bind_Some in E as (l&_&E).
  by apply bind_Some in E as (q'&_&[= <-]).
Qed.

(** The new line is inserted. *)
Lemma moved_insert s p c x req id a' :
  sysok s → caches s !! p = Some c → terminal c = true → find (array c) x = None → 0 ≤ id < Z.of_nat (length (bcc c)) →
  id ∈ SetAssoc.set_lines x (array c) → postinsert x req id (array c) = Some a' →
  moved p id s (set_caches (<[p := set_array a' c]> (caches s)) s).
Proof.
  intros Hs Hc Ht Hf Hid Hin E. pose proof (lookup_lt_Some _ _ _ Hc) as Hlt. pose proof (postinsert_geo _ _ _ _ _ E) as Hg.
  destruct (postinsert_ok _ _ x req id (so_array s Hs p c Hc Ht) I Hf Hid Hin) as (a2&E2&Ha&_&_&Hold).
  assert (a2 = a') as -> by congruence. split; [done| | |].
  - simpl. rewrite list_fmap_insert. apply list_insert_id. by rewrite list_lookup_fmap, Hc.
  - intros d d' Hd Hd' _. simpl in Hd'. rewrite list_lookup_insert_eq in Hd' by done.
    assert (d = c) as -> by congruence. injection Hd' as <-. split.
    + apply fkeeps_refl.
    + intros n [-> _]. split; [|done]. simpl. pose proof (so_array s Hs _ _ Hc Ht) as [<- _]. done.
    + intros y id' Hy Hne. split; [by apply Hold|by left].
  - intros i d d' Hi Hd Hd' _. simpl in Hd'. rewrite list_lookup_insert_ne in Hd' by done. simplify_eq. apply ckeeps_refl.
Qed.

Lemma upd_set_inv p a (s s' : sys) x :
  upd_cache p (λ c, Some (set_array a c)) s = Some (x, s') → ∃ c, caches s !! p = Some c ∧ s' = set_caches (<[p := set_array a c]> (caches s)) s.
Proof. intros E. apply upd_inv in E as (c&c'&Hc&[= <-]&->). eauto. Qed.

Lemma keeps_at X s s' p c : keeps X s s' → caches s !! p = Some c → ∃ c', caches s' !! p = Some c' ∧ node_of c' = node_of c.
Proof.
  intros K Hc. assert ((node_of <$> caches s') !! p = Some (node_of c)) as H by (by rewrite (ks_net _ _ _ K), list_lookup_fmap, Hc).
  rewrite list_lookup_fmap in H. destruct (caches s' !! p) as [c'|]; [|done]. exists c'. split; [done|]. simpl in H. congruence.
Qed.

(** What a miss does: the victim leaves, the line comes in its place. *)
Lemma allocate_first fuel p req cyc s r s' c :
  sysok s → caches s !! p = Some c → terminal c = true → find (array c) (lineAddr req) = None →
  allocate (invalidate fuel) (access fuel) p req cyc s = Some (r, s') →
  moved p r s s' ∧ r ∈ SetAssoc.set_lines (lineAddr req) (array c).
Proof.
  intros Hs Hc Ht Hf E. unfold allocate in E. apply bind_inv in E as (c1&s1&E1&E). apply cache_inv in E1 as [-> Hc1].
  assert (c1 = c) as -> by congruence. apply bind_inv in E as ([[id wb] a]&s1&E1&E). apply lift_inv in E1 as [E1 ->].
  destruct (preinsert_ok _ _ (view_of c) (lineAddr req) (so_array s Hs p c Hc Ht) I Hf) as (id2&wb2&a2&E2&Hid&_&Ha&Hin&Hfa&_).
  { intros id' Hid'. simpl. rewrite Ht. split; [by eexists|]. destruct (zlookup_is_Some (bcc c) id' Hid') as [x ->]. by eexists. }
  rewrite E2 in E1. injection E1 as <- <- <-. pose proof (preinsert_geo _ _ _ _ _ _ E2) as Hg.
  apply bind_inv in E as (x&s1&E1&E). apply upd_set_inv in E1 as (c1&Hc2&->). assert (c1 = c) as -> by congruence.
  pose proof (keeps_set_array s p c a2 Hs Hc Ht Ha Hg Hfa) as K1. pose proof (keeps_sysok _ _ _ K1 Hs) as Hs1.
  set (s1 := set_caches _ _) in *. apply bind_inv in E as (ev&s2&E1&E).
  assert (keeps (only p id2) s1 s2) as K2.
  { eapply kp_cc_processEviction in E1; [apply E1| | | |done]; [intros; apply kp_invalidate|intros; by apply kp_access|apply only_mine]. }
  pose proof (keeps_sysok _ _ _ K2 Hs1) as Hs2. apply bind_inv in E as (x2&s3&E1'&[= <- <-]).
  apply upd_inv in E1' as (c3&c4&Hc3&E3&->). apply bind_Some in E3 as (a4&E3&[= <-]).
  assert (caches s1 !! p = Some (set_array a2 c)) as Hc1'.
  { simpl. apply list_lookup_insert_eq. by eapply lookup_lt_Some. }
  pose proof (ks_cache _ _ _ K2 p _ _ Hc1' Hc3 Ht) as Kc. destruct (keeps_at _ _ _ _ _ K2 Hc1') as (c3'&Hc3'&Hn).
  assert (c3' = c3) as -> by congruence. injection Hn as Et _ _ _ _ _ _ _ _ Hlen _. simpl in Et, Hlen.
  assert (geo (array c3) a2) as Hg3 by apply (proj2 (kp_array _ _ _ _ Kc _ Ha)).
  split.
  - eapply moved_trans; [apply moved_keeps; eapply keeps_trans; [|exact K2]|].
    + eapply (keeps_mono (λ _ _, False)); [done|exact K1].
    + apply (moved_insert s2 p c3 (lineAddr req) req id2 a4 Hs2 Hc3); [congruence| |lia| |done].
      * rewrite (kp_find _ _ _ _ Kc). simpl. by rewrite <-Hf, <-Hfa.
      * by rewrite (geo_lines _ _ _ Hg3).
  - by rewrite <-(geo_lines _ _ _ Hg).
Qed.

Lemma sysok_local x s : sysok s → sysok (set_local_state x s).
Proof. intros [Hn Ha]. by split. Qed.
Lemma keeps_local X x s : keeps X s (set_local_state x s).
Proof. split; [done..|]. simpl. intros i c c' Hc Hc' _. simplify_eq. apply ckeeps_refl. Qed.

(** The access of a core. *)
Lemma first_access fuel p a isLoad cyc src fl instrs s r s' c :
  sysok s → caches s !! p = Some c → terminal c = true → core_access fuel p a isLoad cyc src fl instrs s = Some (r, s') →
  ∃ id, moved p id s s' ∧ (find (array c) a = Some id ∨ find (array c) a = None ∧ id ∈ SetAssoc.set_lines a (array c)).
Proof.
  intros Hs Hc Ht E. unfold core_access in E. apply bind_inv in E as (x&s0&[= <- <-]&E).
  destruct fuel as [|fuel]; [done|]. cbn [access] in E. set (s0 := set_local_state StI s) in *.
  assert (sysok s0) as Hs0 by by apply sysok_local. assert (caches s0 !! p = Some c) as Hc0 by done.
  cut (∃ id, moved p id s0 s' ∧ (find (array c) a = Some id ∨ find (array c) a = None ∧ id ∈ SetAssoc.set_lines a (array c))).
  { intros (id&Hm&Hid). exists id. split; [|done]. eapply moved_trans; [apply moved_keeps, keeps_local|exact Hm]. }
  set (req := core_request a isLoad cyc src fl instrs) in *. unfold cache_access in E.
  apply bind_inv in E as (c1&s1&E1&E). apply cache_inv in E1 as [-> Hc1]. assert (c1 = c) as -> by congruence.
  apply bind_inv in E as ([skip req']&s1&E1&E).
  assert (skip = false ∧ req' = req ∧ s1 = s0) as (->&->&->).
  { unfold cc_startAccess in E1. rewrite Ht in E1. destruct isLoad; injection E1 as <- <- <-; done. }
  clear E1. apply bind_inv in E as (rc&s1&E1&E). apply bind_inv in E as (x&s2&E2&E). apply assert_inv in E2 as [_ ->].
  injection E as <- <-. apply bind_inv in E1 as ([id a1]&s2&E2&E1). apply lift_inv in E2 as [E2 ->].
  set (upd := if IsGet (atype req) then Some req else None) in *.
  destruct (lookup_ok _ _ a upd (so_array s0 Hs0 p c Hc0 Ht) I) as (a2&E3&Ha&Hfa&_).
  change (lineAddr req) with a in E2. rewrite E3 in E2. injection E2 as <- <-. pose proof (lookup_geo _ _ _ _ _ E3) as Hg.
  apply bind_inv in E1 as (x2&s2&E2&E1). apply upd_set_inv in E2 as (c1&Hc2&->). assert (c1 = c) as -> by congruence.
  pose proof (keeps_set_array s0 p c a2 Hs0 Hc0 Ht Ha Hg Hfa) as K1. pose proof (keeps_sysok _ _ _ K1 Hs0) as Hs1.
  set (s2 := set_caches _ _) in *. apply bind_inv in E1 as (lineId&s3&E2&E1).
  assert (caches s2 !! p = Some (set_array a2 c)) as Hc2'.
  { simpl. apply list_lookup_insert_eq. by eapply lookup_lt_Some. }
  assert (moved p lineId s2 s3 ∧ sysok s3 ∧ (find (array c) a = Some lineId ∨ find (array c) a = None ∧ lineId ∈ SetAssoc.set_lines a (array c)))
    as (M1&Hs3&Hid).
  { destruct (SetAssoc.find (array c) a) as [id|] eqn:Hf; simpl in E2.
    - destruct (find_tag _ _ _ _ (so_array s Hs p c Hc Ht) Hf) as [Hid _].
      rewrite (proj2 (Z.eqb_neq id (-1))) in E2 by lia. injection E2 as <- <-. split_and!; [|done|by left].
      apply moved_keeps, keeps_refl.
    - apply bind_inv in E2 as (al&s4&E2&E4). apply lift_inv in E2 as [E2 ->].
      unfold cc_shouldAllocate in E2. rewrite Ht in E2. injection E2 as <-.
      edestruct (allocate_first fuel p req) as [M Hin]; [exact Hs1|exact Hc2'|exact Ht|exact (eq_trans (Hfa a) Hf)|exact E4|].
      split_and!; [done|by eapply moved_sysok|right]. split; [done|]. simpl in Hin. by rewrite (geo_lines _ _ _ Hg) in Hin. }
  exists lineId. split; [|done]. eapply moved_trans; [apply moved_keeps; eapply (keeps_mono (λ _ _, False)); [done|exact K1]|].
  eapply moved_trans; [exact M1|]. apply moved_keeps. unfold cc_processAccess in E1.
  apply bind_inv in E1 as (c3&s4&E4&E1). apply cache_inv in E4 as [-> Hc3].
  destruct (node_fields s2 s3 p c3 (md_net _ _ _ _ M1) Hc3) as (c4&Hc4&En). assert (c4 = set_array a2 c) as -> by congruence.
  injection En as Et _ _ _ _ _ _ _ _ _ _. simpl in Et. rewrite Et, Ht in E1.
  apply bind_inv in E1 as (x3&s4&E4&E1). apply assert_inv in E4 as [_ ->].
  eapply kp_bcc_processAccess in E1; [apply E1| |apply only_mine|done]. intros; by apply kp_access.
Qed.

End Keeps.

(** ** What the filters hold *)
Section Sound.
Context {P D : Type} `{!ReplPolicy P} `{!ReplLaws P} `{!MemController D} `{!MemLaws D}.
Abbreviation arr := (SetAssoc.SetAssoc P).
Abbreviation sys := (Sys arr D).
Variable net : list Node.
Variable lvl : nat → nat.
Variable H : nat.
Context {nm : nat} (Hnet : net_ok net lvl nm).
Hypothesis HH : ∀ i, is_Some (net !! i) → (lvl i < H)%nat.
(** One process runs; its mask is above the bits of an index. *)
Variable pm : Z.
Hypothesis Hpm : 0 ≤ pm ∧ pm mod 2 ^ 32 = 0.
Abbreviation memory := (memory (nm := nm)).
Abbreviation rep := (rep net memory).
Abbreviation coh := (coh net admits).

(** The filter and the array have the same sets. *)
Definition twin (c : ZCache arr) (f : FilterCache) : Prop :=
  (∀ x, 0 ≤ x → SetAssoc.hf (array c) 0 x = x) ∧ SetAssoc.setMask (array c) = setMask f.

Record sound_entry (c : ZCache arr) (f : FilterCache) (idx : Z) (e : FilterEntry) : Prop := {
  se_pos : 0 ≤ rdAddr e;
  se_read : 0 < rdAddr e → rdAddr e ≠ NO_LINE → index f (rdAddr e) = idx ∧ St1 c (Z.lor pm (rdAddr e)) ≠ StI;
  se_write : wrAddr e = 0 ∨ wrAddr e = NO_LINE ∨
    wrAddr e = rdAddr e ∧ (0 < rdAddr e → rdAddr e ≠ NO_LINE → St1 c (Z.lor pm (rdAddr e)) = StM)
}.

Record filter_ok (c : ZCache arr) (f : FilterCache) : Prop := {
  fo_terminal : terminal c = true;
  fo_fits : fits f;
  fo_twin : twin c f;
  fo_entry idx e : zlookup (filterArray f) idx = Some e → sound_entry c f idx e
}.
Definition filters_ok (s : sys) : Prop :=
  procMask s = pm ∧ ∀ p c f, caches s !! p = Some c → l0 c = Some f → filter_ok c f.

(** The process does not change the index. *)
Lemma index_mask f v : fits f → 0 ≤ v → index f (Z.lor pm v) = index f v.
Proof.
  intros Hf Hv. destruct (fits_index f (Z.lor pm v) Hf) as [-> _]. destruct (fits_index f v Hf) as [-> _].
  destruct Hf as (k&Hk&->&_). replace (2 ^ k - 1 + 1) with (2 ^ k) by lia. rewrite <-!Z.land_ones, Z.land_lor_distr_l by lia.
  replace (Z.land pm (Z.ones k)) with 0; [done|]. rewrite Z.land_ones by lia. destruct Hpm as [_ Hp].
  apply Z.mod_divide in Hp; [|lia]. destruct Hp as [q ->]. replace 32 with ((32 - k) + k) by lia.
  rewrite Z.pow_add_r, Z.mul_assoc by lia. symmetry. apply Z.mod_mul. pose proof (Z.pow_pos_nonneg 2 k). lia.
Qed.

Lemma index_fits f f' x : filter_node f' = filter_node f → index f' x = index f x.
Proof. intros E. unfold index. injection E as -> _ _. done. Qed.

Lemma St1_found (c : ZCache arr) a : St1 c a ≠ StI → ∃ id, find (array c) a = Some id ∧ zlookup (bcc c) id = Some (St1 c a).
Proof.
  unfold St1. destruct (find (array c) a) as [id|]; [|done]. simpl. destruct (zlookup (bcc c) id) as [x|] eqn:E; [|done].
  intros _. exists id. by rewrite E.
Qed.
Lemma found_St1 (c : ZCache arr) a id x : find (array c) a = Some id → zlookup (bcc c) id = Some x → St1 c a = x.
Proof. unfold St1. intros -> E. simpl. by rewrite E. Qed.

(** An entry that stays is sound, if its line is not the one that was replaced. *)
Lemma entry_moves id c c' f f' idx e :
  moves id pm c c' → l0 c = Some f → l0 c' = Some f' → fits f → (∀ e, zlookup (filterArray f) idx = Some e → sound_entry c f idx e) →
  zlookup (filterArray f') idx = Some e → (0 < rdAddr e → rdAddr e ≠ NO_LINE → find (array c) (Z.lor pm (rdAddr e)) ≠ Some id) →
  sound_entry c' f' idx e.
Proof.
  intros M Hl Hl' Hf Hs He Hid. pose proof (mv_filter _ _ _ _ M) as K. rewrite Hl, Hl' in K. destruct K as [Hn K].
  destruct (K idx e He) as [He0|[E1 E2]].
  2:{ split; rewrite ?E1, ?E2; [done|done|]. by right; left. }
  destruct (Hs e He0) as [Hp Hr Hw].
  assert (0 < rdAddr e → rdAddr e ≠ NO_LINE → index f (rdAddr e) = idx ∧ St1 c' (Z.lor pm (rdAddr e)) = St1 c (Z.lor pm (rdAddr e))) as Hst.
  { intros H1 H2. destruct (Hr H1 H2) as [Hi Hv]. split; [done|]. destruct (St1_found c _ Hv) as (id'&Hf'&Hb).
    destruct (mv_line _ _ _ _ M _ id' Hf') as [Hf2 [Hb2|Hh]].
    - intros ->. by apply (Hid H1 H2).
    - apply (found_St1 c' _ id' _ Hf2). by rewrite Hb2.
    - destruct Hh. exists f', e. split_and!; [done| |done|apply Z.lor_comm].
      by rewrite (index_fits f f' _ Hn), (index_mask f) , Hi. }
  split; [done| |].
  - intros H1 H2. destruct (Hst H1 H2) as [Hi E]. rewrite (index_fits f f' _ Hn), E. by apply Hr.
  - destruct Hw as [|[|[E Hw]]]; [by left|by right; left|right; right]. split; [done|]. intros H1 H2.
    destruct (Hst H1 H2) as [_ ->]. by apply Hw.
Qed.

(** Lines of one set have one index. *)
Lemma same_index c f a b id :
  twin c f → array_ok (Z.of_nat (length (bcc c))) (array c) → 0 ≤ a → 0 ≤ b →
  id ∈ SetAssoc.set_lines a (array c) → id ∈ SetAssoc.set_lines b (array c) → index f a = index f b.
Proof.
  intros [Hh Hm] Hok Ha Hb Hia%(SetAssoc.elem_of_set_lines _ _ _ _ Hok) Hib%(SetAssoc.elem_of_set_lines _ _ _ _ Hok).
  assert (SetAssoc.set_of a (array c) = SetAssoc.set_of b (array c)) as E by nia.
  unfold SetAssoc.set_of in E. rewrite !Hh, Hm in E by done. exact E.
Qed.

Lemma rep_sysok s σ ε α : rep s σ ε α → sysok net s.
Proof.
  intros Hr. split; [apply Hr|]. intros i c Hc _. apply (ck_array c (rep_ok _ _ _ _ _ _ Hr i c Hc)).
Qed.

Lemma twin_geo c c' f f' : twin c f → geo (array c') (array c) → filter_node f' = filter_node f → twin c' f'.
Proof. intros [Hh Hm] (Eh&Em&_) [= E _ _]. split; [by rewrite Eh|]. by rewrite Em, E. Qed.

Lemma filter_kept (o o' : option FilterCache) f' : fkeeps o o' → o' = Some f' → ∃ f, o = Some f ∧ filter_node f' = filter_node f.
Proof. intros K ->. destruct o as [f|]; [|done]. exists f. split; [done|apply K]. Qed.

(** After the access of a core the other filters are sound, and its own but for
    the entry that is to be filled. *)
Lemma access_filters fuel p v isLoad cyc src fl instrs s r s1 c f σ ε α σ1 ε1 α1 :
  filters_ok s → rep s σ ε α → rep s1 σ1 ε1 α1 → 0 ≤ v → caches s !! p = Some c → l0 c = Some f →
  core_access fuel p (Z.lor pm v) isLoad cyc src fl instrs s = Some (r, s1) →
  procMask s1 = pm ∧
  (∀ i c' f', i ≠ p → caches s1 !! i = Some c' → l0 c' = Some f' → filter_ok c' f') ∧
  (∀ c1 f1, caches s1 !! p = Some c1 → l0 c1 = Some f1 →
     terminal c1 = true ∧ fits f1 ∧ twin c1 f1 ∧ filter_node f1 = filter_node f ∧
     ∀ idx e, idx ≠ index f v → zlookup (filterArray f1) idx = Some e → sound_entry c1 f1 idx e).
Proof.
  intros [Hmask Hok] Hr Hr1 Hv Hc Hl E. pose proof (rep_sysok _ _ _ _ Hr) as Hs. destruct (Hok p c f Hc Hl) as [Ht Hf Htw He].
  destruct (first_access net lvl Hnet _ _ _ _ _ _ _ _ _ _ _ _ Hs Hc Ht E) as (id&M&Hid).
  pose proof (so_array net s Hs) as Harr. split_and!.
  - by rewrite (md_mask _ _ _ _ M).
  - intros i c' f' Hi Hc' Hl'. destruct (node_fields s s1 i c' (md_net _ _ _ _ M) Hc') as (d&Hd&Hn). injection Hn as Et _ _ _ _ _ _ _ _ _ El.
    assert (terminal d = true) as Htd.
    { rewrite Hl' in El. destruct (l0 d) as [g|] eqn:Eg; [|done]. by apply (fo_terminal d g (Hok i d g Hd Eg)). }
    pose proof (md_other _ _ _ _ M i d c' Hi Hd Hc' Htd) as K. rewrite Hmask in K.
    destruct (filter_kept _ _ f' (kp_filter _ _ _ _ K) Hl') as (g&Hg&Hgn). destruct (Hok i d g Hd Hg) as [_ Hfg Htg Heg].
    split; [congruence|apply (ck_filter c' (rep_ok _ _ _ _ _ _ Hr1 i c' Hc') f' Hl')|by eapply twin_geo; [exact Htg|apply (kp_array _ _ _ _ K _ (Harr i d Hd Htd))|]|].
    intros idx e Hz. eapply (entry_moves (-1) d c' g f'); [by eapply moves_keeps; [|exact K]|done|done|done|apply Heg|done|].
    intros _ _ Hfd. destruct (find_tag _ _ _ _ (Harr i d Hd Htd) Hfd). lia.
  - intros c1 f1 Hc1 Hl1. destruct (node_fields s s1 p c1 (md_net _ _ _ _ M) Hc1) as (d&Hd&Hn). assert (d = c) as -> by congruence.
    injection Hn as Et _ _ _ _ _ _ _ _ _ _. pose proof (md_self _ _ _ _ M c c1 Hc Hc1 Ht) as K. rewrite Hmask in K.
    destruct (filter_kept _ _ f1 (mv_filter _ _ _ _ K) Hl1) as (g&Hg&Hgn). assert (g = f) as -> by congruence.
    pose proof (Harr p c Hc Ht) as Ha. split_and!.
    + congruence.
    + apply (ck_filter c1 (rep_ok _ _ _ _ _ _ Hr1 p c1 Hc1) f1 Hl1).
    + by eapply twin_geo; [exact Htw|apply (mv_array _ _ _ _ K _ Ha)|].
    + done.
    + intros idx e Hne Hz. eapply (entry_moves id c c1 f f1); [done..|apply He|done|]. intros H1 H2 Hfd. destruct Hne.
      assert (index f (rdAddr e) = idx) as <-.
      { pose proof (mv_filter _ _ _ _ K) as Kf. rewrite Hl, Hl1 in Kf. destruct (proj2 Kf idx e Hz) as [Hz0|[? _]]; [|done].
        by apply (se_read c f idx e (He idx e Hz0)). }
      assert (0 ≤ rdAddr e) as H0 by lia. assert (∀ x, 0 ≤ x → 0 ≤ Z.lor pm x) as Hlor by (intros x Hx; apply Z.lor_nonneg; split; [apply Hpm|done]).
      rewrite <-(index_mask f v), <-(index_mask f (rdAddr e)) by done. destruct Hid as [Hid|[_ Hin]].
      * destruct (find_tag _ _ _ _ Ha Hid) as [_ Ea]. destruct (find_tag _ _ _ _ Ha Hfd) as [_ Eb]. congruence.
      * eapply same_index; [exact Htw|exact Ha|auto|auto| |exact Hin]. pose proof (proj2 (SetAssoc.find_ok _ _ (Z.lor pm (rdAddr e)) Ha)) as Hi.
        change (SetAssoc.find (array c) (Z.lor pm (rdAddr e)) = Some id) in Hfd. rewrite Hfd in Hi. apply Hi.
Qed.

(** The entry of the line that came is sound, the others stay. *)
Lemma fill_sound c f v isLoad r f2 :
  terminal c = true → fits f → twin c f → 0 ≤ v →
  (∀ idx e, idx ≠ index f v → zlookup (filterArray f) idx = Some e → sound_entry c f idx e) →
  fill v (index f v) isLoad r f = Some f2 → St1 c (Z.lor pm v) ≠ StI → (isLoad = false → St1 c (Z.lor pm v) = StM) →
  filter_ok (set_l0 (Some f2) c) f2.
Proof.
  intros Ht Hf Htw Hv He E Hread Hwrite. destruct (fits_index f v Hf) as [_ Hi].
  unfold fill in E. destruct (zlookup_is_Some _ _ Hi) as [e0 He0]. erewrite upd_child_set in E by done. injection E as <-.
  split; [done| |done|].
  - destruct Hf as (k&?&?&?). exists k. simpl. by rewrite length_insert.
  - intros idx e Hz. simpl in Hz. rewrite zlookup_set in Hz by done. case_decide as Eidx.
    + injection Hz as <-. subst idx. split; simpl; [done|done|]. destruct isLoad; [by right; left|]. right; right. auto.
    + destruct (He idx e Eidx Hz) as [H1 H2 H3]. split; [done|exact H2|exact H3].
Qed.

Definition inv (s : sys) : Prop := filters_ok s ∧ ∃ σ ε α, rep s σ ε α ∧ coh σ ε.

(** A core whose requests are no prefetches. *)
Definition demand (p : nat) (a : Z) (isLoad : bool) (x : Z * Z * Z) : Prop :=
  filtered net p a isLoad x ∧ flag_set x.2 PREFETCH = false.

(** The line the core gets. *)
Definition granted (s : sys) (p : nat) (a : Z) (isLoad : bool) : Prop :=
  state_of s p a ≠ StI ∧
  (isLoad = false → state_of s p a = StM ∧ ∀ j n, j ≠ p → net !! j = Some n → nd_terminal n = true → state_of s j a = StI).

Lemma modified_alone s σ ε α p n a :
  rep s σ ε α → coh σ ε → net !! p = Some n → nd_terminal n = true → state_of s p a = StM →
  ∀ j nj, j ≠ p → net !! j = Some nj → nd_terminal nj = true → state_of s j a = StI.
Proof.
  intros Hr Hc Hn Ht Hm j nj Hj Hnj Htj. assert (is_Some (net !! p)) as Hp by (by rewrite Hn).
  assert (is_Some (net !! j)) as Hjn by (by rewrite Hnj). rewrite (rep_state_of net s σ ε α p a Hr Hp) in Hm.
  rewrite (rep_state_of net s σ ε α j a Hr Hjn). destruct (decide (σ j a = StI)) as [|Hv]; [done|]. destruct Hj.
  destruct (coh_single_writer net lvl Hnet admits σ ε a p j Hc Hp Hjn) as [Hb|Hb]; [rewrite Hm; by right|done| |].
  - by eapply terminal_below.
  - symmetry. by eapply terminal_below.
Qed.

Lemma replace_sound fuel p v isLoad cyc instrs x s c f :
  (2 * H ≤ fuel)%nat → demand p (Z.lor pm v) isLoad x → 0 ≤ v → inv s → caches s !! p = Some c → l0 c = Some f →
  ∃ r s', replace fuel p v (index f v) isLoad cyc instrs s = Some (r, s') ∧ cyc ≤ r ∧ inv s' ∧ granted s' p (Z.lor pm v) isLoad.
Proof.
  intros Hfu [((n&Hn&Hx)&Hleg) Hfl] Hv (Hok&σ&ε&α&Hr&Hc) Hcc Hl. pose proof Hok as [Hmask _].
  assert (filter_node f = x) as Hfx.
  { destruct (rep_cache _ _ _ _ _ _ _ _ Hr Hn) as (d&Hd&<-). assert (d = c) as -> by congruence. simpl in Hx. rewrite Hl in Hx. by injection Hx. }
  subst x. simpl in *. destruct (core_access_runs net lvl H Hnet HH fuel p (Z.lor pm v) isLoad cyc (FilterCache.srcId f) (reqFlags f) instrs s σ ε α Hfu Hleg Hr Hc)
    as (r&s1&E&σ1&ε1&α1&Hr1&Hc1&Hcyc&Hsv).
  destruct (access_filters _ _ _ _ _ _ _ _ _ _ _ _ _ _ _ _ _ _ _ Hok Hr Hr1 Hv Hcc Hl E) as (Hm1&Hother&Hself).
  destruct (rep_cache _ _ _ _ _ _ _ _ Hr1 Hn) as (c1&Hcc1&Hn1). rewrite <-Hn1 in Hx. simpl in Hx.
  destruct (l0 c1) as [f1|] eqn:Hl1; [|done]. destruct (Hself c1 f1 Hcc1 Hl1) as (Ht1&Hf1&Htw1&Hnode&Hent).
  pose proof (index_fits f f1 v Hnode) as Hidx. rewrite <-Hidx in *. destruct (fits_index f1 v Hf1) as [_ Hi].
  destruct (fill_fits v (index f1 v) isLoad r f1 Hf1 Hi) as (f2&E2&Hf2&Hn2).
  assert (St1 c1 (Z.lor pm v) = σ1 p (Z.lor pm v)) as Hst by by eapply rep_st.
  assert (σ1 p (Z.lor pm v) ≠ StI ∧ (isLoad = false → σ1 p (Z.lor pm v) = StM)) as [Hread Hwrite].
  { destruct isLoad; simpl in Hsv; [destruct Hsv as [|Hsv]; [by split|congruence]|]. by rewrite Hsv. }
  set (s2 := set_caches (<[p := set_l0 (Some f2) c1]> (caches s1)) s1).
  assert (rep s2 σ1 ε1 α1) as Hr2.
  { apply rep_filter; [done|done|by intros ? [= <-]|]. rewrite Hl1. simpl. by rewrite Hn2. }
  assert (is_Some (net !! p)) as Hpn by (by rewrite Hn). exists r, s2. split_and!.
  - unfold replace, bind, filter_of, cache, gets, lift, ret. simpl. unfold bind. simpl. rewrite Hcc. simpl. rewrite Hl. simpl.
    rewrite Hmask, E. simpl. unfold upd_filter, upd_cache, modify. rewrite Hcc1. simpl. rewrite Hl1. simpl. by rewrite E2.
  - done.
  - split; [|by exists σ1, ε1, α1]. split; [done|]. intros i d g Hd Hg. unfold s2 in Hd. simpl in Hd. destruct (decide (i = p)) as [->|Hi2].
    + rewrite list_lookup_insert_eq in Hd by (by eapply lookup_lt_Some). injection Hd as <-. injection Hg as <-.
      by apply (fill_sound c1 f1 v isLoad r f2); rewrite ?Hst.
    + rewrite list_lookup_insert_ne in Hd by done. by eapply Hother.
  - assert (state_of s2 p (Z.lor pm v) = σ1 p (Z.lor pm v)) as Hso by by eapply rep_state_of.
    split; [by rewrite Hso|]. intros Hil. split; [rewrite Hso; auto|].
    eapply modified_alone; [exact Hr2|exact Hc1|exact Hn| |rewrite Hso; auto]. rewrite <-Hn1. done.
Qed.

(** *** Hits *)
Lemma update_sound p c f f' s σ ε α :
  filters_ok s → rep s σ ε α → coh σ ε → caches s !! p = Some c → l0 c = Some f → filter_node f' = filter_node f →
  filter_ok (set_l0 (Some f') c) f' →
  let s' := set_caches (<[p := set_l0 (Some f') c]> (caches s)) s in rep s' σ ε α ∧ inv s'.
Proof.
  intros [Hm Hok] Hr Hc Hcc Hl Hn Hf'. assert (rep (set_caches (<[p := set_l0 (Some f') c]> (caches s)) s) σ ε α) as Hr'.
  { apply rep_filter; [done|done|intros ? [= <-]; apply Hf'|]. rewrite Hl. simpl. by rewrite Hn. }
  split; [done|]. split; [|by exists σ, ε, α]. split; [done|]. simpl. intros i d g Hd Hg. destruct (decide (i = p)) as [->|Hi].
  - rewrite list_lookup_insert_eq in Hd by (by eapply lookup_lt_Some). injection Hd as <-. by injection Hg as <-.
  - rewrite list_lookup_insert_ne in Hd by done. by eapply Hok.
Qed.

Lemma hits_sound c f a b : filter_ok c f → filter_ok (set_l0 (Some (set_hits a b f)) c) (set_hits a b f).
Proof. intros [Ht Hf Htw He]. split; [done..|]. intros idx e Hz. by destruct (He idx e Hz) as [H1 H2 H3]; split. Qed.

Lemma hit_sound (isLoad : bool) p v s c f e :
  inv s → caches s !! p = Some c → l0 c = Some f → zlookup (filterArray f) (index f v) = Some e →
  v = (if isLoad then rdAddr e else wrAddr e) → 0 < v → v ≠ NO_LINE → granted s p (Z.lor pm v) isLoad.
Proof.
  intros ([Hm Hok]&σ&ε&α&Hr&Hc) Hcc Hl Hz Hv H0 HN. destruct (Hok p c f Hcc Hl) as [Ht _ _ He].
  destruct (He _ e Hz) as [_ H2 H3]. assert (v = rdAddr e) as ->.
  { destruct isLoad; [done|]. subst v. destruct H3 as [|[|[? _]]]; [lia|done|congruence]. }
  assert (state_of s p (Z.lor pm (rdAddr e)) = St1 c (Z.lor pm (rdAddr e))) as Hst by (unfold state_of; by rewrite Hcc).
  split; [rewrite Hst; by apply H2|]. intros ->. assert (state_of s p (Z.lor pm (rdAddr e)) = StM) as HM.
  { rewrite Hst. destruct H3 as [|[|[? H3]]]; [lia|congruence|]. by apply H3. }
  split; [done|]. eapply modified_alone; [exact Hr|exact Hc|by eapply rep_node|done|done].
Qed.

(** *** Loads and stores *)
Definition operation (isLoad : bool) : nat → Z → nat → Z → Z → Z → M sys Z := if isLoad then load else store.

Lemma operation_sound isLoad fuel bits p vAddr cyc instrs x s :
  (2 * H ≤ fuel)%nat → 0 ≤ vAddr → demand p (Z.lor pm (Z.shiftr vAddr bits)) isLoad x → inv s →
  ∃ r s', operation isLoad fuel bits p vAddr cyc instrs s = Some (r, s') ∧ cyc ≤ r ∧ inv s' ∧
    (0 < Z.shiftr vAddr bits → Z.shiftr vAddr bits ≠ NO_LINE → granted s' p (Z.lor pm (Z.shiftr vAddr bits)) isLoad).
Proof.
  intros Hfu Hva Hd Hinv. set (v := Z.shiftr vAddr bits) in *. assert (0 ≤ v) as Hv by by apply Z.shiftr_nonneg.
  pose proof Hd as [((n&Hn&Hx)&_) _]. pose proof Hinv as (Hok&σ&ε&α&Hr&Hc).
  destruct (rep_cache _ _ _ _ _ _ _ _ Hr Hn) as (c&Hcc&Hnode). rewrite <-Hnode in Hx. simpl in Hx.
  destruct (l0 c) as [f|] eqn:Hl; [|done]. pose proof (proj2 Hok p c f Hcc Hl) as Hfo.
  destruct (fits_index f v (fo_fits _ _ Hfo)) as [_ Hi]. destruct (zlookup_is_Some _ _ Hi) as [e He].
  assert (∀ a b, let s' := set_caches (<[p := set_l0 (Some (set_hits a b f)) c]> (caches s)) s in
    inv s' ∧ (v = (if isLoad then rdAddr e else wrAddr e) → 0 < v → v ≠ NO_LINE → granted s' p (Z.lor pm v) isLoad)) as Hhit.
  { intros a b. destruct (update_sound p c f (set_hits a b f) s σ ε α Hok Hr Hc Hcc Hl eq_refl (hits_sound c f a b Hfo)) as [Hr' Hinv'].
    split; [done|]. intros Ev H0 HN. eapply hit_sound; [done|by apply list_lookup_insert_eq; eapply lookup_lt_Some|done|exact He|done..]. }
  destruct (replace_sound fuel p v isLoad cyc instrs x s c f Hfu Hd Hv Hinv Hcc Hl) as (r&s'&E&Hcyc&Hi'&Hg).
  assert (filter_of p s = Some (f, s)) as Ef.
  { unfold filter_of, bind, cache, gets, lift. simpl. unfold bind. simpl. rewrite Hcc. simpl. by rewrite Hl. }
  destruct isLoad; unfold operation, load, store, bind; rewrite Ef; simpl; fold v; unfold lift; rewrite He; simpl.
  - destruct (Z.eqb_spec v (rdAddr e)) as [Ev|Ev]; [|exists r, s'; split_and!; auto].
    unfold upd_filter, upd_cache, modify, ret. rewrite Hcc. simpl. rewrite Hl. simpl. eexists _, _. split; [done|].
    split; [lia|]. destruct (Hhit (fGETSHit f + 1) (fGETXHit f)) as [H1 H2]. auto.
  - destruct (Z.eqb_spec v (wrAddr e)) as [Ev|Ev]; [|exists r, s'; split_and!; auto].
    unfold upd_filter, upd_cache, modify, ret. rewrite Hcc. simpl. rewrite Hl. simpl. eexists _, _. split; [done|].
    split; [lia|]. destruct (Hhit (fGETSHit f) (fGETXHit f + 1)) as [H1 H2]. auto.
Qed.

Lemma switch_sound p s s' : inv s → ZsimCoherence.contextSwitch p s = Some (tt, s') → inv s'.
Proof.
  intros (Hok&σ&ε&α&Hr&Hc) E. unfold ZsimCoherence.contextSwitch, upd_filter in E. apply upd_inv in E as (c&c'&Hcc&E&->).
  apply bind_Some in E as (f&Hl&E). injection E as <-. destruct (proj2 Hok p c f Hcc Hl) as [Ht Hf Htw He].
  apply (update_sound p c f (FilterCache.contextSwitch f) s σ ε α); try done. split; [done| |done|].
  - destruct Hf as (k&?&?&?). exists k. simpl. by rewrite length_map.
  - intros idx e Hz. unfold zlookup in Hz. simpl in Hz. destruct (idx <? 0); [done|]. rewrite list_lookup_fmap in Hz.
    destruct (filterArray f !! _); [|done]. injection Hz as <-. split; [done|done|by left].
Qed.

(** *** Running cores *)
(** A system before the first instruction: no lines, no entries. *)
Record start (s : sys) : Prop := {
  st_fresh : fresh net (nm := nm) s;
  st_mask : procMask s = pm;
  st_filter p c f : caches s !! p = Some c → l0 c = Some f →
    terminal c = true ∧ twin c f ∧ ∀ idx e, zlookup (filterArray f) idx = Some e → e = FilterCache.clear
}.

Inductive running (s0 : sys) : sys → Prop :=
  | running_start : running s0 s0
  | running_operation s isLoad fuel bits p vAddr cyc instrs x r s' :
      running s0 s → demand p (Z.lor pm (Z.shiftr vAddr bits)) isLoad x → 0 ≤ vAddr → (2 * H ≤ fuel)%nat →
      operation isLoad fuel bits p vAddr cyc instrs s = Some (r, s') → running s0 s'
  | running_switch s p s' : running s0 s → ZsimCoherence.contextSwitch p s = Some (tt, s') → running s0 s'.

Lemma start_inv s : start s → inv s.
Proof.
  intros [Hf Hm Hs]. split.
  - split; [done|]. intros p c f Hc Hl. destruct (Hs p c f Hc Hl) as (Ht&Htw&He). split; [done|by apply (fr_filter _ _ Hf p c)|done|].
    intros idx e ->%He. split; [done|done|by left].
  - destruct (fresh_rep net s Hf) as (α&Hr&Hc). by exists (λ _ _, StI), (λ _ _, ZsimMem.clear), α.
Qed.

Lemma running_inv s0 s : start s0 → running s0 s → inv s.
Proof.
  intros H0. induction 1 as [|s isLoad fuel bits p vAddr cyc instrs x r s' _ IH Hd Hva Hfu E|s p s' _ IH E].
  - by apply start_inv.
  - destruct (operation_sound isLoad fuel bits p vAddr cyc instrs x s Hfu Hva Hd IH) as (r2&s2&E2&_&Hi&_). congruence.
  - by eapply switch_sound.
Qed.

(** The filter of a core answers loads of the line. *)
Definition read_hit (s : sys) (p : nat) (v : Z) : bool :=
  default false (c ← caches s !! p; f ← l0 c; e ← zlookup (filterArray f) (index f v); Some (v =? rdAddr e)).

Lemma read_hit_valid s p v : inv s → 0 < v → v ≠ NO_LINE → read_hit s p v = true → state_of s p (Z.lor pm v) ≠ StI.
Proof.
  intros Hi H0 HN. unfold read_hit. destruct (caches s !! p) as [c|] eqn:Hc; [|done]. simpl. destruct (l0 c) as [f|] eqn:Hl; [|done]. simpl.
  destruct (zlookup _ _) as [e|] eqn:He; [|done]. simpl. intros ->%Z.eqb_eq. by apply (hit_sound true p (rdAddr e) s c f e).
Qed.

(** C23: loads and stores of the cores, through their filters: with one process
    and from empty caches, whatever was executed before, a load or a store of a
    core returns, not before it starts, unless it is of line 0 (an empty entry
    of a filter looks like line 0); the line is then valid in the core's first-level cache, also when
    the filter answered without asking it; after a store the cache has it
    modified, no other first-level cache has it, and no other filter would
    answer a load of it. *)
Theorem zsim_filter_sound s0 s isLoad fuel bits p vAddr cyc instrs x :
  start s0 → running s0 s → demand p (Z.lor pm (Z.shiftr vAddr bits)) isLoad x → 0 ≤ vAddr →
  0 < Z.shiftr vAddr bits < NO_LINE → (2 * H ≤ fuel)%nat →
  ∃ r s', operation isLoad fuel bits p vAddr cyc instrs s = Some (r, s') ∧ cyc ≤ r ∧
    granted s' p (Z.lor pm (Z.shiftr vAddr bits)) isLoad ∧
    (isLoad = false → ∀ j n, j ≠ p → net !! j = Some n → nd_terminal n = true → read_hit s' j (Z.shiftr vAddr bits) = false).
Proof.
  intros H0 Hrun Hd Hva Hv Hfu. pose proof (running_inv s0 s H0 Hrun) as Hinv.
  destruct (operation_sound isLoad fuel bits p vAddr cyc instrs x s Hfu Hva Hd Hinv) as (r&s'&E&Hcyc&Hi&Hg).
  assert (Z.shiftr vAddr bits ≠ NO_LINE) as HN by lia. specialize (Hg ltac:(lia) HN).
  exists r, s'. split_and!; [done..|]. intros Hl j n Hj Hn Ht. destruct (read_hit _ _ _) eqn:E2; [|done].
  apply read_hit_valid in E2; [|done|lia|done]. by destruct (proj2 (proj2 Hg Hl) j n Hj Hn Ht).
Qed.

End Sound.

(** ** The cores of [Example_system] with their filters *)
Section Example.
Import Example_system.
#[local] Existing Instances LRU.LRU_policy LRU.LRU_laws SimpleMemory.SimpleMemory_controller SimpleMemory.SimpleMemory_laws.

Lemma system_start : start sys_net (nm := 1) 0 system.
Proof.
  split; [apply system_fresh|done|]. intros p c f Hc Hl.
  assert (p = 0%nat ∨ p = 1%nat ∨ p = 2%nat) as Hp.
  { apply (sys_cases p (node_of c)). unfold sys_net. by rewrite list_lookup_fmap, Hc. }
  assert (∀ idx e, zlookup [FilterCache.clear; FilterCache.clear] idx = Some e → e = FilterCache.clear) as He.
  { intros idx e He. unfold zlookup in He. destruct (idx <? 0); [done|]. by destruct (Z.to_nat idx) as [|[|k]]; [injection He as <-..|]. }
  destruct Hp as [->|[->| ->]]; injection Hc as <-; [| |done]; injection Hl as <-.
  all: split_and!; [done|split; [intros x Hx; simpl; lia|done]|exact He].
Qed.

Lemma system_demand p isLoad v : p = 0%nat ∨ p = 1%nat → demand sys_net p v isLoad (1, Z.of_nat p, 0).
Proof.
  intros Hp. split; [|done]. split; [destruct Hp as [-> | ->]; by eexists|].
  split_and!; [|done|done|by right]. destruct Hp as [-> | ->]; by eexists.
Qed.

(** Lines of 64 bytes: both cores load from a line, the first twice. *)
Definition next (s : asys) (isLoad : bool) (p : nat) (vAddr : Z) : asys :=
  snd (default (0, s) (operation isLoad 4 6 p vAddr 10 0 s)).
Definition loaded : asys := next (next (next system true 0 320) true 1 328) true 0 336.

Lemma next_running s isLoad p vAddr :
  p = 0%nat ∨ p = 1%nat → 0 ≤ vAddr → running sys_net 2 0 system s → is_Some (operation isLoad 4 6 p vAddr 10 0 s) →
  running sys_net 2 0 system (next s isLoad p vAddr).
Proof.
  intros Hp Hv Hs [[r s'] E]. unfold next. rewrite E. eapply running_operation; [exact Hs|by apply system_demand|done| |exact E]. lia.
Qed.

Lemma loaded_running : running sys_net 2 0 system loaded.
Proof.
  unfold loaded. apply next_running; [by left|done| |vm_compute; eauto]. apply next_running; [by right|done| |vm_compute; eauto].
  apply next_running; [by left|done|constructor|vm_compute; eauto].
Qed.

(** The second core stores to the line both filters have. *)
Lemma zsim_filter_sound_witness :
  read_hit loaded 0 5 = true ∧
  ∃ r s', operation false 4 6 1 344 20 0 loaded = Some (r, s') ∧ 20 ≤ r ∧ state_of s' 1 5 = StM ∧ state_of s' 0 5 = StI ∧ read_hit s' 0 5 = false.
Proof.
  split; [by vm_compute|].
  destruct (zsim_filter_sound sys_net sys_lvl 2 sys_net_ok sys_levels 0 (conj (Z.le_refl 0) eq_refl) system loaded false 4 6 1 344 20 0 (1, 1, 0)
    system_start loaded_running (system_demand 1 false 5 (or_intror eq_refl)) ltac:(lia) ltac:(vm_compute; done) (le_n 4))
    as (r&s'&E&Hr&[_ Hg]&Hh).
  destruct (Hg eq_refl) as [H1 H2]. change (Z.lor 0 (Z.shiftr 344 6)) with 5 in H1, H2. change (Z.shiftr 344 6) with 5 in Hh.
  exists r, s'. split; [exact E|]. split; [exact Hr|]. split; [exact H1|]. split.
  - by apply (H2 0%nat (node_of (empty_cache true 0 [CacheObj 2] [] 4))).
  - by apply (Hh eq_refl 0%nat (node_of (empty_cache true 0 [CacheObj 2] [] 4))).
Defined.

End Example.
