(* ===== verification/Processor.v ===== *)
(** * Cores and the processor ([ramulator/src/Processor.h], [Processor.cpp])

    [SqueduleQueue], [Core] and [Processor].  The memory behind them is the
    virtual base class [MemoryBase] of [Memory.h], here a type class; its state
    is threaded through the functions, like the caches all cores share. *)

From S2P Require Import Prelude Request Memory Window Cache Trace.

(** ** The interface of the memory *)

(** [class MemoryBase]: the functions the processor calls, and [tick], which
    returns the requests whose callbacks run. *)
Class MemoryBase (M : Type) := {
  mb_send : Request → M → option (bool * M);
  mb_tick : M → option (list Request * M);
  mb_pending_requests : M → Z;
  mb_page_allocator : Z → Z → M → option (Z * M);
  mb_record_core : Z → M → option M
}.

(** ** [struct SqueduleQueue] *)

Record SqueduleQueue := mkSQ {
  q_bubble_cnt : list Z;
  q_req_addr : list Z;
  q_req_type : list ReqType;
  numberInstructionsInQueue : Z
}.
Definition SQ0 : SqueduleQueue := mkSQ [] [] [] 0.

Definition sq_is_empty (x : SqueduleQueue) : bool := numberInstructionsInQueue x =? 0.

Definition sq_push (b a : Z) (t : ReqType) (x : SqueduleQueue) : SqueduleQueue :=
  mkSQ (q_bubble_cnt x ++ [b]) (q_req_addr x ++ [a]) (q_req_type x ++ [t]) (numberInstructionsInQueue x + 1).

(** The three [front()]s, and [pop_front()]. *)
Definition sq_front (x : SqueduleQueue) : option (Z * Z * ReqType) :=
  b ← q_bubble_cnt x !! 0%nat; a ← q_req_addr x !! 0%nat; t ← q_req_type x !! 0%nat; Some (b, a, t).
Definition sq_pop_front (x : SqueduleQueue) : option SqueduleQueue :=
  if sq_is_empty x then Some x else
  match q_bubble_cnt x, q_req_addr x, q_req_type x with
  | _ :: bs, _ :: rs, _ :: ts => Some (mkSQ bs rs ts (numberInstructionsInQueue x - 1))
  | _, _, _ => None
  end.

(** ** [class Core] *)

Inductive CpuType := inOrder | outOrder | otherOrder.

(** The function [send] is bound to: a cache, or the memory. *)
Inductive Dest := ToCache (i : nat) | ToMemory.

(** The statistics of a core. *)
Record core_stats := mkCoreStats {
  record_cycs : Z;
  record_insts : Z;
  memory_access_cycles : Z;
  cpu_inst : Z;
  idle_cycles : Z;
  memory_inst : Z;
  non_memory_inst : Z
}.
Definition core_stats0 : core_stats := mkCoreStats 0 0 0 0 0 0 0.

Record Core := mkCore {
  cclk : Z;
  retired : Z;
  cid : Z;
  split_trace : bool;
  inFlightMemoryAccess : Z;
  cpu_type : CpuType;
  csend_to : Dest;
  l2_cache : option nat;            (* caches[0] *)
  rqst_queue : SqueduleQueue;
  lock_core : bool;
  expected_limit_insts : Z;
  reached_limit : bool;
  window : Window;
  bubble_cnt : Z;
  req_addr : Z;
  req_type : ReqType;
  more_reqs : bool;
  last : Z;
  trace_per_core : Trace;
  costats : core_stats
}.

Definition l1_blocksz : Z := 64.

(** Field updates. *)
Definition set_cclk (x : Z) (c : Core) : Core :=
  mkCore x (retired c) (cid c) (split_trace c) (inFlightMemoryAccess c) (cpu_type c) (csend_to c) (l2_cache c)
    (rqst_queue c) (lock_core c) (expected_limit_insts c) (reached_limit c) (window c) (bubble_cnt c) (req_addr c)
    (req_type c) (more_reqs c) (last c) (trace_per_core c) (costats c).
Definition set_retired (x : Z) (c : Core) : Core :=
  mkCore (cclk c) x (cid c) (split_trace c) (inFlightMemoryAccess c) (cpu_type c) (csend_to c) (l2_cache c)
    (rqst_queue c) (lock_core c) (expected_limit_insts c) (reached_limit c) (window c) (bubble_cnt c) (req_addr c)
    (req_type c) (more_reqs c) (last c) (trace_per_core c) (costats c).
Definition set_in_flight (x : Z) (c : Core) : Core :=
  mkCore (cclk c) (retired c) (cid c) (split_trace c) x (cpu_type c) (csend_to c) (l2_cache c)
    (rqst_queue c) (lock_core c) (expected_limit_insts c) (reached_limit c) (window c) (bubble_cnt c) (req_addr c)
    (req_type c) (more_reqs c) (last c) (trace_per_core c) (costats c).
Definition set_rqst_queue (x : SqueduleQueue) (c : Core) : Core :=
  mkCore (cclk c) (retired c) (cid c) (split_trace c) (inFlightMemoryAccess c) (cpu_type c) (csend_to c) (l2_cache c)
    x (lock_core c) (expected_limit_insts c) (reached_limit c) (window c) (bubble_cnt c) (req_addr c)
    (req_type c) (more_reqs c) (last c) (trace_per_core c) (costats c).
Definition set_lock_core (x : bool) (c : Core) : Core :=
  mkCore (cclk c) (retired c) (cid c) (split_trace c) (inFlightMemoryAccess c) (cpu_type c) (csend_to c) (l2_cache c)
    (rqst_queue c) x (expected_limit_insts c) (reached_limit c) (window c) (bubble_cnt c) (req_addr c)
    (req_type c) (more_reqs c) (last c) (trace_per_core c) (costats c).
Definition set_reached_limit (x : bool) (c : Core) : Core :=
  mkCore (cclk c) (retired c) (cid c) (split_trace c) (inFlightMemoryAccess c) (cpu_type c) (csend_to c) (l2_cache c)
    (rqst_queue c) (lock_core c) (expected_limit_insts c) x (window c) (bubble_cnt c) (req_addr c)
    (req_type c) (more_reqs c) (last c) (trace_per_core c) (costats c).
Definition set_window (x : Window) (c : Core) : Core :=
  mkCore (cclk c) (retired c) (cid c) (split_trace c) (inFlightMemoryAccess c) (cpu_type c) (csend_to c) (l2_cache c)
    (rqst_queue c) (lock_core c) (expected_limit_insts c) (reached_limit c) x (bubble_cnt c) (req_addr c)
    (req_type c) (more_reqs c) (last c) (trace_per_core c) (costats c).
(** The current record of the trace. *)
Definition set_record (b a : Z) (t : ReqType) (more : bool) (c : Core) : Core :=
  mkCore (cclk c) (retired c) (cid c) (split_trace c) (inFlightMemoryAccess c) (cpu_type c) (csend_to c) (l2_cache c)
    (rqst_queue c) (lock_core c) (expected_limit_insts c) (reached_limit c) (window c) b a
    t more (last c) (trace_per_core c) (costats c).
Definition set_last (x : Z) (c : Core) : Core :=
  mkCore (cclk c) (retired c) (cid c) (split_trace c) (inFlightMemoryAccess c) (cpu_type c) (csend_to c) (l2_cache c)
    (rqst_queue c) (lock_core c) (expected_limit_insts c) (reached_limit c) (window c) (bubble_cnt c) (req_addr c)
    (req_type c) (more_reqs c) x (trace_per_core c) (costats c).
Definition set_trace (x : Trace) (c : Core) : Core :=
  mkCore (cclk c) (retired c) (cid c) (split_trace c) (inFlightMemoryAccess c) (cpu_type c) (csend_to c) (l2_cache c)
    (rqst_queue c) (lock_core c) (expected_limit_insts c) (reached_limit c) (window c) (bubble_cnt c) (req_addr c)
    (req_type c) (more_reqs c) (last c) x (costats c).
Definition set_split_trace (x : bool) (c : Core) : Core :=
  mkCore (cclk c) (retired c) (cid c) x (inFlightMemoryAccess c) (cpu_type c) (csend_to c) (l2_cache c)
    (rqst_queue c) (lock_core c) (expected_limit_insts c) (reached_limit c) (window c) (bubble_cnt c) (req_addr c)
    (req_type c) (more_reqs c) (last c) (trace_per_core c) (costats c).
Definition set_costats (x : core_stats) (c : Core) : Core :=
  mkCore (cclk c) (retired c) (cid c) (split_trace c) (inFlightMemoryAccess c) (cpu_type c) (csend_to c) (l2_cache c)
    (rqst_queue c) (lock_core c) (expected_limit_insts c) (reached_limit c) (window c) (bubble_cnt c) (req_addr c)
    (req_type c) (more_reqs c) (last c) (trace_per_core c) x.

(** [cpu_inst++] with the kind of the instruction, and [idle_cycles++]. *)
Definition count_inst (mem nonmem : Z) (c : Core) : Core :=
  let t := costats c in
  set_costats (mkCoreStats (record_cycs t) (record_insts t) (memory_access_cycles t) (cpu_inst t + 1) (idle_cycles t)
    (memory_inst t + mem) (non_memory_inst t + nonmem)) c.
Definition count_idle (c : Core) : Core :=
  let t := costats c in
  set_costats (mkCoreStats (record_cycs t) (record_insts t) (memory_access_cycles t) (cpu_inst t) (idle_cycles t + 1)
    (memory_inst t) (non_memory_inst t)) c.
Definition add_access_cycles (x : Z) (c : Core) : Core :=
  let t := costats c in
  set_costats (mkCoreStats (record_cycs t) (record_insts t) (memory_access_cycles t + x) (cpu_inst t) (idle_cycles t)
    (memory_inst t) (non_memory_inst t)) c.

Section Core.
Context {M : Type} `{!MemoryBase M}.

(** What the cores share: the caches and the memory. *)
Definition Env : Type := Caches * M.

(** [send(req)] *)
Definition core_send (d : Dest) (req : Request) (e : Env) : option (bool * Env) :=
  match d with
  | ToCache i => '(ok, s) ← csend i req (fst e); Some (ok, (s, snd e))
  | ToMemory => '(ok, m) ← mb_send req (snd e); Some (ok, (fst e, m))
  end.

(** [record_cycs = clk; record_insts = cpu_inst; memory.record_core(id); reached_limit = true;] *)
Definition record_limit (c : Core) (e : Env) : option (Core * Env) :=
  let t := costats c in
  m ← mb_record_core (cid c) (snd e);
  Some (set_reached_limit true
          (set_costats (mkCoreStats (cclk c) (cpu_inst t) (memory_access_cycles t) (cpu_inst t) (idle_cycles t)
             (memory_inst t) (non_memory_inst t)) c),
        (fst e, m)).

Definition check_limit (c : Core) (e : Env) : option (Core * Env) :=
  if (cpu_inst (costats c) =? expected_limit_insts c) && negb (reached_limit c) then record_limit c e else Some (c, e).

(** The fetch of the next record from the queue, or from the core's trace. *)
Definition fetch_queue (c : Core) (e : Env) : option (Core * Env) :=
  if sq_is_empty (rqst_queue c) then
    Some (set_record (bubble_cnt c) (req_addr c) (req_type c) false c, e)
  else
    '(b, a, t) ← sq_front (rqst_queue c);
    q ← sq_pop_front (rqst_queue c);
    Some (set_record b a t true (set_rqst_queue q c), e).

Definition fetch (c : Core) (e : Env) : option (Core * Env) :=
  if split_trace c then
    let '(more, r, _, t) := get_zsim_request (mkRec (bubble_cnt c) (req_addr c) (req_type c)) 0 (trace_per_core c) in
    '(a, m) ← mb_page_allocator (tr_addr r) (cid c) (snd e);
    Some (set_record (tr_bubbles r) a (tr_type r) more (set_trace t c), (fst e, m))
  else fetch_queue c e.

(** The end of the trace. *)
Definition end_of_trace (c : Core) (e : Env) : option (Core * Env) :=
  if negb (more_reqs c) && negb (reached_limit c) then record_limit c e else Some (c, e).

(** ** [tick_outOrder()] *)

(** The loop over the bubbles; [inl] is a return from the tick, [inr] the
    number of instructions inserted.  The loop ends after [ipc] insertions. *)
Fixpoint bubbles_ooo (fuel : nat) (inserted : Z) (c : Core) (e : Env) : option ((unit + Z) * Core * Env) :=
  match fuel with
  | O => None
  | S fuel =>
    if 0 <? bubble_cnt c then
      if inserted =? ipc (window c) then Some (inl tt, count_idle c, e) else
      if is_full (window c) then Some (inl tt, c, e) else
      w ← insert true (-1) (window c);
      let c := set_record (bubble_cnt c - 1) (req_addr c) (req_type c) (more_reqs c) (set_window w c) in
      '(c, e) ← check_limit (count_inst 0 1 c) e;
      bubbles_ooo fuel (inserted + 1) c e
    else Some (inr inserted, c, e)
  end.

(** The request of the current record; [inl] is a return from the tick. *)
Definition request_ooo (inserted : Z) (c : Core) (e : Env) : option ((unit + unit) * Core * Env) :=
  match req_type c with
  | READ =>
    if inserted =? ipc (window c) then Some (inl tt, count_idle c, e) else
    if is_full (window c) then Some (inl tt, c, e) else
    '(ok, e) ← core_send (csend_to c) (Request_addr (req_addr c) (req_type c) (cid c)) e;
    if negb ok then Some (inl tt, c, e) else
    w ← insert false (req_addr c) (window c);
    Some (inr tt, count_inst 1 0 (set_window w c), e)
  | WRITE =>
    '(ok, e) ← core_send (csend_to c) (Request_addr (req_addr c) (req_type c) (cid c)) e;
    if negb ok then Some (inl tt, c, e) else Some (inr tt, count_inst 1 0 c, e)
  | INSTRUCTION =>
    if inserted =? ipc (window c) then Some (inl tt, count_idle c, e) else
    '(ok, e) ← core_send (csend_to c) (set_instruction_request true (Request_addr (req_addr c) READ (cid c))) e;
    if negb ok then Some (inl tt, c, e) else Some (inr tt, c, e)
  | _ => Some (inr tt, c, e)
  end.

Definition tick_outOrder (c : Core) (e : Env) : option (Core * Env) :=
  '(n, w) ← retire (window c);
  let c := set_retired (retired c + n) (set_window w c) in
  if (expected_limit_insts c =? 0) && negb (more_reqs c) then Some (c, e) else
  if lock_core c then Some (c, e) else
  '(r, c, e) ← bubbles_ooo (S (Z.to_nat (ipc (window c)))) 0 c e;
  match r with
  | inl _ => Some (c, e)
  | inr inserted =>
    '(r, c, e) ← request_ooo inserted c e;
    match r with
    | inl _ => Some (c, e)
    | inr _ => '(c, e) ← fetch c e; end_of_trace c e
    end
  end.

(** ** [tick_inOrder()] *)

Fixpoint bubbles_in (fuel : nat) (inserted : Z) (c : Core) (e : Env) : option ((unit + Z) * Core * Env) :=
  match fuel with
  | O => None
  | S fuel =>
    if 0 <? bubble_cnt c then
      if inserted =? ipc (window c) then Some (inl tt, c, e) else
      let c := set_retired (retired c + 1) (set_record (bubble_cnt c - 1) (req_addr c) (req_type c) (more_reqs c) c) in
      '(c, e) ← check_limit (count_inst 0 0 c) e;
      bubbles_in fuel (inserted + 1) c e
    else Some (inr inserted, c, e)
  end.

(** The second branch for reads of the source is behind the same test as the
    first and never runs. *)
Definition request_in (inserted : Z) (c : Core) (e : Env) : option ((unit + unit) * Core * Env) :=
  match req_type c with
  | READ => if inserted =? ipc (window c) then Some (inl tt, c, e) else Some (inr tt, count_inst 0 0 c, e)
  | WRITE =>
    '(ok, e) ← core_send (csend_to c) (Request_addr (req_addr c) (req_type c) (cid c)) e;
    if negb ok then Some (inl tt, c, e) else Some (inr tt, count_inst 0 0 c, e)
  | INSTRUCTION =>
    if inserted =? ipc (window c) then Some (inl tt, c, e) else
    '(ok, e) ← core_send (csend_to c) (set_instruction_request true (Request_addr (req_addr c) READ (cid c))) e;
    if negb ok then Some (inl tt, c, e) else
    Some (inr tt, set_lock_core true (set_in_flight (inFlightMemoryAccess c + 1) c), e)
  | _ => Some (inr tt, c, e)
  end.

Definition tick_inOrder (c : Core) (e : Env) : option (Core * Env) :=
  if (expected_limit_insts c =? 0) && negb (more_reqs c) then Some (c, e) else
  if 1 <=? inFlightMemoryAccess c then Some (c, e) else
  if lock_core c then Some (c, e) else
  '(r, c, e) ← bubbles_in (S (Z.to_nat (ipc (window c)))) 0 c e;
  match r with
  | inl _ => Some (c, e)
  | inr inserted =>
    '(r, c, e) ← request_in inserted c e;
    match r with
    | inl _ => Some (c, e)
    | inr _ => '(c, e) ← fetch_queue c e; end_of_trace c e
    end
  end.

(** [Core::tick()]; for another organisation it only prints a message. *)
Definition core_tick (c : Core) (e : Env) : option (Core * Env) :=
  let c := set_cclk (cclk c + 1) c in
  match cpu_type c with
  | inOrder => tick_inOrder c e
  | outOrder => tick_outOrder c e
  | otherOrder => Some (c, e)
  end.

(** [Core::receive(req)] *)
Definition core_receive (req : Request) (c : Core) : option Core :=
  w ← set_ready (addr req) (as_int (Z.lnot (l1_blocksz - 1))) (window c);
  let c := set_window w c in
  if negb (arrive req =? -1) && (last c <? depart req) then
    Some (set_last (depart req) (add_access_cycles (depart req - Z.max (last c) (arrive req)) c))
  else Some c.

(** [Core::finished()], [Core::has_reached_limit()] and [Core::get_first_request()]. *)
Definition core_finished (c : Core) : bool := negb (more_reqs c).
Definition core_reached_limit (c : Core) : bool := reached_limit c.
Definition get_first_request (c : Core) (e : Env) : option (Core * Env) :=
  let '(more, r, _, t) := get_zsim_request (mkRec (bubble_cnt c) (req_addr c) (req_type c)) 0 (trace_per_core c) in
  '(a, m) ← mb_page_allocator (tr_addr r) (cid c) (snd e);
  Some (set_record (tr_bubbles r) a (tr_type r) more (set_trace t c), (fst e, m)).

(** [Core::load_trace(trace_base_name)], with the text of the core's file. *)
Definition load_trace (txt : text) (c : Core) : Core :=
  set_trace (init_trace txt (trace_pim_mode (trace_per_core c))) c.

(** ** [class Processor] *)

Record Processor := mkProc {
  cores : list Core;
  penv : Env;
  no_core_caches : bool;
  no_shared_cache : bool;
  early_exit : bool;
  cpu_cycles : Z
}.
Definition set_cores (x : list Core) (p : Processor) : Processor :=
  mkProc x (penv p) (no_core_caches p) (no_shared_cache p) (early_exit p) (cpu_cycles p).
Definition set_penv (x : Env) (p : Processor) : Processor :=
  mkProc (cores p) x (no_core_caches p) (no_shared_cache p) (early_exit p) (cpu_cycles p).

(** [Core(configs, coreid, send_next, llc, cachesys, memory)].  The constructor
    leaves [expected_limit_insts], the bubbles and the type of the request
    unset; what they hold is the argument [junk]. *)
Definition new_core (coreid : Z) (ty : CpuType) (no_core_caches no_shared_cache pim_mode : bool)
    (junk : Z * Z * ReqType) (s : Caches) : option (Core * Caches) :=
  let mk d l2 := mkCore 0 0 coreid false 0 ty d l2 SQ0 false (fst (fst junk)) false new_window
                   (snd (fst junk)) (-1) (snd junk) false 0 (init_trace [] false) core_stats0 in
  if no_core_caches then Some (mk (if no_shared_cache then ToMemory else ToCache 0) None, s) else
  let l2_size := if pim_mode then Z.shiftl 1 6 else Z.shiftl 1 18 in
  '(l2, s) ← add_cache l2_size (Z.shiftl 1 3) (Z.shiftl 1 6) 16 L2 pim_mode s;
  '(l1, s) ← add_cache (Z.shiftl 1 15) (Z.shiftl 1 3) (Z.shiftl 1 6) 16 L1 pim_mode s;
  s ← if no_shared_cache then Some s else concatlower l2 0 s;
  s ← concatlower l1 l2 s;
  Some (mk (ToCache l1) (Some l2), s).

(** The loop that creates the cores. *)
Definition new_cores (n : nat) (ty : CpuType) (no_core_caches no_shared_cache pim_mode : bool)
    (junk : Z * Z * ReqType) (s : Caches) : option (list Core * Caches) :=
  foldM (λ acc i, '(c, s) ← new_core (Z.of_nat i) ty no_core_caches no_shared_cache pim_mode junk (snd acc);
                  Some (fst acc ++ [c], s)) ([], s) (seq 0 n).

(** The constructor up to the traces: the shared cache is a member, so it
    exists, as cache 0, whether it is used or not. *)
Definition new_processor (n traces : nat) (ty : CpuType) (has_core_caches has_l3_cache pim_mode early : bool)
    (junk : Z * Z * ReqType) (m : M) : option Processor :=
  let s := new_cachesystem has_core_caches has_l3_cache in
  '(_, s) ← add_cache (Z.shiftl 1 23) (Z.shiftl 1 3) (Z.shiftl 1 6) (16 * Z.of_nat traces) L3 pim_mode s;
  '(cs, s) ← new_cores n ty (negb has_core_caches) (negb has_l3_cache) pim_mode junk s;
  Some (mkProc cs (s, m) (negb has_core_caches) (negb has_l3_cache) early 0).

(** A core's queue gets a record. *)
Definition give (i : Z) (r : trace_rec) (a : Z) (cs : list Core) : option (list Core) :=
  c ← zlookup cs i;
  Some (<[Z.to_nat i := set_rqst_queue (sq_push (tr_bubbles r) a (tr_type r) (rqst_queue c)) c]> cs).

(** The distribution of a [zsim] trace when perfect scheduling is disabled: the
    record goes to the core of its processor, above 256 cores to the processor's
    cores in turn.  One record: *)
Definition give_zsim (r : trace_rec) (cpu_id : Z) (offsets : list Z) (cs : list Core) (m : M) :
    option (list Z * list Core * M) :=
  let n := Z.of_nat (length cs) in
  if tr_addr r =? -1 then Some (offsets, cs, m) else
  if n <=? 256 then
    '(a, m) ← mb_page_allocator (tr_addr r) cpu_id m;
    assert! negb (n =? 0);
    cs ← give (Z.rem cpu_id n) r a cs;
    Some (offsets, cs, m)
  else
    k ← zlookup offsets cpu_id;
    let new_cpu_id := cpu_id + k * 256 in
    '(a, m) ← mb_page_allocator (tr_addr r) new_cpu_id m;
    cs ← give (Z.rem new_cpu_id n) r a cs;
    Some (<[Z.to_nat cpu_id := k + 1]> offsets, cs, m).

(** ... and the loop; every line read is shorter than the file. *)
Fixpoint distribute_zsim (fuel : nat) (r : trace_rec) (cpu_id : Z) (t : Trace) (offsets : list Z) (cs : list Core) (m : M) :
    option (list Core * M) :=
  match fuel with
  | O => None
  | S fuel =>
    let '(more, r, cpu_id, t) := get_zsim_request r cpu_id t in
    if negb more then Some (cs, m) else
    '(offsets, cs, m) ← give_zsim r cpu_id offsets cs m;
    distribute_zsim fuel r cpu_id t offsets cs m
  end.

(** The loop at the end of each distribution: a core takes the first record of
    its queue. *)
Definition first_record (c : Core) : option Core :=
  if sq_is_empty (rqst_queue c) then Some (set_record (bubble_cnt c) (req_addr c) (req_type c) false c) else
  '(b, a, t) ← sq_front (rqst_queue c);
  q ← sq_pop_front (rqst_queue c);
  Some (set_record b a t true (set_rqst_queue q c)).

(** The loop of the constructor over the cores when the trace is split: every
    core opens its own file and takes its first request. *)
Definition load_split (p : Processor) (x : nat * text) : option Processor :=
  c ← cores p !! fst x;
  '(c, e) ← get_first_request (set_split_trace true (load_trace (snd x) c)) (penv p);
  Some (set_penv e (set_cores (<[fst x := c]> (cores p)) p)).
Definition load_traces (txts : list text) (p : Processor) : option Processor :=
  foldM load_split p (zip (seq 0 (length (cores p))) txts).

(** [Processor::receive(req)] *)
Definition receive_caches (req : Request) (p : Processor) : option Caches :=
  let s := fst (penv p) in
  if negb (no_shared_cache p) then ccallback 0 req s
  else if negb (no_core_caches p) then
    foldM (λ s c, l2 ← l2_cache c; ccallback l2 req s) s (cores p)
  else Some s.

Definition proc_receive (req : Request) (p : Processor) : option Processor :=
  s ← receive_caches req p;
  c ← zlookup (cores p) (coreid req);
  c ← core_receive req c;
  Some (set_cores (<[Z.to_nat (coreid req) := c]> (cores p)) (set_penv (s, snd (penv p)) p)).

(** [Processor::tick()] *)
Definition tick_caches (p : Processor) : option Processor :=
  if no_core_caches p && no_shared_cache p then Some p else
  '(due, s, m) ← cs_tick mb_send (fst (penv p)) (snd (penv p));
  foldM (λ p req, proc_receive req p) (set_penv (s, m) p) due.

Definition tick_core (p : Processor) (i : nat) : option Processor :=
  c ← cores p !! i;
  '(c, e) ← core_tick c (penv p);
  Some (set_penv e (set_cores (<[i := c]> (cores p)) p)).

Definition proc_tick (p : Processor) : option Processor :=
  let p := mkProc (cores p) (penv p) (no_core_caches p) (no_shared_cache p) (early_exit p) (cpu_cycles p + 1) in
  p ← tick_caches p;
  foldM tick_core p (seq 0 (length (cores p))).

(** The memory's [tick()] runs the callback of every request that is complete,
    which is [Processor::receive]. *)
Definition memory_tick (p : Processor) : option Processor :=
  '(done, m) ← mb_tick (snd (penv p));
  foldM (λ p req, proc_receive req p) (set_penv (fst (penv p), m) p) done.

(** [Processor::finished()] and [has_reached_limit()], without the statistics. *)
Definition proc_finished (p : Processor) : bool :=
  if early_exit p then existsb core_finished (cores p) else forallb core_finished (cores p).
Definition proc_reached_limit (p : Processor) : bool := forallb core_reached_limit (cores p).
End Core.
Arguments Env : clear implicits.
Arguments Processor : clear implicits.
Arguments mkProc {M}.
