(* ===== verification/ProcessorInv.v ===== *)
(** * What the processor, the caches and the memory owe each other

    The laws of the memory ([MemoryLaws]), the layout of the cache hierarchy
    that the constructor builds, and the invariant of the processor: nothing
    aborts, and every load that waits in a window, and every outstanding miss
    of a cache, has a request on its way whose callback will end the wait. *)

From S2P Require Import Prelude Request Memory MemoryMap Window Cache CacheInv Trace Processor.

(** ** The laws of the memory *)

(** A request on its way, as far as its callback is concerned: its address and
    its core. *)
Definition rkey (r : Request) : Z * Z := (addr r, coreid r).

(** Requests as the processor and the caches build them, of one of [n] cores. *)
Definition fresh_request (n : Z) (r : Request) : Prop :=
  (type r = READ ∨ type r = WRITE) ∧ addr_vec r = [] ∧ is_first_command r = true ∧ 0 ≤ coreid r < n.

(** A memory is built for a number of cores, and works for those; the reads in
    it are those it accepted and has not called back. *)
Class MemoryLaws (M : Type) `{!MemoryBase M} := {
  mb_ok : M → Prop;
  mb_cores : Z;
  mb_reads : M → list (Z * Z);
  mb_send_ok m req :
    mb_ok m → fresh_request mb_cores req →
    ∃ ok m', mb_send req m = Some (ok, m') ∧ mb_ok m' ∧
      mb_reads m' ≡ₚ (if (ok : bool) && bool_decide (type req = READ) then [rkey req] else []) ++ mb_reads m;
  mb_tick_ok m done m' :
    mb_ok m → mb_tick m = Some (done, m') → mb_ok m' ∧ map rkey done ++ mb_reads m' ≡ₚ mb_reads m;
  mb_pending_ok m : mb_ok m → mb_pending_requests m = 0 → mb_reads m = [];
  mb_page_ok m a core :
    mb_ok m → 0 ≤ core → ∃ a' m', mb_page_allocator a core m = Some (a', m') ∧ mb_ok m' ∧ mb_reads m' = mb_reads m;
  mb_record_ok m core :
    mb_ok m → 0 ≤ core < mb_cores → ∃ m', mb_record_core core m = Some m' ∧ mb_ok m' ∧ mb_reads m' = mb_reads m
}.

(** ** The hierarchy *)

(** Cache 0 is the shared one; core [k] has the L2 cache [1 + 2k] and the L1
    cache [2 + 2k].  Only L1 caches ever hold lines. *)
Definition l2_id (k : nat) : nat := S (2 * k).
Definition l1_id (k : nat) : nat := S (S (2 * k)).

Record layout (n : nat) (l3 : bool) (s : Caches) : Prop := {
  la_llc : ∃ c, store s !! 0%nat = Some c ∧ mshr_entries c = [] ∧ higher_cache c = if l3 then map l2_id (seq 0 n) else [];
  la_l2 k : (k < n)%nat → ∃ c, store s !! l2_id k = Some c ∧ mshr_entries c = [] ∧ higher_cache c = [l1_id k];
  la_l1 k : (k < n)%nat → ∃ c, store s !! l1_id k = Some c ∧ cache_ok (next_lid s) c ∧ single_level 4 c ∧ index_offset c = 6
}.

(** Replacing an L1 cache. *)
Lemma layout_put n l3 k c s s' :
  layout n l3 s → (k < n)%nat → store s' = <[l1_id k := c]> (store s) → (next_lid s ≤ next_lid s')%nat →
  cache_ok (next_lid s') c → single_level 4 c → index_offset c = 6 → layout n l3 s'.
Proof.
  intros Hl Hk Hst Hnx Hc Hsl Ho. destruct (la_l1 _ _ _ Hl k Hk) as (c0&Hc0&_). split.
  - rewrite Hst, list_lookup_insert_ne by (unfold l1_id; lia). apply Hl.
  - intros j Hj. rewrite Hst, list_lookup_insert_ne by (unfold l1_id, l2_id; lia). by apply Hl.
  - intros j Hj. rewrite Hst. destruct (decide (j = k)) as [->|Hne].
    + rewrite list_lookup_insert_eq by (by eapply lookup_lt_Some). by exists c.
    + rewrite list_lookup_insert_ne by (unfold l1_id; lia). destruct (la_l1 _ _ _ Hl j Hj) as (c1&?&Hc1&?&?).
      exists c1. split_and!; try done. destruct Hc1 as [? Hs ? ? ? ?]. split; try done.
      intros i ls Hi. eapply set_ok_mono; [done|by apply Hs].
Qed.

Lemma called_back_offset a c c' : called_back a c c' → index_offset c' = index_offset c.
Proof. by intros [(?&?&?&->) _]. Qed.

(** The state after the L1 caches of the first [m] cores were called back. *)
Record called_back_upto (n : nat) (l3 : bool) (a : Z) (m : nat) (s s' : Caches) : Prop := {
  cb_layout : layout n l3 s';
  cb_lists : wait_list s' = wait_list s ∧ hit_list s' = hit_list s ∧ sclk s' = sclk s ∧ next_lid s' = next_lid s;
  cb_l1 k c : (k < n)%nat → store s !! l1_id k = Some c →
    ∃ c', store s' !! l1_id k = Some c' ∧ if decide (k < m)%nat then called_back a c c' else c' = c
}.

Lemma callback_l2 fuel n l3 req m s s' :
  called_back_upto n l3 (addr req) m s s' → (m < n)%nat →
  ∃ s'', callback (S (S fuel)) (l2_id m) req s' = Some s'' ∧ called_back_upto n l3 (addr req) (S m) s s''.
Proof.
  intros [Hl (E1&E2&E3&E4) H1] Hm. destruct (la_l2 _ _ _ Hl m Hm) as (c2&Hc2&Hms&Hh).
  rewrite (callback_higher _ _ _ _ _ Hc2 Hms), Hh. cbn [foldM].
  destruct (la_l1 _ _ _ Hl m Hm) as (c1&Hc1&Hok&Hsl&Ho).
  destruct (callback_ok fuel s' (l1_id m) c1 req Hc1 Hok (sl_higher _ _ Hsl)) as (c'&Hcb&Hok'&Hcalled).
  rewrite Hcb; simpl. eexists. split; [done|]. split; [|done|].
  - eapply (layout_put n l3 m c'); try done; [by eapply single_level_same; [apply Hcalled|]|].
    by rewrite (called_back_offset _ _ _ Hcalled).
  - intros k c Hk Hc. destruct (H1 k c Hk Hc) as (ck&Hck&Hcase). destruct (decide (k = m)) as [->|Hne].
    + exists c'. rewrite put_cache_lookup with (c := c1) by done. split; [done|]. rewrite decide_True by lia.
      rewrite decide_False in Hcase by lia. congruence.
    + exists ck. simpl. rewrite list_lookup_insert_ne by (unfold l1_id; lia). split; [done|].
      repeat case_decide; try done; lia.
Qed.

Lemma callback_all fuel n l3 req (f : Caches → nat → option Caches) s :
  layout n l3 s → (∀ s k, (k < n)%nat → f s k = callback (S (S fuel)) (l2_id k) req s) →
  ∃ s', foldM f s (seq 0 n) = Some s' ∧ called_back_upto n l3 (addr req) n s s'.
Proof.
  intros Hl Hf.
  destruct (foldM_ok f (λ m, called_back_upto n l3 (addr req) m s) s (seq 0 n)) as (s'&Hs&Hcb).
  - split; [done|done|]. intros k c Hk Hc. exists c. split; [done|]. by rewrite decide_False by lia.
  - intros i b x [-> Hi]%lookup_seq Hx. simpl. rewrite Hf by done. by apply callback_l2.
  - exists s'. by rewrite length_seq in Hcb.
Qed.

(** ** The invariant *)

(** The 64-byte block of an address: what [receive] compares. *)
Definition blk (a : Z) : Z := Z.shiftr a 6.

Lemma blk_mask a b : Z.land a (as_int (Z.lnot (l1_blocksz - 1))) = Z.land b (as_int (Z.lnot (l1_blocksz - 1))) ↔ blk a = blk b.
Proof.
  change (as_int (Z.lnot (l1_blocksz - 1))) with (Z.lnot (Z.ones 6)). unfold blk.
  assert (∀ x, Z.land x (Z.lnot (Z.ones 6)) = Z.shiftr x 6 * 2 ^ 6) as E.
  { intros x. rewrite <-Z.ldiff_land, Z.ldiff_ones_r, Z.shiftl_mul_pow2 by lia. done. }
  rewrite !E. split; [|by intros ->]. intros H. by apply Z.mul_reg_r in H.
Qed.

(** The queue of a core: three lists of the same length, which is counted. *)
Definition sq_ok (x : SqueduleQueue) : Prop :=
  length (q_req_addr x) = length (q_bubble_cnt x) ∧ length (q_req_type x) = length (q_bubble_cnt x) ∧
  numberInstructionsInQueue x = Z.of_nat (length (q_bubble_cnt x)).

Section Inv.
Context {M : Type} `{ML : MemoryLaws M}.
(** The number of cores, and which caches there are. *)
Variables (n : nat) (cc l3 : bool).

Record core_ok (k : nat) (c : Core) : Prop := {
  ck_id : cid c = Z.of_nat k;
  ck_send : csend_to c = if cc then ToCache (l1_id k) else ToMemory;
  ck_l2 : l2_cache c = if cc then Some (l2_id k) else None;
  ck_window : window_wf (window c);
  ck_ipc : 0 ≤ ipc (window c);
  ck_queue : sq_ok (rqst_queue c)
}.

(** The requests on their way: in the memory, waiting to be sent to it, or
    waiting for the latency of a hit. *)
Definition wait_keys (l : list (Z * Request)) : list (Z * Z) :=
  map (rkey ∘ snd) (filter (λ e, type (snd e) = READ) l).
Definition inflight (e : Env M) : list (Z * Z) :=
  mb_reads (snd e) ++ wait_keys (wait_list (fst e)) ++ map (rkey ∘ snd) (hit_list (fst e)).

Abbreviation fresh := (fresh_request mb_cores).
Record env_ok (e : Env M) : Prop := {
  ek_mem : mb_ok (snd e);
  ek_layout : cc = true → layout n l3 (fst e);
  ek_wait : Forall (λ x, fresh (snd x)) (wait_list (fst e));
  ek_cores : Z.of_nat n ≤ mb_cores
}.

(** Some request of core [k] in [F] is for block [b]. *)
Definition covered (F : list (Z * Z)) (k : nat) (b : Z) : Prop := ∃ a, (a, Z.of_nat k) ∈ F ∧ blk a = b.

Definition window_waits (F : list (Z * Z)) (k : nat) (c : Core) : Prop :=
  ∀ a, (false, a) ∈ Window.contents (window c) → covered F k (blk a).
Definition mshr_waits (F : list (Z * Z)) (s : Caches) : Prop :=
  cc = true → ∀ k c, (k < n)%nat → store s !! l1_id k = Some c → ∀ b, b ∈ a_out (abs c) → covered F k b.

Record waits_ok (F : list (Z * Z)) (cs : list Core) (s : Caches) : Prop := {
  wk_range : Forall (λ x, 0 ≤ snd x < Z.of_nat n) F;
  wk_length : length cs = n;
  wk_cores k c : cs !! k = Some c → core_ok k c ∧ window_waits F k c;
  wk_mshr : mshr_waits F s
}.

Record proc_ok (p : Processor M) : Prop := {
  pk_core : no_core_caches p = negb cc;
  pk_shared : no_shared_cache p = negb l3;
  pk_config : l3 = true → cc = true;
  pk_env : env_ok (penv p);
  pk_waits : waits_ok (inflight (penv p)) (cores p) (fst (penv p))
}.

Lemma covered_mono F F' k b : F ⊆ F' → covered F k b → covered F' k b.
Proof. intros H (a&Ha&Hb). exists a. split; [by apply H|done]. Qed.

Lemma waits_ok_perm F F' cs s : F ≡ₚ F' → waits_ok F cs s → waits_ok F' cs s.
Proof.
  intros Hp [Hr Hl Hc Hm]. assert (F ⊆ F') as Hsub by (intros x; by rewrite Hp).
  split; [by rewrite <-Hp|done| |].
  - intros k c Hk. destruct (Hc k c Hk) as [? Hw]. split; [done|]. intros a Ha. eapply covered_mono; [done|by apply Hw].
  - intros Hcc k c Hk Hs b Hb. eapply covered_mono; [done|by eapply Hm].
Qed.

(** ** A callback *)

Lemma called_back_out next a c c' b :
  cache_ok next c → called_back a c c' → b ∈ a_out (abs c') → b ∈ a_out (abs c) ∧ b ≠ block c a.
Proof.
  intros Hc [_ [_ Ho]] Hb. rewrite Ho in Hb. unfold a_callback in Hb.
  pose proof (co_nodup _ _ Hc) as Hnd. change (NoDup (a_out (abs c))) in Hnd.
  destruct (list_find _ (a_out (abs c))) as [[k x]|] eqn:Hf; simpl in Hb.
  - apply list_find_Some in Hf as (Hk&->&_). split; [by eapply elem_of_sublist, sublist_delete|].
    intros ->. by eapply NoDup_delete_notin.
  - split; [done|]. intros ->. apply list_find_None in Hf. rewrite Forall_forall in Hf. by eapply Hf.
Qed.

Lemma receive_caches_ok F p req :
  no_core_caches p = negb cc → no_shared_cache p = negb l3 → (l3 = true → cc = true) →
  env_ok (penv p) → waits_ok F (cores p) (fst (penv p)) →
  ∃ s', receive_caches req p = Some s' ∧ env_ok (s', snd (penv p)) ∧
    inflight (s', snd (penv p)) = inflight (penv p) ∧
    (cc = true → ∀ k c', (k < n)%nat → store s' !! l1_id k = Some c' →
       ∃ c, store (fst (penv p)) !! l1_id k = Some c ∧ cache_ok (next_lid (fst (penv p))) c ∧ index_offset c = 6 ∧
            called_back (addr req) c c').
Proof.
  intros Hn Hs Hcfg [Hm Hl Hw Hco] Hwk. unfold receive_caches. rewrite Hn, Hs, !negb_involutive.
  destruct (decide (cc = true)) as [Ecc|Ecc].
  2:{ assert (l3 = false) as -> by (destruct l3; [by destruct Ecc, Hcfg|done]). apply not_true_is_false in Ecc as Ecc'. rewrite Ecc'.
      exists (fst (penv p)). split_and!; [done|by split|by destruct (penv p)|done]. }
  assert (∃ s', (if l3 then ccallback 0 req (fst (penv p)) else
      foldM (λ s c, l2 ← l2_cache c; ccallback l2 req s) (fst (penv p)) (cores p)) = Some s' ∧
      called_back_upto n l3 (addr req) n (fst (penv p)) s') as (s'&E&[Hl' (E1&E2&E3&E4) H1]).
  { specialize (Hl Ecc). destruct (decide (l3 = true)) as [El|El%not_true_is_false]; rewrite El in Hl |- *.
    - destruct (la_llc _ _ _ Hl) as (c&Hc&Hms&Hh). unfold ccallback. change cache_fuel with 4%nat.
      rewrite (callback_higher 3 _ 0 c req Hc Hms), Hh.
      destruct (callback_all 1 n true req (λ s k, callback 3 (l2_id k) req s) (fst (penv p)) Hl) as (s'&Hs'&Hcb); [done|].
      exists s'. split; [|done]. by rewrite foldM_map.
    - destruct (callback_all 2 n false req (λ s k, ccallback (l2_id k) req s) (fst (penv p)) Hl) as (s'&Hs'&Hcb); [done|].
      exists s'. split; [|done]. rewrite <-Hs', <-(wk_length _ _ _ Hwk).
      assert (∀ j c, cores p !! j = Some c → l2_cache c = Some (l2_id (0 + j))) as Hj.
      { intros j c Hj. destruct (wk_cores _ _ _ Hwk j c Hj) as [Hck _]. by rewrite (ck_l2 _ _ Hck), Ecc. }
      clear -Hj. revert Hj. generalize (fst (penv p)), 0%nat. induction (cores p) as [|c cs IH]; intros s i Hj; [done|]. simpl.
      rewrite (Hj 0%nat c eq_refl); simpl. rewrite Nat.add_0_r. destruct (ccallback (l2_id i) req s); simpl; [|done].
      apply IH. intros j c' Hc'. rewrite (Hj (S j) c' Hc'). do 2 f_equal. lia. }
  exists s'. rewrite Ecc. split; [destruct l3; exact E|]. split_and!.
  - split; simpl; [done|done|by rewrite E1|done].
  - unfold inflight; simpl. by rewrite E1, E2.
  - intros _ k c' Hk Hc'. destruct (la_l1 _ _ _ (Hl Ecc) k Hk) as (c&Hc&Hok&_&Ho).
    destruct (H1 k c Hk Hc) as (c''&Hc''&Hcb). rewrite decide_True in Hcb by done. exists c. split_and!; try done. congruence.
Qed.

Lemma core_receive_ok k req c :
  core_ok k c → ∃ c', core_receive req c = Some c' ∧ core_ok k c' ∧
    ∀ a, (false, a) ∈ Window.contents (window c') → (false, a) ∈ Window.contents (window c) ∧ blk a ≠ blk (addr req).
Proof.
  intros [Hid Hs Hl Hw Hi Hq]. unfold core_receive.
  destruct (set_ready_ok (addr req) (as_int (Z.lnot (l1_blocksz - 1))) (window c) Hw) as (w&Hset&Hw'&Hc&Hip&Hd&_).
  rewrite Hset; simpl.
  assert (∀ x y, core_ok k (set_window w c) ∧ core_ok k (set_last x (add_access_cycles y (set_window w c)))) as Hok.
  { intros x y. split; split; simpl; try done; lia. }
  assert (∀ a, (false, a) ∈ Window.contents w → (false, a) ∈ Window.contents (window c) ∧ blk a ≠ blk (addr req)) as Hin.
  { intros a. rewrite Hc. unfold q_set_ready. intros ([r a']&E&Hin)%list_elem_of_fmap. simpl in E. injection E as E ->.
    symmetry in E. apply orb_false_iff in E as [-> E]. split; [done|]. intros Hb. apply Z.eqb_neq in E. apply E. by apply blk_mask. }
  destruct (negb _ && _); eexists; (split; [done|]); split; [exact (proj2 (Hok _ _))|exact Hin|exact (proj1 (Hok 0 0))|exact Hin].
Qed.

(** A callback returns, and ends the waits on the request it is run on. *)
Lemma proc_receive_ok F p req :
  no_core_caches p = negb cc → no_shared_cache p = negb l3 → (l3 = true → cc = true) →
  env_ok (penv p) → waits_ok (rkey req :: F) (cores p) (fst (penv p)) →
  ∃ p', proc_receive req p = Some p' ∧ no_core_caches p' = negb cc ∧ no_shared_cache p' = negb l3 ∧
    env_ok (penv p') ∧ inflight (penv p') = inflight (penv p) ∧ waits_ok F (cores p') (fst (penv p')).
Proof.
  intros Hn Hs Hcfg He Hwk. unfold proc_receive.
  destruct (receive_caches_ok _ p req Hn Hs Hcfg He Hwk) as (s'&Hr&He'&Hfl&Hcb). rewrite Hr; simpl.
  destruct Hwk as [Hrange Hlen Hcores Hmshr]. apply Forall_cons in Hrange as [Hk Hrange]. simpl in Hk.
  destruct (lookup_lt_is_Some_2 (cores p) (Z.to_nat (coreid req))) as [c Hc]; [lia|].
  assert (zlookup (cores p) (coreid req) = Some c) as -> by (unfold zlookup; case_match; [lia|done]). simpl.
  destruct (Hcores _ _ Hc) as [Hck Hwait]. destruct (core_receive_ok _ req c Hck) as (c'&Hc'&Hck'&Hin).
  rewrite Hc'; simpl. eexists. split; [done|]. split_and!; simpl; try done.
  split; simpl; [done|by rewrite length_insert| |].
  - intros k ck Hk'. apply list_lookup_insert_Some in Hk' as [(<-&<-&_)|[Hne Hk']].
    + split; [done|]. intros a Ha. destruct (Hin a Ha) as [Ha' Hb]. destruct (Hwait a Ha') as (a'&Ha''&Hb').
      apply elem_of_cons in Ha'' as [E|Ha'']; [|by exists a']. injection E as -> _. by destruct Hb.
    + destruct (Hcores _ _ Hk') as [Hok Hw]. split; [done|]. intros a Ha. destruct (Hw a Ha) as (a'&Ha'&Hb).
      apply elem_of_cons in Ha' as [E|Ha']; [|by exists a']. injection E as _ E. destruct Hne. by rewrite <-E, Nat2Z.id.
  - intros Hcc k ck Hk' Hck0 b Hb. destruct (Hcb Hcc k ck Hk' Hck0) as (c0&Hc0&Hok0&Ho0&Hcalled).
    destruct (called_back_out _ _ _ _ _ Hok0 Hcalled Hb) as [Hb0 Hne].
    destruct (Hmshr Hcc k c0 Hk' Hc0 b Hb0) as (a'&Ha'&Hba). exists a'. split; [|done].
    apply elem_of_cons in Ha' as [E|Ha']; [|done]. injection E as -> _. destruct Hne. unfold block. by rewrite Ho0.
Qed.

(** A list of callbacks. *)
Lemma receives_ok done F p :
  no_core_caches p = negb cc → no_shared_cache p = negb l3 → (l3 = true → cc = true) →
  env_ok (penv p) → waits_ok (map rkey done ++ F) (cores p) (fst (penv p)) →
  ∃ p', foldM (λ p req, proc_receive req p) p done = Some p' ∧ no_core_caches p' = negb cc ∧ no_shared_cache p' = negb l3 ∧
    env_ok (penv p') ∧ inflight (penv p') = inflight (penv p) ∧ waits_ok F (cores p') (fst (penv p')).
Proof.
  revert p. induction done as [|r done IH]; intros p Hn Hs Hcfg He Hwk; [by exists p|]. cbn [foldM map app] in *.
  destruct (proc_receive_ok _ p r Hn Hs Hcfg He Hwk) as (p1&H1&Hn1&Hs1&He1&Hf1&Hw1). rewrite H1; cbn [mbind option_bind].
  destruct (IH p1 Hn1 Hs1 Hcfg He1 Hw1) as (p2&H2&?&?&?&Hf2&?). exists p2. rewrite Hf2. done.
Qed.

(** The memory's tick. *)
Lemma memory_tick_ok p done m :
  proc_ok p → mb_tick (snd (penv p)) = Some (done, m) → ∃ p', memory_tick p = Some p' ∧ proc_ok p'.
Proof.
  intros [Hn Hs Hcfg He Hwk] Ht. destruct (mb_tick_ok _ _ _ (ek_mem _ He) Ht) as [Hm Hp].
  unfold memory_tick. rewrite Ht; cbn [mbind option_bind].
  destruct (receives_ok done (inflight (fst (penv p), m)) (set_penv (fst (penv p), m) p)) as (p'&Hp'&Hn'&Hs'&He'&Hf'&Hw');
    simpl; try done.
  - destruct He. by split.
  - eapply waits_ok_perm; [|exact Hwk]. unfold inflight; simpl. rewrite <-Hp. by rewrite <-(assoc_L (++)).
  - exists p'. split; [done|]. split; try done. by rewrite Hf'.
Qed.

(** ** A request leaves a core *)

(** New requests on their way, all of core [k]. *)
Definition grows (k : nat) (e e' : Env M) : Prop :=
  ∃ G, inflight e' ≡ₚ G ++ inflight e ∧ Forall (λ x, snd x = Z.of_nat k) G.
Definition mshr_ok (e : Env M) : Prop := mshr_waits (inflight e) (fst e).

Lemma grows_refl k e : grows k e e.
Proof. by exists []. Qed.
Lemma grows_trans k e1 e2 e3 : grows k e1 e2 → grows k e2 e3 → grows k e1 e3.
Proof.
  intros (G1&H1&F1) (G2&H2&F2). exists (G2 ++ G1). rewrite H2, H1. split; [by rewrite (assoc_L (++))|]. by apply Forall_app.
Qed.
Lemma grows_subset k e e' : grows k e e' → inflight e ⊆ inflight e'.
Proof. intros (G&H&_) x Hx. rewrite H. apply elem_of_app. by right. Qed.

Lemma a_send_out ways limit nm b w a :
  a_out (snd (a_send ways limit nm b w a)) = a_out a ++ (if fst (a_send ways limit nm b w a) is Missed _ then [b] else []).
Proof.
  unfold a_send. destruct (list_find _ _) as [[k l]|]; [destruct (alock l); simpl; by rewrite app_nil_r|].
  destruct (_ =? _); [simpl; by rewrite app_nil_r|]. destruct (_ <? _); [done|].
  destruct (list_find _ _) as [[k l]|]; [done|simpl; by rewrite app_nil_r].
Qed.

Lemma merged_outstanding next c a ways limit w :
  cache_ok next c → fst (a_send ways limit (block_num c) (block c a) w (abs c)) = Merged → block c a ∈ a_out (abs c).
Proof.
  intros Hc. pose proof (find_line_abs c next a _ (co_geom _ _ Hc) (lines_of_ok _ _ a Hc)) as Ef.
  unfold a_send. rewrite abs_lines, Ef by apply Hc. destruct (find_line c a (lines_of c a)) as [[k l]|] eqn:Hf; simpl.
  - destruct (lock l) eqn:Hl; simpl; [|done]. intros _. apply (outstanding_locked _ _ _ Hc). eauto.
  - rewrite list_find_lock. destruct (_ =? _); [done|]. destruct (_ <? _); [done|]. by destruct (list_find (λ l, lock l = false) (lines_of c a)) as [[]|].
Qed.

Lemma wait_keys_app l l' : wait_keys (l ++ l') = wait_keys l ++ wait_keys l'.
Proof. unfold wait_keys. by rewrite filter_app, map_app. Qed.

(** What a send adds to the requests on their way. *)
Lemma send_effect_inflight lat c req out ok s s' (m : M) :
  send_effect lat c req out ok s s' →
  inflight (s', m) ≡ₚ (match out with Hit | Missed _ => [rkey req] | _ => [] end) ++ inflight (s, m) ∧
  (ok = true ↔ out ≠ Refused).
Proof.
  unfold send_effect, inflight; simpl. destruct out as [| | |wb].
  - intros (->&->&->). rewrite map_app; simpl. split; [|done].
    rewrite !(assoc_L (++)). etrans; [apply Permutation_app_comm|]. by rewrite !(assoc_L (++)).
  - intros (->&->&->). done.
  - intros (->&->&->). done.
  - intros (->&->&v&->&_). split; [|done]. rewrite !wait_keys_app.
    assert (wait_keys (match wb with Some _ => [(sclk s + lat, Request_addr v WRITE 0)] | None => [] end) = []) as -> by (by destruct wb).
    change (wait_keys [(sclk s + lat, set_type READ req)]) with [rkey req]. simpl.
    rewrite <-!(assoc_L (++)). simpl. by rewrite !Permutation_middle.
Qed.

Lemma fresh_set_read req : fresh req → fresh (set_type READ req).
Proof. intros (?&?&?&?). split_and!; simpl; try done; [by left|lia..]. Qed.

Lemma core_send_ok k c req e :
  core_ok k c → (k < n)%nat → env_ok e → mshr_ok e → fresh req → coreid req = Z.of_nat k →
  ∃ ok e', core_send (csend_to c) req e = Some (ok, e') ∧ env_ok e' ∧ mshr_ok e' ∧ grows k e e' ∧
    (ok = true → type req = READ → covered (inflight e') k (blk (addr req))).
Proof.
  intros Hck Hk [Hm Hl Hw Hco] Hms Hreq Hid. unfold core_send. rewrite (ck_send _ _ Hck). destruct e as [s m]; simpl in *.
  destruct (decide (cc = true)) as [Ecc|Ecc%not_true_is_false]; rewrite Ecc.
  2:{ destruct (mb_send_ok m req Hm Hreq) as (ok&m'&Hs&Hm'&Hp). rewrite Hs; simpl. exists ok, (s, m'). split; [done|].
      assert (inflight (s, m') ≡ₚ (if ok && bool_decide (type req = READ) then [rkey req] else []) ++ inflight (s, m)) as Hin
        by (unfold inflight; simpl; by rewrite Hp, <-(assoc_L (++))).
      split; [split; simpl; try done; by rewrite Ecc|]. split; [intros Hcc; by rewrite Ecc in Hcc|]. split.
      - eexists. split; [exact Hin|]. destruct (ok && _); [|done]. by apply Forall_singleton.
      - intros -> Hty. exists (addr req). rewrite Hin, bool_decide_eq_true_2 by done. split; [|done]. simpl. rewrite <-Hid. by left. }
  specialize (Hl Ecc). destruct (la_l1 _ _ _ Hl k Hk) as (c1&Hc1&Hok&Hsl&Ho).
  destruct (csend_ok 4 s (l1_id k) c1 req Hc1 Hok Hsl) as (ok&s'&Hs&Hpost); [apply Hreq|]. rewrite Hs; simpl.
  destruct Hpost as [_ Hnx _ (c'&Hst&Hok'&Hsame&Habs&Heff)]. set (r := a_send _ _ _ _ _ _) in *.
  destruct (send_effect_inflight _ _ _ _ _ _ _ m Heff) as [Hin Hrefused].
  assert (Ho' : index_offset c' = 6) by (destruct Hsame as (?&?&?&->); done).
  assert (Hblock : block c1 (addr req) = blk (addr req)) by (unfold block; by rewrite Ho).
  assert (Hgrow : grows k (s, m) (s', m)).
  { eexists. split; [exact Hin|]. destruct (fst r); try done; by apply Forall_singleton. }
  exists ok, (s', m). split; [done|]. split; [|split; [|split; [done|]]].
  - split; simpl; [done| | |done].
    + intros _. eapply (layout_put n l3 k c'); try done. by eapply single_level_same.
    + unfold send_effect in Heff. destruct (fst r) as [| | |wb]; destruct Heff as (_&_&Heff); rewrite ?Heff; try done.
      destruct Heff as (v&->&_). apply Forall_app; split; [done|]. apply Forall_app; split; [|by apply Forall_singleton, fresh_set_read].
      destruct wb; [|done]. apply Forall_singleton. split_and!; simpl; try done; [by right|lia].
  - intros _ j cj Hj Hcj b Hb. simpl in Hcj. rewrite Hst in Hcj.
    apply list_lookup_insert_Some in Hcj as [(E&<-&_)|[Hne Hcj]].
    + assert (j = k) as -> by (unfold l1_id in E; lia). rewrite (proj2 Habs) in Hb. unfold r in Hb. rewrite a_send_out in Hb.
      fold r in Hb. apply elem_of_app in Hb as [Hb|Hb].
      * eapply covered_mono; [exact (grows_subset _ _ _ Hgrow)|]. by eapply (Hms Ecc).
      * destruct (fst r) eqn:Er; try by apply not_elem_of_nil in Hb. apply list_elem_of_singleton in Hb as ->.
        exists (addr req). rewrite Hin. split; [|by rewrite Hblock]. rewrite <-Hid. by left.
    + eapply covered_mono; [exact (grows_subset _ _ _ Hgrow)|]. by eapply (Hms Ecc).
  - intros Hokt Hty. apply Hrefused in Hokt. destruct (fst r) eqn:Er; try done.
    + exists (addr req). rewrite Hin. split; [|done]. rewrite <-Hid. by left.
    + eapply covered_mono; [exact (grows_subset _ _ _ Hgrow)|]. eapply (Hms Ecc k c1); try done. rewrite <-Hblock.
      by eapply merged_outstanding.
    + exists (addr req). rewrite Hin. split; [|done]. rewrite <-Hid. by left.
Qed.

(** ** A core's cycle *)

Record good (k : nat) (c : Core) (e : Env M) : Prop := {
  gd_core : core_ok k c;
  gd_env : env_ok e;
  gd_mshr : mshr_ok e;
  gd_wait : window_waits (inflight e) k c
}.

(** Changes of the core that do not touch what the invariant talks about. *)
Definition same_core (c c' : Core) : Prop :=
  cid c' = cid c ∧ csend_to c' = csend_to c ∧ l2_cache c' = l2_cache c ∧ window c' = window c ∧ rqst_queue c' = rqst_queue c.

Lemma good_same k c c' e : same_core c c' → good k c e → good k c' e.
Proof.
  intros (E1&E2&E3&E4&E5) [[? ? ? ? ? ?] ? ? Hw]. split; try done; [split; congruence|]. unfold window_waits in *. by rewrite E4.
Qed.

Lemma good_env k c e e' :
  good k c e → env_ok e' → fst e' = fst e → inflight e' = inflight e → good k c e'.
Proof.
  intros [? ? Hm Hw] He Hs Hf. split; try done; [unfold mshr_ok; by rewrite Hf, Hs|]. by rewrite Hf.
Qed.

Lemma record_limit_ok k c e :
  (k < n)%nat → good k c e →
  ∃ c' e', record_limit c e = Some (c', e') ∧ good k c' e' ∧ inflight e' = inflight e ∧ window c' = window c.
Proof.
  intros Hk Hg. pose proof (ek_cores _ (gd_env _ _ _ Hg)) as Hn. pose proof (ck_id _ _ (gd_core _ _ _ Hg)) as Hid.
  destruct (mb_record_ok (snd e) (cid c) (ek_mem _ (gd_env _ _ _ Hg))) as (m&Hr&Hm&Hrd); [lia|].
  unfold record_limit. rewrite Hr. cbn [mbind option_bind]. eexists _, _. split; [done|].
  assert (inflight (fst e, m) = inflight e) as E by (unfold inflight; simpl; by rewrite Hrd). split_and!; [|done|done].
  eapply good_same, good_env; [|exact Hg| |done|exact E]; [done|]. destruct (gd_env _ _ _ Hg). by split.
Qed.

Lemma check_limit_ok k c e :
  (k < n)%nat → good k c e →
  ∃ c' e', check_limit c e = Some (c', e') ∧ good k c' e' ∧ inflight e' = inflight e ∧ window c' = window c.
Proof. intros Hk Hg. unfold check_limit. case_match; [by apply record_limit_ok|by exists c, e]. Qed.

Lemma end_of_trace_ok k c e :
  (k < n)%nat → good k c e →
  ∃ c' e', end_of_trace c e = Some (c', e') ∧ good k c' e' ∧ inflight e' = inflight e ∧ window c' = window c.
Proof. intros Hk Hg. unfold end_of_trace. case_match; [by apply record_limit_ok|by exists c, e]. Qed.

(** The queue can be popped when it is not empty. *)
Lemma sq_front_ok x :
  sq_ok x → sq_is_empty x = false → ∃ b a t x', sq_front x = Some (b, a, t) ∧ sq_pop_front x = Some x' ∧ sq_ok x'.
Proof.
  intros (H1&H2&H3) He. unfold sq_front, sq_pop_front. rewrite He. unfold sq_is_empty in He. apply Z.eqb_neq in He.
  destruct x as [[|b bs] [|a rs] [|t ts] k]; simpl in *; try lia.
  eexists _, _, _, _. split_and!; [done|done|]. split_and!; simpl; lia.
Qed.

Lemma sq_push_ok b a t x : sq_ok x → sq_ok (sq_push b a t x).
Proof. intros (H1&H2&H3). unfold sq_push. split_and!; simpl; rewrite ?length_app; simpl; lia. Qed.

Lemma fetch_queue_ok k c e : good k c e → ∃ c', fetch_queue c e = Some (c', e) ∧ good k c' e.
Proof.
  intros Hg. unfold fetch_queue. destruct (sq_is_empty (rqst_queue c)) eqn:He.
  { eexists. split; [done|]. by eapply good_same; [|exact Hg]. }
  destruct (sq_front_ok _ (ck_queue _ _ (gd_core _ _ _ Hg)) He) as (b&a&t&q&Hf&Hp&Hq). rewrite Hf; simpl. rewrite Hp; simpl.
  eexists. split; [done|]. destruct Hg as [[? ? ? ? ? ?] ? ? ?]. by split.
Qed.

(** Translating an address. *)
Lemma good_page k c e a core :
  good k c e → 0 ≤ core →
  ∃ a' m', mb_page_allocator a core (snd e) = Some (a', m') ∧ good k c (fst e, m') ∧ inflight (fst e, m') = inflight e.
Proof.
  intros Hg Hcore. destruct (mb_page_ok (snd e) a core (ek_mem _ (gd_env _ _ _ Hg)) Hcore) as (a'&m'&Hp&Hm&Hr).
  exists a', m'. assert (inflight (fst e, m') = inflight e) as E by (unfold inflight; simpl; by rewrite Hr).
  split_and!; [done| |done]. eapply good_env; [exact Hg| |done|exact E]. destruct (gd_env _ _ _ Hg). by split.
Qed.

(** The trace of the core gives its next record. *)
Lemma get_first_request_ok k c e :
  good k c e → ∃ c' e', get_first_request c e = Some (c', e') ∧ good k c' e' ∧ inflight e' = inflight e.
Proof.
  intros Hg. unfold get_first_request. destruct (get_zsim_request _ _ _) as [[[more r] id] t].
  destruct (good_page k c e (tr_addr r) (cid c) Hg) as (a&m'&Hp&Hg'&E); [rewrite (ck_id _ _ (gd_core _ _ _ Hg)); lia|].
  rewrite Hp; simpl. eexists _, _. split; [done|]. split; [|done]. by eapply good_same; [|exact Hg'].
Qed.

Lemma fetch_ok k c e :
  good k c e → ∃ c' e', fetch c e = Some (c', e') ∧ good k c' e' ∧ inflight e' = inflight e.
Proof.
  intros Hg. unfold fetch. destruct (split_trace c); [by apply (get_first_request_ok k)|].
  destruct (fetch_queue_ok k c e Hg) as (c'&->&Hg'). by exists c', e.
Qed.

Lemma count_inst_same x y c : same_core c (count_inst x y c).
Proof. done. Qed.

(** A ready entry is nobody's wait. *)
Lemma good_insert k c e r a :
  good k c e → is_full (window c) = false → (r = false → covered (inflight e) k (blk a)) →
  ∃ w, insert r a (window c) = Some w ∧ good k (set_window w c) e ∧ ipc w = ipc (window c).
Proof.
  intros [[? ? ? Hw Hi Hq] ? ? Hwait] Hf Hcov. destruct (insert_ok r a (window c) Hw Hf) as (w&Hins&Hw'&Hc&Hip&_).
  exists w. split; [done|]. split; [|done]. split; try done; [split; simpl; try done; lia|].
  intros x Hx. simpl in Hx. rewrite Hc in Hx. apply elem_of_app in Hx as [Hx|Hx]; [by apply Hwait|].
  apply list_elem_of_singleton in Hx. injection Hx as <- ->. by apply Hcov.
Qed.

Lemma bubbles_ooo_ok k fuel inserted c e :
  (k < n)%nat → good k c e → 0 ≤ inserted ≤ ipc (window c) → (Z.to_nat (ipc (window c) - inserted) < fuel)%nat →
  ∃ r c' e', bubbles_ooo fuel inserted c e = Some (r, c', e') ∧ good k c' e' ∧ inflight e' = inflight e.
Proof.
  revert inserted c e. induction fuel as [|fuel IH]; intros inserted c e Hk Hg Hi Hf; [lia|]. cbn [bubbles_ooo].
  destruct (0 <? bubble_cnt c); [|by eexists _, _, _].
  destruct (Z.eqb_spec inserted (ipc (window c))) as [|Hne]; [eexists _, _, _; split; [done|]; split; [by eapply good_same; [|exact Hg]|done]|].
  destruct (is_full (window c)) eqn:Hfull; [by eexists _, _, _|].
  destruct (good_insert k c e true (-1) Hg Hfull) as (w&Hins&Hg1&Hip); [done|]. rewrite Hins; cbn [mbind option_bind].
  set (c1 := count_inst 0 1 _).
  assert (good k c1 e) as Hg2 by (by eapply good_same; [|exact Hg1]).
  destruct (check_limit_ok k c1 e Hk Hg2) as (c2&e2&Hcl&Hg3&Hf3&Hw3). rewrite Hcl; cbn [mbind option_bind].
  assert (ipc (window c2) = ipc (window c)) as Hip3 by (rewrite Hw3; done).
  destruct (IH (inserted + 1) c2 e2 Hk Hg3) as (r&c3&e3&Hr&Hg4&Hf4); [lia|lia|]. exists r, c3, e3. split_and!; [done|done|congruence].
Qed.

(** A request of the core: what comes back is good, and a load it inserts is covered. *)
Lemma good_send k c e req :
  (k < n)%nat → good k c e → (type req = READ ∨ type req = WRITE) ∧ addr_vec req = [] ∧ is_first_command req = true →
  coreid req = cid c →
  ∃ ok e', core_send (csend_to c) req e = Some (ok, e') ∧ good k c e' ∧ grows k e e' ∧
    (ok = true → type req = READ → covered (inflight e') k (blk (addr req))).
Proof.
  intros Hk [Hck He Hm Hw] (Hty&Hv&Hf) Hid. rewrite (ck_id _ _ Hck) in Hid.
  assert (fresh req) as Hreq by (pose proof (ek_cores _ He); split_and!; [done..|lia|lia]).
  destruct (core_send_ok k c req e Hck Hk He Hm Hreq Hid) as (ok&e'&Hs&He'&Hm'&Hgr&Hcov). exists ok, e'. split_and!; try done.
  split; try done. intros a Ha. eapply covered_mono; [exact (grows_subset _ _ _ Hgr)|by apply Hw].
Qed.

Lemma request_ooo_ok k inserted c e :
  (k < n)%nat → good k c e → ∃ r c' e', request_ooo inserted c e = Some (r, c', e') ∧ good k c' e' ∧ grows k e e'.
Proof.
  intros Hk Hg. unfold request_ooo.
  assert (∀ r : unit + unit, ∃ r0 c' e', Some (r, c, e) = Some (r0, c', e') ∧ good k c' e' ∧ grows k e e') as Hret.
  { intros r. eexists _, _, _. split_and!; [done|done|apply grows_refl]. }
  assert (∀ r : unit + unit, ∃ r0 c' e', Some (r, count_idle c, e) = Some (r0, c', e') ∧ good k c' e' ∧ grows k e e') as Hidle.
  { intros r. eexists _, _, _. split_and!; [done|by eapply good_same; [|exact Hg]|apply grows_refl]. }
  destruct (req_type c) eqn:Hty; try apply Hret.
  - destruct (_ =? _); [apply Hidle|]. destruct (is_full (window c)) eqn:Hf; [apply Hret|].
    destruct (good_send k c e (Request_addr (req_addr c) READ (cid c)) Hk Hg) as (ok&e'&Hs&Hg'&Hgr&Hcov); [by split; [left|]|done|].
    rewrite Hs; cbn [mbind option_bind]. destruct ok; simpl; [|by eexists _, _, _].
    destruct (good_insert k c e' false (req_addr c) Hg' Hf) as (w&Hins&Hg2&_); [by intros _; apply Hcov|].
    rewrite Hins; simpl. eexists _, _, _. split_and!; [done|by eapply good_same; [|exact Hg2]|done].
  - destruct (good_send k c e (Request_addr (req_addr c) WRITE (cid c)) Hk Hg) as (ok&e'&Hs&Hg'&Hgr&Hcov); [by split; [right|]|done|].
    rewrite Hs; cbn [mbind option_bind]. destruct ok; simpl; eexists _, _, _; (split_and!; [done| |done]); [by eapply good_same; [|exact Hg']|done].
  - destruct (_ =? _); [apply Hidle|].
    destruct (good_send k c e (set_instruction_request true (Request_addr (req_addr c) READ (cid c))) Hk Hg)
      as (ok&e'&Hs&Hg'&Hgr&Hcov); [by split; [left|]|done|].
    rewrite Hs; cbn [mbind option_bind]. destruct ok; simpl; by eexists _, _, _.
Qed.

Lemma grows_same k e e' : inflight e' = inflight e → grows k e e'.
Proof. intros E. exists []. by rewrite E. Qed.

Lemma good_retire k c e :
  good k c e → ∃ x w, retire (window c) = Some (x, w) ∧ good k (set_retired (retired c + x) (set_window w c)) e.
Proof.
  intros [[? ? ? Hw Hi Hq] ? ? Hwait]. destruct (retire_ok (window c) Hw Hi) as (w&Hr&Hw'&Hc&Hip&_).
  eexists _, w. split; [exact Hr|]. split; try done; [split; simpl; try done; lia|].
  intros a Ha. simpl in Ha. rewrite Hc in Ha. apply Hwait. simpl in Ha. eapply elem_of_sublist; [done|]. apply sublist_drop.
Qed.

Lemma tick_outOrder_ok k c e :
  (k < n)%nat → good k c e → ∃ c' e', tick_outOrder c e = Some (c', e') ∧ good k c' e' ∧ grows k e e'.
Proof.
  intros Hk Hg. unfold tick_outOrder. destruct (good_retire k c e Hg) as (x&w&Hr&Hg1). rewrite Hr; cbn [mbind option_bind].
  set (c1 := set_retired _ _) in *. destruct (_ && _); [eexists _, _; split_and!; [done|done|apply grows_refl]|].
  destruct (lock_core c1); [eexists _, _; split_and!; [done|done|apply grows_refl]|].
  pose proof (ck_ipc _ _ (gd_core _ _ _ Hg1)).
  destruct (bubbles_ooo_ok k (S (Z.to_nat (ipc (window c1)))) 0 c1 e Hk Hg1) as (r&c2&e2&Hb&Hg2&Hf2); [lia|lia|].
  rewrite Hb; cbn [mbind option_bind]. destruct r as [|ins]; [eexists _, _; split_and!; [done|done|by apply grows_same]|].
  destruct (request_ooo_ok k ins c2 e2 Hk Hg2) as (r&c3&e3&Hq&Hg3&Hgr3). rewrite Hq; cbn [mbind option_bind].
  assert (grows k e e3) as Hgr by (eapply grows_trans; [by apply grows_same|done]).
  destruct r; [by eexists _, _|]. destruct (fetch_ok k c3 e3 Hg3) as (c4&e4&Hf&Hg4&Hf4). rewrite Hf; cbn [mbind option_bind].
  destruct (end_of_trace_ok k c4 e4 Hk Hg4) as (c5&e5&Het&Hg5&Hf5&_). rewrite Het.
  eexists _, _. split_and!; [done|done|]. eapply grows_trans; [done|]. apply grows_same. congruence.
Qed.

Lemma bubbles_in_ok k fuel inserted c e :
  (k < n)%nat → good k c e → 0 ≤ inserted ≤ ipc (window c) → (Z.to_nat (ipc (window c) - inserted) < fuel)%nat →
  ∃ r c' e', bubbles_in fuel inserted c e = Some (r, c', e') ∧ good k c' e' ∧ inflight e' = inflight e.
Proof.
  revert inserted c e. induction fuel as [|fuel IH]; intros inserted c e Hk Hg Hi Hf; [lia|]. cbn [bubbles_in].
  destruct (0 <? bubble_cnt c); [|by eexists _, _, _].
  destruct (Z.eqb_spec inserted (ipc (window c))) as [|Hne]; [by eexists _, _, _|].
  set (c1 := count_inst 0 0 _). assert (good k c1 e) as Hg2 by (by eapply good_same; [|exact Hg]).
  destruct (check_limit_ok k c1 e Hk Hg2) as (c2&e2&Hcl&Hg3&Hf3&Hw3). rewrite Hcl; cbn [mbind option_bind].
  assert (ipc (window c2) = ipc (window c)) as Hip3 by (rewrite Hw3; done).
  destruct (IH (inserted + 1) c2 e2 Hk Hg3) as (r&c3&e3&Hr&Hg4&Hf4); [lia|lia|]. exists r, c3, e3. split_and!; [done|done|congruence].
Qed.

Lemma request_in_ok k inserted c e :
  (k < n)%nat → good k c e → ∃ r c' e', request_in inserted c e = Some (r, c', e') ∧ good k c' e' ∧ grows k e e'.
Proof.
  intros Hk Hg. unfold request_in.
  assert (∀ (r : unit + unit) c', same_core c c' → ∃ r0 c0 e', Some (r, c', e) = Some (r0, c0, e') ∧ good k c0 e' ∧ grows k e e') as Hret.
  { intros r c' Hc. eexists _, _, _. split_and!; [done|by eapply good_same|apply grows_refl]. }
  destruct (req_type c) eqn:Hty; try by apply Hret.
  - destruct (_ =? _); by apply Hret.
  - destruct (good_send k c e (Request_addr (req_addr c) WRITE (cid c)) Hk Hg) as (ok&e'&Hs&Hg'&Hgr&_); [by split; [right|]|done|].
    rewrite Hs; cbn [mbind option_bind]. destruct ok; simpl; eexists _, _, _; (split_and!; [done| |done]); [by eapply good_same; [|exact Hg']|done].
  - destruct (_ =? _); [by apply Hret|].
    destruct (good_send k c e (set_instruction_request true (Request_addr (req_addr c) READ (cid c))) Hk Hg)
      as (ok&e'&Hs&Hg'&Hgr&_); [by split; [left|]|done|].
    rewrite Hs; cbn [mbind option_bind]. destruct ok; simpl; eexists _, _, _; (split_and!; [done| |done]); [by eapply good_same; [|exact Hg']|done].
Qed.

Lemma tick_inOrder_ok k c e :
  (k < n)%nat → good k c e → ∃ c' e', tick_inOrder c e = Some (c', e') ∧ good k c' e' ∧ grows k e e'.
Proof.
  intros Hk Hg. unfold tick_inOrder. destruct (_ && _); [eexists _, _; split_and!; [done|done|apply grows_refl]|].
  destruct (_ <=? _); [eexists _, _; split_and!; [done|done|apply grows_refl]|].
  destruct (lock_core c); [eexists _, _; split_and!; [done|done|apply grows_refl]|].
  pose proof (ck_ipc _ _ (gd_core _ _ _ Hg)).
  destruct (bubbles_in_ok k (S (Z.to_nat (ipc (window c)))) 0 c e Hk Hg) as (r&c2&e2&Hb&Hg2&Hf2); [lia|lia|].
  rewrite Hb; cbn [mbind option_bind]. destruct r as [|ins]; [eexists _, _; split_and!; [done|done|by apply grows_same]|].
  destruct (request_in_ok k ins c2 e2 Hk Hg2) as (r&c3&e3&Hq&Hg3&Hgr3). rewrite Hq; cbn [mbind option_bind].
  assert (grows k e e3) as Hgr by (eapply grows_trans; [by apply grows_same|done]).
  destruct r; [by eexists _, _|]. destruct (fetch_queue_ok k c3 e3 Hg3) as (c4&Hf&Hg4). rewrite Hf; cbn [mbind option_bind].
  destruct (end_of_trace_ok k c4 e3 Hk Hg4) as (c5&e5&Het&Hg5&Hf5&_). rewrite Het.
  eexists _, _. split_and!; [done|done|]. eapply grows_trans; [done|]. apply grows_same. congruence.
Qed.

Lemma core_tick_ok k c e :
  (k < n)%nat → good k c e → ∃ c' e', core_tick c e = Some (c', e') ∧ good k c' e' ∧ grows k e e'.
Proof.
  intros Hk Hg. unfold core_tick. assert (good k (set_cclk (cclk c + 1) c) e) as Hg1 by (by eapply good_same; [|exact Hg]).
  cbv zeta. generalize dependent (set_cclk (cclk c + 1) c). intros c1 Hg1. destruct (cpu_type c1); [by apply tick_inOrder_ok|by apply tick_outOrder_ok|]. eexists _, _. split_and!; [done|done|apply grows_refl].
Qed.

(** ** The processor's cycle *)

Lemma proc_put_core p k c c' e' :
  proc_ok p → cores p !! k = Some c → good k c' e' → grows k (penv p) e' →
  proc_ok (set_penv e' (set_cores (<[k := c']> (cores p)) p)).
Proof.
  intros [Hn Hs Hcfg He [Hr Hl Hc Hm]] Hck Hg (G&HG&Hids). pose proof (lookup_lt_Some _ _ _ Hck) as Hk.
  split; simpl; try done; [apply Hg|]. split; simpl.
  - rewrite HG. apply Forall_app. split; [|done]. eapply Forall_impl; [exact Hids|]. simpl. intros x ->. lia.
  - by rewrite length_insert.
  - intros j cj Hj. apply list_lookup_insert_Some in Hj as [(<-&<-&_)|[Hne Hj]]; [by destruct Hg|].
    destruct (Hc j cj Hj) as [Hcj Hwj]. split; [done|]. intros a Ha. eapply covered_mono; [|by apply Hwj].
    intros x Hx. rewrite HG. apply elem_of_app. by right.
  - apply Hg.
Qed.

Lemma proc_core_good p k c : proc_ok p → cores p !! k = Some c → good k c (penv p).
Proof. intros [? ? ? He [? ? Hc Hm]] Hk. destruct (Hc k c Hk). by split. Qed.

Lemma tick_core_ok p k :
  proc_ok p → (k < n)%nat → ∃ p', tick_core p k = Some p' ∧ proc_ok p'.
Proof.
  intros Hp Hk. pose proof (wk_length _ _ _ (pk_waits _ Hp)) as Hl.
  destruct (lookup_lt_is_Some_2 (cores p) k) as [c Hck]; [lia|].
  destruct (core_tick_ok k c (penv p) Hk (proc_core_good _ _ _ Hp Hck)) as (c'&e'&Ht&Hg&Hgr).
  unfold tick_core. rewrite Hck; cbn [mbind option_bind]. rewrite Ht; cbn [mbind option_bind]. eexists. split; [done|].
  by eapply proc_put_core.
Qed.

Lemma send_waiting_ok clk l m :
  mb_ok m → Forall (λ x, fresh (snd x)) l →
  ∃ rest m', send_waiting mb_send clk l m = Some (rest, m') ∧ mb_ok m' ∧ Forall (λ x, fresh (snd x)) rest ∧
    mb_reads m' ++ wait_keys rest ≡ₚ mb_reads m ++ wait_keys l.
Proof.
  intros Hm Hl. revert m Hm. induction Hl as [|[t req] l Hreq Hl IH]; intros m Hm; cbn [send_waiting]; [by exists [], m|].
  destruct (clk <? t); [exists ((t, req) :: l), m; split_and!; try done; by constructor|].
  destruct (mb_send_ok m req Hm Hreq) as (ok&m1&Hs&Hm1&Hp). rewrite Hs; cbn [mbind option_bind].
  destruct (IH m1 Hm1) as (rest&m2&Hw&Hm2&Hrest&Hp2). rewrite Hw; cbn [mbind option_bind].
  eexists _, _. split; [done|]. split; [done|].
  change (wait_keys ((t, req) :: l)) with (wait_keys ([(t, req)] ++ l)).
  assert (wait_keys [(t, req)] = if bool_decide (type req = READ) then [rkey req] else []) as Ek.
  { unfold wait_keys. simpl. destruct (decide (type req = READ)) as [E|E].
    - rewrite bool_decide_eq_true_2 by done. by rewrite filter_cons_True by done.
    - rewrite bool_decide_eq_false_2 by done. by rewrite filter_cons_False by done. }
  destruct ok.
  - split; [done|]. rewrite Hp2, Hp, wait_keys_app, Ek. simpl. rewrite <-!(assoc_L (++)). apply Permutation_app_swap_app.
  - split; [by constructor|]. change ((t, req) :: rest) with ([(t, req)] ++ rest). simpl in Hp.
    rewrite !wait_keys_app, (Permutation_app_swap_app (mb_reads m2)), Hp2, Hp. apply Permutation_app_swap_app.
Qed.

Lemma tick_caches_ok p : proc_ok p → ∃ p', tick_caches p = Some p' ∧ proc_ok p'.
Proof.
  intros [Hn Hs Hcfg He Hw]. unfold tick_caches. destruct (_ && _); [by eexists|]. destruct (penv p) as [s m] eqn:Ep. simpl.
  unfold cs_tick. cbn [sclk set_sclk wait_list].
  destruct (send_waiting_ok (sclk s + 1) (wait_list s) m (ek_mem _ He) (ek_wait _ He)) as (rest&m'&Hsw&Hm'&Hrest&Hp).
  rewrite Hsw; cbn [mbind option_bind].
  set (due := filter (λ e, fst e ≤ sclk s + 1) _). set (s' := set_hit_list _ _).
  destruct (receives_ok (map snd due) (inflight (s', m')) (set_penv (s', m') p)) as (p'&Hp'&Hn'&Hs'&He'&Hf'&Hw'); simpl; try done.
  - destruct He as [_ Hl _ Hco]. split; simpl; try done. intros Hcc. destruct (Hl Hcc). by split.
  - eapply waits_ok_perm; [|destruct Hw as [Hr ? ? Hms]; split; [exact Hr|done|done|exact Hms]].
    unfold inflight; simpl. unfold due. rewrite map_map. fold (rkey ∘ (snd : Z * Request → Request)).
    rewrite (assoc_L (++) (mb_reads m)), <-Hp, <-(assoc_L (++)).
    rewrite <-(filter_app_complement (λ x, fst x ≤ sclk s + 1) (hit_list s)) at 1. rewrite map_app.
    rewrite (assoc_L (++) (mb_reads m')), (assoc_L (++) (mb_reads m')). rewrite Permutation_app_swap_app.
    by rewrite <-!(assoc_L (++)).
  - exists p'. split; [done|]. split; try done. by rewrite Hf'.
Qed.

(** The processor's cycle returns, and keeps the invariant. *)
Lemma proc_tick_ok p : proc_ok p → ∃ p', proc_tick p = Some p' ∧ proc_ok p'.
Proof.
  intros Hp. unfold proc_tick. set (p0 := mkProc _ _ _ _ _ _).
  assert (proc_ok p0) as Hp0 by (destruct Hp; by split).
  destruct (tick_caches_ok p0 Hp0) as (p1&H1&Hp1). rewrite H1; cbn [mbind option_bind].
  assert (length (cores p1) = n) as -> by apply Hp1.
  destruct (foldM_ok tick_core (λ _ p, proc_ok p) p1 (seq 0 n) Hp1) as (p2&H2&Hp2).
  - intros i k x [-> Hk]%lookup_seq Hx. by apply tick_core_ok.
  - by exists p2.
Qed.
End Inv.
