(* ===== verification/MemoryIface.v ===== *)
(** * The memory system behind the processor's interface

    [Memory<T>] satisfies the laws that [ProcessorInv] asks of a memory, for any
    standard with [MemLaws], for the cores it was built for: [send] returns, a
    read it accepts is called back exactly once, and translation always
    returns. *)

From Stdlib Require Import Permutation.
From S2P Require Import Prelude Request Dram BankProtocol Scheduler Controller CtrlQueries ControllerInv ControllerTick ControllerReads.
From S2P Require Import ControllerTheorems Memory MemoryMap MemoryInv Window Cache CacheInv Processor ProcessorInv.

Section Iface.
Context {L C S : Type} `{!EqDecision L, !EqDecision C, !EqDecision S}.
Variables (spec : Spec L C S) (pr : Proto L C S).
Context `{ML : !MemLaws spec pr}.

(** The memory and the numbers [rand()] is going to return. *)
Definition MemState : Type := Memory L C S * (nat → Z).

Definition memory_base : MemoryBase MemState := {|
  mb_send req m := '(ok, m') ← send spec req (fst m); Some (ok, (m', snd m));
  mb_tick m := '(done, m') ← mem_tick spec (fst m); Some (done, (m', snd m));
  mb_pending_requests m := pending_requests (fst m);
  mb_page_allocator a core m :=
    '(a', m') ← page_allocator (snd m 0%nat) a core (fst m); Some (a', (m', λ i, snd m (Datatypes.S i)));
  mb_record_core core m := m' ← mem_record_core core (fst m); Some (m', snd m)
|}.

(** ** The reads in the memory *)

Definition mem_reads (m : Memory L C S) : list (Z * Z) := concat (map (λ c, map rkey (reads c)) (ctrls m)).

Lemma rkey_key (l l' : list Request) : map key l ≡ₚ map key l' → map rkey l ≡ₚ map rkey l'.
Proof.
  intros H. assert (∀ x, map rkey x = map (λ k : Z * list Z * Z * Z * Z, (fst (fst (fst (fst k))), snd (fst k))) (map key x)) as E
    by (intros x; by rewrite map_map). rewrite !E. by apply Permutation_map.
Qed.

Lemma enqueue_reads req (c : Controller L C S) :
  map rkey (reads (snd (enqueue req c))) ≡ₚ
  (if fst (enqueue req c) && bool_decide (type req = READ) then [rkey req] else []) ++ map rkey (reads c).
Proof.
  unfold enqueue, accept. destruct (_ =? _); [done|]. destruct (decide (type req = READ)) as [E|E].
  - rewrite !bool_decide_eq_true_2 by done. rewrite E. cbn [get_queue]. unfold reads. destruct (existsb _ _); simpl.
    + rewrite removelast_last, (assoc_L (++)), map_app; simpl. by rewrite <-Permutation_cons_append.
    + rewrite !map_app, <-!(assoc_L (++)); simpl. by rewrite <-Permutation_middle.
  - rewrite !bool_decide_eq_false_2 by done. rewrite andb_false_r. simpl. unfold reads. by destruct (type req).
Qed.

(** ** What [send] and [tick] change *)

Lemma send_frame req m b m' :
  send spec req m = Some (b, m') →
  translation m' = translation m ∧ mpages m' = mpages m ∧
  ∃ ch c req', ctrls m !! ch = Some c ∧ ctrls m' = <[ch := snd (enqueue req' c)]> (ctrls m) ∧
    b = fst (enqueue req' c) ∧ rkey req' = rkey req ∧ type req' = type req.
Proof.
  unfold send. intros H. run_opt. unfold zlookup in *.
  match goal with H : (if ?x <? 0 then None else _) = Some ?c |- _ => rename x into ch, c into c0; rename H into Hc end.
  destruct (ch <? 0); [done|]. match goal with H : context [enqueue ?r c0] |- _ => set (req' := r) in * end.
  assert (rkey req' = rkey req ∧ type req' = type req) as [Hk Ht] by done.
  destruct (enqueue req' c0) as [ok c'] eqn:He. destruct ok; run_opt; simplify_eq/=; split_and!; try done;
    exists (Z.to_nat ch), c0, req'; rewrite He; done.
Qed.

Lemma send_reads req m b m' :
  send spec req m = Some (b, m') →
  mem_reads m' ≡ₚ (if b && bool_decide (type req = READ) then [rkey req] else []) ++ mem_reads m.
Proof.
  intros (_&_&ch&c&req'&Hc&Hm'&->&Hk&Ht)%send_frame. unfold mem_reads. rewrite Hm'.
  rewrite <-(take_drop_middle _ _ _ Hc) at 2. rewrite insert_take_drop by (by eapply lookup_lt_Some).
  rewrite !map_app, !concat_app. simpl. rewrite enqueue_reads, Hk, Ht.
  rewrite <-!(assoc_L (++)). apply Permutation_app_swap_app.
Qed.

Lemma tick_ctrls_reads l n (cs : list (Controller L C S)) j acc res :
  level_cast spec 0 = Some l →
  (∀ i c, cs !! i = Some c → ctrl_reachable spec l (Z.of_nat (j + i)) c ∧ sized n c) →
  foldM (λ acc c, '(done, c) ← tick spec c; Some (fst acc ++ done, snd acc ++ [c])) acc cs = Some res →
  ∃ done cs', fst res = fst acc ++ done ∧ snd res = snd acc ++ cs' ∧
    map rkey done ++ concat (map (λ c, map rkey (reads c)) cs') ≡ₚ concat (map (λ c, map rkey (reads c)) cs).
Proof.
  intros Hl. revert acc j. induction cs as [|c cs IH]; intros acc j Hcs H; cbn [foldM] in H.
  { simplify_eq. exists [], []. by rewrite !app_nil_r. }
  destruct (tick spec c) as [[dn c']|] eqn:Ht; simpl in H; [|done].
  destruct (λ P, IH _ (Datatypes.S j) P H) as (done&cs'&E1&E2&Hp).
  { intros i c0 Hi. replace (Datatypes.S j + i)%nat with (j + Datatypes.S i)%nat by lia. by apply Hcs. }
  simpl in E1, E2. rewrite <-app_assoc in E1, E2. exists (dn ++ done), (c' :: cs'). split_and!; [done|done|].
  destruct (Hcs 0%nat c eq_refl) as [Hc Hn]. rewrite Nat.add_0_r in Hc.
  destruct (tick_reads spec pr _ _ _ c c' dn (ctrl_reachable_inv spec pr l _ c Hl Hc) Hn Ht) as (Hk&_&_).
  rewrite <-map_app in Hk. apply rkey_key in Hk. rewrite map_app in Hk.
  simpl. rewrite map_app, Hk, <-Hp, <-!(assoc_L (++)). f_equiv. apply Permutation_app_swap_app.
Qed.

Lemma mem_tick_reads l channels m done m' :
  level_cast spec 0 = Some l → mem_inv spec l channels m → mem_tick spec m = Some (done, m') →
  translation m' = translation m ∧ mpages m' = mpages m ∧ map rkey done ++ mem_reads m' ≡ₚ mem_reads m.
Proof.
  intros Hl Hinv H. unfold mem_tick, tick_ctrls in H.
  destruct (foldM _ _ (ctrls m)) as [[done' cs']|] eqn:Hf; simpl in H; [|done]. simplify_eq. split_and!; [done|done|].
  destruct (tick_ctrls_reads l (mem_cores m) (ctrls m) 0 ([], []) (done, cs') Hl) as (d&cs''&E1&E2&Hp); [|done|].
  { intros i c Hc. split; [by apply (mi_ctrls _ _ _ _ Hinv)|]. by apply (mi_cores _ _ _ _ Hinv i). }
  simpl in E1, E2. subst. unfold mem_reads; simpl. done.
Qed.

Lemma mem_record_frame k (m m' : Memory L C S) :
  mem_record_core k m = Some m' → mem_reads m' = mem_reads m ∧ translation m' = translation m ∧ mpages m' = mpages m.
Proof.
  unfold mem_record_core. intros H. run_opt. split; [|done]. unfold mem_reads. simpl. f_equal.
  match goal with H : mapM _ _ = Some ?cs |- _ => apply mapM_Some_1 in H; rename H into Hm end.
  induction Hm as [|c c' cs cs' Hc _ IH]; [done|]. simpl. rewrite IH. f_equal. unfold record_core in Hc. by run_opt.
Qed.

(** Nothing pending, no reads. *)
Lemma pending_reads m : pending_requests m = 0 → mem_reads m = [].
Proof.
  unfold pending_requests, mem_reads.
  assert (∀ cs n, 0 ≤ n → n ≤ foldl (λ n c, n + ctrl_requests c) n cs ∧
    (foldl (λ n c, n + ctrl_requests c) n cs = 0 → n = 0 ∧ concat (map (λ c : Controller L C S, map rkey (reads c)) cs) = [])) as H.
  { induction cs as [|c cs IH]; intros n Hn; simpl; [done || (split; [lia|done])|].
    assert (0 ≤ ctrl_requests c) as Hc by (unfold ctrl_requests, qsize; lia).
    destruct (IH (n + ctrl_requests c)) as [H1 H2]; [lia|]. split; [lia|]. intros H. destruct (H2 H) as [H3 ->].
    split; [lia|]. unfold ctrl_requests, qsize in *. unfold reads.
    rewrite (proj1 (length_zero_iff_nil (q (readq c)))) by lia. by rewrite (proj1 (length_zero_iff_nil (pending c))) by lia. }
  intros E. by apply (H (ctrls m) 0).
Qed.

(** ** The laws *)

Variables channels cores : nat.

(** A reachable memory, built for [cores] cores, whose page tables are those of
    [MemoryMap.v]. *)
Definition mem_ok (m : MemState) : Prop :=
  (∃ l, level_cast spec 0 = Some l) ∧ (mem_reachable spec channels (fst m) ∧ mem_cores (fst m) = cores) ∧ (∀ i, 0 ≤ snd m i) ∧
  (translation (fst m) = Translation_None ∨
   translation (fst m) = Translation_Random ∧ ∃ n, 0 < n ∧ pages_inv n (mpages (fst m))).

Lemma page_allocator_total lrand a core (m : Memory L C S) :
  0 ≤ lrand → 0 ≤ core →
  (translation m = Translation_None ∨ translation m = Translation_Random ∧ ∃ n, 0 < n ∧ pages_inv n (mpages m)) →
  ∃ a' m', page_allocator lrand a core m = Some (a', m') ∧
    (translation m' = Translation_None ∨ translation m' = Translation_Random ∧ ∃ n, 0 < n ∧ pages_inv n (mpages m')).
Proof.
  intros Hr Hc [Ht|(Ht&n&Hn&Hp)].
  - unfold page_allocator. rewrite Ht. case_match; eexists _, _; (split; [done|]); by left.
  - destruct (page_allocator_random n lrand a core m Ht Hp Hn Hr) as (p&m'&Hm&_&Hp'&_&_&_&_&Ht'); [lia|].
    eexists _, m'. split; [exact Hm|]. right. split; [congruence|eauto].
Qed.

Definition memory_laws : @MemoryLaws MemState memory_base.
Proof.
  refine {| mb_ok := mem_ok; mb_cores := Z.of_nat cores; mb_reads := λ m, mem_reads (fst m) |}.
  - intros [m r] req ([l Hl]&[Hm Hn]&Hr&Ht) (Hty&Hv&Hf&Hk). simpl in *.
    destruct (send_ok spec pr l channels m req Hl (mem_reachable_inv spec pr l channels m Hl Hm) Hty Hv Hf)
      as (v&ch&c&_&_&_&Hs). cbv zeta in Hs. rewrite Hn, (proj2 (in_range_true _ _)), andb_false_r in Hs by done.
    destruct Hs as (m'&Hs&_&Hn'&_). rewrite Hs; simpl. eexists _, (m', r). split; [done|]. split; [|by apply send_reads].
    destruct (send_frame _ _ _ _ Hs) as (E1&E2&_). split_and!; simpl; [by exists l|by eapply MReach_send|congruence|done|by rewrite E1, E2].
  - intros [m r] done [m' r'] ([l Hl]&[Hm Hn]&Hr&Ht) H. simpl in *.
    destruct (mem_tick spec m) as [[d x]|] eqn:Htk; simpl in H; [|done]. injection H as <- <- <-.
    pose proof (mem_reachable_inv spec pr l channels m Hl Hm) as Hinv.
    destruct (mem_tick_reads l channels m d x Hl Hinv Htk) as (E1&E2&Hp). destruct (mem_tick_inv spec l channels m d x Hinv Htk) as [_ En].
    split; [|done]. split_and!; simpl; [by exists l|by eapply MReach_tick|congruence|done|by rewrite E1, E2].
  - intros [m r] _ H. simpl in *. by apply pending_reads.
  - intros [m r] a core ([l Hl]&[Hm Hn]&Hr&Ht) Hc. simpl in *.
    destruct (page_allocator_total (r 0%nat) a core m (Hr _) Hc Ht) as (a'&m'&Hp&Ht'). rewrite Hp; simpl.
    destruct (page_allocator_frame _ _ _ _ _ _ Hp) as (_&_&Ec&_&En).
    destruct (En _ _ (mi_sized _ _ _ _ (mem_reachable_inv spec pr l channels m Hl Hm))) as [_ Hn'].
    exists a', (m', λ i, r (Datatypes.S i)). split; [done|].
    split; [split_and!; simpl; [by exists l|by eapply MReach_alloc|congruence|intros; apply Hr|done]|].
    simpl. unfold mem_reads. by rewrite Ec.
  - intros [m r] core ([l Hl]&[Hm Hn]&Hr&Ht) Hk. simpl in *.
    pose proof (mem_record_ok spec l channels m core (mem_reachable_inv spec pr l channels m Hl Hm)) as Hrec.
    rewrite Hn, (proj2 (in_range_true _ _)) in Hrec by done. destruct Hrec as (m'&Hm'&_&Hn'). rewrite Hm'. simpl.
    destruct (mem_record_frame _ _ _ Hm') as (E1&E2&E3). exists (m', r). split; [done|]. split; [|done].
    split_and!; simpl; [by exists l|by eapply MReach_record|congruence|done|by rewrite E2, E3].
Defined.
End Iface.
