(* ===== verification/ProcessorInit.v ===== *)
(** * The processor that the constructor builds

    [new_processor] succeeds, lays the cache hierarchy out as [layout] says, and
    establishes the invariant of [ProcessorInv]; loading the queues and traces
    of the cores keeps it. *)

From S2P Require Import Prelude Request Memory MemoryMap Window Cache CacheInv Trace Processor ProcessorInv.

(** ** Caches *)

Definition new_system (s : Caches) : Prop :=
  first_level s = L1 ∧ last_level s = L1 ∧ wait_list s = [] ∧ hit_list s = [].

Lemma cache_ok_empty next c :
  geometry c → cache_lines c = ∅ → mshr_entries c = [] → 0 ≤ mshr_entry_num c → cache_ok next c.
Proof.
  intros Hg Hl Hm Hn. split; rewrite ?Hl, ?Hm; simpl; try done; constructor.
Qed.

Lemma new_l1_ok s pim :
  new_system s →
  ∃ c, new_cache (Z.shiftl 1 15) (Z.shiftl 1 3) (Z.shiftl 1 6) 16 L1 s pim = Some c ∧
    cache_ok (next_lid s) c ∧ single_level 4 c ∧ index_offset c = 6 ∧ mshr_entries c = [].
Proof.
  intros (H1&H2&_&_). unfold new_cache. rewrite H1, H2. eexists. split; [reflexivity|]. split_and!; try done.
  - apply cache_ok_empty; try done. split; simpl; try done. by exists 6.
  - split; simpl; try done; by destruct pim.
Qed.

Lemma new_l2_ok s pim :
  ∃ c, new_cache (if (pim : bool) then Z.shiftl 1 6 else Z.shiftl 1 18) (Z.shiftl 1 3) (Z.shiftl 1 6) 16 L2 s pim = Some c ∧
    mshr_entries c = [] ∧ higher_cache c = [].
Proof. unfold new_cache. destruct pim; eexists; (split; [reflexivity|done]). Qed.

Lemma cache_ok_links next hi lo c : cache_ok next c → cache_ok next (set_links hi lo c).
Proof.
  intros [[? ? ? ?] Hs ? ? ? ?]. split; try done. intros i ls Hi. destruct (Hs i ls Hi) as [? ? ? ?]. by split.
Qed.

Lemma single_level_links lat lo c : single_level lat c → single_level lat (set_links (higher_cache c) lo c).
Proof. intros [? ? ? ? ?]. by split. Qed.

Lemma concatlower_ok i j c d s :
  store s !! i = Some c → store s !! j = Some d → i ≠ j →
  concatlower i j s = Some (set_store (<[j := set_links (higher_cache d ++ [i]) (lower_cache d) d]>
                                        (<[i := set_links (higher_cache c) (Some j) c]> (store s))) s).
Proof.
  intros Hi Hj Hne. unfold concatlower. rewrite Hi; simpl. rewrite list_lookup_insert_ne by done. rewrite Hj; simpl. done.
Qed.

(** ** The cores *)

Section Init.
Context {M : Type} `{ML : MemoryLaws M}.
Variables (ty : CpuType) (cc l3 pim : bool) (junk : Z * Z * ReqType).
Hypothesis config : l3 = true → cc = true.

(** After the first [k] cores. *)
Record built (k : nat) (x : list Core * Caches) : Prop := {
  bu_system : new_system (snd x);
  bu_length : length (store (snd x)) = if cc then S (2 * k) else 1%nat;
  bu_layout : cc = true → layout k l3 (snd x);
  bu_empty : cc = true → ∀ j c, (j < k)%nat → store (snd x) !! l1_id j = Some c → mshr_entries c = [];
  bu_cores : length (fst x) = k ∧ ∀ j c, fst x !! j = Some c →
    core_ok cc j c ∧ Window.contents (window c) = []
}.

(** The hierarchy grows by the caches [c2] and [c1] of core [k]. *)
Lemma layout_grow k s c1 c2 llc :
  layout k l3 s → length (store s) = S (2 * k) → store s !! 0%nat = Some llc →
  cache_ok (next_lid s) c1 → single_level 4 c1 → index_offset c1 = 6 → mshr_entries c2 = [] → higher_cache c2 = [] →
  ∃ s', (s ← if negb l3 then Some (set_store (store s ++ [c2; c1]) s)
             else concatlower (l2_id k) 0 (set_store (store s ++ [c2; c1]) s);
         concatlower (l1_id k) (l2_id k) s) = Some s' ∧
    layout (S k) l3 s' ∧ length (store s') = S (2 * S k) ∧ next_lid s' = next_lid s ∧
    (new_system s → new_system s') ∧
    (∃ lo, store s' !! l1_id k = Some (set_links (higher_cache c1) lo c1)) ∧
    ∀ j, (j < k)%nat → store s' !! l1_id j = store s !! l1_id j.
Proof.
  intros Hl Hlen H0 Hok Hsl Ho Hm Hh. unfold l2_id, l1_id in *.
  set (st := store s ++ [c2; c1]).
  assert (L2k : st !! S (2 * k) = Some c2) by (unfold st; rewrite lookup_app_r by lia; by rewrite Hlen, Nat.sub_diag).
  assert (L1k : st !! S (S (2 * k)) = Some c1)
    by (unfold st; rewrite lookup_app_r by lia; replace (S (S (2 * k)) - length (store s))%nat with 1%nat by lia; done).
  assert (Hst0 : st !! 0%nat = Some llc) by (unfold st; rewrite lookup_app_l by lia; done).
  assert (Hold : ∀ i, (i < S (2 * k))%nat → st !! i = store s !! i) by (intros i Hi; unfold st; apply lookup_app_l; lia).
  assert (Hlst : length st = S (2 * S k)) by (unfold st; rewrite length_app; simpl; lia).
  set (c2' := if l3 then set_links [] (Some 0%nat) c2 else c2).
  set (st1 := if l3 then <[0%nat := set_links (higher_cache llc ++ [S (2 * k)]) (lower_cache llc) llc]>
                          (<[S (2 * k) := c2']> st) else st).
  assert (E1 : (if negb l3 then Some (set_store st s) else concatlower (S (2 * k)) 0 (set_store st s)) = Some (set_store st1 s)).
  { unfold st1, c2'. destruct l3; simpl; [|done]. rewrite (concatlower_ok _ _ c2 llc) by (done || lia). by rewrite Hh. }
  assert (M2 : st1 !! S (2 * k) = Some c2').
  { unfold st1, c2'. destruct l3; [|done]. rewrite list_lookup_insert_ne by lia. apply list_lookup_insert_eq. lia. }
  assert (M1 : st1 !! S (S (2 * k)) = Some c1).
  { unfold st1. destruct l3; [|done]. by rewrite !list_lookup_insert_ne by lia. }
  assert (Hh' : higher_cache c2' = []) by (unfold c2'; by destruct l3).
  assert (Hm' : mshr_entries c2' = []) by (unfold c2'; by destruct l3).
  assert (Hl1 : length st1 = S (2 * S k)) by (unfold st1; destruct l3; rewrite ?length_insert; done).
  assert (Hsame : ∀ i, (0 < i < S (2 * k))%nat → st1 !! i = store s !! i).
  { intros i Hi. unfold st1. destruct l3; rewrite ?list_lookup_insert_ne by lia; apply Hold; lia. }
  rewrite E1; cbn [mbind option_bind]. rewrite (concatlower_ok _ _ c1 c2') by (done || lia).
  eexists. split; [done|]. rewrite Hh'. simpl. destruct (la_llc _ _ _ Hl) as (x&Hx&Hxm&Hxh).
  assert (x = llc) as -> by congruence. split_and!; [|rewrite !length_insert; done|done|done| |].
  - split; simpl.
    + rewrite !list_lookup_insert_ne by lia. unfold st1. destruct l3.
      * eexists. rewrite list_lookup_insert_eq by (rewrite length_insert; lia). split_and!; [done|done|].
        change (higher_cache llc ++ [S (2 * k)] = map l2_id (seq 0 (S k))). rewrite Hxh, seq_S, map_app. done.
      * exists llc. done.
    + intros j Hj. unfold l2_id, l1_id. destruct (decide (j = k)) as [->|Hne].
      * eexists. rewrite list_lookup_insert_eq by (rewrite length_insert; lia). done.
      * rewrite !list_lookup_insert_ne by lia. rewrite Hsame by lia. apply Hl. lia.
    + intros j Hj. unfold l1_id. destruct (decide (j = k)) as [->|Hne].
      * eexists. rewrite list_lookup_insert_ne by lia. rewrite list_lookup_insert_eq by lia. split; [done|].
        split_and!; [by apply cache_ok_links|by apply single_level_links|done].
      * rewrite !list_lookup_insert_ne by lia. rewrite Hsame by lia. apply Hl. lia.
  - eexists. rewrite list_lookup_insert_ne by lia. by rewrite list_lookup_insert_eq by lia.
  - intros j Hj. rewrite !list_lookup_insert_ne by lia. apply Hsame. lia.
Qed.

Lemma add_cache_eq size assoc bs mshrs level (s : Caches) c :
  new_cache size assoc bs mshrs level s pim = Some c →
  add_cache size assoc bs mshrs level pim s = Some (length (store s), set_store (store s ++ [c]) s).
Proof. unfold add_cache. by intros ->. Qed.

Definition made (k : nat) (d : Dest) (l2 : option nat) : Core :=
  mkCore 0 0 (Z.of_nat k) false 0 ty d l2 SQ0 false (fst (fst junk)) false new_window
    (snd (fst junk)) (-1) (snd junk) false 0 (init_trace [] false) core_stats0.

Lemma made_ok k :
  let c := if cc then made k (ToCache (l1_id k)) (Some (l2_id k)) else made k ToMemory None in
  core_ok cc k c ∧ Window.contents (window c) = [].
Proof.
  assert (∀ d l2, window (made k d l2) = new_window) as Hw by done.
  pose proof (new_window_wf 4 128 ltac:(lia)) as Hwf. destruct cc; cbv zeta; rewrite Hw; (split; [|done]); by split.
Qed.

Lemma new_core_ok k x :
  built k x →
  ∃ c s, new_core (Z.of_nat k) ty (negb cc) (negb l3) pim junk (snd x) = Some (c, s) ∧ built (S k) (fst x ++ [c], s).
Proof.
  intros [Hsys Hlen Hlay Hempty [Hn Hcores]]. unfold new_core.
  assert (∀ c, core_ok cc k c ∧ Window.contents (window c) = [] → length (fst x ++ [c]) = S k ∧
    ∀ j c', (fst x ++ [c]) !! j = Some c' → core_ok cc j c' ∧ Window.contents (window c') = []) as Hsnoc.
  { intros c Hc. rewrite length_app, Hn. split; [simpl; lia|]. intros j c' [Hj|[Hj Hc']]%lookup_app_Some; [by apply Hcores|].
    apply list_lookup_singleton_Some in Hc' as [Hj0 <-]. by replace j with k by lia. }
  pose proof (made_ok k) as Hmade. cbv zeta in Hmade.
  destruct (decide (cc = true)) as [Ecc|Ecc%not_true_is_false].
  2:{ assert (l3 = false) as El by (destruct (decide (l3 = true)); [by rewrite config in Ecc|by apply not_true_is_false]).
      rewrite Ecc, El in *. eexists _, _. split; [done|]. split; simpl; [done|by rewrite Ecc|by rewrite Ecc|by rewrite Ecc|].
      rewrite Ecc. by apply Hsnoc. }
  rewrite Ecc in Hmade. specialize (Hlay Ecc). specialize (Hempty Ecc). rewrite Ecc in Hlen |- *. cbn [negb].
  destruct (la_llc _ _ _ Hlay) as (llc&H0&_).
  destruct (new_l2_ok (snd x) pim) as (c2&E2&Hm2&Hh2). cbv zeta. rewrite (add_cache_eq _ _ _ _ _ _ _ E2). cbn [mbind option_bind].
  set (s1 := set_store (store (snd x) ++ [c2]) (snd x)).
  destruct (new_l1_ok s1 pim Hsys) as (c1&E1&Hok&Hsl&Ho&Hm1). rewrite (add_cache_eq _ _ _ _ _ _ _ E1). cbn [mbind option_bind].
  destruct (layout_grow k (snd x) c1 c2 llc Hlay Hlen H0 Hok Hsl Ho Hm2 Hh2) as (s'&Hs'&Hl'&Hlen'&_&Hsys'&(lo&Hnew)&Hsame).
  change (store s1) with (store (snd x) ++ [c2]). rewrite length_app, Hlen. simpl length.
  replace (S (2 * k) + 1)%nat with (S (S (2 * k))) by lia.
  change (set_store _ s1) with (set_store ((store (snd x) ++ [c2]) ++ [c1]) (snd x)). rewrite <-app_assoc.
  change (S (2 * k)) with (l2_id k). change (S (l2_id k)) with (l1_id k). cbn [app].
  destruct (if negb l3 then Some _ else _) as [s2|]; [|done]. cbn [mbind option_bind] in *.
  rewrite Hs'. cbn [mbind option_bind]. eexists _, s'. split; [reflexivity|]. split; simpl.
  - by apply Hsys'.
  - rewrite Hlen'. by rewrite Ecc.
  - done.
  - intros _ j c Hj Hc. destruct (decide (j = k)) as [->|Hne]; [rewrite Hnew in Hc; by simplify_eq|].
    rewrite Hsame in Hc by lia. eapply Hempty; [|done]. lia.
  - rewrite Ecc in Hsnoc |- *. by apply Hsnoc.
Qed.

Lemma new_cores_ok k (s : Caches) :
  built 0 ([], s) → ∃ x, new_cores k ty (negb cc) (negb l3) pim junk s = Some x ∧ built k x.
Proof.
  intros Hb. unfold new_cores. set (f := λ (acc : list Core * Caches) (i : nat), _).
  destruct (foldM_ok f built ([], s) (seq 0 k) Hb) as (x&Hx&Hk).
  - intros i b j [-> _]%lookup_seq Hi. unfold f. simpl. destruct (new_core_ok i j Hi) as (c&s'&E&Hb'). rewrite E. by eexists.
  - rewrite length_seq in Hk. exists x. done.
Qed.

(** ** The constructor *)

Theorem new_processor_ok n traces early m :
  mb_ok m → mb_reads m = [] → Z.of_nat n ≤ mb_cores →
  ∃ p, new_processor n traces ty cc l3 pim early junk m = Some p ∧ proc_ok n cc l3 p ∧ length (cores p) = n.
Proof.
  intros Hm Hr Hco. unfold new_processor.
  assert (∃ c, new_cache (Z.shiftl 1 23) (Z.shiftl 1 3) (Z.shiftl 1 6) (16 * Z.of_nat traces) L3 (new_cachesystem cc l3) pim = Some c ∧
    mshr_entries c = [] ∧ higher_cache c = []) as (llc&El&Hml&Hhl).
  { unfold new_cache. destruct pim; eexists; (split; [reflexivity|done]). }
  rewrite (add_cache_eq _ _ _ _ _ _ _ El). cbn [mbind option_bind].
  destruct (new_cores_ok n (set_store (store (new_cachesystem cc l3) ++ [llc]) (new_cachesystem cc l3))) as ([cs s]&Hcs&Hb).
  { split; simpl; try done.
    - by destruct cc.
    - intros _. split; simpl; [|lia|lia]. exists llc. split_and!; [done|done|by destruct l3]. }
  rewrite Hcs. cbn [mbind option_bind]. eexists. split; [done|]. destruct Hb as [Hsys Hlen Hlay Hempty [Hn Hcores]]. simpl in *.
  destruct Hsys as (_&_&Hw&Hh). split; [|done]. split; simpl; try done.
  - split; simpl; [done|done|by rewrite Hw|done].
  - unfold inflight; simpl. rewrite Hr, Hw, Hh. split; [constructor|done| |].
    + intros k c Hk. destruct (Hcores k c Hk) as [Hok Hc]. split; [done|]. intros a. rewrite Hc. by intros ?%not_elem_of_nil.
    + intros Ecc k c Hk Hc b. simpl. rewrite (Hempty Ecc k c Hk Hc). by intros ?%not_elem_of_nil.
Qed.
End Init.

(** ** Loading the traces *)

Section Load.
Context {M : Type} `{ML : MemoryLaws M}.
Variables (n : nat) (cc l3 : bool).

Lemma load_split_ok p x :
  proc_ok n cc l3 p → (fst x < n)%nat → ∃ p', load_split p x = Some p' ∧ proc_ok n cc l3 p'.
Proof.
  intros Hp Hx. pose proof (wk_length _ _ _ _ _ (pk_waits _ _ _ _ Hp)) as Hl.
  destruct (lookup_lt_is_Some_2 (cores p) (fst x)) as [c Hc]; [lia|]. unfold load_split. rewrite Hc; cbn [mbind option_bind].
  destruct (get_first_request_ok n cc l3 (fst x) (set_split_trace true (load_trace (snd x) c)) (penv p)) as (c'&e'&E&Hg&Hf).
  { eapply good_same; [|by apply (proc_core_good n cc l3 p (fst x) c)]. done. }
  rewrite E; cbn [mbind option_bind]. eexists. split; [done|]. eapply proc_put_core; try done. by apply grows_same.
Qed.

Lemma load_traces_ok p txts : proc_ok n cc l3 p → ∃ p', load_traces txts p = Some p' ∧ proc_ok n cc l3 p'.
Proof.
  intros Hp. unfold load_traces. destruct (foldM_ok load_split (λ _ p, proc_ok n cc l3 p) p (zip (seq 0 (length (cores p))) txts) Hp)
    as (p'&?&?); [|by eauto].
  intros i [k txt] q Hi Hq. apply load_split_ok; [done|]. simpl.
  apply lookup_zip_with_Some in Hi as (k'&t&E&Hk%lookup_seq&_). injection E as -> _. destruct Hk as [-> Hk].
  pose proof (wk_length _ _ _ _ _ (pk_waits _ _ _ _ Hp)) as Hl. lia.
Qed.

(** A record for the queue of a core. *)
Lemma give_ok i r a p cs :
  proc_ok n cc l3 p → give i r a (cores p) = Some cs → proc_ok n cc l3 (set_cores cs p).
Proof.
  intros Hp H. unfold give, zlookup in H. destruct (i <? 0); [done|].
  destruct (cores p !! Z.to_nat i) as [c|] eqn:Hc; simpl in H; [|done]. injection H as <-.
  pose proof (proc_core_good n cc l3 p _ c Hp Hc) as Hg.
  pose proof (proc_put_core n cc l3 p (Z.to_nat i) c (set_rqst_queue (sq_push (tr_bubbles r) a (tr_type r) (rqst_queue c)) c)
    (penv p) Hp Hc) as H. replace (set_penv (penv p) _) with (set_cores (<[Z.to_nat i := set_rqst_queue (sq_push (tr_bubbles r) a (tr_type r) (rqst_queue c)) c]> (cores p)) p) in H by (by destruct p).
  apply H; [|apply grows_refl]. destruct Hg as [[? ? ? ? ? Hq] ? ? ?]. split; try done. split; try done. by apply sq_push_ok.
Qed.

Lemma page_proc_ok p a core a' m' :
  proc_ok n cc l3 p → 0 ≤ core → mb_page_allocator a core (snd (penv p)) = Some (a', m') →
  proc_ok n cc l3 (set_penv (fst (penv p), m') p).
Proof.
  intros [? ? ? [Hm ? ? ?] Hw] Hc H. destruct (mb_page_ok (snd (penv p)) a core Hm Hc) as (a2&m2&H2&Hok&Hr).
  rewrite H in H2. injection H2 as <- <-. split; try done. unfold inflight in *. simpl. by rewrite Hr.
Qed.

Lemma give_zsim_ok r cpu_id offsets p offsets' cs m :
  proc_ok n cc l3 p → 0 ≤ cpu_id → Forall (Z.le 0) offsets →
  give_zsim r cpu_id offsets (cores p) (snd (penv p)) = Some (offsets', cs, m) →
  Forall (Z.le 0) offsets' ∧ proc_ok n cc l3 (set_cores cs (set_penv (fst (penv p), m) p)).
Proof.
  intros Hp Hid Hoff H. unfold give_zsim in H. destruct (_ =? -1).
  { simplify_eq. split; [done|]. by destruct p as [? [? ?]]. }
  destruct (_ <=? 256).
  - destruct (mb_page_allocator _ _ _) as [[a m']|] eqn:Hm; simpl in H; [|done]. destruct (negb _); simpl in H; [|done].
    destruct (give _ _ _ _) as [cs'|] eqn:Hg; simpl in H; [|done]. simplify_eq. split; [done|].
    eapply give_ok; [by eapply page_proc_ok|done].
  - destruct (zlookup offsets cpu_id) as [k|] eqn:Hk; simpl in H; [|done].
    assert (0 ≤ k) as Hk0.
    { unfold zlookup in Hk. destruct (cpu_id <? 0); [done|]. rewrite Forall_forall in Hoff. apply Hoff. by eapply list_elem_of_lookup_2. }
    destruct (mb_page_allocator _ _ _) as [[a m']|] eqn:Hm; simpl in H; [|done].
    destruct (give _ _ _ _) as [cs'|] eqn:Hg; simpl in H; [|done]. simplify_eq. split.
    + apply Forall_insert; [done|lia].
    + eapply give_ok; [|done]. eapply page_proc_ok; [done| |done]. lia.
Qed.

Lemma get_zsim_cpu r cpu_id t more r' cpu_id' t' :
  get_zsim_request r cpu_id t = (more, r', cpu_id', t') → 0 ≤ cpu_id → 0 ≤ cpu_id'.
Proof.
  unfold get_zsim_request. destruct (getline (file t)) as [l f]. destruct (_ || _); [by intros [= <- <- <- <-]|].
  destruct (_ <? 5)%nat; [by intros [= <- <- <- <-]|]. destruct (parse_zsim (split_str l) r cpu_id) as [[r2 id2]|] eqn:Hp;
    intros [= <- <- <- <-]; [|done]. intros Hid. revert Hp. unfold parse_zsim. destruct (_ && _); [|by intros [= <- <-]].
  intros H. run_opt. case_match; [by simplify_eq|]. run_opt. simplify_eq. unfold as_unsigned. apply Z.mod_pos_bound. lia.
Qed.

Lemma distribute_ok fuel r cpu_id t offsets p cs m :
  proc_ok n cc l3 p → 0 ≤ cpu_id → Forall (Z.le 0) offsets →
  distribute_zsim fuel r cpu_id t offsets (cores p) (snd (penv p)) = Some (cs, m) →
  proc_ok n cc l3 (set_cores cs (set_penv (fst (penv p), m) p)).
Proof.
  revert r cpu_id t offsets p. induction fuel as [|fuel IH]; intros r cpu_id t offsets p Hp Hid Hoff H; simpl in H; [done|].
  destruct (get_zsim_request r cpu_id t) as [[[more r'] id] t'] eqn:Hz. pose proof (get_zsim_cpu _ _ _ _ _ _ _ Hz Hid) as Hid'.
  destruct more; simpl in H.
  2:{ simplify_eq. by destruct p as [? [? ?]]. }
  destruct (give_zsim r' id offsets (cores p) (snd (penv p))) as [[[offs cs'] m']|] eqn:Hg; simpl in H; [|done].
  destruct (give_zsim_ok _ _ _ _ _ _ _ Hp Hid' Hoff Hg) as [Hoff' Hp'].
  pose proof (IH r' id t' offs _ Hp' Hid' Hoff' H) as Hr. exact Hr.
Qed.

(** The first record of each queue. *)
Lemma first_records_ok p : proc_ok n cc l3 p → ∃ cs, mapM first_record (cores p) = Some cs ∧ proc_ok n cc l3 (set_cores cs p).
Proof.
  intros [Hn Hs Hcfg He [Hr Hl Hc Hm]].
  assert (∀ k c, cores p !! k = Some c → ∃ c', first_record c = Some c' ∧ core_ok cc k c' ∧ window c' = window c) as Hf.
  { intros k c Hk. destruct (Hc k c Hk) as [[? ? ? ? ? Hq] _]. unfold first_record. destruct (sq_is_empty (rqst_queue c)) eqn:E.
    - eexists. split; [done|]. by split.
    - destruct (sq_front_ok _ Hq E) as (b&a&t&q&Hfr&Hp&Hq'). rewrite Hfr; simpl. rewrite Hp; simpl. eexists. split; [done|]. by split. }
  destruct (mapM first_record (cores p)) as [cs|] eqn:E.
  - apply mapM_Some_1 in E. exists cs. split; [done|]. split; try done. split; simpl; try done; [by rewrite <-(Forall2_length _ _ _ E)|].
    intros k c' Hk. destruct (Forall2_lookup_r _ _ _ _ _ E Hk) as (c&Hck&Hfc). destruct (Hf k c Hck) as (c2&Hc2&Hok&Hw).
    assert (c2 = c') as -> by congruence. split; [done|]. unfold window_waits. rewrite Hw. by destruct (Hc k c Hck).
  - exfalso. assert (Forall (λ c, is_Some (first_record c)) (cores p)) as Hall.
    { apply Forall_lookup. intros k c Hk. destruct (Hf k c Hk) as (c'&->&_). by eexists. }
    apply mapM_is_Some_2 in Hall as [? Hcs]. congruence.
Qed.
End Load.
