(* ===== verification/CacheTheorems.v ===== *)
(** * Theorems about a cache

    A cache as the cores see it, from its construction: any sequence of
    [send]s and [callback]s behaves as the non-blocking LRU cache of
    [CacheInv], and keeps its sets and its MSHR well formed. *)

From S2P Require Import Prelude Request Memory MemoryMap Cache CacheInv.

(** ** Sequences of operations *)

Inductive cache_op := OpSend (req : Request) | OpCallback (req : Request).

(** The requests of the cores are reads and writes. *)
Definition op_ok (o : cache_op) : Prop :=
  match o with OpSend req => type req = READ ∨ type req = WRITE | OpCallback _ => True end.

(** The answers to the [send]s, and the final state. *)
Fixpoint run_ops (i : nat) (ops : list cache_op) (s : Caches) : option (list bool * Caches) :=
  match ops with
  | [] => Some ([], s)
  | OpSend req :: ops =>
    '(ok, s) ← csend i req s; '(oks, s) ← run_ops i ops s; Some (ok :: oks, s)
  | OpCallback req :: ops => s ← ccallback i req s; run_ops i ops s
  end.

(** The same on the specification, which answers with outcomes. *)
Section Spec.
Variables (ways limit n off : Z).

Fixpoint a_run (ops : list cache_op) (a : acache) : list (Request * outcome) * acache :=
  match ops with
  | [] => ([], a)
  | OpSend req :: ops =>
    let r := a_send ways limit n (Z.shiftr (addr req) off) (bool_decide (type req = WRITE)) a in
    let r' := a_run ops (snd r) in
    ((req, fst r) :: fst r', snd r')
  | OpCallback req :: ops => a_run ops (a_callback n (Z.shiftr (addr req) off) a)
  end.
End Spec.

Definition accepted (o : Request * outcome) : bool := match snd o with Refused => false | _ => true end.
Definition empty_cache : acache := mkACache (λ _, []) [].

(** The hits to report, and the requests for the memory with their block: the
    line written back first, then the line that is fetched. *)
Definition hits (lat : Z) (outs : list (Request * outcome)) : list (Z * Request) :=
  concat (map (λ o, match snd o with Hit => [(lat, fst o)] | _ => [] end) outs).
Definition lowered (lat off : Z) (o : Request * outcome) : list (Z * ReqType * Z) :=
  match snd o with
  | Missed wb => (if wb is Some b then [(lat, WRITE, b)] else []) ++ [(lat, READ, Z.shiftr (addr (fst o)) off)]
  | _ => []
  end.
Definition lowers (lat off : Z) (outs : list (Request * outcome)) : list (Z * ReqType * Z) :=
  concat (map (lowered lat off) outs).
Definition wkey (off : Z) (e : Z * Request) : Z * ReqType * Z :=
  (fst e, type (snd e), Z.shiftr (addr (snd e)) off).

(** ** A new cache *)

Lemma pow2_check_pow k : 0 ≤ k → pow2_check (2 ^ k) = true.
Proof.
  intros Hk. unfold pow2_check. apply Z.eqb_eq. replace (2 ^ k - 1) with (Z.ones k) by (rewrite Z.ones_equiv; lia).
  rewrite Z.land_ones, Z.mod_same by lia. done.
Qed.

Lemma calc_log2_pow k : 0 ≤ k ≤ 30 → calc_log2 (2 ^ k) = Some k.
Proof.
  intros Hk. pose proof (Z.pow_pos_nonneg 2 k). pose proof (Z.pow_le_mono_r 2 k 30).
  rewrite calc_log2_ok, Z.log2_pow2 by lia. done.
Qed.

Record created (la lb lo mshrs : Z) (c : Cache) : Prop := {
  cr_assoc : assoc c = 2 ^ lb;
  cr_num : block_num c = 2 ^ (la - lb - lo);
  cr_offset : index_offset c = lo;
  cr_mshrs : mshr_entry_num c = mshrs
}.

Lemma new_cache_ok la lb lo mshrs cc l3 pim :
  0 ≤ lb → 0 ≤ lo → lb + lo ≤ la ≤ 30 → 0 ≤ mshrs →
  ∃ c, new_cache (2 ^ la) (2 ^ lb) (2 ^ lo) mshrs L1 (new_cachesystem cc l3) pim = Some c ∧
    created la lb lo mshrs c ∧ cache_ok 0 c ∧ single_level 4 c ∧ abs c ≡ empty_cache.
Proof.
  intros Hb Ho Ha Hm. unfold new_cache. rewrite !pow2_check_pow by lia.
  pose proof (Z.pow_pos_nonneg 2 (lo + lb) ltac:(lia) ltac:(lia)).
  rewrite (proj2 (Z.leb_le _ _)) by (apply Z.pow_le_mono_r; lia). rewrite <-Z.pow_add_r by lia.
  rewrite (proj2 (Z.eqb_neq _ 0)) by lia. cbn [negb].
  rewrite Z.quot_div_nonneg by (try apply Z.pow_nonneg; lia). rewrite <-Z.pow_sub_r by lia.
  replace (la - (lo + lb)) with (la - lb - lo) by lia. rewrite !calc_log2_pow by lia. cbn [mbind option_bind].
  eexists. split; [done|]. split; [by split|]. split_and!; [|split; try done; by destruct pim|done].
  set (k := la - lb - lo). assert (Hk : 0 ≤ k ≤ 30) by lia.
  pose proof (Z.pow_pos_nonneg 2 k ltac:(lia) ltac:(lia)). pose proof (Z.pow_le_mono_r 2 k 30 ltac:(lia) ltac:(lia)).
  assert (to_uint (2 ^ k - 1) = 2 ^ k - 1) as Hmask by (apply Z.mod_small; lia).
  split; simpl; try done; [|constructor]. split; simpl; [lia|done|exists k; split_and!; done || lia|apply Z.pow_pos_nonneg; lia].
Qed.

(** A set holds no tag twice. *)
Lemma tags_distinct next c k ls : geometry c → set_ok next c k ls → NoDup (map ltag ls).
Proof.
  intros Hg [_ Hb _ Hf]. apply NoDup_alt. intros x y t Hx Hy. rewrite lookup_map in Hx, Hy.
  destruct (ls !! x) as [l|] eqn:Ex; [|done]. destruct (ls !! y) as [l'|] eqn:Ey; [|done]. simpl in Hx, Hy.
  injection Hx as <-. injection Hy as Hy.
  apply (proj1 (NoDup_alt _) Hb x y (block c (laddr l))); rewrite lookup_map; [by rewrite Ex|rewrite Ey; simpl; f_equal].
  pose proof (Forall_lookup_1 _ _ _ _ Hf Ex) as (H1&T1&_). pose proof (Forall_lookup_1 _ _ _ _ Hf Ey) as (H2&T2&_).
  rewrite T1, T2, !get_tag_block in Hy by done. pose proof (block_num_pos c Hg).
  rewrite (Z.div_mod (block c (laddr l')) (block_num c)), (Z.div_mod (block c (laddr l)) (block_num c)) by lia. congruence.
Qed.

(** ** The simulation *)

Section Sim.
Variables (la lb lo mshrs : Z) (i : nat).

Record sim (outs : list (Request * outcome)) (a : acache) (s : Caches) (c : Cache) : Prop := {
  si_store : store s !! i = Some c;
  si_ok : cache_ok (next_lid s) c;
  si_level : single_level 4 c;
  si_created : created la lb lo mshrs c;
  si_abs : abs c ≡ a;
  si_clk : sclk s = 0;
  si_hits : hit_list s = hits 4 outs;
  si_waits : map (wkey lo) (wait_list s) = lowers 4 lo outs
}.

Lemma created_same c c' : same_config c c' → created la lb lo mshrs c → created la lb lo mshrs c'.
Proof. intros (?&?&?&->) [? ? ? ?]. by split. Qed.

Lemma sim_send outs a s c req :
  sim outs a s c → type req = READ ∨ type req = WRITE →
  ∃ ok s' c', csend i req s = Some (ok, s') ∧
    let r := a_send (2 ^ lb) mshrs (2 ^ (la - lb - lo)) (Z.shiftr (addr req) lo) (bool_decide (type req = WRITE)) a in
    ok = accepted (req, fst r) ∧ sim (outs ++ [(req, fst r)]) (snd r) s' c'.
Proof.
  intros [Hi Hok Hsl Hcr Habs Hclk Hh Hw] Hty.
  destruct (csend_ok 4 s i c req Hi Hok Hsl Hty) as (ok&s'&Hs&[Hc1 Hn _ (c'&Hst&Hok'&Hsame&Ha&He)]).
  exists ok, s', c'. split; [done|]. unfold block in Ha, He. rewrite (cr_assoc _ _ _ _ _ Hcr), (cr_num _ _ _ _ _ Hcr), (cr_offset _ _ _ _ _ Hcr),
    (cr_mshrs _ _ _ _ _ Hcr) in Ha, He. set (w := bool_decide _) in *. set (b := Z.shiftr _ _) in *.
  pose proof (a_send_proper (2 ^ lb) mshrs (2 ^ (la - lb - lo)) b w _ _ Habs) as [E1 E2].
  cbv zeta. rewrite <-E1. set (out := fst (a_send _ _ _ _ _ (abs c))) in *. unfold send_effect in He. rewrite Hclk in *. split.
  - unfold accepted; simpl. destruct out; apply He.
  - assert (∀ l, map (wkey lo) (l ++ []) = map (wkey lo) l) as Hnil by (intros; by rewrite app_nil_r).
    split; [rewrite Hst; apply list_lookup_insert_eq; by eapply lookup_lt_Some|done|by eapply single_level_same|by eapply created_same| |done|..].
    + by etrans.
    + unfold hits. rewrite map_app, concat_app. fold (hits 4 outs). simpl. rewrite <-Hh.
      destruct out; simpl in *; rewrite ?app_nil_r; apply He.
    + unfold lowers. rewrite map_app, concat_app. fold (lowers 4 lo outs). simpl. rewrite <-Hw.
      destruct out as [| | |wb]; simpl in *; rewrite ?app_nil_r; [by destruct He as (_&_&->)..|].
      destruct He as (_&_&v&->&Hv). rewrite map_app. f_equal. unfold lowered; simpl.
      destruct wb as [b'|]; [|done]. simpl. unfold wkey; simpl.
      unfold block in Hv. rewrite (cr_offset _ _ _ _ _ Hcr) in Hv. by rewrite Hv.
Qed.

Lemma sim_callback outs a s c req :
  sim outs a s c →
  ∃ s' c', ccallback i req s = Some s' ∧ sim outs (a_callback (2 ^ (la - lb - lo)) (Z.shiftr (addr req) lo) a) s' c'.
Proof.
  intros [Hi Hok Hsl Hcr Habs Hclk Hh Hw].
  destruct (callback_ok 3 s i c req Hi Hok (sl_higher _ _ Hsl)) as (c'&Hc&Hok'&Hsame&Ha).
  eexists _, c'. split; [exact Hc|]. unfold block in Ha. rewrite (cr_num _ _ _ _ _ Hcr), (cr_offset _ _ _ _ _ Hcr) in Ha.
  split; [by eapply put_cache_lookup|done|by eapply single_level_same|by eapply created_same|by rewrite Ha, Habs|done..].
Qed.

Lemma sim_run ops outs a s c :
  sim outs a s c → Forall op_ok ops →
  ∃ s' c', let r := a_run (2 ^ lb) mshrs (2 ^ (la - lb - lo)) lo ops a in
    run_ops i ops s = Some (map accepted (fst r), s') ∧ sim (outs ++ fst r) (snd r) s' c'.
Proof.
  intros Hsim Hops. revert outs a s c Hsim. induction Hops as [|[req|req] ops Ho _ IH]; intros outs a s c Hsim.
  - exists s, c. simpl. by rewrite app_nil_r.
  - destruct (sim_send _ _ _ _ req Hsim Ho) as (ok&s1&c1&E&->&H1). cbn [run_ops]. rewrite E; cbn [mbind option_bind].
    destruct (IH _ _ _ _ H1) as (s2&c2&E2&H2). rewrite E2; cbn [mbind option_bind].
    exists s2, c2. cbn [a_run fst snd map]. split; [done|]. by rewrite <-(assoc_L (++)) in H2.
  - destruct (sim_callback _ _ _ _ req Hsim) as (s1&c1&E&H1). cbn [run_ops]. rewrite E; cbn [mbind option_bind]. by eapply IH.
Qed.
End Sim.

Lemma add_cache_sim la lb lo mshrs cc l3 pim :
  0 ≤ lb → 0 ≤ lo → lb + lo ≤ la ≤ 30 → 0 ≤ mshrs →
  ∃ s c, add_cache (2 ^ la) (2 ^ lb) (2 ^ lo) mshrs L1 pim (new_cachesystem cc l3) = Some (0%nat, s) ∧
    sim la lb lo mshrs 0 [] empty_cache s c.
Proof.
  intros Hb Ho Ha Hm. destruct (new_cache_ok la lb lo mshrs cc l3 pim Hb Ho Ha Hm) as (c&E&Hcr&Hok&Hsl&Habs).
  eexists _, c. unfold add_cache. rewrite E. split; [done|]. by split.
Qed.

(** ** Claims *)

(** C32: a first-level cache of any geometry refines the non-blocking LRU cache:
    after any sequence of reads, writes and callbacks the answers, the contents
    of the sets in recency order, the outstanding misses, the hits to report
    and the requests to the memory (write-backs first) are those of the
    specification, and no operation aborts. *)
Theorem cache_refines_lru la lb lo mshrs cc l3 pim ops :
  0 ≤ lb → 0 ≤ lo → lb + lo ≤ la ≤ 30 → 0 ≤ mshrs → Forall op_ok ops →
  let r := a_run (2 ^ lb) mshrs (2 ^ (la - lb - lo)) lo ops empty_cache in
  ∃ i s0 s c, add_cache (2 ^ la) (2 ^ lb) (2 ^ lo) mshrs L1 pim (new_cachesystem cc l3) = Some (i, s0) ∧
    run_ops i ops s0 = Some (map accepted (fst r), s) ∧ store s !! i = Some c ∧ abs c ≡ snd r ∧
    hit_list s = hits 4 (fst r) ∧ map (wkey lo) (wait_list s) = lowers 4 lo (fst r).
Proof.
  intros Hb Ho Ha Hm Hops r. destruct (add_cache_sim la lb lo mshrs cc l3 pim Hb Ho Ha Hm) as (s0&c0&E&H0).
  destruct (sim_run _ _ _ _ _ ops [] _ s0 c0 H0 Hops) as (s&c&Hr&[? ? ? ? ? ? ? ?]). by exists 0%nat, s0, s, c.
Qed.

(** A set of two ways: block 8 evicts block 0, which was written. *)
Definition lru_ops : list cache_op :=
  let rq a t := Request_addr a t 0 in
  [OpSend (rq 0 WRITE); OpSend (rq 32 READ); OpCallback (rq 0 READ); OpCallback (rq 4 READ); OpSend (rq 256 READ);
   OpCallback (rq 256 READ); OpSend (rq 512 READ); OpSend (rq 512 WRITE); OpSend (rq 768 READ); OpSend (rq 256 READ);
   OpSend (rq 1024 READ)].

Lemma lru_ops_ok : Forall op_ok lru_ops.
Proof. unfold lru_ops. repeat (apply List.Forall_cons; [first [by left|by right|done]|]). apply List.Forall_nil. Qed.

Lemma cache_refines_lru_witness :
  let r := a_run 2 4 4 6 lru_ops empty_cache in
  (∃ i s0 s c, add_cache 512 2 64 4 L1 false (new_cachesystem true true) = Some (i, s0) ∧
    run_ops i lru_ops s0 = Some (map accepted (fst r), s) ∧ store s !! i = Some c ∧ abs c ≡ snd r ∧
    hit_list s = hits 4 (fst r) ∧ map (wkey 6) (wait_list s) = lowers 4 6 (fst r)) ∧
  map snd (fst r) = [Missed None; Merged; Missed None; Missed (Some 0); Merged; Missed None; Refused; Refused].
Proof.
  split; [|vm_compute; reflexivity].
  apply (cache_refines_lru 9 1 6 4 true true false lru_ops); try lia. exact lru_ops_ok.
Defined.

(** C33: whatever happens to it, a cache is well formed: a set holds at most
    [assoc] lines, each of a block of that set and no block twice; at most
    [mshr_entry_num] misses are outstanding; and a block is outstanding exactly
    when its line is in the cache and locked. *)
Theorem cache_well_formed la lb lo mshrs cc l3 pim ops i s0 oks s c :
  0 ≤ lb → 0 ≤ lo → lb + lo ≤ la ≤ 30 → 0 ≤ mshrs → Forall op_ok ops →
  add_cache (2 ^ la) (2 ^ lb) (2 ^ lo) mshrs L1 pim (new_cachesystem cc l3) = Some (i, s0) →
  run_ops i ops s0 = Some (oks, s) → store s !! i = Some c →
  (∀ k ls, cache_lines c !! k = Some ls →
     Z.of_nat (length ls) ≤ assoc c ∧ NoDup (map ltag ls) ∧
     Forall (λ l, get_index c (laddr l) = k ∧ ltag l = get_tag c (laddr l)) ls) ∧
  Z.of_nat (length (mshr_entries c)) ≤ mshr_entry_num c ∧
  ∀ a, is_Some (hit_mshr c a) ↔ ∃ k l, find_line c a (lines_of c a) = Some (k, l) ∧ lock l = true.
Proof.
  intros Hb Ho Ha Hm Hops Hadd Hrun Hc. destruct (add_cache_sim la lb lo mshrs cc l3 pim Hb Ho Ha Hm) as (s0'&c0&E&H0).
  rewrite Hadd in E. injection E as -> <-.
  destruct (sim_run _ _ _ _ _ ops [] _ s0 c0 H0 Hops) as (s'&c'&Hr&[Hc' Hok _ _ _ _ _ _]). rewrite Hrun in Hr. injection Hr as _ <-.
  rewrite Hc in Hc'. injection Hc' as <-. pose proof (co_geom _ _ Hok) as Hg. split_and!.
  - intros k ls Hk. destruct (co_sets _ _ Hok k ls Hk) as [Hl Hbl _ Hf]. split_and!; [done| |].
    + apply (tags_distinct (next_lid s) c k); [done|]. by apply (co_sets _ _ Hok).
    + eapply Forall_impl; [exact Hf|]. simpl. intros l (?&?&_). by rewrite get_index_block.
  - apply Hok.
  - intros a. rewrite <-(outstanding_locked _ _ _ Hok). pose proof (hit_mshr_abs c a Hg) as Eh.
    destruct (hit_mshr c a) as [[k e]|]; simpl in Eh.
    + apply list_find_Some in Eh as (Eh&<-&_). split; [intros _; by eapply list_elem_of_lookup_2|by eexists].
    + apply list_find_None in Eh. rewrite Forall_forall in Eh. split; [by intros []|]. intros Hin. by destruct (Eh _ Hin).
Qed.

Lemma cache_well_formed_witness :
  match add_cache 512 2 64 4 L1 false (new_cachesystem true true) with
  | Some (i, s0) =>
    match run_ops i lru_ops s0 with
    | Some (_, s) =>
      match store s !! i with
      | Some c => length (mshr_entries c) = 2%nat ∧ size (cache_lines c) = 1%nat ∧
                  Z.of_nat (length (mshr_entries c)) ≤ mshr_entry_num c
      | None => False
      end
    | None => False
    end
  | None => False
  end.
Proof.
  destruct (add_cache 512 2 64 4 L1 false (new_cachesystem true true)) as [[i s0]|] eqn:E1; [|vm_compute in E1; discriminate].
  destruct (run_ops i lru_ops s0) as [[oks s]|] eqn:E2;
    [|vm_compute in E1; injection E1 as <- <-; vm_compute in E2; discriminate].
  pose proof (λ c, cache_well_formed 9 1 6 4 true true false lru_ops i s0 oks s c ltac:(lia) ltac:(lia) ltac:(lia) ltac:(lia)
    lru_ops_ok E1 E2) as H.
  vm_compute in E1. injection E1 as <- <-. vm_compute in E2. injection E2 as <- <-.
  destruct (H _ eq_refl) as (_&Hl&_). vm_compute. vm_compute in Hl. split; [reflexivity|]. split; [reflexivity|exact Hl].
Defined.
