(* ===== verification/CoreTheorems.v ===== *)
(** * Theorems about the window and the in-order core

    The ring buffer of the window is a bounded queue; the in-order core does
    not send its reads and stops at its first instruction fetch. *)

From S2P Require Import Prelude Request Memory MemoryMap Window Cache Trace Processor.

(** ** The window *)

Inductive window_op := WInsert (ready : bool) (addr : Z) | WRetire | WSetReady (addr mask : Z).

(** A sequence of calls, with the answers of [retire]. *)
Fixpoint run_window (ops : list window_op) (w : Window) : option (list Z * Window) :=
  match ops with
  | [] => Some ([], w)
  | WInsert r a :: ops => w ← insert r a w; run_window ops w
  | WRetire :: ops => '(n, w) ← retire w; '(ns, w) ← run_window ops w; Some (n :: ns, w)
  | WSetReady a m :: ops => w ← set_ready a m w; run_window ops w
  end.

(** The same on a queue of at most [d] entries; [None] when an entry is
    inserted into a full queue. *)
Fixpoint run_queue (i d : Z) (ops : list window_op) (q : list (bool * Z)) : option (list Z * list (bool * Z)) :=
  match ops with
  | [] => Some ([], q)
  | WInsert r a :: ops => if Z.of_nat (length q) =? d then None else run_queue i d ops (q ++ [(r, a)])
  | WRetire :: ops =>
    let r := q_retire i q in '(ns, q) ← run_queue i d ops (snd r); Some (fst r :: ns, q)
  | WSetReady a m :: ops => run_queue i d ops (q_set_ready a m q)
  end.

Lemma contents_load w : window_wf w → Z.of_nat (length (Window.contents w)) = load w.
Proof. intros Hw. rewrite contents_length by done. pose proof (ww_load w Hw). lia. Qed.

Lemma run_window_ok ops w ns q :
  window_wf w → 0 ≤ ipc w → run_queue (ipc w) (depth w) ops (Window.contents w) = Some (ns, q) →
  ∃ w', run_window ops w = Some (ns, w') ∧ window_wf w' ∧ Window.contents w' = q ∧ depth w' = depth w.
Proof.
  revert w ns. induction ops as [|[r a| |a m] ops IH]; intros w ns Hw Hi H; cbn [run_queue run_window] in *.
  - simplify_eq. by exists w.
  - rewrite contents_load in H by done. destruct (load w =? depth w) eqn:Hf; [done|].
    destruct (insert_ok r a w Hw Hf) as (w1&->&Hw1&Hc&Hi1&Hd1). cbn [mbind option_bind].
    rewrite <-Hc, <-Hi1, <-Hd1 in H. rewrite <-Hd1. apply IH; [done|lia|done].
  - destruct (retire_ok w Hw Hi) as (w1&E&Hw1&Hc&Hi1&Hd1). rewrite E; cbn [mbind option_bind].
    cbv zeta in H. rewrite <-Hc in H. destruct (run_queue _ _ _ _) as [[ns' q']|] eqn:Hq; cbn [mbind option_bind] in H; [|done].
    simplify_eq.
    destruct (IH w1 ns' Hw1) as (w'&E'&?&?&?); [lia|by rewrite Hi1, Hd1|]. rewrite E'; cbn [mbind option_bind].
    exists w'. split_and!; try done; congruence.
  - destruct (set_ready_ok a m w Hw) as (w1&->&Hw1&Hc&Hi1&Hd1&_). cbn [mbind option_bind].
    rewrite <-Hc, <-Hi1, <-Hd1 in H. rewrite <-Hd1. apply IH; [done|lia|done].
Qed.

(** Nothing stops an insertion into a full window. *)
Lemma insert_full r a w :
  window_wf w → is_full w = true → ∃ w', insert r a w = Some w' ∧ load w' = depth w + 1.
Proof.
  intros Hw Hf. unfold is_full in Hf. apply Z.eqb_eq in Hf. pose proof (ww_depth w Hw). pose proof (ww_load w Hw).
  destruct (slot_index w (Z.to_nat (load w)) (head w) Hw) as [E1 E2]; [rewrite Z2Nat.id by lia; apply Hw|].
  unfold insert. rewrite (proj2 (Z.leb_le _ _)) by lia. rewrite (at_set_Some _ _ r _ E1), (at_set_Some _ _ a _ E2). simpl.
  rewrite (proj2 (Z.eqb_neq _ _)) by lia. simpl. eexists. split; [done|]. simpl. lia.
Qed.

(** C31: the instruction window refines a bounded FIFO queue: after any calls
    that do not insert into a full queue, [retire] answered as the queue does
    (the ready entries at the front, at most [ipc]), the ring holds exactly the
    queue, and [is_full] and [is_empty] agree with it.  The assertion in
    [insert] does not protect a full window: the insertion overwrites. *)
Theorem window_refines_fifo i d ops ns q :
  0 ≤ i → 0 < d → run_queue i d ops [] = Some (ns, q) →
  ∃ w, run_window ops (new_window_of i d) = Some (ns, w) ∧ Window.contents w = q ∧
    Z.of_nat (length q) ≤ d ∧ is_full w = (Z.of_nat (length q) =? d) ∧ is_empty w = (length q =? 0)%nat ∧
    (is_full w = true → ∀ r a, ∃ w', insert r a w = Some w' ∧ load w' = d + 1).
Proof.
  intros Hi Hd Hq. destruct (run_window_ok ops (new_window_of i d) ns q) as (w&E&Hw&Hc&Hdw); [by apply new_window_wf|done|done|].
  simpl in Hdw. pose proof (contents_load w Hw) as Hl. rewrite Hc in Hl. pose proof (ww_load w Hw).
  exists w. split_and!; [done|done|lia|unfold is_full; by rewrite Hl, Hdw| |].
  - unfold is_empty. rewrite <-Hl. by destruct q.
  - intros Hf r a. rewrite <-Hdw. by apply insert_full.
Qed.

Definition window_ops : list window_op :=
  [WInsert true (-1); WInsert false 64; WInsert true (-1); WRetire; WInsert false 130; WSetReady 70 (-64); WRetire; WRetire].

Lemma window_refines_fifo_witness :
  run_queue 2 3 window_ops [] = Some ([1; 2; 0], [(false, 130)]) ∧
  ∃ w, run_window window_ops (new_window_of 2 3) = Some ([1; 2; 0], w) ∧ Window.contents w = [(false, 130)].
Proof.
  assert (run_queue 2 3 window_ops [] = Some ([1; 2; 0], [(false, 130)])) as H by (vm_compute; reflexivity).
  split; [exact H|]. destruct (window_refines_fifo 2 3 window_ops _ _ ltac:(lia) ltac:(lia) H) as (w&E&Hc&_).
  exists w. split; [exact E|exact Hc].
Defined.

(** ** The in-order core *)

Section InOrder.
Context {M : Type} `{!MemoryBase M}.

(** The environment after [k] calls of [memory.record_core]. *)
Fixpoint recorded (id : Z) (k : nat) (e : Env M) : option (Env M) :=
  match k with
  | O => Some e
  | S k => m ← mb_record_core id (snd e); recorded id k (fst e, m)
  end.

Definition same_place (id : Z) (e e' : Env M) : Prop := ∃ k, recorded id k e = Some e'.

#[local] Instance same_place_preorder id : PreOrder (same_place id).
Proof.
  split; [by exists 0%nat|]. intros e1 e2 e3 [k1 H1] [k2 H2]. exists (k1 + k2)%nat.
  revert e1 H1. induction k1 as [|k1 IH]; intros e1 H1; simpl in *; [by simplify_eq|].
  destruct (mb_record_core id (snd e1)) as [m|]; simpl in *; [|done]. by apply IH.
Qed.

Lemma record_limit_place c e c' e' :
  record_limit c e = Some (c', e') → same_place (cid c) e e' ∧ cid c' = cid c ∧ req_type c' = req_type c.
Proof.
  unfold record_limit. intros H. destruct (mb_record_core (cid c) (snd e)) as [m|] eqn:E; simpl in H; [|done]. simplify_eq.
  split; [|done]. exists 1%nat. simpl. by rewrite E.
Qed.

Lemma check_limit_place c e c' e' :
  check_limit c e = Some (c', e') → same_place (cid c) e e' ∧ cid c' = cid c ∧ req_type c' = req_type c.
Proof. unfold check_limit. destruct (_ && _); [apply record_limit_place|intros [= <- <-]; done]. Qed.

Lemma end_of_trace_place c e c' e' :
  end_of_trace c e = Some (c', e') → same_place (cid c) e e' ∧ cid c' = cid c.
Proof. unfold end_of_trace. destruct (_ && _); [intros H; by apply record_limit_place in H as (?&?&_)|intros [= <- <-]; done]. Qed.

Lemma bubbles_in_place fuel inserted c e r c' e' :
  bubbles_in fuel inserted c e = Some (r, c', e') →
  same_place (cid c) e e' ∧ cid c' = cid c ∧ req_type c' = req_type c.
Proof.
  revert inserted c e. induction fuel as [|fuel IH]; intros inserted c e H; [done|]. cbn [bubbles_in] in H.
  destruct (0 <? bubble_cnt c); [|by simplify_eq]. destruct (_ =? _); [by simplify_eq|]. cbv zeta in H.
  match type of H with context [check_limit ?x e] => set (c1 := x) in H end.
  destruct (check_limit c1 e) as [[c2 e2]|] eqn:Hcl; cbn [mbind option_bind] in H; [|done].
  destruct (check_limit_place c1 e c2 e2 Hcl) as (H1&H2&H3). change (cid c1) with (cid c) in *. change (req_type c1) with (req_type c) in *.
  destruct (IH _ _ _ H) as (H4&H5&H6). rewrite H2 in H4, H5.
  split; [by etrans|]. split; [done|]. by rewrite H6.
Qed.

Lemma fetch_queue_place c (e : Env M) c' e' : fetch_queue c e = Some (c', e') → e' = e ∧ cid c' = cid c.
Proof. unfold fetch_queue. destruct (sq_is_empty _); intros H; run_opt; simplify_eq; [done|]. repeat case_match. run_opt. by simplify_eq. Qed.

(** What can happen to a core: a cycle, or the callback of a request. *)
Inductive core_event := Tick | Receive (req : Request).
Definition core_event_step (x : Core * Env M) (o : core_event) : option (Core * Env M) :=
  match o with
  | Tick => core_tick (fst x) (snd x)
  | Receive req => c ← core_receive req (fst x); Some (c, snd x)
  end.

(** What the core still has to do. *)
Definition work (c : Core) : Z * Z * ReqType * bool * SqueduleQueue :=
  (bubble_cnt c, req_addr c, req_type c, more_reqs c, rqst_queue c).

Lemma stalled c e os c' e' :
  cpu_type c = inOrder → 1 ≤ inFlightMemoryAccess c →
  foldM core_event_step (c, e) os = Some (c', e') → e' = e ∧ work c' = work c.
Proof.
  revert c. induction os as [|[|req] os IH]; intros c Hty Hin H; cbn [foldM] in H; [by simplify_eq|..].
  - assert (core_event_step (c, e) Tick = Some (set_cclk (cclk c + 1) c, e)) as E.
    { cbn [core_event_step fst snd]. unfold core_tick. cbv zeta. change (cpu_type (set_cclk _ c)) with (cpu_type c). rewrite Hty.
      unfold tick_inOrder. destruct (_ && _); [done|]. change (inFlightMemoryAccess (set_cclk _ c)) with (inFlightMemoryAccess c).
      by rewrite (proj2 (Z.leb_le _ _)) by lia. }
    rewrite E in H; cbn [mbind option_bind] in H. exact (IH (set_cclk (cclk c + 1) c) Hty Hin H).
  - cbn [core_event_step fst snd] in H. destruct (core_receive req c) as [c1|] eqn:E; cbn [mbind option_bind] in H; [|done].
    assert (cpu_type c1 = cpu_type c ∧ inFlightMemoryAccess c1 = inFlightMemoryAccess c ∧ work c1 = work c) as (E1&E2&E3)
      by (unfold core_receive in E; run_opt; case_match; by simplify_eq).
    destruct (IH c1) as [-> ->]; [congruence|lia|done|done].
Qed.

(** The in-order core.  A cycle that starts at a read sends nothing: the
    caches are untouched and the memory only records the end of the
    measurement.  And once a request for an instruction was accepted, the core
    is stuck for good: no sequence of cycles and callbacks, not even the one
    that answers the request, sends, fetches or finishes anything. *)
Theorem inorder_core_stalls (c : Core) (e : Env M) :
  cpu_type c = inOrder →
  (∀ c' e', req_type c = READ → core_tick c e = Some (c', e') → ∃ k, recorded (cid c) k e = Some e') ∧
  (∀ inserted c1 e1 os c2 e2, req_type c = INSTRUCTION → 0 ≤ inFlightMemoryAccess c →
     request_in inserted c e = Some (inr tt, c1, e1) →
     foldM core_event_step (c1, e1) os = Some (c2, e2) → e2 = e1 ∧ work c2 = work c).
Proof.
  intros Hty. split.
  - intros c' e' Hr H. unfold core_tick in H. cbv zeta in H. change (cpu_type (set_cclk _ c)) with (cpu_type c) in H. rewrite Hty in H.
    change (same_place (cid c) e e'). change (cid c) with (cid (set_cclk (cclk c + 1) c)).
    change (req_type c) with (req_type (set_cclk (cclk c + 1) c)) in Hr.
    generalize dependent (set_cclk (cclk c + 1) c). clear Hty c. intros c Hr H. unfold tick_inOrder in H.
    destruct (_ && _); [by simplify_eq|]. destruct (1 <=? _); [by simplify_eq|]. destruct (lock_core c); [by simplify_eq|].
    destruct (bubbles_in _ _ c e) as [[[r c1] e1]|] eqn:Hb; [|done]. cbn [mbind option_bind] in H.
    destruct (bubbles_in_place _ _ _ _ _ _ _ Hb) as (H1&I1&R1). destruct r as [|inserted]; [by simplify_eq|].
    unfold request_in in H. rewrite R1, Hr in H. destruct (_ =? _); cbn [mbind option_bind] in H; [by simplify_eq|].
    destruct (fetch_queue _ e1) as [[c3 e3]|] eqn:Hf; [|done]. cbn [mbind option_bind] in H.
    destruct (fetch_queue_place _ _ _ _ Hf) as [-> I3]. destruct (end_of_trace_place c3 e1 _ _ H) as [H4 _].
    etrans; [exact H1|]. rewrite I3 in H4. simpl in H4. by rewrite I1 in H4.
  - intros inserted c1 e1 os c2 e2 Hr Hin H Hos. unfold request_in in H. rewrite Hr in H. destruct (_ =? _); [done|].
    destruct (core_send _ _ e) as [[[] e']|]; simpl in H; [|done|done]. injection H as <- <-.
    eapply stalled in Hos as [-> ->]; [done|done|simpl; lia].
Qed.
End InOrder.

(** A memory that keeps what it is sent and answers everything at once. *)
Definition queue_memory : MemoryBase (list Request) := {|
  mb_send req m := Some (true, m ++ [req]);
  mb_tick m := Some (m, []);
  mb_pending_requests m := Z.of_nat (length m);
  mb_page_allocator a _ m := Some (a, m);
  mb_record_core _ m := Some m
|}.

(** A core without caches whose next request is the instruction at address 640. *)
Definition fetching_core : Core :=
  mkCore 0 0 0 false 0 inOrder ToMemory None (sq_push 0 704 READ SQ0) false 0 false new_window 0 640 INSTRUCTION true 0
    (init_trace [] false) core_stats0.

Lemma inorder_core_stalls_witness :
  let e0 := (new_cachesystem false false, [] : list Request) in
  match request_in (MemoryBase0 := queue_memory) 0 fetching_core e0 with
  | Some (inr tt, c1, e1) =>
    map addr (snd e1) = [640] ∧
    match foldM (core_event_step (MemoryBase0 := queue_memory)) (c1, e1) [Tick; Receive (Request_addr 640 READ 0); Tick; Tick] with
    | Some (c2, e2) => e2 = e1 ∧ work c2 = work fetching_core ∧ cclk c2 = 3
    | None => False
    end
  | _ => False
  end.
Proof.
  intros e0. destruct (request_in (MemoryBase0 := queue_memory) 0 fetching_core e0) as [[[[[]|[]] c1] e1]|] eqn:E; try (vm_compute in E; discriminate).
  destruct (foldM (core_event_step (MemoryBase0 := queue_memory)) (c1, e1) [Tick; Receive (Request_addr 640 READ 0); Tick; Tick]) as [[c2 e2]|] eqn:E2.
  2:{ vm_compute in E. injection E as <- <-. vm_compute in E2. discriminate. }
  destruct (inorder_core_stalls (MemoryBase0 := queue_memory) fetching_core e0 eq_refl) as [_ Hst].
  destruct (Hst 0 c1 e1 _ c2 e2 eq_refl ltac:(simpl; lia) E E2) as [H1 H2].
  vm_compute in E. injection E as Ec Ee. split; [subst; reflexivity|]. split; [exact H1|]. split; [exact H2|].
  subst c1 e1. vm_compute in E2. injection E2 as <- _. reflexivity.
Defined.
