(* ===== verification/ProcessorTheorems.v ===== *)
(** * Theorems about the processor

    The states a processor can reach from its constructor, and what holds in
    all of them; a configuration whose first memory access aborts. *)

From S2P Require Import Prelude Request Memory MemoryMap Window Cache CacheInv Trace Processor ProcessorInv ProcessorInit.
From S2P Require Import SpecDDR3 DeviceTheorems MemoryInv MemoryTheorems MemoryIface.

(** ** Reachable processors *)

Section Reach.
Context {M : Type} `{ML : MemoryLaws M}.
Variables (n : nat) (cc l3 : bool).

Inductive proc_reachable : Processor M → Prop :=
  | PReach_new traces ty pim early junk m p :
      mb_ok m → mb_reads m = [] → Z.of_nat n ≤ mb_cores → new_processor n traces ty cc l3 pim early junk m = Some p → proc_reachable p
  | PReach_distribute fuel r t p cs m :
      proc_reachable p →
      distribute_zsim fuel r 0 t (replicate 256 0) (cores p) (snd (penv p)) = Some (cs, m) →
      proc_reachable (set_cores cs (set_penv (fst (penv p), m) p))
  | PReach_first p cs :
      proc_reachable p → mapM first_record (cores p) = Some cs → proc_reachable (set_cores cs p)
  | PReach_load txts p p' : proc_reachable p → load_traces txts p = Some p' → proc_reachable p'
  | PReach_tick p p' : proc_reachable p → proc_tick p = Some p' → proc_reachable p'
  | PReach_memory p p' : proc_reachable p → memory_tick p = Some p' → proc_reachable p'.

(** A shared cache comes with caches for the cores (see [l3_only_aborts]). *)
Hypothesis config : l3 = true → cc = true.

Lemma proc_reachable_ok p : proc_reachable p → proc_ok n cc l3 p.
Proof.
  induction 1 as [traces ty pim early junk m p Hm Hr Hco Hp|fuel r t p cs m _ IH Hd|p cs _ IH Hf|txts p p' _ IH Hl
    |p p' _ IH Ht|p p' _ IH Ht].
  - destruct (new_processor_ok ty cc l3 pim junk config n traces early m Hm Hr Hco) as (q&Hq&Hok&_). congruence.
  - apply (distribute_ok n cc l3 fuel r 0 t (replicate 256 0) p cs m IH); [lia| |exact Hd]. by apply Forall_replicate.
  - destruct (first_records_ok n cc l3 p IH) as (cs'&Hcs&Hok). congruence.
  - destruct (load_traces_ok n cc l3 p txts IH) as (q&Hq&Hok). congruence.
  - destruct (proc_tick_ok n cc l3 p IH) as (q&Hq&Hok). congruence.
  - destruct (mb_tick (snd (penv p))) as [[d m]|] eqn:E; [|unfold memory_tick in Ht; by rewrite E in Ht].
    destruct (memory_tick_ok n cc l3 p d m IH E) as (q&Hq&Hok). congruence.
Qed.

Lemma proc_receive_wakes p req p' c a :
  proc_ok n cc l3 p → proc_receive req p = Some p' → cores p' !! Z.to_nat (coreid req) = Some c →
  (false, a) ∈ Window.contents (window c) → blk a ≠ blk (addr req).
Proof.
  intros Hp H Hc Ha. unfold proc_receive in H. destruct (receive_caches req p) as [s|]; simpl in H; [|done].
  unfold zlookup in H. destruct (coreid req <? 0); [done|]. destruct (cores p !! Z.to_nat (coreid req)) as [c0|] eqn:Hc0; simpl in H; [|done].
  destruct (wk_cores _ _ _ _ _ (pk_waits _ _ _ _ Hp) _ _ Hc0) as [Hok _]. destruct (core_receive_ok cc _ req c0 Hok) as (c1&E&_&Hw).
  rewrite E in H. simpl in H. injection H as <-. simpl in Hc. rewrite list_lookup_insert_eq in Hc by (by eapply lookup_lt_Some).
  injection Hc as <-. by apply Hw.
Qed.
End Reach.

(** C34: no load is lost.  In every reachable state of a processor with any
    number of cores, with or without caches (but not with the third level
    alone, which aborts: [l3_only_aborts]), over any memory that obeys the laws
    and was built for at least as many cores, the next cycle returns; every instruction in a window that is not
    ready and every outstanding miss of a first-level cache has a request of
    the same core and 64-byte block on its way (in the memory, waiting to be
    sent to it, or waiting for the latency of a hit); and the callback of a
    request leaves no instruction of its core waiting for its block. *)
Theorem no_lost_loads {M : Type} `{ML : MemoryLaws M} n cc l3 (p : Processor M) :
  (l3 = true → cc = true) → proc_reachable n cc l3 p →
  (∃ p', proc_tick p = Some p') ∧
  (∀ ds m, mb_tick (snd (penv p)) = Some (ds, m) → ∃ p', memory_tick p = Some p') ∧
  (∀ k c a, cores p !! k = Some c → (false, a) ∈ Window.contents (window c) →
     ∃ a', (a', Z.of_nat k) ∈ inflight (penv p) ∧ blk a' = blk a) ∧
  (cc = true → ∀ k c e, (k < n)%nat → store (fst (penv p)) !! l1_id k = Some c → e ∈ mshr_entries c →
     ∃ a', (a', Z.of_nat k) ∈ inflight (penv p) ∧ blk a' = blk (fst e)) ∧
  (∀ req p' c a, proc_receive req p = Some p' → cores p' !! Z.to_nat (coreid req) = Some c →
     (false, a) ∈ Window.contents (window c) → blk a ≠ blk (addr req)).
Proof.
  intros Hcfg Hreach. pose proof (proc_reachable_ok n cc l3 Hcfg p Hreach) as Hp. split_and!.
  - destruct (proc_tick_ok n cc l3 p Hp) as (p'&?&_). by exists p'.
  - intros ds m Hm. destruct (memory_tick_ok n cc l3 p ds m Hp Hm) as (p'&?&_). by exists p'.
  - intros k c a Hk Ha. by apply (wk_cores _ _ _ _ _ (pk_waits _ _ _ _ Hp) k c Hk).
  - intros Hcc k c e Hk Hc He. destruct (la_l1 _ _ _ (ek_layout _ _ _ _ (pk_env _ _ _ _ Hp) Hcc) k Hk) as (c'&Hc'&_&_&Ho).
    assert (c' = c) as -> by congruence.
    apply (wk_mshr _ _ _ _ _ (pk_waits _ _ _ _ Hp) Hcc k c Hk Hc). simpl. apply list_elem_of_fmap. exists e. split; [|done].
    unfold block, blk. by rewrite Ho.
  - intros req p' c a H Hc Ha. by eapply proc_receive_wakes.
Qed.

(** ** A shared cache without the cores' own *)

Section Only.
Context {M : Type} `{!MemoryBase M}.

Lemma no_lower_aborts i c req s :
  store s !! i = Some c → cache_lines c = ∅ → mshr_entries c = [] → 0 < mshr_entry_num c → 0 < assoc c →
  is_last_level c = false → lower_cache c = None → csend i req s = None.
Proof.
  intros Hi Hls Hms Hn Ha Hlast Hlow. unfold csend. change cache_fuel with (S 3). generalize 3%nat as fuel. intros fuel.
  cbn [cache_send]. rewrite Hi; cbn [mbind option_bind]. destruct (bool_decide _); [|done]. cbv zeta.
  change (latency (count_access _ c)) with (latency c). change (clevel (count_access _ c)) with (clevel c).
  destruct (latency c !! _) as [lat|]; [|done]. cbn [mbind option_bind]. set (w := bool_decide _).
  assert (Hl0 : ∀ a, lines_of c a = []) by (intros a; unfold lines_of; by rewrite Hls, lookup_empty).
  unfold get_lines. change (lines_of (count_access w c) (addr req)) with (lines_of c (addr req)). rewrite Hl0.
  unfold is_hit. change (find_line _ (addr req) []) with (@None (nat * Line)). unfold send_miss. change (addr (set_type READ req)) with (addr req).
  set (c1 := count_miss w _). assert (Hm1 : mshr_entries c1 = []) by done.
  assert (hit_mshr c1 (addr req) = None) as -> by (unfold hit_mshr; by rewrite Hm1). rewrite Hm1.
  change (mshr_entry_num c1) with (mshr_entry_num c). rewrite (proj2 (Z.eqb_neq _ _)) by (simpl; lia).
  unfold all_sets_locked. change (assoc c1) with (assoc c). rewrite (proj2 (Z.ltb_lt _ _)) by (simpl; lia).
  unfold send_new, allocate_line. rewrite (put_cache_lookup _ _ _ _ Hi). cbn [mbind option_bind].
  assert (Hl1 : lines_of c1 (addr (set_type READ req)) = [])
    by (unfold lines_of, c1; simpl; change (get_index _ (addr req)) with (get_index c (addr req)); by rewrite lookup_insert_eq).
  rewrite Hl1. unfold need_eviction. change (find_line c1 _ []) with (@None (nat * Line)). cbn [mbind option_bind].
  change (assoc c1) with (assoc c). rewrite (proj2 (Z.ltb_lt _ _)) by (simpl; lia). cbn [negb]. unfold fresh_lid.
  cbv zeta. cbn [mbind option_bind fst snd].
  set (s1 := mkCaches _ _ _ _ _ _ _). assert (Hi1 : store s1 !! i = Some c1) by (by eapply (put_cache_lookup i c)).
  rewrite (put_cache_lookup _ _ _ _ Hi1). cbn [mbind option_bind]. destruct (upd_line _ _ _) as [c2|] eqn:Hu; [|done].
  cbn [mbind option_bind]. unfold upd_line in Hu. destruct (cache_lines _ !! _); cbn [mbind option_bind] in Hu; [|done].
  destruct (list_find _ _) as [[? ?]|]; [|done]. injection Hu as <-.
  change (is_last_level (set_lines _ _)) with (is_last_level c). rewrite Hlast. cbn [negb].
  change (lower_cache (set_lines _ _)) with (lower_cache c). by rewrite Hlow.
Qed.

(** A configuration with a shared cache and no caches in the cores builds a
    processor whose first read or write, from any core and to any address,
    aborts: the constructor of the cache system declares L1 the last level, so
    a miss in the shared cache follows its null [lower_cache]. *)
Theorem l3_only_aborts n traces ty pim early junk (m : M) :
  (0 < traces)%nat →
  ∃ p, new_processor n traces ty false true pim early junk m = Some p ∧ length (cores p) = n ∧
    ∀ c req, c ∈ cores p → core_send (csend_to c) req (penv p) = None.
Proof.
  intros Ht. unfold new_processor.
  assert (∃ c, new_cache (Z.shiftl 1 23) (Z.shiftl 1 3) (Z.shiftl 1 6) (16 * Z.of_nat traces) L3 (new_cachesystem false true) pim = Some c ∧
    cache_lines c = ∅ ∧ mshr_entries c = [] ∧ mshr_entry_num c = 16 * Z.of_nat traces ∧ assoc c = 8 ∧ is_last_level c = false ∧
    lower_cache c = None) as (c&Ec&H1&H2&H3&H4&H5&H6).
  { unfold new_cache. destruct pim; eexists; (split; [reflexivity|done]). }
  rewrite (add_cache_eq pim _ _ _ _ _ _ _ Ec). cbn [mbind option_bind]. set (s := set_store _ _).
  unfold new_cores. set (f := λ (acc : list Core * Caches) (i : nat), _).
  destruct (foldM_ok f (λ k x, snd x = s ∧ length (fst x) = k ∧ ∀ c, c ∈ fst x → csend_to c = ToCache 0) ([], s) (seq 0 n))
    as (x&Hx&Hs&Hl&Hc).
  - split_and!; [done|done|]. by intros c0 ?%not_elem_of_nil.
  - intros i b [cs s'] _ (E&Hl&Hc). simpl in E, Hl, Hc. subst s'. unfold f. cbn [new_core negb mbind option_bind fst snd]. eexists. split; [reflexivity|].
    split_and!; simpl; [done|rewrite length_app, Hl; simpl; lia|].
    intros c0 [Hin|E%list_elem_of_singleton]%elem_of_app; [by apply Hc|by rewrite E].
  - rewrite Hx. destruct x as [cs s']. simpl in *. subst s'. cbn [mbind option_bind]. eexists. split; [done|].
    rewrite length_seq in Hl. split; [done|]. intros c0 req Hin. rewrite (Hc c0 Hin). cbn [core_send fst snd penv].
    rewrite (no_lower_aborts 0 c req s) by (done || lia). done.
Qed.
End Only.

(** ** A system: two cores with caches, over the DDR3 memory *)

Definition Mem3 : Type := MemState (L := DDR3.Level) (C := DDR3.Command) (S := DDR3.State).
#[local] Instance mem3_base : MemoryBase Mem3 := memory_base spec3.
#[local] Instance mem3_laws : MemoryLaws Mem3 := memory_laws spec3 DDR3.proto 1 2.
Definition mem3_state : Mem3 := (mem3, λ _, 7).

Lemma mem3_state_ok : mb_ok mem3_state.
Proof.
  split; [by exists DDR3.Channel|]. split; [split; [apply mem3_reachable|vm_compute; reflexivity]|]. split; [done|]. by left.
Qed.

(** The traces of the cores, and [k] cycles of the processor and the memory. *)
Definition trace0 : text :=
  String.list_ascii_of_string ("0 0 2 L 4096" ++ String newline "0 0 1 S 8192" ++ String newline "0 0 0 L 4160" ++ String newline "").
Definition trace1 : text := String.list_ascii_of_string ("0 1 5 L 12288" ++ String newline "").
Fixpoint cycles {M : Type} `{!MemoryBase M} (k : nat) (p : Processor M) : option (Processor M) :=
  match k with O => Some p | S k => p ← proc_tick p; p ← memory_tick p; cycles k p end.
Definition system (k : nat) : option (Processor Mem3) :=
  p ← new_processor 2 1 outOrder true false true false (0, 0, READ) mem3_state;
  p ← load_traces [trace0; trace1] p;
  cycles k p.

Lemma cycles_reachable n cc l3 k (p p' : Processor Mem3) :
  proc_reachable n cc l3 p → cycles k p = Some p' → proc_reachable n cc l3 p'.
Proof.
  revert p. induction k as [|k IH]; intros p Hp H; cbn [cycles] in H; [by simplify_eq|].
  destruct (proc_tick p) as [p1|] eqn:E1; [|done]. cbn [mbind option_bind] in H.
  destruct (memory_tick p1) as [p2|] eqn:E2; [|done]. cbn [mbind option_bind] in H.
  eapply IH; [|done]. by eapply PReach_memory, E2; eapply PReach_tick.
Qed.

Lemma system_reachable k p : system k = Some p → proc_reachable 2 true false p.
Proof.
  unfold system. destruct (new_processor _ _ _ _ _ _ _ _ _) as [p1|] eqn:E1; [|done]. cbn [mbind option_bind].
  destruct (load_traces _ p1) as [p2|] eqn:E2; [|done]. cbn [mbind option_bind]. apply cycles_reachable.
  eapply PReach_load, E2. eapply PReach_new; [apply mem3_state_ok|vm_compute; reflexivity|done|exact E1].
Qed.

Definition idle_system : Processor Mem3 := mkProc [] (new_cachesystem true false, mem3_state) false true false 0.
Definition sys30 : Processor Mem3 := default idle_system (system 30).
Lemma sys30_eq : system 30 = Some sys30.
Proof. unfold sys30. apply (Some_default idle_system). vm_compute. reflexivity. Qed.

(** After 60 cycles every load was answered and retired. *)
Example system_finishes :
  (λ p, (map (λ c, Window.contents (window c)) (cores p), inflight (penv p), map retired (cores p))) <$> system 60 =
  Some ([[]; []], [], [5; 6]).
Proof. vm_compute. reflexivity. Qed.

(** After 30 cycles three loads are waiting, for three of the four requests. *)
Lemma no_lost_loads_witness :
  map (λ c, Window.contents (window c)) (cores sys30) = [[(false, 4096); (true, -1); (false, 4160)]; [(false, 12288)]] ∧
  inflight (penv sys30) = [(4096, 0); (4160, 0); (8192, 0); (12288, 1)] ∧
  (∃ p', proc_tick sys30 = Some p') ∧
  (∀ k c a, cores sys30 !! k = Some c → (false, a) ∈ Window.contents (window c) →
     ∃ a', (a', Z.of_nat k) ∈ inflight (penv sys30) ∧ blk a' = blk a).
Proof.
  split; [vm_compute; reflexivity|]. split; [vm_compute; reflexivity|].
  destruct (no_lost_loads 2 true false sys30) as (H1&_&H2&_); [discriminate|exact (system_reachable 30 sys30 sys30_eq)|].
  split; [exact H1|exact H2].
Defined.

Lemma l3_only_aborts_witness :
  ∃ p, new_processor 2 1 outOrder false true false false (0, 0, READ) mem3_state = Some p ∧ length (cores p) = 2%nat ∧
    ∀ c req, c ∈ cores p → core_send (csend_to c) req (penv p) = None.
Proof. apply (l3_only_aborts 2 1); lia. Defined.
