(* ===== verification/Config.v ===== *)
(** * The configuration ([ramulator/src/Config.h], [Config.cpp])

    [class Config]: a map of options with the constants some of them set, the
    parser of configuration files, and the questions the simulator asks.  A
    failed assertion is [None]. *)

From Stdlib Require Import Ascii.
From S2P Require Import Prelude Trace Processor.

Open Scope Z_scope.

(** ** The standard library *)

(** [atoi(s)]: 0 when there is no number; a number outside [long] saturates and
    is then converted to [int]. *)
Definition atoi (l : text) : Z :=
  match parse_number 10 l with
  | None => 0
  | Some (neg, m, _) => as_int (Z.max (- 2 ^ 63) (Z.min (2 ^ 63 - 1) (if (neg : bool) then - m else m)))
  end.

Abbreviation str := (String.string_of_list_ascii).
Abbreviation chars := (String.list_ascii_of_string).

(** ** [class Config] *)

Inductive Format := PISA | ZSIM | PIN.

(** The members [parse_to_const] sets; what they hold before is unspecified. *)
Record constants := mkConsts {
  stacks : Z;
  channels : Z;
  ranks : Z;
  subarrays : Z;
  cpu_frequency : Z;
  expected_limit_insts : Z
}.

Record Config := mkConfig {
  options : gmap string text;
  consts : constants;
  core_num : Z;
  cacheline_size : Z;
  disable_per_scheduling : bool;
  split_trace : bool;
  org : text;
  format : Format
}.

(** [Config()]; [junk] is what the members without initialiser hold. *)
Definition new_config (junk : constants) (fmt : Format) : Config :=
  mkConfig ∅ (mkConsts (stacks junk) (channels junk) (ranks junk) (subarrays junk) (cpu_frequency junk) 0)
    0 64 false false (chars "in_order") fmt.

Definition set_options (x : gmap string text) (c : Config) : Config :=
  mkConfig x (consts c) (core_num c) (cacheline_size c) (disable_per_scheduling c) (split_trace c) (org c) (format c).
Definition set_consts (x : constants) (c : Config) : Config :=
  mkConfig (options c) x (core_num c) (cacheline_size c) (disable_per_scheduling c) (split_trace c) (org c) (format c).
Definition set_core_num (x : Z) (c : Config) : Config :=
  mkConfig (options c) (consts c) x (cacheline_size c) (disable_per_scheduling c) (split_trace c) (org c) (format c).
Definition set_cacheline_size (x : Z) (c : Config) : Config :=
  mkConfig (options c) (consts c) (core_num c) x (disable_per_scheduling c) (split_trace c) (org c) (format c).
Definition set_disable_per_scheduling (x : bool) (c : Config) : Config :=
  mkConfig (options c) (consts c) (core_num c) (cacheline_size c) x (split_trace c) (org c) (format c).
Definition set_split_trace (x : bool) (c : Config) : Config :=
  mkConfig (options c) (consts c) (core_num c) (cacheline_size c) (disable_per_scheduling c) x (org c) (format c).
Definition set_org (x : text) (c : Config) : Config :=
  mkConfig (options c) (consts c) (core_num c) (cacheline_size c) (disable_per_scheduling c) (split_trace c) x (format c).
Definition set_format (x : Format) (c : Config) : Config :=
  mkConfig (options c) (consts c) (core_num c) (cacheline_size c) (disable_per_scheduling c) (split_trace c) (org c) x.

(** [parse_to_const(name, value)] *)
Definition parse_to_const (name : string) (value : text) (c : Config) : Config :=
  let k := consts c in let v := atoi value in
  if bool_decide (name = "stacks"%string) then
    set_consts (mkConsts v (channels k) (ranks k) (subarrays k) (cpu_frequency k) (expected_limit_insts k)) c
  else if bool_decide (name = "channels"%string) then
    set_consts (mkConsts (stacks k) v (ranks k) (subarrays k) (cpu_frequency k) (expected_limit_insts k)) c
  else if bool_decide (name = "ranks"%string) then
    set_consts (mkConsts (stacks k) (channels k) v (subarrays k) (cpu_frequency k) (expected_limit_insts k)) c
  else if bool_decide (name = "subarrays"%string) then
    set_consts (mkConsts (stacks k) (channels k) (ranks k) v (cpu_frequency k) (expected_limit_insts k)) c
  else if bool_decide (name = "cpu_frequency"%string) then
    set_consts (mkConsts (stacks k) (channels k) (ranks k) (subarrays k) v (expected_limit_insts k)) c
  else if bool_decide (name = "expected_limit_insts"%string) then
    set_consts (mkConsts (stacks k) (channels k) (ranks k) (subarrays k) (cpu_frequency k) v) c
  else c.

(** [set(name, value)]; [parse] makes the same two assignments. *)
Definition set (name : string) (value : text) (c : Config) : Config :=
  parse_to_const name value (set_options (<[name := value]> (options c)) c).

(** [contains(name)], [operator[](name)] and [add(name, value)] *)
Definition contains (name : string) (c : Config) : bool := bool_decide (is_Some (options c !! name)).
Definition option_of (name : string) (c : Config) : text := default [] (options c !! name).
Definition add (name : string) (value : text) (c : Config) : Config :=
  if contains name c then c else set_options (<[name := value]> (options c)) c.

(** [set_trace_format(trace)]: [trace.find(name) != npos]. *)
Fixpoint has_substring (x l : text) : bool :=
  bool_decide (take (length x) l = x) || match l with [] => false | _ :: l => has_substring x l end.
Definition set_trace_format (t : text) (c : Config) : Config :=
  set_format (if has_substring (chars "pisa") t then PISA else if has_substring (chars "zsim") t then ZSIM else PIN) c.

(** [get_int_value(name)] asserts that the option is there. *)
Definition get_int_value (name : string) (c : Config) : option Z := atoi <$> options c !! name.
Definition get_stacks (c : Config) : option Z := get_int_value "stacks" c.
Definition get_channels (c : Config) : option Z := get_int_value "channels" c.
Definition get_subarrays (c : Config) : option Z := get_int_value "subarrays" c.
Definition get_ranks (c : Config) : option Z := get_int_value "ranks" c.
Definition pim_mode_enabled (c : Config) : option bool := (λ x, x =? 1) <$> get_int_value "pim_mode" c.

(** [int(1000000.0 / get_int_value("cpu_frequency"))]: the quotient of two
    [int]s differs from every integer it is not equal to by more than the error
    of the division, so truncation gives the integer quotient; the conversion
    of an infinite quotient is undefined. *)
Definition get_cpu_tick (c : Config) : option Z :=
  f ← get_int_value "cpu_frequency" c; assert! negb (f =? 0); Some (Z.quot 1000000 f).

Definition get_expected_limit_insts (c : Config) : option Z :=
  if contains "expected_limit_insts" c then get_int_value "expected_limit_insts" c else Some 0.

(** The value of an option is one of some words. *)
Definition is_one_of (name : string) (vs : list string) (c : Config) : bool :=
  match options c !! name with None => false | Some v => bool_decide (str v ∈ vs) end.
Definition has_l3_cache (c : Config) : bool := is_one_of "cache" ["all"; "L3"]%string c.
Definition has_core_caches (c : Config) : bool := is_one_of "cache" ["all"; "L1L2"]%string c.
Definition is_early_exit (c : Config) : bool := negb (is_one_of "early_exit" ["off"]%string c).
Definition record_cmd_trace (c : Config) : bool := is_one_of "record_cmd_trace" ["on"]%string c.
Definition print_cmd_trace (c : Config) : bool := is_one_of "print_cmd_trace" ["on"]%string c.
Definition calc_weighted_speedup (c : Config) : bool := negb (expected_limit_insts (consts c) =? 0).

(** The string [get_cpu_type] returns, as [Core::tick] compares it. *)
Definition get_cpu_type (c : Config) : CpuType :=
  if bool_decide (str (org c) = "inOrder"%string) then inOrder
  else if bool_decide (str (org c) = "outOrder"%string) then outOrder else otherOrder.

(** ** [Config::parse] *)

Definition is_delim (x : ascii) : bool := Ascii.eqb x " " || Ascii.eqb x "009" || Ascii.eqb x "=".

(** [find_first_not_of(delim)] and [find_first_of(delim, start)], as the rest of
    the line from there. *)
Fixpoint skip_delims (l : text) : text :=
  match l with [] => [] | x :: l' => if is_delim x then skip_delims l' else l end.
Fixpoint span_token (l : text) : text * text :=
  match l with
  | [] => ([], [])
  | x :: l' => if is_delim x then ([], l) else let '(t, r) := span_token l' in (x :: t, r)
  end.

(** The loop that splits a line; every token is at least a character. *)
Fixpoint tokens (fuel : nat) (l : text) : option (list text) :=
  match fuel with
  | O => None
  | S fuel =>
    match skip_delims l with
    | [] => Some []
    | l =>
      let '(t, r) := span_token l in
      match r with [] => Some [t] | _ => ts ← tokens fuel r; Some (t :: ts) end
    end
  end.

Definition parse_line (l : text) (c : Config) : option Config :=
  ts ← tokens (S (length l)) l;
  match ts with
  | [] => Some c
  | t0 :: _ =>
    if bool_decide (t0 !! 0%nat = Some "#"%char) then Some c else
    match ts with [k; v] => Some (set (str k) v c) | _ => None end
  end.

(** [while (getline(file, line))]; every iteration consumes a character or
    meets the end of the file. *)
Fixpoint parse_loop (fuel : nat) (f : stream) (c : Config) : option Config :=
  match fuel with
  | O => None
  | S fuel =>
    let '(l, f) := getline f in
    if failbit f then Some c else c ← parse_line l c; parse_loop fuel f c
  end.

(** [parse(fname)] for a file that exists, with its text. *)
Definition parse (txt : text) (c : Config) : option Config := parse_loop (length txt + 2) (open_stream txt) c.
