(* ===== verification/ConfigTheorems.v ===== *)
(** * Theorems about the configuration

    The parser of configuration files against a reference that works on lines
    and words, and the round trip of printed options. *)

From Stdlib Require Import Ascii.
From S2P Require Import Prelude Trace Config.

(** ** Lines *)

(** The lines of a text: an empty last line is none. *)
Fixpoint lines (cur l : text) : list text :=
  match l with
  | [] => match cur with [] => [] | _ => [reverse cur] end
  | c :: l => if Ascii.eqb c newline then reverse cur :: lines [] l else lines (c :: cur) l
  end.

Lemma lines_split cur l :
  lines cur l =
  match split_line l with
  | (x, Some r) => (reverse cur ++ x) :: lines [] r
  | (x, None) => match reverse cur ++ x with [] => [] | y => [y] end
  end.
Proof.
  revert cur. induction l as [|c l IH]; intros cur; simpl.
  - rewrite app_nil_r. destruct cur as [|c cur]; [done|]. rewrite reverse_cons. by destruct (reverse cur).
  - destruct (Ascii.eqb c newline); [by rewrite app_nil_r|]. rewrite IH. destruct (split_line l) as [x [r|]];
      by rewrite reverse_cons, <-app_assoc.
Qed.

Lemma split_line_shorter l x r : split_line l = (x, Some r) → (length r < length l)%nat.
Proof.
  revert x. induction l as [|c l IH]; intros x; simpl; [done|]. destruct (Ascii.eqb c newline); [intros [= _ <-]; lia|].
  destruct (split_line l) as [y [r'|]]; intros [= _ ->]. pose proof (IH y eq_refl). lia.
Qed.

Lemma parse_loop_lines fuel l all c :
  (length l + 1 < fuel)%nat →
  parse_loop fuel (mkStream all l false false) c = foldM (λ c l, parse_line l c) c (lines [] l).
Proof.
  revert l c. induction fuel as [|fuel IH]; intros l c Hf; [lia|]. cbn [parse_loop]. rewrite lines_split.
  unfold getline, getline_into. simpl. destruct (split_line l) as [x [r|]] eqn:E; simpl.
  - destruct (parse_line x c) as [c'|]; simpl; [|done]. apply IH. apply split_line_shorter in E. lia.
  - destruct x as [|y x]; simpl; [done|]. destruct (parse_line (y :: x) c) as [c'|]; simpl; [|done].
    destruct fuel; [lia|]. done.
Qed.

Lemma parse_lines txt c : parse txt c = foldM (λ c l, parse_line l c) c (lines [] txt).
Proof. apply parse_loop_lines. lia. Qed.

(** ** Words *)

(** The maximal runs of characters that are not delimiters. *)
Fixpoint fields (cur l : text) : list text :=
  match l with
  | [] => match cur with [] => [] | _ => [reverse cur] end
  | c :: l =>
    if is_delim c then match cur with [] => fields [] l | _ => reverse cur :: fields [] l end
    else fields (c :: cur) l
  end.

Lemma fields_skip l : fields [] l = fields [] (skip_delims l).
Proof. induction l as [|c l IH]; [done|]. simpl. destruct (is_delim c) eqn:E; [done|]. simpl. by rewrite E. Qed.

Lemma fields_span cur l :
  cur ≠ [] →
  fields cur l = (reverse cur ++ fst (span_token l)) :: fields [] (snd (span_token l)).
Proof.
  revert cur. induction l as [|c l IH]; intros cur Hc; simpl.
  - rewrite app_nil_r. by destruct cur.
  - destruct (is_delim c) eqn:E; simpl; [rewrite app_nil_r, E; by destruct cur|].
    rewrite IH by done. destruct (span_token l) as [t r]; simpl. by rewrite reverse_cons, <-app_assoc.
Qed.

Lemma skip_delims_length l : (length (skip_delims l) ≤ length l)%nat.
Proof. induction l as [|c l IH]; [done|]; simpl. destruct (is_delim c); simpl; lia. Qed.

Lemma skip_delims_head l c l' : skip_delims l = c :: l' → is_delim c = false.
Proof. induction l as [|x l IH]; [done|]; simpl. destruct (is_delim x) eqn:E; [done|]. by intros [= <- _]. Qed.

Lemma span_token_length l : (length (snd (span_token l)) ≤ length l)%nat.
Proof. induction l as [|c l IH]; [done|]; simpl. destruct (is_delim c); simpl; [lia|]. destruct (span_token l). simpl in *. lia. Qed.

Lemma tokens_fields fuel l : (length l < fuel)%nat → tokens fuel l = Some (fields [] l).
Proof.
  revert l. induction fuel as [|fuel IH]; intros l Hf; [lia|]. cbn [tokens]. rewrite fields_skip.
  pose proof (skip_delims_length l) as Hl. destruct (skip_delims l) as [|c l'] eqn:E; [done|].
  apply skip_delims_head in E. cbn [span_token fields]. rewrite E. rewrite fields_span by done.
  pose proof (span_token_length l') as Hs. destruct (span_token l') as [t r]. simpl in *. destruct r as [|d r]; [done|].
  rewrite IH by (simpl in *; lia). done.
Qed.

(** What a line does. *)
Definition line_meaning (l : text) (c : Config) : option Config :=
  match fields [] l with
  | [] => Some c
  | t :: ts =>
    if bool_decide (t !! 0%nat = Some "#"%char) then Some c else
    match ts with [v] => Some (set (str t) v c) | _ => None end
  end.

Lemma parse_line_meaning l c : parse_line l c = line_meaning l c.
Proof.
  unfold parse_line, line_meaning. rewrite tokens_fields by lia. simpl.
  destruct (fields [] l) as [|t [|v [|? ?]]]; try done; by case_bool_decide.
Qed.

(** The lines the parser refuses. *)
Definition bad_line (l : text) : Prop :=
  ∃ t ts, fields [] l = t :: ts ∧ t !! 0%nat ≠ Some "#"%char ∧ length ts ≠ 1%nat.

Lemma line_meaning_None l c : line_meaning l c = None ↔ bad_line l.
Proof.
  unfold line_meaning, bad_line. split.
  - destruct (fields [] l) as [|t ts]; [done|]. case_bool_decide as Hc; [done|]. intros H. exists t, ts.
    split_and!; [done|done|]. by destruct ts as [|? [|? ?]].
  - intros (t&ts&->&Hc&Hl). rewrite bool_decide_eq_false_2 by done. by destruct ts as [|? [|? ?]].
Qed.

Lemma foldM_None {A B} (f : A → B → option A) (bad : B → Prop) l a :
  (∀ a b, f a b = None ↔ bad b) → foldM f a l = None ↔ Exists bad l.
Proof.
  intros Hf. revert a. induction l as [|b l IH]; intros a; simpl; [by rewrite Exists_nil|].
  rewrite Exists_cons. destruct (f a b) as [a'|] eqn:E; simpl.
  - rewrite IH. split; [by right|]. intros [Hb|?]; [|done]. apply Hf with (a := a) in Hb. congruence.
  - split; [|done]. intros _. left. by eapply Hf.
Qed.

(** ** Printed configurations *)

Inductive item :=
  | Empty (d : text)
  | Comment (d t : text)
  | Setting (d1 k d2 v d3 : text).

Definition delims (d : text) : Prop := Forall (λ x, is_delim x = true) d.
Definition one_line (t : text) : Prop := Forall (λ x, Ascii.eqb x newline = false) t.
Definition word (t : text) : Prop := t ≠ [] ∧ Forall (λ x, is_delim x = false ∧ Ascii.eqb x newline = false) t.

Definition item_ok (i : item) : Prop :=
  match i with
  | Empty d => delims d
  | Comment d t => delims d ∧ one_line t
  | Setting d1 k d2 v d3 =>
    delims d1 ∧ word k ∧ k !! 0%nat ≠ Some "#"%char ∧ delims d2 ∧ d2 ≠ [] ∧ word v ∧ delims d3
  end.

Definition print_item (i : item) : text :=
  match i with
  | Empty d => d
  | Comment d t => d ++ "#"%char :: t
  | Setting d1 k d2 v d3 => d1 ++ k ++ d2 ++ v ++ d3
  end.
Definition print_config (its : list item) : text := concat (map (λ i, print_item i ++ [newline]) its).

Definition apply_item (c : Config) (i : item) : Config :=
  match i with Setting _ k _ v _ => set (str k) v c | _ => c end.

Lemma delim_not_newline x : is_delim x = true → Ascii.eqb x newline = false.
Proof. unfold is_delim, newline. destruct x as [[] [] [] [] [] [] [] []]; by vm_compute. Qed.

Lemma delims_one_line d : delims d → one_line d.
Proof. intros H. eapply Forall_impl; [exact H|]. apply delim_not_newline. Qed.

Lemma word_one_line t : word t → one_line t.
Proof. intros [_ H]. eapply Forall_impl; [exact H|]. by intros x []. Qed.

Lemma item_one_line i : item_ok i → one_line (print_item i).
Proof.
  unfold one_line. destruct i as [d|d t|d1 k d2 v d3]; simpl.
  - apply delims_one_line.
  - intros [Hd Ht]. apply Forall_app. split; [by apply delims_one_line|]. by constructor.
  - intros (H1&Hk&_&H2&_&Hv&H3). rewrite !Forall_app. split_and!; try (by apply delims_one_line); by apply word_one_line.
Qed.

Lemma lines_app x r cur : one_line x → lines cur (x ++ newline :: r) = (reverse cur ++ x) :: lines [] r.
Proof.
  intros H. revert cur. induction H as [|c x Hc _ IH]; intros cur; simpl; [by rewrite app_nil_r|].
  rewrite Hc, IH, reverse_cons, <-app_assoc. done.
Qed.

Lemma lines_print its : Forall item_ok its → lines [] (print_config its) = map print_item its.
Proof.
  induction 1 as [|i its Hi _ IH]; [done|]. unfold print_config in *. simpl. rewrite <-app_assoc. simpl.
  rewrite lines_app by (by apply item_one_line). by rewrite IH.
Qed.

Lemma fields_delims d l : delims d → fields [] (d ++ l) = fields [] l.
Proof. induction 1 as [|x d Hx _ IH]; [done|]; simpl. by rewrite Hx. Qed.

Lemma fields_word cur t l :
  Forall (λ x, is_delim x = false ∧ Ascii.eqb x newline = false) t → fields cur (t ++ l) = fields (reverse t ++ cur) l.
Proof.
  intros H. revert cur. induction H as [|x t [Hx _] _ IH]; intros cur; [done|]. simpl. rewrite Hx, IH, reverse_cons, <-app_assoc. done.
Qed.

Lemma fields_end t d l : word t → delims d → (d = [] → l = []) → fields [] (t ++ d ++ l) = t :: fields [] l.
Proof.
  intros [Ht Hw] Hd Hl. rewrite fields_word by done. rewrite app_nil_r.
  assert (reverse t ≠ []) as Hr by (destruct t; [done|rewrite reverse_cons; by destruct (reverse t)]).
  destruct Hd as [|x d Hx Hd]; simpl.
  - rewrite Hl by done. simpl. destruct (reverse t) eqn:E; [done|]. by rewrite <-E, reverse_involutive.
  - rewrite Hx. destruct (reverse t) eqn:E; [done|]. by rewrite <-E, reverse_involutive, fields_delims.
Qed.

Lemma line_meaning_item i c : item_ok i → line_meaning (print_item i) c = Some (apply_item c i).
Proof.
  unfold line_meaning. destruct i as [d|d t|d1 k d2 v d3]; simpl.
  - intros Hd. rewrite <-(app_nil_r d), fields_delims by done. done.
  - intros [Hd _]. rewrite fields_delims by done. cbn [fields]. change (is_delim "#"%char) with false. cbn iota.
    rewrite fields_span by done. done.
  - intros (H1&Hk&Hc&H2&H2n&Hv&H3). rewrite fields_delims by done. rewrite fields_end by (done || by intros ->).
    assert (fields [] (v ++ d3) = [v]) as -> by (rewrite <-(app_nil_r d3); by rewrite fields_end).
    by rewrite bool_decide_eq_false_2.
Qed.

(** C36: configuration files.  Parsing a printed configuration sets its options
    in order (the last setting of a name wins) and skips its comments and blank
    lines, whatever the delimiters around the words; and on any text at all the
    parser returns, aborting exactly when some line is neither blank, nor a
    comment, nor made of two words. *)
Theorem config_roundtrip (items : list item) (c : Config) :
  Forall item_ok items →
  parse (print_config items) c = Some (foldl apply_item c items) ∧
  ∀ txt, parse txt c = None ↔ Exists bad_line (lines [] txt).
Proof.
  intros Hok. split.
  - rewrite parse_lines, lines_print by done. clear -Hok. revert c. induction Hok as [|i items Hi _ IH]; intros c; [done|].
    simpl. rewrite parse_line_meaning, line_meaning_item by done. simpl. apply IH.
  - intros txt. rewrite parse_lines. apply foldM_None. intros a b. rewrite parse_line_meaning. apply line_meaning_None.
Qed.

Definition ddr3_items : list item :=
  [Comment [] (chars " example config"); Setting [] (chars "standard") (chars " = ") (chars "DDR3") [];
   Empty (chars "  "); Setting (chars " ") (chars "channels") (chars "=") (chars "1") (chars " ");
   Setting [] (chars "channels") (chars " = ") (chars "2") []].

Lemma config_roundtrip_witness :
  let c := new_config (mkConsts 0 0 0 0 0 0) ZSIM in
  (∃ c', parse (print_config ddr3_items) c = Some c' ∧ get_channels c' = Some 2 ∧ option_of "standard" c' = chars "DDR3" ∧
     channels (consts c') = 2) ∧
  parse (chars "standard = DDR3 x") c = None.
Proof.
  intros c. assert (Forall item_ok ddr3_items) as Hok.
  { unfold ddr3_items. repeat (apply List.Forall_cons; [|]); try apply List.Forall_nil; simpl;
      repeat split; try (vm_compute; congruence); repeat (apply List.Forall_cons || apply List.Forall_nil); vm_compute; repeat split; congruence. }
  destruct (config_roundtrip ddr3_items c Hok) as [H1 H2]. split.
  - eexists. split; [exact H1|]. vm_compute. auto.
  - apply H2. apply Exists_cons_hd. exists (chars "standard"), [chars "DDR3"; chars "x"]. vm_compute. split; [reflexivity|].
    split; [congruence|lia].
Defined.
