(* ===== verification/Simulation.v ===== *)
(** * The simulation loops ([ramulator/src/Main.cpp])

    [run_dramtrace] sends the requests of a trace straight to the memory;
    [run_cputrace] ticks a processor and its memory, each at its own rate. *)

From S2P Require Import Prelude Request Memory Window Cache Trace Processor Config.

Open Scope Z_scope.

(** ** [gcd] *)

(** [while (v != 0) { r = u % v; u = v; v = r; }]; the remainder shrinks. *)
Fixpoint gcd_loop (fuel : nat) (u v : Z) : option Z :=
  match fuel with
  | O => None
  | S fuel => if v =? 0 then Some u else gcd_loop fuel v (Z.rem u v)
  end.
Definition gcd (u v : Z) : option Z :=
  let '(u, v) := if u <? v then (v, u) else (u, v) in gcd_loop (S (Z.to_nat (Z.abs v))) u v.

(** ** [class OutstandingReqWindow] *)

Record ReqWindow := mkReqWindow { inflight_req : Z; inflight_limit : Z }.

Definition is_unlimited (w : ReqWindow) : bool := inflight_limit w =? -1.
Definition rw_is_full (w : ReqWindow) : bool := negb (is_unlimited w) && (inflight_limit w =? inflight_req w).
Definition rw_is_empty (w : ReqWindow) : bool := inflight_req w =? 0.
Definition rw_insert (w : ReqWindow) : option ReqWindow :=
  if negb (is_unlimited w) then assert! negb (rw_is_full w); Some (mkReqWindow (inflight_req w + 1) (inflight_limit w))
  else Some w.
Definition rw_retire (w : ReqWindow) : option ReqWindow :=
  if negb (is_unlimited w) then assert! negb (rw_is_empty w); Some (mkReqWindow (inflight_req w - 1) (inflight_limit w))
  else Some w.

(** What an iteration of [run_cputrace] does. *)
Inductive tick_event := CpuTick | MemTick.
#[export] Instance tick_event_eq_dec : EqDecision tick_event.
Proof. solve_decision. Defined.

Section Loops.
Context {M : Type} `{!MemoryBase M}.

(** ** [run_dramtrace] *)

Record DramSim := mkDramSim {
  dmem : M;
  dtrace : Trace;
  dwindow : ReqWindow;
  stall : bool;
  at_end : bool;
  reads : Z;
  writes : Z;
  clks : Z;
  daddr : Z;
  dtype : ReqType;
  latencies : gmap Z Z
}.

(** The state before the loop. *)
Definition new_dramsim (limit : Z) (t : Trace) (m : M) : DramSim :=
  mkDramSim m t (mkReqWindow 0 limit) false false 0 0 0 0 READ ∅.

(** [configs.contains("inflight_limit") ? configs.get_int_value(...) : -1] *)
Definition limit_of (c : Config) : option Z :=
  if contains "inflight_limit" c then get_int_value "inflight_limit" c else Some (-1).

(** The first half of the body: the next line of the trace, when the previous
    one was taken, ... *)
Definition dram_fetch (s : DramSim) : option DramSim :=
  if negb (at_end s) && negb (stall s) then
    '(r, t) ← get_dramtrace_request (dtrace s);
    Some (match r with
          | None => mkDramSim (dmem s) t (dwindow s) (stall s) true (reads s) (writes s) (clks s) (daddr s) (dtype s) (latencies s)
          | Some (a, ty) => mkDramSim (dmem s) t (dwindow s) (stall s) false (reads s) (writes s) (clks s) a ty (latencies s)
          end)
  else Some s.

(** ... and its request. *)
Definition dram_send (s : DramSim) : option DramSim :=
  if at_end s then Some s else
  '(st, m) ← (if rw_is_full (dwindow s) then Some (true, dmem s)
              else '(ok, m) ← mb_send (Request_addr (daddr s) (dtype s) 0) (dmem s); Some (negb ok, m));
  if (st : bool) then
    Some (mkDramSim m (dtrace s) (dwindow s) true (at_end s) (reads s) (writes s) (clks s) (daddr s) (dtype s) (latencies s))
  else
    match dtype s with
    | READ =>
      w ← rw_insert (dwindow s);
      Some (mkDramSim m (dtrace s) w false (at_end s) (reads s + 1) (writes s) (clks s) (daddr s) (dtype s) (latencies s))
    | WRITE =>
      Some (mkDramSim m (dtrace s) (dwindow s) false (at_end s) (reads s) (writes s + 1) (clks s) (daddr s) (dtype s) (latencies s))
    | _ =>
      Some (mkDramSim m (dtrace s) (dwindow s) false (at_end s) (reads s) (writes s) (clks s) (daddr s) (dtype s) (latencies s))
    end.

(** [read_complete]: [latencies[r.depart - r.arrive]++; window.retire();] *)
Definition read_complete (s : DramSim) (r : Request) : option DramSim :=
  let d := depart r - arrive r in
  w ← rw_retire (dwindow s);
  Some (mkDramSim (dmem s) (dtrace s) w (stall s) (at_end s) (reads s) (writes s) (clks s) (daddr s) (dtype s)
    (<[d := default 0 (latencies s !! d) + 1]> (latencies s))).

(** The second half: the memory's cycle, with its callbacks. *)
Definition dram_cycle (s : DramSim) : option DramSim :=
  '(ds, m) ← mb_tick (dmem s);
  s ← foldM read_complete
        (mkDramSim m (dtrace s) (dwindow s) (stall s) (at_end s) (reads s) (writes s) (clks s) (daddr s) (dtype s) (latencies s)) ds;
  Some (mkDramSim (dmem s) (dtrace s) (dwindow s) (stall s) (at_end s) (reads s) (writes s) (clks s + 1) (daddr s) (dtype s) (latencies s)).

Definition dram_step (s : DramSim) : option DramSim := s ← dram_fetch s; s ← dram_send s; dram_cycle s.

(** [while (!end || memory.pending_requests())] *)
Definition dram_running (s : DramSim) : bool := negb (at_end s) || negb (mb_pending_requests (dmem s) =? 0).
Fixpoint run_dramtrace (fuel : nat) (s : DramSim) : option DramSim :=
  match fuel with
  | O => None
  | S fuel => if dram_running s then s ← dram_step s; run_dramtrace fuel s else Some s
  end.

(** ** [run_cputrace] *)

Record CpuSim := mkCpuSim {
  iter : Z;
  cpu_tick : Z;
  mem_tick : Z;
  next_cpu_tick : Z;
  next_mem_tick : Z;
  proc : Processor M
}.

(** The two periods in picoseconds, reduced; the memory's is the [double]
    [clk_ns()], whose multiple of 1000 is an argument. *)
Definition new_cpusim (c : Config) (mem_ps : Z) (p : Processor M) : option CpuSim :=
  cpu_ps ← get_cpu_tick c;
  pim ← pim_mode_enabled c;
  let cpu_ps := if (pim : bool) then mem_ps else cpu_ps in
  g ← gcd cpu_ps mem_ps;
  assert! negb (g =? 0);
  let ct := Z.quot cpu_ps g in let mt := Z.quot mem_ps g in
  Some (mkCpuSim 0 ct mt (ct - 1) (mt - 1) p).

(** Does the loop stop after a processor cycle? *)
Definition cpu_stops (c : Config) (p : Processor M) : bool :=
  if calc_weighted_speedup c then proc_reached_limit p
  else if is_early_exit c then proc_finished p
  else proc_finished p && (mb_pending_requests (snd (penv p)) =? 0).

(** One iteration; the boolean is a [break]. *)
Definition cpu_step (c : Config) (s : CpuSim) : option (bool * list tick_event * CpuSim) :=
  '(stop, evs, s) ← (if iter s =? next_cpu_tick s then
                       p ← proc_tick (proc s);
                       Some (cpu_stops c p, [CpuTick],
                             mkCpuSim (iter s) (cpu_tick s) (mem_tick s) (next_cpu_tick s + cpu_tick s) (next_mem_tick s) p)
                     else Some (false, [], s));
  if (stop : bool) then Some (true, evs, s) else
  '(evs, s) ← (if iter s =? next_mem_tick s then
                 p ← memory_tick (proc s);
                 Some (evs ++ [MemTick],
                       mkCpuSim (iter s) (cpu_tick s) (mem_tick s) (next_cpu_tick s) (next_mem_tick s + mem_tick s) p)
               else Some (evs, s));
  Some (false, evs, mkCpuSim (iter s + 1) (cpu_tick s) (mem_tick s) (next_cpu_tick s) (next_mem_tick s) (proc s)).

(** At most [fuel] iterations. *)
Fixpoint run_cputrace (fuel : nat) (c : Config) (s : CpuSim) : option (bool * list tick_event * CpuSim) :=
  match fuel with
  | O => Some (false, [], s)
  | S fuel =>
    '(stop, evs, s) ← cpu_step c s;
    if (stop : bool) then Some (true, evs, s) else
    '(stop, evs', s) ← run_cputrace fuel c s;
    Some (stop, evs ++ evs', s)
  end.
End Loops.
Arguments DramSim : clear implicits.
Arguments CpuSim : clear implicits.
