(* ===== verification/SimulationTheorems.v ===== *)
(** * Theorems about the simulation loops

    The requests in flight of [run_dramtrace], and the two clock domains of
    [run_cputrace]. *)

From S2P Require Import Prelude Request Memory Window Cache Trace Processor ProcessorInv ProcessorInit ProcessorTheorems.
From S2P Require Import SpecDDR3 DeviceTheorems MemoryInv MemoryTheorems MemoryIface Config Simulation.

(** ** [gcd] *)

Lemma gcd_loop_ok fuel u v : 0 ≤ u → 0 ≤ v → (Z.to_nat v < fuel)%nat → gcd_loop fuel u v = Some (Z.gcd u v).
Proof.
  revert u v. induction fuel as [|fuel IH]; intros u v Hu Hv Hf; [lia|]. cbn [gcd_loop].
  destruct (Z.eqb_spec v 0) as [->|Hne]; [rewrite Z.gcd_0_r, Z.abs_eq by done; done|].
  pose proof (Z.mod_pos_bound u v ltac:(lia)). rewrite Z.rem_mod_nonneg, IH by lia.
  f_equal. rewrite (Z.gcd_comm v), Z.gcd_mod by done. apply Z.gcd_comm.
Qed.

Lemma gcd_ok u v : 0 ≤ u → 0 ≤ v → gcd u v = Some (Z.gcd u v).
Proof.
  intros Hu Hv. unfold gcd. destruct (u <? v); rewrite gcd_loop_ok by lia; [by rewrite Z.gcd_comm|done].
Qed.

(** ** [run_dramtrace] *)

(** The number of samples in the table of latencies. *)
Definition samples (m : gmap Z Z) : Z := map_fold (λ _ x n, x + n) 0 m.

Lemma samples_incr m d : samples (<[d := default 0 (m !! d) + 1]> m) = samples m + 1.
Proof.
  unfold samples. destruct (m !! d) as [x|] eqn:E; simpl.
  - rewrite <-(insert_delete_id m d x E) at 2. rewrite <-insert_delete_eq.
    rewrite !map_fold_insert_L by (intros; lia || apply lookup_delete_eq). lia.
  - rewrite map_fold_insert_L by (intros; lia || done). lia.
Qed.

Section Dram.
Context {M : Type} `{ML : MemoryLaws M}.
Variable limit : Z.

(** The requests are of core 0, which the memory must have. *)
Inductive dram_reachable : DramSim M → Prop :=
  | DReach_new t m : mb_ok m → mb_reads m = [] → 0 < mb_cores → dram_reachable (new_dramsim limit t m)
  | DReach_step s s' : dram_reachable s → dram_running s = true → dram_step s = Some s' → dram_reachable s'.

(** [n] reads are on their way. *)
Record counted (n : nat) (s : DramSim M) : Prop := {
  cd_limit : inflight_limit (dwindow s) = limit;
  cd_window : limit ≠ -1 → inflight_req (dwindow s) = Z.of_nat n;
  cd_bound : 0 ≤ limit → Z.of_nat n ≤ limit;
  cd_samples : Simulation.reads s = samples (latencies s) + Z.of_nat n;
  cd_type : dtype s = READ ∨ dtype s = WRITE;
  cd_cores : 0 < mb_cores
}.
Definition dram_inv (s : DramSim M) : Prop := mb_ok (dmem s) ∧ counted (length (mb_reads (dmem s))) s.

Lemma get_dramtrace_type t r t' : get_dramtrace_request t = Some (Some r, t') → snd r = READ ∨ snd r = WRITE.
Proof.
  unfold get_dramtrace_request, parse_dramtrace, read_type. destruct (getline (file t)) as [l f].
  destruct (eofbit f); [by intros [=]|]. intros H. run_opt. simplify_eq. simpl.
  repeat (case_match; run_opt); simplify_eq; auto.
Qed.

Lemma dram_fetch_ok s :
  dram_inv s →
  (dram_fetch s = None → get_dramtrace_request (dtrace s) = None) ∧
  ∀ s', dram_fetch s = Some s' → dram_inv s'.
Proof.
  intros [Hm Hc]. unfold dram_fetch. destruct (negb (at_end s) && negb (stall s)); [|by split; [|intros s' [= <-]]].
  destruct (get_dramtrace_request (dtrace s)) as [[[[a ty]|] t]|] eqn:E; cbn [mbind option_bind]; split; try done;
    intros s' [= <-]; split; try done; destruct Hc; split; try done.
  by apply get_dramtrace_type in E.
Qed.

Lemma dram_send_ok s : dram_inv s → ∃ s', dram_send s = Some s' ∧ dram_inv s'.
Proof.
  intros [Hm Hc]. unfold dram_send. destruct (at_end s); [by exists s|].
  destruct (rw_is_full (dwindow s)) eqn:Hf; cbn [mbind option_bind].
  { eexists. split; [done|]. split; [done|]. by destruct Hc. }
  destruct Hc as [Hl Hw Hb Hs Ht Hco].
  destruct (mb_send_ok (dmem s) (Request_addr (daddr s) (dtype s) 0) Hm) as (ok&m'&Hsend&Hm'&Hr); [by split_and!|].
  rewrite Hsend; cbn [mbind option_bind]. apply Permutation_length in Hr. rewrite length_app in Hr. simpl in Hr.
  destruct ok; cbn [negb] in *.
  2:{ eexists. split; [done|]. split; [done|]. simpl in *. split; simpl; rewrite ?Hr; auto. }
  destruct Ht as [Ht|Ht]; rewrite Ht in *; simpl in Hr.
  - unfold rw_insert. destruct (is_unlimited (dwindow s)) eqn:Hu; cbn [negb mbind option_bind].
    + unfold is_unlimited in Hu. apply Z.eqb_eq in Hu. eexists. split; [done|]. split; [done|]. split; simpl; try rewrite Hr; try lia; auto.
    + rewrite Hf; simpl. eexists. split; [done|]. split; [done|]. unfold is_unlimited in Hu. apply Z.eqb_neq in Hu.
      unfold rw_is_full, is_unlimited in Hf. rewrite (proj2 (Z.eqb_neq _ _)) in Hf by done. simpl in Hf. apply Z.eqb_neq in Hf.
      split; simpl; try rewrite Hr; auto; lia.
  - eexists. split; [done|]. split; [done|]. simpl in *. split; simpl; rewrite ?Hr; auto.
Qed.

Lemma read_complete_ok n s r : counted (S n) s → ∃ s', read_complete s r = Some s' ∧ counted n s' ∧ dmem s' = dmem s.
Proof.
  intros [Hl Hw Hb Hs Ht Hco]. unfold read_complete, rw_retire. destruct (is_unlimited (dwindow s)) eqn:Hu; cbn [negb mbind option_bind].
  - unfold is_unlimited in Hu. apply Z.eqb_eq in Hu. eexists. split; [done|]. split; [|done].
    split; simpl; rewrite ?samples_incr; auto; lia.
  - unfold is_unlimited in Hu. apply Z.eqb_neq in Hu. unfold rw_is_empty. rewrite (proj2 (Z.eqb_neq _ _)) by lia. simpl.
    eexists. split; [done|]. split; [|done]. split; simpl; rewrite ?samples_incr; auto; lia.
Qed.

Lemma reads_complete_ok ds n s :
  counted (length ds + n) s → ∃ s', foldM read_complete s ds = Some s' ∧ counted n s' ∧ dmem s' = dmem s.
Proof.
  revert s. induction ds as [|r ds IH]; intros s Hc; cbn [foldM]; [by exists s|].
  destruct (read_complete_ok _ _ r Hc) as (s1&->&Hc1&Hm1). cbn [mbind option_bind].
  destruct (IH s1 Hc1) as (s2&->&Hc2&Hm2). exists s2. split; [done|]. split; [done|congruence].
Qed.

Lemma dram_cycle_ok s :
  dram_inv s → (dram_cycle s = None → mb_tick (dmem s) = None) ∧ ∀ s', dram_cycle s = Some s' → dram_inv s'.
Proof.
  intros [Hm Hc]. unfold dram_cycle. destruct (mb_tick (dmem s)) as [[ds m]|] eqn:Ht; [|done]. cbn [mbind option_bind].
  destruct (mb_tick_ok _ _ _ Hm Ht) as [Hm' Hp]. apply Permutation_length in Hp. rewrite length_app, length_map in Hp.
  destruct (reads_complete_ok ds (length (mb_reads m))
    (mkDramSim m (dtrace s) (dwindow s) (stall s) (at_end s) (Simulation.reads s) (writes s) (clks s) (daddr s) (dtype s) (latencies s)))
    as (s2&->&Hc2&Hm2); [rewrite Hp; by destruct Hc|]. cbn [mbind option_bind]. split; [done|]. intros s' [= <-].
  split; simpl; rewrite Hm2; [done|]. by destruct Hc2.
Qed.

Lemma dram_step_ok s :
  dram_inv s →
  (dram_step s = None → get_dramtrace_request (dtrace s) = None ∨ ∃ m, mb_ok m ∧ mb_tick m = None) ∧
  ∀ s', dram_step s = Some s' → dram_inv s'.
Proof.
  intros Hi. unfold dram_step. destruct (dram_fetch_ok s Hi) as [Hn Hs]. destruct (dram_fetch s) as [s1|]; cbn [mbind option_bind].
  2:{ split; [|done]. intros _. left. by apply Hn. }
  destruct (dram_send_ok s1 (Hs _ eq_refl)) as (s2&->&Hi2). cbn [mbind option_bind].
  destruct (dram_cycle_ok s2 Hi2) as [Hn2 Hs2]. split; [|done]. intros Hc. right. exists (dmem s2). split; [apply Hi2|by apply Hn2].
Qed.

Lemma dram_reachable_inv s : dram_reachable s → dram_inv s.
Proof.
  induction 1 as [t m Hm Hr Hco|s s' _ IH _ Hs]; [|by eapply dram_step_ok].
  split; [done|]. simpl. rewrite Hr. split; simpl; auto; lia.
Qed.
End Dram.

(** C37: replaying a memory trace.  Over any memory that obeys the laws and has
    a core 0 (that of all the requests), in every reachable state of
    [run_dramtrace] the window counts exactly the reads in the memory and never
    more than its limit, and every read that was accepted is either in the
    memory or has one sample in the table of latencies; when the loop ends all
    of them have.  An iteration aborts only on a malformed
    line or when the memory's own cycle does: the assertions of the window
    never fail. *)
Theorem dramtrace_reads_exact {M : Type} `{ML : MemoryLaws M} limit (s : DramSim M) :
  dram_reachable limit s →
  (limit ≠ -1 → inflight_req (dwindow s) = Z.of_nat (length (mb_reads (dmem s)))) ∧
  (0 ≤ limit → Z.of_nat (length (mb_reads (dmem s))) ≤ limit) ∧
  Simulation.reads s = samples (latencies s) + Z.of_nat (length (mb_reads (dmem s))) ∧
  (dram_running s = false → Simulation.reads s = samples (latencies s)) ∧
  (dram_step s = None → get_dramtrace_request (dtrace s) = None ∨ ∃ m, mb_ok m ∧ mb_tick m = None).
Proof.
  intros Hr. pose proof (dram_reachable_inv limit s Hr) as Hi. destruct (dram_step_ok limit s Hi) as [Hn _].
  destruct Hi as [Hm [Hl Hw Hb Hs Ht]]. split_and!; try done.
  unfold dram_running. intros Hrun. apply orb_false_iff in Hrun as [_ Hp]. apply negb_false_iff, Z.eqb_eq in Hp.
  rewrite (mb_pending_ok _ Hm Hp) in Hs. simpl in Hs. lia.
Qed.

(** ** [run_cputrace] *)

Definition occurs (e : tick_event) (evs : list tick_event) : Z := Z.of_nat (length (filter (e =.) evs)).

Lemma occurs_app e l l' : occurs e (l ++ l') = occurs e l + occurs e l'.
Proof. unfold occurs. rewrite filter_app, length_app. lia. Qed.

Section Cpu.
Context {M : Type} `{!MemoryBase M}.

Lemma proc_receive_cycles (p : Processor M) r p' : proc_receive r p = Some p' → cpu_cycles p' = cpu_cycles p.
Proof. unfold proc_receive. intros H. run_opt. done. Qed.

Lemma receives_cycles l (p p' : Processor M) : foldM (λ p r, proc_receive r p) p l = Some p' → cpu_cycles p' = cpu_cycles p.
Proof.
  intros H. eapply (foldM_inv _ (λ x, cpu_cycles x = cpu_cycles p)); [|exact H|done].
  intros x r x' Hx E. rewrite <-E. exact (proc_receive_cycles _ _ _ Hx).
Qed.

Lemma memory_tick_cycles (p p' : Processor M) : memory_tick p = Some p' → cpu_cycles p' = cpu_cycles p.
Proof. unfold memory_tick. destruct (mb_tick _) as [[d m]|]; [|done]. intros H. by apply receives_cycles in H. Qed.

Lemma proc_tick_cycles (p p' : Processor M) : proc_tick p = Some p' → cpu_cycles p' = cpu_cycles p + 1.
Proof.
  unfold proc_tick. set (p0 := mkProc _ _ _ _ _ _). destruct (tick_caches p0) as [p1|] eqn:E; [|done]. cbn [mbind option_bind]. intros H.
  assert (cpu_cycles p1 = cpu_cycles p0) as E1.
  { unfold tick_caches in E. destruct (_ && _); [by simplify_eq|]. destruct (cs_tick _ _ _) as [[[d s] m]|]; [|done].
    by apply receives_cycles in E. }
  change (cpu_cycles p + 1) with (cpu_cycles p0). rewrite <-E1.
  eapply (foldM_inv _ (λ x, cpu_cycles x = cpu_cycles p1)); [|exact H|done].
  intros x k x' Hx <-. unfold tick_core in Hx. run_opt. by repeat case_match; simplify_eq.
Qed.

Variables (c : Config) (a b : Z).
Hypotheses (Ha : 0 < a) (Hb : 0 < b).

(** After [k] iterations. *)
Record clocked (k : Z) (s : CpuSim M) : Prop := {
  ck_iter : iter s = k;
  ck_cpu : cpu_tick s = a;
  ck_mem : mem_tick s = b;
  ck_next_cpu : next_cpu_tick s = (k / a + 1) * a - 1;
  ck_next_mem : next_mem_tick s = (k / b + 1) * b - 1
}.

Lemma next_tick k d : 0 < d → 0 ≤ k →
  if k =? (k / d + 1) * d - 1 then (k + 1) / d = k / d + 1 else (k + 1) / d = k / d.
Proof.
  intros Hd Hk. pose proof (Z.div_mod k d ltac:(lia)). pose proof (Z.mod_pos_bound k d Hd).
  destruct (Z.eqb_spec k ((k / d + 1) * d - 1)) as [E|E]; symmetry.
  - apply (Z.div_unique _ _ _ 0); lia.
  - apply (Z.div_unique _ _ _ (k mod d + 1)); [|lia]. left. nia.
Qed.

(** The processor's half of an iteration, and the memory's. *)
Lemma cpu_step_ok k s stop evs s' :
  0 ≤ k → clocked k s → cpu_step c s = Some (stop, evs, s') →
  cpu_cycles (proc s') = cpu_cycles (proc s) + occurs CpuTick evs ∧
  if stop then cpu_stops c (proc s') = true
  else clocked (k + 1) s' ∧ occurs CpuTick evs = (k + 1) / a - k / a ∧ occurs MemTick evs = (k + 1) / b - k / b.
Proof.
  intros Hk [Hi Hc Hm Hnc Hnm] H. unfold cpu_step in H. rewrite Hi, Hnc in H.
  pose proof (next_tick k a Ha Hk) as Ea. pose proof (next_tick k b Hb Hk) as Eb.
  assert (∀ evs0 (s0 : CpuSim M),
    ('(evs, s) ← (if iter s0 =? next_mem_tick s0 then
                 p ← memory_tick (proc s0);
                 Some (evs0 ++ [MemTick],
                       mkCpuSim (iter s0) (cpu_tick s0) (mem_tick s0) (next_cpu_tick s0) (next_mem_tick s0 + mem_tick s0) p)
               else Some (evs0, s0));
     Some (false, evs, mkCpuSim (iter s + 1) (cpu_tick s) (mem_tick s) (next_cpu_tick s) (next_mem_tick s) (proc s))) = Some (stop, evs, s') →
    iter s0 = k → cpu_tick s0 = a → mem_tick s0 = b → next_cpu_tick s0 = ((k + 1) / a + 1) * a - 1 → next_mem_tick s0 = next_mem_tick s →
    cpu_cycles (proc s0) = cpu_cycles (proc s) + occurs CpuTick evs0 → occurs CpuTick evs0 = (k + 1) / a - k / a → occurs MemTick evs0 = 0 →
    cpu_cycles (proc s') = cpu_cycles (proc s) + occurs CpuTick evs ∧ stop = false ∧
    clocked (k + 1) s' ∧ occurs CpuTick evs = (k + 1) / a - k / a ∧ occurs MemTick evs = (k + 1) / b - k / b) as Hmem.
  { intros evs0 s0 H0 Hi0 Hc0 Hm0 Hn0 Hnm0 Hcy0 Ho1 Ho2. rewrite Hi0, Hnm0, Hnm in H0. destruct (_ =? _) in Eb, H0.
    - destruct (memory_tick (proc s0)) as [p|] eqn:E; cbn [mbind option_bind] in H0; [|done]. simplify_eq/=.
      apply memory_tick_cycles in E. rewrite !occurs_app. change (occurs CpuTick [MemTick]) with 0. change (occurs MemTick [MemTick]) with 1.
      split_and!; [lia|done|split; simpl; lia|lia|lia].
    - cbn [mbind option_bind] in H0. simplify_eq/=. split_and!; [lia|done|split; simpl; lia|lia|lia]. }
  destruct (k =? _) in Ea, H.
  - destruct (proc_tick (proc s)) as [p|] eqn:E; cbn [mbind option_bind] in H; [|done]. apply proc_tick_cycles in E.
    destruct (cpu_stops c p) eqn:Hs; [simplify_eq/=; split; [change (occurs CpuTick [CpuTick]) with 1; lia|done]|].
    destruct (Hmem _ _ H) as (?&->&?); simpl; change (occurs CpuTick [CpuTick]) with 1; try lia; done.
  - destruct (Hmem _ _ H) as (?&->&?); change (occurs CpuTick []) with 0; try lia; done.
Qed.

Lemma run_cputrace_ok fuel k s stop evs s' :
  0 ≤ k → clocked k s → run_cputrace fuel c s = Some (stop, evs, s') →
  cpu_cycles (proc s') = cpu_cycles (proc s) + occurs CpuTick evs ∧
  if stop then cpu_stops c (proc s') = true
  else let n := Z.of_nat fuel in
       iter s' = k + n ∧ occurs CpuTick evs = (k + n) / a - k / a ∧ occurs MemTick evs = (k + n) / b - k / b.
Proof.
  revert k s stop evs s'. induction fuel as [|fuel IH]; intros k s stop evs s' Hk Hs H; cbn [run_cputrace] in H.
  { simplify_eq. change (occurs CpuTick []) with 0. change (occurs MemTick []) with 0. simpl. rewrite !Z.add_0_r.
    split; [done|]. destruct Hs. split_and!; lia. }
  destruct (cpu_step c s) as [[[st1 evs1] s1]|] eqn:E; cbn [mbind option_bind] in H; [|done].
  destruct (cpu_step_ok _ _ _ _ _ Hk Hs E) as [Hcy H1]. destruct st1; [by simplify_eq|]. destruct H1 as (Hs1&O1&O2).
  destruct (run_cputrace fuel c s1) as [[[st2 evs2] s2]|] eqn:E2; cbn [mbind option_bind] in H; [|done]. simplify_eq.
  destruct (IH (k + 1) s1 stop evs2 s' ltac:(lia) Hs1 E2) as [Hcy2 H2]. rewrite !occurs_app. split; [lia|].
  destruct stop; [done|]. cbv zeta in *. replace (k + Z.of_nat (S fuel)) with (k + 1 + Z.of_nat fuel) by lia.
  destruct H2 as (?&?&?). split_and!; lia.
Qed.
End Cpu.

Section Aborts.
Context {M : Type} `{ML : MemoryLaws M}.
Variables (n : nat) (cc l3 : bool) (c : Config).
Hypothesis config : l3 = true → cc = true.

Lemma cpu_step_reachable s :
  proc_reachable n cc l3 (proc s) →
  match cpu_step c s with
  | None => ∃ m : M, mb_ok m ∧ mb_tick m = None
  | Some (_, _, s') => proc_reachable n cc l3 (proc s')
  end.
Proof.
  intros Hp. unfold cpu_step.
  assert (∀ evs (s0 : CpuSim M), proc_reachable n cc l3 (proc s0) →
    match ('(evs, s) ← (if iter s0 =? next_mem_tick s0 then
                 p ← memory_tick (proc s0);
                 Some (evs ++ [MemTick],
                       mkCpuSim (iter s0) (cpu_tick s0) (mem_tick s0) (next_cpu_tick s0) (next_mem_tick s0 + mem_tick s0) p)
               else Some (evs, s0));
     Some (false, evs, mkCpuSim (iter s + 1) (cpu_tick s) (mem_tick s) (next_cpu_tick s) (next_mem_tick s) (proc s))) with
    | None => ∃ m : M, mb_ok m ∧ mb_tick m = None
    | Some (_, _, s') => proc_reachable n cc l3 (proc s')
    end) as Hmem.
  { intros evs s0 H0. destruct (_ =? _); [|done]. destruct (memory_tick (proc s0)) as [p|] eqn:E; cbn [mbind option_bind].
    - by eapply PReach_memory.
    - pose proof (proc_reachable_ok n cc l3 config _ H0) as Hok. exists (snd (penv (proc s0))). split; [apply Hok|].
      destruct (mb_tick (snd (penv (proc s0)))) as [[d m]|] eqn:Ht; [|done].
      destruct (memory_tick_ok n cc l3 _ d m Hok Ht) as (q&Hq&_). congruence. }
  destruct (iter s =? next_cpu_tick s); cbn [mbind option_bind]; [|by apply Hmem].
  destruct (proc_tick_ok n cc l3 _ (proc_reachable_ok n cc l3 config _ Hp)) as (p&Ep&_). rewrite Ep; cbn [mbind option_bind].
  assert (proc_reachable n cc l3 p) as Hp' by (by eapply PReach_tick). destruct (cpu_stops c p); [done|]. by apply Hmem.
Qed.

Lemma run_cputrace_aborts fuel s :
  proc_reachable n cc l3 (proc s) → run_cputrace fuel c s = None → ∃ m : M, mb_ok m ∧ mb_tick m = None.
Proof.
  revert s. induction fuel as [|fuel IH]; intros s Hp H; cbn [run_cputrace] in H; [done|].
  pose proof (cpu_step_reachable s Hp) as Hstep. destruct (cpu_step c s) as [[[st evs] s1]|]; cbn [mbind option_bind] in H; [|done].
  destruct st; [done|]. apply (IH s1 Hstep). by destruct (run_cputrace fuel c s1) as [[[? ?] ?]|].
Qed.
End Aborts.

(** C38: the clock domains of [run_cputrace].  The periods of the processor and
    of the memory are reduced to coprime numbers [a] and [b] in the same ratio;
    after [k] iterations without a break the processor has had exactly [k / a]
    cycles and the memory [k / b]; the loop leaves only when its stop condition
    holds, and aborts only when the memory's own cycle does. *)
Theorem cputrace_clock_domains {M : Type} `{ML : MemoryLaws M} n cc l3 (c : Config) mem_ps cpu_ps pim (p : Processor M) :
  get_cpu_tick c = Some cpu_ps → pim_mode_enabled c = Some pim → 0 < cpu_ps → 0 < mem_ps →
  (l3 = true → cc = true) → proc_reachable n cc l3 p →
  ∃ s0, new_cpusim c mem_ps p = Some s0 ∧
    let a := cpu_tick s0 in let b := mem_tick s0 in
    0 < a ∧ 0 < b ∧ Z.gcd a b = 1 ∧ a * mem_ps = b * (if pim then mem_ps else cpu_ps) ∧
    ∀ fuel,
      match run_cputrace fuel c s0 with
      | None => ∃ m : M, mb_ok m ∧ mb_tick m = None
      | Some (stop, evs, s) =>
        cpu_cycles (proc s) = cpu_cycles p + occurs CpuTick evs ∧
        if stop then cpu_stops c (proc s) = true
        else let k := Z.of_nat fuel in
             iter s = k ∧ occurs CpuTick evs = k / a ∧ occurs MemTick evs = k / b
      end.
Proof.
  intros Hc Hpim Hcpu Hmem Hcfg Hp. unfold new_cpusim. rewrite Hc; cbn [mbind option_bind]. rewrite Hpim; cbn [mbind option_bind].
  set (x := if pim then mem_ps else cpu_ps). assert (0 < x) as Hx by (unfold x; by destruct pim).
  rewrite gcd_ok by lia. cbn [mbind option_bind]. set (g := Z.gcd x mem_ps).
  assert (0 < g) as Hg by (pose proof (Z.gcd_nonneg x mem_ps); assert (g ≠ 0) by (intros E; apply Z.gcd_eq_0_l in E; lia); unfold g in *; lia).
  rewrite (proj2 (Z.eqb_neq g 0)) by lia. simpl. eexists. split; [done|]. simpl. rewrite !Z.quot_div_nonneg by lia.
  destruct (Z.gcd_divide_l x mem_ps) as [a Ea]. destruct (Z.gcd_divide_r x mem_ps) as [b Eb]. fold g in Ea, Eb.
  assert (x / g = a) as -> by (rewrite Ea; apply Z.div_mul; lia). assert (mem_ps / g = b) as -> by (rewrite Eb; apply Z.div_mul; lia).
  assert (0 < a) as Ha by nia. assert (0 < b) as Hb by nia. split_and!; [done|done| |rewrite Ea, Eb; ring|].
  - apply (Z.mul_reg_r _ _ g); [lia|]. rewrite Z.mul_1_l, <-Z.gcd_mul_mono_r_nonneg by lia. rewrite <-Ea, <-Eb. done.
  - intros fuel. set (s0 := mkCpuSim 0 a b (a - 1) (b - 1) p).
    assert (clocked a b 0 s0) as H0 by (split; simpl; rewrite ?Z.div_0_l by lia; lia).
    destruct (run_cputrace fuel c s0) as [[[stop evs] s]|] eqn:E; [|by eapply (run_cputrace_aborts n cc l3 c Hcfg fuel s0)].
    destruct (run_cputrace_ok c a b Ha Hb fuel 0 s0 stop evs s ltac:(lia) H0 E) as [Hcy H]. split; [exact Hcy|].
    destruct stop; [done|]. cbv zeta in *. rewrite !Z.add_0_l, !Z.div_0_l, !Z.sub_0_r in H by lia. done.
Qed.

(** ** Witnesses over the DDR3 memory *)

#[local] Existing Instance mem3_base.
#[local] Existing Instance mem3_laws.

Fixpoint dram_steps {M : Type} `{!MemoryBase M} (k : nat) (s : DramSim M) : option (DramSim M) :=
  match k with O => Some s | S k => if dram_running s then s ← dram_step s; dram_steps k s else None end.

Lemma dram_steps_reachable (limit : Z) k (s s' : DramSim Mem3) :
  dram_reachable limit s → dram_steps k s = Some s' →
  dram_reachable limit s'.
Proof.
  revert s. induction k as [|k IH]; intros s Hs H; cbn [dram_steps] in H; [by simplify_eq|].
  destruct (dram_running s) eqn:Hr; [|done]. destruct (dram_step s) as [s1|] eqn:E; [|done]. cbn [mbind option_bind] in H.
  apply (IH s1); [|done]. by eapply DReach_step.
Qed.

(** Three reads and a write, at most two reads at a time. *)
Definition dram_text : text :=
  chars ("1000 R" ++ String newline "2000 W" ++ String newline "1040 R" ++ String newline "88000 R" ++ String newline "").
Definition dram_sim0 : DramSim Mem3 := new_dramsim 2 (init_trace dram_text false) mem3_state.
Definition dram_sim20 : DramSim Mem3 := default dram_sim0 (dram_steps 20 dram_sim0).

Example dram_finishes :
  (λ s, (Simulation.reads s, writes s, samples (latencies s), inflight_req (dwindow s))) <$>
    run_dramtrace 400 dram_sim0 = Some (3, 1, 3, 0).
Proof. vm_compute. reflexivity. Qed.

Lemma dramtrace_reads_exact_witness :
  Simulation.reads dram_sim20 = 2 ∧ inflight_req (dwindow dram_sim20) = 2 ∧ stall dram_sim20 = true ∧
  inflight_req (dwindow dram_sim20) = Z.of_nat (length (mb_reads (dmem dram_sim20))) ∧
  Z.of_nat (length (mb_reads (dmem dram_sim20))) ≤ 2.
Proof.
  assert (dram_reachable 2 dram_sim20) as Hr.
  { apply (dram_steps_reachable 2 20 dram_sim0); [apply DReach_new; [apply mem3_state_ok|vm_compute; reflexivity|vm_compute; reflexivity]|].
    unfold dram_sim20. apply (Some_default dram_sim0). vm_compute. reflexivity. }
  destruct (dramtrace_reads_exact 2 dram_sim20 Hr) as (H1&H2&_).
  split; [vm_compute; reflexivity|]. split; [vm_compute; reflexivity|]. split; [vm_compute; reflexivity|].
  split; [apply H1; lia|apply H2; lia].
Defined.

(** A processor of 3.2 GHz (312 ps) over a memory of 1250 ps. *)
Definition sim_config : Config :=
  default (new_config (mkConsts 0 0 0 0 0 0) ZSIM)
    (parse (chars ("cpu_frequency = 3200" ++ String newline "pim_mode = 0" ++ String newline "early_exit = off" ++ String newline ""))
      (new_config (mkConsts 0 0 0 0 0 0) ZSIM)).
Definition sys0 : Processor Mem3 := default idle_system (system 0).

Lemma cputrace_clock_domains_witness :
  ∃ s0, new_cpusim sim_config 1250 sys0 = Some s0 ∧ cpu_tick s0 = 156 ∧ mem_tick s0 = 625 ∧
    match run_cputrace 2000 sim_config s0 with
    | Some (stop, evs, s) => if stop then cpu_stops sim_config (proc s) = true
                             else occurs CpuTick evs = 12 ∧ occurs MemTick evs = 3
    | None => ∃ m : Mem3, mb_ok m ∧ mb_tick m = None
    end.
Proof.
  destruct (cputrace_clock_domains 2 true false sim_config 1250 312 false sys0) as (s0&E&_&_&_&_&H).
  - vm_compute. reflexivity.
  - vm_compute. reflexivity.
  - lia.
  - lia.
  - discriminate.
  - apply (system_reachable 0). unfold sys0. apply (Some_default idle_system). vm_compute. reflexivity.
  - assert (cpu_tick <$> new_cpusim sim_config 1250 sys0 = Some 156) as E1 by (vm_compute; reflexivity).
    assert (mem_tick <$> new_cpusim sim_config 1250 sys0 = Some 625) as E2 by (vm_compute; reflexivity).
    rewrite E in E1, E2. injection E1 as E1. injection E2 as E2. exists s0.
    split; [exact E|]. split; [exact E1|]. split; [exact E2|]. specialize (H 2000%nat). rewrite E1, E2 in H.
    destruct (run_cputrace 2000 sim_config s0) as [[[stop evs] s]|]; [|exact H]. destruct H as [_ H].
    destruct stop; [exact H|]. destruct H as (_&H1&H2). split; [exact H1|exact H2].
Defined.
